(* ===== verification/_CoqProject ===== *)
-Q . S2P
Prelude.v
GoStd.v
ConvMeta.v
ConvKeys.v
ConvStore.v
ConvFrame.v
ConvGate.v
ConvHandler.v
RefStore.v
ConvHandlerFacts.v
ConvTransitions.v
ConvWisp.v
ConvBudget.v
ConvDecision.v
ConvManual.v
ConvTrigger.v
ConvReconcile.v
ConvMachine.v
ConvManualProps.v
ConvTriggerProps.v
ConvCreate.v
ConvRecovery.v
BeadQuery.v
BeadMem.v
ConvAdapter.v
ConvAdapterProps.v
ConvAdapterIndex.v
SessionMachine.v
RunFailure.v
RunQA.v
RunPlan.v
RunJournal.v
RunJournalProps.v
RunQueue.v
RunQueueProps.v
RunController.v
RunFence.v
RunSpec.v
RunPreflight.v
RunRunner.v
RunRunnerFacts.v
RunDrain.v
RunHistory.v
RunOutcome.v
RunExample.v
Projector.v
ProjectorProps.v
RunPublish.v
RunLock.v
HandIntent.v
HandPlan.v
HandReach.v
HandCover.v
HandPlanProps.v
HandRecord.v
HandState.v
HandStateProps.v
HandReconcile.v
HandReconcileProps.v
HandHistory.v
HandCompile.v
HandText.v
HandOrder.v
HandCompileProps.v
HandPlanner.v
Resilience.v
PoolPlan.v
CloseOrder.v
ShellQuote.v
SessionInfo.v
SessionLifecycle.v
SessionPatch.v
SessionLifeProps.v
SessionReap.v
SessionReapProps.v
SessionTimers.v
SessionPrime.v
AwakeSet.v
AwakeOrder.v
AwakeProps.v
