(* ===== verification/Prelude.v ===== *)
(** * Verification of the Gas City delivery engine: convergence loops, unattended runs,
      deliveries and agent sessions, and the stores, locks and documents they keep

    Gas City (the Go program under src/) runs coding agents.  Work is kept in beads,
    records of a bead store; a convergence loop is a root bead whose metadata holds the
    state of an iterate-until-good-enough process.  Each iteration is a wisp, a child
    bead poured from a formula; when a wisp closes, the controller evaluates a gate and
    iterates, holds for an operator, waits for a trigger, or terminates the loop.  The
    controller may crash at any store call, agents write to the store concurrently, and
    start-up recovery has to finish what a crash left half done.

    An unattended run drains a declared plan of tasks over a worktree with nobody
    watching: it proves it stands where it declared, takes the writer lock and a fence on
    branch and commit, runs the tasks in order of preference, reads what each says of
    itself, journals every step before the next, and ends with a verdict that must not
    claim more than the mandatory gates proved.  It may be killed anywhere and is
    restarted from its journal.  A projector renders what happened for a dashboard.

    A delivery hands such a run over from a portal: an intent states what is wanted, a plan
    of work packages covers it, a compiler turns both into the run, and what the run
    published decides whether the delivery is complete or has to be repaired.

    Agents run in sessions.  A session is a bead whose metadata records its lifecycle; the
    reconciler compares it with the observed runtime on every tick, heals it, counts its
    crashes, decides which sessions should be awake, and stops those that are idle or old.

    ** Parts and how they interact

    - internal/convergence is the engine: handler.go (a wisp closed), manual.go
      (operator commands), create.go and retry.go, trigger.go, reconcile.go (recovery),
      with metadata.go, events.go, gate.go, condition.go, capture.go, hybrid.go,
      childstats.go and acl.go below them.  It talks to the world through two
      interfaces, Store and EventEmitter, and through gate scripts.
    - cmd/gc/convergence_store.go adapts a bead store to that Store interface and keeps
      an index of the active loops.
    - internal/beads is the bead store: the bead record and queries (beads.go, query.go)
      and the in-memory implementation (memstore.go, memstore_conditional.go).
    - internal/session is the session layer: state_machine.go (the command table),
      info_codec.go, info_store.go and info_apply_patch.go (the typed projection of a
      session bead), lifecycle_projection.go (what state a bead stands for),
      lifecycle_transition.go, lifecycle_exits.go, lifecycle_timers.go and
      pending_create_lease.go (what is written to it).  The reconciler of cmd/gc reads and
      writes through them: session_reconcile.go, compute_awake_set.go with
      compute_awake_bridge.go, the trackers of idle time, age, deferrals and crashes.
    - internal/unattended is the unattended run: plan.go and queue.go (the work),
      failure.go and controller.go (what an execution means), qa.go (gates and evidence),
      journal.go, fence.go and lock.go (durability and exclusion), spec.go, verdict.go,
      check.go, ownership.go, github.go and preflight.go (may the run start), runner.go
      and session.go (the run), publish.go (what it tells the dashboard).
    - internal/projector is the delivery projection: tasks, blockers and deliverables
      folded from execution events and rendered as a document.
    - internal/handoff is the delivery: intent.go, plan.go, planner.go, record.go,
      reconcile.go, plan_amend.go and plan_supersede.go (the documents and how they may
      change), compile.go (into an unattended run), state.go (where the delivery stands,
      read from the projection).
    - internal/resilience (circuit breakers), internal/poolplan (sharing the session
      creates of a cycle), internal/beads/closeorder and internal/shellquote stand alone
      and are called by the reconciler, the stores and the runtimes.

    ** Files

    - Prelude: results, errors, 64-bit integers, Go maps, tactics, shared lemmas.
    - GoStd: the parts of Go's standard library the code uses (strings, strconv,
      path/filepath, sort, time.ParseDuration with its binary64 arithmetic).
    - ConvMeta: metadata.go, gate.go, trigger.go's configuration, template.go, acl.go,
      gate_output.go, depfilter.go.  ConvKeys: idempotency keys, event identifiers and
      childstats.go.
    - ConvStore: the engine's view of the world.  A handler is a [prog], a tree of calls
      ([cmd], one constructor per Store method, event, script run and wait).  [World] is
      the bead database and the event log; [store_step] is the contract of one call,
      failures included (a failed write may or may not have happened); [rely] is what
      agents may do between calls.  [runs] is a complete run, [reaches] a run stopped
      anywhere (a crash), [wpc] the weakest precondition with a crash condition.  The
      classes [StoreImpl] and [SoundStore] are the interface an implementation meets.
    - ConvFrame: which protected keys of a root bead a program can change.
    - ConvGate: capture, truncation, retry loops and classification of gate scripts.
    - ConvHandler, ConvManual, ConvTrigger, ConvCreate, ConvReconcile: the operations of
      handler.go, manual.go, trigger.go, create.go and retry.go, reconcile.go, function
      by function and with the source's names (ConvCreate also holds its theorems).
    - RefStore: an executable in-memory world with injected faults, sound for the
      contract; the witnesses run the handlers on it.
    - ConvHandlerFacts, ConvTransitions: shared lemmas on the helpers, the ordered
      commit and the four transitions.  ConvWisp, ConvDecision, ConvBudget,
      ConvManualProps, ConvTriggerProps, ConvRecovery, ConvMachine: the theorems on the
      operations.
    - BeadQuery (Module beads), BeadMem (Module MemStore): the bead store.
    - ConvAdapter (Module convergenceStoreAdapter): the adapter over the in-memory
      store.  ConvAdapterProps, ConvAdapterIndex: its theorems.
    - RunPlan, RunQueue, RunFailure, RunController, RunQA, RunJournal, RunFence, RunSpec,
      RunPreflight and RunRunner: internal/unattended with the source's names (RunPreflight
      holds verdict.go, check.go, ownership.go, github.go and preflight.go; RunRunner holds
      runner.go and session.go).  RunQueueProps, RunJournalProps: theorems on the
      components; those on plans are in RunPlan.
    - RunRunnerFacts, RunDrain (the measure that ends the loop), RunHistory (the abstract
      protocol of a journal and its invariant over sessions) and RunOutcome: the run as a
      whole.  RunExample: a concrete packet and the witnesses.
    - Projector and ProjectorProps: internal/projector.  RunPublish: publish.go over it.
    - RunLock: lock.go as steps of interleaved sessions.
    - HandIntent, HandPlan, HandRecord, HandState, HandReconcile, HandCompile, HandPlanner:
      the files of internal/handoff (HandReconcile with both replacements of a plan,
      HandPlanner with its theorems).  HandReach and HandOrder (dependencies), HandCover
      (required behaviours), HandText, HandPlanProps, HandStateProps, HandReconcileProps,
      HandHistory (any sequence of commands) and HandCompileProps: the theorems.
    - Resilience, PoolPlan, CloseOrder (Module closeorder), ShellQuote (Module shellquote):
      the packages of those names with their theorems.
    - SessionMachine (Module session): the session command table.  SessionInfo: the codec
      and the fold of a patch.  SessionLifecycle: the projection.  SessionPatch: the
      transitions, ladders and leases.  SessionLifeProps: what the one means to the other.
    - SessionReap: healing, timers, crash, churn and rate-limit lanes of the reconciler;
      SessionReapProps its theorems; SessionPrime the priming markers over any history.
      SessionTimers: the trackers and the timer passages of the tick, with their theorems.
    - AwakeSet (Module awake): which sessions should be awake, and the facts read for it;
      AwakeOrder (map orders do not matter) and AwakeProps: its theorems.

    ** What the theorems show

    - Crash safety (ConvDecision, ConvManualProps, ConvCreate): wherever the handler
      stops, the dedup marker is untouched or the transition the decision table gives for
      the recorded outcome is wholly in the bead; a terminated loop always carries reason and actor and its event; a loop being
      created is never live before its fields are complete.
    - Functional behaviour (ConvWisp, ConvDecision, ConvBudget, ConvManualProps,
      ConvTriggerProps, ConvCreate): what each operation leaves behind when it
      succeeds, the decision table from gate outcome to action, the iteration budget,
      the replay of a recorded gate outcome.
    - Refinement (ConvMachine): every operation, interrupted anywhere, moves the loop
      along the abstract machine [loop_step]; terminated is final over any history.
    - Recovery (ConvRecovery): recovery completes an interrupted creation or terminal
      transition; it loses a manual hold interrupted between two of its writes.
    - The bead store (BeadMem, BeadQuery): identifiers are unique and never reused,
      revisions and fences make fenced updates exact, ready work is characterised,
      pagination neither skips nor repeats.
    - The adapter (ConvAdapterProps, ConvAdapterIndex): it meets the engine's contract
      for every call except pours and except child lookups that should see closed beads;
      closed wisps are invisible to it, so over it the engine's iteration count is 0.
      Theorems of the engine that speak of the count of closed children therefore hold
      of stores that list them, such as RefStore, and the adapter's gap is a finding.
    - Codecs and guards (ConvKeys, ConvMeta, ConvGate): keys and event identifiers are
      injective, gate configuration and verdicts parse as documented, output capture and
      retries are bounded.
    - The unattended run (RunOutcome, RunHistory, RunDrain): every granted run ends; its
      journal, over sessions killed anywhere, is a trace of the abstract protocol, and work
      whose success is in the journal is never started again.  The runner goes on when an
      append fails, so what needs every record is stated of histories without such losses
      (their argument [lossless]): the whole protocol, a fence just verified before every
      mutating start, the bound on resumes.  Completed means every task succeeded and every
      gate passed for the final commit.  Behaviours the code does not intend are proved of
      it too: a retry budget that restarts renew, a mutating task that continues stopping
      its own run, and a success whose record was lost running again.
    - Its components: plans are refused exactly when they cannot be executed, holds reach
      exactly the work that can no longer run, Next is the preferred runnable task, a
      gate licenses a revision exactly by an unbroken stretch of passes on it, backoff is capped doubling although computed in
      floating point, the journal reads back what was appended, numbered from 1, and a torn record makes it
      unreadable once appended to, the fence finds every change of lock, branch and
      commit, and a permitted preflight guarantees what it says.
    - Publication and projection (RunPublish, ProjectorProps): the document never claims
      completion the queue and the gates do not license, in any order of iteration over
      its tasks; replayed events change no fact; a text without backslashes survives it.
    - The writer lock (RunLock): a writer is alone and on record in every interleaving;
      two traces show what read-only sessions can do to records that are not theirs.
    - The delivery (HandPlanProps, HandCompileProps, HandStateProps, HandHistory,
      HandCover, HandOrder, HandPlanner): plans are accepted exactly when they keep the
      rules of [plan_lawful] against their intent (which order neighbouring writers of a
      path, not all of three); the compiler returns, succeeds exactly on valid
      deliveries but for one name, and what it compiles the unattended layer accepts; a
      delivery is completed exactly when the evidence is there; commands that do not
      overlap rewrite nothing recorded, while a run that does writes a stale record back;
      a plan is recovered from its packaging and never repaired; packages are ordered topologically whatever their declaration order.
    - Sessions (SessionInfo, SessionLifeProps, SessionReapProps, SessionPrime,
      SessionTimers): folding a patch into the snapshot is projecting the patched bead
      again; the transitions land on the states they name; healing settles; the fifth rapid
      death and no earlier quarantines; a tick always decides and stops a session only when
      nothing holds it, and a session one bead holds is stopped after a bounded number of
      ticks; a session counts as primed only beside a started hash, unless a clear that
      writes key by key was torn.
    - The awake set (AwakeOrder, AwakeProps), for the session that speaks for a name (names
      are shared by retired duplicates): assigned work wakes it, demand wakes the sessions it
      takes unless they are barred, parked or idle, a pool keeps its minimum through a stop
      of the city unless a claim on an idle session stands in the way, what the lifecycle
      records is what the awake set does, and no order of iteration changes a decision.
    - Resilience, PoolPlan, CloseOrder, ShellQuote: a breaker opens and probes exactly
      by its record of failures, however often it is polled, and its announcements are a
      run of an outage machine; the tokens of a cycle are dealt in turn, and a template
      that claims within its share is served; close batches are a stable blockers-first
      permutation; a quoted command line reads back as its arguments.

    ** Modelling choices

    - int, int64 and time.Duration are Z with wrap-around written out ([wrap64]); a
      time.Time is nanoseconds since Go's zero time; strings are byte strings.
    - A Go map is a gmap; a nil map is the empty one.  An error is its format string,
      its arguments and what it wraps; errors.Is(err, ErrNotFound) is a function on it.
    - Recursion over the bead tree takes a bound: [h_depth] for deleteBeadSubtree and a
      fuel argument for the activation walk.  A bound above the rank of the bead in an
      acyclic parent relation is enough ([deleteBeadSubtree_depth] and
      [activation_terminates]); loops over slices and the script retries are structural.
    - Parameters: the Unicode case table, the RFC 3339 parser, molecule.Cook and
      graphv2.IsGraphV2Formula; what a gate script does is the reply of a call.
    - The in-memory store's methods hold its mutex throughout, so an interleaving of
      clients is a sequence of operations ([MemStore.history]).
    - The runner talks to a [World], a reply for every tick of a counter each interaction
      advances; a session starts on a [Ground], what journal, preflight, lock and git
      answer.  Task pointers of the queue are positions in one shared list.
    - Fuel: the loop of a run takes one turn more than the drives its plan allows
      ([Run_returns]); holds propagate within one pass per task and one more; the cycle
      search within one level per task and one more ([findTaskCycle_exact]).
    - More parameters: [GoTables] (Unicode tables and the engine of package regexp),
      [JournalCodec] with its laws (encoding/json), clock readings and durations where a
      document shows them, and the order in which a Go map is iterated.
    - A lock directory is shared by sessions of one host; each session is at a point
      between two effects of a call, and a rename that replaces a file is two effects,
      since writeFileAtomic removes the old file first.
    - A delivery directory is a record of documents.  A command is a process that reads the
      record and writes later ([Reads], [Acts]), in any interleaving.  Parsing a URL ([UrlParser]), the
      encoding and the digests of documents ([Docs], [DocLaws]), decoding a plan and the
      text of its error are parameters; the agent that plans is a reply per attempt.
    - A session's times are text: [TimeText] with [TimeLaws] is what RFC 3339 promises;
      [Sha256] is the digest.  Clock, random draw, provider replies and the failures of
      single writes are arguments; a tick reads its clock once; what the configuration of a
      city says is a record, [CityFacts]; the orders in which ComputeAwakeSet iterates its
      maps are its first arguments.  Breakers and budgets hold a mutex in every method, so
      an interleaving of callers is a sequence of calls.  Time.Sub does not saturate.
    - Fuel of these parts: the dependency search of a plan one step per edge and one more
      ([reaches_total]), the order of packages one pass per package, the scan for a
      required behaviour one step per byte and one more, the loops of a budget one turn
      more than its tokens, the screen of an exit two turns and a timer ladder three, one
      more than the facts each can ask for.  Each is proved enough where it is used.

    ** Not modelled, and the plan

    The prompt, artifact, formula and token files of internal/convergence, the tick that
    drives the handler, the bd-backed, caching and file stores, and formula compilation and
    cooking; of the unattended run the probes that run commands and open sockets, worktrees
    and the files of heartbeats and reports; of the projection the reading of logs and the
    cursor file; of the sessions the manager with its mutation locks and message
    submission, the desired state of a city, parallel starts and drains; orders, dispatch
    and the nudge queue; the runtime providers, the API, the command line and the loading
    of configuration.  These are mostly input and output: subprocesses, sockets, files and
    provider calls, of which the modelled parts see the answers.  Next would come, in this
    order: the desired state of a city (its pool demand feeds the awake set), the drains of
    the reconciler, the session manager over the command table, order triggers, the retry
    dispatcher, the file store and the rest of internal/convergence. *)
From stdpp Require Export base strings gmap list fin_maps.
From Stdlib Require Export ZArith Lia.

#[global] Set Warnings "-register-all,-clear-no-such-hyp".

#[global] Open Scope Z_scope.
#[global] Set Default Goal Selector "!".

(** * Results: a Go pair (value, error) as a sum *)

(** A Go error value built by fmt.Errorf: the format string, the formatted
    arguments as text, and the errors wrapped with a percent-w verb.  The
    sentinel beads.ErrNotFound is the only one the code tests for. *)
Inductive error : Type :=
| ErrNotFound
| Errorf (fmt : string) (args : list string) (wrapped : list error).

Inductive res (A : Type) : Type :=
| Ok (a : A)
| Err (e : error).
Arguments Ok {A} a.
Arguments Err {A} e.

Definition is_ok {A} (r : res A) : bool :=
  match r with Ok _ => true | Err _ => false end.

(** errors.Is(err, beads.ErrNotFound): the sentinel, or any wrapped error. *)
Fixpoint errors_is_not_found (e : error) : bool :=
  match e with
  | ErrNotFound => true
  | Errorf _ _ ws => existsb errors_is_not_found ws
  end.

(** fmt.Errorf("ctx: %w", err) *)
Definition wrap (ctx : string) (e : error) : error := Errorf ctx [] [e].
(** fmt.Errorf of a message that wraps nothing. *)
Definition errmsg (fmt : string) (args : list string) : error := Errorf fmt args [].

(** * Machine integers *)

(** A Z reduced to a signed 64-bit integer, Go's int, int64 and time.Duration. *)
Definition wrap64 (z : Z) : Z := (z + 2 ^ 63) `mod` 2 ^ 64 - 2 ^ 63.
Definition max_int64 : Z := 2 ^ 63 - 1.
Definition min_int64 : Z := - 2 ^ 63.
Definition in_int64 (z : Z) : bool := (min_int64 <=? z) && (z <=? max_int64).

(** * Go maps with string values: a missing key reads as the empty string *)

Definition mget (m : gmap string string) (k : string) : string := default "" (m !! k).

(** * Tactics *)

(** Case on every match or if of the goal whose scrutinee is not a binder. *)
Ltac split_match :=
  match goal with
  | |- context [match ?x with _ => _ end] =>
      lazymatch x with
      | context [match _ with _ => _ end] => fail
      | _ => destruct x eqn:?
      end
  end.

(** Case on a match in a hypothesis. *)
Ltac split_match_in H :=
  match type of H with
  | context [match ?x with _ => _ end] =>
      lazymatch x with
      | context [match _ with _ => _ end] => fail
      | _ => destruct x eqn:?
      end
  end.

(** Decide string equality tests in the goal. *)
Ltac split_str :=
  match goal with
  | |- context [String.eqb ?a ?b] => destruct (String.eqb_spec a b)
  end.

Create HintDb gocity.
Create Rewrite HintDb gocity.

(** * Shared lemmas *)

Lemma wrap64_small z : min_int64 <= z <= max_int64 -> wrap64 z = z.
Proof.
  unfold wrap64, min_int64, max_int64. intros H.
  rewrite Z.mod_small; lia.
Qed.

Lemma wrap64_range z : min_int64 <= wrap64 z <= max_int64.
Proof.
  unfold wrap64, min_int64, max_int64.
  pose proof (Z.mod_pos_bound (z + 2 ^ 63) (2 ^ 64)); lia.
Qed.

Lemma in_int64_spec z : in_int64 z = true <-> min_int64 <= z <= max_int64.
Proof. unfold in_int64. rewrite andb_true_iff, !Z.leb_le. lia. Qed.

Lemma mget_insert m k v : mget (<[k:=v]> m) k = v.
Proof. unfold mget. by rewrite lookup_insert_eq. Qed.

Lemma mget_insert_ne m k k' v : k <> k' -> mget (<[k:=v]> m) k' = mget m k'.
Proof. intros. unfold mget. by rewrite lookup_insert_ne. Qed.

Lemma mget_insert_dec m k k' v :
  mget (<[k:=v]> m) k' = if String.eqb k k' then v else mget m k'.
Proof.
  destruct (String.eqb_spec k k') as [->|Hne].
  - apply mget_insert.
  - by apply mget_insert_ne.
Qed.

Lemma mget_empty k : mget ∅ k = "".
Proof. unfold mget. by rewrite lookup_empty. Qed.

#[export] Hint Rewrite mget_insert mget_insert_dec mget_empty : gocity.

Lemma wrap_not_found ctx e : errors_is_not_found (wrap ctx e) = errors_is_not_found e.
Proof. simpl. by rewrite orb_false_r. Qed.

Lemma existsb_false_Forall {A} (f : A -> bool) l :
  existsb f l = false <-> Forall (fun x => f x = false) l.
Proof.
  induction l as [|x l IH]; simpl; [split; [constructor|done]|].
  rewrite orb_false_iff, IH, Forall_cons. done.
Qed.

Lemma string_app_cons c (a b : string) : String c a +:+ b = String c (a +:+ b).
Proof. done. Qed.

Lemma string_app_nil_l (b : string) : "" +:+ b = b.
Proof. done. Qed.

Lemma string_app_nil_r (s : string) : s +:+ "" = s.
Proof. induction s as [|c s IH]; [done|]. by rewrite string_app_cons, IH. Qed.

Lemma string_app_assoc (a b c : string) : a +:+ (b +:+ c) = (a +:+ b) +:+ c.
Proof. induction a as [|x a IH]; [done|]. by rewrite !string_app_cons, IH. Qed.

Lemma string_app_inj_l (a b c : string) : a +:+ b = a +:+ c -> b = c.
Proof.
  induction a as [|x a IH]; [done|].
  rewrite !string_app_cons. intros [=H]. by apply IH.
Qed.

Lemma string_length_app (a b : string) :
  String.length (a +:+ b) = (String.length a + String.length b)%nat.
Proof.
  induction a as [|x a IH]; [done|]. rewrite string_app_cons. simpl. by rewrite IH.
Qed.

Lemma string_app_length_r (a c : string) : c = a +:+ c -> a = "".
Proof.
  intros H. apply (f_equal String.length) in H. rewrite string_length_app in H.
  destruct a; [done|]. simpl in H. lia.
Qed.

Lemma string_app_inj_r (a b c : string) : a +:+ c = b +:+ c -> a = b.
Proof.
  revert b. induction a as [|x a IH]; intros [|y b] H; [done| | |].
  - by apply string_app_length_r in H.
  - symmetry in H. by apply string_app_length_r in H.
  - rewrite !string_app_cons in H. injection H as -> H. f_equal. by apply IH.
Qed.
