(* ===== verification/GoStd.v ===== *)
(** The fragments of Go's standard library the modelled code uses: string search
    and trimming, strconv's integer codecs and Quote, path/filepath's lexical Clean and
    Join, time.ParseDuration with its binary64 arithmetic, Duration.String, sort.Strings,
    strings.ToUpper.  Strings are byte strings, as in Go.  The tables the library computes
    from Unicode data and the engine behind package regexp are classes of functions; the
    theorems hold for all of them. *)
From stdpp Require Import sorting.
From Stdlib Require Import Ascii DecimalString DecimalN DecimalFacts SpecFloat.
From S2P Require Import Prelude.

(** * package strings *)

Definition byte_of (c : ascii) : Z := Z.of_N (N_of_ascii c).

Fixpoint strip_prefix (p s : string) : option string :=
  match p, s with
  | EmptyString, _ => Some s
  | String a p', String b s' => if Ascii.eqb a b then strip_prefix p' s' else None
  | String _ _, EmptyString => None
  end.

Definition HasPrefix (s p : string) : bool :=
  match strip_prefix p s with Some _ => true | None => false end.

Definition TrimPrefix (s p : string) : string := default s (strip_prefix p s).

(** s[LastIndex(s, m)+len(m):], or None when LastIndex is negative. *)
Fixpoint after_last (m s : string) : option string :=
  match s with
  | EmptyString => strip_prefix m s
  | String _ s' =>
      match after_last m s' with
      | Some r => Some r
      | None => strip_prefix m s
      end
  end.

(** s[:Index(s, m)], or None when Index is negative. *)
Fixpoint before_first (m s : string) : option string :=
  match strip_prefix m s with
  | Some _ => Some ""
  | None =>
      match s with
      | EmptyString => None
      | String c s' => String c <$> before_first m s'
      end
  end.

Fixpoint Contains (s m : string) : bool :=
  HasPrefix s m || match s with EmptyString => false | String _ s' => Contains s' m end.

(** utf8.RuneSelf *)
Definition is_ascii_byte (c : ascii) : bool := byte_of c <? 128.

Fixpoint all_bytes (f : ascii -> bool) (s : string) : bool :=
  match s with EmptyString => true | String c s' => f c && all_bytes f s' end.

Definition lower_byte (c : ascii) : ascii :=
  if (65 <=? byte_of c) && (byte_of c <=? 90)
  then ascii_of_N (Z.to_N (byte_of c + 32)) else c.

Fixpoint map_bytes (f : ascii -> ascii) (s : string) : string :=
  match s with EmptyString => "" | String c s' => String (f c) (map_bytes f s') end.

(** The Unicode case tables behind strings.ToLower's slow path, which only
    strings with a byte of 128 or above reach. *)
Class UnicodeTables : Type := { unicode_lower : string -> string }.

Definition ToLower `{UnicodeTables} (s : string) : string :=
  if all_bytes is_ascii_byte s then map_bytes lower_byte s else unicode_lower s.

(** The UTF-8 encodings of the runes unicode.IsSpace accepts. *)
Definition bytes (l : list Z) : string :=
  fold_right (fun z s => String (ascii_of_N (Z.to_N z)) s) "" l.

Definition space_runes : list string :=
  map bytes ([[9]; [10]; [11]; [12]; [13]; [32]; [194; 133]; [194; 160]; [225; 154; 128]]
    ++ map (fun k => [226; 128; k]) [128; 129; 130; 131; 132; 133; 134; 135; 136; 137; 138]
    ++ [[226; 128; 168]; [226; 128; 169]; [226; 128; 175]; [226; 129; 159]; [227; 128; 128]]).

Definition strip_space (runes : list string) (s : string) : option string :=
  fold_right (fun r acc => match strip_prefix r s with Some t => Some t | None => acc end)
    None runes.

Fixpoint trim_left (fuel : nat) (runes : list string) (s : string) : string :=
  match fuel with
  | O => s
  | S f => match strip_space runes s with
           | Some t => trim_left f runes t
           | None => s
           end
  end.

Fixpoint rev_app (s acc : string) : string :=
  match s with EmptyString => acc | String c s' => rev_app s' (String c acc) end.
Definition string_rev (s : string) : string := rev_app s "".

(** strings.TrimSpace: leading runes off the front, trailing ones off the back.
    Every rune removed is at least one byte, so the length is fuel enough. *)
Definition TrimSpace (s : string) : string :=
  let l := trim_left (String.length s) space_runes s in
  string_rev (trim_left (String.length l) (map string_rev space_runes) (string_rev l)).

(** * package strconv *)

Definition Itoa (n : Z) : string := NilZero.string_of_int (Z.to_int n).

Definition parse_digits (s : string) : option Z :=
  match s with
  | EmptyString => None
  | _ => Z.of_N ∘ N.of_uint <$> NilEmpty.uint_of_string s
  end.

(** strconv.Atoi on a 64-bit platform: an optional sign, decimal digits, and a
    range check. *)
Definition Atoi (s : string) : option Z :=
  let signed :=
    match s with
    | String c s' =>
        if Ascii.eqb c "-" then Z.opp <$> parse_digits s'
        else if Ascii.eqb c "+" then parse_digits s'
        else parse_digits s
    | EmptyString => None
    end in
  match signed with
  | Some n => if in_int64 n then Some n else None
  | None => None
  end.

(** * package path/filepath (Unix) *)

Fixpoint split_on (sep : ascii) (s : string) : list string :=
  match s with
  | EmptyString => [""]
  | String c s' =>
      if Ascii.eqb c sep then "" :: split_on sep s'
      else match split_on sep s' with
           | [] => [String c ""]
           | w :: ws => String c w :: ws
           end
  end.

Fixpoint join_with (sep : string) (l : list string) : string :=
  match l with
  | [] => ""
  | [w] => w
  | w :: ws => w +:+ sep +:+ join_with sep ws
  end.

(** The stack of path elements filepath.Clean keeps, innermost first. *)
Definition clean_step (rooted : bool) (st : list string) (w : string) : list string :=
  if String.eqb w "" || String.eqb w "." then st
  else if String.eqb w ".." then
    match st with
    | [] => if rooted then [] else [".."]
    | t :: st' => if String.eqb t ".." then ".." :: st else st'
    end
  else w :: st.

Definition filepath_Clean (p : string) : string :=
  match p with
  | EmptyString => "."
  | _ =>
      let rooted := HasPrefix p "/" in
      let body := join_with "/" (rev (fold_left (clean_step rooted) (split_on "/" p) [])) in
      if rooted then "/" +:+ body
      else if String.eqb body "" then "." else body
  end.

Definition filepath_Join (elems : list string) : string :=
  match filter (fun w => String.eqb w "" = false) elems with
  | [] => ""
  | ws => filepath_Clean (join_with "/" ws)
  end.

(** * package time *)

(** A time.Time is the number of nanoseconds since Go's zero time, so IsZero
    is equality with 0; a Duration is an int64 of nanoseconds. *)
Definition IsZero (t : Z) : bool := t =? 0.

(** Time.Sub saturates at the ends of the int64 range. *)
Definition time_Sub (t u : Z) : Z := Z.max min_int64 (Z.min max_int64 (t - u)).

Definition Milliseconds (d : Z) : Z := Z.quot d 1000000.

Definition Millisecond : Z := 1000000.
Definition Second : Z := 1000 * Millisecond.
Definition Minute : Z := 60 * Second.

Definition is_digit (c : ascii) : bool := (48 <=? byte_of c) && (byte_of c <=? 57).

Fixpoint all_digits (s : string) : bool :=
  match s with EmptyString => true | String c s' => is_digit c && all_digits s' end.

(** float64 values and the operations ParseDuration applies to them. *)
Definition f64_of_Z (z : Z) : spec_float := binary_normalize 53 1024 z 0 false.
Definition f64_mul : spec_float -> spec_float -> spec_float := SFmul 53 1024.
Definition f64_div : spec_float -> spec_float -> spec_float := SFdiv 53 1024.
(** uint64(x) for a non-negative finite x. *)
Definition f64_trunc (x : spec_float) : Z :=
  match x with
  | S754_finite false m e => Z.shiftl (Z.pos m) e
  | _ => 0
  end.

(** leadingInt: None on overflow. *)
Fixpoint leadingInt (x : Z) (s : string) : option (Z * string) :=
  match s with
  | EmptyString => Some (x, s)
  | String c s' =>
      if is_digit c then
        if 2 ^ 63 / 10 <? x then None
        else let x' := x * 10 + (byte_of c - 48) in
             if 2 ^ 63 <? x' then None else leadingInt x' s'
      else Some (x, s)
  end.

(** leadingFraction: the digits read before overflow, the scale, the rest. *)
Fixpoint leadingFraction (x : Z) (scale : spec_float) (overflow : bool) (s : string)
  : Z * spec_float * string :=
  match s with
  | EmptyString => (x, scale, s)
  | String c s' =>
      if is_digit c then
        if overflow then leadingFraction x scale true s'
        else if (2 ^ 63 - 1) / 10 <? x then leadingFraction x scale true s'
        else let y := x * 10 + (byte_of c - 48) in
             if 2 ^ 63 <? y then leadingFraction x scale true s'
             else leadingFraction y (f64_mul scale (f64_of_Z 10)) false s'
      else (x, scale, s)
  end.

(** The unit: every byte up to the next digit or period. *)
Fixpoint span_unit (s : string) : string * string :=
  match s with
  | EmptyString => ("", "")
  | String c s' =>
      if Ascii.eqb c "." || is_digit c then ("", s)
      else let '(u, r) := span_unit s' in (String c u, r)
  end.

Definition unitMap (u : string) : option Z :=
  if String.eqb u "ns" then Some 1
  else if String.eqb u "us" || String.eqb u (bytes [194; 181; 115])
          || String.eqb u (bytes [206; 188; 115]) then Some 1000
  else if String.eqb u "ms" then Some Millisecond
  else if String.eqb u "s" then Some Second
  else if String.eqb u "m" then Some Minute
  else if String.eqb u "h" then Some (60 * Minute)
  else None.

(** The loop of time.ParseDuration, on the accumulated uint64 d.  Each round
    consumes at least the unit, so the length of the text is fuel enough. *)
Fixpoint parse_duration_loop (fuel : nat) (d : Z) (s : string) : option Z :=
  match s with
  | EmptyString => Some d
  | String c0 _ =>
      match fuel with
      | O => None
      | S fuel' =>
          if negb (Ascii.eqb c0 "." || is_digit c0) then None else
          match leadingInt 0 s with
          | None => None
          | Some (v, s1) =>
              let pre := negb (String.length s =? String.length s1)%nat in
              let '(f, scale, s2, post) :=
                match s1 with
                | String c s1' =>
                    if Ascii.eqb c "." then
                      let '(f, scale, s2) := leadingFraction 0 (f64_of_Z 1) false s1' in
                      (f, scale, s2, negb (String.length s1' =? String.length s2)%nat)
                    else (0, f64_of_Z 1, s1, false)
                | EmptyString => (0, f64_of_Z 1, s1, false)
                end in
              if negb pre && negb post then None else
              let '(u, s3) := span_unit s2 in
              match u, unitMap u with
              | EmptyString, _ => None
              | _, None => None
              | _, Some unit =>
                  if 2 ^ 63 / unit <? v then None else
                  let v1 := v * unit in
                  let v2 :=
                    if 0 <? f
                    then v1 + f64_trunc (f64_mul (f64_of_Z f) (f64_div (f64_of_Z unit) scale))
                    else v1 in
                  if 2 ^ 63 <? v2 then None else
                  let d' := (d + v2) `mod` 2 ^ 64 in
                  if 2 ^ 63 <? d' then None else parse_duration_loop fuel' d' s3
              end
          end
      end
  end.

Definition ParseDuration (s : string) : option Z :=
  let '(neg, s1) :=
    match s with
    | String c s' =>
        if Ascii.eqb c "-" then (true, s')
        else if Ascii.eqb c "+" then (false, s') else (false, s)
    | EmptyString => (false, s)
    end in
  if String.eqb s1 "0" then Some 0
  else match s1 with
  | EmptyString => None
  | _ =>
      match parse_duration_loop (String.length s1) 0 s1 with
      | None => None
      | Some d =>
          if neg then Some (wrap64 (- wrap64 d))
          else if 2 ^ 63 - 1 <? d then None else Some d
      end
  end.

(** * Lemmas *)

Lemma strip_prefix_app p s : strip_prefix p (p +:+ s) = Some s.
Proof.
  induction p as [|c p IH]; [done|].
  rewrite string_app_cons. simpl. by rewrite Ascii.eqb_refl.
Qed.

Lemma strip_prefix_spec p s r : strip_prefix p s = Some r <-> s = p +:+ r.
Proof.
  split.
  - revert s. induction p as [|c p IH]; intros s.
    + by intros [= ->].
    + destruct s as [|b s]; [done|]. simpl.
      destruct (Ascii.eqb_spec c b) as [->|]; [|done].
      intros H. rewrite string_app_cons. f_equal. by apply IH.
  - intros ->. apply strip_prefix_app.
Qed.

Lemma HasPrefix_spec s p : HasPrefix s p = true <-> exists r, s = p +:+ r.
Proof.
  unfold HasPrefix. split.
  - destruct (strip_prefix p s) as [r|] eqn:E; [|done].
    intros _. exists r. by apply strip_prefix_spec.
  - intros [r ->]. by rewrite strip_prefix_app.
Qed.

Lemma HasPrefix_app p s : HasPrefix (p +:+ s) p = true.
Proof. apply HasPrefix_spec. by exists s. Qed.

Lemma after_last_app a m s r : after_last m s = Some r -> after_last m (a +:+ s) = Some r.
Proof.
  intros H. induction a as [|c a IH]; [done|].
  rewrite string_app_cons. simpl. by rewrite IH.
Qed.

Lemma string_of_uint_digits d : all_digits (NilEmpty.string_of_uint d) = true.
Proof. induction d as [|d IH|d IH|d IH|d IH|d IH|d IH|d IH|d IH|d IH|d IH]; simpl; done. Qed.

Lemma uint_of_string_of_uint d :
  NilEmpty.uint_of_string (NilEmpty.string_of_uint d) = Some d.
Proof. apply NilEmpty.usu. Qed.

(** A non-negative Itoa is the digits of its binary-to-decimal conversion. *)
Lemma Itoa_nonneg n :
  0 <= n -> Itoa n = NilEmpty.string_of_uint (N.to_uint (Z.to_N n)).
Proof.
  intros Hn. unfold Itoa. destruct n as [|p|p]; [reflexivity| |lia].
  change (Z.to_int (Z.pos p)) with (Decimal.Pos (Pos.to_uint p)).
  change (N.to_uint (Z.to_N (Z.pos p))) with (Pos.to_uint p).
  unfold NilZero.string_of_int, NilZero.string_of_uint.
  destruct (Pos.to_uint p) eqn:E; try done.
  exfalso. by apply (DecimalPos.Unsigned.to_uint_nonnil p).
Qed.

Lemma Itoa_digits n : 0 <= n -> all_digits (Itoa n) = true.
Proof. intros. rewrite Itoa_nonneg by done. apply string_of_uint_digits. Qed.

Lemma to_uint_nonempty n : NilEmpty.string_of_uint (N.to_uint n) <> "".
Proof.
  destruct n as [|p]; [done|]. simpl.
  destruct (Pos.to_uint p) eqn:E; try done.
  exfalso. by apply (DecimalPos.Unsigned.to_uint_nonnil p).
Qed.

Lemma Itoa_nonempty n : Itoa n <> "".
Proof.
  destruct (Z_le_gt_dec 0 n).
  - rewrite Itoa_nonneg by done. apply to_uint_nonempty.
  - destruct n as [|p|p]; [lia|lia|]. done.
Qed.

Lemma parse_digits_to_uint n :
  parse_digits (NilEmpty.string_of_uint (N.to_uint n)) = Some (Z.of_N n).
Proof.
  unfold parse_digits.
  destruct (NilEmpty.string_of_uint (N.to_uint n)) eqn:E.
  - by apply to_uint_nonempty in E.
  - rewrite <- E, uint_of_string_of_uint. simpl.
    by rewrite DecimalN.Unsigned.of_to.
Qed.

Lemma digits_no_sign s c s' :
  all_digits s = true -> s = String c s' -> Ascii.eqb c "-" = false /\ Ascii.eqb c "+" = false.
Proof.
  intros H ->. simpl in H. apply andb_true_iff in H as [H _].
  split; apply Ascii.eqb_neq; intros ->; done.
Qed.

(** strconv.Atoi inverts strconv.Itoa on the whole int range. *)
Lemma Atoi_Itoa n : min_int64 <= n <= max_int64 -> Atoi (Itoa n) = Some n.
Proof.
  intros Hr. unfold Atoi.
  destruct (Z_le_gt_dec 0 n) as [Hn|Hn].
  - pose proof (Itoa_digits n Hn) as Hd. rewrite Itoa_nonneg in * by done.
    destruct (NilEmpty.string_of_uint (N.to_uint (Z.to_N n))) as [|c s'] eqn:E.
    { by apply to_uint_nonempty in E. }
    destruct (digits_no_sign _ c s' Hd eq_refl) as [-> ->].
    rewrite <- E, parse_digits_to_uint, Z2N.id by done.
    by apply in_int64_spec in Hr as ->.
  - destruct n as [|p|p]; [lia|lia|].
    unfold Itoa. simpl Z.to_int. unfold NilZero.string_of_int, NilZero.string_of_uint.
    assert (Hd : match Pos.to_uint p with
                 | Decimal.Nil => "0"
                 | _ => NilEmpty.string_of_uint (Pos.to_uint p)
                 end = NilEmpty.string_of_uint (N.to_uint (N.pos p))).
    { simpl. destruct (Pos.to_uint p) eqn:E; try done.
      exfalso. by apply (DecimalPos.Unsigned.to_uint_nonnil p). }
    rewrite Hd. simpl Ascii.eqb. cbv iota.
    rewrite parse_digits_to_uint.
    change (Z.opp <$> Some (Z.of_N (N.pos p))) with (Some (Z.neg p)). cbv iota.
    by apply in_int64_spec in Hr as ->.
Qed.

Lemma Itoa_inj n m :
  min_int64 <= n <= max_int64 -> min_int64 <= m <= max_int64 -> Itoa n = Itoa m -> n = m.
Proof.
  intros Hn Hm H. apply (f_equal Atoi) in H. rewrite !Atoi_Itoa in H by done.
  by injection H.
Qed.

Lemma Atoi_range s n : Atoi s = Some n -> min_int64 <= n <= max_int64.
Proof.
  unfold Atoi. intros H. apply in_int64_spec.
  repeat split_match_in H; congruence.
Qed.

(** The marker :iter: does not occur in a string of digits. *)
Lemma after_last_iter_digits s :
  all_digits s = true -> after_last ":iter:" s = None.
Proof.
  induction s as [|c s IH]; [done|]. cbn [all_digits after_last].
  intros [Hc Hs]%andb_true_iff. rewrite IH by done. cbn [strip_prefix].
  destruct (Ascii.eqb_spec ":" c) as [<-|Hne]; [|done].
  vm_compute in Hc. done.
Qed.

Lemma after_last_iter a s :
  all_digits s = true -> after_last ":iter:" (a +:+ ":iter:" +:+ s) = Some s.
Proof.
  intros Hs. apply after_last_app.
  rewrite !string_app_cons, string_app_nil_l. cbn [after_last].
  rewrite after_last_iter_digits by done.
  assert (Hi : strip_prefix "iter:" s = None).
  { destruct s as [|c s]; [done|]. cbn [strip_prefix].
    destruct (Ascii.eqb_spec "i" c) as [<-|]; [|done]. done. }
  change (strip_prefix ":iter:" (String ":" s)) with (strip_prefix "iter:" s).
  rewrite Hi. reflexivity.
Qed.

Lemma Milliseconds_range d :
  min_int64 <= d <= max_int64 -> min_int64 <= Milliseconds d <= max_int64.
Proof.
  unfold Milliseconds, min_int64, max_int64. intros H.
  pose proof (Z.quot_rem' d 1000000).
  pose proof (Z.rem_bound_abs d 1000000). lia.
Qed.

Example parse_duration_5m : ParseDuration "5m0s" = Some (5 * Minute).
Proof. vm_compute. reflexivity. Qed.

Example parse_duration_frac : ParseDuration "-1.5h" = Some (- 90 * Minute).
Proof. vm_compute. reflexivity. Qed.

Example parse_duration_bad : ParseDuration "5" = None.
Proof. vm_compute. reflexivity. Qed.

Example filepath_join_ex : filepath_Join ["/city/"; ".gc"; "a/../b"; "."] = "/city/.gc/b".
Proof. vm_compute. reflexivity. Qed.

(** The parts of the library that are data or engines of their own.
    [quote_runes], [unicode_upper] and [unicode_equal_fold] are the slow paths of
    strconv.Quote, strings.ToUpper and strings.EqualFold, reached by strings with a byte
    of 128 or above.
    [regexp_Compile p] is None when the pattern does not compile, and otherwise
    MatchString of the compiled pattern; [regexp_Error] is the text of the error.
    [regexp_ReplaceAll p s r] is ReplaceAllString. *)
Class GoTables : Type := {
  go_unicode :: UnicodeTables;
  unicode_upper : string -> string;
  unicode_equal_fold : string -> string -> bool;
  quote_runes : string -> string;
  regexp_Compile : string -> option (string -> bool);
  regexp_Error : string -> string;
  regexp_ReplaceAll : string -> string -> string -> string
}.

(** * package strings *)

Definition upper_byte (c : ascii) : ascii :=
  if (97 <=? byte_of c) && (byte_of c <=? 122)
  then ascii_of_N (Z.to_N (byte_of c - 32)) else c.

Definition ToUpper `{GoTables} (s : string) : string :=
  if all_bytes is_ascii_byte s then map_bytes upper_byte s else unicode_upper s.

Definition EqualFold `{GoTables} (a b : string) : bool :=
  if all_bytes is_ascii_byte a && all_bytes is_ascii_byte b
  then String.eqb (map_bytes lower_byte a) (map_bytes lower_byte b)
  else unicode_equal_fold a b.

Definition TrimSuffix (s suf : string) : string :=
  match strip_prefix (string_rev suf) (string_rev s) with
  | Some r => string_rev r
  | None => s
  end.

(** strings.Replace(s, old, new, 1). *)
Definition ReplaceFirst (s old new : string) : string :=
  match before_first old s with
  | Some pre => pre +:+ new +:+ String.substring (String.length pre + String.length old)
                  (String.length s) s
  | None => s
  end.

(** * package sort *)

Definition sort_Strings (l : list string) : list string := merge_sort String.le l.

(** * package strconv *)

Definition hex_digit (n : Z) : string :=
  default "" (String.get (Z.to_nat n) "0123456789abcdef" ≫= fun c => Some (String c "")).

(** One ASCII byte as strconv.Quote writes it. *)
Definition quote_byte (c : ascii) : string :=
  let b := byte_of c in
  if b =? 34 then bytes [92; 34]
  else if b =? 92 then bytes [92; 92]
  else if (32 <=? b) && (b <? 127) then String c ""
  else if b =? 7 then "\a"
  else if b =? 8 then "\b"
  else if b =? 12 then "\f"
  else if b =? 10 then "\n"
  else if b =? 13 then "\r"
  else if b =? 9 then "\t"
  else if b =? 11 then "\v"
  else "\x" +:+ hex_digit (b / 16) +:+ hex_digit (b `mod` 16).

Fixpoint quote_bytes (s : string) : string :=
  match s with EmptyString => "" | String c s' => quote_byte c +:+ quote_bytes s' end.

(** strconv.Quote, the verb percent-q on a string. *)
Definition Quote `{GoTables} (s : string) : string :=
  bytes [34] +:+ (if all_bytes is_ascii_byte s then quote_bytes s else quote_runes s)
  +:+ bytes [34].

(** * package time *)

(** The fraction of v below 10^prec, without trailing zeros, and v / 10^prec. *)
Fixpoint fmtFrac (prec : nat) (v : Z) (print : bool) (acc : string) : string * Z :=
  match prec with
  | O => (if print then "." +:+ acc else acc, v)
  | S p =>
      let digit := v `mod` 10 in
      let print' := print || negb (digit =? 0) in
      fmtFrac p (v / 10) print' (if print' then Itoa digit +:+ acc else acc)
  end.

(** Duration.String. *)
Definition Duration_String (d : Z) : string :=
  let u := Z.abs d in
  let sign := if d <? 0 then "-" else "" in
  if u =? 0 then "0s"
  else if u <? Second then
    let '(prec, unit) :=
      if u <? 1000 then (0%nat, "ns")
      else if u <? Millisecond then (3%nat, bytes [194; 181] +:+ "s") else (6%nat, "ms") in
    let '(frac, w) := fmtFrac prec u false "" in
    sign +:+ Itoa w +:+ frac +:+ unit
  else
    let '(frac, w) := fmtFrac 9 u false "" in
    let secs := Itoa (w `mod` 60) +:+ frac +:+ "s" in
    let mins := w / 60 in
    if mins =? 0 then sign +:+ secs
    else
      let tail := Itoa (mins `mod` 60) +:+ "m" +:+ secs in
      let hours := mins / 60 in
      if hours =? 0 then sign +:+ tail else sign +:+ Itoa hours +:+ "h" +:+ tail.

(** * Lemmas *)

Lemma sort_Strings_perm l : sort_Strings l ≡ₚ l.
Proof. apply merge_sort_Permutation. Qed.

Lemma elem_of_sort_Strings l x : x ∈ sort_Strings l <-> x ∈ l.
Proof. by rewrite (elem_of_Permutation_proper _ _ _ (sort_Strings_perm l)). Qed.

Lemma sort_Strings_sorted l : Sorted String.le (sort_Strings l).
Proof. apply Sorted_merge_sort, _. Qed.

Lemma sort_Strings_nil l : sort_Strings l = [] <-> l = [].
Proof.
  split; [|by intros ->]. intros H. apply Permutation_nil. rewrite <- H. apply sort_Strings_perm.
Qed.

(** A loop that appends messages is silent exactly when every turn of it is. *)
Lemma bind_nil {A B} (f : A -> list B) (l : list A) : l ≫= f = [] <-> Forall (fun a => f a = []) l.
Proof.
  induction l as [|a l IH]; [by split|]. rewrite Forall_cons, <- IH. apply app_nil.
Qed.

Lemma Duration_String_examples :
  Duration_String (5 * Second) = "5s" /\ Duration_String (2 * Minute) = "2m0s"
  /\ Duration_String 1500 = bytes [49; 46; 53; 194; 181; 115]
  /\ Duration_String (90 * Minute + 1500 * Millisecond) = "1h30m1.5s".
Proof. by vm_compute. Qed.
