(* ===== verification/ConvMeta.v ===== *)
(** The convergence metadata vocabulary (internal/convergence: metadata.go,
    gate.go, trigger.go, template.go, acl.go, depfilter.go, gate_output.go):
    the field names and enumerated values a loop keeps in its root bead's
    metadata, the verdict normaliser, the integer and duration codecs, and the
    parsers of the gate and trigger configuration. *)
From S2P Require Import Prelude GoStd.

(** * Field names and enumerated values (metadata.go) *)

Definition FieldState : string := "convergence.state".
Definition FieldIteration : string := "convergence.iteration".
Definition FieldMaxIterations : string := "convergence.max_iterations".
Definition FieldFormula : string := "convergence.formula".
Definition FieldTarget : string := "convergence.target".
Definition FieldGateMode : string := "convergence.gate_mode".
Definition FieldGateCondition : string := "convergence.gate_condition".
Definition FieldGateTimeout : string := "convergence.gate_timeout".
Definition FieldGateTimeoutAction : string := "convergence.gate_timeout_action".
Definition FieldActiveWisp : string := "convergence.active_wisp".
Definition FieldLastProcessedWisp : string := "convergence.last_processed_wisp".
Definition FieldAgentVerdict : string := "convergence.agent_verdict".
Definition FieldAgentVerdictWisp : string := "convergence.agent_verdict_wisp".
Definition FieldGateOutcome : string := "convergence.gate_outcome".
Definition FieldGateExitCode : string := "convergence.gate_exit_code".
Definition FieldGateOutcomeWisp : string := "convergence.gate_outcome_wisp".
Definition FieldGateRetryCount : string := "convergence.gate_retry_count".
Definition FieldTerminalReason : string := "convergence.terminal_reason".
Definition FieldTerminalActor : string := "convergence.terminal_actor".
Definition FieldWaitingReason : string := "convergence.waiting_reason".
Definition FieldRetrySource : string := "convergence.retry_source".
Definition FieldCityPath : string := "convergence.city_path".
Definition FieldRig : string := "convergence.rig".
Definition FieldEvaluatePrompt : string := "convergence.evaluate_prompt".
Definition FieldGateStdout : string := "convergence.gate_stdout".
Definition FieldGateStderr : string := "convergence.gate_stderr".
Definition FieldGateDurationMs : string := "convergence.gate_duration_ms".
Definition FieldGateTruncated : string := "convergence.gate_truncated".
Definition FieldPendingNextWisp : string := "convergence.pending_next_wisp".
Definition FieldTrigger : string := "convergence.trigger".
Definition FieldTriggerCondition : string := "convergence.trigger_condition".

Definition VarPrefix : string := "var.".

Definition StateCreating : string := "creating".
Definition StateActive : string := "active".
Definition StateWaitingManual : string := "waiting_manual".
Definition StateWaitingTrigger : string := "waiting_trigger".
Definition StateTerminated : string := "terminated".

Definition TriggerNone : string := "".
Definition TriggerEvent : string := "event".

Definition GateModeManual : string := "manual".
Definition GateModeCondition : string := "condition".
Definition GateModeHybrid : string := "hybrid".

Definition TimeoutActionIterate : string := "iterate".
Definition TimeoutActionRetry : string := "retry".
Definition TimeoutActionManual : string := "manual".
Definition TimeoutActionTerminate : string := "terminate".

Definition TerminalApproved : string := "approved".
Definition TerminalNoConvergence : string := "no_convergence".
Definition TerminalStopped : string := "stopped".
Definition TerminalPartialCreation : string := "partial_creation".

Definition GatePass : string := "pass".
Definition GateFail : string := "fail".
Definition GateTimeout : string := "timeout".
Definition GateError : string := "error".

Definition WaitManual : string := "manual".
Definition WaitHybridNoCondition : string := "hybrid_no_condition".
Definition WaitTimeout : string := "timeout".
Definition WaitSlingFailure : string := "sling_failure".

Definition VerdictApprove : string := "approve".
Definition VerdictApproveWithRisks : string := "approve-with-risks".
Definition VerdictBlock : string := "block".

Definition pastTenseMap (v : string) : option string :=
  if String.eqb v "approved" then Some VerdictApprove
  else if String.eqb v "blocked" then Some VerdictBlock
  else if String.eqb v "approve-with-risk" then Some VerdictApproveWithRisks
  else if String.eqb v "approved-with-risks" then Some VerdictApproveWithRisks
  else if String.eqb v "approved-with-risk" then Some VerdictApproveWithRisks
  else None.

Definition NormalizeVerdict `{UnicodeTables} (raw : string) : string :=
  let v := ToLower (TrimSpace raw) in
  if String.eqb v "" then VerdictBlock
  else match pastTenseMap v with
  | Some mapped => mapped
  | None =>
      if String.eqb v VerdictApprove || String.eqb v VerdictApproveWithRisks
         || String.eqb v VerdictBlock then v
      else VerdictBlock
  end.

Definition EncodeInt (n : Z) : string := Itoa n.

Definition DecodeInt (s : string) : Z * bool :=
  if String.eqb s "" then (0, false)
  else match Atoi s with
  | None => (0, false)
  | Some n => (n, true)
  end.

Definition DecodeDuration (s : string) : Z * bool :=
  if String.eqb s "" then (0, false)
  else match ParseDuration s with
  | None => (0, false)
  | Some d => (d, true)
  end.

(** * Gate configuration (gate.go, hybrid.go) *)

Definition DefaultGateTimeout : Z := 5 * Minute.
Definition MaxGateRetries : Z := 3.

Record GateConfig : Type := mkGateConfig {
  gc_Mode : string;
  gc_Condition : string;
  gc_Timeout : Z;
  gc_TimeoutAction : string
}.

Record GateResult : Type := mkGateResult {
  gr_Outcome : string;
  gr_ExitCode : option Z;
  gr_RetryCount : Z;
  gr_Stdout : string;
  gr_Stderr : string;
  gr_Duration : Z;
  gr_Truncated : bool
}.

(** GateResult{} *)
Definition GateResultZero : GateResult := mkGateResult "" None 0 "" "" 0 false.
Definition GateManualResult : GateResult := mkGateResult GatePass None 0 "" "" 0 false.

(** The timeout clause of ParseGateConfig. *)
Definition gate_timeout_of (meta : gmap string string) : res Z :=
  match meta !! FieldGateTimeout with
  | Some raw =>
      if String.eqb raw "" then Ok DefaultGateTimeout else
      let '(d, valid) := DecodeDuration raw in
      if negb valid then Err (errmsg "parsing gate config: invalid gate timeout %q" [raw])
      else if d <=? 0
      then Err (errmsg "parsing gate config: gate timeout must be positive, got %v" [raw])
      else Ok d
  | None => Ok DefaultGateTimeout
  end.

(** The timeout-action clause of ParseGateConfig. *)
Definition gate_action_of (meta : gmap string string) : res string :=
  match meta !! FieldGateTimeoutAction with
  | Some raw =>
      if String.eqb raw "" then Ok TimeoutActionIterate
      else if existsb (String.eqb raw) [TimeoutActionIterate; TimeoutActionRetry;
                                        TimeoutActionManual; TimeoutActionTerminate]
      then Ok raw
      else Err (errmsg "parsing gate config: invalid gate timeout action %q" [raw])
  | None => Ok TimeoutActionIterate
  end.

Definition ParseGateConfig (meta : gmap string string) : res GateConfig :=
  let mode := if String.eqb (mget meta FieldGateMode) "" then GateModeManual
              else mget meta FieldGateMode in
  if negb (existsb (String.eqb mode) [GateModeManual; GateModeCondition; GateModeHybrid])
  then Err (errmsg "parsing gate config: invalid gate mode %q" [mode]) else
  match gate_timeout_of meta with
  | Err e => Err e
  | Ok timeout =>
      match gate_action_of meta with
      | Err e => Err e
      | Ok action => Ok (mkGateConfig mode (mget meta FieldGateCondition) timeout action)
      end
  end.

Definition NeedsConditionExecution (gc : GateConfig) : bool :=
  if String.eqb (gc_Mode gc) GateModeManual then false
  else if String.eqb (gc_Mode gc) GateModeCondition || String.eqb (gc_Mode gc) GateModeHybrid
  then negb (String.eqb (gc_Condition gc) "")
  else false.

Definition HybridNeedsManual (cfg : GateConfig) : bool := String.eqb (gc_Condition cfg) "".

(** * Trigger configuration (trigger.go) *)

Record TriggerConfig : Type := mkTriggerConfig {
  tc_Mode : string;
  tc_Condition : string
}.

Definition trigger_Enabled (tc : TriggerConfig) : bool := String.eqb (tc_Mode tc) TriggerEvent.

Definition ParseTriggerConfig (meta : gmap string string) : res TriggerConfig :=
  let mode := mget meta FieldTrigger in
  let condition := mget meta FieldTriggerCondition in
  if String.eqb mode TriggerNone then Ok (mkTriggerConfig TriggerNone "")
  else if String.eqb mode TriggerEvent then
    if String.eqb condition ""
    then Err (errmsg "parsing trigger config: trigger mode %q requires a trigger condition path"
                [TriggerEvent])
    else Ok (mkTriggerConfig TriggerEvent condition)
  else Err (errmsg "parsing trigger config: invalid trigger mode %q" [mode]).

(** * Template variables (template.go) *)

Definition ArtifactDirFor (cityPath beadID : string) (iteration : Z) : string :=
  filepath_Join [cityPath; ".gc"; "artifacts"; beadID; "iter-" +:+ Itoa iteration].

(** The entries under var., with the prefix cut off.  Distinct keys keep
    distinct suffixes, so the iteration order of the source map is immaterial. *)
Definition ExtractVars (meta : gmap string string) : gmap string string :=
  list_to_map (omap (fun kv => (fun s => (s, kv.2)) <$> strip_prefix VarPrefix kv.1)
                 (map_to_list meta)).

Record TemplateContext : Type := mkTemplateContext {
  tx_BeadID : string; tx_WispID : string; tx_Iteration : Z; tx_ArtifactDir : string;
  tx_Formula : string; tx_RetrySource : string; tx_Var : gmap string string
}.

Definition NewTemplateContext (cityPath beadID wispID formulaName : string) (iteration : Z)
    (beadMeta : gmap string string) (retrySource : string) : TemplateContext :=
  mkTemplateContext beadID wispID iteration (ArtifactDirFor cityPath beadID iteration)
    formulaName retrySource (ExtractVars beadMeta).

(** * Access control (acl.go) *)

Definition ProtectedPrefix : string := "convergence.".
Definition TokenEnvVar : string := "GC_CONTROLLER_TOKEN".

Definition agentWritableKeys (key : string) : bool :=
  String.eqb key FieldAgentVerdict || String.eqb key FieldAgentVerdictWisp.

Definition RequiresToken (key : string) : bool :=
  if HasPrefix key VarPrefix then true
  else if negb (HasPrefix key ProtectedPrefix) then false
  else negb (agentWritableKeys key).

(** A nil environment map stays nil. *)
Definition ScrubTokenEnv (env : option (gmap string string)) : option (gmap string string) :=
  match env with
  | None => None
  | Some m => Some (<[TokenEnvVar := ""]> m)
  end.

(** * Dependency filters (depfilter.go) *)

Definition MatchesDependencyFilter (meta filter : gmap string string) : bool :=
  forallb (fun kv => match meta !! kv.1 with
                     | Some actual => String.eqb actual kv.2
                     | None => false
                     end) (map_to_list filter).

(** * The read side of the gate outcome (gate_output.go) *)

Record GateOutput : Type := mkGateOutput {
  go_DurationMs : string; go_ExitCode : string; go_Stdout : string; go_Stderr : string
}.

Definition GateOutputFromMetadata (meta : gmap string string) : GateOutput :=
  mkGateOutput (mget meta FieldGateDurationMs) (mget meta FieldGateExitCode)
    (mget meta FieldGateStdout) (mget meta FieldGateStderr).

Definition HasOutput (g : GateOutput) : bool :=
  negb (String.eqb (go_Stdout g) "") || negb (String.eqb (go_Stderr g) "").

Definition newline : string := bytes [10].

Definition CombinedOutput (g : GateOutput) : string :=
  if String.eqb (go_Stderr g) "" then go_Stdout g
  else (if String.eqb (go_Stdout g) "" then go_Stdout g else go_Stdout g +:+ newline)
       +:+ go_Stderr g.

(** * Well-formed configurations *)

Definition gate_config_ok (c : GateConfig) : Prop :=
  gc_Mode c ∈ [GateModeManual; GateModeCondition; GateModeHybrid]
  /\ 0 < gc_Timeout c <= max_int64
  /\ gc_TimeoutAction c ∈ [TimeoutActionIterate; TimeoutActionRetry; TimeoutActionManual;
                           TimeoutActionTerminate].

(** The text a metadata map holds parses as a gate configuration. *)
Definition gate_text_ok (meta : gmap string string) : Prop :=
  mget meta FieldGateMode ∈ [""; GateModeManual; GateModeCondition; GateModeHybrid]
  /\ (mget meta FieldGateTimeout = "" \/
      exists d, ParseDuration (mget meta FieldGateTimeout) = Some d /\ 0 < d)
  /\ mget meta FieldGateTimeoutAction ∈
       [""; TimeoutActionIterate; TimeoutActionRetry; TimeoutActionManual;
        TimeoutActionTerminate].

(** * Lemmas *)

Lemma DecodeInt_Encode n :
  min_int64 <= n <= max_int64 -> DecodeInt (EncodeInt n) = (n, true).
Proof.
  intros H. unfold DecodeInt, EncodeInt.
  destruct (String.eqb_spec (Itoa n) "") as [E|_]; [by apply Itoa_nonempty in E|].
  by rewrite Atoi_Itoa.
Qed.

Lemma DecodeInt_range s n b : DecodeInt s = (n, b) -> min_int64 <= n <= max_int64.
Proof.
  unfold DecodeInt. split_match; [intros [= <- <-]; done|].
  destruct (Atoi s) eqn:E; intros [= <- <-]; [by apply Atoi_range in E|done].
Qed.

Lemma ParseDuration_range s d : ParseDuration s = Some d -> min_int64 <= d <= max_int64.
Proof.
  assert (Hloop : forall f d0 s0 d1, 0 <= d0 -> parse_duration_loop f d0 s0 = Some d1 -> 0 <= d1).
  { induction f as [|f IH]; intros d0 s0 d1 H0 H; destruct s0 as [|c s0]; cbn in H;
      try (injection H as <-; done); try done.
    repeat split_match_in H; try discriminate;
      (eapply IH; [|exact H]; apply Z.mod_pos_bound; lia). }
  unfold ParseDuration. intros H.
  repeat split_match_in H; simplify_eq;
    try (unfold min_int64, max_int64; lia); try (by apply wrap64_range).
  all: match goal with E : parse_duration_loop _ _ _ = Some _ |- _ =>
         apply Hloop in E; [|lia] end.
  all: match goal with E : (_ <? _) = false |- _ => apply Z.ltb_ge in E end.
  all: unfold min_int64, max_int64; lia.
Qed.

Lemma eqb_or_elem (x : string) (l : list string) :
  existsb (String.eqb x) l = true <-> x ∈ l.
Proof.
  rewrite existsb_exists, list_elem_of_In. split.
  - intros [y [Hy ->%String.eqb_eq]]. done.
  - intros H. exists x. by rewrite String.eqb_refl.
Qed.

Lemma mget_lookup (m : gmap string string) k v : m !! k = Some v -> mget m k = v.
Proof. unfold mget. by intros ->. Qed.

Lemma mget_lookup_none (m : gmap string string) k : m !! k = None -> mget m k = "".
Proof. unfold mget. by intros ->. Qed.

Lemma gate_timeout_of_spec meta :
  match gate_timeout_of meta with
  | Ok d => 0 < d <= max_int64 /\
            d = (if String.eqb (mget meta FieldGateTimeout) "" then DefaultGateTimeout
                 else default 0 (ParseDuration (mget meta FieldGateTimeout)))
  | Err _ => mget meta FieldGateTimeout <> ""
             /\ forall d, ParseDuration (mget meta FieldGateTimeout) = Some d -> d <= 0
  end.
Proof.
  assert (0 < DefaultGateTimeout <= max_int64) by (split; vm_compute; congruence).
  unfold gate_timeout_of, mget.
  destruct (meta !! FieldGateTimeout) as [raw|]; [cbn [default from_option id]|done].
  destruct (String.eqb_spec raw "") as [->|Hr]; [done|].
  unfold DecodeDuration. pose proof Hr as Hr'. apply String.eqb_neq in Hr' as ->.
  destruct (ParseDuration raw) as [d|] eqn:Ed; simpl; [|done].
  apply ParseDuration_range in Ed. destruct (Z.leb_spec d 0); naive_solver lia.
Qed.

Lemma gate_action_of_spec meta :
  let raw := mget meta FieldGateTimeoutAction in
  match gate_action_of meta with
  | Ok a => a = (if String.eqb raw "" then TimeoutActionIterate else raw)
            /\ a ∈ [TimeoutActionIterate; TimeoutActionRetry; TimeoutActionManual;
                    TimeoutActionTerminate]
  | Err _ => raw <> "" /\ raw ∉ [TimeoutActionIterate; TimeoutActionRetry; TimeoutActionManual;
                                 TimeoutActionTerminate]
  end.
Proof.
  unfold gate_action_of, mget.
  destruct (meta !! FieldGateTimeoutAction) as [raw|]; [|split; [done|set_solver]].
  cbn [default from_option id].
  destruct (String.eqb_spec raw "") as [->|Hr]; [split; [done|set_solver]|].
  destruct (existsb _ _) eqn:E.
  - split; [done|]. by apply eqb_or_elem.
  - split; [done|]. intros H%eqb_or_elem. congruence.
Qed.

(** ParseGateConfig accepts exactly the metadata whose mode, timeout and
    timeout action are absent or legal, and what it returns is a legal
    configuration: a known mode, a positive timeout in the int64 range and a known
    timeout action, with manual, five minutes and iterate for the absent ones. *)
Theorem ParseGateConfig_spec meta :
  (gate_text_ok meta <-> exists c, ParseGateConfig meta = Ok c)
  /\ (forall c, ParseGateConfig meta = Ok c ->
        gate_config_ok c
        /\ gc_Mode c = (if String.eqb (mget meta FieldGateMode) "" then GateModeManual
                        else mget meta FieldGateMode)
        /\ gc_Timeout c = (if String.eqb (mget meta FieldGateTimeout) "" then DefaultGateTimeout
                           else default 0 (ParseDuration (mget meta FieldGateTimeout)))
        /\ gc_TimeoutAction c = (if String.eqb (mget meta FieldGateTimeoutAction) ""
                                 then TimeoutActionIterate
                                 else mget meta FieldGateTimeoutAction)
        /\ gc_Condition c = mget meta FieldGateCondition).
Proof.
  unfold ParseGateConfig.
  pose proof (gate_timeout_of_spec meta) as Ht. pose proof (gate_action_of_spec meta) as Ha.
  set (mode := if String.eqb (mget meta FieldGateMode) "" then _ else _).
  assert (Hmode : existsb (String.eqb mode) [GateModeManual; GateModeCondition; GateModeHybrid]
                  = true <-> mget meta FieldGateMode ∈
                             [""; GateModeManual; GateModeCondition; GateModeHybrid]).
  { rewrite eqb_or_elem. unfold mode.
    destruct (String.eqb_spec (mget meta FieldGateMode) "") as [->|]; set_solver. }
  destruct (existsb _ _) eqn:E; simpl negb; cbv iota.
  2: { split; [|done]. split; [|by intros [? ?]]. intros (H & _). apply Hmode in H. done. }
  destruct (gate_timeout_of meta) as [d|e].
  2: { split; [|done]. split; [|by intros [? ?]]. intros (_ & [H|(d & Hd & ?)] & _); [naive_solver|].
       apply Ht in Hd. lia. }
  destruct (gate_action_of meta) as [a|e].
  2: { split; [|done]. split; [|by intros [? ?]]. intros (_ & _ & H). set_solver. }
  simpl in Ht, Ha. destruct Ht as [Hd Ht], Ha as [Ha1 Ha2]. split.
  - split; [eauto|]. intros _. split; [by apply Hmode|]. split.
    + destruct (String.eqb_spec (mget meta FieldGateTimeout) "") as [->|]; [by left|right].
      destruct (ParseDuration _) as [d'|]; cbn [default from_option id] in Ht; subst d; [eauto with lia|lia].
    + destruct (String.eqb_spec (mget meta FieldGateTimeoutAction) "") as [->|]; subst; set_solver.
  - intros c [= <-]. split; [|done]. split; [by apply eqb_or_elem|done].
Qed.

(** The default configuration of an empty metadata map. *)
Lemma ParseGateConfig_witness :
  gate_config_ok (mkGateConfig GateModeManual "" DefaultGateTimeout TimeoutActionIterate).
Proof. apply (proj2 (ParseGateConfig_spec ∅)). reflexivity. Defined.

Lemma NormalizeVerdict_cases `{UnicodeTables} raw :
  let v := ToLower (TrimSpace raw) in
  (NormalizeVerdict raw = VerdictApprove <-> v = "approve" \/ v = "approved")
  /\ (NormalizeVerdict raw = VerdictApproveWithRisks <->
        v ∈ ["approve-with-risks"; "approve-with-risk"; "approved-with-risks";
             "approved-with-risk"])
  /\ NormalizeVerdict raw ∈ [VerdictApprove; VerdictApproveWithRisks; VerdictBlock].
Proof.
  intros v. unfold NormalizeVerdict, pastTenseMap. fold v. clearbody v.
  rewrite <- !eqb_or_elem.
  repeat (split_str; [subst v; vm_compute; intuition congruence|]).
  simpl. repeat (rewrite (proj2 (String.eqb_neq _ _)); [|done]).
  vm_compute. intuition congruence.
Qed.

(** The verdict normaliser is total onto the three canonical verdicts, fails
    safe (only a spelling of approval, in any case and padding, approves; every
    other text blocks), and is idempotent. *)
Theorem NormalizeVerdict_fail_safe `{UnicodeTables} raw :
  NormalizeVerdict raw ∈ [VerdictApprove; VerdictApproveWithRisks; VerdictBlock]
  /\ (NormalizeVerdict raw <> VerdictBlock <->
        ToLower (TrimSpace raw) ∈
          ["approve"; "approved"; "approve-with-risks"; "approve-with-risk";
           "approved-with-risks"; "approved-with-risk"])
  /\ NormalizeVerdict (NormalizeVerdict raw) = NormalizeVerdict raw.
Proof.
  destruct (NormalizeVerdict_cases raw) as (Ha & Hr & Hc). split; [done|].
  rewrite !elem_of_cons, elem_of_nil in Hc. rewrite !elem_of_cons, elem_of_nil in Hr.
  rewrite !elem_of_cons, elem_of_nil.
  assert (VerdictBlock <> VerdictApprove) by done.
  assert (VerdictBlock <> VerdictApproveWithRisks) by done. split.
  - split; [intros Hb; tauto|]. intros Hv E. rewrite E in Ha, Hr. tauto.
  - destruct Hc as [->|[->|[->|[]]]]; vm_compute; reflexivity.
Qed.

(** The controller-token guard: of the keys under the convergence namespace
    exactly the two verdict keys are open to agents, every template variable is
    protected, and keys outside both namespaces are free. *)
Theorem RequiresToken_spec key :
  RequiresToken key = true <->
    HasPrefix key VarPrefix = true
    \/ HasPrefix key ProtectedPrefix = true
       /\ key <> FieldAgentVerdict /\ key <> FieldAgentVerdictWisp.
Proof.
  unfold RequiresToken, agentWritableKeys.
  destruct (HasPrefix key VarPrefix) eqn:Hv; [naive_solver|].
  destruct (HasPrefix key ProtectedPrefix) eqn:Hp; simpl; [|naive_solver].
  rewrite negb_true_iff, orb_false_iff, !String.eqb_neq. naive_solver.
Qed.
