(* ===== verification/ConvKeys.v ===== *)
(** Keys, event identifiers and child statistics of a convergence loop
    (internal/convergence: the key functions of handler.go, the EventID functions
    of events.go, childstats.go). *)
From S2P Require Import Prelude GoStd ConvMeta.
From Stdlib Require Import Ascii.

(** * Bead information and idempotency keys (handler.go) *)

Record BeadInfo : Type := mkBeadInfo {
  bi_ID : string;
  bi_Status : string;
  bi_ParentID : string;
  bi_IdempotencyKey : string;
  bi_CreatedAt : Z;
  bi_ClosedAt : Z
}.

(** BeadInfo{} *)
Definition BeadInfoZero : BeadInfo := mkBeadInfo "" "" "" "" 0 0.

Definition IdempotencyKeyPrefix (beadID : string) : string :=
  "converge:" +:+ beadID +:+ ":iter:".

Definition IdempotencyKey (beadID : string) (iteration : Z) : string :=
  "converge:" +:+ beadID +:+ ":iter:" +:+ Itoa iteration.

Definition ParseIterationFromKey (key : string) : Z * bool :=
  match after_last ":iter:" key with
  | None => (0, false)
  | Some numStr =>
      match Atoi numStr with
      | None => (0, false)
      | Some n => if n <? 0 then (0, false) else (n, true)
      end
  end.

(** * Event identifiers (events.go) *)

Definition EventIDCreated (b : string) : string := "converge:" +:+ b +:+ ":created".
Definition EventIDIteration (b : string) (n : Z) : string :=
  "converge:" +:+ b +:+ ":iter:" +:+ Itoa n +:+ ":iteration".
Definition EventIDWaitingManual (b : string) (n : Z) : string :=
  "converge:" +:+ b +:+ ":iter:" +:+ Itoa n +:+ ":waiting_manual".
Definition EventIDTerminated (b : string) : string := "converge:" +:+ b +:+ ":terminated".
Definition EventIDManualApprove (b : string) : string :=
  "converge:" +:+ b +:+ ":manual_approve".
Definition EventIDManualIterate (b : string) (n : Z) : string :=
  "converge:" +:+ b +:+ ":iter:" +:+ Itoa n +:+ ":manual_iterate".
Definition EventIDManualStop (b : string) : string := "converge:" +:+ b +:+ ":manual_stop".
Definition EventIDTriggerAdvance (b : string) (n : Z) : string :=
  "converge:" +:+ b +:+ ":iter:" +:+ Itoa n +:+ ":trigger_advance".

(** The eight events, with the bead and, where the event carries one, the
    iteration its identifier is built from. *)
Inductive event_ref : Type :=
| RefCreated (b : string)
| RefIteration (b : string) (n : Z)
| RefWaitingManual (b : string) (n : Z)
| RefTerminated (b : string)
| RefManualApprove (b : string)
| RefManualIterate (b : string) (n : Z)
| RefManualStop (b : string)
| RefTriggerAdvance (b : string) (n : Z).

Definition event_id (r : event_ref) : string :=
  match r with
  | RefCreated b => EventIDCreated b
  | RefIteration b n => EventIDIteration b n
  | RefWaitingManual b n => EventIDWaitingManual b n
  | RefTerminated b => EventIDTerminated b
  | RefManualApprove b => EventIDManualApprove b
  | RefManualIterate b n => EventIDManualIterate b n
  | RefManualStop b => EventIDManualStop b
  | RefTriggerAdvance b n => EventIDTriggerAdvance b n
  end.

(** The suffix word, the bead and the optional iteration of an event. *)
Definition event_parts (r : event_ref) : string * string * option Z :=
  match r with
  | RefCreated b => ("created", b, None)
  | RefIteration b n => ("iteration", b, Some n)
  | RefWaitingManual b n => ("waiting_manual", b, Some n)
  | RefTerminated b => ("terminated", b, None)
  | RefManualApprove b => ("manual_approve", b, None)
  | RefManualIterate b n => ("manual_iterate", b, Some n)
  | RefManualStop b => ("manual_stop", b, None)
  | RefTriggerAdvance b n => ("trigger_advance", b, Some n)
  end.

Definition ref_iteration_ok (r : event_ref) : Prop :=
  match event_parts r with (_, _, Some n) => 0 <= n <= max_int64 | _ => True end.

(** * Child statistics (childstats.go) *)

Record ChildStats : Type := mkChildStats {
  cs_ClosedCount : Z;
  cs_CumulativeDur : Z;
  cs_HighestClosed : BeadInfo;
  cs_HighestClosedIter : Z;
  cs_HighestClosedFound : bool;
  cs_HighestOpen : BeadInfo;
  cs_HighestOpenIter : Z;
  cs_HighestOpenFound : bool
}.

(** One round of childStats' loop. *)
Definition childStats_step (prefix : string) (s : ChildStats) (child : BeadInfo) : ChildStats :=
  if negb (HasPrefix (bi_IdempotencyKey child) prefix) then s else
  let '(iter, iterOK) := ParseIterationFromKey (bi_IdempotencyKey child) in
  if String.eqb (bi_Status child) "closed" then
    let dur :=
      if negb (IsZero (bi_ClosedAt child)) && negb (IsZero (bi_CreatedAt child))
      then wrap64 (cs_CumulativeDur s + time_Sub (bi_ClosedAt child) (bi_CreatedAt child))
      else cs_CumulativeDur s in
    let better := iterOK && (cs_HighestClosedIter s <? iter) in
    mkChildStats (cs_ClosedCount s + 1) dur
      (if better then child else cs_HighestClosed s)
      (if better then iter else cs_HighestClosedIter s)
      (if better then true else cs_HighestClosedFound s)
      (cs_HighestOpen s) (cs_HighestOpenIter s) (cs_HighestOpenFound s)
  else if String.eqb (bi_Status child) "open" || String.eqb (bi_Status child) "in_progress" then
    let better := iterOK && (cs_HighestOpenIter s <? iter) in
    mkChildStats (cs_ClosedCount s) (cs_CumulativeDur s)
      (cs_HighestClosed s) (cs_HighestClosedIter s) (cs_HighestClosedFound s)
      (if better then child else cs_HighestOpen s)
      (if better then iter else cs_HighestOpenIter s)
      (if better then true else cs_HighestOpenFound s)
  else s.

Definition childStats (children : list BeadInfo) (beadID : string) : ChildStats :=
  fold_left (childStats_step (IdempotencyKeyPrefix beadID)) children
    (mkChildStats 0 0 BeadInfoZero (-1) false BeadInfoZero (-1) false).

(** A closed wisp of the loop, and an open or running one. *)
Definition closed_wisp (beadID : string) (c : BeadInfo) : bool :=
  HasPrefix (bi_IdempotencyKey c) (IdempotencyKeyPrefix beadID)
  && String.eqb (bi_Status c) "closed".
Definition open_wisp (beadID : string) (c : BeadInfo) : bool :=
  HasPrefix (bi_IdempotencyKey c) (IdempotencyKeyPrefix beadID)
  && (String.eqb (bi_Status c) "open" || String.eqb (bi_Status c) "in_progress").

(** [best], its iteration and the found flag describe the highest parseable
    iteration among the children [P] accepts, the first of equals. *)
Definition highest_of (P : BeadInfo -> bool) (l : list BeadInfo)
    (best : BeadInfo) (iter : Z) (found : bool) : Prop :=
  (found = false -> iter = -1)
  /\ (found = true -> best ∈ l /\ P best = true
        /\ ParseIterationFromKey (bi_IdempotencyKey best) = (iter, true))
  /\ (forall c n, c ∈ l -> P c = true ->
        ParseIterationFromKey (bi_IdempotencyKey c) = (n, true) -> found = true /\ n <= iter).

(** * Lemmas *)

Lemma app4 (a b c d : string) : a +:+ b +:+ c +:+ d = (a +:+ b) +:+ c +:+ d.
Proof. by rewrite string_app_assoc. Qed.

Lemma ParseIteration_Key b n :
  0 <= n <= max_int64 -> ParseIterationFromKey (IdempotencyKey b n) = (n, true).
Proof.
  intros Hn. unfold ParseIterationFromKey, IdempotencyKey.
  rewrite app4, after_last_iter by (apply Itoa_digits; lia).
  rewrite Atoi_Itoa by (unfold min_int64; lia).
  destruct (Z.ltb_spec n 0); [lia|done].
Qed.

Lemma ParseIteration_range key n b :
  ParseIterationFromKey key = (n, b) -> 0 <= n <= max_int64.
Proof.
  unfold ParseIterationFromKey.
  destruct (after_last _ _) as [s|]; [|intros [= <- <-]; done].
  destruct (Atoi s) as [m|] eqn:E; [|intros [= <- <-]; done].
  apply Atoi_range in E. destruct (Z.ltb_spec m 0); intros [= <- <-]; [done|lia].
Qed.

Lemma IdempotencyKey_prefix b n : HasPrefix (IdempotencyKey b n) (IdempotencyKeyPrefix b) = true.
Proof.
  apply HasPrefix_spec. exists (Itoa n). unfold IdempotencyKey, IdempotencyKeyPrefix.
  by rewrite !string_app_assoc.
Qed.

Lemma IdempotencyKey_eq_split b n b' n' :
  0 <= n <= max_int64 -> 0 <= n' <= max_int64 ->
  IdempotencyKey b n = IdempotencyKey b' n' -> b = b' /\ n = n'.
Proof.
  intros Hn Hn' E. pose proof (f_equal ParseIterationFromKey E) as E'.
  rewrite !ParseIteration_Key in E' by done. injection E' as ->. split; [|done].
  unfold IdempotencyKey in E. apply string_app_inj_l, string_app_inj_r in E. done.
Qed.

(** An event word has no colon, so the last colon of an identifier starts it. *)
Lemma after_last_colon a k :
  after_last ":" k = None -> after_last ":" (a +:+ ":" +:+ k) = Some k.
Proof.
  intros Hk. apply after_last_app. rewrite string_app_cons, string_app_nil_l.
  cbn [after_last]. rewrite Hk. apply (strip_prefix_app ":" k).
Qed.

Lemma event_id_shape r :
  exists k, event_parts r = (k, (event_parts r).1.2, (event_parts r).2)
    /\ after_last ":" k = None
    /\ event_id r = (match (event_parts r).2 with
                     | Some n => IdempotencyKey (event_parts r).1.2 n
                     | None => "converge:" +:+ (event_parts r).1.2
                     end) +:+ ":" +:+ k.
Proof.
  destruct r; simpl; eexists; (split; [reflexivity|]); (split; [vm_compute; reflexivity|]);
    unfold EventIDCreated, EventIDIteration, EventIDWaitingManual, EventIDTerminated,
      EventIDManualApprove, EventIDManualIterate, EventIDManualStop, EventIDTriggerAdvance,
      IdempotencyKey; by rewrite <- ?string_app_assoc.
Qed.

Lemma event_parts_inj r r' : event_parts r = event_parts r' -> r = r'.
Proof. destruct r, r'; simpl; congruence. Qed.

Lemma event_parts_kind r r' :
  (event_parts r).1.1 = (event_parts r').1.1 ->
  is_Some (event_parts r).2 <-> is_Some (event_parts r').2.
Proof. destruct r, r'; simpl; intros H; try discriminate H; split; eauto. Qed.

(** An idempotency key determines the loop and the iteration it was built
    for, and ParseIterationFromKey reads the iteration back, for every bead id and
    every iteration of the int range. *)
Theorem IdempotencyKey_roundtrip b n b' n' :
  0 <= n <= max_int64 -> 0 <= n' <= max_int64 ->
  ParseIterationFromKey (IdempotencyKey b n) = (n, true)
  /\ (IdempotencyKey b n = IdempotencyKey b' n' -> b = b' /\ n = n').
Proof.
  intros Hn Hn'. split; [by apply ParseIteration_Key|by apply IdempotencyKey_eq_split].
Qed.

Lemma IdempotencyKey_roundtrip_witness :
  ParseIterationFromKey (IdempotencyKey "gc-7:iter:3" 12) = (12, true).
Proof.
  apply (IdempotencyKey_roundtrip "gc-7:iter:3" 12 "gc-7" 1); split; vm_compute; congruence.
Defined.

(** Event identifiers never collide: two events with the same identifier are
    the same event of the same loop and the same iteration, so a consumer that
    deduplicates on the identifier drops only replays. *)
Theorem event_id_injective r r' :
  ref_iteration_ok r -> ref_iteration_ok r' -> event_id r = event_id r' -> r = r'.
Proof.
  intros Hr Hr' E. apply event_parts_inj.
  destruct (event_id_shape r) as (k & Hp & Hk & Hs).
  destruct (event_id_shape r') as (k' & Hp' & Hk' & Hs').
  assert (k = k') as <-.
  { rewrite Hs, Hs' in E. apply (f_equal (after_last ":")) in E.
    rewrite !after_last_colon in E by done. by injection E. }
  rewrite Hs, Hs' in E. apply string_app_inj_r in E.
  pose proof (event_parts_kind r r') as Hkind.
  unfold ref_iteration_ok in Hr, Hr'.
  destruct (event_parts r) as [[w b] [n|]], (event_parts r') as [[w' b'] [n'|]];
    cbn [fst snd] in *; injection Hp as Hw; injection Hp' as Hw'; subst w w'.
  - apply IdempotencyKey_eq_split in E as [-> ->]; done.
  - destruct Hkind as [[? [=]] _]; eauto.
  - destruct Hkind as [_ [? [=]]]; eauto.
  - apply string_app_inj_l in E as ->. done.
Qed.

Lemma event_id_injective_witness :
  RefIteration "gc-1" 2 = RefIteration "gc-1" (1 + 1).
Proof.
  apply (event_id_injective (RefIteration "gc-1" 2) (RefIteration "gc-1" (1 + 1)));
    [split; vm_compute; congruence..|vm_compute; reflexivity].
Defined.

(** Appending a child to the scanned list is one more round of the loop. *)
Lemma childStats_app l c b :
  childStats (l ++ [c]) b = childStats_step (IdempotencyKeyPrefix b) (childStats l b) c.
Proof. unfold childStats. by rewrite fold_left_app. Qed.

(** The closed count is the number of closed wisps of the loop. *)
Lemma childStats_closed l b :
  cs_ClosedCount (childStats l b) = Z.of_nat (length (List.filter (closed_wisp b) l)).
Proof.
  induction l as [|c l IH] using rev_ind; [done|].
  rewrite childStats_app, List.filter_app, length_app, Nat2Z.inj_add, <- IH.
  unfold childStats_step. simpl List.filter. unfold closed_wisp at 1.
  destruct (HasPrefix _ _); simpl; [|lia].
  destruct (ParseIterationFromKey _) as [n ok].
  destruct (String.eqb (bi_Status c) "closed"); simpl; [lia|]. destruct (_ || _); simpl; lia.
Qed.

(** The projection a round of the loop applies to a best-so-far triple. *)
Lemma highest_of_snoc P l best iter found c n ok :
  highest_of P l best iter found ->
  ParseIterationFromKey (bi_IdempotencyKey c) = (n, ok) ->
  let better := P c && (ok && (iter <? n)) in
  highest_of P (l ++ [c]) (if better then c else best) (if better then n else iter)
    (if better then true else found).
Proof.
  intros (H0 & H1 & H2) Hp better.
  assert (Hn : 0 <= n) by (apply ParseIteration_range in Hp; lia).
  assert (Hi : found = true -> 0 <= iter).
  { intros Hf. destruct (H1 Hf) as (_ & _ & Hb). apply ParseIteration_range in Hb. lia. }
  assert (Hin : forall c', c' ∈ l ++ [c] -> c' ∈ l \/ c' = c) by set_solver.
  unfold better. destruct (P c) eqn:HP; cbn [andb]; cycle 1.
  { split; [done|]. split; [set_solver|].
    intros c' m Hc' HPc Hm. destruct (Hin _ Hc') as [?| ->]; [eauto|congruence]. }
  destruct ok; cbn [andb]; cycle 1.
  { split; [done|]. split; [set_solver|].
    intros c' m Hc' HPc Hm. destruct (Hin _ Hc') as [?| ->]; [eauto|congruence]. }
  destruct (Z.ltb_spec iter n).
  - split; [done|]. split; [set_solver|].
    intros c' m Hc' HPc Hm. destruct (Hin _ Hc') as [Hl| ->].
    + destruct (H2 _ _ Hl HPc Hm). split; [done|lia].
    + rewrite Hp in Hm. injection Hm as ->. split; [done|lia].
  - split; [done|]. split; [set_solver|].
    intros c' m Hc' HPc Hm. destruct (Hin _ Hc') as [?| ->]; [eauto|].
    rewrite Hp in Hm. injection Hm as ->. destruct found; [auto|].
    rewrite H0 in * by done. lia.
Qed.

Lemma highest_of_nil P : highest_of P [] BeadInfoZero (-1) false.
Proof. split; [done|]. split; [done|]. intros ? ? ?%elem_of_nil. done. Qed.

(** childStats computes its projections from one scan: the count is the number
    of closed wisps of this loop whether or not their iteration parses, and the
    highest closed and the highest open wisp are children of the right status whose
    iteration is the greatest parseable one, found exactly when one exists. *)
Theorem childStats_spec l b :
  let s := childStats l b in
  cs_ClosedCount s = Z.of_nat (length (List.filter (closed_wisp b) l))
  /\ highest_of (closed_wisp b) l (cs_HighestClosed s) (cs_HighestClosedIter s)
       (cs_HighestClosedFound s)
  /\ highest_of (open_wisp b) l (cs_HighestOpen s) (cs_HighestOpenIter s)
       (cs_HighestOpenFound s).
Proof.
  induction l as [|c l IH] using rev_ind; simpl in *.
  { split; [done|]. split; apply highest_of_nil. }
  destruct IH as (Hn & Hc & Ho). rewrite childStats_app, List.filter_app, length_app.
  set (s := childStats l b) in *. clearbody s.
  destruct (ParseIterationFromKey (bi_IdempotencyKey c)) as [n ok] eqn:Hp.
  apply (highest_of_snoc _ _ _ _ _ c n ok) in Hc, Ho; [|done..].
  revert Hc Ho. unfold childStats_step, closed_wisp, open_wisp. rewrite Hp. simpl List.filter.
  fold (closed_wisp b). unfold closed_wisp at 3.
  destruct (HasPrefix _ _); simpl; [|by rewrite Z.add_0_r in * || (intros; split; [lia|done])].
  destruct (String.eqb_spec (bi_Status c) "closed") as [E|_]; simpl.
  - rewrite E. simpl. intros Hc Ho. split; [lia|done].
  - destruct (_ || _); simpl; intros Hc Ho; (split; [lia|done]).
Qed.
