(* ===== verification/ConvStore.v ===== *)
(** The convergence handler's view of the world (internal/convergence:
    the Store and EventEmitter interfaces of handler.go and events.go).

    Handlers are programs of a free monad over the calls they make ([cmd]); the
    contract of the Store interface is a relation [store_step] between a call, its
    reply and the bead database before and after, in which every call may fail,
    a failing write may or may not have taken effect, and agents without the
    controller token may act between any two calls ([rely]).  [wpc] is the
    crash-aware weakest precondition: the postcondition at the end of the program
    and the crash condition after every single call. *)
From S2P Require Import Prelude GoStd ConvMeta ConvKeys.

(** * Event payloads (events.go) *)

Definition EventCreated : string := "convergence.created".
Definition EventIteration : string := "convergence.iteration".
Definition EventTerminated : string := "convergence.terminated".
Definition EventWaitingManual : string := "convergence.waiting_manual".
Definition EventManualApprove : string := "convergence.manual_approve".
Definition EventManualIterate : string := "convergence.manual_iterate".
Definition EventManualStop : string := "convergence.manual_stop".
Definition EventTriggerAdvance : string := "convergence.trigger_advance".

Record CreatedPayload : Type := mkCreatedPayload {
  cp_Formula : string; cp_Target : string; cp_Rig : string; cp_GateMode : string;
  cp_MaxIterations : Z; cp_Title : string; cp_FirstWispID : string;
  cp_RetrySource : option string
}.

Record GateResultPayload : Type := mkGateResultPayload {
  gp_ExitCode : option Z; gp_Stdout : string; gp_Stderr : string;
  gp_DurationMs : Z; gp_Truncated : bool
}.

Record IterationPayload : Type := mkIterationPayload {
  ip_Rig : string; ip_Iteration : Z; ip_WispID : string; ip_AgentVerdict : string;
  ip_GateMode : string; ip_GateOutcome : option string;
  ip_GateResult : option GateResultPayload; ip_GateRetryCount : Z; ip_Action : string;
  ip_WaitingReason : option string; ip_NextWispID : option string;
  ip_IterationDurationMs : Z; ip_CumulativeDurationMs : Z
}.

Record TerminatedPayload : Type := mkTerminatedPayload {
  tp_Rig : string; tp_TerminalReason : string; tp_TotalIterations : Z;
  tp_FinalStatus : string; tp_Actor : string; tp_CumulativeDurationMs : Z
}.

Record WaitingManualPayload : Type := mkWaitingManualPayload {
  wp_Rig : string; wp_Iteration : Z; wp_WispID : string; wp_AgentVerdict : string;
  wp_GateMode : string; wp_GateOutcome : option string;
  wp_GateResult : option GateResultPayload; wp_Reason : string;
  wp_IterationDurationMs : Z; wp_CumulativeDurationMs : Z
}.

Record ManualActionPayload : Type := mkManualActionPayload {
  mp_Rig : string; mp_Actor : string; mp_PriorState : string; mp_NewState : string;
  mp_Iteration : Z; mp_WispID : option string; mp_NextWispID : option string
}.

Inductive Payload : Type :=
| PCreated (p : CreatedPayload)
| PIteration (p : IterationPayload)
| PTerminated (p : TerminatedPayload)
| PWaitingManual (p : WaitingManualPayload)
| PManualAction (p : ManualActionPayload).

Definition NullableString (s : string) : option string :=
  if String.eqb s "" then None else Some s.

Definition GateResultToPayload (r : GateResult) : option GateResultPayload :=
  if String.eqb (gr_Outcome r) "" then None
  else Some (mkGateResultPayload (gr_ExitCode r) (gr_Stdout r) (gr_Stderr r)
               (Milliseconds (gr_Duration r)) (gr_Truncated r)).

(** withEventRig's type switch, for a non-empty rig. *)
Definition payload_with_rig (rig : string) (p : Payload) : Payload :=
  match p with
  | PCreated c => PCreated (mkCreatedPayload (cp_Formula c) (cp_Target c) rig (cp_GateMode c)
      (cp_MaxIterations c) (cp_Title c) (cp_FirstWispID c) (cp_RetrySource c))
  | PIteration i => PIteration (mkIterationPayload rig (ip_Iteration i) (ip_WispID i)
      (ip_AgentVerdict i) (ip_GateMode i) (ip_GateOutcome i) (ip_GateResult i)
      (ip_GateRetryCount i) (ip_Action i) (ip_WaitingReason i) (ip_NextWispID i)
      (ip_IterationDurationMs i) (ip_CumulativeDurationMs i))
  | PTerminated t => PTerminated (mkTerminatedPayload rig (tp_TerminalReason t)
      (tp_TotalIterations t) (tp_FinalStatus t) (tp_Actor t) (tp_CumulativeDurationMs t))
  | PWaitingManual m => PWaitingManual (mkWaitingManualPayload rig (wp_Iteration m)
      (wp_WispID m) (wp_AgentVerdict m) (wp_GateMode m) (wp_GateOutcome m) (wp_GateResult m)
      (wp_Reason m) (wp_IterationDurationMs m) (wp_CumulativeDurationMs m))
  | PManualAction a => PManualAction (mkManualActionPayload rig (mp_Actor a) (mp_PriorState a)
      (mp_NewState a) (mp_Iteration a) (mp_WispID a) (mp_NextWispID a))
  end.

Record Event : Type := mkEvent {
  ev_Type : string; ev_ID : string; ev_Bead : string; ev_Payload : Payload; ev_Recovery : bool
}.

(** * Gate scripts (condition.go) *)

Record ConditionEnv : Type := mkConditionEnv {
  ce_BeadID : string; ce_Iteration : Z; ce_CityPath : string; ce_StorePath : string;
  ce_WorkDir : string; ce_WispID : string; ce_DocPath : string; ce_MoleculeDir : string;
  ce_ArtifactDir : string; ce_IterationDurationMs : Z; ce_CumulativeDurationMs : Z;
  ce_MaxIterations : Z; ce_AgentVerdict : string; ce_AgentProvider : string;
  ce_AgentModel : string
}.

(** What one execution of a script shows the caller: whether the parent context
    and the per-script deadline were over, cmd.Run's error, the writes the process
    made to its two streams, and the wall-clock time. *)
Inductive run_error : Type :=
| RunExit (code : Z)
| RunOther (msg : string).

Record ScriptRun : Type := mkScriptRun {
  sr_parent_done : bool;
  sr_deadline : bool;
  sr_err : option run_error;
  sr_stdout : list string;
  sr_stderr : list string;
  sr_duration : Z
}.

(** * Calls and programs *)

Inductive cmd : Type -> Type :=
| GetBead (id : string) : cmd (res BeadInfo)
| GetMetadata (id : string) : cmd (res (gmap string string))
| SetMetadata (id key value : string) : cmd (res unit)
| CloseBead (id reason : string) : cmd (res unit)
| DeleteBead (id : string) : cmd (res unit)
| Children (parentID : string) : cmd (res (list BeadInfo))
| PourWisp (parentID formula key : string) (vars : gmap string string) (prompt : string)
    : cmd (res string)
| PourSpeculativeWisp (parentID formula key : string) (vars : gmap string string)
    (prompt : string) : cmd (res string)
| ActivateWisp (id : string) : cmd (res unit)
| FindByIdempotencyKey (key : string) : cmd (res (string * bool))
| CountActiveConvergenceLoops (agent : string) : cmd (res Z)
| CreateConvergenceBead (title : string) : cmd (res string)
| Emit (ev : Event) : cmd unit
| RunScript (path dir : string) (env : ConditionEnv) (timeout : Z) : cmd ScriptRun
| WaitOrDone (delay : Z) : cmd bool.

Inductive prog (A : Type) : Type :=
| Ret (a : A)
| Op {R : Type} (c : cmd R) (k : R -> prog A).
Arguments Ret {A} a.
Arguments Op {A R} c k.

Fixpoint bind {A B} (p : prog A) (f : A -> prog B) : prog B :=
  match p with
  | Ret a => f a
  | Op c k => Op c (fun r => bind (k r) f)
  end.

Definition call {R} (c : cmd R) : prog R := Op c Ret.

Declare Scope prog_scope.
Delimit Scope prog_scope with prog.
Notation "'let!' x ':=' p 'in' q" := (bind p (fun x => q))
  (at level 10, x pattern, p at level 100, q at level 200) : prog_scope.
(** if err != nil { return zero, fmt.Errorf("ctx: %w", err) } *)
Notation "'try!' x ':=' p 'or' ctx 'in' q" :=
  (bind p (fun r => match r with Ok x => q | Err e => Ret (Err (wrap ctx e)) end))
  (at level 10, x pattern, p at level 100, ctx at level 0, q at level 200) : prog_scope.
(** The same with the error built from err by [f]. *)
Notation "'try!' x ':=' p 'else' f 'in' q" :=
  (bind p (fun r => match r with Ok x => q | Err e => Ret (Err (f e)) end))
  (at level 10, x pattern, p at level 100, f at level 100, q at level 200) : prog_scope.
(** The same with the error returned as it is. *)
Notation "'try!' x ':=' p 'in' q" :=
  (bind p (fun r => match r with Ok x => q | Err e => Ret (Err e) end))
  (at level 10, x pattern, p at level 100, q at level 200) : prog_scope.
(** _ = call *)
Notation "'ignore!' p 'in' q" := (bind p (fun _ => q))
  (at level 10, p at level 100, q at level 200) : prog_scope.

(** * The world: the bead database and the event log *)

Record Bead : Type := mkBead {
  b_status : string;
  b_parent : string;
  b_key : string;
  b_created : Z;
  b_closed : Z;
  b_meta : gmap string string
}.

Record World : Type := mkWorld {
  w_beads : gmap string Bead;
  w_events : list Event
}.

Definition bead_info (id : string) (b : Bead) : BeadInfo :=
  mkBeadInfo id (b_status b) (b_parent b) (b_key b) (b_created b) (b_closed b).

Definition with_meta (b : Bead) (k v : string) : Bead :=
  mkBead (b_status b) (b_parent b) (b_key b) (b_created b) (b_closed b) (<[k:=v]> (b_meta b)).

Definition with_closed (b : Bead) (t : Z) : Bead :=
  mkBead "closed" (b_parent b) (b_key b) (b_created b) t (b_meta b).

Definition set_beads (w : World) (m : gmap string Bead) : World := mkWorld m (w_events w).

Definition set_meta (w : World) (id k v : string) : World :=
  set_beads w (alter (fun b => with_meta b k v) id (w_beads w)).

(** CloseBead's two effects: the close_reason stamp, then the status. *)
Definition stamp_reason (w : World) (id reason : string) : World :=
  if String.eqb reason "" then w else set_meta w id "close_reason" reason.
Definition set_closed (w : World) (id : string) (t : Z) : World :=
  set_beads w (alter (fun b => with_closed b t) id (w_beads w)).

Definition children_of (w : World) (p : string) : list BeadInfo :=
  omap (fun kv => if String.eqb (b_parent kv.2) p then Some (bead_info kv.1 kv.2) else None)
    (map_to_list (w_beads w)).

(** The metadata value of a bead, "" when the bead or the key is missing. *)
Definition field (w : World) (id k : string) : string :=
  match w_beads w !! id with Some b => mget (b_meta b) k | None => "" end.
Definition status (w : World) (id : string) : string :=
  match w_beads w !! id with Some b => b_status b | None => "" end.
Definition exists_bead (w : World) (id : string) : Prop := is_Some (w_beads w !! id).

(** Agents act with the metadata keys the token guard leaves open, run and close
    wisps, and create beads; they neither delete a bead nor reopen a closed one. *)
Definition bead_rely (b b' : Bead) : Prop :=
  b_parent b' = b_parent b /\ b_key b' = b_key b
  /\ (b_status b = "closed" -> b_status b' = "closed")
  /\ (forall k, RequiresToken k = true -> b_meta b' !! k = b_meta b !! k).
Definition rely (w w' : World) : Prop :=
  w_events w' = w_events w
  /\ forall id b, w_beads w !! id = Some b ->
       exists b', w_beads w' !! id = Some b' /\ bead_rely b b'.

(** A poured wisp: a fresh root bead under the parent with the key, open or in
    progress, and the step beads cooked with it, which carry no key. *)
Definition poured (w : World) (parent key id : string) (w' : World) : Prop :=
  exists b steps,
    w_beads w !! id = None /\ b_parent b = parent /\ b_key b = key
    /\ b_status b ∈ ["open"; "in_progress"]
    /\ map_Forall (fun i s => w_beads w !! i = None /\ b_key s = "") steps
    /\ w' = set_beads w (<[id := b]> (w_beads w ∪ steps)).

Definition pour_step (w : World) (parent key : string) (r : res string) (w' : World) : Prop :=
  match r with
  | Ok id =>
      (w' = w /\ exists b, w_beads w !! id = Some b /\ b_key b = key)
      \/ (map_Forall (fun _ b => b_key b <> key) (w_beads w) /\ poured w parent key id w')
  | Err _ => w' = w \/ exists id, poured w parent key id w'
  end.

(** The contract of one call. *)
Definition store_step (w : World) {R} (c : cmd R) : R -> World -> Prop :=
  match c in cmd R return R -> World -> Prop with
  | GetBead id => fun r w' => w' = w /\
      match r with
      | Ok i => exists b, w_beads w !! id = Some b /\ i = bead_info id b
      | Err e => errors_is_not_found e = true -> w_beads w !! id = None
      end
  | GetMetadata id => fun r w' => w' = w /\
      match r with
      | Ok m => exists b, w_beads w !! id = Some b /\ m = b_meta b
      | Err e => errors_is_not_found e = true -> w_beads w !! id = None
      end
  | SetMetadata id k v => fun r w' =>
      match r with
      | Ok _ => exists_bead w id /\ w' = set_meta w id k v
      | Err _ => w' = w \/ w' = set_meta w id k v
      end
  | CloseBead id reason => fun r w' =>
      match r with
      | Ok _ => exists_bead w id /\ exists t, w' = set_closed (stamp_reason w id reason) id t
      | Err _ => w' = w \/ w' = stamp_reason w id reason
                 \/ exists t, w' = set_closed (stamp_reason w id reason) id t
      end
  | DeleteBead id => fun r w' =>
      match r with
      | Ok _ => exists_bead w id /\ w' = set_beads w (delete id (w_beads w))
      | Err _ => w' = w \/ w' = set_beads w (delete id (w_beads w))
      end
  | Children p => fun r w' => w' = w /\
      match r with
      | Ok l => l ≡ₚ children_of w p /\ Forall (fun i => bi_ID i <> "") l
      | Err _ => True
      end
  | PourWisp parent _ key _ _ => fun r w' => pour_step w parent key r w'
  | PourSpeculativeWisp parent _ key _ _ => fun r w' => pour_step w parent key r w'
  | ActivateWisp id => fun r w' => rely w w' /\
      match r with Ok _ => exists_bead w id | Err _ => True end
  | FindByIdempotencyKey key => fun r w' => w' = w /\
      match r with
      | Ok (id, true) => exists b, w_beads w !! id = Some b /\ b_key b = key
      | Ok (_, false) => map_Forall (fun _ b => b_key b <> key) (w_beads w)
      | Err _ => True
      end
  | CountActiveConvergenceLoops _ => fun r w' => w' = w /\
      match r with Ok n => 0 <= n | Err _ => True end
  | CreateConvergenceBead _ => fun r w' =>
      let created id := exists b, w_beads w !! id = None /\ id <> "" /\ b_parent b = "" /\ b_key b = ""
        /\ b_status b ∈ ["open"; "in_progress"] /\ (forall k, RequiresToken k = true -> b_meta b !! k = None)
        /\ w' = set_beads w (<[id := b]> (w_beads w)) in
      match r with Ok id => created id | Err _ => w' = w \/ exists id, created id end
  | Emit ev => fun _ w' => w' = mkWorld (w_beads w) (w_events w ++ [ev])
  | RunScript _ _ _ _ => fun _ w' => w' = w
  | WaitOrDone _ => fun _ w' => w' = w
  end.

(** Agents may act before any call. *)
Definition env_step (w : World) {R} (c : cmd R) (r : R) (w' : World) : Prop :=
  exists w1, rely w w1 /\ store_step w1 c r w'.

(** * Crash-aware weakest precondition *)

Fixpoint wpc {A} (p : prog A) (Q : A -> World -> Prop) (I : World -> Prop) (w : World) : Prop :=
  I w /\
  match p with
  | Ret a => Q a w
  | Op c k => forall r w', env_step w c r w' -> wpc (k r) Q I w'
  end.

(** The worlds a run of [p] passes through: those a crash can leave behind. *)
Inductive reaches {A} : prog A -> World -> World -> Prop :=
| reaches_here p w : reaches p w w
| reaches_op R (c : cmd R) k r w w1 w2 :
    env_step w c r w1 -> reaches (k r) w1 w2 -> reaches (Op c k) w w2.

(** A complete run. *)
Inductive runs {A} : prog A -> World -> A -> World -> Prop :=
| runs_ret a w : runs (Ret a) w a w
| runs_op R (c : cmd R) k r w w1 a w2 :
    env_step w c r w1 -> runs (k r) w1 a w2 -> runs (Op c k) w a w2.

(** Every call of [p], whatever the replies were, satisfies [P]. *)
Fixpoint calls {A} (P : forall R, cmd R -> Prop) (p : prog A) : Prop :=
  match p with
  | Ret _ => True
  | Op c k => P _ c /\ forall r, calls P (k r)
  end.

(** Every call a run of [p] from [w] makes satisfies [P]. *)
Fixpoint along {A} (P : forall R, cmd R -> Prop) (p : prog A) (w : World) : Prop :=
  match p with
  | Ret _ => True
  | Op c k => P _ c /\ forall r w', env_step w c r w' -> along P (k r) w'
  end.

(** Every result of [p], whatever the replies were, satisfies [P]. *)
Fixpoint returns {A} (P : A -> Prop) (p : prog A) : Prop :=
  match p with
  | Ret a => P a
  | Op c k => forall r, returns P (k r)
  end.

(** On every path, at most [n] script executions. *)
Definition is_script {R} (c : cmd R) : bool :=
  match c with RunScript _ _ _ _ => true | _ => false end.
Fixpoint scripts_at_most {A} (n : nat) (p : prog A) : Prop :=
  match p with
  | Ret _ => True
  | Op c k =>
      if is_script c
      then match n with O => False | S n' => forall r, scripts_at_most n' (k r) end
      else forall r, scripts_at_most n (k r)
  end.

(** * Implementations of the interface *)

(** An implementation executes calls on a state of its own; [Sound] states that
    what it does is allowed by the contract, seen through [view]. *)
Class StoreImpl (S : Type) : Type := {
  exec : forall R, S -> cmd R -> R * S;
  view : S -> World
}.
Class SoundStore (S : Type) `{StoreImpl S} : Prop :=
  exec_sound : forall R (s : S) (c : cmd R),
    store_step (view s) c (fst (exec R s c)) (view (snd (exec R s c))).

Fixpoint run {S} `{StoreImpl S} {A} (p : prog A) (s : S) : A * S :=
  match p with
  | Ret a => (a, s)
  | Op c k => let '(r, s') := exec _ s c in run (k r) s'
  end.

Arguments wpc {A} p Q I w : simpl never.

(** * Rules of the program logic *)

Lemma wpc_ret {A} (a : A) Q I w : I w -> Q a w -> wpc (Ret a) Q I w.
Proof. by split. Qed.

Lemma wpc_op {A R} (c : cmd R) (k : R -> prog A) Q I w :
  I w -> (forall r w', env_step w c r w' -> wpc (k r) Q I w') -> wpc (Op c k) Q I w.
Proof. by split. Qed.

Lemma wpc_crash {A} (p : prog A) Q I w : wpc p Q I w -> I w.
Proof. destruct p; by intros [? _]. Qed.

Lemma wpc_conseq {A} (p : prog A) (Q Q' : A -> World -> Prop) (I I' : World -> Prop) w :
  wpc p Q I w -> (forall w', I w' -> I' w') -> (forall a w', I w' -> Q a w' -> Q' a w') ->
  wpc p Q' I' w.
Proof.
  revert w. induction p as [a|R c k IH]; intros w [HI HW] Hi Hq.
  - split; auto.
  - split; [auto|]. intros r w' Hs. apply IH; auto.
Qed.

Lemma wpc_bind {A B} (p : prog A) (f : A -> prog B) Q I w :
  wpc p (fun a w' => wpc (f a) Q I w') I w -> wpc (bind p f) Q I w.
Proof.
  revert w. induction p as [a|R c k IH]; intros w [HI HW]; [done|].
  split; [done|]. intros r w' Hs. apply IH. auto.
Qed.

(** A program with its own specification inside a larger one. *)
Lemma wpc_seq {A B} (p : prog A) (f : A -> prog B) P J Q (I : World -> Prop) w :
  wpc p P J w -> (forall w', J w' -> I w') ->
  (forall a w', J w' -> P a w' -> wpc (f a) Q I w') -> wpc (bind p f) Q I w.
Proof. intros Hp HJ HP. apply wpc_bind. eapply wpc_conseq; eauto. Qed.

Lemma wpc_call {A R} (c : cmd R) (f : R -> prog A) Q I w :
  I w -> (forall r w', env_step w c r w' -> wpc (f r) Q I w') -> wpc (bind (call c) f) Q I w.
Proof. apply wpc_op. Qed.

Lemma wpc_assoc {A B C} (p : prog A) (f : A -> prog B) (g : B -> prog C) Q I w :
  wpc (bind p (fun a => bind (f a) g)) Q I w -> wpc (bind (bind p f) g) Q I w.
Proof.
  revert w. induction p as [a|R c k IH]; intros w; [done|].
  intros [HI HW]. split; [done|]. intros r w' Hs. by apply IH, HW.
Qed.

(** A continuation that only hands the result on. *)
Lemma wpc_id {A} (p : prog A) (k : A -> prog A) Q I w :
  (forall a, k a = Ret a) -> wpc p Q I w -> wpc (bind p k) Q I w.
Proof.
  intros Hk Hp. apply wpc_bind. eapply wpc_conseq; [exact Hp|done|].
  intros a w' HI HQ. rewrite Hk. by apply wpc_ret.
Qed.

Lemma wpc_and {A} (p : prog A) Q Q' I I' w :
  wpc p Q I w -> wpc p Q' I' w ->
  wpc p (fun a w' => Q a w' /\ Q' a w') (fun w' => I w' /\ I' w') w.
Proof.
  revert w. induction p as [a|R c k IH]; intros w [HI HW] [HI' HW'].
  - by split.
  - split; [done|]. intros r w' Hs. apply IH; auto.
Qed.

(** The logic is sound for complete runs and for crashes. *)
Lemma wpc_runs {A} (p : prog A) Q I w a w' : wpc p Q I w -> runs p w a w' -> Q a w'.
Proof. intros H Hr. induction Hr; destruct H as [_ H]; auto. Qed.

Lemma wpc_reaches {A} (p : prog A) Q I w w' : wpc p Q I w -> reaches p w w' -> I w'.
Proof.
  intros H Hr. induction Hr; [by eapply wpc_crash|]. destruct H as [_ H]. auto.
Qed.

Lemma bead_rely_refl b : bead_rely b b.
Proof. done. Qed.

Lemma bead_rely_trans b1 b2 b3 : bead_rely b1 b2 -> bead_rely b2 b3 -> bead_rely b1 b3.
Proof.
  intros (P1 & K1 & S1 & M1) (P2 & K2 & S2 & M2). split; [congruence|]. split; [congruence|].
  split; [auto|]. intros k Hk. rewrite M2, M1 by done. done.
Qed.

Lemma rely_refl w : rely w w.
Proof. split; [done|]. intros id b Hb. exists b. split; [done|apply bead_rely_refl]. Qed.

Lemma rely_trans w1 w2 w3 : rely w1 w2 -> rely w2 w3 -> rely w1 w3.
Proof.
  intros [E1 H1] [E2 H2]. split; [congruence|]. intros id b Hb.
  destruct (H1 _ _ Hb) as (b' & Hb' & R1). destruct (H2 _ _ Hb') as (b'' & Hb'' & R2).
  exists b''. split; [done|]. by eapply bead_rely_trans.
Qed.

#[export] Instance rely_preorder : PreOrder rely.
Proof. split; [exact rely_refl|exact rely_trans]. Qed.

(** Whatever a sound implementation does is a run the logic speaks about. *)
Lemma run_runs {S} `{SoundStore S} {A} (p : prog A) (s : S) :
  runs p (view s) (fst (run p s)) (view (snd (run p s))).
Proof.
  revert s. induction p as [a|R c k IH]; intros s; simpl; [constructor|].
  pose proof (exec_sound R s c) as Hs. destruct (exec R s c) as [r s'] eqn:E. simpl in *.
  eapply runs_op; [exists (view s); split; [apply rely_refl|exact Hs]|]. apply IH.
Qed.

Lemma calls_bind {A B} P (p : prog A) (f : A -> prog B) :
  calls P p -> (forall a, calls P (f a)) -> calls P (bind p f).
Proof.
  intros Hp Hf. induction p as [a|R c k IH]; simpl; [done|].
  destruct Hp as [Hc Hk]. split; [done|]. intros r. apply IH, Hk.
Qed.

Lemma calls_mono {A} (P P' : forall R, cmd R -> Prop) (p : prog A) :
  (forall R (c : cmd R), P R c -> P' R c) -> calls P p -> calls P' p.
Proof.
  intros HP. induction p as [a|R c k IH]; simpl; [done|]. intros [Hc Hk]. split; auto.
Qed.

Lemma returns_bind {A B} (P : B -> Prop) (p : prog A) (f : A -> prog B) :
  returns (fun a => returns P (f a)) p -> returns P (bind p f).
Proof. induction p as [a|R c k IH]; simpl; [done|]. intros H r. apply IH, H. Qed.

Lemma returns_mono {A} (P P' : A -> Prop) (p : prog A) :
  (forall a, P a -> P' a) -> returns P p -> returns P' p.
Proof. intros HP. induction p as [a|R c k IH]; simpl; [apply HP|]. intros H r. apply IH, H. Qed.

Lemma returns_seq {A B} (P : A -> Prop) (Q : B -> Prop) (p : prog A) (f : A -> prog B) :
  returns P p -> (forall a, P a -> returns Q (f a)) -> returns Q (bind p f).
Proof. intros Hp Hf. apply returns_bind. by eapply returns_mono. Qed.

Lemma returns_True {A} (p : prog A) : returns (fun _ => True) p.
Proof. induction p as [a|R c k IH]; simpl; auto. Qed.

Lemma returns_runs {A} (P : A -> Prop) (p : prog A) w a w' : returns P p -> runs p w a w' -> P a.
Proof. intros H Hr. induction Hr; simpl in H; auto. Qed.

Lemma wpc_returns {A} (P : A -> Prop) (p : prog A) Q I w :
  returns P p -> wpc p Q I w -> wpc p (fun a w' => P a /\ Q a w') I w.
Proof.
  revert w. induction p as [a|R c k IH]; intros w HP [HI HW]; [by split|].
  split; [done|]. intros r w' Hs. apply IH; auto.
Qed.

Lemma scripts_weaken {A} n m (p : prog A) :
  (n <= m)%nat -> scripts_at_most n p -> scripts_at_most m p.
Proof.
  revert n m. induction p as [a|R c k IH]; intros n m Hle; simpl; [done|].
  destruct (is_script c); [|intros H r; by eapply IH].
  destruct n as [|n]; [done|]. destruct m as [|m]; [lia|]. intros H r. eapply IH; [|apply H]. lia.
Qed.

Lemma scripts_bind {A B} n m (p : prog A) (f : A -> prog B) :
  scripts_at_most n p -> (forall a, scripts_at_most m (f a)) -> scripts_at_most (n + m) (bind p f).
Proof.
  revert n. induction p as [a|R c k IH]; intros n Hp Hf; simpl.
  - eapply scripts_weaken; [|apply Hf]. lia.
  - simpl in Hp. destruct (is_script c); [|intros r; auto].
    destruct n as [|n]; [done|]. intros r. simpl. auto.
Qed.

(** A program without script executions. *)
Lemma scripts_calls {A} (p : prog A) :
  calls (fun R c => is_script c = false) p -> scripts_at_most 0 p.
Proof.
  induction p as [a|R c k IH]; simpl; [done|]. intros [-> Hk] r. apply IH, Hk.
Qed.

Lemma calls_along {A} P (p : prog A) w : calls P p -> along P p w.
Proof.
  revert w. induction p as [a|R c k IH]; simpl; [done|]. intros w [Hc Hk]. split; [done|].
  intros r w' _. apply IH, Hk.
Qed.
