(* ===== verification/ConvFrame.v ===== *)
(** Framing for one loop's root bead: which of its token-protected metadata keys a
    step can change.  [root_frame root K w w'] says that from [w] to [w'] the root
    bead persists, keeps its parent and idempotency key, is not reopened, and keeps
    every protected key outside [K]; the event log only grows.  A program whose
    calls set only keys of [K] on the root is framed by [K] whatever the store
    replies ([wpc_frame_calls]). *)
From S2P Require Import Prelude GoStd ConvMeta ConvKeys ConvStore.

(** Specifications of framed programs, found by [specs_tac]. *)
Create HintDb frame.

Definition bead_frame (K : list string) (b b' : Bead) : Prop :=
  b_parent b' = b_parent b /\ b_key b' = b_key b
  /\ (b_status b = "closed" -> b_status b' = "closed")
  /\ (forall k, RequiresToken k = true -> k ∉ K -> b_meta b' !! k = b_meta b !! k).

Definition root_frame (root : string) (K : list string) (w w' : World) : Prop :=
  (exists l, w_events w' = w_events w ++ l)
  /\ exists b b', w_beads w !! root = Some b /\ w_beads w' !! root = Some b'
       /\ bead_frame K b b'.

(** A root bead as CreateConvergenceBead makes it: no parent, no key. *)
Definition top_level (w : World) (root : string) : Prop :=
  root <> "" /\ exists b, w_beads w !! root = Some b /\ b_parent b = "" /\ b_key b = "".

(** The keys of [root] a call may set; [safe_call] excludes deleting the root. *)
Definition call_keys (root : string) {R} (c : cmd R) : list string :=
  match c with
  | SetMetadata id k _ => if String.eqb id root then [k] else []
  | _ => []
  end.
Definition safe_call (root : string) {R} (c : cmd R) : Prop :=
  match c with DeleteBead id => id <> root | _ => True end.
Definition framed_call (root : string) (K : list string) R (c : cmd R) : Prop :=
  safe_call root c /\ (forall k, k ∈ call_keys root c -> k ∈ K).

(** * The frame relation *)

Lemma bead_frame_rely K b b' : bead_rely b b' -> bead_frame K b b'.
Proof. intros (?&?&?&?). repeat split; auto. Qed.

Lemma bead_frame_trans K b1 b2 b3 : bead_frame K b1 b2 -> bead_frame K b2 b3 -> bead_frame K b1 b3.
Proof.
  intros (P1 & K1 & S1 & M1) (P2 & K2 & S2 & M2). split; [congruence|]. split; [congruence|].
  split; [auto|]. intros k Hk Hn. rewrite M2, M1 by done. done.
Qed.

Lemma root_frame_refl root K w : exists_bead w root -> root_frame root K w w.
Proof.
  intros [b Hb]. split; [exists []; by rewrite app_nil_r|].
  exists b, b. split; [done|]. split; [done|]. apply bead_frame_rely, bead_rely_refl.
Qed.

Lemma root_frame_trans root K w1 w2 w3 :
  root_frame root K w1 w2 -> root_frame root K w2 w3 -> root_frame root K w1 w3.
Proof.
  intros [[l1 E1] (b1 & b2 & H1 & H2 & F1)] [[l2 E2] (b2' & b3 & H2' & H3 & F2)].
  split; [exists (l1 ++ l2); by rewrite E2, E1, app_assoc|].
  exists b1, b3. split; [done|]. split; [done|].
  replace b2' with b2 in F2 by congruence. by eapply bead_frame_trans.
Qed.

Lemma root_frame_weaken root K K' w w' :
  (forall k, k ∈ K -> k ∈ K') -> root_frame root K w w' -> root_frame root K' w w'.
Proof.
  intros HK [E (b & b' & H & H' & (?&?&?&M))]. split; [done|].
  exists b, b'. repeat split; auto.
Qed.

Lemma root_frame_exists root K w w' : root_frame root K w w' -> exists_bead w' root.
Proof. intros [_ (b & b' & _ & H & _)]. by exists b'. Qed.

Lemma root_frame_field root K w w' k :
  root_frame root K w w' -> RequiresToken k = true -> k ∉ K ->
  field w' root k = field w root k.
Proof.
  intros [_ (b & b' & H & H' & (_ & _ & _ & M))] Hk Hn. unfold field, mget.
  by rewrite H, H', M.
Qed.

Lemma root_frame_closed root K w w' :
  root_frame root K w w' -> status w root = "closed" -> status w' root = "closed".
Proof.
  intros [_ (b & b' & H & H' & (_ & _ & S & _))]. unfold status. rewrite H, H'. done.
Qed.

Lemma root_frame_top_level root K w w' :
  root_frame root K w w' -> top_level w root -> top_level w' root.
Proof.
  intros [_ (b & b' & H & H' & (P & Q & _ & _))] (Hr & b0 & Hb & Hp & Hk). split; [done|].
  exists b'. replace b0 with b in * by congruence. split; [done|]. split; congruence.
Qed.

Lemma root_frame_events root K w w' e :
  root_frame root K w w' -> e ∈ w_events w -> e ∈ w_events w'.
Proof. intros [[l ->] _] He. set_solver. Qed.

Lemma top_level_exists w root : top_level w root -> exists_bead w root.
Proof. intros (_ & b & Hb & _). by exists b. Qed.

(** * Steps *)

Lemma rely_frame root K w w' : exists_bead w root -> rely w w' -> root_frame root K w w'.
Proof.
  intros [b Hb] [E H]. destruct (H _ _ Hb) as (b' & Hb' & R).
  split; [exists []; by rewrite E, app_nil_r|]. exists b, b'. split; [done|]. split; [done|].
  by apply bead_frame_rely.
Qed.

Lemma set_meta_frame root w id k v :
  exists_bead w root ->
  root_frame root (if String.eqb id root then [k] else []) w (set_meta w id k v).
Proof.
  intros [b Hb]. split; [exists []; by rewrite app_nil_r|].
  unfold set_meta, set_beads. simpl. rewrite lookup_alter, Hb.
  destruct (String.eqb_spec id root) as [->|Hne].
  - rewrite decide_True, Hb by done. exists b, (with_meta b k v). repeat split; auto.
    intros k' _ Hk'. simpl. rewrite lookup_insert_ne; [done|]. set_solver.
  - rewrite decide_False by done. exists b, b. repeat split; auto.
Qed.

Lemma stamp_reason_frame root w id reason :
  exists_bead w root -> root_frame root [] w (stamp_reason w id reason).
Proof.
  intros [b Hb]. unfold stamp_reason.
  destruct (String.eqb reason ""); [apply root_frame_refl; by exists b|].
  split; [exists []; by rewrite app_nil_r|].
  unfold set_meta, set_beads. simpl. rewrite lookup_alter, Hb.
  case_decide as Hd; [rewrite Hd, Hb|exists b, b; repeat split; auto].
  exists b, (with_meta b "close_reason" reason). repeat split; auto.
  intros k Hk _. simpl. rewrite lookup_insert_ne; [done|]. intros <-. done.
Qed.

Lemma set_closed_frame root w id t :
  exists_bead w root -> root_frame root [] w (set_closed w id t).
Proof.
  intros [b Hb]. split; [exists []; by rewrite app_nil_r|].
  unfold set_closed, set_beads. simpl. rewrite lookup_alter, Hb.
  case_decide as Hd; [rewrite Hd, Hb|exists b, b; repeat split; auto].
  exists b, (with_closed b t). repeat split; auto.
Qed.

Lemma delete_frame root w id :
  exists_bead w root -> id <> root -> root_frame root [] w (set_beads w (delete id (w_beads w))).
Proof.
  intros [b Hb] Hne. split; [exists []; by rewrite app_nil_r|].
  exists b, b. simpl. rewrite lookup_delete_ne by done. repeat split; auto.
Qed.

Lemma insert_frame root w id b0 m :
  exists_bead w root -> w_beads w !! id = None ->
  root_frame root [] w (set_beads w (<[id := b0]> (w_beads w ∪ m))).
Proof.
  intros [b Hb] Hne. split; [exists []; by rewrite app_nil_r|].
  exists b, b. simpl. rewrite lookup_insert_ne by congruence.
  rewrite (lookup_union_Some_l _ _ _ _ Hb). repeat split; auto.
Qed.

Lemma insert_frame' root w id b0 :
  exists_bead w root -> w_beads w !! id = None ->
  root_frame root [] w (set_beads w (<[id := b0]> (w_beads w))).
Proof.
  intros Hr Hn. pose proof (insert_frame root w id b0 ∅ Hr Hn) as H.
  by rewrite (right_id_L ∅ (∪)) in H.
Qed.

Lemma pour_frame root w parent key r w' :
  exists_bead w root -> pour_step w parent key r w' -> root_frame root [] w w'.
Proof.
  intros Hr. assert (Hp : forall id, poured w parent key id w' -> root_frame root [] w w').
  { intros id (b & m & Hn & _ & _ & _ & _ & ->). by apply insert_frame. }
  destruct r; simpl; naive_solver eauto using root_frame_refl.
Qed.

Lemma store_step_frame root w {R} (c : cmd R) r w' :
  exists_bead w root -> safe_call root c -> store_step w c r w' ->
  root_frame root (call_keys root c) w w'.
Proof.
  intros Hr Hs Hst.
  destruct c as [id|id|id k v|id reason|id|p|p f key vars pr|p f key vars pr|id|key|a|t|ev|pa d en t|d];
    simpl in *; try (lazymatch type of Hst with _ /\ _ => destruct Hst as [-> _] | _ => subst w' end;
         by apply root_frame_refl);
    try (by eapply pour_frame).
  - destruct r; [destruct Hst as [_ ->]|destruct Hst as [->| ->]];
      try apply set_meta_frame; try apply root_frame_refl; done.
  - assert (forall t, root_frame root [] w (set_closed (stamp_reason w id reason) id t)).
    { intros t. pose proof (stamp_reason_frame root w id reason Hr) as F.
      eapply root_frame_trans; [exact F|]. apply set_closed_frame.
      by eapply root_frame_exists. }
    destruct r; [destruct Hst as (_ & t & ->)|destruct Hst as [->|[->|[t ->]]]]; auto.
    + by apply root_frame_refl.
    + by apply stamp_reason_frame.
  - destruct r; [destruct Hst as [_ ->]|destruct Hst as [->| ->]]; auto using delete_frame.
    by apply root_frame_refl.
  - destruct Hst as [Hst _]. by apply rely_frame.
  - destruct r as [id|e]; [destruct Hst as (b & Hn & _ & _ & _ & _ & _ & ->)|
      destruct Hst as [->|(id & b & Hn & _ & _ & _ & _ & _ & ->)]];
      auto using insert_frame', root_frame_refl.
  - destruct Hr as [b Hb]. subst w'. split; [by exists [ev]|]. exists b, b. repeat split; auto.
Qed.

Lemma env_step_frame root w {R} (c : cmd R) r w' :
  exists_bead w root -> safe_call root c -> env_step w c r w' ->
  root_frame root (call_keys root c) w w'.
Proof.
  intros Hr Hs (w1 & Hre & Hst).
  pose proof (rely_frame root (call_keys root c) w w1 Hr Hre) as F1.
  eapply root_frame_trans; [exact F1|]. eapply store_step_frame; [|done|done].
  by eapply root_frame_exists.
Qed.

(** The framing rule: a program all of whose calls are framed. *)
Lemma wpc_frame_calls {A} root K (p : prog A) w :
  exists_bead w root -> calls (framed_call root K) p ->
  wpc p (fun _ w' => root_frame root K w w') (fun w' => root_frame root K w w') w.
Proof.
  intros Hr Hp.
  assert (H : forall w', root_frame root K w w' ->
    wpc p (fun _ w2 => root_frame root K w w2) (fun w2 => root_frame root K w w2) w').
  { induction p as [a|R c k IH]; intros w' F; [by apply wpc_ret|].
    destruct Hp as [[Hs Hk] Hp]. apply wpc_op; [done|]. intros r w2 Hst.
    apply IH; [apply Hp|]. eapply root_frame_trans; [exact F|].
    eapply root_frame_weaken; [exact Hk|].
    apply (env_step_frame root w' c r); [by eapply root_frame_exists|done|done]. }
  apply H. by apply root_frame_refl.
Qed.

(** What a successful write leaves behind. *)
Lemma set_metadata_ok w root k v w' :
  env_step w (SetMetadata root k v) (Ok tt) w' -> field w' root k = v.
Proof.
  intros (w1 & _ & [b Hb] & ->). unfold field, set_meta. simpl.
  rewrite lookup_alter, decide_True by done. rewrite Hb. simpl. by apply mget_insert.
Qed.

Lemma close_bead_ok w root reason w' :
  env_step w (CloseBead root reason) (Ok tt) w' -> status w' root = "closed".
Proof.
  intros (w1 & _ & Hb & t & ->).
  pose proof (stamp_reason_frame root w1 root reason Hb) as F.
  apply root_frame_exists in F as [b Hs]. unfold status, set_closed. simpl.
  rewrite lookup_alter, decide_True by done. by rewrite Hs.
Qed.

Lemma get_metadata_ok w root m w' :
  env_step w (GetMetadata root) (Ok m) w' ->
  (exists b, w_beads w' !! root = Some b /\ m = b_meta b)
  /\ (exists_bead w root -> forall k, RequiresToken k = true -> mget m k = field w root k).
Proof.
  intros (w1 & Hr & -> & b & Hb & ->). split; [eauto|].
  intros He k Hk. apply (rely_frame root [] w w1) in Hr; [|done].
  rewrite <- (root_frame_field root [] w w1 k Hr Hk) by set_solver. unfold field. by rewrite Hb.
Qed.

(** * Framed specifications

    [specs root K p Q]: from any world where [root] is a root bead, [p] changes no
    protected key of it outside [K], at any crash point, and its result satisfies [Q]. *)
Definition specs {A} (root : string) (K : list string) (p : prog A) (Q : A -> Prop) : Prop :=
  forall w, top_level w root ->
    wpc p (fun a w' => root_frame root K w w' /\ Q a) (fun w' => root_frame root K w w') w.
Abbreviation keeps root K p := (specs root K p (fun _ => True)).

Lemma specs_ret {A} root K (a : A) (Q : A -> Prop) : Q a -> specs root K (Ret a) Q.
Proof.
  intros HQ w Hw. apply top_level_exists in Hw.
  apply wpc_ret; [by apply root_frame_refl|]. split; [by apply root_frame_refl|done].
Qed.

Lemma specs_bind {A B} root K (p : prog A) (f : A -> prog B) P Q :
  specs root K p P -> (forall a, P a -> specs root K (f a) Q) -> specs root K (bind p f) Q.
Proof.
  intros Hp Hf w Hw. eapply wpc_seq; [by apply Hp|done|].
  intros a w' F [_ Ha]. eapply wpc_conseq;
    [apply (Hf a Ha w'); by eapply root_frame_top_level| |]; simpl.
  - intros w2 F2. by eapply root_frame_trans.
  - intros b w2 _ [F2 Hb]. split; [by eapply root_frame_trans|done].
Qed.

Lemma specs_call {R} root K (c : cmd R) (Q : R -> Prop) :
  framed_call root K R c ->
  (forall w r w', top_level w root -> env_step w c r w' -> Q r) ->
  specs root K (call c) Q.
Proof.
  intros [Hs Hk] HQ w Hw. assert (He := top_level_exists _ _ Hw).
  apply wpc_op; [by apply root_frame_refl|]. intros r w' Hst.
  assert (F : root_frame root K w w').
  { eapply root_frame_weaken; [exact Hk|]. by eapply env_step_frame. }
  apply wpc_ret; [done|]. split; [done|]. by eapply HQ.
Qed.

Lemma keeps_call {R} root K (c : cmd R) : framed_call root K R c -> keeps root K (call c).
Proof. intros Hc. by apply specs_call. Qed.

Lemma specs_weaken {A} root K K' (p : prog A) (Q Q' : A -> Prop) :
  specs root K p Q -> (forall k, k ∈ K -> k ∈ K') -> (forall a, Q a -> Q' a) ->
  specs root K' p Q'.
Proof.
  intros Hp HK HQ w Hw. eapply wpc_conseq; [by apply Hp| |]; simpl.
  - intros w' F. by eapply root_frame_weaken.
  - intros a w' _ [F Ha]. split; [by eapply root_frame_weaken|auto].
Qed.

(** A framed program followed by the rest, with the frame as the only knowledge. *)
Lemma wpc_specs {A B} root K (p : prog A) (f : A -> prog B) P Q (I : World -> Prop) w :
  specs root K p P -> top_level w root ->
  (forall w', root_frame root K w w' -> I w') ->
  (forall a w', root_frame root K w w' -> top_level w' root -> P a -> wpc (f a) Q I w') ->
  wpc (bind p f) Q I w.
Proof.
  intros Hp Hw HI Hf. eapply wpc_seq; [by apply Hp|done|].
  intros a w' _ [F Ha]. apply Hf; [done| |done]. by eapply root_frame_top_level.
Qed.

(** Membership of keys in concrete lists of keys, by evaluation. *)
Definition key_in (k : string) (K : list string) : bool := existsb (String.eqb k) K.

Lemma key_not_in k K : key_in k K = false -> k ∉ K.
Proof. unfold key_in. intros Hf Hin. apply eqb_or_elem in Hin. congruence. Qed.

Lemma keys_incl K K' : forallb (fun k => key_in k K') K = true -> forall k, k ∈ K -> k ∈ K'.
Proof.
  induction K as [|x K IH]; simpl; [set_solver|]. rewrite andb_true_iff.
  intros [Hx HK] k [->|Hk]%elem_of_cons; [by apply eqb_or_elem|auto].
Qed.

Ltac key_mem :=
  lazymatch goal with
  | |- _ ∈ _ => apply eqb_or_elem; vm_compute; reflexivity
  | |- _ ∉ _ => apply key_not_in; vm_compute; reflexivity
  | |- forall k, k ∈ _ -> k ∈ _ => apply keys_incl; vm_compute; reflexivity
  end.

Lemma framed_set root K id k v : k ∈ K -> framed_call root K _ (SetMetadata id k v).
Proof.
  intros HK. split; [done|]. simpl. destruct (String.eqb id root); intros ?; set_solver.
Qed.

Lemma framed_other root K {R} (c : cmd R) :
  safe_call root c -> call_keys root c = [] -> framed_call root K R c.
Proof. intros Hs Hk. split; [done|]. rewrite Hk. set_solver. Qed.

Arguments bind : simpl never.
Arguments call : simpl never.

(** Walks a [specs] goal through the program's structure. *)
Ltac framed_call_tac :=
  first [ apply framed_set; try first [assumption|key_mem]
        | apply framed_other; [first [exact I|done]|reflexivity] ].
Ltac specs_step :=
  match goal with
  | |- specs _ _ (Ret _) _ => apply specs_ret
  | |- specs _ _ (bind (Ret ?a) ?f) _ => change (bind (Ret a) f) with (f a); cbv beta iota
  | |- specs _ _ (Op ?c ?k) _ => change (Op c k) with (bind (call c) k)
  | |- specs _ _ (bind (match ?x with _ => _ end) _) _ => destruct x eqn:?
  | |- specs _ _ (match ?x with _ => _ end) _ => destruct x eqn:?
  | |- specs _ _ (bind (bind _ _) _) _ => apply (specs_bind _ _ _ _ (fun _ => True))
  | |- specs _ _ (bind (call _) _) _ => eapply specs_bind; [apply keeps_call|]
  | |- specs _ _ (bind _ _) _ => eapply specs_bind; [solve [eauto with frame]|]
  | |- specs _ _ (call _) _ => apply keeps_call
  | |- specs _ _ _ _ => solve [eauto with frame]
  | |- forall _, True -> _ => intros ? _
  | |- forall _, _ => intro
  | |- framed_call _ _ _ _ => framed_call_tac
  | |- True => exact I
  end.
Ltac specs_tac := repeat specs_step.
