(* ===== verification/ConvGate.v ===== *)
(** Gate evaluation (internal/convergence: capture.go, condition.go's RunCondition
    and its helpers, hybrid.go): bounded capture of a script's output, truncation at
    a rune boundary, the retry loops, and the classification of one execution.
    Which program runs and what it prints is the reply of [RunScript]. *)
From S2P Require Import Prelude GoStd ConvMeta ConvKeys ConvStore.
From Stdlib Require Import Ascii.
#[local] Open Scope prog_scope.

(** * capture.go *)

Definition MaxOutputBytes : Z := 4096.
Definition UTFMax : Z := 4.

Fixpoint str_take (n : nat) (s : string) : string :=
  match n, s with
  | S n', String c s' => String c (str_take n' s')
  | _, _ => ""
  end.

Definition len (s : string) : Z := Z.of_nat (String.length s).

Record boundedBuffer : Type := mkBoundedBuffer {
  bb_buf : string; bb_maxBytes : Z; bb_overflow : bool
}.

Definition newBoundedBuffer (maxBytes : Z) : boundedBuffer := mkBoundedBuffer "" maxBytes false.

(** Write always reports len(p) bytes written. *)
Definition buffer_Write (b : boundedBuffer) (p : string) : boundedBuffer :=
  let remaining := bb_maxBytes b - len (bb_buf b) in
  if remaining <=? 0 then mkBoundedBuffer (bb_buf b) (bb_maxBytes b) true
  else if remaining <? len p
  then mkBoundedBuffer (bb_buf b +:+ str_take (Z.to_nat remaining) p) (bb_maxBytes b) true
  else mkBoundedBuffer (bb_buf b +:+ p) (bb_maxBytes b) (bb_overflow b).

(** utf8.RuneStart: not a continuation byte. *)
Definition RuneStart (c : ascii) : bool := negb (Z.land (byte_of c) 192 =? 128).

(** The backing-off loop of TruncateOutput, from [stop] up to UTFMax steps down. *)
Fixpoint rune_end (fuel : nat) (data : string) (stop : nat) : nat :=
  match fuel with
  | O => stop
  | S f =>
      match stop with
      | O => O
      | S stop' =>
          match String.get stop data with
          | Some c => if RuneStart c then stop else rune_end f data stop'
          | None => stop
          end
      end
  end.

Definition TruncateOutput (data : string) (maxBytes : Z) : string * bool :=
  if maxBytes <=? 0 then
    if String.eqb data "" then ("", false) else ("", true)
  else if len data <=? maxBytes then (data, false)
  else (str_take (rune_end (Z.to_nat UTFMax) data (Z.to_nat maxBytes)) data, true).

(** * condition.go *)

Definition textFileBusyRetryAttempts : Z := 5.
Definition textFileBusyRetryDelay : Z := 25 * Millisecond.

Definition isTextFileBusyPreExecError `{UnicodeTables} (result : GateResult) : bool :=
  String.eqb (gr_Outcome result) GateError
  && Contains (ToLower (gr_Stderr result)) "text file busy".

Definition captured (writes : list string) : boundedBuffer :=
  fold_left buffer_Write writes (newBoundedBuffer (MaxOutputBytes + UTFMax)).

(** From what one execution showed to a gate result, in the order the code tests:
    the parent context, the deadline, the exit status. *)
Definition classify_run (sr : ScriptRun) : GateResult :=
  let stdout := captured (sr_stdout sr) in
  let stderr := captured (sr_stderr sr) in
  let '(outStr, outTrunc) := TruncateOutput (bb_buf stdout) MaxOutputBytes in
  let '(errStr, errTrunc) := TruncateOutput (bb_buf stderr) MaxOutputBytes in
  let truncated := outTrunc || errTrunc || bb_overflow stdout || bb_overflow stderr in
  if sr_parent_done sr
  then mkGateResult GateError None 0 outStr errStr (sr_duration sr) truncated
  else if sr_deadline sr
  then mkGateResult GateTimeout None 0 outStr errStr (sr_duration sr) truncated
  else match sr_err sr with
  | Some (RunExit code) =>
      mkGateResult GateFail (Some code) 0 outStr errStr (sr_duration sr) truncated
  | Some (RunOther msg) => mkGateResult GateError None 0 "" msg (sr_duration sr) truncated
  | None => mkGateResult GatePass (Some 0) 0 outStr errStr (sr_duration sr) truncated
  end.

Definition runOnceNoPreExecRetry (scriptPath : string) (env : ConditionEnv) (timeout : Z)
  : prog GateResult :=
  let dir0 := ce_CityPath env in
  let dir1 := if String.eqb (ce_StorePath env) "" then dir0 else ce_StorePath env in
  let dir := if String.eqb (ce_WorkDir env) "" then dir1 else ce_WorkDir env in
  let! sr := call (RunScript scriptPath dir env timeout) in
  Ret (classify_run sr).

(** The attempts left after this one. *)
Fixpoint runOnce_loop `{UnicodeTables} (left : nat) (scriptPath : string) (env : ConditionEnv)
    (timeout : Z) : prog GateResult :=
  let! result := runOnceNoPreExecRetry scriptPath env timeout in
  match left with
  | O => Ret result
  | S left' =>
      if negb (isTextFileBusyPreExecError result) then Ret result
      else
        let! done := call (WaitOrDone textFileBusyRetryDelay) in
        if done : bool then Ret result else runOnce_loop left' scriptPath env timeout
  end.

Definition runOnce `{UnicodeTables} : string -> ConditionEnv -> Z -> prog GateResult :=
  runOnce_loop (Z.to_nat textFileBusyRetryAttempts).

Definition with_retries (r : GateResult) (n : Z) : GateResult :=
  mkGateResult (gr_Outcome r) (gr_ExitCode r) n (gr_Stdout r) (gr_Stderr r) (gr_Duration r)
    (gr_Truncated r).

(** for attempt := 0; attempt <= retryBudget; attempt++, with [left] rounds to go. *)
Fixpoint RunCondition_loop `{UnicodeTables} (left : nat) (scriptPath : string)
    (env : ConditionEnv) (timeout attempt retryBudget retries : Z) (lastResult : GateResult)
  : prog GateResult :=
  match left with
  | O => Ret (with_retries lastResult retries)
  | S left' =>
      let! r := runOnce scriptPath env timeout in
      if negb (String.eqb (gr_Outcome r) GateTimeout) || (attempt =? retryBudget)
      then Ret (with_retries r retries)
      else RunCondition_loop left' scriptPath env timeout (attempt + 1) retryBudget
             (retries + 1) r
  end.

Definition RunCondition `{UnicodeTables} (scriptPath : string) (env : ConditionEnv)
    (timeout retryBudget : Z) : prog GateResult :=
  RunCondition_loop (Z.to_nat (retryBudget + 1)) scriptPath env timeout 0 retryBudget 0
    GateResultZero.

(** * hybrid.go *)

Definition with_verdict (env : ConditionEnv) (v : string) : ConditionEnv :=
  mkConditionEnv (ce_BeadID env) (ce_Iteration env) (ce_CityPath env) (ce_StorePath env)
    (ce_WorkDir env) (ce_WispID env) (ce_DocPath env) (ce_MoleculeDir env) (ce_ArtifactDir env)
    (ce_IterationDurationMs env) (ce_CumulativeDurationMs env) (ce_MaxIterations env) v
    (ce_AgentProvider env) (ce_AgentModel env).

Definition retry_budget (cfg : GateConfig) : Z :=
  if String.eqb (gc_TimeoutAction cfg) TimeoutActionRetry then MaxGateRetries else 0.

Definition EvaluateHybrid `{UnicodeTables} (cfg : GateConfig) (env : ConditionEnv)
    (verdict : string) : prog GateResult :=
  if HybridNeedsManual cfg then Ret GateManualResult
  else RunCondition (gc_Condition cfg) (with_verdict env verdict) (gc_Timeout cfg)
         (retry_budget cfg).

(** * Specifications *)

(** What a gate script reports, before any retry. *)
Definition outcome_ok (o : string) : Prop := o ∈ [GatePass; GateFail; GateTimeout; GateError].

(** * Lemmas *)

Lemma str_take_app n a b :
  str_take n (a +:+ b) = str_take n a +:+ str_take (n - String.length a) b.
Proof.
  revert n. induction a as [|c a IH]; intros n.
  - rewrite string_app_nil_l. simpl. rewrite Nat.sub_0_r. by destruct n.
  - rewrite string_app_cons. destruct n as [|n]; [done|]. simpl.
    rewrite IH, string_app_cons. done.
Qed.

Lemma str_take_all n s : (String.length s <= n)%nat -> str_take n s = s.
Proof.
  revert n. induction s as [|c s IH]; intros [|n] H; simpl in *; try done; [lia|].
  f_equal. apply IH. lia.
Qed.

Lemma str_take_length n s : String.length (str_take n s) = Nat.min n (String.length s).
Proof.
  revert n. induction s as [|c s IH]; intros [|n]; simpl; try done. by rewrite IH.
Qed.

Lemma str_take_prefix n s : HasPrefix s (str_take n s) = true.
Proof.
  apply HasPrefix_spec. revert n. induction s as [|c s IH]; intros [|n]; simpl.
  - by exists "".
  - by exists "".
  - by exists (String c s).
  - destruct (IH n) as [r Hr]. exists r. rewrite string_app_cons. by rewrite <- Hr.
Qed.

Lemma str_get_some n s : (n < String.length s)%nat -> is_Some (String.get n s).
Proof. revert n. induction s as [|c s IH]; intros [|n] H; simpl in *; try lia; eauto with lia. Qed.

Definition concat_all (ps : list string) : string := fold_right String.app "" ps.

Lemma concat_all_snoc ps p : concat_all (ps ++ [p]) = concat_all ps +:+ p.
Proof.
  induction ps as [|q ps IH]; simpl; [apply string_app_nil_r|].
  by rewrite IH, string_app_assoc.
Qed.

Lemma rune_end_spec fuel data stop :
  (stop < String.length data)%nat ->
  let e := rune_end fuel data stop in
  (e <= stop)%nat /\ (stop <= e + fuel)%nat
  /\ (e = 0%nat \/ e + fuel = stop \/ exists c, String.get e data = Some c /\ RuneStart c = true)%nat.
Proof.
  revert stop. induction fuel as [|f IH]; intros stop H; simpl; [lia|].
  destruct stop as [|stop]; [lia|].
  destruct (str_get_some (S stop) data H) as [c Hc]. rewrite Hc.
  destruct (RuneStart c) eqn:E; [naive_solver lia|].
  destruct (IH stop ltac:(lia)) as (H1 & H2 & H3). naive_solver lia.
Qed.

(** The capture buffer against the whole stream: it keeps the first maxBytes bytes
    and raises the flag whenever bytes were dropped. *)
Lemma buffer_spec max ps :
  0 <= max ->
  let b := fold_left buffer_Write ps (newBoundedBuffer max) in
  bb_buf b = str_take (Z.to_nat max) (concat_all ps)
  /\ bb_maxBytes b = max
  /\ (max < len (concat_all ps) -> bb_overflow b = true)
  /\ (bb_overflow b = true -> max <= len (concat_all ps)).
Proof.
  intros Hm. induction ps as [|p ps IH] using rev_ind; simpl.
  { unfold len. simpl. split; [by destruct (Z.to_nat max)|]. split; [done|]. split; [lia|done]. }
  rewrite fold_left_app. simpl. set (b := fold_left buffer_Write ps _) in *. clearbody b.
  destruct IH as (Hb & Hmax & Ho1 & Ho2). rewrite concat_all_snoc. set (t := concat_all ps) in *.
  unfold buffer_Write. rewrite Hmax.
  assert (Hlen : len (bb_buf b) = Z.min max (len t)).
  { rewrite Hb. unfold len. rewrite str_take_length. lia. }
  assert (Happ : len (t +:+ p) = len t + len p).
  { unfold len. rewrite string_length_app. lia. }
  assert (0 <= len p) by (unfold len; lia). assert (0 <= len t) by (unfold len; lia).
  rewrite str_take_app, <- Hb.
  destruct (Z.leb_spec (max - len (bb_buf b)) 0).
  - simpl. split; [|split; [done|split; [done|lia]]].
    replace (Z.to_nat max - String.length t)%nat with 0%nat by (unfold len in *; lia).
    by rewrite string_app_nil_r.
  - replace (Z.to_nat max - String.length t)%nat with (Z.to_nat (max - len (bb_buf b)))
      by (unfold len in *; lia).
    destruct (Z.ltb_spec (max - len (bb_buf b)) (len p)); simpl.
    + split; [done|]. split; [done|]. split; [done|lia].
    + split; [|split; [done|split; [lia|]]].
      * rewrite (str_take_all _ p) by (unfold len in *; lia). done.
      * intros Ho. specialize (Ho2 Ho). lia.
Qed.

(** Captured output: the buffer keeps exactly the first 4100 bytes of the
    stream however it was chunked, and TruncateOutput returns a prefix of at most
    4096 bytes that loses at most four bytes to reach a rune boundary, with the
    truncation flag raised whenever a byte of the stream was lost. *)
Theorem captured_output_spec ps :
  let b := captured ps in
  let total := concat_all ps in
  let '(out, trunc) := TruncateOutput (bb_buf b) MaxOutputBytes in
  bb_buf b = str_take (Z.to_nat (MaxOutputBytes + UTFMax)) total
  /\ HasPrefix total out = true /\ len out <= MaxOutputBytes
  /\ (len total <= MaxOutputBytes -> out = total /\ trunc = false /\ bb_overflow b = false)
  /\ (MaxOutputBytes < len total ->
        trunc = true /\ MaxOutputBytes - UTFMax <= len out
        /\ (len out = MaxOutputBytes - UTFMax
            \/ exists c, String.get (String.length out) total = Some c /\ RuneStart c = true)).
Proof.
  simpl. unfold captured.
  destruct (buffer_spec (MaxOutputBytes + UTFMax) ps ltac:(done)) as (Hb & Hmax & Ho1 & Ho2).
  set (b := fold_left buffer_Write ps _) in *. clearbody b. set (t := concat_all ps) in *.
  clearbody t. unfold TruncateOutput. change (MaxOutputBytes <=? 0) with false. cbv iota.
  assert (Hlen : len (bb_buf b) = Z.min (MaxOutputBytes + UTFMax) (len t)).
  { rewrite Hb. unfold len. rewrite str_take_length. unfold MaxOutputBytes, UTFMax. lia. }
  assert (Hsub : forall n, (n <= Z.to_nat (MaxOutputBytes + UTFMax))%nat ->
            str_take n (str_take (Z.to_nat (MaxOutputBytes + UTFMax)) t) = str_take n t).
  { intros n. generalize (Z.to_nat (MaxOutputBytes + UTFMax)). clear. revert n.
    induction t as [|c t IH]; intros [|n] [|m] H; simpl; try done; [lia|].
    f_equal. apply IH. lia. }
  unfold UTFMax, MaxOutputBytes in *.
  destruct (Z.leb_spec (len (bb_buf b)) 4096) as [Hle|Hgt].
  - assert (bb_buf b = t) as E by (rewrite Hb; apply str_take_all; unfold len in *; lia).
    split; [done|]. split; [rewrite E; apply HasPrefix_spec; exists ""; by rewrite string_app_nil_r|].
    split; [done|]. split; [|lia]. intros _. split; [done|]. split; [done|].
    destruct (bb_overflow b); [|done]. specialize (Ho2 eq_refl). lia.
  - destruct (rune_end_spec 4 (bb_buf b) 4096 ltac:(unfold len in *; lia)) as (H1 & H2 & H3).
    change (Z.to_nat 4) with 4%nat. change (Z.to_nat 4096) with 4096%nat.
    set (e := rune_end 4 (bb_buf b) 4096) in *. clearbody e.
    split; [done|]. rewrite Hb, Hsub by lia.
    assert (Ht : String.length (str_take e t) = e).
    { rewrite str_take_length. unfold len in *. lia. }
    split; [apply str_take_prefix|]. split; [unfold len; lia|]. split; [lia|].
    intros _. split; [done|]. split; [unfold len; lia|].
    destruct H3 as [H3|[H3|(c & Hc & Hr)]]; [unfold len; lia|left; unfold len; lia|right].
    exists c. split; [|done]. rewrite Ht, <- Hc, Hb. clear -H1.
    assert (e < Z.to_nat (4096 + 4))%nat as Hlt by lia. revert Hlt.
    generalize (Z.to_nat (4096 + 4)). clear. revert e.
    induction t as [|a t IH]; intros [|e] [|m] H; simpl; try done; try lia.
    apply IH. lia.
Qed.

Lemma classify_outcome sr : outcome_ok (gr_Outcome (classify_run sr)) /\ gr_RetryCount (classify_run sr) = 0.
Proof.
  unfold classify_run. destruct (TruncateOutput _ _), (TruncateOutput _ _).
  repeat split_match; unfold outcome_ok; split; (done || set_solver).
Qed.

Lemma runOnce_returns `{UnicodeTables} path env timeout :
  returns (fun r => outcome_ok (gr_Outcome r)) (runOnce path env timeout).
Proof.
  unfold runOnce. generalize (Z.to_nat textFileBusyRetryAttempts) as n.
  induction n as [|n IH]; simpl; intros sr; [apply classify_outcome|].
  destruct (negb _); [apply classify_outcome|]. simpl. intros [|]; [apply classify_outcome|done].
Qed.

Lemma runOnce_scripts `{UnicodeTables} path env timeout :
  scripts_at_most 6 (runOnce path env timeout).
Proof.
  unfold runOnce. change 6%nat with (S (Z.to_nat textFileBusyRetryAttempts)).
  generalize (Z.to_nat textFileBusyRetryAttempts) as n.
  induction n as [|n IH]; simpl; intros sr; [done|].
  destruct (negb _); [done|]. simpl. intros [|]; [done|apply IH].
Qed.

Lemma RunCondition_returns `{UnicodeTables} path env timeout budget :
  0 <= budget ->
  returns (fun r => outcome_ok (gr_Outcome r) /\ 0 <= gr_RetryCount r <= budget
                    /\ (gr_Outcome r = GateTimeout -> gr_RetryCount r = budget))
    (RunCondition path env timeout budget).
Proof.
  intros Hb. unfold RunCondition.
  assert (H1 : forall left attempt last,
    Z.of_nat (S left) = budget + 1 - attempt -> 0 <= attempt <= budget ->
    returns (fun r => outcome_ok (gr_Outcome r) /\ 0 <= gr_RetryCount r <= budget
                    /\ (gr_Outcome r = GateTimeout -> gr_RetryCount r = budget))
      (RunCondition_loop (S left) path env timeout attempt budget attempt last)).
  { induction left as [|left IH]; intros attempt last Hl Ha; cbn [RunCondition_loop];
      (eapply returns_seq; [apply runOnce_returns|]); intros r Hr;
      destruct (String.eqb_spec (gr_Outcome r) GateTimeout) as [E|E]; cbn [negb orb];
      try (simpl; split; [done|]; split; [lia|]; intros; done).
    - destruct (Z.eqb_spec attempt budget); [|lia]. simpl. split; [done|]. lia.
    - destruct (Z.eqb_spec attempt budget); [simpl; split; [done|lia]|].
      apply (IH (attempt + 1) r); lia. }
  replace (Z.to_nat (budget + 1)) with (S (Z.to_nat budget)) by lia. apply H1; lia.
Qed.

Lemma RunCondition_scripts `{UnicodeTables} path env timeout budget :
  scripts_at_most (6 * Z.to_nat (budget + 1)) (RunCondition path env timeout budget).
Proof.
  unfold RunCondition. generalize (Z.to_nat (budget + 1)) as n. intros n.
  generalize 0 at 1 as a. generalize 0 as c. generalize GateResultZero as g.
  induction n as [|n IH]; intros g c a; [done|]. cbn [RunCondition_loop].
  replace (6 * S n)%nat with (6 + 6 * n)%nat by lia.
  apply scripts_bind; [apply runOnce_scripts|]. intros r. destruct (_ || _); [done|apply IH].
Qed.

(** RunCondition terminates within its budget on every behaviour of the
    script: at most six executions per attempt and budget+1 attempts, one of the
    four outcomes, a retry count within the budget, and a timeout reported only
    when the whole budget was spent. *)
Theorem RunCondition_bounded `{UnicodeTables} path env timeout budget :
  0 <= budget ->
  scripts_at_most (6 * Z.to_nat (budget + 1)) (RunCondition path env timeout budget)
  /\ returns (fun r => outcome_ok (gr_Outcome r) /\ 0 <= gr_RetryCount r <= budget
                       /\ (gr_Outcome r = GateTimeout -> gr_RetryCount r = budget))
       (RunCondition path env timeout budget).
Proof. intros Hb. split; [apply RunCondition_scripts|by apply RunCondition_returns]. Qed.

#[export] Instance ascii_only_tables : UnicodeTables := {| unicode_lower := fun s => s |}.

Lemma RunCondition_bounded_witness :
  scripts_at_most 24 (RunCondition "gate.sh"
    (mkConditionEnv "gc-1" 1 "/city" "" "" "gc-2" "" "" "" 0 0 5 "" "" "") 300 MaxGateRetries).
Proof. apply (RunCondition_bounded "gate.sh" _ 300 MaxGateRetries). done. Defined.
