(* ===== verification/ConvHandler.v ===== *)
(** The wisp-closed handler (internal/convergence/handler.go): the nine-step
    algorithm run when an iteration's wisp closes, with its commit protocol,
    speculative pour, gate replay and the four transitions it can end in. *)
From S2P Require Import Prelude GoStd ConvMeta ConvKeys ConvStore ConvFrame ConvGate.
#[local] Open Scope prog_scope.

(** * Close reasons, actions and results *)

Definition CloseReasonCreateRollback : string := "convergence: bead-create rollback after error".
Definition CloseReasonRetryRollback : string := "convergence: retry-create rollback after error".
Definition CloseReasonManualApprove : string := "convergence: iteration closed by manual approve".
Definition CloseReasonManualSupersede : string :=
  "convergence: active wisp superseded during manual stop".
Definition CloseReasonManualStop : string := "convergence: iteration closed by manual stop".
Definition CloseReasonReconcileDone : string :=
  "convergence reconcile: terminated-state bead closed".
Definition CloseReasonHandlerCleanup : string :=
  "convergence: terminated state observed; closing root".
Definition CloseReasonHandlerRoot : string :=
  "convergence: workflow handler closing root after terminate".

Definition ActionIterate : string := "iterate".
Definition ActionApproved : string := "approved".
Definition ActionNoConvergence : string := "no_convergence".
Definition ActionWaitingManual : string := "waiting_manual".
Definition ActionWaitingTrigger : string := "waiting_trigger".
Definition ActionStopped : string := "stopped".
Definition ActionSkipped : string := "skipped".

Record HandlerResult : Type := mkHandlerResult {
  hr_Action : string;
  hr_Iteration : Z;
  hr_GateOutcome : string;
  hr_NextWispID : string;
  hr_WaitingReason : string
}.

(** HandlerResult{Action: a} *)
Definition action_result (a : string) : HandlerResult := mkHandlerResult a 0 "" "" "".

(** The handler's configuration.  [h_depth] bounds the recursion of
    deleteBeadSubtree, which in the source follows the store's parent-child tree;
    [deleteBeadSubtree_depth] states when it is enough. *)
Record Handler : Type := mkHandler {
  h_StorePath : string;
  h_HasEmitter : bool;
  h_depth : nat
}.

(** metaWrite without the error description, which [mw_desc] keeps. *)
Record metaWrite : Type := mkMetaWrite { mw_key : string; mw_value : string; mw_desc : string }.

Section Handler.
Context `{UnicodeTables} (h : Handler).

(** * Helpers *)

Definition eventRig (beadID : string) : prog string :=
  if String.eqb beadID "" then Ret "" else
  let! r := call (GetMetadata beadID) in
  match r with Ok meta => Ret (mget meta FieldRig) | Err _ => Ret "" end.

Definition withEventRig (beadID : string) (payload : Payload) : prog Payload :=
  let! rig := eventRig beadID in
  Ret (if String.eqb rig "" then payload else payload_with_rig rig payload).

(** emitEvent, and the reconciler's emitRecoveryEvent with the flag set. *)
Definition emit (recovery : bool) (ty id beadID : string) (payload : Payload) : prog unit :=
  if negb (h_HasEmitter h) then Ret tt else
  let! p := withEventRig beadID payload in
  call (Emit (mkEvent ty id beadID p recovery)).

Definition emitEvent : string -> string -> string -> Payload -> prog unit := emit false.

Definition deriveIterationCount (rootBeadID : string) : prog (res Z) :=
  try! children := call (Children rootBeadID) in
  Ret (Ok (cs_ClosedCount (childStats children rootBeadID))).

Definition computeDurations (rootBeadID wispID : string) : prog (Z * Z) :=
  let! iterDur :=
    (if String.eqb wispID "" then Ret 0 else
     let! r := call (GetBead wispID) in
     Ret (match r with
          | Ok i => if negb (IsZero (bi_ClosedAt i)) && negb (IsZero (bi_CreatedAt i))
                    then time_Sub (bi_ClosedAt i) (bi_CreatedAt i) else 0
          | Err _ => 0
          end)) in
  let! r := call (Children rootBeadID) in
  match r with
  | Err _ => Ret (iterDur, 0)
  | Ok children => Ret (iterDur, cs_CumulativeDur (childStats children rootBeadID))
  end.

Fixpoint write_all (rootID : string) (writes : list metaWrite) : prog (res unit) :=
  match writes with
  | [] => Ret (Ok tt)
  | m :: ws =>
      try! _ := call (SetMetadata rootID (mw_key m) (mw_value m)) or (mw_desc m) in
      write_all rootID ws
  end.

Definition commit (rootID : string) (writes : list metaWrite)
    (preMarker : option (prog (res unit))) (marker : metaWrite) : prog (res unit) :=
  try! _ := write_all rootID writes in
  try! _ := match preMarker with Some p => p | None => Ret (Ok tt) end in
  if String.eqb (mw_value marker) "" then Ret (Ok tt) else
  try! _ := call (SetMetadata rootID (mw_key marker) (mw_value marker)) or (mw_desc marker) in
  Ret (Ok tt).

Definition persistGateOutcome (rootBeadID wispID : string) (result : GateResult)
  : prog (res unit) :=
  let exitCode := match gr_ExitCode result with Some c => EncodeInt c | None => "" end in
  let truncated := if gr_Truncated result then "true" else "" in
  commit rootBeadID
    [ mkMetaWrite FieldGateOutcome (gr_Outcome result) "setting gate outcome";
      mkMetaWrite FieldGateExitCode exitCode "setting gate exit code";
      mkMetaWrite FieldGateRetryCount (EncodeInt (gr_RetryCount result))
        "setting gate retry count";
      mkMetaWrite FieldGateStdout (gr_Stdout result) "setting gate stdout";
      mkMetaWrite FieldGateStderr (gr_Stderr result) "setting gate stderr";
      mkMetaWrite FieldGateDurationMs (Itoa (Milliseconds (gr_Duration result)))
        "setting gate duration";
      mkMetaWrite FieldGateTruncated truncated "setting gate truncated" ]
    None
    (mkMetaWrite FieldGateOutcomeWisp wispID "setting gate outcome wisp").

Fixpoint deleteBeadSubtree (depth : nat) (id : string) : prog (res unit) :=
  match depth with
  | O => Ret (Err (errmsg "deleting bead %q: recursion bound" [id]))
  | S depth' =>
      try! children := call (Children id)
        else (fun e => Errorf "listing children for delete %q" [id] [e]) in
      try! _ :=
        (fix each (cs : list BeadInfo) : prog (res unit) :=
           match cs with
           | [] => Ret (Ok tt)
           | c :: cs' => try! _ := deleteBeadSubtree depth' (bi_ID c) in each cs'
           end) children in
      try! _ := call (DeleteBead id) else (fun e => Errorf "deleting bead %q" [id] [e]) in
      Ret (Ok tt)
  end.

Definition burnSpeculativeWisp (rootBeadID speculativeWispID : string) : prog (res unit) :=
  if String.eqb speculativeWispID "" then Ret (Ok tt) else
  try! _ := deleteBeadSubtree (h_depth h) speculativeWispID in
  ignore! call (SetMetadata rootBeadID FieldPendingNextWisp "") in
  Ret (Ok tt).

Definition validPendingNextWisp (rootBeadID nextKey pendingID : string) : prog string :=
  if String.eqb pendingID "" then Ret "" else
  let! r := call (GetBead pendingID) in
  let valid := match r with
               | Err _ => false
               | Ok i => String.eqb (bi_ParentID i) rootBeadID
                         && String.eqb (bi_IdempotencyKey i) nextKey
                         && negb (String.eqb (bi_Status i) "closed")
               end in
  if valid then Ret pendingID
  else ignore! call (SetMetadata rootBeadID FieldPendingNextWisp "") in Ret "".

(** The verdict recorded for this wisp, "" when it belongs to another. *)
Definition event_verdict (meta : gmap string string) (wispID : string) : string :=
  if String.eqb (mget meta FieldAgentVerdictWisp) wispID
  then NormalizeVerdict (mget meta FieldAgentVerdict) else "".

(** Clears the verdict consumed by this iteration's gate. *)
Definition clearVerdict (rootBeadID wispID : string) (meta : gmap string string)
  : prog (res unit) :=
  if String.eqb (mget meta FieldAgentVerdictWisp) wispID then
    try! _ := call (SetMetadata rootBeadID FieldAgentVerdict "") or "clearing agent verdict" in
    try! _ := call (SetMetadata rootBeadID FieldAgentVerdictWisp "")
      or "clearing agent verdict wisp" in
    Ret (Ok tt)
  else Ret (Ok tt).

(** * The four transitions *)

Definition transitionToWaitingManual (rootBeadID wispID : string) (iteration : Z)
    (gateConfig : GateConfig) (gateResult : GateResult) (reason gateOutcome : string)
    (meta : gmap string string) : prog (res HandlerResult) :=
  let! (iterDur, cumDur) := computeDurations rootBeadID wispID in
  let gateOutcomePtr := NullableString gateOutcome in
  let verdict := event_verdict meta wispID in
  let! _ := emitEvent EventIteration (EventIDIteration rootBeadID iteration) rootBeadID
    (PIteration (mkIterationPayload "" iteration wispID verdict (gc_Mode gateConfig)
       gateOutcomePtr (GateResultToPayload gateResult) (gr_RetryCount gateResult)
       ActionWaitingManual (NullableString reason) None
       (Milliseconds iterDur) (Milliseconds cumDur))) in
  try! _ := commit rootBeadID
    [ mkMetaWrite FieldActiveWisp "" "clearing active wisp";
      mkMetaWrite FieldWaitingReason reason "setting waiting reason";
      mkMetaWrite FieldState StateWaitingManual "setting state to waiting_manual" ]
    None (mkMetaWrite FieldLastProcessedWisp wispID "setting last processed wisp") in
  let! _ := emitEvent EventWaitingManual (EventIDWaitingManual rootBeadID iteration) rootBeadID
    (PWaitingManual (mkWaitingManualPayload "" iteration wispID verdict (gc_Mode gateConfig)
       gateOutcomePtr (GateResultToPayload gateResult) reason
       (Milliseconds iterDur) (Milliseconds cumDur))) in
  Ret (Ok (mkHandlerResult ActionWaitingManual iteration gateOutcome "" reason)).

Definition handleSlingFailure (rootBeadID wispID : string) (iteration : Z)
    (gateConfig : GateConfig) (gateResult : GateResult) (meta : gmap string string)
  : prog (res HandlerResult) :=
  transitionToWaitingManual rootBeadID wispID iteration gateConfig gateResult WaitSlingFailure
    (gr_Outcome gateResult) meta.

(** iterate after the next wisp is known: activate, emit, commit. *)
Definition iterate_adopt (rootBeadID wispID : string) (iteration : Z)
    (gateConfig : GateConfig) (gateResult : GateResult) (meta : gmap string string)
    (nextWispID : string) : prog (res HandlerResult) :=
  try! _ := call (ActivateWisp nextWispID)
    else (fun e => Errorf "activating next wisp %q" [nextWispID] [e]) in
  let! (iterDur, cumDur) := computeDurations rootBeadID wispID in
  let verdict := event_verdict meta wispID in
  let gateOutcome := gr_Outcome gateResult in
  let! _ := emitEvent EventIteration (EventIDIteration rootBeadID iteration) rootBeadID
    (PIteration (mkIterationPayload "" iteration wispID verdict (gc_Mode gateConfig)
       (NullableString gateOutcome) (GateResultToPayload gateResult)
       (gr_RetryCount gateResult) ActionIterate None (NullableString nextWispID)
       (Milliseconds iterDur) (Milliseconds cumDur))) in
  try! _ := commit rootBeadID
    [ mkMetaWrite FieldActiveWisp nextWispID "setting active wisp" ]
    None (mkMetaWrite FieldLastProcessedWisp wispID "setting last processed wisp") in
  ignore! call (SetMetadata rootBeadID FieldPendingNextWisp "") in
  Ret (Ok (mkHandlerResult ActionIterate iteration gateOutcome nextWispID "")).

Definition iterate (rootBeadID wispID : string) (iteration : Z)
    (gateConfig : GateConfig) (gateResult : GateResult) (meta : gmap string string)
    (speculativeWispID : string) : prog (res HandlerResult) :=
  try! _ := clearVerdict rootBeadID wispID meta in
  let nextIteration := wrap64 (iteration + 1) in
  let nextKey := IdempotencyKey rootBeadID nextIteration in
  let adopt := iterate_adopt rootBeadID wispID iteration gateConfig gateResult meta in
  if negb (String.eqb speculativeWispID "") then adopt speculativeWispID
  else
    let! r := call (PourWisp rootBeadID (mget meta FieldFormula) nextKey (ExtractVars meta)
                      (mget meta FieldEvaluatePrompt)) in
    match r with
    | Ok nextWispID => adopt nextWispID
    | Err _ =>
        let! f := call (FindByIdempotencyKey nextKey) in
        match f with
        | Ok (existingID, true) => adopt existingID
        | _ => handleSlingFailure rootBeadID wispID iteration gateConfig gateResult meta
        end
    end.

Definition transitionToWaitingTrigger (rootBeadID wispID : string) (iteration : Z)
    (gateConfig : GateConfig) (gateResult : GateResult) (meta : gmap string string)
  : prog (res HandlerResult) :=
  try! _ := clearVerdict rootBeadID wispID meta in
  let! (iterDur, cumDur) := computeDurations rootBeadID wispID in
  let verdict := event_verdict meta wispID in
  let! _ := emitEvent EventIteration (EventIDIteration rootBeadID iteration) rootBeadID
    (PIteration (mkIterationPayload "" iteration wispID verdict (gc_Mode gateConfig)
       (NullableString (gr_Outcome gateResult)) (GateResultToPayload gateResult)
       (gr_RetryCount gateResult) ActionWaitingTrigger None None
       (Milliseconds iterDur) (Milliseconds cumDur))) in
  try! _ := commit rootBeadID
    [ mkMetaWrite FieldActiveWisp "" "clearing active wisp";
      mkMetaWrite FieldState StateWaitingTrigger "setting state to waiting_trigger" ]
    None (mkMetaWrite FieldLastProcessedWisp wispID "setting last processed wisp") in
  Ret (Ok (mkHandlerResult ActionWaitingTrigger iteration (gr_Outcome gateResult) "" "")).

Definition terminate (rootBeadID wispID : string) (iteration : Z)
    (gateConfig : GateConfig) (gateResult : GateResult) (reason actor : string)
    (globalIteration : Z) (meta : gmap string string) : prog (res HandlerResult) :=
  let! (iterDur, cumDur) := computeDurations rootBeadID wispID in
  let verdict := event_verdict meta wispID in
  let gateOutcome := gr_Outcome gateResult in
  let! _ := emitEvent EventIteration (EventIDIteration rootBeadID iteration) rootBeadID
    (PIteration (mkIterationPayload "" iteration wispID verdict (gc_Mode gateConfig)
       (NullableString gateOutcome) (GateResultToPayload gateResult)
       (gr_RetryCount gateResult) reason None None
       (Milliseconds iterDur) (Milliseconds cumDur))) in
  let! _ := emitEvent EventTerminated (EventIDTerminated rootBeadID) rootBeadID
    (PTerminated (mkTerminatedPayload "" reason globalIteration "closed" actor
       (Milliseconds cumDur))) in
  try! _ := commit rootBeadID
    [ mkMetaWrite FieldTerminalReason reason "setting terminal reason";
      mkMetaWrite FieldTerminalActor actor "setting terminal actor";
      mkMetaWrite FieldState StateTerminated "setting state to terminated" ]
    (Some (try! _ := call (CloseBead rootBeadID CloseReasonHandlerRoot)
             or "closing root bead" in Ret (Ok tt)))
    (mkMetaWrite FieldLastProcessedWisp wispID "setting last processed wisp") in
  Ret (Ok (mkHandlerResult reason iteration gateOutcome "" "")).

(** * Gate evaluation *)

Definition evaluateGate (gateConfig : GateConfig) (meta : gmap string string) (wispID : string)
    (iteration : Z) (verdict rootBeadID : string) : prog GateResult :=
  let cityPath := mget meta FieldCityPath in
  let! (iterDur, cumDur) := computeDurations rootBeadID wispID in
  let env := mkConditionEnv rootBeadID iteration cityPath (h_StorePath h) "" wispID
    (mget meta (VarPrefix +:+ "doc_path")) "" (ArtifactDirFor cityPath rootBeadID iteration)
    (Milliseconds iterDur) (Milliseconds cumDur) (DecodeInt (mget meta FieldMaxIterations)).1
    "" "" "" in
  if String.eqb (gc_Mode gateConfig) GateModeCondition
  then RunCondition (gc_Condition gateConfig) env (gc_Timeout gateConfig)
         (retry_budget gateConfig)
  else if String.eqb (gc_Mode gateConfig) GateModeHybrid
  then EvaluateHybrid gateConfig env verdict
  else Ret (mkGateResult GateError None 0 ""
              ("unexpected gate mode: " +:+ gc_Mode gateConfig) 0 false).

(** The gate result a persisted outcome replays to. *)
Definition replayGateResult (meta : gmap string string) : GateResult :=
  mkGateResult (mget meta FieldGateOutcome)
    (let ec := mget meta FieldGateExitCode in
     if String.eqb ec "" then None
     else let '(code, ok) := DecodeInt ec in if ok then Some code else None)
    (let '(rc, ok) := DecodeInt (mget meta FieldGateRetryCount) in if ok then rc else 0)
    (mget meta FieldGateStdout) (mget meta FieldGateStderr)
    (let ms := mget meta FieldGateDurationMs in
     if String.eqb ms "" then 0
     else let '(msVal, ok) := DecodeInt ms in if ok then wrap64 (msVal * Millisecond) else 0)
    (String.eqb (mget meta FieldGateTruncated) "true").

(** * HandleWispClosed *)

(** Step 2: the iteration of the last processed wisp, 0 when it cannot be read. *)
Definition lastProcessedIteration (meta : gmap string string) : prog Z :=
  let lpw := mget meta FieldLastProcessedWisp in
  if String.eqb lpw "" then Ret 0 else
  let! r := call (GetBead lpw) in
  Ret (match r with
       | Err _ => 0
       | Ok i => let '(n, ok) := ParseIterationFromKey (bi_IdempotencyKey i) in
                 if ok then n else 0
       end).

Definition needsManualWithoutGate (gateConfig : GateConfig) : bool :=
  String.eqb (gc_Mode gateConfig) GateModeManual
  || (String.eqb (gc_Mode gateConfig) GateModeHybrid && HybridNeedsManual gateConfig).

(** Step 3b: the speculative successor, and whether pouring it failed. *)
Definition speculativePour (rootBeadID nextKey : string) (wispIteration maxIterations : Z)
    (gateConfig : GateConfig) (triggerConfig : TriggerConfig) (meta : gmap string string)
  : prog (res (string * bool)) :=
  let! pending := validPendingNextWisp rootBeadID nextKey (mget meta FieldPendingNextWisp) in
  let skipSpeculativePour := needsManualWithoutGate gateConfig || trigger_Enabled triggerConfig in
  if (wispIteration <? maxIterations) && negb skipSpeculativePour && String.eqb pending ""
  then
    let! r := call (PourSpeculativeWisp rootBeadID (mget meta FieldFormula) nextKey
                      (ExtractVars meta) (mget meta FieldEvaluatePrompt)) in
    let! (speculativeWispID, pourErr) :=
      match r with
      | Ok id => Ret (id, false)
      | Err _ =>
          let! f := call (FindByIdempotencyKey nextKey) in
          match f with Ok (existingID, true) => Ret (existingID, false) | _ => Ret ("", true) end
      end in
    if String.eqb speculativeWispID "" then Ret (Ok (speculativeWispID, pourErr)) else
    let! r := call (SetMetadata rootBeadID FieldPendingNextWisp speculativeWispID) in
    match r with
    | Ok _ => Ret (Ok (speculativeWispID, pourErr))
    | Err e =>
        let! b := burnSpeculativeWisp rootBeadID speculativeWispID in
        match b with
        | Err burnErr => Ret (Err (Errorf
            "setting pending next wisp: %w; additionally burning speculative wisp: %w" [] [e; burnErr]))
        | Ok _ => Ret (Err (wrap "setting pending next wisp" e))
        end
    end
  else Ret (Ok (pending, false)).

(** Steps 4 and 5: the persisted outcome, a transition to waiting_manual that ends
    the handler, or a fresh evaluation that is persisted before it is used. *)
Definition gateStep (rootBeadID wispID : string) (wispIteration : Z) (skipGateEval : bool)
    (gateConfig : GateConfig) (meta : gmap string string) (speculativeWispID : string)
  : prog (res (HandlerResult + GateResult)) :=
  let waitManual reason :=
    try! _ := burnSpeculativeWisp rootBeadID speculativeWispID
      or "burning speculative wisp before waiting_manual" in
    try! r := transitionToWaitingManual rootBeadID wispID wispIteration gateConfig
                GateResultZero reason "" meta in
    Ret (Ok (inl r)) in
  if skipGateEval then Ret (Ok (inr (replayGateResult meta)))
  else if String.eqb (gc_Mode gateConfig) GateModeManual then waitManual WaitManual
  else if String.eqb (gc_Mode gateConfig) GateModeHybrid && HybridNeedsManual gateConfig
  then waitManual WaitHybridNoCondition
  else
    let verdict := if String.eqb (mget meta FieldAgentVerdictWisp) wispID
                   then NormalizeVerdict (mget meta FieldAgentVerdict) else VerdictBlock in
    let! gateResult := evaluateGate gateConfig meta wispID wispIteration verdict rootBeadID in
    let! r := persistGateOutcome rootBeadID wispID gateResult in
    match r with
    | Ok _ => Ret (Ok (inr gateResult))
    | Err e =>
        let! b := burnSpeculativeWisp rootBeadID speculativeWispID in
        match b with
        | Err burnErr => Ret (Err (Errorf
            "persisting gate outcome: %w; additionally burning speculative wisp: %w" [] [e; burnErr]))
        | Ok _ => Ret (Err (wrap "persisting gate outcome" e))
        end
    end.

(** Step 7's switch: the terminal reason, if the outcome is terminal. *)
Definition terminalDecision (gateConfig : GateConfig) (gateResult : GateResult)
    (wispIteration maxIterations : Z) : option string :=
  if String.eqb (gr_Outcome gateResult) GatePass then Some TerminalApproved
  else if String.eqb (gr_Outcome gateResult) GateTimeout
          && String.eqb (gc_TimeoutAction gateConfig) TimeoutActionTerminate
  then Some TerminalNoConvergence
  else if maxIterations <=? wispIteration then Some TerminalNoConvergence
  else None.

(** Steps 7 to 9. *)
Definition outcomeStep (rootBeadID wispID : string) (wispIteration globalIteration maxIterations : Z)
    (gateConfig : GateConfig) (triggerConfig : TriggerConfig) (gateResult : GateResult)
    (meta : gmap string string) (speculativeWispID : string) (speculativePourErr : bool)
  : prog (res HandlerResult) :=
  if String.eqb (gr_Outcome gateResult) GateTimeout
     && String.eqb (gc_TimeoutAction gateConfig) TimeoutActionManual
  then
    try! _ := burnSpeculativeWisp rootBeadID speculativeWispID
      or "burning speculative wisp before waiting_manual" in
    transitionToWaitingManual rootBeadID wispID wispIteration gateConfig gateResult WaitTimeout
      (gr_Outcome gateResult) meta
  else
    match terminalDecision gateConfig gateResult wispIteration maxIterations with
    | None =>
        if speculativePourErr
        then handleSlingFailure rootBeadID wispID wispIteration gateConfig gateResult meta
        else if trigger_Enabled triggerConfig
        then transitionToWaitingTrigger rootBeadID wispID wispIteration gateConfig gateResult meta
        else iterate rootBeadID wispID wispIteration gateConfig gateResult meta speculativeWispID
    | Some reason =>
        try! _ := burnSpeculativeWisp rootBeadID speculativeWispID
          or "burning speculative wisp before terminal transition" in
        terminate rootBeadID wispID wispIteration gateConfig gateResult reason "controller"
          globalIteration meta
    end.

(** Step 3's repair of the stored iteration counter. *)
Definition repairIteration (rootBeadID : string) (meta : gmap string string)
    (globalIteration : Z) : prog (res unit) :=
  if negb (globalIteration =? (DecodeInt (mget meta FieldIteration)).1)
  then try! _ := call (SetMetadata rootBeadID FieldIteration (EncodeInt globalIteration))
         or "updating iteration count" in Ret (Ok tt)
  else Ret (Ok tt).

(** From the parsed configuration on: the missing-condition guard, then steps 3b to 9. *)
Definition processWisp (rootBeadID wispID : string) (wispIteration globalIteration : Z)
    (gateConfig : GateConfig) (triggerConfig : TriggerConfig) (meta : gmap string string)
  : prog (res HandlerResult) :=
  let maxIterations := (DecodeInt (mget meta FieldMaxIterations)).1 in
  let nextKey := IdempotencyKey rootBeadID (wrap64 (wispIteration + 1)) in
  let skipGateEval := String.eqb (mget meta FieldGateOutcomeWisp) wispID in
  if negb skipGateEval && String.eqb (gc_Mode gateConfig) GateModeCondition
     && String.eqb (gc_Condition gateConfig) ""
  then
    let! pending := validPendingNextWisp rootBeadID nextKey (mget meta FieldPendingNextWisp) in
    if negb (String.eqb pending "") then
      try! _ := burnSpeculativeWisp rootBeadID pending
        or "gate mode is condition but no condition path configured; additionally burning pending wisp" in
      Ret (Err (errmsg "gate mode is %q but no condition path configured" [GateModeCondition]))
    else Ret (Err (errmsg "gate mode is %q but no condition path configured" [GateModeCondition]))
  else
    try! (speculativeWispID, speculativePourErr) :=
      speculativePour rootBeadID nextKey wispIteration maxIterations gateConfig triggerConfig meta in
    try! g := gateStep rootBeadID wispID wispIteration skipGateEval gateConfig meta
                speculativeWispID in
    match g with
    | inl r => Ret (Ok r)
    | inr gateResult =>
        outcomeStep rootBeadID wispID wispIteration globalIteration maxIterations gateConfig
          triggerConfig gateResult meta speculativeWispID speculativePourErr
    end.

Definition HandleWispClosed (rootBeadID wispID : string) : prog (res HandlerResult) :=
  try! meta := call (GetMetadata rootBeadID) or "reading root bead metadata" in
  if String.eqb (mget meta FieldState) StateTerminated then
    ignore! call (CloseBead rootBeadID CloseReasonHandlerCleanup) in
    Ret (Ok (action_result ActionSkipped))
  else
  try! wispInfo := call (GetBead wispID) or "reading wisp info" in
  let '(wispIteration, ok) := ParseIterationFromKey (bi_IdempotencyKey wispInfo) in
  if negb ok
  then Ret (Err (errmsg "parsing iteration from wisp key %q" [bi_IdempotencyKey wispInfo])) else
  let! lastIteration := lastProcessedIteration meta in
  if wispIteration <=? lastIteration then Ret (Ok (action_result ActionSkipped)) else
  try! globalIteration := deriveIterationCount rootBeadID or "deriving iteration count" in
  try! _ := repairIteration rootBeadID meta globalIteration in
  match ParseGateConfig meta with
  | Err e => Ret (Err (wrap "parsing gate config" e))
  | Ok gateConfig =>
      match ParseTriggerConfig meta with
      | Err e => Ret (Err (wrap "parsing trigger config" e))
      | Ok triggerConfig =>
          processWisp rootBeadID wispID wispIteration globalIteration gateConfig triggerConfig meta
      end
  end.

(** * Preflight checks *)

Definition CheckNestedConvergence (callingAgent targetAgent : string) : prog (res unit) :=
  if negb (String.eqb callingAgent targetAgent) then Ret (Ok tt) else
  try! count := call (CountActiveConvergenceLoops targetAgent)
    or "checking nested convergence" in
  if 0 <? count
  then Ret (Err (errmsg "cannot create convergence loop targeting %q: agent is currently executing a convergence wisp. Self-targeting convergence would deadlock" [targetAgent]))
  else Ret (Ok tt).

Definition CheckConcurrencyLimits (targetAgent : string) (maxPerAgent : Z) : prog (res unit) :=
  try! agentCount := call (CountActiveConvergenceLoops targetAgent)
    or "checking concurrency limits" in
  if maxPerAgent <=? agentCount
  then Ret (Err (errmsg "cannot create convergence loop targeting %q: per-agent limit reached (%d/%d active loops)" [targetAgent; Itoa agentCount; Itoa maxPerAgent]))
  else Ret (Ok tt).

End Handler.
