(* ===== verification/RefStore.v ===== *)
(** A reference implementation of the Store interface: one in-memory bead database
    with a clock, a queue of script results and a schedule of injected faults.  It is
    sound for the contract of ConvStore, so the contract is inhabited, and it runs
    every handler inside the kernel. *)
From stdpp Require Import stringmap.
From S2P Require Import Prelude GoStd ConvMeta ConvKeys ConvStore ConvFrame ConvGate ConvHandler.

Record RefStore : Type := mkRefStore {
  rs_world : World;
  rs_clock : Z;
  rs_scripts : list ScriptRun;   (* results of the next script executions *)
  rs_faults : list bool          (* true: the next fallible call fails *)
}.

(** A script that exits with status 1 and no output. *)
Definition failing_script : ScriptRun := mkScriptRun false false (Some (RunExit 1)) [] [] 1000000.
Definition passing_script : ScriptRun := mkScriptRun false false None ["ok"] [] 1000000.
Definition fault : error := Errorf "store fault" [] [].

Definition find_key (w : World) (key : string) : option string :=
  match filter (fun kv => b_key kv.2 = key) (map_to_list (w_beads w)) with
  | [] => None
  | (id, _) :: _ => Some id
  end.
Definition fresh_id (w : World) : string := fresh_string "bd" (w_beads w).
Definition new_bead (s : RefStore) (parent key : string) (st : string) : Bead :=
  mkBead st parent key (rs_clock s) 0 ∅.
Definition put (s : RefStore) (w : World) : RefStore :=
  mkRefStore w (rs_clock s + 1) (rs_scripts s) (rs_faults s).
Definition next_fault (s : RefStore) : bool * RefStore :=
  match rs_faults s with
  | [] => (false, s)
  | f :: fs => (f, mkRefStore (rs_world s) (rs_clock s) (rs_scripts s) fs)
  end.

Definition ref_pour (s : RefStore) (parent key : string) (st : string) : res string * RefStore :=
  let w := rs_world s in
  match find_key w key with
  | Some id => (Ok id, s)
  | None =>
      let id := fresh_id w in
      (Ok id, put s (set_beads w (<[id := new_bead s parent key st]> (w_beads w))))
  end.

Definition fallible {A} (s : RefStore) (f : RefStore -> res A * RefStore) : res A * RefStore :=
  let '(b, s') := next_fault s in if b : bool then (Err fault, s') else f s'.

(** Runs [f] on an existing bead. *)
Definition on_bead {A} (s : RefStore) (id : string) (f : Bead -> res A * RefStore)
  : res A * RefStore :=
  match w_beads (rs_world s) !! id with Some b => f b | None => (Err ErrNotFound, s) end.

Definition ref_exec R (s : RefStore) (c : cmd R) : R * RefStore :=
  match c in cmd R return R * RefStore with
  | GetBead id => fallible s (fun s => on_bead s id (fun b => (Ok (bead_info id b), s)))
  | GetMetadata id => fallible s (fun s => on_bead s id (fun b => (Ok (b_meta b), s)))
  | SetMetadata id k v => fallible s (fun s => on_bead s id (fun _ =>
      (Ok tt, put s (set_meta (rs_world s) id k v))))
  | CloseBead id reason => fallible s (fun s => on_bead s id (fun _ =>
      (Ok tt, put s (set_closed (stamp_reason (rs_world s) id reason) id (rs_clock s)))))
  | DeleteBead id => fallible s (fun s => on_bead s id (fun _ =>
      (Ok tt, put s (set_beads (rs_world s) (delete id (w_beads (rs_world s)))))))
  | Children p => fallible s (fun s =>
      let l := children_of (rs_world s) p in
      if forallb (fun i => negb (String.eqb (bi_ID i) "")) l then (Ok l, s) else (Err fault, s))
  | PourWisp parent _ key _ _ => fallible s (fun s => ref_pour s parent key "in_progress")
  | PourSpeculativeWisp parent _ key _ _ => fallible s (fun s => ref_pour s parent key "open")
  | ActivateWisp id => fallible s (fun s => on_bead s id (fun _ => (Ok tt, s)))
  | FindByIdempotencyKey key => fallible s (fun s =>
      match find_key (rs_world s) key with
      | Some id => (Ok (id, true), s)
      | None => (Ok ("", false), s)
      end)
  | CountActiveConvergenceLoops agent => fallible s (fun s =>
      (Ok (Z.of_nat (length (filter (fun kv =>
             mget (b_meta kv.2) FieldTarget = agent
             /\ mget (b_meta kv.2) FieldState = StateActive) (map_to_list (w_beads (rs_world s)))))), s))
  | CreateConvergenceBead _ => fallible s (fun s =>
      let id := fresh_id (rs_world s) in
      if String.eqb id "" then (Err fault, s) else
      (Ok id, put s (set_beads (rs_world s)
                       (<[id := new_bead s "" "" "open"]> (w_beads (rs_world s))))))
  | Emit ev => (tt, put s (mkWorld (w_beads (rs_world s)) (w_events (rs_world s) ++ [ev])))
  | RunScript _ _ _ _ =>
      match rs_scripts s with
      | [] => (failing_script, s)
      | r :: rs => (r, mkRefStore (rs_world s) (rs_clock s) rs (rs_faults s))
      end
  | WaitOrDone _ => (false, s)
  end.

#[export] Instance RefStore_impl : StoreImpl RefStore := {
  exec := ref_exec;
  view := rs_world
}.

Lemma find_key_some w key id :
  find_key w key = Some id -> exists b, w_beads w !! id = Some b /\ b_key b = key.
Proof.
  unfold find_key. destruct (filter _ _) as [|[i b] l] eqn:E; [done|]. intros [= ->].
  assert (Hin : (id, b) ∈ filter (fun kv : string * Bead => b_key kv.2 = key)
                            (map_to_list (w_beads w))) by (rewrite E; set_solver).
  apply list_elem_of_filter in Hin as [Hk Hin]. apply elem_of_map_to_list in Hin. eauto.
Qed.

Lemma find_key_none w key :
  find_key w key = None -> map_Forall (fun _ b => b_key b <> key) (w_beads w).
Proof.
  unfold find_key. destruct (filter _ _) as [|[i b] l] eqn:E; [|done]. intros _ id b Hb Hk.
  assert (Hin : (id, b) ∈ filter (fun kv : string * Bead => b_key kv.2 = key)
                            (map_to_list (w_beads w)));
    [|rewrite E in Hin; set_solver].
  apply list_elem_of_filter. split; [done|]. by apply elem_of_map_to_list.
Qed.

Lemma fresh_id_fresh w : w_beads w !! fresh_id w = None.
Proof. apply fresh_string_fresh. Qed.

Lemma ref_pour_sound s parent key st :
  st ∈ ["open"; "in_progress"] ->
  pour_step (rs_world s) parent key (fst (ref_pour s parent key st))
    (rs_world (snd (ref_pour s parent key st))).
Proof.
  intros Hst. unfold ref_pour. destruct (find_key _ _) as [id|] eqn:E; simpl.
  - left. split; [done|]. by apply find_key_some.
  - right. split; [by apply find_key_none|]. exists (new_bead s parent key st), ∅.
    split_and!; try done; [apply fresh_id_fresh|].
    by rewrite (right_id_L ∅ (∪)).
Qed.

Lemma fallible_sound {R} s (c : cmd (res R)) f :
  (forall s, store_step (rs_world s) c (fst (f s)) (rs_world (snd (f s)))) ->
  (store_step (rs_world s) c (Err fault) (rs_world s)) ->
  store_step (rs_world s) c (fst (fallible s f)) (rs_world (snd (fallible s f))).
Proof.
  intros Hf He. unfold fallible, next_fault. destruct (rs_faults s) as [|[] fs]; simpl; auto.
  apply (Hf (mkRefStore (rs_world s) (rs_clock s) (rs_scripts s) fs)).
Qed.

#[export] Instance RefStore_sound : SoundStore RefStore.
Proof.
  intros R s c. simpl. destruct c; simpl ref_exec;
    try (apply fallible_sound;
         [clear s; intros s; unfold on_bead;
          try (destruct (w_beads (rs_world s) !! id) as [b|] eqn:E; simpl)
         |simpl; by auto]).
  all: try (simpl; split; [done|eauto; fail]).
  all: try (simpl; eauto; fail).
  all: try (apply ref_pour_sound; set_solver).
  all: simpl.
  - split; [by exists b|done].
  - split; [by exists b|by eexists].
  - split; [by exists b|done].
  - destruct (forallb _ _) eqn:E; simpl; [|done]. split; [done|]. split; [done|].
    apply List.Forall_forall. intros i Hi Hid. rewrite forallb_forall in E.
    apply E in Hi. by rewrite Hid in Hi.
  - split; [apply rely_refl|by exists b].
  - destruct (find_key _ _) eqn:E; simpl; split; try done;
      [by apply find_key_some|by apply find_key_none].
  - split; [done|lia].
  - destruct (String.eqb_spec (fresh_id (rs_world s)) "") as [|Hne]; simpl; [by left|].
    exists (new_bead s "" "" "open"). split_and!; try done; [apply fresh_id_fresh|set_solver].
  - by destruct (rs_scripts s).
Qed.

(** A crash in the middle of a run of a handler on the reference store. *)
Fixpoint run_upto {A} (n : nat) (p : prog A) (s : RefStore) : RefStore :=
  match n, p with
  | S n', Op c k => let '(r, s') := ref_exec _ s c in run_upto n' (k r) s'
  | _, _ => s
  end.

Lemma run_upto_reaches {A} n (p : prog A) s : reaches p (rs_world s) (rs_world (run_upto n p s)).
Proof.
  revert p s. induction n as [|n IH]; intros [a|R c k] s; simpl; try constructor.
  pose proof (exec_sound R s c) as Hs. simpl in Hs.
  destruct (ref_exec R s c) as [r s'] eqn:E. simpl in Hs.
  eapply reaches_op; [exists (rs_world s); split; [apply rely_refl|exact Hs]|]. apply IH.
Qed.

Lemma ref_runs {A} (p : prog A) s a :
  fst (run p s) = a -> runs p (rs_world s) a (rs_world (snd (run p s))).
Proof. intros <-. exact (@run_runs RefStore _ RefStore_sound A p s). Qed.

(** * A sample loop: root bead "gc-1" with a closed first iteration. *)
Definition sample_meta (mode : string) : gmap string string :=
  {[ FieldState := StateActive; FieldIteration := "0"; FieldMaxIterations := "3";
     FieldFormula := "review"; FieldTarget := "agent-a"; FieldGateMode := mode;
     FieldGateCondition := "/city/check.sh"; FieldActiveWisp := "gc-2";
     FieldCityPath := "/city" ]}.
Definition sample_beads (mode : string) : gmap string Bead :=
  {[ "gc-1" := mkBead "in_progress" "" "" 1 0 (sample_meta mode);
     "gc-2" := mkBead "closed" "gc-1" "converge:gc-1:iter:1" 2 5 ∅ ]}.
Definition sample (mode : string) (scripts : list ScriptRun) (faults : list bool) : RefStore :=
  mkRefStore (mkWorld (sample_beads mode) []) 10 scripts faults.

Lemma sample_top_level mode scripts faults : top_level (rs_world (sample mode scripts faults)) "gc-1".
Proof. split; [done|]. eexists. split; [reflexivity|done]. Qed.

(** Decides whether a bead of a computed world is a root bead. *)
Definition is_top (w : World) (root : string) : bool :=
  negb (String.eqb root "")
  && match w_beads w !! root with
     | Some b => String.eqb (b_parent b) "" && String.eqb (b_key b) ""
     | None => false
     end.

Lemma is_top_spec w root : is_top w root = true -> top_level w root.
Proof.
  unfold is_top, top_level. intros [H1 H2]%andb_true_iff. split; [by intros ->|].
  destruct (w_beads w !! root) as [b|]; [|done]. apply andb_true_iff in H2 as [H2 H3].
  apply String.eqb_eq in H2, H3. by exists b.
Qed.

Ltac top_level_tac := apply is_top_spec; vm_compute; reflexivity.

(** The handler the examples run, and the loop after its first iteration closed under
    the manual gate and under a passing condition. *)
Definition handler0 : Handler := mkHandler "" true 5.
Abbreviation closed0 := (HandleWispClosed handler0 "gc-1" "gc-2").
Definition manual_held : RefStore := snd (run closed0 (sample GateModeManual [] [])).
Abbreviation passing := (sample GateModeCondition [passing_script] []).
Abbreviation gate_passed := (snd (run closed0 passing)).
