(* ===== verification/ConvHandlerFacts.v ===== *)
(** Facts about the helpers of the wisp-closed handler that its properties share:
    which root keys each helper can change, at any crash point and for any store
    failure, and the ordered-commit lemma for [commit]. *)
From S2P Require Import Prelude GoStd ConvMeta ConvKeys ConvStore ConvFrame ConvGate ConvHandler.
#[local] Open Scope prog_scope.

(** The keys persistGateOutcome writes, and those of the steps before a transition. *)
Definition gateKeys : list string :=
  [FieldGateOutcome; FieldGateExitCode; FieldGateRetryCount; FieldGateStdout; FieldGateStderr;
   FieldGateDurationMs; FieldGateTruncated; FieldGateOutcomeWisp].
Definition prepKeys : list string := FieldIteration :: FieldPendingNextWisp :: gateKeys.
Definition verdictKeys : list string := [FieldAgentVerdict; FieldAgentVerdictWisp].
(** Keys changed beside a commit. *)
Definition sideKeys : list string := prepKeys ++ verdictKeys.

Section Facts.
Context `{UnicodeTables} (h : Handler) (root : string).

Lemma emit_keeps K b ty id bid p : keeps root K (emit h b ty id bid p).
Proof. unfold emit, withEventRig, eventRig. specs_tac. Qed.

(** What emitEvent appends to the log. *)
Definition with_rig (rig : string) (p : Payload) : Payload :=
  if String.eqb rig "" then p else payload_with_rig rig p.

Lemma emit_logs b ty id bid p w :
  h_HasEmitter h = true -> top_level w root ->
  wpc (emit h b ty id bid p)
    (fun _ w' => root_frame root [] w w'
       /\ exists rig, mkEvent ty id bid (with_rig rig p) b ∈ w_events w')
    (fun w' => root_frame root [] w w') w.
Proof.
  intros Hh Ht. unfold emit. rewrite Hh. simpl negb. cbv iota.
  eapply (wpc_specs root [] _ _ (fun q => exists rig, q = with_rig rig p)); [| done|done|].
  - unfold withEventRig. eapply (specs_bind _ _ _ _ (fun _ => True)).
    + unfold eventRig. specs_tac.
    + intros rig _. apply specs_ret. by exists rig.
  - intros q w1 F1 Ht1 [rig ->]. apply wpc_op; [done|]. intros [] w2 Hst.
    assert (F2 : root_frame root [] w w2).
    { eapply root_frame_trans; [exact F1|]. apply (env_step_frame root) in Hst; try done.
      by apply top_level_exists. }
    apply wpc_ret; [done|]. split; [done|]. exists rig.
    destruct Hst as (w' & _ & ->). simpl. set_solver.
Qed.

Lemma computeDurations_keeps K wisp : keeps root K (computeDurations root wisp).
Proof. unfold computeDurations. specs_tac. Qed.

Lemma deriveIterationCount_keeps K : keeps root K (deriveIterationCount root).
Proof. unfold deriveIterationCount. specs_tac. Qed.

Lemma deriveIterationCount_nonneg K :
  specs root K (deriveIterationCount root) (fun r => forall n, r = Ok n -> 0 <= n).
Proof.
  unfold deriveIterationCount. specs_tac; [|congruence].
  match goal with Hn : Ok _ = Ok _ |- _ => injection Hn as <- end.
  rewrite childStats_closed. lia.
Qed.

Lemma lastProcessedIteration_keeps K meta : keeps root K (lastProcessedIteration meta).
Proof. unfold lastProcessedIteration. specs_tac. Qed.

Lemma clearVerdict_keeps K wisp meta :
  (forall k, k ∈ verdictKeys -> k ∈ K) -> keeps root K (clearVerdict root wisp meta).
Proof. intros HK. unfold clearVerdict. specs_tac; apply HK; key_mem. Qed.

Lemma write_all_keeps K ws :
  (forall m, m ∈ ws -> mw_key m ∈ K) -> keeps root K (write_all root ws).
Proof.
  induction ws as [|m ws IH]; intros HK; simpl; specs_tac.
  - apply HK. set_solver.
  - apply IH. intros m' Hm'. apply HK. set_solver.
Qed.

Lemma commit_keeps K ws pre m :
  (forall k, k ∈ map mw_key (ws ++ [m]) -> k ∈ K) ->
  match pre with None => True | Some p => keeps root K p end -> keeps root K (commit root ws pre m).
Proof.
  intros HK Hpre. rewrite map_app in HK. unfold commit. eapply specs_bind; [apply write_all_keeps|].
  - intros x Hx. apply HK, elem_of_app. left. by apply list_elem_of_fmap_2.
  - intros [[]|e] _; [|specs_tac].
    apply (specs_bind _ _ _ _ (fun _ => True)); [destruct pre; specs_tac|].
    specs_tac. apply HK. set_solver.
Qed.

(** Deleting a wisp's subtree cannot reach the root bead, which has no parent. *)
Lemma deleteBeadSubtree_keeps K depth id :
  id <> root -> id <> "" -> keeps root K (deleteBeadSubtree depth id).
Proof.
  revert id. induction depth as [|depth IH]; intros id Hne He; simpl; [specs_tac|].
  eapply (specs_bind _ _ _ _ (fun r => forall l, r = Ok l ->
    Forall (fun c => bi_ID c <> root /\ bi_ID c <> "") l)).
  { apply specs_call; [framed_call_tac|].
    intros w r w' (Hr & b & Hb & Hp & _) (w1 & [_ Hre] & -> & Hl) l ->.
    destruct (Hre _ _ Hb) as (b' & Hb' & Hp' & _). destruct Hl as [Hl HF].
    rewrite List.Forall_forall in HF. apply List.Forall_forall. intros c Hc. split; [|auto].
    apply list_elem_of_In in Hc. rewrite Hl in Hc.
    apply list_elem_of_omap in Hc as ([i x] & Hx%elem_of_map_to_list & Hsome). simpl in Hsome.
    destruct (String.eqb_spec (b_parent x) id) as [Hpx|]; [|done].
    injection Hsome as <-. simpl. intros ->. congruence. }
  intros [l|e] Hl; [|specs_tac].
  apply (specs_bind _ _ _ _ (fun _ => True)).
  - specialize (Hl l eq_refl). induction Hl as [|c l [Hc1 Hc2] _ IHl]; [specs_tac|].
    apply (specs_bind _ _ _ _ (fun _ => True)); [by apply IH|]. specs_tac.
  - specs_tac.
Qed.

Lemma burnSpeculativeWisp_keeps K id :
  id <> root -> FieldPendingNextWisp ∈ K -> keeps root K (burnSpeculativeWisp h root id).
Proof.
  intros Hne HK. unfold burnSpeculativeWisp. destruct (String.eqb_spec id "") as [|He]; [specs_tac|].
  eapply specs_bind; [by apply deleteBeadSubtree_keeps|]. specs_tac.
Qed.

Lemma runOnce_loop_keeps K left path env timeout : keeps root K (runOnce_loop left path env timeout).
Proof. induction left as [|left IH]; simpl; unfold runOnceNoPreExecRetry; specs_tac. Qed.

Lemma RunCondition_loop_keeps K left path env timeout a budget n r :
  keeps root K (RunCondition_loop left path env timeout a budget n r).
Proof.
  revert a n r. induction left as [|left IH]; intros a n r; simpl; [specs_tac|].
  eapply specs_bind; [apply runOnce_loop_keeps|]. specs_tac.
Qed.

Lemma evaluateGate_keeps K cfg meta wisp n v : keeps root K (evaluateGate h cfg meta wisp n v root).
Proof.
  unfold evaluateGate, EvaluateHybrid. eapply specs_bind; [apply computeDurations_keeps|].
  intros [d c] _. unfold RunCondition. specs_tac; apply RunCondition_loop_keeps.
Qed.

(** validPendingNextWisp answers with a child of the root, so not the root itself. *)
Lemma validPendingNextWisp_keeps K nextKey pending :
  root <> "" -> FieldPendingNextWisp ∈ K ->
  specs root K (validPendingNextWisp root nextKey pending) (fun id => id <> root).
Proof.
  intros Hr HK. unfold validPendingNextWisp.
  destruct (String.eqb_spec pending "") as [|He]; [specs_tac; congruence|].
  eapply (specs_bind _ _ _ _ (fun r => forall i, r = Ok i -> bi_ParentID i = root -> pending <> root)).
  - apply specs_call; [framed_call_tac|].
    intros w r w' (_ & b & Hb & Hp & _) (w1 & [_ Hre] & -> & Hi) i -> Hpar ->.
    destruct (Hre _ _ Hb) as (b1 & Hb1 & Hp1 & _). destruct Hi as (b' & Hb' & ->).
    simpl in Hpar. congruence.
  - intros [i|e] Hi; specs_tac; try congruence.
    destruct (String.eqb_spec (bi_ParentID i) root); [|done]. by eapply Hi.
Qed.

(** A poured wisp carries the requested key, so it is not the root either. *)
Lemma pour_not_root (c : cmd (res string)) K key :
  framed_call root K _ c -> key <> "" ->
  (forall w r w', store_step w c r w' -> pour_step w root key r w') ->
  specs root K (call c) (fun r => forall id, r = Ok id -> id <> root).
Proof.
  intros Hc Hk Hpour. apply specs_call; [done|].
  intros w r w' (_ & b & Hb & _ & Hkey) (w1 & [_ Hre] & Hst) id -> ->.
  destruct (Hre _ _ Hb) as (b1 & Hb1 & _ & Hk1 & _). apply Hpour in Hst. simpl in Hst.
  destruct Hst as [(_ & b' & Hb' & Hk')|(_ & b' & m & Hn & _)]; congruence.
Qed.

Lemma find_not_root K key :
  key <> "" -> specs root K (call (FindByIdempotencyKey key))
                 (fun r => forall id, r = Ok (id, true) -> id <> root).
Proof.
  intros Hk. apply specs_call; [framed_call_tac|].
  intros w r w' (_ & b & Hb & _ & Hkey) (w1 & [_ Hre] & -> & Hst) id -> ->.
  destruct (Hre _ _ Hb) as (b1 & Hb1 & _ & Hk1 & _). destruct Hst as (b' & Hb' & Hk'). congruence.
Qed.

(** The result of the speculative pour is not the root bead. *)
Definition not_root {B} (r : res (string * B)) : Prop := forall id b, r = Ok (id, b) -> id <> root.

Lemma speculativePour_keeps K nextKey n max cfg trig meta :
  root <> "" -> nextKey <> "" -> FieldPendingNextWisp ∈ K ->
  specs root K (speculativePour h root nextKey n max cfg trig meta) not_root.
Proof.
  intros Hr Hk HK. unfold speculativePour.
  eapply specs_bind; [by apply validPendingNextWisp_keeps|]. intros pending Hp. simpl.
  destruct (_ && _ && _); [|apply specs_ret; intros ? ?; naive_solver].
  eapply specs_bind; [apply (pour_not_root _ _ nextKey); [framed_call_tac|done|done]|].
  intros r Hid. eapply (specs_bind _ _ _ _ (fun x => x.1 <> root)).
  - destruct r as [id|e]; [apply specs_ret; by apply Hid|].
    eapply specs_bind; [by apply find_not_root|].
    intros [[id []]|e'] Hf; specs_tac; simpl; try congruence. by apply Hf.
  - intros [id pe] Hne. simpl in Hne.
    destruct (String.eqb id ""); [apply specs_ret; intros ? ?; naive_solver|].
    specs_tac; [intros ? ?; naive_solver|].
    eapply specs_bind; [by apply burnSpeculativeWisp_keeps|]. specs_tac; by intros ? ?.
Qed.

Lemma persistGateOutcome_keeps K wisp r :
  (forall k, k ∈ gateKeys -> k ∈ K) -> keeps root K (persistGateOutcome root wisp r).
Proof.
  intros HK. apply commit_keeps; [|done]. intros k Hk. apply HK. revert k Hk. key_mem.
Qed.

Lemma repairIteration_keeps K meta n :
  FieldIteration ∈ K -> keeps root K (repairIteration root meta n).
Proof. intros HK. unfold repairIteration. specs_tac. Qed.

(** * Ordered commits

    At a crash the writes done are a prefix of the list, whatever failed. *)
Definition written (w' : World) (m : metaWrite) : Prop := field w' root (mw_key m) = mw_value m.
Definition unwritten (w w' : World) (m : metaWrite) : Prop :=
  field w' root (mw_key m) = field w root (mw_key m).
Definition prefix_written (ws : list metaWrite) (w w' : World) : Prop :=
  exists ds rest, ws = ds ++ rest /\ Forall (written w') ds /\ Forall (unwritten w w') rest.

Lemma set_metadata_cases w k v r w' :
  exists_bead w root -> RequiresToken k = true -> env_step w (SetMetadata root k v) r w' ->
  root_frame root [k] w w'
  /\ (field w' root k = v \/ (r <> Ok tt /\ field w' root k = field w root k)).
Proof.
  intros He Hk Hst. assert (F := Hst). apply (env_step_frame root w) in F; [|done|done]. simpl in F.
  rewrite String.eqb_refl in F. split; [done|].
  destruct r as [[]|e]; [left; by eapply set_metadata_ok|].
  destruct Hst as (w1 & Hre & [->| ->]).
  - right. split; [done|]. apply (root_frame_field root []); [by apply rely_frame|done|set_solver].
  - left. apply (set_metadata_ok w). exists w1. split; [done|]. split; [|done].
    by eapply root_frame_exists, (rely_frame _ []).
Qed.

Definition keys_of (ws : list metaWrite) : list string := map mw_key ws.
Definition protected (ws : list metaWrite) : Prop :=
  Forall (fun k => RequiresToken k = true) (keys_of ws).

(** A later step framed by other keys keeps what was written and what was not. *)
Lemma written_frame K w w' ws :
  root_frame root K w w' -> protected ws -> (forall k, k ∈ keys_of ws -> k ∉ K) ->
  Forall (written w) ws -> Forall (written w') ws.
Proof.
  intros F Hp Hd HF. apply List.Forall_forall. intros m Hm.
  rewrite List.Forall_forall in HF. unfold protected in Hp. rewrite Forall_forall in Hp.
  assert (mw_key m ∈ keys_of ws) by (by apply list_elem_of_In, in_map).
  unfold written. rewrite (root_frame_field _ _ _ _ _ F) by auto. by apply HF.
Qed.

Lemma unwritten_frame K w w' ws :
  root_frame root K w w' -> protected ws -> (forall k, k ∈ keys_of ws -> k ∉ K) ->
  Forall (unwritten w w') ws.
Proof.
  intros F Hp Hd. apply List.Forall_forall. intros m Hm.
  unfold protected in Hp. rewrite Forall_forall in Hp.
  assert (mw_key m ∈ keys_of ws) by (by apply list_elem_of_In, in_map).
  apply (root_frame_field _ _ _ _ _ F); auto.
Qed.

Lemma unwritten_trans w w1 w' ws :
  Forall (unwritten w w1) ws -> Forall (unwritten w1 w') ws -> Forall (unwritten w w') ws.
Proof.
  intros H1 H2. rewrite List.Forall_forall in *. unfold unwritten in *.
  intros m Hm. rewrite H2, H1 by done. done.
Qed.

Lemma prefix_written_start w w' ws :
  Forall (unwritten w w') ws -> prefix_written ws w w'.
Proof. by exists [], ws. Qed.

Lemma prefix_written_cons w w1 w' m ws :
  Forall (unwritten w w1) ws -> written w' m -> prefix_written ws w1 w' ->
  prefix_written (m :: ws) w w'.
Proof.
  intros Hu Hm (ds & rest & -> & Hd & Hr). exists (m :: ds), rest. split; [done|].
  split; [by constructor|]. apply Forall_app in Hu as [_ Hu]. by eapply unwritten_trans.
Qed.

(** Along a prefix of writes, a key changed only if every earlier write is done. *)
Lemma prefix_written_before ws1 m ws2 w w' :
  prefix_written (ws1 ++ m :: ws2) w w' ->
  unwritten w w' m \/ Forall (written w') ws1.
Proof.
  intros (ds & rest & E & W & U).
  destruct (decide (length ds <= length ws1)%nat) as [Hle|Hgt].
  - left. assert (Hm : In m rest).
    { rewrite <- (take_drop (length ds) ws1), <- app_assoc in E.
      apply app_inj_1 in E as [_ <-]; [apply in_elt|]. rewrite length_take. lia. }
    rewrite List.Forall_forall in U. by apply U.
  - right. assert (E' : ws1 = take (length ws1) ds).
    { rewrite <- (take_app_length ws1 (m :: ws2)), E at 1.
      rewrite take_app_le by lia. done. }
    rewrite E'. by apply Forall_take.
Qed.

Lemma wpc_write_all ws w :
  top_level w root -> NoDup (keys_of ws) -> protected ws ->
  wpc (write_all root ws)
    (fun r w' => root_frame root (keys_of ws) w w' /\ (r = Ok tt -> Forall (written w') ws))
    (fun w' => root_frame root (keys_of ws) w w' /\ prefix_written ws w w') w.
Proof.
  revert w. induction ws as [|m ws IH]; intros w Hw Hnd Hp; simpl.
  { assert (F := root_frame_refl root [] w (top_level_exists _ _ Hw)).
    apply wpc_ret; split; auto. by apply prefix_written_start. }
  apply NoDup_cons in Hnd as [Hn Hnd]. inversion_clear Hp as [|? ? Hk Hp'].
  assert (Hd : forall k, k ∈ keys_of ws -> k ∉ [mw_key m]) by set_solver.
  assert (F0 := root_frame_refl root (keys_of (m :: ws)) w (top_level_exists _ _ Hw)).
  apply wpc_call; [split; [done|by apply prefix_written_start, Forall_true]|].
  intros r w1 Hst. apply set_metadata_cases in Hst as [F1 Hc]; [|by apply top_level_exists|done].
  assert (U := unwritten_frame _ _ _ _ F1 Hp' Hd).
  assert (F1' : root_frame root (keys_of (m :: ws)) w w1)
    by (eapply root_frame_weaken; [|exact F1]; set_solver).
  destruct r as [[]|e].
  - destruct Hc as [Hc|[? _]]; [|done].
    eapply wpc_conseq; [apply (IH w1); [by eapply root_frame_top_level|done|done]| |]; simpl.
    + intros w' [F2 HP]. split.
      * eapply root_frame_trans; [exact F1'|]. eapply root_frame_weaken; [|exact F2]. set_solver.
      * eapply prefix_written_cons; [done| |done]. unfold written.
        rewrite (root_frame_field _ _ _ _ _ F2) by done. done.
    + intros r w' _ [F2 HP]. split.
      * eapply root_frame_trans; [exact F1'|]. eapply root_frame_weaken; [|exact F2]. set_solver.
      * intros Hr. constructor; [|auto]. unfold written.
        rewrite (root_frame_field _ _ _ _ _ F2) by done. done.
  - apply wpc_ret; [|done]. split; [done|]. destruct Hc as [Hc|[_ Hc]].
    + exists [m], ws. split; [done|]. split; [by constructor|done].
    + apply prefix_written_start. by constructor.
Qed.

(** The crash condition of a commit of [ws] ending in [m]: a prefix is written, and
    once the marker changed, [P], which the pre-marker step established, holds. *)
Definition committing (ws : list metaWrite) (m : metaWrite) (P : World -> Prop) (w w' : World)
  : Prop :=
  root_frame root (keys_of (ws ++ [m]) ++ sideKeys) w w' /\ prefix_written (ws ++ [m]) w w'
  /\ (unwritten w w' m \/ P w').
Definition committed (ws : list metaWrite) (m : metaWrite) (P : World -> Prop) (w w' : World)
  : Prop :=
  root_frame root (keys_of (ws ++ [m]) ++ sideKeys) w w' /\ Forall (written w') (ws ++ [m]) /\ P w'.

(** What the pre-marker step must do: touch no protected key, and establish [P]. *)
Definition stable (P : World -> Prop) : Prop := forall K w w', root_frame root K w w' -> P w -> P w'.
Definition pre_ok (pre : option (prog (res unit))) (P : World -> Prop) : Prop :=
  stable P
  /\ match pre with
     | None => forall w, P w
     | Some p => forall w, top_level w root ->
         wpc p (fun r w' => root_frame root [] w w' /\ (r = Ok tt -> P w'))
               (fun w' => root_frame root [] w w') w
     end.

(** Writes of distinct, protected keys. *)
Definition loop_writes (ws : list metaWrite) : Prop :=
  NoDup (keys_of ws) /\ protected ws.
Definition disjoint_keys (K : list string) (ws : list metaWrite) : Prop :=
  (forall k, k ∈ K -> k ∈ sideKeys) /\ (forall k, k ∈ keys_of ws -> k ∉ K).

Lemma loop_writes_app ws m :
  loop_writes (ws ++ [m]) ->
  loop_writes ws /\ loop_writes [m] /\ (mw_key m ∉ keys_of ws).
Proof.
  unfold loop_writes, protected, keys_of. rewrite map_app, NoDup_app, Forall_app.
  intros ((H1 & H2 & H3) & [H4 H5]). split_and!; auto.
  intros Hk. apply (H2 _ Hk). set_solver.
Qed.

(** Before the marker: a prefix of [ws] is written. *)
Lemma committing_prefix ws m P w w' :
  loop_writes (ws ++ [m]) ->
  root_frame root (keys_of ws) w w' -> prefix_written ws w w' -> committing ws m P w w'.
Proof.
  intros Hlw F (ds & rest & -> & Hd & Hr).
  apply loop_writes_app in Hlw as (_ & (_ & Hpm) & Hnm).
  assert (U : Forall (unwritten w w') [m]).
  { eapply unwritten_frame; [exact F|exact Hpm|]. simpl. set_solver. }
  split; [eapply root_frame_weaken; [|exact F]; unfold keys_of; rewrite !map_app; set_solver|].
  split; [|left; by inversion U]. exists ds, (rest ++ [m]). rewrite app_assoc. split; [done|].
  split; [done|]. by apply Forall_app.
Qed.

Lemma committed_committing ws m P w w' : committed ws m P w w' -> committing ws m P w w'.
Proof.
  intros (F & W & HP). split; [done|]. split; [|by right]. exists (ws ++ [m]), [].
  by rewrite app_nil_r.
Qed.

(** The marker itself, once [ws] is written and [P] holds. *)
Lemma wpc_marker ws m P w w2 :
  loop_writes (ws ++ [m]) -> stable P ->
  root_frame root (keys_of ws) w w2 -> Forall (written w2) ws -> P w2 ->
  wpc (try! _ := call (SetMetadata root (mw_key m) (mw_value m)) or (mw_desc m) in Ret (Ok tt))
    (fun r w' => r = Ok tt -> committed ws m P w w') (committing ws m P w) w2.
Proof.
  intros Hlw HS F W HP.
  assert (Hlw' := Hlw). apply loop_writes_app in Hlw' as ((_ & Hpw) & (_ & Hpm) & Hnm).
  inversion_clear Hpm as [|? ? Hk _].
  apply wpc_call; [apply committing_prefix; [done|done|]; exists ws, []; by rewrite app_nil_r|].
  intros r w3 Hst. apply set_metadata_cases in Hst as [F3 Hc]; [|by eapply root_frame_exists|done].
  assert (W3 : Forall (written w3) ws).
  { eapply written_frame; [exact F3|done| |done]. set_solver. }
  assert (F4 : root_frame root (keys_of (ws ++ [m]) ++ sideKeys) w w3).
  { unfold keys_of. rewrite map_app.
    eapply root_frame_trans; eapply root_frame_weaken; [|exact F| |exact F3]; set_solver. }
  assert (Hdone : field w3 root (mw_key m) = mw_value m -> committed ws m P w w3).
  { intros Hm. split; [done|]. split; [|exact (HS _ _ _ F3 HP)].
    apply Forall_app. split; [done|]. by constructor. }
  destruct Hc as [Hc|[Hr Hc]].
  - destruct r as [[]|e]; apply wpc_ret; auto using committed_committing.
  - destruct r as [[]|e]; [done|]. apply wpc_ret; [|done].
    assert (U : unwritten w w3 m).
    { unfold unwritten. rewrite Hc. by apply (root_frame_field _ _ _ _ _ F). }
    split; [done|]. split; [|by left]. exists ws, [m]. split; [done|]. split; [done|].
    by constructor.
Qed.

Lemma wpc_commit ws pre m P w :
  top_level w root -> loop_writes (ws ++ [m]) -> mw_value m <> "" -> pre_ok pre P ->
  wpc (commit root ws pre m)
    (fun r w' => r = Ok tt -> committed ws m P w w') (committing ws m P w) w.
Proof.
  intros Hw Hlw Hv [HS Hpre]. unfold commit.
  assert (Hlw' := Hlw). apply loop_writes_app in Hlw' as ((Hnd & Hp) & _ & _).
  eapply wpc_seq; [by apply wpc_write_all|intros w' [F1 PW]; by apply committing_prefix|].
  simpl. intros r w1 [F1 PW] [_ HW].
  destruct r as [[]|e]; [|apply wpc_ret; [by apply committing_prefix|done]].
  specialize (HW eq_refl).
  assert (Hmid : forall w2, root_frame root [] w1 w2 ->
            root_frame root (keys_of ws) w w2 /\ Forall (written w2) ws).
  { intros w2 F2. split; [|by eapply written_frame; [exact F2| |set_solver|]].
    eapply root_frame_trans; [exact F1|]. eapply root_frame_weaken; [|exact F2]. set_solver. }
  assert (Hmid' : forall w2, root_frame root [] w1 w2 -> committing ws m P w w2).
  { intros w2 F2. destruct (Hmid w2 F2) as [? ?]. apply committing_prefix; auto.
    exists ws, []. by rewrite app_nil_r. }
  eapply (wpc_seq _ _ (fun r w' => root_frame root [] w1 w' /\ (r = Ok tt -> P w'))
            (fun w' => root_frame root [] w1 w')); [|by auto|].
  { destruct pre as [p|]; [apply Hpre; by eapply root_frame_top_level|].
    assert (F := root_frame_refl root [] w1 (root_frame_exists _ _ _ _ F1)).
    apply wpc_ret; auto. }
  intros r w2 _ [F2 HP]. destruct r as [[]|e]; [|apply wpc_ret; by auto].
  destruct (String.eqb_spec (mw_value m) "") as [|_]; [done|].
  destruct (Hmid w2 F2) as [F W]. apply wpc_marker; auto.
Qed.

(** The same for a commit whose marker may be empty, in which case it is not written. *)
Lemma wpc_commit_any ws pre m P w :
  top_level w root -> loop_writes (ws ++ [m]) -> pre_ok pre P ->
  wpc (commit root ws pre m)
    (fun r w' => r = Ok tt -> Forall (written w') ws /\ P w'
                             /\ (mw_value m <> "" -> written w' m))
    (fun w' => root_frame root (keys_of (ws ++ [m]) ++ sideKeys) w w'
               /\ prefix_written ws w w') w.
Proof.
  intros Hw Hlw Hpre.
  assert (Hlw' := Hlw). apply loop_writes_app in Hlw' as ((Hnd & Hp) & _ & _).
  assert (Hpre' : forall w', committing ws m P w w' ->
            root_frame root (keys_of (ws ++ [m]) ++ sideKeys) w w' /\ prefix_written ws w w').
  { intros w' (F & (ds & rest & E & W & U) & _). split; [done|].
    destruct rest as [|x rest _] using rev_ind.
    - rewrite app_nil_r in E. subst ds. apply Forall_app in W as [W _].
      exists ws, []. by rewrite app_nil_r.
    - rewrite app_assoc in E. apply app_inj_tail in E as [-> ->].
      apply Forall_app in U as [U _]. by exists ds, rest. }
  destruct (String.eqb_spec (mw_value m) "") as [Hv|Hv].
  2: { eapply wpc_conseq; [by apply (wpc_commit ws pre m P)|done|].
       simpl. intros r w' _ HC Hr. destruct (HC Hr) as (_ & W & HP).
       apply Forall_app in W as [W Wm]. inversion_clear Wm. auto. }
  unfold commit. eapply wpc_seq; [by apply wpc_write_all|intros w' [F1 PW]; apply Hpre'|].
  { by apply committing_prefix. }
  intros r w1 [F1 PW] [_ HW].
  destruct r as [[]|e]; [|apply wpc_ret; [by apply Hpre', committing_prefix|done]].
  specialize (HW eq_refl).
  assert (Hmid : forall w2, root_frame root [] w1 w2 ->
            root_frame root (keys_of (ws ++ [m]) ++ sideKeys) w w2 /\ prefix_written ws w w2).
  { intros w2 F2. apply Hpre', committing_prefix; [done| |].
    - eapply root_frame_trans; [exact F1|]. eapply root_frame_weaken; [|exact F2]. set_solver.
    - exists ws, []. rewrite app_nil_r. split; [done|]. split; [|done].
      by eapply written_frame; [exact F2| |set_solver|]. }
  destruct Hpre as [HS Hpre].
  eapply (wpc_seq _ _ (fun r w' => root_frame root [] w1 w' /\ (r = Ok tt -> P w'))
            (fun w' => root_frame root [] w1 w')); [|done|].
  { destruct pre as [p|]; [apply Hpre; by eapply root_frame_top_level|].
    assert (F := root_frame_refl root [] w1 (root_frame_exists _ _ _ _ F1)).
    apply wpc_ret; auto. }
  intros r w2 _ [F2 HP]. destruct r as [[]|e]; [|apply wpc_ret; by auto].
  rewrite Hv, String.eqb_refl. apply wpc_ret; [by auto|]. intros _.
  split; [by eapply written_frame; [exact F2| |set_solver|]|]. split; [by apply HP|done].
Qed.

(** Framed work around a commit does not disturb it. *)
Lemma disjoint_unwritten K ws m w w1 :
  loop_writes (ws ++ [m]) -> disjoint_keys K (ws ++ [m]) -> root_frame root K w w1 ->
  Forall (unwritten w w1) (ws ++ [m]) /\ unwritten w w1 m /\ root_frame root (keys_of (ws ++ [m]) ++ sideKeys) w w1.
Proof.
  intros (_ & Hp) [Hin Hd] F. assert (U := unwritten_frame _ _ _ _ F Hp Hd).
  split; [done|]. split; [|eapply root_frame_weaken; [|exact F]; set_solver].
  apply Forall_app in U as [_ U]. by inversion U.
Qed.

Lemma committing_start K ws m P w w' :
  loop_writes (ws ++ [m]) -> disjoint_keys K (ws ++ [m]) -> root_frame root K w w' ->
  committing ws m P w w'.
Proof.
  intros Hlw Hd F. destruct (disjoint_unwritten _ _ _ _ _ Hlw Hd F) as (U & Um & F').
  split; [done|]. split; [by apply prefix_written_start|by left].
Qed.

Lemma committing_before K ws m P w w1 w' :
  loop_writes (ws ++ [m]) -> disjoint_keys K (ws ++ [m]) -> root_frame root K w w1 ->
  committing ws m P w1 w' -> committing ws m P w w'.
Proof.
  intros Hlw Hd F0 (F & (ds & rest & E & W & Ur) & HP).
  destruct (disjoint_unwritten _ _ _ _ _ Hlw Hd F0) as (U & Um & F').
  split; [by eapply root_frame_trans|]. split.
  - exists ds, rest. split; [done|]. split; [done|]. rewrite E in U.
    apply Forall_app in U as [_ U]. by eapply unwritten_trans.
  - destruct HP as [HP|]; [left|by right]. unfold unwritten in *. congruence.
Qed.

Lemma committed_before K ws m P w w1 w' :
  loop_writes (ws ++ [m]) -> disjoint_keys K (ws ++ [m]) -> root_frame root K w w1 ->
  committed ws m P w1 w' -> committed ws m P w w'.
Proof.
  intros Hlw Hd F0 (F & W & HP).
  destruct (disjoint_unwritten _ _ _ _ _ Hlw Hd F0) as (U & Um & F').
  split; [by eapply root_frame_trans|by split].
Qed.

Lemma committed_after K ws m P w w1 w' :
  loop_writes (ws ++ [m]) -> disjoint_keys K (ws ++ [m]) -> stable P ->
  committed ws m P w w1 -> root_frame root K w1 w' -> committed ws m P w w'.
Proof.
  intros Hlw Hd HS (F & W & HP) F0.
  destruct (disjoint_unwritten _ _ _ _ _ Hlw Hd F0) as (U & Um & F').
  split; [by eapply root_frame_trans|]. split; [|exact (HS _ _ _ F0 HP)].
  destruct Hlw as (_ & Hp), Hd as [_ Hd]. eapply written_frame; [exact F0|done|done|done].
Qed.

(** * Transitions

    [transits p ws m P R]: [p] is framed work around one ordered commit of [ws] and the
    marker [m]; a success committed all of it and has a result in [R]. *)
Definition transits {A} (p : prog (res A)) (ws : list metaWrite) (m : metaWrite)
    (P : World -> Prop) (R : A -> Prop) : Prop :=
  forall w, top_level w root ->
    wpc p (fun r w' => forall x, r = Ok x -> R x /\ committed ws m P w w')
          (committing ws m P w) w.

Section Transits.
Context {A : Type} (ws : list metaWrite) (m : metaWrite) (P : World -> Prop) (R : A -> Prop).
Context (Hlw : loop_writes (ws ++ [m])) (HS : stable P) (Hv : mw_value m <> "").

Lemma transits_err e : transits (Ret (Err e)) ws m P R.
Proof.
  intros w Hw. apply wpc_ret; [|by intros ?].
  apply (committing_start []); [done|split; set_solver|]. by apply root_frame_refl, top_level_exists.
Qed.

Lemma transits_before {B} K (p : prog B) f Q :
  disjoint_keys K (ws ++ [m]) -> specs root K p Q ->
  (forall b, Q b -> transits (f b) ws m P R) -> transits (bind p f) ws m P R.
Proof.
  intros Hd Hp Hf w Hw. eapply wpc_specs; [exact Hp|done| |].
  - intros w' F. by eapply committing_start.
  - intros b w1 F Hw1 Hb. eapply wpc_conseq; [by apply Hf| |]; simpl.
    + intros w' C. by eapply committing_before.
    + intros r w' _ C x ->. destruct (C x eq_refl) as [? C']. split; [done|].
      by eapply committed_before.
Qed.

Lemma transits_commit K pre (k : prog (res A)) :
  pre_ok pre P -> disjoint_keys K (ws ++ [m]) ->
  specs root K k (fun r => forall x, r = Ok x -> R x) ->
  transits (try! _ := commit root ws pre m in k) ws m P R.
Proof.
  intros Hpre Hd Hk w Hw. eapply wpc_seq; [by apply wpc_commit|done|].
  intros [[]|e] w1 C HC; [|apply wpc_ret; [done|by intros ?]].
  specialize (HC eq_refl). assert (C' := HC). destruct C' as (F & _).
  eapply wpc_conseq; [apply Hk; by eapply root_frame_top_level| |]; simpl.
  - intros w' F'. apply committed_committing. by eapply committed_after.
  - intros r w' _ [F' HR] x ->. split; [by apply HR|]. by eapply committed_after.
Qed.
End Transits.

End Facts.

#[export] Hint Resolve emit_keeps computeDurations_keeps deriveIterationCount_keeps
  lastProcessedIteration_keeps clearVerdict_keeps commit_keeps evaluateGate_keeps
  persistGateOutcome_keeps repairIteration_keeps burnSpeculativeWisp_keeps : frame.
#[export] Hint Extern 1 (_ ∈ _) => key_mem : frame.
#[export] Hint Extern 1 (forall k, k ∈ _ -> k ∈ _) => key_mem : frame.
#[export] Hint Extern 2 (keeps _ _ (bind (call _) _)) => solve [specs_tac] : frame.

(** * The recursion bound of deleteBeadSubtree *)

(** Every result of [p] under replies that satisfy [P] satisfies [Q]. *)
Fixpoint under {A} (P : forall R, cmd R -> R -> Prop) (Q : A -> Prop) (p : prog A) : Prop :=
  match p with
  | Ret a => Q a
  | Op c k => forall r, P _ c r -> under P Q (k r)
  end.

Lemma under_bind {A B} P (Q : B -> Prop) (p : prog A) (f : A -> prog B) :
  under P (fun a => under P Q (f a)) p -> under P Q (bind p f).
Proof. induction p as [a|R c k IH]; simpl; [done|]. intros H r Hr. apply IH. by apply H. Qed.

Lemma under_mono {A} P (Q Q' : A -> Prop) (p : prog A) :
  (forall a, Q a -> Q' a) -> under P Q p -> under P Q' p.
Proof. intros HQ. induction p as [a|R c k IH]; simpl; [apply HQ|]. intros H r Hr. by apply IH, H. Qed.

(** Children descend a ranking: the parent links the store reports have no cycle. *)
Definition ranked_reply (rank : string -> nat) R (c : cmd R) : R -> Prop :=
  match c in cmd R return R -> Prop with
  | Children p => fun r => match r with
                           | Ok l => Forall (fun i => (rank (bi_ID i) < rank p)%nat) l
                           | Err _ => True
                           end
  | _ => fun _ => True
  end.
Definition bound_error (r : res unit) : Prop :=
  exists id ws, r = Err (Errorf "deleting bead %q: recursion bound" id ws).

(** A bound above the rank of the bead is never reached. *)
Lemma deleteBeadSubtree_depth rank depth id :
  (rank id < depth)%nat ->
  under (ranked_reply rank) (fun r => ~ bound_error r) (deleteBeadSubtree depth id).
Proof.
  revert id. induction depth as [|depth IH]; intros id Hd; [lia|]. cbn [deleteBeadSubtree].
  apply under_bind. simpl. intros [l|e] Hl; [|simpl; by intros (? & ? & [=])].
  apply under_bind. apply (under_mono _ (fun r => ~ bound_error r)).
  - intros [x|e] Hr; [|exact Hr]. apply under_bind. simpl.
    intros [y|e] _; simpl; by intros (? & ? & [=]).
  - simpl in Hl. induction Hl as [|c l Hc _ IHl]; [simpl; by intros (? & ? & [=])|].
    apply under_bind. apply (under_mono _ (fun r => ~ bound_error r)).
    + intros [x|e] Hr; [exact IHl|exact Hr].
    + apply (IH (bi_ID c)). lia.
Qed.
