(* ===== verification/ConvTransitions.v ===== *)
(** The four transitions of the wisp-closed handler as ordered commits: what each
    writes, in which order, and that a crash leaves a prefix of it behind. *)
From S2P Require Import Prelude GoStd ConvMeta ConvKeys ConvStore ConvFrame ConvGate ConvHandler.
From S2P Require Import ConvHandlerFacts.
#[local] Open Scope prog_scope.

(** * The commits, as in the source *)

Definition processed (wispID : string) : metaWrite :=
  mkMetaWrite FieldLastProcessedWisp wispID "setting last processed wisp".
Definition manualWrites (reason : string) : list metaWrite :=
  [ mkMetaWrite FieldActiveWisp "" "clearing active wisp";
    mkMetaWrite FieldWaitingReason reason "setting waiting reason";
    mkMetaWrite FieldState StateWaitingManual "setting state to waiting_manual" ].
Definition triggerWrites : list metaWrite :=
  [ mkMetaWrite FieldActiveWisp "" "clearing active wisp";
    mkMetaWrite FieldState StateWaitingTrigger "setting state to waiting_trigger" ].
Definition iterateWrites (next : string) : list metaWrite :=
  [ mkMetaWrite FieldActiveWisp next "setting active wisp" ].
Definition terminalWrites (reason actor : string) : list metaWrite :=
  [ mkMetaWrite FieldTerminalReason reason "setting terminal reason";
    mkMetaWrite FieldTerminalActor actor "setting terminal actor";
    mkMetaWrite FieldState StateTerminated "setting state to terminated" ].

Ltac keys_decide :=
  split; [apply (bool_decide_unpack _); vm_compute; exact I|repeat constructor].

Section Transitions.
Context `{UnicodeTables} (h : Handler) (root : string).

Definition root_closed (w : World) : Prop := status w root = "closed".
Definition nothing (w : World) : Prop := True.

Lemma root_closed_stable : stable root root_closed.
Proof. intros K w w' F Hc. by eapply root_frame_closed. Qed.

Lemma nothing_pre : pre_ok root None nothing.
Proof. by split. Qed.

Lemma manual_lw reason wisp : loop_writes (manualWrites reason ++ [processed wisp]).
Proof. keys_decide. Qed.
Lemma trigger_lw wisp : loop_writes (triggerWrites ++ [processed wisp]).
Proof. keys_decide. Qed.
Lemma iterate_lw next wisp : loop_writes (iterateWrites next ++ [processed wisp]).
Proof. keys_decide. Qed.
Lemma terminal_lw reason actor wisp : loop_writes (terminalWrites reason actor ++ [processed wisp]).
Proof. keys_decide. Qed.

(** No transition writes a side key in its commit. *)
Lemma side_disjoint ws :
  forallb (fun k => negb (key_in k sideKeys)) (keys_of ws) = true -> disjoint_keys sideKeys ws.
Proof.
  intros Hf. split; [key_mem|]. intros k Hk. apply key_not_in.
  rewrite forallb_forall in Hf. apply list_elem_of_In in Hk. apply Hf in Hk.
  by apply negb_true_iff.
Qed.

Ltac side := apply side_disjoint; vm_compute; reflexivity.

Section OneWisp.
Context (wisp : string) (Hw : wisp <> "").

Lemma transitionToWaitingManual_transits n cfg gr reason out meta :
  transits root (transitionToWaitingManual h root wisp n cfg gr reason out meta)
    (manualWrites reason) (processed wisp) nothing
    (fun x => x = mkHandlerResult ActionWaitingManual n out "" reason).
Proof.
  unfold transitionToWaitingManual, emitEvent. assert (Hlw := manual_lw reason wisp).
  apply (transits_before root _ _ _ _ Hlw sideKeys _ _ (fun _ => True));
    [side|apply computeDurations_keeps|]. intros [d c] _.
  apply (transits_before root _ _ _ _ Hlw sideKeys _ _ (fun _ => True));
    [side|apply emit_keeps|]. intros _ _.
  apply (transits_commit root _ _ _ _ Hlw (fun _ _ _ _ _ => I) Hw sideKeys);
    [apply nothing_pre|side|].
  eapply specs_bind; [apply emit_keeps|]. specs_tac. congruence.
Qed.

Lemma iterate_adopt_transits n cfg gr meta next :
  transits root (iterate_adopt h root wisp n cfg gr meta next)
    (iterateWrites next) (processed wisp) nothing
    (fun x => x = mkHandlerResult ActionIterate n (gr_Outcome gr) next "").
Proof.
  unfold iterate_adopt, emitEvent. assert (Hlw := iterate_lw next wisp).
  apply (transits_before root _ _ _ _ Hlw sideKeys _ _ (fun _ => True)); [side|specs_tac|].
  intros [[]|e] _; [|by apply transits_err].
  apply (transits_before root _ _ _ _ Hlw sideKeys _ _ (fun _ => True));
    [side|apply computeDurations_keeps|]. intros [d c] _.
  apply (transits_before root _ _ _ _ Hlw sideKeys _ _ (fun _ => True));
    [side|apply emit_keeps|]. intros _ _.
  apply (transits_commit root _ _ _ _ Hlw (fun _ _ _ _ _ => I) Hw sideKeys);
    [apply nothing_pre|side|].
  specs_tac. congruence.
Qed.

Lemma transitionToWaitingTrigger_transits n cfg gr meta :
  transits root (transitionToWaitingTrigger h root wisp n cfg gr meta)
    triggerWrites (processed wisp) nothing
    (fun x => x = mkHandlerResult ActionWaitingTrigger n (gr_Outcome gr) "" "").
Proof.
  unfold transitionToWaitingTrigger, emitEvent. assert (Hlw := trigger_lw wisp).
  apply (transits_before root _ _ _ _ Hlw sideKeys _ _ (fun _ => True));
    [side|apply clearVerdict_keeps; key_mem|].
  intros [[]|e] _; [|by apply transits_err].
  apply (transits_before root _ _ _ _ Hlw sideKeys _ _ (fun _ => True));
    [side|apply computeDurations_keeps|]. intros [d c] _.
  apply (transits_before root _ _ _ _ Hlw sideKeys _ _ (fun _ => True));
    [side|apply emit_keeps|]. intros _ _.
  apply (transits_commit root _ _ _ _ Hlw (fun _ _ _ _ _ => I) Hw sideKeys);
    [apply nothing_pre|side|].
  specs_tac. congruence.
Qed.

(** Closing the root, as the pre-marker step of a terminal transition. *)
Lemma close_pre reason :
  pre_ok root (Some (try! _ := call (CloseBead root reason) or "closing root bead" in Ret (Ok tt)))
    root_closed.
Proof.
  split; [apply root_closed_stable|]. intros w Ht. assert (He := top_level_exists _ _ Ht).
  apply wpc_call; [by apply root_frame_refl|]. intros r w' Hst.
  assert (F := Hst). apply (env_step_frame root w) in F; [|done|done]. simpl in F.
  destruct r as [[]|e]; apply wpc_ret; try done. split; [done|]. intros _.
  by eapply close_bead_ok.
Qed.

Lemma terminate_transits n cfg gr reason actor g meta :
  transits root (terminate h root wisp n cfg gr reason actor g meta)
    (terminalWrites reason actor) (processed wisp) root_closed
    (fun x => x = mkHandlerResult reason n (gr_Outcome gr) "" "").
Proof.
  unfold terminate, emitEvent. assert (Hlw := terminal_lw reason actor wisp).
  apply (transits_before root _ _ _ _ Hlw sideKeys _ _ (fun _ => True));
    [side|apply computeDurations_keeps|]. intros [d c] _.
  do 2 (apply (transits_before root _ _ _ _ Hlw sideKeys _ _ (fun _ => True));
    [side|apply emit_keeps|]; intros _ _).
  apply (transits_commit root _ _ _ _ Hlw root_closed_stable Hw sideKeys);
    [apply close_pre|side|].
  specs_tac. congruence.
Qed.

(** * Any of the four transitions *)

Inductive kind : list metaWrite -> (World -> Prop) -> HandlerResult -> Prop :=
| kind_manual n out reason :
    kind (manualWrites reason) nothing (mkHandlerResult ActionWaitingManual n out "" reason)
| kind_trigger n out :
    kind triggerWrites nothing (mkHandlerResult ActionWaitingTrigger n out "" "")
| kind_iterate n out next :
    kind (iterateWrites next) nothing (mkHandlerResult ActionIterate n out next "")
| kind_terminal n out reason :
    reason ∈ [TerminalApproved; TerminalNoConvergence] ->
    kind (terminalWrites reason "controller") root_closed (mkHandlerResult reason n out "" "").

Lemma kind_lw ws P x : kind ws P x -> loop_writes (ws ++ [processed wisp]).
Proof.
  intros [?|?|?|?]; [apply manual_lw|apply trigger_lw|apply iterate_lw|apply terminal_lw].
Qed.

Lemma kind_side ws P x : kind ws P x -> disjoint_keys sideKeys (ws ++ [processed wisp]).
Proof. intros [?|?|?|?]; side. Qed.

(** A root that became terminated was announced: the log has its terminal event. *)
Definition announced (w w' : World) : Prop :=
  h_HasEmitter h = true -> field w' root FieldState = StateTerminated ->
  field w root FieldState = StateTerminated
  \/ exists rig p,
       mkEvent EventTerminated (EventIDTerminated root) root (with_rig rig (PTerminated p)) false
         ∈ w_events w'
       /\ tp_TerminalReason p = field w' root FieldTerminalReason.

(** The handler is between a state and its successor by one of the transitions. *)
Definition settling (w w' : World) : Prop :=
  exists ws P x, kind ws P x /\ committing root ws (processed wisp) P w w' /\ announced w w'.
Definition settled (w w' : World) (x : HandlerResult) : Prop :=
  exists ws P, kind ws P x /\ committed root ws (processed wisp) P w w'.
Definition settles (p : prog (res HandlerResult)) : Prop :=
  forall w, top_level w root ->
    wpc p (fun r w' => forall x, r = Ok x -> settled w w' x) (settling w) w.

Lemma announced_same w w' :
  field w' root FieldState = field w root FieldState -> announced w w'.
Proof. intros E _ Hs. left. congruence. Qed.

(** Only a commit that writes the terminated state can show it. *)
Definition not_terminal (ws : list metaWrite) : Prop :=
  Forall (fun m => mw_key m = FieldState -> mw_value m <> StateTerminated) (ws ++ [processed wisp]).

Lemma committing_not_terminal ws P w w' :
  not_terminal ws -> committing root ws (processed wisp) P w w' ->
  field w' root FieldState = StateTerminated -> field w root FieldState = StateTerminated.
Proof.
  intros Hnt (F & PW & _) Hst. unfold not_terminal in Hnt. rewrite List.Forall_forall in Hnt.
  destruct (decide (FieldState ∈ keys_of (ws ++ [processed wisp]))) as [Hin|Hn].
  - apply list_elem_of_In, in_map_iff in Hin as (m & Hk & Hin). specialize (Hnt m Hin Hk).
    destruct PW as (ds & rest & E & W & U). rewrite E in Hin.
    rewrite List.Forall_forall in W, U. apply in_app_or in Hin as [Hin|Hin].
    + apply W in Hin. unfold written in Hin. congruence.
    + apply U in Hin. unfold unwritten in Hin. congruence.
  - rewrite <- (root_frame_field _ _ _ _ _ F); [done|done|].
    intros [|Hs]%elem_of_app; [done|]. revert Hs. change (FieldState ∉ sideKeys). key_mem.
Qed.

Lemma settling_start K w w' :
  (forall k, k ∈ K -> k ∈ sideKeys) -> root_frame root K w w' -> settling w w'.
Proof.
  intros HK F. assert (F' : root_frame root sideKeys w w') by (by eapply root_frame_weaken).
  exists triggerWrites, nothing, (mkHandlerResult ActionWaitingTrigger 0 "" "" "").
  split; [constructor|]. split; [by apply (committing_start root sideKeys); [apply trigger_lw|side|]|].
  apply announced_same. apply (root_frame_field _ _ _ _ _ F'); [done|key_mem].
Qed.

Lemma settling_before w w1 w' : root_frame root sideKeys w w1 -> settling w1 w' -> settling w w'.
Proof.
  intros F (ws & P & x & Hk & C & HA). exists ws, P, x. split; [done|]. split.
  - eapply committing_before; eauto using kind_lw, kind_side.
  - intros Hh Hs. rewrite <- (root_frame_field _ _ _ _ FieldState F) by (done || key_mem). auto.
Qed.

Lemma settled_before w w1 w' x : root_frame root sideKeys w w1 -> settled w1 w' x -> settled w w' x.
Proof.
  intros F (ws & P & Hk & C). exists ws, P. split; [done|].
  eapply committed_before; eauto using kind_lw, kind_side.
Qed.

Lemma settles_transits p ws P (R : HandlerResult -> Prop) x0 :
  transits root p ws (processed wisp) P R -> kind ws P x0 -> (forall x, R x -> kind ws P x) ->
  not_terminal ws \/ (forall w, top_level w root -> wpc p (fun _ _ => True) (announced w) w) ->
  settles p.
Proof.
  intros Hp Hk HR Hnt w Ht.
  assert (HA : wpc p (fun _ _ => True)
            (fun w' => committing root ws (processed wisp) P w w' -> announced w w') w).
  { destruct Hnt as [Hnt|Hann].
    - eapply wpc_conseq; [by apply Hp| |done]. intros w' _ C _ Hs. left.
      by eapply committing_not_terminal.
    - eapply wpc_conseq; [by apply Hann| |done]. auto. }
  eapply wpc_conseq; [apply (wpc_and _ _ _ _ _ _ (Hp w Ht) HA)| |]; simpl.
  - intros w' [C HAn]. exists ws, P, x0. auto.
  - intros r w' _ [C _] x ->. destruct (C x eq_refl) as [? C']. exists ws, P. auto.
Qed.

Lemma settles_err e : settles (Ret (Err e)).
Proof.
  intros w Ht. apply wpc_ret; [|by intros ?]. apply (settling_start []); [set_solver|].
  by apply root_frame_refl, top_level_exists.
Qed.

Lemma settles_before {B} (p : prog B) f Q :
  specs root sideKeys p Q -> (forall b, Q b -> settles (f b)) -> settles (bind p f).
Proof.
  intros Hp Hf w Ht. eapply wpc_specs; [exact Hp|done| |].
  - intros w' F. by eapply settling_start.
  - intros b w1 F Ht1 Hb. eapply wpc_conseq; [by apply Hf| |]; simpl.
    + intros w' C. by eapply settling_before.
    + intros r w' _ C x ->. eapply settled_before; eauto.
Qed.

(** terminate emits the terminal event before it writes the state. *)
Lemma terminate_announced n cfg gr reason actor g meta w :
  top_level w root ->
  wpc (terminate h root wisp n cfg gr reason actor g meta) (fun _ _ => True) (announced w) w.
Proof.
  intros Ht. destruct (h_HasEmitter h) eqn:Hh.
  2: { eapply wpc_conseq; [by apply (terminate_transits n cfg gr reason actor g meta)| |done].
       intros w' _ Hh'. congruence. }
  assert (Hsame : forall w', root_frame root [] w w' -> announced w w').
  { intros w' F. apply announced_same, (root_frame_field _ _ _ _ _ F); [done|set_solver]. }
  unfold terminate, emitEvent.
  eapply (wpc_specs root []); [apply computeDurations_keeps|done|done|]. intros [d c] w1 F1 Ht1 _.
  eapply (wpc_specs root []); [apply emit_keeps|done| |].
  { intros w' F. by eapply Hsame, root_frame_trans. }
  intros _ w2 F2 Ht2 _. assert (F12 := root_frame_trans _ _ _ _ _ F1 F2).
  eapply wpc_seq; [apply (emit_logs h root); done| |].
  { intros w' F. by eapply Hsame, root_frame_trans. }
  intros _ w3 F3 [_ [rig Hev]]. assert (F13 := root_frame_trans _ _ _ _ _ F12 F3).
  assert (Hlw := terminal_lw reason actor wisp).
  assert (HT : transits root (try! _ := commit root (terminalWrites reason actor)
     (Some (try! _ := call (CloseBead root CloseReasonHandlerRoot) or "closing root bead" in Ret (Ok tt)))
     (processed wisp) in Ret (Ok (mkHandlerResult reason n (gr_Outcome gr) "" "")))
     (terminalWrites reason actor) (processed wisp) root_closed (fun _ => True)).
  { apply (transits_commit root _ _ _ _ Hlw root_closed_stable Hw sideKeys);
      [apply close_pre|side|specs_tac; by intros]. }
  eapply wpc_conseq; [apply HT; by eapply root_frame_top_level| |done].
  intros w' (F & PW & _) _ Hs. apply (prefix_written_before _ [_; _] _ [_]) in PW as [U|W].
  - left. unfold unwritten in U. simpl in U.
    rewrite <- (root_frame_field _ _ _ _ FieldState F13) by (done || set_solver). congruence.
  - right. exists rig. eexists. split; [by eapply root_frame_events; [exact F|exact Hev]|].
    inversion_clear W as [|? ? H1 _]. by rewrite H1.
Qed.

Ltac nt := left; unfold not_terminal; repeat constructor; simpl; done.

Lemma waitingManual_settles n cfg gr reason out meta :
  settles (transitionToWaitingManual h root wisp n cfg gr reason out meta).
Proof.
  eapply settles_transits; [by apply transitionToWaitingManual_transits| |intros x ->|].
  - apply (kind_manual n out).
  - constructor.
  - nt.
Qed.

Lemma iterate_settles n cfg gr meta spec :
  settles (iterate h root wisp n cfg gr meta spec).
Proof.
  assert (Ha : forall next, settles (iterate_adopt h root wisp n cfg gr meta next)).
  { intros next. eapply settles_transits; [by apply iterate_adopt_transits| |intros x ->|nt].
    - apply (kind_iterate n (gr_Outcome gr)).
    - constructor. }
  unfold iterate. eapply settles_before; [apply clearVerdict_keeps; key_mem|].
  intros [[]|e] _; [|apply settles_err]. destruct (negb _); [done|].
  eapply settles_before; [specs_tac|]. intros [id|e] _; [done|].
  eapply settles_before; [specs_tac|]. unfold handleSlingFailure.
  intros [[id []]|e'] _; auto using waitingManual_settles.
Qed.

Lemma trigger_settles n cfg gr meta :
  settles (transitionToWaitingTrigger h root wisp n cfg gr meta).
Proof.
  eapply settles_transits; [by apply transitionToWaitingTrigger_transits| |intros x ->|nt].
  - apply (kind_trigger n "").
  - constructor.
Qed.

Lemma terminate_settles n cfg gr reason g meta :
  reason ∈ [TerminalApproved; TerminalNoConvergence] ->
  settles (terminate h root wisp n cfg gr reason "controller" g meta).
Proof.
  intros Hr. eapply settles_transits; [by apply terminate_transits| |intros x ->|].
  - by apply (kind_terminal n "").
  - by constructor.
  - right. intros w Ht. by apply terminate_announced.
Qed.

End OneWisp.
End Transitions.
