(* ===== verification/ConvWisp.v ===== *)
(** Properties of HandleWispClosed (internal/convergence/handler.go): what a completed
    transition is, the outcome of every successful run, the order of the terminal writes,
    and what is announced. *)
From S2P Require Import Prelude GoStd ConvMeta ConvKeys ConvStore ConvFrame ConvGate ConvHandler.
From S2P Require Import ConvHandlerFacts ConvTransitions RefStore.
#[local] Open Scope prog_scope.

(** A metadata snapshot read at [w]: it agrees with the world on the protected keys. *)
Definition snapshot (w : World) (root : string) (meta : gmap string string) : Prop :=
  forall k, RequiresToken k = true -> mget meta k = field w root k.
(** The wisp's iteration, read from its key. *)
Definition wisp_iteration (w : World) (wisp : string) (n : Z) : Prop :=
  forall b, w_beads w !! wisp = Some b -> ParseIterationFromKey (b_key b) = (n, true).

(** The abstract contract of the handler: the root bead after each action. *)
Inductive root_after (root : string) (w w' : World) : HandlerResult -> Prop :=
| after_iterate n out next :
    field w' root FieldActiveWisp = next ->
    field w' root FieldState = field w root FieldState ->
    root_after root w w' (mkHandlerResult ActionIterate n out next "")
| after_waiting_manual n out reason :
    field w' root FieldActiveWisp = "" -> field w' root FieldWaitingReason = reason ->
    field w' root FieldState = StateWaitingManual ->
    root_after root w w' (mkHandlerResult ActionWaitingManual n out "" reason)
| after_waiting_trigger n out :
    field w' root FieldActiveWisp = "" -> field w' root FieldState = StateWaitingTrigger ->
    root_after root w w' (mkHandlerResult ActionWaitingTrigger n out "" "")
| after_terminal n out reason :
    reason ∈ [TerminalApproved; TerminalNoConvergence] ->
    field w' root FieldTerminalReason = reason ->
    field w' root FieldTerminalActor = "controller" ->
    field w' root FieldState = StateTerminated -> status w' root = "closed" ->
    root_after root w w' (mkHandlerResult reason n out "" "").

(** The transition for [wisp] is complete, marker included. *)
Definition completed (root wisp : string) (w w' : World) (x : HandlerResult) : Prop :=
  field w' root FieldLastProcessedWisp = wisp /\ root_after root w w' x.

Section Wisp.
Context `{UnicodeTables} (h : Handler) (root wisp : string).

Lemma get_metadata_rely w id r w' : env_step w (GetMetadata id) r w' -> rely w w'.
Proof. intros (w1 & Hr & -> & _). done. Qed.

Lemma get_bead_iteration w w1 i w2 n :
  rely w w1 -> env_step w1 (GetBead wisp) (Ok i) w2 ->
  ParseIterationFromKey (bi_IdempotencyKey i) = (n, true) -> wisp_iteration w wisp n.
Proof.
  intros R1 (w3 & R2 & -> & b' & Hb' & ->) Hn b Hb. simpl in Hn.
  destruct (rely_trans _ _ _ R1 R2) as [_ R]. destruct (R _ _ Hb) as (b2 & Hb2 & _ & Hk & _).
  congruence.
Qed.

(** The steps before processWisp: reading, the two guards, and the repair of the
    iteration counter, which is the only root key they change. *)
Lemma wpc_HandleWispClosed Q (I : World -> Prop) w :
  top_level w root ->
  (forall w', root_frame root [FieldIteration] w w' -> I w') ->
  (forall e w', root_frame root [FieldIteration] w w' -> Q (Err e) w') ->
  (forall w', root_frame root [] w w' -> Q (Ok (action_result ActionSkipped)) w') ->
  (forall meta n g cfg trig w1,
      root_frame root [FieldIteration] w w1 -> top_level w1 root -> snapshot w root meta ->
      mget meta FieldState <> StateTerminated -> wisp_iteration w wisp n ->
      ParseGateConfig meta = Ok cfg -> ParseTriggerConfig meta = Ok trig ->
      wpc (processWisp h root wisp n g cfg trig meta) Q I w1) ->
  wpc (HandleWispClosed h root wisp) Q I w.
Proof.
  intros Ht HI HE HK HP. assert (He := top_level_exists _ _ Ht).
  assert (Hweak : forall w', root_frame root [] w w' -> root_frame root [FieldIteration] w w').
  { intros w'. apply root_frame_weaken. set_solver. }
  assert (Hself := root_frame_refl root [] w He). unfold HandleWispClosed.
  apply wpc_call; [by auto|]. intros [meta|e] w1 Hst.
  2: { apply (env_step_frame root w) in Hst; [|done|done]. apply wpc_ret; auto. }
  assert (R1 := get_metadata_rely _ _ _ _ Hst). apply get_metadata_ok in Hst as [_ Hsnap].
  specialize (Hsnap He). assert (F1 := rely_frame root [] _ _ He R1).
  assert (Ht1 := root_frame_top_level _ _ _ _ F1 Ht).
  destruct (String.eqb_spec (mget meta FieldState) StateTerminated) as [|Hstate].
  { apply wpc_call; [by auto|]. intros r w2 Hst.
    apply (env_step_frame root w1) in Hst; [|by apply top_level_exists|done].
    assert (F := root_frame_trans _ _ _ _ _ F1 Hst). apply wpc_ret; auto. }
  apply wpc_call; [by auto|]. intros r w2 Hst.
  assert (F2 := Hst). apply (env_step_frame root w1) in F2; [|by apply top_level_exists|done].
  assert (F12 := root_frame_trans _ _ _ _ _ F1 F2).
  destruct r as [i|e]; [|apply wpc_ret; auto].
  destruct (ParseIterationFromKey (bi_IdempotencyKey i)) as [n []] eqn:Ekey;
    [|apply wpc_ret; auto].
  assert (Hn := get_bead_iteration _ _ _ _ _ R1 Hst Ekey). simpl negb. cbv iota.
  assert (Hrest : forall (K := [FieldIteration]) w', root_frame root K w2 w' -> root_frame root K w w').
  { intros K w' F'. eapply root_frame_trans; [by apply Hweak|done]. }
  eapply (wpc_specs root [] _ _ (fun _ => True)); [apply lastProcessedIteration_keeps| | |].
  { by eapply root_frame_top_level. }
  { intros w' F'. apply HI, Hweak. by eapply root_frame_trans. }
  intros last w3 F3 Ht3 _. assert (F13 := root_frame_trans _ _ _ _ _ F12 F3).
  destruct (n <=? last); [apply wpc_ret; auto|].
  eapply (wpc_specs root [] _ _ (fun _ => True)); [apply deriveIterationCount_keeps|done| |].
  { intros w' F'. apply HI, Hweak. by eapply root_frame_trans. }
  intros [g|e] w4 F4 Ht4 _; assert (F14 := root_frame_trans _ _ _ _ _ F13 F4);
    [|apply wpc_ret; auto].
  eapply (wpc_specs root [FieldIteration] _ _ (fun _ => True));
    [apply repairIteration_keeps; key_mem|done| |].
  { intros w' F'. apply HI. eapply root_frame_trans; [by apply Hweak|done]. }
  intros r w5 F5 Ht5 _.
  assert (F15 : root_frame root [FieldIteration] w w5)
    by (eapply root_frame_trans; [by apply Hweak|done]).
  destruct r as [_|e]; [|apply wpc_ret; auto].
  destruct (ParseGateConfig meta) as [cfg|e] eqn:Ecfg; [|apply wpc_ret; auto].
  destruct (ParseTriggerConfig meta) as [trig|e] eqn:Etrig; [|apply wpc_ret; auto].
  by eapply HP.
Qed.

(** * Every path of processWisp is one of the transitions *)

Context (Hwisp : wisp <> "").

Lemma outcomeStep_settles n g max cfg trig gr meta spec perr :
  spec <> root -> settles h root wisp (outcomeStep h root wisp n g max cfg trig gr meta spec perr).
Proof.
  intros Hs. unfold outcomeStep, handleSlingFailure.
  assert (Hburn : keeps root sideKeys (burnSpeculativeWisp h root spec))
    by (apply burnSpeculativeWisp_keeps; [done|key_mem]).
  destruct (_ && _).
  - eapply settles_before; [exact Hburn|]. intros [[]|e] _; [|by apply settles_err].
    by apply waitingManual_settles.
  - destruct (terminalDecision _ _ _ _) as [reason|] eqn:E.
    + eapply settles_before; [exact Hburn|]. intros [[]|e] _; [|by apply settles_err].
      apply terminate_settles; [done|]. unfold terminalDecision in E. set_unfold.
      repeat case_match; naive_solver.
    + destruct perr; [by apply waitingManual_settles|].
      destruct (trigger_Enabled trig); [by apply trigger_settles|by apply iterate_settles].
Qed.

Lemma settles_assoc {A B} (p : prog A) (f : A -> prog B) g :
  settles h root wisp (bind p (fun a => bind (f a) g)) -> settles h root wisp (bind (bind p f) g).
Proof. intros Hp w Ht. by apply wpc_assoc, Hp. Qed.

Lemma settles_id p k : (forall r, k r = Ret r) -> settles h root wisp p -> settles h root wisp (bind p k).
Proof. intros Hk Hp w Ht. apply wpc_id; [done|by apply Hp]. Qed.

Lemma gateStep_settles n skip cfg meta spec f :
  spec <> root -> (forall gr, settles h root wisp (f gr)) ->
  settles h root wisp (try! g := gateStep h root wisp n skip cfg meta spec in
                     match g with inl r => Ret (Ok r) | inr gr => f gr end).
Proof.
  intros Hs Hf. unfold gateStep. destruct skip; [apply Hf|].
  assert (Hburn : keeps root sideKeys (burnSpeculativeWisp h root spec))
    by (apply burnSpeculativeWisp_keeps; [done|key_mem]).
  assert (Hwait : forall reason, settles h root wisp (
    try! g := (try! _ := burnSpeculativeWisp h root spec
        or "burning speculative wisp before waiting_manual" in
      try! r := transitionToWaitingManual h root wisp n cfg GateResultZero reason "" meta in
      Ret (Ok (inl r))) in
    match g with inl r => Ret (Ok r) | inr gr => f gr end)).
  { intros reason. apply settles_assoc. eapply settles_before; [exact Hburn|].
    intros [[]|e] _; [|by apply settles_err]. apply settles_assoc, settles_id;
      [by intros []|by apply waitingManual_settles]. }
  destruct (String.eqb _ _); [apply Hwait|]. destruct (_ && _); [apply Hwait|].
  apply settles_assoc. eapply settles_before; [apply evaluateGate_keeps|]. intros gr _.
  apply settles_assoc. eapply settles_before; [apply persistGateOutcome_keeps; key_mem|].
  intros [[]|e] _; [apply Hf|]. apply settles_assoc.
  eapply settles_before; [exact Hburn|]. intros [[]|e'] _; by apply settles_err.
Qed.

Lemma processWisp_settles n g cfg trig meta :
  root <> "" -> settles h root wisp (processWisp h root wisp n g cfg trig meta).
Proof.
  intros Hr. unfold processWisp. destruct (_ && _ && _).
  - eapply settles_before; [apply validPendingNextWisp_keeps; [done|key_mem]|].
    intros p Hp. destruct (negb _); [|by apply settles_err].
    eapply settles_before; [apply burnSpeculativeWisp_keeps; [done|key_mem]|].
    intros [[]|e] _; by apply settles_err.
  - eapply settles_before; [apply speculativePour_keeps; [done|done|key_mem]|].
    intros [[spec perr]|e] Hn; [|by apply settles_err].
    assert (Hs : spec <> root) by (by eapply Hn).
    apply gateStep_settles; [done|]. intros gr. by apply outcomeStep_settles.
Qed.

Lemma HandleWispClosed_settles w :
  top_level w root ->
  wpc (HandleWispClosed h root wisp)
    (fun r w' => forall x, r = Ok x ->
       (x = action_result ActionSkipped /\ root_frame root [] w w') \/ settled root wisp w w' x)
    (settling h root wisp w) w.
Proof.
  intros Ht. apply wpc_HandleWispClosed; try done.
  - intros w' F. eapply settling_start; [|exact F]. key_mem.
  - intros w' F x [= <-]. by left.
  - intros meta n g cfg trig w1 F Ht1 _ _ _ _ _.
    assert (F' : root_frame root sideKeys w w1)
      by (eapply root_frame_weaken; [|exact F]; key_mem).
    eapply wpc_conseq; [apply processWisp_settles; [apply Ht|done]| |]; simpl.
    + intros w' C. by eapply settling_before.
    + intros r w' _ C x ->. right. eapply settled_before; eauto.
Qed.

(** * The contract *)

Lemma committed_completed ws P x w w' :
  kind root ws P x -> committed root ws (processed wisp) P w w' -> completed root wisp w w' x.
Proof.
  intros Hk (F & W & HP). apply Forall_app in W as [W Wm]. inversion_clear Wm as [|? ? Hm _].
  split; [done|]. destruct Hk as [n out reason|n out|n out next|n out reason Hr].
  - inversion_clear W as [|? ? H1 W']. inversion_clear W' as [|? ? H2 W].
    inversion_clear W as [|? ? H3 _]. by constructor.
  - inversion_clear W as [|? ? H1 W']. inversion_clear W' as [|? ? H2 _]. by constructor.
  - inversion_clear W as [|? ? H1 _]. constructor; [done|].
    apply (root_frame_field _ _ _ _ _ F); [done|key_mem].
  - inversion_clear W as [|? ? H1 W']. inversion_clear W' as [|? ? H2 W].
    inversion_clear W as [|? ? H3 _]. by constructor.
Qed.

(** A commit whose marker changed is whole: the marker is its last write. *)
Lemma committing_marker ws m P w w' :
  committing root ws m P w w' -> unwritten root w w' m \/ committed root ws m P w w'.
Proof.
  intros (F & (ds & rest & E & W & U) & [HU|HP]); [by left|].
  destruct rest as [|x rest _] using rev_ind.
  - rewrite app_nil_r in E. subst ds. by right.
  - left. rewrite app_assoc in E. apply app_inj_tail in E as [_ ->].
    apply Forall_app in U as [_ U]. by inversion U.
Qed.

Lemma settling_terminated w w' :
  settling h root wisp w w' -> field w' root FieldState = StateTerminated ->
  field w root FieldState = StateTerminated
  \/ (field w' root FieldTerminalReason ∈ [TerminalApproved; TerminalNoConvergence]
      /\ field w' root FieldTerminalActor = "controller").
Proof.
  intros (ws & P & x & Hk & C & _) Hst. destruct Hk as [| | |n out reason Hr];
    [left; eapply (committing_not_terminal root wisp); [|exact C|done];
     unfold not_terminal; repeat constructor; simpl; done..|].
  destruct C as (_ & PW & _). apply (prefix_written_before _ [_; _] _ [_]) in PW as [U|W].
  - left. unfold unwritten in U. simpl in U. congruence.
  - right. inversion_clear W as [|? ? H1 W']. inversion_clear W' as [|? ? H2 _].
    unfold written in *. simpl in *. by rewrite H1, H2.
Qed.

(** (C8) Every successful run of HandleWispClosed either skipped the event, with no
    protected key of the root changed, or completed the transition its result names. *)
Theorem HandleWispClosed_outcome w x w' :
  top_level w root -> runs (HandleWispClosed h root wisp) w (Ok x) w' ->
  (x = action_result ActionSkipped /\ root_frame root [] w w') \/ completed root wisp w w' x.
Proof.
  intros Ht Hr. assert (HQ := wpc_runs _ _ _ _ _ _ (HandleWispClosed_settles w Ht) Hr).
  destruct (HQ x eq_refl) as [?|(ws & P & Hk & C)]; [by left|right].
  by eapply committed_completed.
Qed.

(** The terminal state is never visible without its explanation: wherever the
    process stops, a root that HandleWispClosed moved to terminated already carries a
    terminal reason, approved or no_convergence, and the controller as actor. *)
Theorem HandleWispClosed_terminal_order w w' :
  top_level w root -> reaches (HandleWispClosed h root wisp) w w' ->
  field w' root FieldState = StateTerminated -> field w root FieldState <> StateTerminated ->
  field w' root FieldTerminalReason ∈ [TerminalApproved; TerminalNoConvergence]
  /\ field w' root FieldTerminalActor = "controller".
Proof.
  intros Ht Hr Hs Hn. apply (wpc_reaches _ _ _ _ _ (HandleWispClosed_settles w Ht)) in Hr.
  by destruct (settling_terminated _ _ Hr Hs).
Qed.

(** The terminal event precedes the terminal state: with an event emitter, a root
    that HandleWispClosed moved to terminated has, wherever the process stops, its
    convergence.terminated event in the log, with the reason the root records. *)
Theorem HandleWispClosed_announced w w' :
  top_level w root -> reaches (HandleWispClosed h root wisp) w w' -> h_HasEmitter h = true ->
  field w' root FieldState = StateTerminated -> field w root FieldState <> StateTerminated ->
  exists rig p,
    mkEvent EventTerminated (EventIDTerminated root) root (with_rig rig (PTerminated p)) false
      ∈ w_events w'
    /\ tp_TerminalReason p = field w' root FieldTerminalReason.
Proof.
  intros Ht Hr Hh Hs Hn. apply (wpc_reaches _ _ _ _ _ (HandleWispClosed_settles w Ht)) in Hr.
  destruct Hr as (ws & P & x & _ & _ & HA). by destruct (HA Hh Hs).
Qed.

End Wisp.

Lemma HandleWispClosed_outcome_witness :
  let x := mkHandlerResult ActionApproved 1 GatePass "" "" in
  let w := rs_world passing in
  (x = action_result ActionSkipped /\ root_frame "gc-1" [] w (rs_world gate_passed))
  \/ completed "gc-1" "gc-2" w (rs_world gate_passed) x.
Proof.
  cbv zeta. apply (HandleWispClosed_outcome handler0 "gc-1" "gc-2");
    [done|apply sample_top_level|apply ref_runs; vm_compute; reflexivity].
Defined.

Lemma HandleWispClosed_terminal_order_witness :
  let w' := rs_world (run_upto 40 closed0 passing) in
  field w' "gc-1" FieldTerminalReason ∈ [TerminalApproved; TerminalNoConvergence]
  /\ field w' "gc-1" FieldTerminalActor = "controller".
Proof.
  cbv zeta. apply (HandleWispClosed_terminal_order handler0 "gc-1" "gc-2" ltac:(done)
    (rs_world passing));
    [apply sample_top_level|apply run_upto_reaches|vm_compute; reflexivity|vm_compute; discriminate].
Defined.

Lemma HandleWispClosed_announced_witness :
  let w' := rs_world (run_upto 40 closed0 passing) in
  exists rig p,
    mkEvent EventTerminated (EventIDTerminated "gc-1") "gc-1" (with_rig rig (PTerminated p)) false
      ∈ w_events w'
    /\ tp_TerminalReason p = field w' "gc-1" FieldTerminalReason.
Proof.
  cbv zeta. apply (HandleWispClosed_announced handler0 "gc-1" "gc-2" ltac:(done)
    (rs_world passing));
    [apply sample_top_level|apply run_upto_reaches|done|vm_compute; reflexivity
    |vm_compute; discriminate].
Defined.
