(* ===== verification/ConvBudget.v ===== *)
(** The calls HandleWispClosed makes (handler.go): it pours at most the next
    iteration, never beyond max_iterations, and it never executes a gate script whose
    outcome is already recorded. *)
From S2P Require Import Prelude GoStd ConvMeta ConvKeys ConvStore ConvFrame ConvGate ConvHandler.
From S2P Require Import ConvHandlerFacts RefStore.
#[local] Open Scope prog_scope.

(** Calls that neither pour a wisp nor execute a script. *)
Definition is_pour {R} (c : cmd R) : bool :=
  match c with PourWisp _ _ _ _ _ | PourSpeculativeWisp _ _ _ _ _ => true | _ => false end.
Definition plain {R} (c : cmd R) : Prop := is_pour c = false /\ is_script c = false.

(** A pour is of an iteration of the root, within the limit. *)
Definition pours_within (root : string) (max : Z) R (c : cmd R) : Prop :=
  match c with
  | PourWisp parent _ key _ _ | PourSpeculativeWisp parent _ key _ _ =>
      parent = root /\ exists m, key = IdempotencyKey root m /\ 1 <= m <= max
  | _ => True
  end.
Definition no_script R (c : cmd R) : Prop := is_script c = false.

Create HintDb calls.

Ltac calls_step :=
  match goal with
  | |- calls _ (Ret _) => exact I
  | |- calls _ (bind (Ret ?a) ?f) => change (bind (Ret a) f) with (f a); cbv beta iota
  | |- calls _ (bind (match ?x with _ => _ end) _) => destruct x eqn:?
  | |- calls _ (match ?x with _ => _ end) => destruct x eqn:?
  | |- calls _ (bind (bind _ _) _) => apply calls_bind
  | |- calls _ (bind (call _) _) => apply calls_bind; [split; [|intros ?; exact I]|]
  | |- calls _ (bind _ _) => apply calls_bind; [solve [eauto with calls]|]
  | |- calls _ (Op _ _) => split
  | |- calls _ (call _) => split; [|intros ?; exact I]
  | |- calls _ _ => solve [eauto with calls]
  | |- forall _, _ => intro
  end.
Ltac calls_tac := repeat calls_step.

Section Calls.
Context `{UnicodeTables} (h : Handler) (root wisp : string).
Context (P : forall R, cmd R -> Prop) (HP : forall R (c : cmd R), plain c -> P R c).

Ltac plain_tac := try (apply HP; split; reflexivity).

Lemma emit_calls b ty id bid p : calls P (emit h b ty id bid p).
Proof. unfold emit, withEventRig, eventRig. calls_tac; plain_tac. Qed.
Lemma computeDurations_calls r w : calls P (computeDurations r w).
Proof. unfold computeDurations. calls_tac; plain_tac. Qed.
Lemma clearVerdict_calls m : calls P (clearVerdict root wisp m).
Proof. unfold clearVerdict. calls_tac; plain_tac. Qed.
Lemma write_all_calls ws : calls P (write_all root ws).
Proof. induction ws; cbn [write_all]; calls_tac; plain_tac. Qed.
Lemma commit_calls ws pre m :
  match pre with None => True | Some p => calls P p end -> calls P (commit root ws pre m).
Proof.
  intros Hp. unfold commit. apply calls_bind; [apply write_all_calls|]. calls_tac; plain_tac.
Qed.
Lemma deleteBeadSubtree_calls d id : calls P (deleteBeadSubtree d id).
Proof.
  revert id. induction d as [|d IH]; intros id; cbn [deleteBeadSubtree]; [exact I|].
  calls_tac; plain_tac. apply calls_bind; [|calls_tac; plain_tac].
  match goal with E : _ = Ok ?l |- _ => clear E; induction l as [|c l IHl] end; [exact I|].
  apply calls_bind; [apply IH|]. calls_tac.
Qed.
Lemma burnSpeculativeWisp_calls id : calls P (burnSpeculativeWisp h root id).
Proof.
  unfold burnSpeculativeWisp. calls_tac. apply calls_bind; [apply deleteBeadSubtree_calls|].
  calls_tac; plain_tac.
Qed.
Lemma validPendingNextWisp_calls k p : calls P (validPendingNextWisp root k p).
Proof. unfold validPendingNextWisp. calls_tac; plain_tac. Qed.

#[local] Hint Resolve emit_calls computeDurations_calls clearVerdict_calls commit_calls
  burnSpeculativeWisp_calls validPendingNextWisp_calls : calls.
#[local] Hint Extern 2 (calls _ (bind (call _) _)) => calls_tac; plain_tac : calls.

Lemma transitionToWaitingManual_calls n cfg gr reason out meta :
  calls P (transitionToWaitingManual h root wisp n cfg gr reason out meta).
Proof. unfold transitionToWaitingManual, emitEvent. calls_tac. Qed.
Lemma iterate_adopt_calls n cfg gr meta next :
  calls P (iterate_adopt h root wisp n cfg gr meta next).
Proof. unfold iterate_adopt, emitEvent. calls_tac; plain_tac. Qed.
Lemma transitionToWaitingTrigger_calls n cfg gr meta :
  calls P (transitionToWaitingTrigger h root wisp n cfg gr meta).
Proof. unfold transitionToWaitingTrigger, emitEvent. calls_tac. Qed.
Lemma terminate_calls n cfg gr reason actor g meta :
  calls P (terminate h root wisp n cfg gr reason actor g meta).
Proof. unfold terminate, emitEvent. calls_tac. Qed.

#[local] Hint Resolve transitionToWaitingManual_calls iterate_adopt_calls
  transitionToWaitingTrigger_calls terminate_calls : calls.

(** With a property of the pours of the next iteration below the limit. *)
Context (meta : gmap string string) (n : Z).
Let max := (DecodeInt (mget meta FieldMaxIterations)).1.
Let nextKey := IdempotencyKey root (wrap64 (n + 1)).
Context (Hpour : n < max -> forall f v q, P _ (PourWisp root f nextKey v q)
                                        /\ P _ (PourSpeculativeWisp root f nextKey v q)).

Lemma outcomeStep_calls g cfg trig gr spec perr :
  calls P (outcomeStep h root wisp n g max cfg trig gr meta spec perr).
Proof.
  unfold outcomeStep, iterate, handleSlingFailure. calls_tac; plain_tac.
  apply Hpour. unfold terminalDecision in *. repeat case_match; try done. lia.
Qed.

Lemma speculativePour_calls cfg trig :
  calls P (speculativePour h root nextKey n max cfg trig meta).
Proof.
  unfold speculativePour. calls_tac; plain_tac. apply Hpour. lia.
Qed.

Let skip := String.eqb (mget meta FieldGateOutcomeWisp) wisp.
Context (Hscript : skip = false -> forall p d e t, P _ (RunScript p d e t)).

Lemma runOnce_loop_calls l p e t : skip = false -> calls P (runOnce_loop l p e t).
Proof.
  intros Hs. specialize (Hscript Hs).
  induction l as [|l IH]; cbn [runOnce_loop]; unfold runOnceNoPreExecRetry; calls_tac; plain_tac;
    apply Hscript.
Qed.
Lemma RunCondition_loop_calls l p e t a b r x :
  skip = false -> calls P (RunCondition_loop l p e t a b r x).
Proof.
  intros Hs. revert a r x. induction l as [|l IH]; intros a r x; cbn [RunCondition_loop]; [exact I|].
  apply calls_bind; [by apply runOnce_loop_calls|]. calls_tac.
Qed.

Lemma gateStep_calls cfg spec : calls P (gateStep h root wisp n skip cfg meta spec).
Proof.
  unfold gateStep.
  assert (He : skip = false -> forall k v, calls P (evaluateGate h cfg meta wisp k v root)).
  { intros Hs k v. unfold evaluateGate, EvaluateHybrid, RunCondition.
    calls_tac; by apply RunCondition_loop_calls. }
  destruct skip; [exact I|]. specialize (He eq_refl).
  assert (Hg : forall gr, calls P (persistGateOutcome root wisp gr))
    by (intros gr; unfold persistGateOutcome; calls_tac).
  calls_tac.
Qed.

Lemma processWisp_calls g cfg trig : calls P (processWisp h root wisp n g cfg trig meta).
Proof.
  assert (H1 := speculativePour_calls). assert (H2 := gateStep_calls).
  assert (H3 := outcomeStep_calls). subst max nextKey skip. unfold processWisp. calls_tac.
Qed.

End Calls.

Section Budget.
Context `{UnicodeTables} (h : Handler) (root wisp : string).

(** A property of calls holds along a run when it holds of plain calls and of
    processWisp, for the metadata read at the start. *)
Lemma HandleWispClosed_along (P : forall R, cmd R -> Prop) w :
  top_level w root -> (forall R (c : cmd R), plain c -> P R c) ->
  (forall meta n g cfg trig,
     (forall k, RequiresToken k = true -> mget meta k = field w root k) -> 0 <= n <= max_int64 ->
     calls P (processWisp h root wisp n g cfg trig meta)) ->
  along P (HandleWispClosed h root wisp) w.
Proof.
  intros Ht HP Hproc. split; [apply HP; by split|]. intros r w' Hst.
  assert (Hsnap : forall meta, r = Ok meta -> forall k, RequiresToken k = true ->
            mget meta k = field w root k).
  { intros meta ->. apply get_metadata_ok in Hst as [_ Hs]. by apply Hs, top_level_exists. }
  apply calls_along. cbv beta. destruct r as [meta|e]; [|exact I].
  specialize (Hsnap meta eq_refl). cbv beta iota. calls_tac; try (apply HP; by split).
  apply ParseIteration_range in Heqp. unfold lastProcessedIteration, deriveIterationCount,
    repairIteration. calls_tac; try (apply HP; by split).
Qed.

(** (C37) The iteration budget: along any run of HandleWispClosed, whatever fails, every
    wisp poured is one of this root's iterations and its number is at most the
    max_iterations of the root when the event arrived; the int arithmetic that computes
    it does not wrap. *)
Theorem HandleWispClosed_budget w :
  top_level w root ->
  along (pours_within root (DecodeInt (field w root FieldMaxIterations)).1)
    (HandleWispClosed h root wisp) w.
Proof.
  intros Ht. apply HandleWispClosed_along; [done| |].
  { intros R c [Hp _]. by destruct c. }
  intros meta n g cfg trig Hsnap Hn. rewrite <- Hsnap by done.
  apply processWisp_calls; [by intros R c [Hp _]; destruct c| |done].
  intros Hlt. destruct (DecodeInt (mget meta FieldMaxIterations)) as [mx ok] eqn:E.
  apply DecodeInt_range in E. simpl in *. rewrite wrap64_small by (unfold min_int64, max_int64 in *; lia).
  intros f v q. split; (split; [done|]); exists (n + 1); split; (done || lia).
Qed.

(** Gate replay: when the root already records a gate outcome for this wisp, no
    script is executed again, on any path. *)
Theorem HandleWispClosed_replay w :
  top_level w root -> field w root FieldGateOutcomeWisp = wisp ->
  along no_script (HandleWispClosed h root wisp) w.
Proof.
  intros Ht Hw. apply HandleWispClosed_along; [done|by intros R c [_ Hp]|].
  intros meta n g cfg trig Hsnap Hn. apply processWisp_calls; [by intros R c [_ Hp]|done|].
  rewrite Hsnap, Hw, String.eqb_refl; done.
Qed.

End Budget.

Lemma HandleWispClosed_budget_witness :
  along (pours_within "gc-1" 3) closed0 (rs_world (sample GateModeCondition [] [])).
Proof.
  apply (HandleWispClosed_budget handler0 "gc-1" "gc-2" (rs_world (sample GateModeCondition [] []))).
  apply sample_top_level.
Defined.

Lemma HandleWispClosed_replay_witness :
  let r := run (persistGateOutcome "gc-1" "gc-2" GateManualResult) (sample GateModeCondition [] []) in
  along no_script closed0 (rs_world (snd r)).
Proof.
  cbv zeta. apply (HandleWispClosed_replay handler0 "gc-1" "gc-2");
    [top_level_tac|vm_compute; reflexivity].
Defined.
