(* ===== verification/ConvDecision.v ===== *)
(** The decision table of HandleWispClosed (steps 4 to 7 of handler.go): which
    transition a gate outcome leads to, that the outcome it was based on is the one
    persisted on the root bead, and that wherever the handler stops the dedup marker
    moved only once that very transition was written. *)
From S2P Require Import Prelude GoStd ConvMeta ConvKeys ConvStore ConvFrame ConvGate ConvHandler.
From S2P Require Import ConvHandlerFacts ConvTransitions ConvWisp ConvBudget RefStore.
#[local] Open Scope prog_scope.

(** Nothing stops the loop: no pass, no timeout with an action that ends or holds it,
    and iterations left. *)
Definition goes_on (cfg : GateConfig) (gr : GateResult) (n max : Z) : Prop :=
  gr_Outcome gr <> GatePass /\ n < max
  /\ (gr_Outcome gr = GateTimeout ->
       gc_TimeoutAction cfg <> TimeoutActionManual /\ gc_TimeoutAction cfg <> TimeoutActionTerminate).

(** No script decides: the manual mode, or the hybrid mode without a condition. *)
Definition no_gate (cfg : GateConfig) : Prop :=
  gc_Mode cfg = GateModeManual \/ gc_Mode cfg = GateModeHybrid /\ gc_Condition cfg = "".
Lemma no_gate_spec cfg : needsManualWithoutGate cfg = true <-> no_gate cfg.
Proof.
  unfold needsManualWithoutGate, no_gate, HybridNeedsManual.
  by rewrite orb_true_iff, andb_true_iff, !String.eqb_eq.
Qed.

(** The decision table: the action a gate outcome calls for. *)
Inductive decision (cfg : GateConfig) (trig : TriggerConfig) (gr : GateResult) (n max : Z)
  : string -> Prop :=
| row_pass :
    gr_Outcome gr = GatePass -> decision cfg trig gr n max ActionApproved
| row_timeout_manual :
    gr_Outcome gr = GateTimeout -> gc_TimeoutAction cfg = TimeoutActionManual ->
    decision cfg trig gr n max ActionWaitingManual
| row_timeout_terminate :
    gr_Outcome gr = GateTimeout -> gc_TimeoutAction cfg = TimeoutActionTerminate ->
    decision cfg trig gr n max ActionNoConvergence
| row_limit :
    gr_Outcome gr <> GatePass -> max <= n ->
    (gr_Outcome gr = GateTimeout -> gc_TimeoutAction cfg <> TimeoutActionManual) ->
    decision cfg trig gr n max ActionNoConvergence
| row_trigger :
    goes_on cfg gr n max -> trigger_Enabled trig = true ->
    decision cfg trig gr n max ActionWaitingTrigger
| row_next :
    goes_on cfg gr n max -> trigger_Enabled trig = false ->
    decision cfg trig gr n max ActionIterate.

(** The result carries the row's action, or the loop should go on but no next wisp
    could be poured. *)
Definition decides (cfg : GateConfig) (trig : TriggerConfig) (gr : GateResult) (n max : Z)
    (x : HandlerResult) : Prop :=
  hr_Iteration x = n /\ hr_GateOutcome x = gr_Outcome gr
  /\ (decision cfg trig gr n max (hr_Action x)
      \/ (hr_Action x = ActionWaitingManual /\ hr_WaitingReason x = WaitSlingFailure
          /\ goes_on cfg gr n max)).

(** terminalDecision reads the table's terminal rows. *)
Lemma terminalDecision_rows cfg trig gr n max :
  String.eqb (gr_Outcome gr) GateTimeout && String.eqb (gc_TimeoutAction cfg) TimeoutActionManual
  = false ->
  match terminalDecision cfg gr n max with
  | Some reason => decision cfg trig gr n max reason
  | None => goes_on cfg gr n max
  end.
Proof.
  unfold terminalDecision. intros Hm.
  destruct (String.eqb_spec (gr_Outcome gr) GatePass) as [E|Hp]; [by apply row_pass|].
  destruct (String.eqb_spec (gr_Outcome gr) GateTimeout) as [Et|Et]; simpl in *.
  - destruct (String.eqb_spec (gc_TimeoutAction cfg) TimeoutActionManual); [done|].
    destruct (String.eqb_spec (gc_TimeoutAction cfg) TimeoutActionTerminate);
      [by apply row_timeout_terminate|].
    destruct (Z.leb_spec max n); [by apply row_limit|done].
  - destruct (Z.leb_spec max n); [by apply row_limit|done].
Qed.

(** Keys the transitions write; the gate keys are not among them. *)
Definition transitionKeys : list string :=
  FieldState :: FieldActiveWisp :: FieldWaitingReason :: FieldTerminalReason
  :: FieldTerminalActor :: FieldLastProcessedWisp :: FieldPendingNextWisp :: verdictKeys.

(** Walks a [returns] goal, forgetting the results of the calls on the way. *)
Ltac returns_tac :=
  repeat match goal with
  | |- returns _ (Ret _) => simpl
  | |- returns _ (bind _ _) => eapply returns_seq; [apply returns_True|]; intros ? _
  | |- returns _ (match ?x with _ => _ end) => destruct x eqn:?
  end.

(** * Crash safety *)

(** A bead with a given idempotency key: agents keep it, and so does every call but a
    deletion. *)
Definition keyed (w : World) (id key : string) : Prop :=
  exists b, w_beads w !! id = Some b /\ b_key b = key.
Definition no_delete R (c : cmd R) : Prop := match c with DeleteBead _ => False | _ => True end.

Lemma rely_keyed w w' id key : rely w w' -> keyed w id key -> keyed w' id key.
Proof. intros [_ R] (b & Hb & Hk). destruct (R _ _ Hb) as (b' & Hb' & _ & Hk' & _). exists b'. by rewrite Hk'. Qed.

Lemma alter_keyed w f i id key :
  (forall b, b_key (f b) = b_key b) -> keyed w id key -> keyed (set_beads w (alter f i (w_beads w))) id key.
Proof.
  intros Hf (b & Hb & Hk). unfold keyed. simpl. rewrite lookup_alter. case_decide as E; [subst i|]; rewrite Hb; simpl; eauto.
  exists (f b). by rewrite Hf.
Qed.

Lemma stamp_keyed w i reason id key : keyed w id key -> keyed (stamp_reason w i reason) id key.
Proof. unfold stamp_reason. destruct (String.eqb _ _); [done|]. by apply alter_keyed. Qed.

Lemma insert_keyed w m i b id key :
  w_beads w !! i = None -> keyed w id key -> keyed (set_beads w (<[i := b]> (w_beads w ∪ m))) id key.
Proof.
  intros Hi (b' & Hb & Hk). exists b'. simpl. rewrite lookup_insert_ne by congruence.
  by rewrite (lookup_union_Some_l _ _ _ _ Hb).
Qed.

Lemma pour_keyed w parent k r w' id key : pour_step w parent k r w' -> keyed w id key -> keyed w' id key.
Proof.
  intros Hst Hk. assert (Hp : forall i, poured w parent k i w' -> keyed w' id key).
  { intros i (b & m & Hn & _ & _ & _ & _ & ->). by apply insert_keyed. }
  destruct r; simpl in Hst; naive_solver.
Qed.

Lemma store_step_keyed w {R} (c : cmd R) r w' id key :
  no_delete R c -> store_step w c r w' -> keyed w id key -> keyed w' id key.
Proof.
  intros Hd Hst Hk.
  destruct c as [i|i|i k v|i reason|i|p|p f ky vars pr|p f ky vars pr|i|ky|a|t|ev|pa d en t|d]; simpl in *;
    try (lazymatch type of Hst with _ = _ /\ _ => destruct Hst as [-> _] | w' = _ => subst w' end; done);
    try exact (pour_keyed w p ky r w' id key Hst Hk).
  - destruct r; [destruct Hst as [_ ->]|destruct Hst as [->| ->]]; try apply alter_keyed; done.
  - assert (forall t, keyed (set_closed (stamp_reason w i reason) i t) id key)
      by (intros t; by apply alter_keyed, stamp_keyed).
    destruct r; [destruct Hst as (_ & t & ->)|destruct Hst as [->|[->|[t ->]]]]; auto using stamp_keyed.
  - destruct Hd.
  - destruct Hst as [Hst _]. by eapply rely_keyed.
  - assert (Hi : forall i, w_beads w !! i = None -> forall b, keyed (set_beads w (<[i := b]> (w_beads w))) id key).
    { intros i Hi b. rewrite <- (right_id_L ∅ (∪) (w_beads w)). by apply insert_keyed. }
    destruct r as [i|e]; [destruct Hst as (b & Hn & _ & _ & _ & _ & _ & ->)|
      destruct Hst as [->|(i & b & Hn & _ & _ & _ & _ & _ & ->)]]; auto.
Qed.

Lemma wpc_keyed {A} (p : prog A) w id key :
  calls no_delete p -> keyed w id key ->
  wpc p (fun _ w' => keyed w' id key) (fun w' => keyed w' id key) w.
Proof.
  revert w. induction p as [a|R c k IH]; intros w Hc Hk; [by apply wpc_ret|]. destruct Hc as [Hd Hc].
  apply wpc_op; [done|]. intros r w' (w1 & Hr & Hst). apply IH; [apply Hc|].
  eapply store_step_keyed; [done|exact Hst|]. by eapply rely_keyed.
Qed.

Section Decision.
Context `{UnicodeTables} (h : Handler) (root wisp : string).

Lemma transitionToWaitingManual_returns n cfg gr reason out meta :
  returns (fun r => forall x, r = Ok x -> x = mkHandlerResult ActionWaitingManual n out "" reason)
    (transitionToWaitingManual h root wisp n cfg gr reason out meta).
Proof. unfold transitionToWaitingManual. returns_tac; naive_solver. Qed.

Lemma iterate_adopt_returns n cfg gr meta next :
  returns (fun r => forall x, r = Ok x -> x = mkHandlerResult ActionIterate n (gr_Outcome gr) next "")
    (iterate_adopt h root wisp n cfg gr meta next).
Proof. unfold iterate_adopt. returns_tac; naive_solver. Qed.

Lemma transitionToWaitingTrigger_returns n cfg gr meta :
  returns (fun r => forall x, r = Ok x ->
             x = mkHandlerResult ActionWaitingTrigger n (gr_Outcome gr) "" "")
    (transitionToWaitingTrigger h root wisp n cfg gr meta).
Proof. unfold transitionToWaitingTrigger. returns_tac; naive_solver. Qed.

Lemma terminate_returns n cfg gr reason actor g meta :
  returns (fun r => forall x, r = Ok x -> x = mkHandlerResult reason n (gr_Outcome gr) "" "")
    (terminate h root wisp n cfg gr reason actor g meta).
Proof. unfold terminate. returns_tac; naive_solver. Qed.

Lemma outcomeStep_returns n g max cfg trig gr meta spec perr :
  returns (fun r => forall x, r = Ok x -> decides cfg trig gr n max x)
    (outcomeStep h root wisp n g max cfg trig gr meta spec perr).
Proof.
  unfold outcomeStep, iterate, handleSlingFailure, decides.
  destruct (String.eqb_spec (gr_Outcome gr) GateTimeout) as [Et|Et];
    destruct (String.eqb_spec (gc_TimeoutAction cfg) TimeoutActionManual) as [Em|Em]; simpl andb;
    cbv iota.
  1: { returns_tac; try naive_solver. all: eapply returns_mono; [|apply transitionToWaitingManual_returns].
       all: intros r Hr x ->; rewrite (Hr x eq_refl); split; [done|]; split; [done|].
       all: left; by apply row_timeout_manual. }
  all: pose proof (terminalDecision_rows cfg trig gr n max) as Hrow.
  all: rewrite (proj2 (andb_false_iff _ _)) in Hrow by (rewrite !String.eqb_neq; tauto).
  all: returns_tac; try naive_solver.
  all: eapply returns_mono;
    [|first [apply transitionToWaitingManual_returns|apply terminate_returns
            |apply transitionToWaitingTrigger_returns|apply iterate_adopt_returns]].
  all: intros r Hr x ->; rewrite (Hr x eq_refl); split; [done|]; split; [done|].
  all: first [left; exact (Hrow eq_refl)
             |left; apply row_trigger; [exact (Hrow eq_refl)|done]
             |left; apply row_next; [exact (Hrow eq_refl)|done]
             |right; split; [done|]; split; [done|]; exact (Hrow eq_refl)].
Qed.

Lemma transitionToWaitingManual_keeps n cfg gr reason out meta :
  keeps root transitionKeys (transitionToWaitingManual h root wisp n cfg gr reason out meta).
Proof. unfold transitionToWaitingManual, emitEvent. specs_tac. Qed.

Lemma iterate_adopt_keeps n cfg gr meta next :
  keeps root transitionKeys (iterate_adopt h root wisp n cfg gr meta next).
Proof. unfold iterate_adopt, emitEvent. specs_tac. Qed.

Lemma transitionToWaitingTrigger_keeps n cfg gr meta :
  keeps root transitionKeys (transitionToWaitingTrigger h root wisp n cfg gr meta).
Proof. unfold transitionToWaitingTrigger, emitEvent. specs_tac. Qed.

Lemma terminate_keeps n cfg gr reason actor g meta :
  keeps root transitionKeys (terminate h root wisp n cfg gr reason actor g meta).
Proof. unfold terminate, emitEvent. specs_tac. Qed.

#[local] Hint Resolve transitionToWaitingManual_keeps iterate_adopt_keeps
  transitionToWaitingTrigger_keeps terminate_keeps : frame.

Lemma outcomeStep_keeps n g max cfg trig gr meta spec perr :
  spec <> root ->
  keeps root transitionKeys (outcomeStep h root wisp n g max cfg trig gr meta spec perr).
Proof. intros Hs. unfold outcomeStep, iterate, handleSlingFailure. specs_tac. Qed.

(** The gate outcome recorded on the root for this wisp. *)
Definition recorded (w : World) (gr : GateResult) : Prop :=
  field w root FieldGateOutcome = gr_Outcome gr /\ field w root FieldGateOutcomeWisp = wisp.

Definition gate_answer (n : Z) (cfg : GateConfig) (r : res (HandlerResult + GateResult))
    (w' : World) : Prop :=
  match r with
  | Ok (inl x) => needsManualWithoutGate cfg = true /\ hr_Action x = ActionWaitingManual
                  /\ hr_Iteration x = n /\ hr_GateOutcome x = ""
  | Ok (inr gr) => recorded w' gr
  | Err _ => True
  end.

Context (Hwisp : wisp <> "").

(** What persistGateOutcome writes, as fields of the root. *)
Definition gate_fields (gr : GateResult) (w' : World) : Prop :=
  field w' root FieldGateOutcome = gr_Outcome gr
  /\ field w' root FieldGateExitCode
     = match gr_ExitCode gr with Some c => EncodeInt c | None => "" end
  /\ field w' root FieldGateRetryCount = EncodeInt (gr_RetryCount gr)
  /\ field w' root FieldGateStdout = gr_Stdout gr /\ field w' root FieldGateStderr = gr_Stderr gr
  /\ field w' root FieldGateDurationMs = EncodeInt (Milliseconds (gr_Duration gr))
  /\ field w' root FieldGateTruncated = (if gr_Truncated gr then "true" else "")
  /\ field w' root FieldGateOutcomeWisp = wisp.

Lemma persistGateOutcome_fields gr w :
  top_level w root ->
  wpc (persistGateOutcome root wisp gr)
    (fun r w' => top_level w' root /\ (r = Ok tt -> gate_fields gr w')) (fun _ => True) w.
Proof.
  intros Ht. unfold persistGateOutcome.
  eapply wpc_conseq; [apply (wpc_commit root _ _ _ (fun _ => True)); [done| |done|by split]| |].
  - split; [apply (bool_decide_unpack _); vm_compute; exact I|repeat constructor].
  - done.
  - simpl. intros r w' (F & _) HC. split; [by eapply root_frame_top_level|].
    intros Hr. destruct (HC Hr) as (_ & W & _). rewrite List.Forall_forall in W.
    unfold gate_fields. split_and!; refine (W (mkMetaWrite _ _ _) _); simpl; naive_solver.
Qed.

Lemma persistGateOutcome_recorded gr w :
  top_level w root ->
  wpc (persistGateOutcome root wisp gr) (fun r w' => top_level w' root /\ (r = Ok tt -> recorded w' gr))
    (fun _ => True) w.
Proof.
  intros Ht. eapply wpc_conseq; [by apply persistGateOutcome_fields|done|].
  intros r w' _ [T HF]. split; [done|]. intros Hr. destruct (HF Hr) as (? & _ & _ & _ & _ & _ & _ & ?).
  done.
Qed.

Lemma wpc_keeps_then {A B} K (p : prog A) (f : A -> prog B) Q w :
  keeps root K p -> top_level w root ->
  (forall a w', root_frame root K w w' -> top_level w' root -> wpc (f a) Q (fun _ => True) w') ->
  wpc (bind p f) Q (fun _ => True) w.
Proof. intros Hp Ht Hf. eapply wpc_specs; [exact Hp|done|done|]. eauto. Qed.

Lemma gateStep_answer n cfg meta spec w :
  top_level w root -> spec <> root ->
  (forall k, k ∈ gateKeys -> mget meta k = field w root k) ->
  wpc (gateStep h root wisp n (String.eqb (mget meta FieldGateOutcomeWisp) wisp) cfg meta spec)
    (fun r w' => top_level w' root /\ gate_answer n cfg r w') (fun _ => True) w.
Proof.
  intros Ht Hs Hsnap. unfold gateStep.
  assert (Hburn : keeps root sideKeys (burnSpeculativeWisp h root spec)) by eauto with frame.
  destruct (String.eqb_spec (mget meta FieldGateOutcomeWisp) wisp) as [Hw|_].
  { apply wpc_ret; [done|]. split; [done|]. by split; simpl; rewrite <- Hsnap by key_mem. }
  assert (Hwait : forall reason, needsManualWithoutGate cfg = true ->
    wpc (try! _ := burnSpeculativeWisp h root spec
           or "burning speculative wisp before waiting_manual" in
         try! r := transitionToWaitingManual h root wisp n cfg GateResultZero reason "" meta in
         Ret (Ok (inl r)))
      (fun r w' => top_level w' root /\ gate_answer n cfg r w') (fun _ => True) w).
  { intros reason Hn. eapply wpc_keeps_then; [exact Hburn|done|].
    intros [[]|e] w1 _ Ht1; [|by apply wpc_ret].
    eapply wpc_seq; [eapply wpc_returns; [apply transitionToWaitingManual_returns
                                         |by apply transitionToWaitingManual_keeps]|done|].
    intros r w2 F2 [Hr _]. assert (Ht2 := root_frame_top_level _ _ _ _ F2 Ht1).
    destruct r as [x|e]; apply wpc_ret; try done. by rewrite (Hr x eq_refl). }
  unfold needsManualWithoutGate in Hwait.
  destruct (String.eqb (gc_Mode cfg) GateModeManual) eqn:E1; [by apply Hwait|].
  destruct (_ && _) eqn:E2; [by apply Hwait|].
  eapply wpc_keeps_then; [apply (evaluateGate_keeps h root [])|done|]. intros gr w1 _ Ht1.
  eapply wpc_seq; [by apply persistGateOutcome_recorded|done|].
  intros [[]|e] w2 _ [Ht2 Hrec]; [apply wpc_ret; [done|]; split; [done|]; by apply Hrec|].
  eapply wpc_keeps_then; [exact Hburn|done|]. intros [[]|e'] w3 _ Ht3; by apply wpc_ret.
Qed.

(** The metadata of the root, and the values of a result that fit Go's integers. *)
Definition root_meta (w : World) : gmap string string :=
  match w_beads w !! root with Some b => b_meta b | None => ∅ end.
Definition fits (gr : GateResult) : Prop :=
  (forall c, gr_ExitCode gr = Some c -> min_int64 <= c <= max_int64)
  /\ min_int64 <= gr_RetryCount gr <= max_int64
  /\ min_int64 <= gr_Duration gr <= max_int64.

Lemma root_meta_field w k : mget (root_meta w) k = field w root k.
Proof. unfold root_meta, field. by destruct (w_beads w !! root). Qed.

Lemma Milliseconds_mul d :
  min_int64 <= d <= max_int64 -> wrap64 (Milliseconds d * Millisecond) = Milliseconds d * Millisecond.
Proof.
  intros Hd. apply wrap64_small. unfold Milliseconds, Millisecond.
  assert (Hq := Z.quot_rem' d 1000000). assert (Hr := Z.rem_bound_abs d 1000000).
  assert (Hs := Z.rem_sign_nz d 1000000). unfold min_int64, max_int64 in *.
  destruct (Z.eq_dec (Z.rem d 1000000) 0) as [E|E]; [lia|].
  specialize (Hs ltac:(lia) E). destruct (Z.lt_total d 0) as [|[|]]; lia.
Qed.

(** Persisted gate results replay faithfully: after persistGateOutcome succeeds,
    reading the root back gives the same result, with its duration cut to whole
    milliseconds, marked as belonging to this wisp. *)
Theorem gate_outcome_roundtrip gr w w' :
  top_level w root -> fits gr -> runs (persistGateOutcome root wisp gr) w (Ok tt) w' ->
  replayGateResult (root_meta w')
  = mkGateResult (gr_Outcome gr) (gr_ExitCode gr) (gr_RetryCount gr) (gr_Stdout gr) (gr_Stderr gr)
      (Milliseconds (gr_Duration gr) * Millisecond) (gr_Truncated gr)
  /\ field w' root FieldGateOutcomeWisp = wisp.
Proof.
  intros Ht (Hec & Hrc & Hd) Hr.
  destruct (wpc_runs _ _ _ _ _ _ (persistGateOutcome_fields gr w Ht) Hr) as [_ HF].
  destruct (HF eq_refl) as (H1 & H2 & H3 & H4 & H5 & H6 & H7 & H8). split; [|done].
  unfold replayGateResult. rewrite !root_meta_field, H1, H2, H3, H4, H5, H6, H7.
  rewrite !DecodeInt_Encode by (done || by apply Milliseconds_range).
  destruct (String.eqb_spec (EncodeInt (Milliseconds (gr_Duration gr))) "") as [E|_];
    [by apply Itoa_nonempty in E|]. rewrite Milliseconds_mul by done.
  f_equal; [|by destruct (gr_Truncated gr)].
  destruct (gr_ExitCode gr) as [c|]; [|done].
  destruct (String.eqb_spec (EncodeInt c) "") as [E|_]; [by apply Itoa_nonempty in E|].
  by rewrite DecodeInt_Encode by auto.
Qed.

(** The decision of a successful run, in terms of what the root bead recorded. *)
Definition decision_ok (w w' : World) (x : HandlerResult) : Prop :=
  exists meta n cfg trig,
    snapshot w root meta /\ wisp_iteration w wisp n
    /\ ParseGateConfig meta = Ok cfg /\ ParseTriggerConfig meta = Ok trig
    /\ ((no_gate cfg /\ hr_Action x = ActionWaitingManual
          /\ hr_Iteration x = n /\ hr_GateOutcome x = "")
        \/ exists gr, recorded w' gr
            /\ decides cfg trig gr n (DecodeInt (mget meta FieldMaxIterations)).1 x).

(** * Crash safety *)

Definition next_key (n : Z) : string := IdempotencyKey root (wrap64 (n + 1)).
(** A result that goes on names the wisp of the next iteration, which exists. *)
Definition successor (w' : World) (x : HandlerResult) : Prop :=
  hr_Action x = ActionIterate -> keyed w' (hr_NextWispID x) (next_key (hr_Iteration x)).

(** Where the handler may stop: the marker is untouched, or the transition its gate outcome
    calls for is in the root bead. *)
Definition crash_point (w w' : World) : Prop :=
  field w' root FieldLastProcessedWisp = field w root FieldLastProcessedWisp
  \/ exists x, completed root wisp w w' x /\ decision_ok w w' x /\ successor w' x.

Lemma crash_point_side w w' : root_frame root sideKeys w w' -> crash_point w w'.
Proof. intros F. left. apply (root_frame_field _ _ _ _ _ F); [done|key_mem]. Qed.

(** A transition reached through framed work stops at such points. *)
Lemma transits_crash_points p ws P x w0 w :
  transits root p ws (processed wisp) P (fun y => y = x) -> kind root ws P x ->
  keeps root transitionKeys p -> top_level w root -> root_frame root sideKeys w0 w ->
  (forall w', root_frame root transitionKeys w w' -> decision_ok w0 w' x) ->
  wpc p (fun _ w' => True) (fun w' => successor w' x) w ->
  wpc p (fun _ _ => True) (crash_point w0) w.
Proof.
  intros Hp Hk Hf Ht F0 Hd Hs.
  eapply wpc_conseq; [apply (wpc_and _ _ _ _ _ _ (wpc_and _ _ _ _ _ _ (Hp w Ht) (Hf w Ht)) Hs)| |done]; simpl.
  intros w' [[C F] HS]. apply committing_marker in C as [U|C].
  - left. unfold unwritten in U. simpl in U. rewrite U.
    apply (root_frame_field _ _ _ _ _ F0); [done|key_mem].
  - right. exists x. split_and!; [|by apply Hd|done]. eapply committed_completed; [exact Hk|].
    eapply committed_before; [by eapply kind_lw|by eapply kind_side|exact F0|exact C].
Qed.

Lemma successor_other p x w : hr_Action x <> ActionIterate ->
  wpc (A := res HandlerResult) p (fun _ _ => True) (fun w' => successor w' x) w.
Proof.
  intros Hx. assert (HS : forall w', successor w' x) by (by intros w' E). revert w.
  induction p as [a|R c k IH]; intros w; [by apply wpc_ret|]. apply wpc_op; [done|]. intros r w' _. apply IH.
Qed.

Lemma iterate_adopt_no_delete n cfg gr meta next : calls no_delete (iterate_adopt h root wisp n cfg gr meta next).
Proof.
  unfold iterate_adopt, emitEvent, emit, withEventRig, eventRig, computeDurations, commit. cbn [write_all].
  calls_tac; exact I.
Qed.
Lemma clearVerdict_no_delete meta : calls no_delete (clearVerdict root wisp meta).
Proof. unfold clearVerdict. calls_tac; exact I. Qed.
Lemma persistGateOutcome_no_delete gr : calls no_delete (persistGateOutcome root wisp gr).
Proof. unfold persistGateOutcome, commit. cbn [write_all]. calls_tac; exact I. Qed.
Lemma evaluateGate_no_delete cfg meta n v : calls no_delete (evaluateGate h cfg meta wisp n v root).
Proof.
  assert (Ho : forall l p e t, calls no_delete (runOnce_loop l p e t)).
  { induction l as [|l IH]; intros; cbn [runOnce_loop]; unfold runOnceNoPreExecRetry; calls_tac; try exact I. }
  assert (Hl : forall l p e t a b r x, calls no_delete (RunCondition_loop l p e t a b r x)).
  { induction l as [|l IH]; intros; cbn [RunCondition_loop]; [exact I|]. apply calls_bind; [apply Ho|].
    calls_tac; exact I || apply IH. }
  unfold evaluateGate, computeDurations, EvaluateHybrid, RunCondition. calls_tac; exact I || apply Hl.
Qed.

Lemma pour_ok_keyed w (c : cmd (res string)) parent key r w' :
  (forall w1, store_step w1 c r w' -> pour_step w1 parent key r w') -> env_step w c r w' ->
  forall id, r = Ok id -> keyed w' id key.
Proof.
  intros Hp (w1 & _ & Hst) id ->. apply Hp in Hst. destruct Hst as [[-> Hb]|[_ (b & m & _ & _ & Hk & _ & _ & ->)]]; [done|].
  exists b. simpl. by rewrite lookup_insert_eq.
Qed.

Lemma find_ok_keyed w key id w' : env_step w (FindByIdempotencyKey key) (Ok (id, true)) w' -> keyed w' id key.
Proof. by intros (w1 & _ & -> & Hb). Qed.

(** Framed work that deletes nothing, beside a speculative wisp. *)
Definition spared (w : World) (id : string) (n : Z) : Prop := id = "" \/ keyed w id (next_key n).

Lemma wpc_any {A} (p : prog A) w : wpc p (fun _ _ => True) (fun _ => True) w.
Proof. revert w. induction p as [a|R c k IH]; intros w; [by apply wpc_ret|]. apply wpc_op; auto. Qed.

Lemma wpc_spared_p {A} (p : prog A) w id n :
  calls no_delete p -> spared w id n -> wpc p (fun _ w' => spared w' id n) (fun w' => spared w' id n) w.
Proof.
  intros Hc [->|Hk].
  - eapply wpc_conseq; [apply wpc_any| |]; intros; by left.
  - eapply wpc_conseq; [by apply (wpc_keyed p w id (next_key n))| |]; intros; by right.
Qed.

Lemma wpc_spared {A B} K (p : prog A) (f : A -> prog B) Q (I : World -> Prop) w id n :
  keeps root K p -> calls no_delete p -> top_level w root -> spared w id n ->
  (forall w', root_frame root K w w' -> I w') ->
  (forall a w', root_frame root K w w' -> top_level w' root -> spared w' id n -> wpc (f a) Q I w') ->
  wpc (bind p f) Q I w.
Proof.
  intros Hp Hc Ht Hk HI Hf.
  eapply wpc_seq; [apply (wpc_and _ _ _ _ _ _ (Hp w Ht) (wpc_spared_p p w id n Hc Hk))|intros w' [F _]; by apply HI|]. simpl.
  intros a w' _ [[F _] Hk']. apply Hf; [done| |done]. by eapply root_frame_top_level.
Qed.

Lemma side_trans K w w1 w' :
  (forall k, k ∈ K -> k ∈ sideKeys) -> root_frame root sideKeys w w1 -> root_frame root K w1 w' -> root_frame root sideKeys w w'.
Proof. intros HK F F'. eapply root_frame_trans; [exact F|]. by eapply root_frame_weaken. Qed.

(** Burning the speculative wisp before a transition. *)
Lemma burn_crash_points {B} w0 spec (f : res unit -> prog B) Q w :
  spec <> root -> top_level w root -> root_frame root sideKeys w0 w ->
  (forall r w', top_level w' root -> root_frame root sideKeys w0 w' -> root_frame root [FieldPendingNextWisp] w w' ->
     wpc (f r) Q (crash_point w0) w') ->
  wpc (bind (burnSpeculativeWisp h root spec) f) Q (crash_point w0) w.
Proof.
  intros Hs Ht F0 Hf.
  eapply (wpc_specs root [FieldPendingNextWisp]); [apply burnSpeculativeWisp_keeps; [done|key_mem]|done| |].
  { intros w1 F1. eapply crash_point_side, side_trans; [|exact F0|exact F1]. key_mem. }
  intros r w1 F1 Ht1 _. apply Hf; [done| |done]. eapply side_trans; [|exact F0|exact F1]. key_mem.
Qed.

(** What outcomeStep starts from: framed work from [w0], a recorded outcome, and a
    speculative wisp of the next iteration, if any. *)
Section Outcome.
Context (w0 : World) (meta : gmap string string) (n : Z) (cfg : GateConfig) (trig : TriggerConfig) (gr : GateResult).
Let max := (DecodeInt (mget meta FieldMaxIterations)).1.
Context (Hsnap : snapshot w0 root meta) (Hn : wisp_iteration w0 wisp n).
Context (Hcfg : ParseGateConfig meta = Ok cfg) (Htrig : ParseTriggerConfig meta = Ok trig).

Lemma recorded_decision w w' x :
  recorded w gr -> root_frame root transitionKeys w w' -> decides cfg trig gr n max x -> decision_ok w0 w' x.
Proof.
  intros [Ho Hw] F Hd. exists meta, n, cfg, trig. split_and!; try done. right. exists gr. split; [|done].
  split; rewrite (root_frame_field _ _ _ _ _ F); done || key_mem.
Qed.

Lemma manual_crash_points reason w :
  top_level w root -> root_frame root sideKeys w0 w -> recorded w gr ->
  decides cfg trig gr n max (mkHandlerResult ActionWaitingManual n (gr_Outcome gr) "" reason) ->
  wpc (transitionToWaitingManual h root wisp n cfg gr reason (gr_Outcome gr) meta) (fun _ _ => True) (crash_point w0) w.
Proof.
  intros Ht F0 Hr Hd. eapply transits_crash_points; [by apply transitionToWaitingManual_transits|constructor| |done|done| |by apply successor_other].
  - apply transitionToWaitingManual_keeps.
  - intros w' F. by eapply recorded_decision.
Qed.

Lemma adopt_crash_points next w :
  top_level w root -> root_frame root sideKeys w0 w -> recorded w gr -> keyed w next (next_key n) ->
  decides cfg trig gr n max (mkHandlerResult ActionIterate n (gr_Outcome gr) next "") ->
  wpc (iterate_adopt h root wisp n cfg gr meta next) (fun _ _ => True) (crash_point w0) w.
Proof.
  intros Ht F0 Hr Hk Hd. eapply transits_crash_points; [by apply iterate_adopt_transits|constructor| |done|done| |].
  - apply iterate_adopt_keeps.
  - intros w' F. by eapply recorded_decision.
  - eapply wpc_conseq; [apply (wpc_keyed _ _ next (next_key n)); [apply iterate_adopt_no_delete|done]| |done].
    by intros w' Hk' _.
Qed.

Lemma recorded_side K w w' :
  root_frame root K w w' -> FieldGateOutcome ∉ K -> FieldGateOutcomeWisp ∉ K -> recorded w gr -> recorded w' gr.
Proof. intros F HK HK' [Ho Hw]. by split; rewrite (root_frame_field _ _ _ _ _ F). Qed.

Lemma iterate_crash_points spec w :
  top_level w root -> root_frame root sideKeys w0 w -> recorded w gr -> spared w spec n ->
  goes_on cfg gr n max -> trigger_Enabled trig = false ->
  wpc (iterate h root wisp n cfg gr meta spec) (fun _ _ => True) (crash_point w0) w.
Proof.
  intros Ht F0 Hr Hs Hgo Htr. unfold iterate.
  assert (Hadopt : forall next w1, top_level w1 root -> root_frame root sideKeys w0 w1 -> recorded w1 gr ->
    keyed w1 next (next_key n) -> wpc (iterate_adopt h root wisp n cfg gr meta next) (fun _ _ => True) (crash_point w0) w1).
  { intros next w1 Ht1 F1 Hr1 Hk. apply adopt_crash_points; try done. split; [done|]. split; [done|]. left. by apply row_next. }
  eapply (wpc_spared verdictKeys _ _ _ _ _ spec n); [apply clearVerdict_keeps; key_mem|apply clearVerdict_no_delete|done|done| |].
  { intros w1 F1. eapply crash_point_side, side_trans; [|exact F0|exact F1]. key_mem. }
  intros r w1 F1 Ht1 Hs1. assert (F01 : root_frame root sideKeys w0 w1) by (eapply side_trans; [|exact F0|exact F1]; key_mem).
  assert (Hr1 : recorded w1 gr) by (eapply recorded_side; [exact F1|key_mem|key_mem|done]).
  destruct r as [[]|e]; [|apply wpc_ret; [by apply crash_point_side|done]].
  destruct (String.eqb_spec spec "") as [->|Hne]; simpl negb; cbv iota; [|apply Hadopt; try done; by destruct Hs1].
  apply wpc_call; [by apply crash_point_side|]. intros r w2 Hst.
  assert (Hk2 : forall id, r = Ok id -> keyed w2 id (next_key n)) by (by eapply (pour_ok_keyed _ _ root); [|exact Hst]).
  apply (env_step_frame root w1) in Hst; [|by apply top_level_exists|done]. simpl in Hst.
  assert (F02 : root_frame root sideKeys w0 w2) by (eapply side_trans; [|exact F01|exact Hst]; set_solver).
  assert (Hr2 : recorded w2 gr) by (eapply recorded_side; [exact Hst|set_solver|set_solver|done]).
  assert (Ht2 := root_frame_top_level _ _ _ _ Hst Ht1).
  destruct r as [id|e]; [by apply Hadopt, Hk2|].
  apply wpc_call; [by apply crash_point_side|]. intros r w3 Hst3.
  assert (F := Hst3). apply (env_step_frame root w2) in F; [|by apply top_level_exists|done]. simpl in F.
  assert (F03 : root_frame root sideKeys w0 w3) by (eapply side_trans; [|exact F02|exact F]; set_solver).
  assert (Hr3 : recorded w3 gr) by (eapply recorded_side; [exact F|set_solver|set_solver|done]).
  assert (Ht3 := root_frame_top_level _ _ _ _ F Ht2).
  assert (Hfail : wpc (handleSlingFailure h root wisp n cfg gr meta) (fun _ _ => True) (crash_point w0) w3).
  { apply manual_crash_points; try done. split; [done|]. split; [done|]. by right. }
  destruct r as [[id []]|e']; try done. apply Hadopt; try done. by eapply find_ok_keyed.
Qed.

Lemma outcomeStep_crash_points g spec perr w :
  top_level w root -> root_frame root sideKeys w0 w -> recorded w gr -> spec <> root -> spared w spec n ->
  wpc (outcomeStep h root wisp n g max cfg trig gr meta spec perr) (fun _ _ => True) (crash_point w0) w.
Proof.
  intros Ht F0 Hr Hs Hk. unfold outcomeStep.
  destruct (String.eqb (gr_Outcome gr) GateTimeout && String.eqb (gc_TimeoutAction cfg) TimeoutActionManual) eqn:Em.
  { apply burn_crash_points; try done. intros [[]|e] w1 Ht1 F1 Fb; [|apply wpc_ret; [by apply crash_point_side|done]].
    assert (Hr1 : recorded w1 gr) by (eapply recorded_side; [exact Fb|key_mem|key_mem|done]).
    apply andb_true_iff in Em as [Et%String.eqb_eq Em%String.eqb_eq].
    apply manual_crash_points; try done. split; [done|]. split; [done|]. left. by apply row_timeout_manual. }
  pose proof (terminalDecision_rows cfg trig gr n max Em) as Hrow.
  destruct (terminalDecision cfg gr n max) as [reason|] eqn:Er.
  - apply burn_crash_points; try done. intros [[]|e] w1 Ht1 F1 Fb; [|apply wpc_ret; [by apply crash_point_side|done]].
    assert (Hr1 : recorded w1 gr) by (eapply recorded_side; [exact Fb|key_mem|key_mem|done]).
    assert (Hreason : reason ∈ [TerminalApproved; TerminalNoConvergence])
      by (unfold terminalDecision in Er; set_unfold; repeat case_match; naive_solver).
    eapply transits_crash_points; [by apply terminate_transits|by constructor|apply terminate_keeps|done|done| |].
    + intros w' F. eapply recorded_decision; [done|exact F|]. split; [done|]. split; [done|]. by left.
    + apply successor_other. set_unfold. naive_solver.
  - destruct perr; [apply manual_crash_points; try done; split; [done|]; split; [done|]; by right|].
    destruct (trigger_Enabled trig) eqn:Htr; [|by apply iterate_crash_points].
    eapply transits_crash_points; [by apply transitionToWaitingTrigger_transits|constructor|apply transitionToWaitingTrigger_keeps|done|done| |by apply successor_other].
    intros w' F. eapply recorded_decision; [done|exact F|]. split; [done|]. split; [done|]. left. by apply row_trigger.
Qed.

End Outcome.

(** The speculative pour answers with a wisp of the next iteration, or with none. *)
Lemma validPendingNextWisp_spared n pending w :
  wpc (validPendingNextWisp root (next_key n) pending) (fun id w' => spared w' id n) (fun _ => True) w.
Proof.
  unfold validPendingNextWisp. destruct (String.eqb_spec pending "") as [->|_]; [apply wpc_ret; [done|by left]|].
  apply wpc_call; [done|]. intros r w1 (w2 & _ & -> & Hst). cbv zeta. destruct r as [i|e].
  - destruct Hst as (b & Hb & ->). simpl. destruct (_ && _ && _) eqn:E.
    + apply wpc_ret; [done|]. right. exists b. split; [done|].
      apply andb_true_iff in E as [E _]. apply andb_true_iff in E as [_ E]. by apply String.eqb_eq in E.
    + apply wpc_call; [done|]. intros r w1 _. apply wpc_ret; [done|by left].
  - apply wpc_call; [done|]. intros r w1 _. apply wpc_ret; [done|by left].
Qed.

Definition pours_spared (n : Z) (r : res (string * bool)) (w' : World) : Prop :=
  forall id b, r = Ok (id, b) -> spared w' id n.

Lemma speculativePour_spared n max cfg trig meta w :
  wpc (speculativePour h root (next_key n) n max cfg trig meta) (pours_spared n) (fun _ => True) w.
Proof.
  unfold speculativePour. eapply wpc_seq; [apply validPendingNextWisp_spared|done|]. intros pending w1 _ Hp. simpl.
  destruct (_ && _ && _); [|apply wpc_ret; [done|]; by intros id b [= <- <-]].
  apply wpc_call; [done|]. intros r w2 Hst.
  assert (Hk2 : forall id, r = Ok id -> keyed w2 id (next_key n)) by (by eapply (pour_ok_keyed _ _ root); [|exact Hst]).
  eapply (wpc_seq _ _ (fun x w' => spared w' x.1 n) (fun _ => True)); [|done|].
  { destruct r as [id|e]; [apply wpc_ret; [done|right; by apply Hk2]|]. apply wpc_call; [done|].
    intros [[id []]|e'] w3 H3; apply wpc_ret; try done; [right; by eapply find_ok_keyed|by left..]. }
  intros [id pe] w3 _ Hs. simpl in Hs. destruct (String.eqb id ""); [apply wpc_ret; [done|by intros ? ? [= <- <-]]|].
  apply wpc_call; [done|]. intros [[]|e] w4 (w5 & R5 & Hst4).
  - apply wpc_ret; [done|]. intros ? ? [= <- <-]. destruct Hs as [|Hs]; [by left|right].
    eapply (store_step_keyed _ (SetMetadata root FieldPendingNextWisp id)); [exact I|exact Hst4|]. by eapply rely_keyed.
  - eapply wpc_seq; [apply wpc_any|done|]. intros [[]|e'] w6 _ _; by apply wpc_ret.
Qed.

(** After the gate: its outcome is recorded, and the speculative wisp still there. *)
Definition gate_decided (w0 : World) (spec : string) (n : Z) (r : res (HandlerResult + GateResult)) (w' : World) : Prop :=
  forall gr, r = Ok (inr gr) ->
    top_level w' root /\ root_frame root sideKeys w0 w' /\ recorded w' gr /\ spared w' spec n.

Section Gate.
Context (w0 : World) (meta : gmap string string) (n : Z) (cfg : GateConfig) (trig : TriggerConfig) (spec : string).
Context (Hsnap : snapshot w0 root meta) (Hn : wisp_iteration w0 wisp n) (Hs : spec <> root).
Context (Hcfg : ParseGateConfig meta = Ok cfg) (Htrig : ParseTriggerConfig meta = Ok trig).

Lemma gate_decided_err e w' : root_frame root sideKeys w0 w' -> wpc (Ret (Err e)) (gate_decided w0 spec n) (crash_point w0) w'.
Proof. intros F. apply wpc_ret; [by apply crash_point_side|]. by intros gr [=]. Qed.

Lemma wait_crash_points reason w :
  top_level w root -> root_frame root sideKeys w0 w -> needsManualWithoutGate cfg = true ->
  wpc (try! _ := burnSpeculativeWisp h root spec or "burning speculative wisp before waiting_manual" in
       try! r := transitionToWaitingManual h root wisp n cfg GateResultZero reason "" meta in Ret (Ok (inl r)))
    (gate_decided w0 spec n) (crash_point w0) w.
Proof.
  intros Ht F Hm. apply burn_crash_points; try done. intros [[]|e] w1 Ht1 F1 _; [|by apply gate_decided_err].
  eapply (wpc_seq _ _ (fun _ _ => True) (crash_point w0)); [|done|].
  - eapply transits_crash_points; [by apply transitionToWaitingManual_transits|constructor|apply transitionToWaitingManual_keeps|done|done| |by apply successor_other].
    intros w' _. exists meta, n, cfg, trig. split_and!; try done. left. by rewrite <- no_gate_spec.
  - intros [x|e] w2 Hc _; by apply wpc_ret.
Qed.

Lemma evaluate_crash_points v w :
  top_level w root -> root_frame root sideKeys w0 w -> spared w spec n ->
  wpc (let! gr := evaluateGate h cfg meta wisp n v root in
       let! r := persistGateOutcome root wisp gr in
       match r with
       | Ok _ => Ret (Ok (inr gr))
       | Err e =>
           let! b := burnSpeculativeWisp h root spec in
           match b with
           | Err burnErr => Ret (Err (Errorf
               "persisting gate outcome: %w; additionally burning speculative wisp: %w" [] [e; burnErr]))
           | Ok _ => Ret (Err (wrap "persisting gate outcome" e))
           end
       end) (gate_decided w0 spec n) (crash_point w0) w.
Proof.
  intros Ht F Hk.
  eapply (wpc_spared [] _ _ _ _ _ spec n); [apply evaluateGate_keeps|apply evaluateGate_no_delete|done|done| |].
  { intros w1 F1. eapply crash_point_side, side_trans; [|exact F|exact F1]. set_solver. }
  intros gr w1 F1 Ht1 Hk1. assert (F01 : root_frame root sideKeys w0 w1) by (eapply side_trans; [|exact F|exact F1]; set_solver).
  assert (Hrec := persistGateOutcome_recorded gr w1 Ht1).
  assert (Hkeep := persistGateOutcome_keeps root gateKeys wisp gr (fun _ H => H) w1 Ht1).
  eapply wpc_seq; [apply (wpc_and _ _ _ _ _ _ Hrec (wpc_and _ _ _ _ _ _ Hkeep (wpc_spared_p _ _ spec n (persistGateOutcome_no_delete gr) Hk1)))| |]; simpl.
  { intros w2 (_ & F2 & _). eapply crash_point_side, side_trans; [|exact F01|exact F2]. key_mem. }
  intros r w2 _ ([Ht2 Hr] & [F2 _] & Hk2). assert (F02 : root_frame root sideKeys w0 w2) by (eapply side_trans; [|exact F01|exact F2]; key_mem).
  destruct r as [[]|e].
  - apply wpc_ret; [by apply crash_point_side|]. intros ? [= <-]. split_and!; auto.
  - apply burn_crash_points; try done. intros [[]|e'] w3 _ F3 _; by apply gate_decided_err.
Qed.

Lemma gateStep_crash_points w :
  top_level w root -> root_frame root [FieldIteration; FieldPendingNextWisp] w0 w -> spared w spec n ->
  wpc (gateStep h root wisp n (String.eqb (mget meta FieldGateOutcomeWisp) wisp) cfg meta spec)
    (gate_decided w0 spec n) (crash_point w0) w.
Proof.
  intros Ht F0 Hk. unfold gateStep.
  assert (F : root_frame root sideKeys w0 w) by (eapply root_frame_weaken; [|exact F0]; key_mem).
  destruct (String.eqb_spec (mget meta FieldGateOutcomeWisp) wisp) as [Hw|_].
  { apply wpc_ret; [by apply crash_point_side|]. intros gr [= <-]. split_and!; try done.
    split; simpl; rewrite (root_frame_field _ _ _ _ _ F0) by (done || key_mem); by rewrite <- Hsnap. }
  assert (Hwait := fun reason => wait_crash_points reason w Ht F). unfold needsManualWithoutGate in Hwait.
  destruct (String.eqb (gc_Mode cfg) GateModeManual) eqn:E1; [by apply Hwait|].
  destruct (_ && _) eqn:E2; [by apply Hwait|]. by apply evaluate_crash_points.
Qed.

End Gate.

Lemma processWisp_crash_points w0 meta n g cfg trig w :
  root_frame root [FieldIteration] w0 w -> top_level w root -> snapshot w0 root meta -> wisp_iteration w0 wisp n ->
  ParseGateConfig meta = Ok cfg -> ParseTriggerConfig meta = Ok trig ->
  wpc (processWisp h root wisp n g cfg trig meta) (fun _ _ => True) (crash_point w0) w.
Proof.
  intros F0 Ht Hsnap Hn Hcfg Htrig. assert (Hroot : root <> "") by apply Ht. unfold processWisp. fold (next_key n).
  assert (HF : forall w', root_frame root [FieldPendingNextWisp] w w' -> root_frame root [FieldIteration; FieldPendingNextWisp] w0 w').
  { intros w' F. eapply root_frame_trans; eapply root_frame_weaken; [|exact F0| |exact F]; set_solver. }
  assert (HF' : forall w', root_frame root [FieldPendingNextWisp] w w' -> root_frame root sideKeys w0 w').
  { intros w' F. eapply root_frame_weaken; [|by apply HF]. key_mem. }
  destruct (_ && _ && _).
  { eapply (wpc_specs root [FieldPendingNextWisp]); [apply validPendingNextWisp_keeps; [done|key_mem]|done|auto using crash_point_side|].
    intros p w1 F1 Ht1 Hp. destruct (negb _); [|apply wpc_ret; auto using crash_point_side].
    apply burn_crash_points; auto. intros [[]|e] w2 _ F2 _; apply wpc_ret; auto using crash_point_side. }
  assert (Hpour := speculativePour_keeps h root [FieldPendingNextWisp] (next_key n) n (DecodeInt (mget meta FieldMaxIterations)).1
    cfg trig meta Hroot ltac:(done) ltac:(key_mem) w Ht).
  eapply wpc_seq; [apply (wpc_and _ _ _ _ _ _ Hpour (speculativePour_spared n (DecodeInt (mget meta FieldMaxIterations)).1 cfg trig meta w))| |]; simpl.
  { intros w1 [F1 _]. by apply crash_point_side, HF'. }
  intros [[spec perr]|e] w1 _ [[F1 Hns] Hsp]; [|apply wpc_ret; auto using crash_point_side].
  assert (Ht1 := root_frame_top_level _ _ _ _ F1 Ht). assert (Hs : spec <> root) by (by eapply Hns).
  eapply wpc_seq; [apply (gateStep_crash_points w0 meta n cfg trig spec); try done; [by apply HF|by eapply Hsp]|done|].
  intros r w2 Hc Hg. destruct r as [[y|gr]|e]; [by apply wpc_ret| |by apply wpc_ret].
  destruct (Hg gr eq_refl) as (Ht2 & F2 & Hr & Hk). by apply outcomeStep_crash_points.
Qed.

(** (C10) The decision table of HandleWispClosed: an event that is not skipped ends in
    the action its gate outcome calls for (approved on pass, no_convergence on a
    terminating timeout or at the iteration limit, manual on a manual timeout, else
    the trigger hold or the next iteration), the outcome being the one recorded on the
    root for this wisp, or in waiting_manual when no gate applies or when the loop
    should go on and the next wisp could not be poured. *)
Theorem HandleWispClosed_decision w x w' :
  top_level w root -> runs (HandleWispClosed h root wisp) w (Ok x) w' ->
  hr_Action x <> ActionSkipped -> decision_ok w w' x.
Proof.
  intros Ht Hr Hns.
  assert (HQ : wpc (HandleWispClosed h root wisp) (fun r w' => forall x, r = Ok x ->
    hr_Action x <> ActionSkipped -> decision_ok w w' x) (fun _ => True) w);
    [|exact (wpc_runs _ _ _ _ _ _ HQ Hr x eq_refl Hns)].
  apply wpc_HandleWispClosed; try done; [by intros w1 _ y [= <-]|].
  intros meta n g cfg trig w1 F1 Ht1 Hsnap _ Hn Hcfg Htrig. unfold processWisp.
  destruct (_ && _ && _).
  { eapply (wpc_specs root [FieldPendingNextWisp]);
      [apply validPendingNextWisp_keeps; [apply Ht|key_mem]|done|done|].
    intros p w2 _ Ht2 Hp. destruct (negb _); [|by apply wpc_ret].
    eapply (wpc_keeps_then sideKeys); [by eauto with frame|done|].
    intros [[]|e] w3 _ _; by apply wpc_ret. }
  eapply (wpc_specs root [FieldPendingNextWisp]);
    [apply speculativePour_keeps; [apply Ht|done|key_mem]|done|done|].
  intros [[spec perr]|e] w2 F2 Ht2 Hns2; [|by apply wpc_ret].
  assert (Hspec : spec <> root) by (by eapply Hns2).
  eapply wpc_seq; [apply gateStep_answer; [done|done|]|done|].
  { intros k Hk. assert (Hp : RequiresToken k = true /\ k ∉ [FieldIteration; FieldPendingNextWisp]).
    { revert k Hk. apply Forall_forall. repeat constructor; key_mem. }
    destruct Hp as [Hp Hnk]. rewrite Hsnap by done.
    rewrite (root_frame_field _ _ _ _ _ F2), (root_frame_field _ _ _ _ _ F1); set_solver. }
  intros r w3 _ [Ht3 Hans]. destruct r as [[y|gr]|e]; [| |by apply wpc_ret].
  { apply wpc_ret; [done|]. intros x' [= <-] _. exists meta, n, cfg, trig.
    setoid_rewrite <- no_gate_spec. naive_solver. }
  eapply wpc_conseq; [eapply wpc_returns; [apply outcomeStep_returns|by apply outcomeStep_keeps]|done|].
  intros r w4 _ [Hdec [F4 _]] x' -> _. exists meta, n, cfg, trig. split_and!; try done. right.
  exists gr. split; [|by apply Hdec]. destruct Hans as [Ho Hw].
  split; rewrite (root_frame_field _ _ _ _ _ F4); done || key_mem.
Qed.

(** (C1) Crash safety of HandleWispClosed: whatever store calls fail and whatever agents do
    in between, at every point where the process can stop the dedup marker
    last_processed_wisp is untouched, or the one transition it stands for is wholly in the
    root bead: the transition is the one the decision table gives for the gate outcome the
    root records for this wisp (waiting_manual, waiting_trigger and a terminal state with
    every field and the closed status; or an active wisp that is the existing wisp of the
    very next iteration). *)
Theorem HandleWispClosed_crash_safe w w' :
  top_level w root -> reaches (HandleWispClosed h root wisp) w w' ->
  field w' root FieldLastProcessedWisp = field w root FieldLastProcessedWisp
  \/ exists x, completed root wisp w w' x /\ decision_ok w w' x
       /\ (hr_Action x = ActionIterate ->
             keyed w' (hr_NextWispID x) (IdempotencyKey root (wrap64 (hr_Iteration x + 1)))).
Proof.
  intros Ht Hr. refine (wpc_reaches _ (fun _ _ => True) (crash_point w) _ _ _ Hr).
  apply wpc_HandleWispClosed; try done.
  { intros w1 F. apply crash_point_side. eapply root_frame_weaken; [|exact F]. key_mem. }
  intros meta n g cfg trig w1 F1 Ht1 Hsnap _ Hn Hcfg Htrig. by apply (processWisp_crash_points w meta n g cfg trig w1).
Qed.

End Decision.

Lemma gate_outcome_roundtrip_witness :
  let gr := mkGateResult GateFail (Some 3) 2 "out" "err" 1234567 true in
  let r := run (persistGateOutcome "gc-1" "gc-2" gr) (sample GateModeCondition [] []) in
  replayGateResult (root_meta "gc-1" (rs_world (snd r)))
  = mkGateResult GateFail (Some 3) 2 "out" "err" (Milliseconds 1234567 * Millisecond) true
  /\ field (rs_world (snd r)) "gc-1" FieldGateOutcomeWisp = "gc-2".
Proof.
  cbv zeta. apply (gate_outcome_roundtrip "gc-1" "gc-2" ltac:(done)
    (mkGateResult GateFail (Some 3) 2 "out" "err" 1234567 true)
    (rs_world (sample GateModeCondition [] [])));
    [apply sample_top_level| |apply ref_runs; vm_compute; reflexivity].
  split; [intros c [= <-]|split]; vm_compute; split; discriminate.
Defined.

Lemma HandleWispClosed_crash_safe_witness :
  let s := passing in
  let w' := rs_world (run_upto 30 closed0 s) in
  field w' "gc-1" FieldLastProcessedWisp = field (rs_world s) "gc-1" FieldLastProcessedWisp
  \/ exists x, completed "gc-1" "gc-2" (rs_world s) w' x /\ decision_ok "gc-1" "gc-2" (rs_world s) w' x
       /\ (hr_Action x = ActionIterate ->
             keyed w' (hr_NextWispID x) (IdempotencyKey "gc-1" (wrap64 (hr_Iteration x + 1)))).
Proof.
  cbv zeta. apply (HandleWispClosed_crash_safe handler0 "gc-1" "gc-2");
    [done|apply sample_top_level|apply run_upto_reaches].
Defined.

Lemma HandleWispClosed_decision_witness :
  decision_ok "gc-1" "gc-2" (rs_world passing)
    (rs_world gate_passed) (mkHandlerResult ActionApproved 1 GatePass "" "").
Proof.
  apply (HandleWispClosed_decision handler0 "gc-1" "gc-2" ltac:(done));
    [apply sample_top_level|apply ref_runs; vm_compute; reflexivity|done].
Defined.
