(* ===== verification/ConvManual.v ===== *)
(** The operator commands on a convergence loop (internal/convergence/manual.go):
    approve, iterate and stop, with the recovery of a stale active wisp. *)
From S2P Require Import Prelude GoStd ConvMeta ConvKeys ConvStore ConvFrame ConvGate ConvHandler.
#[local] Open Scope prog_scope.

(** HandlerResult{Action: a, Iteration: n} *)
Definition iteration_result (a : string) (n : Z) : HandlerResult := mkHandlerResult a n "" "" "".

Section Manual.
Context `{UnicodeTables} (h : Handler).

Definition operator (username : string) : string := "operator:" +:+ username.

(** The wisp an operator's event refers to. *)
Definition eventWisp (activeWisp lastProcessedWisp : string) : string :=
  if String.eqb activeWisp "" then lastProcessedWisp else activeWisp.

(** * ApproveHandler *)

Definition approvePreMarker (beadID actor eventWispID : string) (iterationCount cumDur : Z)
  : prog (res unit) :=
  let! _ := emitEvent h EventTerminated (EventIDTerminated beadID) beadID
    (PTerminated (mkTerminatedPayload "" TerminalApproved iterationCount "closed" actor
       (Milliseconds cumDur))) in
  try! _ := call (CloseBead beadID CloseReasonManualApprove)
    else (fun e => Errorf "closing bead %q" [beadID] [e]) in
  let! _ := emitEvent h EventManualApprove (EventIDManualApprove beadID) beadID
    (PManualAction (mkManualActionPayload "" actor StateWaitingManual StateTerminated
       iterationCount (NullableString eventWispID) None)) in
  Ret (Ok tt).

Definition manualTerminalWrites (reason actor : string) : list metaWrite :=
  [ mkMetaWrite FieldTerminalReason reason "setting terminal reason";
    mkMetaWrite FieldTerminalActor actor "setting terminal actor";
    mkMetaWrite FieldWaitingReason "" "clearing waiting reason";
    mkMetaWrite FieldState StateTerminated "setting state to terminated" ].

Definition ApproveHandler (beadID username : string) : prog (res HandlerResult) :=
  try! meta := call (GetMetadata beadID) else (fun e => Errorf "reading bead %q metadata" [beadID] [e]) in
  let state := mget meta FieldState in
  let actor := operator username in
  if String.eqb state StateTerminated && String.eqb (mget meta FieldTerminalReason) TerminalApproved
  then Ret (Ok (action_result ActionApproved)) else
  if negb (String.eqb state StateWaitingManual)
  then Ret (Err (errmsg "cannot approve bead %q: state is %q, expected %q"
                   [beadID; state; StateWaitingManual])) else
  try! iterationCount := deriveIterationCount beadID
    else (fun e => Errorf "deriving iteration count for bead %q" [beadID] [e]) in
  let lastProcessedWisp := mget meta FieldLastProcessedWisp in
  let eventWispID := eventWisp (mget meta FieldActiveWisp) lastProcessedWisp in
  let! durs := computeDurations beadID eventWispID in
  try! _ := commit beadID (manualTerminalWrites TerminalApproved actor)
    (Some (approvePreMarker beadID actor eventWispID iterationCount durs.2))
    (mkMetaWrite FieldLastProcessedWisp lastProcessedWisp "setting last processed wisp") in
  Ret (Ok (iteration_result ActionApproved iterationCount)).

(** * IterateHandler *)

(** IterateHandler after the pour: verdict, waiting reason, state, active wisp, event. *)
Definition iterateManual (beadID username : string) (meta : gmap string string)
    (nextIteration : Z) (nextWispID : string) : prog (res HandlerResult) :=
  let lastProcessedWisp := mget meta FieldLastProcessedWisp in
  try! _ := (if negb (String.eqb lastProcessedWisp "")
                && String.eqb (mget meta FieldAgentVerdictWisp) lastProcessedWisp
             then clearVerdict beadID lastProcessedWisp meta else Ret (Ok tt)) in
  try! _ := write_all beadID
    [ mkMetaWrite FieldWaitingReason "" "clearing waiting reason";
      mkMetaWrite FieldState StateActive "setting state to active";
      mkMetaWrite FieldActiveWisp nextWispID "setting active wisp" ] in
  let! _ := emitEvent h EventManualIterate (EventIDManualIterate beadID nextIteration) beadID
    (PManualAction (mkManualActionPayload "" (operator username) StateWaitingManual StateActive
       nextIteration (NullableString lastProcessedWisp) (NullableString nextWispID))) in
  Ret (Ok (mkHandlerResult ActionIterate nextIteration "" nextWispID "")).

Definition IterateHandler (beadID username : string) : prog (res HandlerResult) :=
  try! meta := call (GetMetadata beadID) else (fun e => Errorf "reading bead %q metadata" [beadID] [e]) in
  let state := mget meta FieldState in
  if negb (String.eqb state StateWaitingManual)
  then Ret (Err (errmsg "cannot iterate bead %q: state is %q, expected %q"
                   [beadID; state; StateWaitingManual])) else
  try! iterationCount := deriveIterationCount beadID
    else (fun e => Errorf "deriving iteration count for bead %q" [beadID] [e]) in
  let maxIterations := (DecodeInt (mget meta FieldMaxIterations)).1 in
  if maxIterations <=? iterationCount
  then Ret (Err (errmsg "cannot iterate bead %q: at max iterations (%d/%d)"
                   [beadID; Itoa iterationCount; Itoa maxIterations])) else
  let nextIteration := wrap64 (iterationCount + 1) in
  let nextKey := IdempotencyKey beadID nextIteration in
  let! r := call (PourWisp beadID (mget meta FieldFormula) nextKey (ExtractVars meta)
                    (mget meta FieldEvaluatePrompt)) in
  match r with
  | Ok nextWispID => iterateManual beadID username meta nextIteration nextWispID
  | Err e =>
      let! f := call (FindByIdempotencyKey nextKey) in
      match f with
      | Ok (existingID, true) => iterateManual beadID username meta nextIteration existingID
      | _ => Ret (Err (Errorf "pouring next wisp for bead %q" [beadID] [e]))
      end
  end.

(** * Stale active wisp recovery *)

(** The iteration after the last processed wisp, when that wisp can be read. *)
Definition nextAfterProcessed (lastProcessedWisp : string) : prog (res (option Z)) :=
  if String.eqb lastProcessedWisp "" then Ret (Ok None) else
  let! r := call (GetBead lastProcessedWisp) in
  match r with
  | Err e => if errors_is_not_found e then Ret (Ok None)
             else Ret (Err (Errorf "reading last processed wisp %q" [lastProcessedWisp] [e]))
  | Ok i => let '(iter, ok) := ParseIterationFromKey (bi_IdempotencyKey i) in
            Ret (Ok (if ok then Some (wrap64 (iter + 1)) else None))
  end.

(** The (BeadInfo, bool) result as an option. *)
Definition recoverCurrentActiveWisp (beadID lastProcessedWisp : string)
  : prog (res (option BeadInfo)) :=
  try! children := call (Children beadID) or "listing children for stale active wisp recovery" in
  try! next := nextAfterProcessed lastProcessedWisp in
  match next with
  | Some nextIter =>
      let nextKey := IdempotencyKey beadID nextIter in
      try! (candidateID, found) := call (FindByIdempotencyKey nextKey)
        else (fun e => Errorf "looking up replacement active wisp %q" [nextKey] [e]) in
      if found : bool then
        let! r := call (GetBead candidateID) in
        match r with
        | Ok wispInfo => Ret (Ok (Some wispInfo))
        | Err e => if errors_is_not_found e then Ret (Ok None)
                   else Ret (Err (Errorf "reading replacement active wisp %q" [candidateID] [e]))
        end
      else Ret (Ok None)
  | None =>
      let stats := childStats children beadID in
      Ret (Ok (if cs_HighestOpenFound stats then Some (cs_HighestOpen stats)
               else if cs_HighestClosedFound stats then Some (cs_HighestClosed stats)
               else None))
  end.

(** Reads the active wisp, replacing a stale reference: the wisp and its info, or
    ["" ] when there is none any more. *)
Definition readActiveWisp (beadID activeWisp lastProcessedWisp ctx : string)
  : prog (res (string * BeadInfo)) :=
  if String.eqb activeWisp "" then Ret (Ok ("", BeadInfoZero)) else
  let! r := call (GetBead activeWisp) in
  match r with
  | Ok wispInfo => Ret (Ok (activeWisp, wispInfo))
  | Err e =>
      if negb (errors_is_not_found e) then Ret (Err (Errorf ctx [activeWisp] [e])) else
      try! rec := recoverCurrentActiveWisp beadID lastProcessedWisp in
      match rec with
      | None => Ret (Ok ("", BeadInfoZero))
      | Some i => Ret (Ok (bi_ID i, i))
      end
  end.

(** * StopHandler *)

(** The variables StopHandler carries from the drain on. *)
Record stopVars : Type := mkStopVars {
  sv_meta : gmap string string;
  sv_state : string;
  sv_active : string;
  sv_last : string
}.

(** Step 2: drains a completed iteration; None when that ended the loop. *)
Definition stopDrain (beadID : string) (v : stopVars) : prog (res (option stopVars)) :=
  try! (activeWisp, wispInfo) :=
    readActiveWisp beadID (sv_active v) (sv_last v) "reading active wisp %q" in
  if negb (String.eqb activeWisp "") && String.eqb (bi_Status wispInfo) "closed" then
    try! _ := HandleWispClosed h beadID activeWisp
      else (fun e => Errorf "draining completed wisp %q" [activeWisp] [e]) in
    try! meta := call (GetMetadata beadID) or "re-reading metadata after drain" in
    if String.eqb (mget meta FieldState) StateTerminated then Ret (Ok None)
    else Ret (Ok (Some (mkStopVars meta (mget meta FieldState) (mget meta FieldActiveWisp)
                          (mget meta FieldLastProcessedWisp))))
  else Ret (Ok (Some (mkStopVars (sv_meta v) (sv_state v) activeWisp (sv_last v)))).

(** Step 3: force-closes the active wisp if it is still open; whether it did. *)
Definition stopForceClose (beadID : string) (v : stopVars) : prog (res (string * bool)) :=
  try! (activeWisp, wispInfo) :=
    readActiveWisp beadID (sv_active v) (sv_last v) "reading active wisp %q for force-close" in
  if negb (String.eqb activeWisp "") && negb (String.eqb (bi_Status wispInfo) "closed") then
    try! _ := call (CloseBead activeWisp CloseReasonManualSupersede)
      else (fun e => Errorf "force-closing active wisp %q" [activeWisp] [e]) in
    Ret (Ok (activeWisp, true))
  else Ret (Ok (activeWisp, false)).

(** Steps 7a to 9. *)
Definition stopPreMarker (beadID actor activeWisp eventWispID priorState : string)
    (forceClosed : bool) (iterationCount cumDur : Z) (meta : gmap string string) : prog (res unit) :=
  let! _ :=
    (if forceClosed && negb (String.eqb activeWisp "") then
       let! durs := computeDurations beadID activeWisp in
       let gateMode := if String.eqb (mget meta FieldGateMode) "" then GateModeManual
                       else mget meta FieldGateMode in
       emitEvent h EventIteration (EventIDIteration beadID iterationCount) beadID
         (PIteration (mkIterationPayload "" iterationCount activeWisp "" gateMode None None 0
            ActionStopped None None (Milliseconds durs.1) (Milliseconds durs.2)))
     else Ret tt) in
  let! _ := emitEvent h EventTerminated (EventIDTerminated beadID) beadID
    (PTerminated (mkTerminatedPayload "" TerminalStopped iterationCount "closed" actor
       (Milliseconds cumDur))) in
  try! _ := call (CloseBead beadID CloseReasonManualStop)
    else (fun e => Errorf "closing bead %q" [beadID] [e]) in
  let! _ := emitEvent h EventManualStop (EventIDManualStop beadID) beadID
    (PManualAction (mkManualActionPayload "" actor priorState StateTerminated iterationCount
       (NullableString eventWispID) None)) in
  Ret (Ok tt).

(** Steps 4 to 10. *)
Definition stopCommit (beadID username : string) (v : stopVars) (activeWisp : string)
    (forceClosed : bool) : prog (res HandlerResult) :=
  let actor := operator username in
  try! iterationCount := deriveIterationCount beadID
    else (fun e => Errorf "deriving iteration count for bead %q" [beadID] [e]) in
  try! _ := call (SetMetadata beadID FieldAgentVerdict "") or "clearing stale agent verdict" in
  try! _ := call (SetMetadata beadID FieldAgentVerdictWisp "")
    or "clearing stale agent verdict wisp" in
  let eventWispID := eventWisp activeWisp (sv_last v) in
  let! durs := computeDurations beadID eventWispID in
  let finalLPW := if forceClosed && negb (String.eqb activeWisp "") then activeWisp
                  else sv_last v in
  try! _ := commit beadID (manualTerminalWrites TerminalStopped actor)
    (Some (stopPreMarker beadID actor activeWisp eventWispID (sv_state v) forceClosed
             iterationCount durs.2 (sv_meta v)))
    (mkMetaWrite FieldLastProcessedWisp finalLPW "setting last processed wisp") in
  Ret (Ok (iteration_result ActionStopped iterationCount)).

Definition stoppable (state : string) : bool :=
  String.eqb state StateActive || String.eqb state StateWaitingManual
  || String.eqb state StateWaitingTrigger.

Definition StopHandler (beadID username : string) : prog (res HandlerResult) :=
  try! meta := call (GetMetadata beadID) else (fun e => Errorf "reading bead %q metadata" [beadID] [e]) in
  let state := mget meta FieldState in
  if String.eqb state StateTerminated && String.eqb (mget meta FieldTerminalReason) TerminalStopped
  then Ret (Ok (action_result ActionStopped)) else
  if negb (stoppable state)
  then Ret (Err (errmsg "cannot stop bead %q: state is %q, expected %q, %q, or %q"
         [beadID; state; StateActive; StateWaitingManual; StateWaitingTrigger])) else
  try! drained := stopDrain beadID
    (mkStopVars meta state (mget meta FieldActiveWisp) (mget meta FieldLastProcessedWisp)) in
  match drained with
  | None => Ret (Ok (action_result ActionStopped))
  | Some v =>
      try! (activeWisp, forceClosed) := stopForceClose beadID v in
      stopCommit beadID username v activeWisp forceClosed
  end.

End Manual.
