(* ===== verification/ConvTrigger.v ===== *)
(** Trigger-gated loops (internal/convergence/trigger.go): evaluating the trigger
    condition of a loop in waiting_trigger and advancing it. *)
From S2P Require Import Prelude GoStd ConvMeta ConvKeys ConvStore ConvFrame ConvGate ConvHandler.
#[local] Open Scope prog_scope.

Section Trigger.
Context `{UnicodeTables} (h : Handler).

Definition TriggerConditionEnv (meta : gmap string string) (beadID cityPath storePath : string)
    (nextIteration : Z) : ConditionEnv :=
  mkConditionEnv beadID nextIteration cityPath storePath "" "" (mget meta (VarPrefix +:+ "doc_path"))
    "" (ArtifactDirFor cityPath beadID nextIteration) 0 0
    (let '(maxIter, ok) := DecodeInt (mget meta FieldMaxIterations) in if ok then maxIter else 0)
    "" "" "".

(** advanceFromTrigger once the wisp is known. *)
Definition advanceTo (rootBeadID : string) (meta : gmap string string) (nextIteration : Z)
    (nextWispID : string) : prog (res HandlerResult) :=
  try! _ := call (ActivateWisp nextWispID)
    else (fun e => Errorf "activating wisp %q" [nextWispID] [e]) in
  try! _ := write_all rootBeadID
    [ mkMetaWrite FieldIteration (EncodeInt nextIteration) "setting iteration";
      mkMetaWrite FieldActiveWisp nextWispID "setting active wisp";
      mkMetaWrite FieldState StateActive "setting state to active" ] in
  let! _ := emitEvent h EventTriggerAdvance (EventIDTriggerAdvance rootBeadID nextIteration)
    rootBeadID
    (PManualAction (mkManualActionPayload "" "controller" StateWaitingTrigger StateActive
       nextIteration (NullableString (mget meta FieldLastProcessedWisp))
       (NullableString nextWispID))) in
  Ret (Ok (mkHandlerResult ActionIterate nextIteration "" nextWispID "")).

Definition advanceFromTrigger (rootBeadID : string) (meta : gmap string string)
    (nextIteration : Z) : prog (res HandlerResult) :=
  let nextKey := IdempotencyKey rootBeadID nextIteration in
  let! r := call (PourWisp rootBeadID (mget meta FieldFormula) nextKey (ExtractVars meta)
                    (mget meta FieldEvaluatePrompt)) in
  match r with
  | Ok nextWispID => advanceTo rootBeadID meta nextIteration nextWispID
  | Err e =>
      let! f := call (FindByIdempotencyKey nextKey) in
      match f with
      | Ok (existingID, true) => advanceTo rootBeadID meta nextIteration existingID
      | _ => Ret (Err (Errorf "pouring wisp for iteration %d" [Itoa nextIteration] [e]))
      end
  end.

(** The defence in depth: an iteration past a positive limit. *)
Definition overLimit (meta : gmap string string) (nextIteration : Z) : bool :=
  let '(maxIter, ok) := DecodeInt (mget meta FieldMaxIterations) in
  ok && (0 <? maxIter) && (maxIter <? nextIteration).

Definition HandleTrigger (rootBeadID : string) : prog (res HandlerResult) :=
  try! meta := call (GetMetadata rootBeadID) or "reading root bead metadata" in
  if negb (String.eqb (mget meta FieldState) StateWaitingTrigger)
  then Ret (Ok (action_result ActionSkipped)) else
  match ParseTriggerConfig meta with
  | Err e => Ret (Err (wrap "parsing trigger config" e))
  | Ok triggerConfig =>
  if negb (trigger_Enabled triggerConfig)
  then Ret (Err (errmsg "bead %q is in %s but has no trigger configured"
                   [rootBeadID; StateWaitingTrigger])) else
  match ParseGateConfig meta with
  | Err e => Ret (Err (wrap "parsing gate config" e))
  | Ok gateConfig =>
  try! closedIterations := deriveIterationCount rootBeadID or "deriving iteration count" in
  let cityPath := mget meta FieldCityPath in
  let nextIteration := wrap64 (closedIterations + 1) in
  if overLimit meta nextIteration
  then Ret (Err (errmsg "trigger-gated loop %q at iteration %d exceeds max_iterations %d; refusing to advance"
         [rootBeadID; Itoa nextIteration; Itoa (DecodeInt (mget meta FieldMaxIterations)).1])) else
  let env := TriggerConditionEnv meta rootBeadID cityPath (h_StorePath h) nextIteration in
  let! result := RunCondition (tc_Condition triggerConfig) env (gc_Timeout gateConfig) 0 in
  if negb (String.eqb (gr_Outcome result) GatePass)
  then Ret (Ok (action_result ActionSkipped))
  else advanceFromTrigger rootBeadID meta nextIteration
  end
  end.

End Trigger.
