(* ===== verification/ConvReconcile.v ===== *)
(** Startup recovery of convergence loops (internal/convergence/reconcile.go): each
    bead that was in progress when the controller stopped is brought back to a state
    from which normal processing continues. *)
From S2P Require Import Prelude GoStd ConvMeta ConvKeys ConvStore ConvFrame ConvGate ConvHandler.
From S2P Require Import ConvManual.
#[local] Open Scope prog_scope.

Definition ActionNoAction : string := "no_action".
Definition ActionCompletedTerminal : string := "completed_terminal".
Definition ActionAdoptedWisp : string := "adopted_wisp".
Definition ActionPouredWisp : string := "poured_wisp".
Definition ActionRepairedState : string := "repaired_state".

Record ReconcileDetail : Type := mkReconcileDetail {
  rd_BeadID : string; rd_Action : string; rd_Error : option error
}.
Record ReconcileReport : Type := mkReconcileReport {
  rp_Scanned : Z; rp_Recovered : Z; rp_Errors : Z; rp_Details : list ReconcileDetail
}.

(** A recovery path returns an action and an error, both always present. *)
Definition rresult : Type := string * option error.
Definition finished (action : string) : prog rresult := Ret (action, None).
Definition failed (action : string) (e : error) : prog rresult := Ret (action, Some e).

(** if err != nil { return action, fmt.Errorf("ctx: %w", err) } *)
Notation "'try_as!' action x ':=' p 'or' ctx 'in' q" :=
  (bind p (fun r => match r with Ok x => q | Err e => failed action (wrap ctx e) end))
  (at level 10, action at level 0, x pattern, p at level 100, ctx at level 0, q at level 200)
  : prog_scope.
(** The same with the error built from err by [f]. *)
Notation "'try_as!' action x ':=' p 'else' f 'in' q" :=
  (bind p (fun r => match r with Ok x => q | Err e => failed action (f e) end))
  (at level 10, action at level 0, x pattern, p at level 100, f at level 100, q at level 200)
  : prog_scope.

Section Reconcile.
Context `{UnicodeTables} (h : Handler).

Definition emitRecoveryEvent : string -> string -> string -> Payload -> prog unit := emit h true.

Definition backfillTerminalActor (beadID : string) (meta : gmap string string) : prog (res unit) :=
  if negb (String.eqb (mget meta FieldTerminalActor) "") then Ret (Ok tt)
  else call (SetMetadata beadID FieldTerminalActor "recovery").

(** children, _ := Children(beadID): an error reads as no children. *)
Definition childrenStats (beadID : string) : prog ChildStats :=
  let! r := call (Children beadID) in
  Ret (childStats (match r with Ok children => children | Err _ => [] end) beadID).

Definition terminalActor (meta : gmap string string) : string :=
  if String.eqb (mget meta FieldTerminalActor) "" then "recovery" else mget meta FieldTerminalActor.

Definition recoveryTerminated (beadID reason actor : string) (stats : ChildStats) : prog unit :=
  emitRecoveryEvent EventTerminated (EventIDTerminated beadID) beadID
    (PTerminated (mkTerminatedPayload "" reason (cs_ClosedCount stats) "closed" actor
       (Milliseconds (cs_CumulativeDur stats)))).

Definition completeTerminalTransition (beadID : string) (meta : gmap string string) : prog rresult :=
  try_as! ActionCompletedTerminal _ := backfillTerminalActor beadID meta
    or "backfilling terminal_actor" in
  let! stats := childrenStats beadID in
  let! _ := recoveryTerminated beadID (mget meta FieldTerminalReason) (terminalActor meta) stats in
  try_as! ActionCompletedTerminal _ :=
    (if negb (String.eqb (mget meta FieldState) StateTerminated)
     then call (SetMetadata beadID FieldState StateTerminated) else Ret (Ok tt))
    or "setting state to terminated" in
  try_as! ActionCompletedTerminal _ := call (CloseBead beadID CloseReasonReconcileDone)
    or "closing bead" in
  let! _ :=
    (if cs_HighestClosedFound stats
     then (ignore! call (SetMetadata beadID FieldLastProcessedWisp
                           (bi_ID (cs_HighestClosed stats))) in Ret tt)
     else Ret tt) in
  finished ActionCompletedTerminal.

(** Path 1a. *)
Definition reconcileMissingState (beadID : string) (meta : gmap string string) : prog rresult :=
  let key1 := IdempotencyKey beadID 1 in
  try_as! ActionNoAction (existingID, found) := call (FindByIdempotencyKey key1)
    or "looking up iter-1 wisp" in
  if found : bool then
    try_as! ActionAdoptedWisp wispInfo := call (GetBead existingID)
      else (fun e => Errorf "reading wisp %q info" [existingID] [e]) in
    let closed := String.eqb (bi_Status wispInfo) "closed" in
    try_as! ActionAdoptedWisp _ := call (SetMetadata beadID FieldActiveWisp existingID)
      or "setting active_wisp" in
    try_as! ActionAdoptedWisp _ :=
      call (SetMetadata beadID FieldIteration (EncodeInt (if closed then 1 else 0)))
      or "setting iteration" in
    try_as! ActionAdoptedWisp _ := call (SetMetadata beadID FieldState StateActive)
      or "setting state" in
    if closed then
      try_as! ActionAdoptedWisp _ := HandleWispClosed h beadID existingID
        else (fun e => Errorf "replaying wisp_closed for adopted wisp %q" [existingID] [e]) in
      finished ActionAdoptedWisp
    else finished ActionAdoptedWisp
  else
    try_as! ActionPouredWisp wispID :=
      call (PourWisp beadID (mget meta FieldFormula) key1 (ExtractVars meta)
              (mget meta FieldEvaluatePrompt))
      or "pouring first wisp" in
    try_as! ActionPouredWisp _ := call (SetMetadata beadID FieldActiveWisp wispID)
      or "setting active_wisp" in
    try_as! ActionPouredWisp _ := call (SetMetadata beadID FieldIteration (EncodeInt 0))
      or "setting iteration" in
    try_as! ActionPouredWisp _ := call (SetMetadata beadID FieldState StateActive)
      or "setting state" in
    finished ActionPouredWisp.

(** Path 1b. *)
Definition reconcileCreating (beadID : string) : prog rresult :=
  try_as! ActionCompletedTerminal _ :=
    call (SetMetadata beadID FieldTerminalReason TerminalPartialCreation)
    or "setting terminal_reason" in
  try_as! ActionCompletedTerminal _ := call (SetMetadata beadID FieldTerminalActor "recovery")
    or "setting terminal_actor" in
  try_as! ActionCompletedTerminal _ := call (SetMetadata beadID FieldState StateTerminated)
    or "setting state to terminated" in
  try_as! ActionCompletedTerminal _ := call (CloseBead beadID CloseReasonReconcileDone)
    or "closing bead" in
  finished ActionCompletedTerminal.

(** Path 2. *)
Definition reconcileTerminatedNotClosed (beadID : string) (meta : gmap string string)
  : prog rresult :=
  try_as! ActionNoAction beadInfo := call (GetBead beadID) or "reading bead info" in
  if String.eqb (bi_Status beadInfo) "closed" then finished ActionNoAction else
  try_as! ActionCompletedTerminal _ := backfillTerminalActor beadID meta
    or "backfilling terminal_actor" in
  let! stats := childrenStats beadID in
  let reason := if String.eqb (mget meta FieldTerminalReason) "" then TerminalNoConvergence
                else mget meta FieldTerminalReason in
  let! _ := recoveryTerminated beadID reason (terminalActor meta) stats in
  try_as! ActionCompletedTerminal _ := call (CloseBead beadID CloseReasonReconcileDone)
    or "closing bead" in
  finished ActionCompletedTerminal.

(** Path 3. *)
Definition reconcileWaitingManual (beadID : string) (meta : gmap string string) : prog rresult :=
  let waitingReason := mget meta FieldWaitingReason in
  if negb (String.eqb (mget meta FieldTerminalReason) "")
  then completeTerminalTransition beadID meta
  else if negb (String.eqb waitingReason "") then
    let iteration := (DecodeInt (mget meta FieldIteration)).1 in
    let wispID := mget meta FieldLastProcessedWisp in
    let! r := call (Children beadID) in
    let stats := childStats (match r with Ok cs => cs | Err _ => [] end) beadID in
    let! _ := emitRecoveryEvent EventWaitingManual (EventIDWaitingManual beadID iteration) beadID
      (PWaitingManual (mkWaitingManualPayload "" iteration wispID "" (mget meta FieldGateMode)
         None None waitingReason 0 (Milliseconds (cs_CumulativeDur stats)))) in
    match r with
    | Err e => failed ActionNoAction (wrap "listing children" e)
    | Ok _ =>
        if cs_HighestClosedFound stats
           && negb (String.eqb (mget meta FieldLastProcessedWisp) (bi_ID (cs_HighestClosed stats)))
        then
          try_as! ActionRepairedState _ :=
            call (SetMetadata beadID FieldLastProcessedWisp (bi_ID (cs_HighestClosed stats)))
            or "repairing last_processed_wisp" in
          finished ActionRepairedState
        else finished ActionNoAction
    end
  else
    try_as! ActionNoAction children := call (Children beadID) or "listing children" in
    if cs_HighestClosedFound (childStats children beadID) then
      try_as! ActionRepairedState _ := call (SetMetadata beadID FieldWaitingReason WaitManual)
        or "setting default waiting_reason" in
      finished ActionRepairedState
    else finished ActionNoAction.

(** Path 3t. *)
Definition reconcileWaitingTrigger (beadID : string) (meta : gmap string string) : prog rresult :=
  if negb (String.eqb (mget meta FieldTerminalReason) "")
  then completeTerminalTransition beadID meta else finished ActionNoAction.

(** Path 4, with a live or recovered active wisp. *)
Definition reconcileActiveWisp (beadID : string) (meta : gmap string string) (activeWispID : string)
    (wispInfo : BeadInfo) (recovered : bool) : prog rresult :=
  try_as! ActionRepairedState _ :=
    (if recovered then call (SetMetadata beadID FieldActiveWisp activeWispID) else Ret (Ok tt))
    else (fun e => Errorf "setting recovered active wisp %q" [activeWispID] [e]) in
  let status := bi_Status wispInfo in
  if String.eqb status "open" || String.eqb status "in_progress" then
    finished (if recovered then ActionRepairedState else ActionNoAction)
  else if String.eqb status "closed" then
    if String.eqb (mget meta FieldLastProcessedWisp) activeWispID then finished ActionNoAction
    else
      try_as! ActionRepairedState _ := HandleWispClosed h beadID activeWispID
        else (fun e => Errorf "replaying wisp_closed for %q" [activeWispID] [e]) in
      finished ActionRepairedState
  else failed ActionNoAction (errmsg "active wisp %q has unexpected status %q" [activeWispID; status]).

(** Path 4, without an active wisp: the next wisp and what was done to get it. *)
Definition nextWisp (beadID : string) (meta : gmap string string) (nextIter : Z)
  : prog (string * res string) :=
  let nextKey := IdempotencyKey beadID nextIter in
  let! pendingID := validPendingNextWisp beadID nextKey (mget meta FieldPendingNextWisp) in
  if negb (String.eqb pendingID "") then Ret (ActionAdoptedWisp, Ok pendingID) else
  let! f := call (FindByIdempotencyKey nextKey) in
  match f with
  | Err e => Ret (ActionNoAction, Err (wrap "looking up next wisp" e))
  | Ok (existingID, true) => Ret (ActionAdoptedWisp, Ok existingID)
  | Ok (_, false) =>
      let! r := call (PourWisp beadID (mget meta FieldFormula) nextKey (ExtractVars meta)
                        (mget meta FieldEvaluatePrompt)) in
      Ret (ActionPouredWisp, match r with
           | Ok id => Ok id
           | Err e => Err (Errorf "pouring wisp for iter %d" [Itoa nextIter] [e])
           end)
  end.

Definition reconcileChain (beadID : string) (meta : gmap string string) : prog rresult :=
  try_as! ActionNoAction children := call (Children beadID) or "listing children" in
  let closedIter := cs_ClosedCount (childStats children beadID) in
  let! (action, r) := nextWisp beadID meta (wrap64 (closedIter + 1)) in
  match r with
  | Err e => failed action e
  | Ok wispID =>
      try_as! action _ := call (ActivateWisp wispID)
        else (fun e => Errorf "activating wisp %q" [wispID] [e]) in
      try_as! action _ := call (SetMetadata beadID FieldActiveWisp wispID)
        or "setting active_wisp" in
      ignore! call (SetMetadata beadID FieldPendingNextWisp "") in
      finished action
  end.

(** Path 4. *)
Definition reconcileActive (beadID : string) (meta : gmap string string) : prog rresult :=
  if negb (String.eqb (mget meta FieldTerminalReason) "")
  then completeTerminalTransition beadID meta else
  let activeWispID := mget meta FieldActiveWisp in
  if String.eqb activeWispID "" then reconcileChain beadID meta else
  let! r := call (GetBead activeWispID) in
  match r with
  | Ok wispInfo => reconcileActiveWisp beadID meta activeWispID wispInfo false
  | Err e =>
      if negb (errors_is_not_found e)
      then failed ActionNoAction (Errorf "reading active wisp %q" [activeWispID] [e]) else
      let! rec := recoverCurrentActiveWisp beadID (mget meta FieldLastProcessedWisp) in
      match rec with
      | Err e' => failed ActionNoAction e'
      | Ok None => reconcileChain beadID meta
      | Ok (Some i) =>
          if String.eqb (bi_ID i) "" then reconcileChain beadID meta
          else reconcileActiveWisp beadID meta (bi_ID i) i true
      end
  end.

Definition reconcileState (beadID : string) : prog rresult :=
  try_as! ActionNoAction meta := call (GetMetadata beadID) or "reading metadata" in
  let state := mget meta FieldState in
  if String.eqb state "" then reconcileMissingState beadID meta
  else if String.eqb state StateCreating then reconcileCreating beadID
  else if String.eqb state StateTerminated then reconcileTerminatedNotClosed beadID meta
  else if String.eqb state StateWaitingManual then reconcileWaitingManual beadID meta
  else if String.eqb state StateWaitingTrigger then reconcileWaitingTrigger beadID meta
  else if String.eqb state StateActive then reconcileActive beadID meta
  else failed ActionNoAction (errmsg "unknown convergence state %q" [state]).

Definition reconcileBead (beadID : string) : prog ReconcileDetail :=
  let! (action, err) := reconcileState beadID in
  Ret (mkReconcileDetail beadID action err).

Definition add_detail (report : ReconcileReport) (d : ReconcileDetail) : ReconcileReport :=
  mkReconcileReport (rp_Scanned report)
    (rp_Recovered report
       + match rd_Error d with
         | None => if String.eqb (rd_Action d) ActionNoAction then 0 else 1
         | Some _ => 0
         end)
    (rp_Errors report + match rd_Error d with Some _ => 1 | None => 0 end)
    (rp_Details report ++ [d]).

Fixpoint reconcile_all (beadIDs : list string) (report : ReconcileReport) : prog ReconcileReport :=
  match beadIDs with
  | [] => Ret report
  | id :: ids =>
      let! detail := reconcileBead id in
      reconcile_all ids (add_detail report detail)
  end.

Definition ReconcileBeads (beadIDs : list string) : prog ReconcileReport :=
  reconcile_all beadIDs (mkReconcileReport (Z.of_nat (length beadIDs)) 0 0 []).

End Reconcile.
