(* ===== verification/ConvMachine.v ===== *)
(** The convergence loop as a state machine: every operation of the controller and of
    the operators (handler.go, manual.go, trigger.go, reconcile.go), interrupted
    anywhere, moves the state of a root bead along the abstract machine [loop_step],
    and over any history of operations, crashes and agent activity the terminated state
    and its reason are final. *)
From S2P Require Import Prelude GoStd ConvMeta ConvKeys ConvStore ConvFrame ConvGate ConvHandler.
From S2P Require Import ConvHandlerFacts ConvTransitions ConvWisp ConvManual ConvTrigger.
From S2P Require Import ConvReconcile RefStore.
#[local] Open Scope prog_scope.

(** * Operations on one loop *)

Inductive op : Type :=
| OpWispClosed (wisp : string)
| OpApprove (user : string)
| OpIterate (user : string)
| OpStop (user : string)
| OpTrigger
| OpReconcile.

(** Runs a program for its effect. *)
Definition effect {A} (p : prog A) : prog unit := let! _ := p in Ret tt.

Definition op_prog `{UnicodeTables} (h : Handler) (root : string) (o : op) : prog unit :=
  match o with
  | OpWispClosed wisp => effect (HandleWispClosed h root wisp)
  | OpApprove user => effect (ApproveHandler h root user)
  | OpIterate user => effect (IterateHandler h root user)
  | OpStop user => effect (StopHandler h root user)
  | OpTrigger => effect (HandleTrigger h root)
  | OpReconcile => effect (reconcileState h root)
  end.

(** * The abstract machine *)

Definition settledStates : list string :=
  [StateWaitingManual; StateWaitingTrigger; StateTerminated].

Inductive loop_step : op -> string -> string -> Prop :=
| step_stay o s : loop_step o s s
| step_closed wisp s s' :
    s <> StateTerminated -> s' ∈ settledStates -> loop_step (OpWispClosed wisp) s s'
| step_approve user : loop_step (OpApprove user) StateWaitingManual StateTerminated
| step_iterate user : loop_step (OpIterate user) StateWaitingManual StateActive
| step_stop user s s' : stoppable s = true -> s' ∈ settledStates -> loop_step (OpStop user) s s'
| step_trigger : loop_step OpTrigger StateWaitingTrigger StateActive
| step_recover_missing s' : s' ∈ StateActive :: settledStates -> loop_step OpReconcile "" s'
| step_recover_creating : loop_step OpReconcile StateCreating StateTerminated
| step_recover_active s' : s' ∈ settledStates -> loop_step OpReconcile StateActive s'
| step_recover_waiting s :
    s ∈ [StateWaitingManual; StateWaitingTrigger] -> loop_step OpReconcile s StateTerminated.

(** * Programs that move the state only to given values *)

Section Moves.
Context (root : string).

Definition moved (V : list string) (w w' : World) : Prop :=
  top_level w' root
  /\ (field w' root FieldState = field w root FieldState \/ field w' root FieldState ∈ V).
Definition moves {A} (V : list string) (p : prog A) : Prop :=
  forall w, top_level w root -> wpc p (fun _ w' => moved V w w') (moved V w) w.

Lemma moved_trans V w1 w2 w3 : moved V w1 w2 -> moved V w2 w3 -> moved V w1 w3.
Proof. intros [_ H1] [T H2]. split; [done|]. destruct H2 as [->|]; [done|by right]. Qed.

Lemma moved_frame V K w w' :
  top_level w root -> root_frame root K w w' -> FieldState ∉ K -> moved V w w'.
Proof.
  intros Ht F HK. split; [by eapply root_frame_top_level|]. left.
  by apply (root_frame_field _ _ _ _ _ F).
Qed.

Lemma moves_ret {A} V (a : A) : moves V (Ret a).
Proof. intros w Ht. apply wpc_ret; (split; [done|by left]). Qed.

Lemma moves_bind {A B} V (p : prog A) (f : A -> prog B) :
  moves V p -> (forall a, moves V (f a)) -> moves V (bind p f).
Proof.
  intros Hp Hf w Ht. eapply wpc_seq; [by apply Hp|done|]. intros a w1 M _.
  eapply wpc_conseq; [apply Hf, M| |]; simpl; eauto using moved_trans.
Qed.

Lemma moves_keeps {A} V K (p : prog A) Q : specs root K p Q -> FieldState ∉ K -> moves V p.
Proof.
  intros Hp HK w Ht. eapply wpc_conseq; [by apply Hp| |]; simpl.
  - intros w' F. by eapply moved_frame.
  - intros a w' F _. by eapply moved_frame.
Qed.

Lemma moves_set V v : v ∈ V -> moves V (call (SetMetadata root FieldState v)).
Proof.
  intros Hv w Ht. assert (He := top_level_exists _ _ Ht).
  apply wpc_op; [split; [done|by left]|]. intros r w' Hst.
  apply set_metadata_cases in Hst as [F Hc]; [|done|done].
  assert (M : moved V w w').
  { split; [by eapply root_frame_top_level|]. destruct Hc as [->|[_ ->]]; auto. }
  by apply wpc_ret.
Qed.

Lemma moves_write_all V ws :
  (forall m, m ∈ ws -> mw_key m = FieldState -> mw_value m ∈ V) -> moves V (write_all root ws).
Proof.
  induction ws as [|m ws IH]; intros HV; simpl; [apply moves_ret|]. apply moves_bind.
  - destruct (decide (mw_key m = FieldState)) as [Hk|Hn].
    + rewrite Hk. apply moves_set. apply HV; set_solver.
    + apply (moves_keeps V [mw_key m] _ (fun _ => True)); [|set_solver].
      apply keeps_call, framed_set. set_solver.
  - intros [_|e]; [|apply moves_ret]. apply IH. intros m' Hm'. apply HV. set_solver.
Qed.

Lemma moves_commit V ws pre m :
  (forall m', m' ∈ ws -> mw_key m' = FieldState -> mw_value m' ∈ V) ->
  mw_key m <> FieldState ->
  match pre with None => True | Some p => keeps root [] p end ->
  moves V (commit root ws pre m).
Proof.
  intros HV Hm Hpre. unfold commit. apply moves_bind; [by apply moves_write_all|].
  intros [_|e]; [|apply moves_ret]. apply moves_bind.
  - destruct pre as [p|]; [|apply moves_ret].
    apply (moves_keeps V [] _ (fun _ => True)); [done|set_solver].
  - intros [_|e]; [|apply moves_ret]. destruct (String.eqb _ _); [apply moves_ret|].
    apply (moves_keeps V [mw_key m] _ (fun _ => True)); [|set_solver]. specs_tac. set_solver.
Qed.

Lemma moves_mono {A} V V' (p : prog A) : (forall v, v ∈ V -> v ∈ V') -> moves V p -> moves V' p.
Proof.
  intros HV Hp w Ht. assert (Hm : forall w', moved V w w' -> moved V' w w').
  { intros w' [T [?|?]]; split; auto. }
  eapply wpc_conseq; [by apply Hp| |]; simpl; eauto.
Qed.

Lemma moves_specs {A B} V K (p : prog A) (f : A -> prog B) Q :
  specs root K p Q -> FieldState ∉ K -> (forall a, Q a -> moves V (f a)) -> moves V (bind p f).
Proof.
  intros Hp HK Hf w Ht. eapply wpc_specs; [exact Hp|done| |].
  - intros w' F. by eapply moved_frame.
  - intros a w1 F Ht1 Ha. assert (M := moved_frame V K w w1 Ht F HK).
    eapply wpc_conseq; [by apply Hf| |]; simpl; eauto using moved_trans.
Qed.

(** An operation that starts by reading the metadata. *)
Lemma wpc_get_meta {A} (f : res (gmap string string) -> prog A) Q (I : World -> Prop) w :
  top_level w root -> I w ->
  (forall e w1, root_frame root [] w w1 -> top_level w1 root -> wpc (f (Err e)) Q I w1) ->
  (forall meta w1, root_frame root [] w w1 -> top_level w1 root -> snapshot w root meta ->
     wpc (f (Ok meta)) Q I w1) ->
  wpc (bind (call (GetMetadata root)) f) Q I w.
Proof.
  intros Ht HI HE HO. assert (He := top_level_exists _ _ Ht). apply wpc_call; [done|].
  intros r w1 Hst. assert (F := Hst). apply (env_step_frame root) in F; [|done|done].
  assert (Ht1 := root_frame_top_level _ _ _ _ F Ht).
  destruct r as [meta|e]; [|by apply HE]. apply HO; [done|done|].
  apply get_metadata_ok in Hst as [_ Hs]. exact (Hs He).
Qed.

End Moves.

(** The root keys handlers write beside the state. *)
Definition quietKeys : list string :=
  FieldActiveWisp :: FieldWaitingReason :: FieldTerminalReason :: FieldTerminalActor
  :: FieldLastProcessedWisp :: sideKeys.

Ltac in_values := set_unfold; naive_solver.
Ltac moves_step :=
  match goal with
  | |- moves _ _ (let _ := _ in _) => cbv zeta
  | |- moves _ _ (Ret _) => apply moves_ret
  | |- moves _ _ (bind (Ret ?a) ?f) => change (bind (Ret a) f) with (f a); cbv beta iota
  | |- moves _ _ (bind (match ?x with _ => _ end) _) => destruct x eqn:?
  | |- moves _ _ (match ?x with _ => _ end) => destruct x eqn:?
  | |- moves _ _ (bind (bind _ _) _) => apply moves_bind
  | |- moves _ _ (bind (commit _ _ _ _) _) =>
      apply moves_bind; [apply moves_commit; [in_values|done|solve [eauto with frame|specs_tac]]|]
  | |- moves _ _ (bind (write_all _ _) _) => apply moves_bind; [apply moves_write_all; in_values|]
  | |- moves _ _ (bind (call (SetMetadata _ FieldState _)) _) =>
      apply moves_bind; [apply moves_set; in_values|]
  | |- moves _ _ (call (SetMetadata _ FieldState _)) => apply moves_set; in_values
  | |- moves _ _ (bind (call _) _) =>
      apply moves_bind;
        [apply (moves_keeps _ _ quietKeys _ (fun _ => True));
           [apply keeps_call; framed_call_tac|key_mem]|]
  | |- moves _ _ (bind _ _) =>
      apply moves_bind;
        [first [solve [eauto with moves]
               |apply (moves_keeps _ _ quietKeys _ (fun _ => True));
                  [solve [eauto with frame]|key_mem]]|]
  | |- moves _ _ _ =>
      first [solve [eauto with moves]
            |apply (moves_keeps _ _ quietKeys _ (fun _ => True)); [solve [eauto with frame]|key_mem]]
  | |- forall _, _ => intro
  end.
Create HintDb moves.
Ltac moves_tac := repeat moves_step.

Section Machine.
Context `{UnicodeTables} (h : Handler) (root : string).

Lemma waitingManual_moves wisp n cfg gr reason out meta :
  moves root settledStates (transitionToWaitingManual h root wisp n cfg gr reason out meta).
Proof. unfold transitionToWaitingManual, emitEvent. moves_tac. Qed.

Lemma iterate_adopt_moves wisp n cfg gr meta next :
  moves root settledStates (iterate_adopt h root wisp n cfg gr meta next).
Proof. unfold iterate_adopt, emitEvent. moves_tac. Qed.

Lemma waitingTrigger_moves wisp n cfg gr meta :
  moves root settledStates (transitionToWaitingTrigger h root wisp n cfg gr meta).
Proof. unfold transitionToWaitingTrigger, emitEvent. moves_tac. Qed.

Lemma terminate_moves wisp n cfg gr reason actor g meta :
  moves root settledStates (terminate h root wisp n cfg gr reason actor g meta).
Proof. unfold terminate, emitEvent. moves_tac. Qed.

End Machine.
#[export] Hint Resolve waitingManual_moves iterate_adopt_moves waitingTrigger_moves
  terminate_moves : moves.

Section Ops.
Context `{UnicodeTables} (h : Handler) (root : string).

Lemma outcomeStep_moves wisp n g max cfg trig gr meta spec perr :
  spec <> root ->
  moves root settledStates (outcomeStep h root wisp n g max cfg trig gr meta spec perr).
Proof. intros Hs. unfold outcomeStep, iterate, handleSlingFailure. moves_tac. Qed.

Lemma gateStep_moves wisp n skip cfg meta spec :
  spec <> root -> moves root settledStates (gateStep h root wisp n skip cfg meta spec).
Proof. intros Hs. unfold gateStep. moves_tac. Qed.

Lemma processWisp_moves wisp n g cfg trig meta :
  root <> "" -> moves root settledStates (processWisp h root wisp n g cfg trig meta).
Proof.
  intros Hr. unfold processWisp. destruct (_ && _ && _).
  - eapply (moves_specs _ _ quietKeys);
      [apply validPendingNextWisp_keeps; [done|key_mem]|key_mem|]. intros p Hp. moves_tac.
  - eapply (moves_specs _ _ quietKeys);
      [apply speculativePour_keeps; [done|done|key_mem]|key_mem|].
    intros [[spec perr]|e] Hn; [|apply moves_ret]. assert (Hs : spec <> root) by (by eapply Hn).
    apply moves_bind; [by apply gateStep_moves|].
    intros [[x|gr]|e]; [apply moves_ret|by apply outcomeStep_moves|apply moves_ret].
Qed.

Lemma HandleWispClosed_moves wisp :
  root <> "" -> moves root settledStates (HandleWispClosed h root wisp).
Proof.
  intros Hr. unfold HandleWispClosed.
  assert (Hp := fun n g cfg trig meta => processWisp_moves wisp n g cfg trig meta Hr). moves_tac.
Qed.

Lemma recoverCurrentActiveWisp_keeps K id lpw : keeps root K (recoverCurrentActiveWisp id lpw).
Proof.
  unfold recoverCurrentActiveWisp, nextAfterProcessed. specs_tac.
Qed.
Lemma readActiveWisp_keeps K id a lpw c : keeps root K (readActiveWisp id a lpw c).
Proof. assert (Hr := recoverCurrentActiveWisp_keeps). unfold readActiveWisp. specs_tac. Qed.
#[local] Hint Resolve recoverCurrentActiveWisp_keeps readActiveWisp_keeps : frame.

Lemma stopForceClose_keeps K v : keeps root K (stopForceClose root v).
Proof. unfold stopForceClose. specs_tac. Qed.
#[local] Hint Resolve stopForceClose_keeps : frame.

Lemma stopPreMarker_keeps K actor a e p f n d meta :
  keeps root K (stopPreMarker h root actor a e p f n d meta).
Proof. unfold stopPreMarker, emitEvent. specs_tac. Qed.
Lemma approvePreMarker_keeps K actor e n d : keeps root K (approvePreMarker h root actor e n d).
Proof. unfold approvePreMarker, emitEvent. specs_tac. Qed.
#[local] Hint Resolve stopPreMarker_keeps approvePreMarker_keeps : frame.

Lemma stopCommit_moves user v a f : moves root settledStates (stopCommit h root user v a f).
Proof. unfold stopCommit. moves_tac. Qed.

Lemma stopDrain_moves v : root <> "" -> moves root settledStates (stopDrain h root v).
Proof. intros Hr. assert (Hc := fun w => HandleWispClosed_moves w Hr). unfold stopDrain. moves_tac. Qed.

Lemma completeTerminalTransition_moves meta :
  moves root [StateTerminated] (completeTerminalTransition h root meta).
Proof.
  unfold completeTerminalTransition, backfillTerminalActor, childrenStats, recoveryTerminated,
    emitRecoveryEvent, failed, finished. moves_tac.
Qed.

(** [steps o w p]: from here on, [p] keeps the state along [o] as seen from [w]. *)
Definition follows (o : op) (w w' : World) : Prop :=
  top_level w' root /\ loop_step o (field w root FieldState) (field w' root FieldState).

Lemma moves_follows {A} V (p : prog A) o w w1 :
  moves root V p -> top_level w1 root -> field w1 root FieldState = field w root FieldState ->
  (forall v, v ∈ V -> loop_step o (field w root FieldState) v) ->
  wpc p (fun _ w' => follows o w w') (follows o w) w1.
Proof.
  intros Hp Ht Hs HV. assert (Hm : forall w', moved root V w1 w' -> follows o w w').
  { intros w' [T [E|E]]; (split; [done|]); [|by apply HV]. rewrite E, Hs. constructor. }
  eapply wpc_conseq; [by apply Hp| |]; simpl; eauto.
Qed.

Lemma effect_follows {A} (p : prog A) o w :
  wpc p (fun _ w' => follows o w w') (follows o w) w ->
  wpc (effect p) (fun _ w' => follows o w w') (follows o w) w.
Proof.
  intros Hp. apply wpc_bind. eapply wpc_conseq; [exact Hp|done|].
  intros a w' HI HQ. by apply wpc_ret.
Qed.

(** After the metadata is read: the state it shows, and the rest of the operation. *)
Lemma follows_get_meta {A} (f : res (gmap string string) -> prog A) o w :
  top_level w root -> (forall e, moves root [] (f (Err e))) ->
  (forall meta, mget meta FieldState = field w root FieldState ->
     exists V, moves root V (f (Ok meta))
               /\ forall v, v ∈ V -> loop_step o (mget meta FieldState) v) ->
  wpc (bind (call (GetMetadata root)) f) (fun _ w' => follows o w w') (follows o w) w.
Proof.
  intros Ht HE HO. apply wpc_get_meta; [done|split; [done|constructor]| |].
  - intros e w1 F Ht1. apply (moves_follows []); [done|done| |set_solver].
    apply (root_frame_field _ _ _ _ _ F); [done|set_solver].
  - intros meta w1 F Ht1 Hs. assert (E : mget meta FieldState = field w root FieldState)
      by (by apply Hs). destruct (HO meta E) as (V & Hm & HV).
    apply (moves_follows V); [done|done| |by rewrite <- E].
    apply (root_frame_field _ _ _ _ _ F); [done|set_solver].
Qed.

Ltac eqb_cases :=
  repeat match goal with
  | |- context [String.eqb ?a ?b] =>
      let E := fresh "E" in destruct (String.eqb_spec a b) as [E|E]; cbn [negb andb orb]
  end.

Lemma approve_follows user w :
  top_level w root ->
  wpc (ApproveHandler h root user) (fun _ w' => follows (OpApprove user) w w')
    (follows (OpApprove user) w) w.
Proof.
  intros Ht. apply follows_get_meta; [done|moves_tac|]. intros meta _.
  destruct (String.eqb_spec (mget meta FieldState) StateWaitingManual) as [->|Hn].
  - exists [StateTerminated]. split; [moves_tac|]. intros v ->%list_elem_of_singleton. constructor.
  - exists []. split; [|set_solver]. apply String.eqb_neq in Hn. cbv beta zeta iota. rewrite ?Hn. cbn [negb andb]. moves_tac.
Qed.

Lemma iterateManual_moves user meta n next :
  moves root [StateActive] (iterateManual h root user meta n next).
Proof. unfold iterateManual, emitEvent. moves_tac. Qed.
#[local] Hint Resolve iterateManual_moves : moves.

Lemma iterate_follows user w :
  top_level w root ->
  wpc (IterateHandler h root user) (fun _ w' => follows (OpIterate user) w w')
    (follows (OpIterate user) w) w.
Proof.
  intros Ht. apply follows_get_meta; [done|moves_tac|]. intros meta _.
  destruct (String.eqb_spec (mget meta FieldState) StateWaitingManual) as [->|Hn].
  - exists [StateActive]. split; [moves_tac|]. intros v ->%list_elem_of_singleton. constructor.
  - exists []. split; [|set_solver]. apply String.eqb_neq in Hn. cbv beta zeta iota. rewrite ?Hn. cbn [negb andb]. moves_tac.
Qed.

Lemma advanceTo_moves meta n next : moves root [StateActive] (advanceTo h root meta n next).
Proof. unfold advanceTo, emitEvent. moves_tac. Qed.
#[local] Hint Resolve advanceTo_moves : moves.

Lemma trigger_follows w :
  top_level w root ->
  wpc (HandleTrigger h root) (fun _ w' => follows OpTrigger w w') (follows OpTrigger w) w.
Proof.
  intros Ht. apply follows_get_meta; [done|moves_tac|]. intros meta _.
  destruct (String.eqb_spec (mget meta FieldState) StateWaitingTrigger) as [->|Hn].
  - exists [StateActive]. split; [|intros v ->%list_elem_of_singleton; constructor].
    unfold advanceFromTrigger, RunCondition.
    assert (Hr := RunCondition_loop_keeps root quietKeys). moves_tac.
  - exists []. split; [|set_solver]. apply String.eqb_neq in Hn. cbv beta zeta iota. rewrite ?Hn. cbn [negb andb]. moves_tac.
Qed.

Lemma stop_follows user w :
  top_level w root ->
  wpc (StopHandler h root user) (fun _ w' => follows (OpStop user) w w') (follows (OpStop user) w) w.
Proof.
  intros Ht. apply follows_get_meta; [done|moves_tac|]. intros meta _.
  destruct (stoppable (mget meta FieldState)) eqn:Hst.
  - exists settledStates. split; [|by intros v Hv; constructor].
    assert (Hd := fun v => stopDrain_moves v (proj1 Ht)). assert (Hc := stopCommit_moves).
    moves_tac.
  - exists []. split; [|set_solver]. cbv beta zeta iota. rewrite ?Hst. cbn [negb]. moves_tac.
Qed.

Lemma wispClosed_follows wisp w :
  top_level w root ->
  wpc (HandleWispClosed h root wisp) (fun _ w' => follows (OpWispClosed wisp) w w')
    (follows (OpWispClosed wisp) w) w.
Proof.
  intros Ht. apply follows_get_meta; [done|moves_tac|]. intros meta _.
  destruct (String.eqb_spec (mget meta FieldState) StateTerminated) as [->|Hn].
  - exists []. split; [moves_tac|set_solver].
  - exists settledStates. split; [|by intros v Hv; constructor].
    assert (Hp := fun n g cfg trig => processWisp_moves wisp n g cfg trig meta (proj1 Ht)). moves_tac.
Qed.

Lemma missingState_moves meta :
  root <> "" -> moves root (StateActive :: settledStates) (reconcileMissingState h root meta).
Proof.
  intros Hr. assert (Hc : forall w, moves root (StateActive :: settledStates) (HandleWispClosed h root w)).
  { intros w. eapply moves_mono; [|by apply HandleWispClosed_moves]. set_solver. }
  unfold reconcileMissingState, finished, failed. moves_tac.
Qed.

Lemma reconcileActive_moves meta :
  root <> "" -> moves root settledStates (reconcileActive h root meta).
Proof.
  intros Hr. assert (Hw := fun w => HandleWispClosed_moves w Hr).
  assert (Ht : moves root settledStates (completeTerminalTransition h root meta)).
  { eapply moves_mono; [|apply completeTerminalTransition_moves]. set_solver. }
  assert (Hv := fun k => validPendingNextWisp_keeps root quietKeys k (mget meta FieldPendingNextWisp) Hr
                  ltac:(key_mem)).
  assert (Hc : moves root settledStates (reconcileChain root meta)).
  { unfold reconcileChain, nextWisp, finished, failed. moves_tac.
    all: eapply (moves_specs _ _ quietKeys); [apply Hv|key_mem|]; moves_tac. }
  assert (Ha : forall a i b, moves root settledStates (reconcileActiveWisp h root meta a i b))
    by (intros; unfold reconcileActiveWisp, finished, failed; moves_tac).
  unfold reconcileActive, failed. moves_tac.
Qed.

Lemma reconcile_follows w :
  top_level w root ->
  wpc (reconcileState h root) (fun _ w' => follows OpReconcile w w') (follows OpReconcile w) w.
Proof.
  intros Ht. apply follows_get_meta; [done|unfold failed; moves_tac|]. intros meta _. cbv zeta.
  assert (Hterm := completeTerminalTransition_moves meta).
  repeat match goal with |- context [String.eqb ?a ?b] =>
    destruct (String.eqb_spec a b) as [->|]; [|] end.
  - eexists. split; [apply missingState_moves, Ht|]. intros v Hv. by constructor.
  - exists [StateTerminated]. unfold reconcileCreating, finished, failed.
    split; [moves_tac|]. intros v ->%list_elem_of_singleton. constructor.
  - exists []. split; [|set_solver]. unfold reconcileTerminatedNotClosed, backfillTerminalActor,
      childrenStats, recoveryTerminated, emitRecoveryEvent, finished, failed. moves_tac.
  - exists [StateTerminated]. unfold reconcileWaitingManual, emitRecoveryEvent, finished, failed.
    split; [moves_tac|]. intros v ->%list_elem_of_singleton. constructor. set_solver.
  - exists [StateTerminated]. unfold reconcileWaitingTrigger, finished.
    split; [moves_tac|]. intros v ->%list_elem_of_singleton. constructor. set_solver.
  - eexists. split; [apply reconcileActive_moves, Ht|]. intros v Hv. by constructor.
  - exists []. unfold failed. split; [moves_tac|set_solver].
Qed.

Lemma op_follows o w :
  top_level w root ->
  wpc (op_prog h root o) (fun _ w' => follows o w w') (follows o w) w.
Proof.
  intros Ht. destruct o; apply effect_follows;
    auto using wispClosed_follows, approve_follows, iterate_follows, stop_follows,
      trigger_follows, reconcile_follows.
Qed.

End Ops.

(** * Histories *)

Section Histories.
Context `{UnicodeTables} (h : Handler) (root : string).

(** What can happen to a loop: agents act, and operations run until they end or the
    process stops. *)
Inductive history : World -> World -> Prop :=
| history_start w : history w w
| history_agents w w1 w2 : history w w1 -> rely w1 w2 -> history w w2
| history_op o w w1 w2 : history w w1 -> reaches (op_prog h root o) w1 w2 -> history w w2.

(** The keys an operation may still write on a terminated root. *)
Definition finalKeys : list string := [FieldTerminalActor].

Lemma final_get_meta {A} (f : res (gmap string string) -> prog A) w :
  top_level w root -> field w root FieldState = StateTerminated ->
  (forall e, keeps root finalKeys (f (Err e))) ->
  (forall meta, mget meta FieldState = StateTerminated -> keeps root finalKeys (f (Ok meta))) ->
  wpc (bind (call (GetMetadata root)) f) (fun _ w' => root_frame root finalKeys w w')
    (fun w' => root_frame root finalKeys w w') w.
Proof.
  intros Ht Hs HE HO.
  assert (Hgo : forall p : prog A, keeps root finalKeys p -> forall w1, root_frame root [] w w1 ->
    top_level w1 root -> wpc p (fun _ w' => root_frame root finalKeys w w')
      (fun w' => root_frame root finalKeys w w') w1).
  { intros p Hp w1 F Ht1. assert (F' : root_frame root finalKeys w w1)
      by (eapply root_frame_weaken; [|exact F]; set_solver).
    eapply wpc_conseq; [by apply Hp| |]; simpl.
    - intros w' F2. by eapply root_frame_trans.
    - intros a w' _ [F2 _]. by eapply root_frame_trans. }
  apply wpc_get_meta; [done|by apply root_frame_refl, top_level_exists| |].
  - intros e w1 F Ht1. by apply Hgo.
  - intros meta w1 F Ht1 Hsn. apply Hgo; [|done|done]. apply HO. by rewrite Hsn.
Qed.

(** Evaluates comparisons of the terminated state with the other states. *)
Ltac eval_states :=
  try change (stoppable StateTerminated) with false;
  repeat match goal with
  | |- context [String.eqb StateTerminated ?x] =>
      let b := eval vm_compute in (String.eqb StateTerminated x) in
      change (String.eqb StateTerminated x) with b
  end.

Lemma op_final o w :
  top_level w root -> field w root FieldState = StateTerminated ->
  wpc (op_prog h root o) (fun _ w' => root_frame root finalKeys w w')
    (fun w' => root_frame root finalKeys w w') w.
Proof.
  intros Ht Hs.
  assert (He : forall A (p : prog A),
    wpc p (fun _ w' => root_frame root finalKeys w w') (fun w' => root_frame root finalKeys w w') w ->
    wpc (effect p) (fun _ w' => root_frame root finalKeys w w')
      (fun w' => root_frame root finalKeys w w') w).
  { intros A p Hp. apply wpc_bind. eapply wpc_conseq; [exact Hp|done|].
    intros a w' HI _. by apply wpc_ret. }
  destruct o; (apply He, final_get_meta; [done|done|intros e; unfold failed; specs_tac|]).
  all: intros meta Hm; cbv beta iota zeta; rewrite Hm; eval_states; cbn [negb andb].
  1-5: specs_tac.
  change (keeps root finalKeys (reconcileTerminatedNotClosed h root meta)).
  unfold reconcileTerminatedNotClosed, backfillTerminalActor, childrenStats, recoveryTerminated,
    emitRecoveryEvent, finished, failed. specs_tac.
Qed.

(** (C11) Refinement of the loop's state machine: whichever operation runs on a root
    bead, whatever store calls fail, whatever agents do meanwhile and wherever the
    process stops, the root's state has moved along the abstract machine of that
    operation: approve and iterate only from waiting_manual, a trigger only from
    waiting_trigger, stop only from the three live states, recovery only completes or
    restarts what was interrupted, and nothing leaves terminated. *)
Theorem operations_refine_machine o w w' :
  top_level w root -> reaches (op_prog h root o) w w' ->
  loop_step o (field w root FieldState) (field w' root FieldState).
Proof.
  intros Ht Hr. by apply (wpc_reaches _ _ _ _ _ (op_follows h root o w Ht)) in Hr as [_ Hr].
Qed.

Lemma history_final w w' :
  top_level w root -> field w root FieldState = StateTerminated -> history w w' ->
  root_frame root finalKeys w w'.
Proof.
  intros Ht Hs Hh. revert Ht Hs. induction Hh as [w|w w1 w2 _ IH Hr|o w w1 w2 _ IH Hr]; intros Ht Hs.
  - by apply root_frame_refl, top_level_exists.
  - eapply root_frame_trans; [by apply IH|]. apply rely_frame; [|done].
    eapply root_frame_exists. by apply IH.
  - eapply root_frame_trans; [by apply IH|]. specialize (IH Ht Hs).
    assert (Ht1 := root_frame_top_level _ _ _ _ IH Ht).
    refine (wpc_reaches _ _ _ _ _ (op_final o w1 Ht1 _) Hr).
    rewrite (root_frame_field _ _ _ _ _ IH); [done|done|key_mem].
Qed.

(** (C12) Termination is final: over any history of operations, crashes, store failures
    and agent activity, a terminated root stays terminated with the same terminal
    reason and dedup marker, and once closed it stays closed. *)
Theorem terminated_is_final w w' :
  top_level w root -> field w root FieldState = StateTerminated -> history w w' ->
  field w' root FieldState = StateTerminated
  /\ field w' root FieldTerminalReason = field w root FieldTerminalReason
  /\ field w' root FieldLastProcessedWisp = field w root FieldLastProcessedWisp
  /\ (status w root = "closed" -> status w' root = "closed").
Proof.
  intros Ht Hs Hh. assert (F := history_final w w' Ht Hs Hh).
  assert (Hk := fun k => root_frame_field _ _ _ _ k F).
  split_and!; [rewrite Hk; done || key_mem..|]. by apply (root_frame_closed _ _ _ _ F).
Qed.

End Histories.

Lemma operations_refine_machine_witness :
  let w' := rs_world (run_upto 40 (op_prog handler0 "gc-1" (OpApprove "bob")) manual_held) in
  loop_step (OpApprove "bob") (field (rs_world manual_held) "gc-1" FieldState)
    (field w' "gc-1" FieldState).
Proof.
  cbv zeta. apply (operations_refine_machine handler0 "gc-1");
    [top_level_tac|apply run_upto_reaches].
Defined.

Lemma terminated_is_final_witness :
  let w := rs_world gate_passed in
  let w' := rs_world (run_upto 40 (op_prog handler0 "gc-1" OpReconcile) gate_passed) in
  field w' "gc-1" FieldState = StateTerminated
  /\ field w' "gc-1" FieldTerminalReason = field w "gc-1" FieldTerminalReason
  /\ field w' "gc-1" FieldLastProcessedWisp = field w "gc-1" FieldLastProcessedWisp
  /\ (status w "gc-1" = "closed" -> status w' "gc-1" = "closed").
Proof.
  cbv zeta. apply (terminated_is_final handler0 "gc-1");
    [top_level_tac|vm_compute; reflexivity|].
  eapply history_op; [apply history_start|apply run_upto_reaches].
Defined.
