(* ===== verification/ConvManualProps.v ===== *)
(** Properties of the operator commands (manual.go): what approve, iterate and stop
    leave behind, from which states they act, and that a loop they terminate is never
    seen terminated without its reason and actor. *)
From S2P Require Import Prelude GoStd ConvMeta ConvKeys ConvStore ConvFrame ConvGate ConvHandler.
From S2P Require Import ConvHandlerFacts ConvTransitions ConvWisp ConvManual ConvTrigger.
From S2P Require Import ConvReconcile ConvMachine RefStore.
#[local] Open Scope prog_scope.

Section Manual.
Context `{UnicodeTables} (h : Handler) (root : string).

(** The root bead after an operator ended the loop. *)
Definition ended (reason actor : string) (w' : World) : Prop :=
  field w' root FieldState = StateTerminated /\ field w' root FieldTerminalReason = reason
  /\ field w' root FieldTerminalActor = actor /\ field w' root FieldWaitingReason = ""
  /\ status w' root = "closed".

(** Seen from [w], a terminated root carries its explanation. *)
Definition explained (reason actor : string) (w w' : World) : Prop :=
  field w' root FieldState = StateTerminated -> field w root FieldState <> StateTerminated ->
  field w' root FieldTerminalReason = reason /\ field w' root FieldTerminalActor = actor
  /\ field w' root FieldWaitingReason = "".

Definition lpwWrite (v : string) : metaWrite :=
  mkMetaWrite FieldLastProcessedWisp v "setting last processed wisp".

(** Framed work before a pre-marker step. *)
Lemma pre_ok_before {A} (p : prog A) q P :
  keeps root [] p -> pre_ok root (Some q) P -> pre_ok root (Some (let! _ := p in q)) P.
Proof.
  intros Hp [HS Hq]. split; [done|]. intros w Ht.
  eapply (wpc_specs root []); [exact Hp|done|done|]. intros _ w1 F1 Ht1 _.
  eapply wpc_conseq; [by apply Hq| |]; simpl.
  - intros w' F. by eapply root_frame_trans.
  - intros r w' _ [F HP]. split; [by eapply root_frame_trans|done].
Qed.

(** A pre-marker step that closes the root and emits. *)
Lemma close_emit (q : prog unit) reason f :
  keeps root [] q ->
  pre_ok root (Some (try! _ := call (CloseBead root reason) else f in
                     let! _ := q in Ret (Ok tt))) (root_closed root).
Proof.
  intros Hq. split; [apply root_closed_stable|]. intros w Ht.
  assert (He := top_level_exists _ _ Ht).
  apply wpc_call; [by apply root_frame_refl|]. intros r w2 Hst. assert (F2 := Hst).
  apply (env_step_frame root) in F2; [|done|done].
  destruct r as [[]|e]; [|apply wpc_ret; by auto]. apply close_bead_ok in Hst.
  assert (Hc : forall w3, root_frame root [] w2 w3 ->
            root_frame root [] w w3 /\ root_closed root w3).
  { intros w3 F3. split; [by eapply root_frame_trans|]. by eapply root_closed_stable. }
  eapply (wpc_specs root []); [exact Hq|by eapply root_frame_top_level| |].
  - intros w3 F3. by apply Hc.
  - intros _ w3 F3 _ _. destruct (Hc w3 F3). apply wpc_ret; auto.
Qed.

Lemma manual_lw' reason actor v : loop_writes (manualTerminalWrites reason actor ++ [lpwWrite v]).
Proof. keys_decide. Qed.

Lemma prefix_explained reason actor w w' :
  prefix_written root (manualTerminalWrites reason actor) w w' -> explained reason actor w w'.
Proof.
  intros PW Hs Hn. apply (prefix_written_before _ [_; _; _] _ []) in PW as [U|W].
  - unfold unwritten in U. simpl in U. congruence.
  - inversion_clear W as [|? ? H1 W']. inversion_clear W' as [|? ? H2 W].
    inversion_clear W as [|? ? H3 _]. done.
Qed.

(** The terminal commit of approve and stop. *)
Lemma wpc_end {A} reason actor pre v (x : A) w :
  top_level w root -> pre_ok root (Some pre) (root_closed root) ->
  wpc (try! _ := commit root (manualTerminalWrites reason actor) (Some pre) (lpwWrite v) in Ret (Ok x))
    (fun r w' => forall y, r = Ok y -> y = x /\ ended reason actor w'
                                    /\ (v <> "" -> field w' root FieldLastProcessedWisp = v))
    (explained reason actor w) w.
Proof.
  intros Ht Hpre. assert (Hlw := manual_lw' reason actor v).
  eapply wpc_seq; [by apply (wpc_commit_any root _ _ _ (root_closed root))| |].
  - intros w' [_ PW]. by apply prefix_explained.
  - intros r w' [_ PW] HC. assert (HE := prefix_explained _ _ _ _ PW).
    destruct r as [[]|e]; apply wpc_ret; try done.
    intros y [= <-]. destruct (HC eq_refl) as (W & Hcl & Hm).
    inversion_clear W as [|? ? H1 W']. inversion_clear W' as [|? ? H2 W].
    inversion_clear W as [|? ? H3 W']. inversion_clear W' as [|? ? H4 _]. done.
Qed.

(** Framed work before it. *)
Lemma explained_frame reason actor K w w' :
  root_frame root K w w' -> FieldState ∉ K -> explained reason actor w w'.
Proof. intros F HK Hs Hn. rewrite (root_frame_field _ _ _ _ _ F) in Hs; done. Qed.

Lemma explained_before reason actor K w w1 w' :
  root_frame root K w w1 -> FieldState ∉ K -> explained reason actor w1 w' ->
  explained reason actor w w'.
Proof. intros F HK HE Hs Hn. apply HE; [done|]. by rewrite (root_frame_field _ _ _ _ _ F). Qed.

(** * Approve *)

(** What an approval ends in. *)
Definition approved (user : string) (w w' : World) (x : HandlerResult) : Prop :=
  hr_Action x = ActionApproved
  /\ ((field w root FieldState = StateTerminated
        /\ field w root FieldTerminalReason = TerminalApproved /\ root_frame root [] w w')
      \/ (field w root FieldState = StateWaitingManual
          /\ ended TerminalApproved (operator user) w')).

Lemma ApproveHandler_wpc user w :
  top_level w root ->
  wpc (ApproveHandler h root user) (fun r w' => forall x, r = Ok x -> approved user w w' x)
    (explained TerminalApproved (operator user) w) w.
Proof.
  intros Ht. assert (He := top_level_exists _ _ Ht).
  assert (Hx : forall w', root_frame root [] w w' ->
            explained TerminalApproved (operator user) w w').
  { intros w' F. eapply explained_frame; [exact F|set_solver]. }
  apply wpc_get_meta; [done|by apply Hx, root_frame_refl|intros e w1 F _; apply wpc_ret; by auto|].
  intros meta w1 F1 Ht1 Hsn. cbv zeta.
  destruct (_ && _) eqn:E1.
  { apply andb_true_iff in E1 as [E1 E2]. apply String.eqb_eq in E1, E2.
    rewrite Hsn in E1, E2 by done. apply wpc_ret; [by auto|]. intros x [= <-]. split; [done|by left]. }
  destruct (String.eqb_spec (mget meta FieldState) StateWaitingManual) as [Hst|Hst];
    [|apply wpc_ret; by auto]. rewrite Hsn in Hst by done. cbn [negb].
  eapply (wpc_specs root []); [apply deriveIterationCount_keeps|done| |].
  { intros w' F. by eapply Hx, root_frame_trans. }
  intros [n|e] w2 F2 Ht2 _; assert (F12 := root_frame_trans _ _ _ _ _ F1 F2);
    [|apply wpc_ret; by auto].
  eapply (wpc_specs root []); [apply computeDurations_keeps|done| |].
  { intros w' F. by eapply Hx, root_frame_trans. }
  intros d w3 F3 Ht3 _. assert (F13 := root_frame_trans _ _ _ _ _ F12 F3).
  eapply wpc_conseq; [apply wpc_end; [done|apply pre_ok_before; [apply emit_keeps|apply close_emit, emit_keeps]]| |]; simpl.
  - intros w' HE. eapply explained_before; [exact F13|set_solver|done].
  - intros r w' _ HQ x ->. destruct (HQ x eq_refl) as (-> & HE & _). split; [done|by right].
Qed.

(** ApproveHandler: a successful approval was asked of a loop waiting for an
    operator, and leaves it terminated, approved by that operator, with no waiting
    reason and the root closed; on a loop already approved it changes nothing. *)
Theorem ApproveHandler_outcome user w x w' :
  top_level w root -> runs (ApproveHandler h root user) w (Ok x) w' -> approved user w w' x.
Proof.
  intros Ht Hr. exact (wpc_runs _ _ _ _ _ _ (ApproveHandler_wpc user w Ht) Hr x eq_refl).
Qed.

(** * Iterate *)

Definition iterated (w w' : World) (x : HandlerResult) : Prop :=
  hr_Action x = ActionIterate /\ field w root FieldState = StateWaitingManual
  /\ 1 <= hr_Iteration x <= (DecodeInt (field w root FieldMaxIterations)).1
  /\ field w' root FieldState = StateActive
  /\ field w' root FieldActiveWisp = hr_NextWispID x
  /\ field w' root FieldWaitingReason = ""
  /\ field w' root FieldLastProcessedWisp = field w root FieldLastProcessedWisp.

Definition iterateKeys : list string :=
  FieldWaitingReason :: FieldState :: FieldActiveWisp :: verdictKeys.

(** The waiting reason is cleared before the state changes. *)
Definition cleared (w w' : World) : Prop :=
  root_frame root iterateKeys w w'
  /\ (field w' root FieldState = StateActive -> field w root FieldState <> StateActive ->
      field w' root FieldWaitingReason = "").

Lemma cleared_frame K w w' :
  root_frame root K w w' -> (forall k, k ∈ K -> k ∈ verdictKeys) -> cleared w w'.
Proof.
  intros F HK. assert (F' : root_frame root verdictKeys w w') by (by eapply root_frame_weaken).
  split; [eapply root_frame_weaken; [|exact F']; key_mem|].
  rewrite (root_frame_field _ _ _ _ FieldState F'); [done|done|key_mem].
Qed.

Lemma iterateManual_wpc user meta n next w :
  top_level w root ->
  wpc (iterateManual h root user meta n next)
    (fun r w' => forall x, r = Ok x ->
       x = mkHandlerResult ActionIterate n "" next ""
       /\ field w' root FieldState = StateActive /\ field w' root FieldActiveWisp = next
       /\ field w' root FieldWaitingReason = "")
    (cleared w) w.
Proof.
  intros Ht. unfold iterateManual, emitEvent.
  eapply (wpc_specs root verdictKeys _ _ (fun _ => True)); [specs_tac|done| |].
  { intros w' F. by eapply cleared_frame. }
  intros [[]|e] w1 F1 Ht1 _; [|apply wpc_ret; [by eapply cleared_frame|done]].
  assert (Hst : field w1 root FieldState = field w root FieldState)
    by (apply (root_frame_field _ _ _ _ _ F1); [done|key_mem]).
  assert (Hcl : forall ws w', ws = [ mkMetaWrite FieldWaitingReason "" "clearing waiting reason";
      mkMetaWrite FieldState StateActive "setting state to active";
      mkMetaWrite FieldActiveWisp next "setting active wisp" ] ->
    root_frame root (keys_of ws) w1 w' /\ prefix_written root ws w1 w' -> cleared w w').
  { intros ws w' -> [F PW]. split.
    - eapply root_frame_trans; eapply root_frame_weaken; [|exact F1| |exact F]; key_mem.
    - intros Hs Hn. apply (prefix_written_before _ [_] _ [_]) in PW as [U|W].
      + unfold unwritten in U. simpl in U. congruence.
      + by inversion_clear W. }
  eapply wpc_seq; [apply wpc_write_all; [done| |]|intros w'; by apply Hcl|].
  { apply (bool_decide_unpack _). vm_compute. exact I. }
  { repeat constructor. }
  intros r w2 HJ [_ HW]. assert (C2 := Hcl _ w2 eq_refl HJ).
  destruct r as [[]|e]; [|by apply wpc_ret]. specialize (HW eq_refl).
  inversion_clear HW as [|? ? H1 W]. inversion_clear W as [|? ? H2 W'].
  inversion_clear W' as [|? ? H3 _]. unfold written in *. simpl in *.
  assert (Hend : forall w3, root_frame root [] w2 w3 -> cleared w w3
    /\ field w3 root FieldState = StateActive /\ field w3 root FieldActiveWisp = next
    /\ field w3 root FieldWaitingReason = "").
  { intros w3 F3. assert (Hk := fun k => root_frame_field _ _ _ _ k F3).
    rewrite !Hk by (done || set_solver). split; [|done]. split; [|by rewrite !Hk by (done || set_solver)].
    eapply root_frame_trans; [apply C2|]. eapply root_frame_weaken; [|exact F3]. set_solver. }
  eapply (wpc_specs root []); [apply emit_keeps|by eapply root_frame_top_level; [apply C2|]| |].
  - intros w3 F3. by apply Hend.
  - intros _ w3 F3 _ _. destruct (Hend w3 F3) as [C3 Hf]. apply wpc_ret; [done|].
    intros x [= <-]. by split.
Qed.

Lemma cleared_before w w1 w' : root_frame root [] w w1 -> cleared w1 w' -> cleared w w'.
Proof.
  intros F [F' HC]. assert (Hk := fun k => root_frame_field _ _ _ _ k F). split.
  - eapply root_frame_trans; [eapply root_frame_weaken; [|exact F]; set_solver|done].
  - rewrite Hk in HC by (done || set_solver). done.
Qed.

Lemma IterateHandler_wpc user w :
  top_level w root ->
  wpc (IterateHandler h root user) (fun r w' => forall x, r = Ok x -> iterated w w' x) (cleared w) w.
Proof.
  intros Ht. assert (He := top_level_exists _ _ Ht).
  assert (Hx : forall w', root_frame root [] w w' -> cleared w w').
  { intros w' F. eapply cleared_frame; [exact F|set_solver]. }
  apply wpc_get_meta; [done|by apply Hx, root_frame_refl|intros e w1 F _; apply wpc_ret; by auto|].
  intros meta w1 F1 Ht1 Hsn. cbv zeta.
  destruct (String.eqb_spec (mget meta FieldState) StateWaitingManual) as [Hst|Hst];
    [|apply wpc_ret; by auto]. rewrite Hsn in Hst by done. cbn [negb].
  eapply (wpc_specs root []); [apply deriveIterationCount_nonneg|done| |].
  { intros w' F. by eapply Hx, root_frame_trans. }
  intros [n|e] w2 F2 Ht2 Hn; assert (F12 := root_frame_trans _ _ _ _ _ F1 F2);
    [|apply wpc_ret; by auto]. specialize (Hn n eq_refl).
  destruct (DecodeInt (mget meta FieldMaxIterations)) as [mx ok] eqn:Emax. cbn [fst].
  destruct (Z.leb_spec mx n) as [|Hlt]; [apply wpc_ret; by auto|].
  assert (Hmx := DecodeInt_range _ _ _ Emax).
  rewrite wrap64_small by (unfold min_int64, max_int64 in *; lia).
  assert (Hgo : forall next w3, root_frame root [] w w3 -> top_level w3 root ->
    wpc (iterateManual h root user meta (n + 1) next)
      (fun r w' => forall x, r = Ok x -> iterated w w' x) (cleared w) w3).
  { intros next w3 F3 Ht3. eapply wpc_conseq; [by apply iterateManual_wpc| |]; simpl.
    - intros w' C. by eapply cleared_before.
    - intros r w' C HQ x ->. destruct (HQ x eq_refl) as (-> & Hs & Ha & Hw).
      apply (cleared_before _ _ _ F3) in C as [F _].
      unfold iterated. simpl. rewrite <- (Hsn FieldMaxIterations), Emax by done. cbn [fst].
      rewrite (root_frame_field _ _ _ _ FieldLastProcessedWisp F) by (done || key_mem).
      split_and!; try done; lia. }
  eapply (wpc_specs root [] _ _ (fun _ => True)); [specs_tac|done| |].
  { intros w' F. by eapply Hx, root_frame_trans. }
  intros [id|e] w3 F3 Ht3 _; assert (F13 := root_frame_trans _ _ _ _ _ F12 F3); [by apply Hgo|].
  eapply (wpc_specs root [] _ _ (fun _ => True)); [specs_tac|done| |].
  { intros w' F. by eapply Hx, root_frame_trans. }
  intros [[id []]|e'] w4 F4 Ht4 _; assert (F14 := root_frame_trans _ _ _ _ _ F13 F4);
    [by apply Hgo|apply wpc_ret; by auto..].
Qed.

(** IterateHandler: a successful iterate was asked of a loop waiting for an
    operator and below its limit; the loop is active again on a wisp whose iteration
    number is between one and max_iterations, without waiting reason, and the dedup
    marker is untouched. *)
Theorem IterateHandler_outcome user w x w' :
  top_level w root -> runs (IterateHandler h root user) w (Ok x) w' -> iterated w w' x.
Proof.
  intros Ht Hr. exact (wpc_runs _ _ _ _ _ _ (IterateHandler_wpc user w Ht) Hr x eq_refl).
Qed.

(** * Stop *)

(** Who ended the loop and why: the operator's stop, or the controller with the outcome
    of the last iteration, drained before the stop. *)
Definition stop_reason (user : string) (w' : World) : Prop :=
  (field w' root FieldTerminalReason = TerminalStopped
   /\ field w' root FieldTerminalActor = operator user)
  \/ (field w' root FieldTerminalReason ∈ [TerminalApproved; TerminalNoConvergence]
      /\ field w' root FieldTerminalActor = "controller").
Definition reasoned (user : string) (w w' : World) : Prop :=
  field w' root FieldState = StateTerminated -> field w root FieldState <> StateTerminated ->
  stop_reason user w'.
Definition stopped (user : string) (w w' : World) (x : HandlerResult) : Prop :=
  hr_Action x = ActionStopped
  /\ ((field w root FieldState = StateTerminated
        /\ field w root FieldTerminalReason = TerminalStopped /\ root_frame root [] w w')
      \/ (field w root FieldState <> StateTerminated
          /\ (ended TerminalStopped (operator user) w'
              \/ (field w' root FieldState = StateTerminated
                  /\ field w' root FieldTerminalReason ∈ [TerminalApproved; TerminalNoConvergence]
                  /\ field w' root FieldTerminalActor = "controller")))).

Lemma reasoned_frame user K w w' : root_frame root K w w' -> FieldState ∉ K -> reasoned user w w'.
Proof. intros F HK Hs Hn. rewrite (root_frame_field _ _ _ _ _ F) in Hs; done. Qed.

Lemma stopPreMarker_ok actor a e p f n d meta :
  pre_ok root (Some (stopPreMarker h root actor a e p f n d meta)) (root_closed root).
Proof.
  unfold stopPreMarker, emitEvent. apply pre_ok_before; [specs_tac|].
  apply pre_ok_before; [apply emit_keeps|]. apply close_emit, emit_keeps.
Qed.

Lemma stopCommit_wpc user v a f w :
  top_level w root ->
  wpc (stopCommit h root user v a f) (fun r w' => forall x, r = Ok x ->
      hr_Action x = ActionStopped /\ ended TerminalStopped (operator user) w') (reasoned user w) w.
Proof.
  intros Ht. unfold stopCommit.
  assert (Hx : forall w', root_frame root verdictKeys w w' -> reasoned user w w').
  { intros w' F. eapply reasoned_frame; [exact F|key_mem]. }
  eapply (wpc_specs root verdictKeys _ _ (fun _ => True));
    [apply deriveIterationCount_keeps|done|by auto|].
  intros [n|e] w1 F1 Ht1 _; [|apply wpc_ret; by auto].
  eapply (wpc_specs root verdictKeys _ _ (fun _ => True)); [specs_tac|done| |].
  { intros w' F. by eapply Hx, root_frame_trans. }
  intros [[]|e] w2 F2 Ht2 _; assert (F12 := root_frame_trans _ _ _ _ _ F1 F2);
    [|apply wpc_ret; by auto].
  eapply (wpc_specs root verdictKeys _ _ (fun _ => True)); [specs_tac|done| |].
  { intros w' F. by eapply Hx, root_frame_trans. }
  intros [[]|e] w3 F3 Ht3 _; assert (F13 := root_frame_trans _ _ _ _ _ F12 F3);
    [|apply wpc_ret; by auto].
  eapply (wpc_specs root verdictKeys); [apply computeDurations_keeps|done| |].
  { intros w' F. by eapply Hx, root_frame_trans. }
  intros d w4 F4 Ht4 _. assert (F14 := root_frame_trans _ _ _ _ _ F13 F4).
  eapply wpc_conseq; [apply wpc_end; [done|apply stopPreMarker_ok]| |]; simpl.
  - intros w' HE Hs Hn.
    rewrite <- (root_frame_field _ _ _ _ FieldState F14) in Hn by (done || key_mem).
    destruct (HE Hs Hn) as (H1 & H2 & _). by left.
  - intros r w' _ HQ x ->. by destruct (HQ x eq_refl) as (-> & HE & _).
Qed.

(** The drain: the loop goes on in a state that is not terminated, or it is over. *)
Lemma stopDrain_wpc user v w :
  top_level w root -> field w root FieldState <> StateTerminated ->
  wpc (stopDrain h root v)
    (fun r w' => top_level w' root /\ forall o, r = Ok o ->
       match o with
       | None => field w' root FieldState = StateTerminated
                 /\ field w' root FieldTerminalReason ∈ [TerminalApproved; TerminalNoConvergence]
                 /\ field w' root FieldTerminalActor = "controller"
       | Some _ => field w' root FieldState <> StateTerminated
       end)
    (fun w' => top_level w' root /\ reasoned user w w') w.
Proof.
  intros Ht Hn. unfold stopDrain.
  assert (Hx : forall w', root_frame root [] w w' -> top_level w' root /\ reasoned user w w'
            /\ field w' root FieldState <> StateTerminated).
  { intros w' F. split; [by eapply root_frame_top_level|].
    split; [eapply reasoned_frame; [exact F|set_solver]|].
    by rewrite (root_frame_field _ _ _ _ _ F) by (done || set_solver). }
  eapply (wpc_specs root []);
    [apply readActiveWisp_keeps|done|intros w' F; destruct (Hx _ F) as (?&?&?); done|].
  intros [[a i]|e] w1 F1 Ht1 _; destruct (Hx _ F1) as (_ & R1 & N1); [|by apply wpc_ret].
  destruct (String.eqb_spec a "") as [|Ha]; cbn [negb andb];
    [apply wpc_ret; [done|]; split; [done|]; by intros o [= <-]|].
  destruct (String.eqb (bi_Status i) "closed");
    [|apply wpc_ret; [done|]; split; [done|]; by intros o [= <-]].
  set (drained w' := field w' root FieldState = StateTerminated ->
         field w' root FieldTerminalReason ∈ [TerminalApproved; TerminalNoConvergence]
         /\ field w' root FieldTerminalActor = "controller").
  assert (Hset : forall w', settling h root a w1 w' -> drained w').
  { intros w' S Hs. by destruct (settling_terminated h root a w1 w' S Hs). }
  assert (Hdr : forall w', drained w' -> reasoned user w w') by (intros w' D Hs _; right; by apply D).
  eapply wpc_seq; [apply wpc_and;
    [by apply HandleWispClosed_settles|by apply HandleWispClosed_moves; [apply Ht|]]| |].
  { intros w' [S [T _]]. auto. }
  intros r w2 [S [T2 _]] _. assert (D2 := Hset _ S).
  destruct r as [x|e]; [|apply wpc_ret; by auto].
  assert (Hmid : forall w', root_frame root [] w2 w' -> top_level w' root /\ drained w').
  { intros w' F. split; [by eapply root_frame_top_level|]. intros Hs.
    assert (Hk := fun k => root_frame_field _ _ _ _ k F).
    rewrite (Hk FieldState) in Hs by (done || set_solver).
    rewrite (Hk FieldTerminalReason), (Hk FieldTerminalActor) by (done || set_solver). by apply D2. }
  apply wpc_get_meta; [done|by auto| |].
  - intros e w3 F _. destruct (Hmid _ F). apply wpc_ret; by auto.
  - intros meta w3 F Ht3 Hsn. destruct (Hmid _ F) as [_ D3].
    destruct (String.eqb_spec (mget meta FieldState) StateTerminated) as [E|E];
      rewrite Hsn, <- (root_frame_field _ _ _ _ _ F) in E by (done || set_solver);
      (apply wpc_ret; [by auto|]; split; [done|]; intros o [= <-]).
    + split; [done|]. by apply D3.
    + done.
Qed.

Lemma StopHandler_wpc user w :
  top_level w root ->
  wpc (StopHandler h root user)
    (fun r w' => forall x, r = Ok x -> stopped user w w' x) (reasoned user w) w.
Proof.
  intros Ht. assert (He := top_level_exists _ _ Ht).
  assert (Hx : forall w', root_frame root [] w w' -> reasoned user w w').
  { intros w' F. eapply reasoned_frame; [exact F|set_solver]. }
  apply wpc_get_meta; [done|by apply Hx, root_frame_refl|intros e w1 F _; apply wpc_ret; by auto|].
  intros meta w1 F1 Ht1 Hsn. cbv zeta.
  assert (Hk := fun k => root_frame_field _ _ _ _ k F1).
  destruct (_ && _) eqn:E1.
  { apply andb_true_iff in E1 as [E1 E2]. apply String.eqb_eq in E1, E2.
    rewrite Hsn in E1, E2 by done.
    apply wpc_ret; [by auto|]. intros x [= <-]. split; [done|]. by left. }
  destruct (stoppable _) eqn:Hst; [|apply wpc_ret; by auto]. cbn [negb].
  assert (Hn : field w1 root FieldState <> StateTerminated).
  { rewrite Hk, <- Hsn by (done || set_solver). by intros E; rewrite E in Hst. }
  assert (Hn0 : field w root FieldState <> StateTerminated) by (by rewrite <- Hk by (done || set_solver)).
  assert (Hsame : forall w', reasoned user w1 w' -> reasoned user w w').
  { intros w' R Hs _. by apply R. }
  eapply wpc_seq; [by apply (stopDrain_wpc user)|intros w' [_ R]; by apply Hsame|].
  intros r w2 [T2 R2] [_ HQ]. destruct r as [[v|]|e]; [| |apply wpc_ret; by auto].
  2: { specialize (HQ None eq_refl). simpl in HQ. apply wpc_ret; [by auto|].
       intros x [= <-]. split; [done|]. right. split; [done|by right]. }
  specialize (HQ _ eq_refl). simpl in HQ.
  eapply (wpc_specs root []); [apply stopForceClose_keeps|done| |].
  { intros w' F. apply Hsame. intros Hs _.
    by rewrite (root_frame_field _ _ _ _ _ F) in Hs by (done || set_solver). }
  intros [[a f]|e] w3 F3 Ht3 _;
    assert (N3 : field w3 root FieldState <> StateTerminated)
      by (by rewrite (root_frame_field _ _ _ _ _ F3) by (done || set_solver)).
  - eapply wpc_conseq; [by apply stopCommit_wpc| |].
    + intros w' R. apply Hsame. intros Hs _. by apply R.
    + intros r w' _ HC x Hr. destruct (HC x Hr) as [Ha He']. split; [done|]. right.
      split; [done|by left].
  - apply wpc_ret; [|done]. by intros Hs.
Qed.

(** StopHandler: a successful stop was asked of a live loop and leaves it
    terminated, stopped by that operator with the root closed, unless the last iteration
    had already finished, in which case it is drained first and the loop ends with the
    outcome the controller gave it; on a loop already stopped it changes nothing. *)
Theorem StopHandler_outcome user w x w' :
  top_level w root -> runs (StopHandler h root user) w (Ok x) w' -> stopped user w w' x.
Proof.
  intros Ht Hr. exact (wpc_runs _ _ _ _ _ _ (StopHandler_wpc user w Ht) Hr x eq_refl).
Qed.

(** Operator commands are crash safe: wherever approve or stop is interrupted, a
    root they moved to terminated already names its terminal reason and its actor. *)
Theorem manual_terminal_order user w w' :
  top_level w root ->
  reaches (ApproveHandler h root user) w w' \/ reaches (StopHandler h root user) w w' ->
  field w' root FieldState = StateTerminated -> field w root FieldState <> StateTerminated ->
  (field w' root FieldTerminalReason ∈ [TerminalApproved; TerminalStopped]
   /\ field w' root FieldTerminalActor = operator user)
  \/ (field w' root FieldTerminalReason ∈ [TerminalApproved; TerminalNoConvergence]
      /\ field w' root FieldTerminalActor = "controller").
Proof.
  intros Ht [Hr|Hr] Hs Hn.
  - apply (wpc_reaches _ _ _ _ _ (ApproveHandler_wpc user w Ht)) in Hr.
    destruct (Hr Hs Hn) as (-> & -> & _). left. by split; [constructor|].
  - apply (wpc_reaches _ _ _ _ _ (StopHandler_wpc user w Ht)) in Hr.
    destruct (Hr Hs Hn) as [[-> ->]|]; [left|by right]. by split; [do 2 constructor|].
Qed.

End Manual.

Lemma ApproveHandler_outcome_witness :
  let r := run (ApproveHandler handler0 "gc-1" "bob") manual_held in
  approved "gc-1" "bob" (rs_world manual_held) (rs_world (snd r)) (iteration_result ActionApproved 1).
Proof.
  cbv zeta. apply (ApproveHandler_outcome handler0 "gc-1");
    [top_level_tac|apply ref_runs; vm_compute; reflexivity].
Defined.

Lemma IterateHandler_outcome_witness :
  let r := run (IterateHandler handler0 "gc-1" "bob") manual_held in
  iterated "gc-1" (rs_world manual_held) (rs_world (snd r))
    (mkHandlerResult ActionIterate 2 "" "bd" "").
Proof.
  cbv zeta. apply (IterateHandler_outcome handler0 "gc-1" "bob");
    [top_level_tac|apply ref_runs; vm_compute; reflexivity].
Defined.

Lemma StopHandler_outcome_witness :
  let r := run (StopHandler handler0 "gc-1" "bob") manual_held in
  stopped "gc-1" "bob" (rs_world manual_held) (rs_world (snd r)) (iteration_result ActionStopped 1).
Proof.
  cbv zeta. apply (StopHandler_outcome handler0 "gc-1" "bob" (rs_world manual_held));
    [top_level_tac|apply ref_runs; vm_compute; reflexivity].
Defined.

Lemma manual_terminal_order_witness :
  let w' := rs_world (run_upto 12 (StopHandler handler0 "gc-1" "bob") manual_held) in
  (field w' "gc-1" FieldTerminalReason ∈ [TerminalApproved; TerminalStopped]
   /\ field w' "gc-1" FieldTerminalActor = operator "bob")
  \/ (field w' "gc-1" FieldTerminalReason ∈ [TerminalApproved; TerminalNoConvergence]
      /\ field w' "gc-1" FieldTerminalActor = "controller").
Proof.
  cbv zeta. apply (manual_terminal_order handler0 "gc-1" "bob" (rs_world manual_held));
    [top_level_tac|right; apply run_upto_reaches|vm_compute; reflexivity|vm_compute; discriminate].
Defined.
