(* ===== verification/ConvTriggerProps.v ===== *)
(** Properties of the trigger handler (trigger.go): it acts only on a loop that waits
    for its trigger, and the loop becomes active only after its next wisp and iteration
    are recorded. *)
From S2P Require Import Prelude GoStd ConvMeta ConvKeys ConvStore ConvFrame ConvGate ConvHandler.
From S2P Require Import ConvHandlerFacts ConvTransitions ConvWisp ConvManual ConvTrigger.
From S2P Require Import ConvReconcile ConvMachine RefStore.
#[local] Open Scope prog_scope.

Section Trigger.
Context `{UnicodeTables} (h : Handler) (root : string).

Definition advanceKeys : list string := [FieldIteration; FieldActiveWisp; FieldState].

(** Becoming active is the last of the three writes. *)
Definition advancing (n : Z) (w w' : World) : Prop :=
  root_frame root advanceKeys w w'
  /\ (field w' root FieldState = StateActive -> field w root FieldState <> StateActive ->
      field w' root FieldIteration = EncodeInt n).

Definition advanced (w w' : World) (x : HandlerResult) : Prop :=
  hr_Action x = ActionIterate /\ field w root FieldState = StateWaitingTrigger
  /\ field w' root FieldState = StateActive
  /\ field w' root FieldActiveWisp = hr_NextWispID x
  /\ field w' root FieldIteration = EncodeInt (hr_Iteration x)
  /\ (forall mx, DecodeInt (field w root FieldMaxIterations) = (mx, true) -> 0 < mx ->
      hr_Iteration x <= mx)
  /\ field w' root FieldLastProcessedWisp = field w root FieldLastProcessedWisp.

Lemma advancing_frame n w w' : root_frame root [] w w' -> advancing n w w'.
Proof.
  intros F. split; [eapply root_frame_weaken; [|exact F]; set_solver|].
  by rewrite (root_frame_field _ _ _ _ FieldState F) by (done || set_solver).
Qed.

Lemma advancing_before n w w1 w' : root_frame root [] w w1 -> advancing n w1 w' -> advancing n w w'.
Proof.
  intros F [F' HA]. split.
  - eapply root_frame_trans; [eapply root_frame_weaken; [|exact F]; set_solver|done].
  - by rewrite (root_frame_field _ _ _ _ FieldState F) in HA by (done || set_solver).
Qed.

Definition advanceWrites (n : Z) (next : string) : list metaWrite :=
  [ mkMetaWrite FieldIteration (EncodeInt n) "setting iteration";
    mkMetaWrite FieldActiveWisp next "setting active wisp";
    mkMetaWrite FieldState StateActive "setting state to active" ].

Lemma advance_prefix n next w w' :
  root_frame root (keys_of (advanceWrites n next)) w w' ->
  prefix_written root (advanceWrites n next) w w' -> advancing n w w'.
Proof.
  intros F PW. split; [done|]. intros Hs Hn.
  apply (prefix_written_before _ [_; _] _ []) in PW as [U|W].
  - unfold unwritten in U. simpl in U. congruence.
  - by inversion_clear W.
Qed.

Lemma advanceTo_wpc meta n next w :
  top_level w root ->
  wpc (advanceTo h root meta n next)
    (fun r w' => forall x, r = Ok x -> x = mkHandlerResult ActionIterate n "" next ""
       /\ field w' root FieldState = StateActive /\ field w' root FieldActiveWisp = next
       /\ field w' root FieldIteration = EncodeInt n)
    (advancing n w) w.
Proof.
  intros Ht. unfold advanceTo.
  eapply (wpc_specs root [] _ _ (fun _ => True)); [specs_tac|done|apply advancing_frame|].
  intros [[]|e] w1 F1 Ht1 _; [|apply wpc_ret; [by apply advancing_frame|done]].
  assert (Hst := root_frame_field _ _ _ _ FieldState F1 eq_refl ltac:(set_solver)).
  fold (advanceWrites n next).
  eapply wpc_seq; [apply wpc_write_all; [done| |repeat constructor]| |].
  { apply (bool_decide_unpack _). vm_compute. exact I. }
  { intros w' [F PW]. eapply advancing_before; [exact F1|]. by eapply advance_prefix. }
  intros r w2 [F2 PW] [_ HW].
  assert (A2 : advancing n w w2) by (eapply advancing_before; [exact F1|]; by eapply advance_prefix).
  destruct r as [[]|e]; [|by apply wpc_ret]. specialize (HW eq_refl).
  inversion_clear HW as [|? ? H1 W]. inversion_clear W as [|? ? H2 W'].
  inversion_clear W' as [|? ? H3 _]. unfold written in *. simpl in *.
  assert (Hend : forall w3, root_frame root [] w2 w3 -> advancing n w w3
    /\ field w3 root FieldState = StateActive /\ field w3 root FieldActiveWisp = next
    /\ field w3 root FieldIteration = EncodeInt n).
  { intros w3 F3. assert (Hk := fun k => root_frame_field _ _ _ _ k F3).
    rewrite !Hk by (done || set_solver). split; [|done]. split; [|by rewrite !Hk by (done || set_solver)].
    eapply root_frame_trans; [apply A2|]. eapply root_frame_weaken; [|exact F3]. set_solver. }
  eapply (wpc_specs root []); [apply emit_keeps|by eapply root_frame_top_level; [apply A2|]| |].
  - intros w3 F3. by apply Hend.
  - intros _ w3 F3 _ _. destruct (Hend w3 F3) as [A3 Hf]. apply wpc_ret; [done|].
    intros x [= <-]. by split.
Qed.

Lemma overLimit_spec meta n mx :
  overLimit meta n = false -> DecodeInt (mget meta FieldMaxIterations) = (mx, true) -> 0 < mx -> n <= mx.
Proof. unfold overLimit. intros Ho E. rewrite E in Ho. simpl in Ho. lia. Qed.

Lemma HandleTrigger_wpc w :
  top_level w root ->
  wpc (HandleTrigger h root)
    (fun r w' => forall x, r = Ok x ->
       (x = action_result ActionSkipped /\ root_frame root [] w w') \/ advanced w w' x)
    (fun w' => exists n, advancing n w w') w.
Proof.
  intros Ht. assert (He := top_level_exists _ _ Ht).
  assert (Hx : forall w', root_frame root [] w w' -> exists n, advancing n w w').
  { intros w' F. exists 0. by apply advancing_frame. }
  apply wpc_get_meta; [done|by apply Hx, root_frame_refl|intros e w1 F _; apply wpc_ret; by auto|].
  intros meta w1 F1 Ht1 Hsn.
  destruct (String.eqb_spec (mget meta FieldState) StateWaitingTrigger) as [Hst|];
    [|apply wpc_ret; [by auto|]; intros x [= <-]; by left]. cbn [negb].
  destruct (ParseTriggerConfig meta) as [trig|e]; [|apply wpc_ret; by auto].
  destruct (trigger_Enabled trig); [|apply wpc_ret; by auto]. cbn [negb].
  destruct (ParseGateConfig meta) as [cfg|e]; [|apply wpc_ret; by auto].
  eapply (wpc_specs root []); [apply deriveIterationCount_keeps|done| |].
  { intros w' F. by eapply Hx, root_frame_trans. }
  intros [c|e] w2 F2 Ht2 _; assert (F12 := root_frame_trans _ _ _ _ _ F1 F2);
    [|apply wpc_ret; by auto]. cbv zeta.
  set (n := wrap64 (c + 1)) in *. destruct (overLimit meta n) eqn:Ho; [apply wpc_ret; by auto|].
  eapply (wpc_specs root []); [apply RunCondition_loop_keeps|done| |].
  { intros w' F. by eapply Hx, root_frame_trans. }
  intros gr w3 F3 Ht3 _. assert (F13 := root_frame_trans _ _ _ _ _ F12 F3).
  destruct (String.eqb (gr_Outcome gr) GatePass); cbn [negb];
    [|apply wpc_ret; [by auto|]; intros x [= <-]; by left].
  assert (Hgo : forall next w4, root_frame root [] w w4 -> top_level w4 root ->
    wpc (advanceTo h root meta n next)
      (fun r w' => forall x, r = Ok x ->
         (x = action_result ActionSkipped /\ root_frame root [] w w') \/ advanced w w' x)
      (fun w' => exists n, advancing n w w') w4).
  { intros next w4 F4 Ht4. eapply wpc_conseq; [by apply advanceTo_wpc| |]; simpl.
    - intros w' A. exists n. by eapply advancing_before.
    - intros r w' A HQ x ->. destruct (HQ x eq_refl) as (-> & H1 & H2 & H3). right.
      apply (advancing_before _ _ _ _ F4) in A as [F _].
      rewrite Hsn in Hst by done. split_and!; try done.
      + intros mx Hmx Hpos. simpl. eapply overLimit_spec; [exact Ho| |done]. by rewrite Hsn.
      + apply (root_frame_field _ _ _ _ _ F); [done|key_mem]. }
  unfold advanceFromTrigger. cbv zeta.
  eapply (wpc_specs root [] _ _ (fun _ => True)); [specs_tac|done| |].
  { intros w' F. by eapply Hx, root_frame_trans. }
  intros [id|e] w4 F4 Ht4 _; assert (F14 := root_frame_trans _ _ _ _ _ F13 F4); [by apply Hgo|].
  eapply (wpc_specs root [] _ _ (fun _ => True)); [specs_tac|done| |].
  { intros w' F. by eapply Hx, root_frame_trans. }
  intros [[id []]|e'] w5 F5 Ht5 _; assert (F15 := root_frame_trans _ _ _ _ _ F14 F5);
    [by apply Hgo|apply wpc_ret; by auto..].
Qed.

(** HandleTrigger: a successful run either left the loop as it was, or the loop
    was waiting for its trigger and is now active on the poured wisp, with the iteration
    recorded, within a positive limit, and the dedup marker untouched. *)
Theorem HandleTrigger_outcome w x w' :
  top_level w root -> runs (HandleTrigger h root) w (Ok x) w' ->
  (x = action_result ActionSkipped /\ root_frame root [] w w') \/ advanced w w' x.
Proof.
  intros Ht Hr. exact (wpc_runs _ _ _ _ _ _ (HandleTrigger_wpc w Ht) Hr x eq_refl).
Qed.

End Trigger.

(** The sample loop, holding for its trigger after a failed gate. *)
Definition trigger_held : RefStore :=
  let s := sample GateModeCondition [failing_script; passing_script] [] in
  let w := set_meta (set_meta (rs_world s) "gc-1" FieldTrigger TriggerEvent)
             "gc-1" FieldTriggerCondition "/city/trigger.sh" in
  snd (run closed0 (put s w)).

Lemma HandleTrigger_outcome_witness :
  let r := run (HandleTrigger handler0 "gc-1") trigger_held in
  let x := mkHandlerResult ActionIterate 2 "" "bd" "" in
  (x = action_result ActionSkipped /\ root_frame "gc-1" [] (rs_world trigger_held) (rs_world (snd r)))
  \/ advanced "gc-1" (rs_world trigger_held) (rs_world (snd r)) x.
Proof.
  cbv zeta. apply (HandleTrigger_outcome handler0 "gc-1");
    [top_level_tac|apply ref_runs; vm_compute; reflexivity].
Defined.
