(* ===== verification/ConvCreate.v ===== *)
(** Creating a convergence loop (internal/convergence/create.go) and retrying a terminated
    one (retry.go): a loop is never live before its configuration is complete, a
    successful creation is what was asked for, a rejected one touches nothing. *)
From S2P Require Import Prelude GoStd ConvMeta ConvKeys ConvStore ConvFrame ConvGate ConvHandler.
From S2P Require Import RefStore ConvHandlerFacts ConvTransitions ConvWisp ConvManual ConvTrigger ConvReconcile ConvMachine.

#[local] Open Scope prog_scope.

(** Vars is a Go map: [p_Vars] lists its entries in the order the range loop of
    CreateHandler visits them, which Go leaves unspecified. *)
Record CreateParams : Type := mkCreateParams {
  p_Formula : string; p_Target : string; p_MaxIterations : Z; p_GateMode : string;
  p_GateCondition : string; p_GateTimeout : string; p_GateTimeoutAction : string;
  p_Title : string; p_Vars : list (string * string); p_CityPath : string;
  p_EvaluatePrompt : string; p_Trigger : string; p_TriggerCondition : string;
  p_Rig : string; p_RetrySource : string
}.

Record CreateResult : Type := mkCreateResult { cr_BeadID : string; cr_FirstWispID : string }.
Record RetryResult : Type := mkRetryResult {
  rr_NewBeadID : string; rr_FirstWispID : string; rr_Iteration : Z
}.

Section Create.
Context `{UnicodeTables} (h : Handler).

(** The gate mode after the default is applied. *)
Definition createGateMode (p : CreateParams) : string :=
  if String.eqb (p_GateMode p) "" then GateModeManual else p_GateMode p.
Definition gateMetaOf (mode condition timeout action : string) : gmap string string :=
  {[ FieldGateMode := mode; FieldGateCondition := condition; FieldGateTimeout := timeout;
     FieldGateTimeoutAction := action ]}.
Definition triggerMetaOf (p : CreateParams) : gmap string string :=
  {[ FieldTrigger := p_Trigger p; FieldTriggerCondition := p_TriggerCondition p ]}.
Definition createTitle (p : CreateParams) : string :=
  if String.eqb (p_Title p) "" then "Convergence: " +:+ p_Formula p else p_Title p.

(** The checks before any state is created. *)
Definition validateCreate (p : CreateParams) : res TriggerConfig :=
  if String.eqb (p_Formula p) "" then Err (errmsg "formula is required" [])
  else if String.eqb (p_Target p) "" then Err (errmsg "target is required" [])
  else if p_MaxIterations p <=? 0 then Err (errmsg "max_iterations must be positive" [])
  else match ParseGateConfig (gateMetaOf (createGateMode p) (p_GateCondition p) (p_GateTimeout p)
                                (p_GateTimeoutAction p)) with
       | Err e => Err e
       | Ok _ => ParseTriggerConfig (triggerMetaOf p)
       end.

(** Step 2's fields, in order. *)
Definition createWrites (p : CreateParams) : list (string * string) :=
  [ (FieldFormula, p_Formula p); (FieldTarget, p_Target p);
    (FieldMaxIterations, EncodeInt (p_MaxIterations p)); (FieldGateMode, createGateMode p);
    (FieldGateCondition, p_GateCondition p); (FieldGateTimeout, p_GateTimeout p);
    (FieldGateTimeoutAction, p_GateTimeoutAction p); (FieldCityPath, p_CityPath p);
    (FieldRig, p_Rig p); (FieldEvaluatePrompt, p_EvaluatePrompt p);
    (FieldTrigger, p_Trigger p); (FieldTriggerCondition, p_TriggerCondition p) ]
  ++ (if String.eqb (p_RetrySource p) "" then [] else [(FieldRetrySource, p_RetrySource p)]).

(** closeBead: terminates the partial bead and returns the cause. *)
Definition rollback {A} (beadID closeReason : string) (cause : error) : prog (res A) :=
  ignore! call (SetMetadata beadID FieldState StateTerminated) in
  ignore! call (CloseBead beadID closeReason) in
  Ret (Err cause).

(** A write that rolls the bead back when it fails. *)
Definition createWrite {A} (beadID closeReason key value : string) (desc : error -> error)
    (k : prog (res A)) : prog (res A) :=
  let! r := call (SetMetadata beadID key value) in
  match r with Ok _ => k | Err e => rollback beadID closeReason (desc e) end.

Fixpoint createFields {A} (beadID closeReason : string) (ws : list (string * string))
    (k : prog (res A)) : prog (res A) :=
  match ws with
  | [] => k
  | (key, value) :: ws' =>
      createWrite beadID closeReason key value
        (fun e => Errorf "setting %s on convergence bead" [key] [e])
        (createFields beadID closeReason ws' k)
  end.

Fixpoint createVars {A} (beadID closeReason : string) (vs : list (string * string))
    (k : prog (res A)) : prog (res A) :=
  match vs with
  | [] => k
  | (key, value) :: vs' =>
      createWrite beadID closeReason (VarPrefix +:+ key) value
        (fun e => Errorf "setting var %q on convergence bead" [key] [e])
        (createVars beadID closeReason vs' k)
  end.

Definition createdPayload (p : CreateParams) (firstWispID : string) : Payload :=
  PCreated (mkCreatedPayload (p_Formula p) (p_Target p) "" (createGateMode p) (p_MaxIterations p)
    (createTitle p) firstWispID (NullableString (p_RetrySource p))).

(** The entry gate of a trigger-gated loop. *)
Definition createGated (p : CreateParams) (beadID closeReason : string) : prog (res CreateResult) :=
  createWrite beadID closeReason FieldIteration (EncodeInt 0) (wrap "setting iteration") (
  createWrite beadID closeReason FieldState StateWaitingTrigger
    (wrap "setting waiting_trigger state") (
  let! _ := emitEvent h EventCreated (EventIDCreated beadID) beadID (createdPayload p "") in
  Ret (Ok (mkCreateResult beadID "")))).

(** Without a trigger: activate and pour the first wisp. *)
Definition createActive (p : CreateParams) (beadID closeReason : string) : prog (res CreateResult) :=
  createWrite beadID closeReason FieldState StateActive (wrap "setting active state") (
  let! r := call (PourWisp beadID (p_Formula p) (IdempotencyKey beadID 1)
                    (list_to_map (p_Vars p)) (p_EvaluatePrompt p)) in
  match r with
  | Err e => rollback beadID closeReason (wrap "pouring first wisp" e)
  | Ok firstWispID =>
      createWrite beadID closeReason FieldActiveWisp firstWispID (wrap "setting active wisp") (
      createWrite beadID closeReason FieldIteration (EncodeInt 1) (wrap "setting iteration") (
      let! _ := emitEvent h EventCreated (EventIDCreated beadID) beadID
                  (createdPayload p firstWispID) in
      Ret (Ok (mkCreateResult beadID firstWispID))))
  end).

Definition createCloseReason (p : CreateParams) : string :=
  if String.eqb (p_RetrySource p) "" then CloseReasonCreateRollback else CloseReasonRetryRollback.

(** CreateHandler on the bead just created. *)
Definition createOn (p : CreateParams) (triggerConfig : TriggerConfig) (beadID : string)
  : prog (res CreateResult) :=
  let closeReason := createCloseReason p in
  createWrite beadID closeReason FieldState StateCreating (wrap "setting creating state") (
  createFields beadID closeReason (createWrites p) (
  createVars beadID closeReason (p_Vars p) (
  if trigger_Enabled triggerConfig then createGated p beadID closeReason
  else createActive p beadID closeReason))).

Definition CreateHandler (p : CreateParams) : prog (res CreateResult) :=
  match validateCreate p with
  | Err e => Ret (Err e)
  | Ok triggerConfig =>
      try! beadID := call (CreateConvergenceBead (createTitle p)) or "creating convergence bead" in
      createOn p triggerConfig beadID
  end.

(** * retry.go *)

Definition retryParams (sourceBeadID : string) (meta : gmap string string) (maxIterations : Z)
  : CreateParams :=
  mkCreateParams (mget meta FieldFormula) (mget meta FieldTarget) maxIterations
    (mget meta FieldGateMode) (mget meta FieldGateCondition) (mget meta FieldGateTimeout)
    (mget meta FieldGateTimeoutAction) ("Retry of " +:+ sourceBeadID)
    (map_to_list (ExtractVars meta)) (mget meta FieldCityPath) (mget meta FieldEvaluatePrompt)
    (mget meta FieldTrigger) (mget meta FieldTriggerCondition) (mget meta FieldRig) sourceBeadID.

Definition RetryHandler (sourceBeadID : string) (maxIterations : Z) : prog (res RetryResult) :=
  try! meta := call (GetMetadata sourceBeadID)
    else (fun e => Errorf "reading source bead %q metadata" [sourceBeadID] [e]) in
  if negb (String.eqb (mget meta FieldState) StateTerminated)
  then Ret (Err (errmsg "cannot retry bead %q: state is %q, expected %q"
                   [sourceBeadID; mget meta FieldState; StateTerminated])) else
  if String.eqb (mget meta FieldTerminalReason) TerminalApproved
  then Ret (Err (errmsg "cannot retry bead %q: terminal_reason is %q (approved loops cannot be retried)"
                   [sourceBeadID; TerminalApproved])) else
  match ParseGateConfig (gateMetaOf (mget meta FieldGateMode) (mget meta FieldGateCondition)
          (mget meta FieldGateTimeout) (mget meta FieldGateTimeoutAction)) with
  | Err e => Ret (Err (Errorf "source bead %q has invalid gate config" [sourceBeadID] [e]))
  | Ok _ =>
      try! result := CreateHandler (retryParams sourceBeadID meta maxIterations) in
      Ret (Ok (mkRetryResult (cr_BeadID result) (cr_FirstWispID result) 1))
  end.

End Create.

Section Create.
Context `{UnicodeTables} (h : Handler) (p : CreateParams).

(** A live loop is one the controller would drive. *)
Definition live (w : World) (id : string) : Prop :=
  field w id FieldState ∈ [StateActive; StateWaitingTrigger; StateWaitingManual].
(** The root carries every field of the request. *)
Definition has_fields (ws : list (string * string)) (w : World) (id : string) : Prop :=
  Forall (fun kv => field w id kv.1 = kv.2) ws.
Definition configured (w : World) (id : string) : Prop := has_fields (createWrites p) w id.
Definition safe_live (id : string) (w : World) : Prop := live w id -> configured w id.

Definition configKeys : list string :=
  [FieldFormula; FieldTarget; FieldMaxIterations; FieldGateMode; FieldGateCondition;
   FieldGateTimeout; FieldGateTimeoutAction; FieldCityPath; FieldRig; FieldEvaluatePrompt;
   FieldTrigger; FieldTriggerCondition; FieldRetrySource].

Lemma createWrites_keys : forall k, k ∈ map fst (createWrites p) -> k ∈ configKeys.
Proof.
  unfold createWrites. destruct (String.eqb (p_RetrySource p) ""); apply keys_incl; reflexivity.
Qed.

Lemma createWrites_nodup : NoDup (map fst (createWrites p)).
Proof.
  unfold createWrites. destruct (String.eqb (p_RetrySource p) "");
    apply (bool_decide_unpack _); vm_compute; exact I.
Qed.

Lemma configKeys_protected : Forall (fun k => RequiresToken k = true) configKeys.
Proof. repeat constructor. Qed.

Section One.
Context (id : string) (reason : string).

Lemma has_fields_frame K ws w w' :
  root_frame id K w w' -> (forall k, k ∈ map fst ws -> k ∈ configKeys /\ k ∉ K) ->
  has_fields ws w id -> has_fields ws w' id.
Proof.
  intros F HK. assert (Hp := configKeys_protected). rewrite Forall_forall in Hp.
  unfold has_fields. rewrite !List.Forall_forall. intros HF kv Hin.
  destruct (HK kv.1) as [Hc Hn]; [by apply list_elem_of_In, in_map|].
  rewrite (root_frame_field _ _ _ _ _ F) by auto. auto.
Qed.

Lemma configured_frame K w w' :
  root_frame id K w w' -> forallb (fun k => negb (key_in k configKeys)) K = true ->
  configured w id -> configured w' id.
Proof.
  intros F HK. apply (has_fields_frame K); [done|]. intros k Hk%createWrites_keys.
  split; [done|]. intros HkK. rewrite forallb_forall in HK.
  apply list_elem_of_In in HkK. apply HK, negb_true_iff in HkK. by apply key_not_in in HkK.
Qed.

Lemma rollback_wpc {A} e w :
  top_level w id -> safe_live id w ->
  wpc (rollback (A := A) id reason e) (fun r _ => r = Err e) (safe_live id) w.
Proof.
  intros Ht HI. assert (He := top_level_exists _ _ Ht). unfold rollback.
  apply wpc_call; [done|]. intros r w1 Hst.
  apply set_metadata_cases in Hst as [F Hc]; [|done|done].
  assert (HI1 : safe_live id w1).
  { unfold safe_live, live in *. destruct Hc as [->|[_ ->]]; intros Hl.
    - exfalso. revert Hl. apply key_not_in. reflexivity.
    - eapply configured_frame; [exact F|reflexivity|auto]. }
  apply wpc_call; [done|]. intros r2 w2 Hst.
  apply (env_step_frame id) in Hst; [|by eapply root_frame_exists|done].
  apply wpc_ret; [|done]. intros Hl. eapply configured_frame; [exact Hst|reflexivity|].
  apply HI1. unfold live in *.
  by rewrite (root_frame_field _ _ _ _ _ Hst) in Hl by (done || set_solver).
Qed.

Section Walk.
Context {A : Type} (Q : res A -> World -> Prop) (HE : forall e w, Q (Err e) w).

(** A write that is not a state write, on a root that is not live yet. *)
Lemma wpc_createWrite_dead key v desc (k : prog (res A)) w :
  top_level w id -> ~ live w id -> key <> FieldState ->
  (forall w', root_frame id [key] w w' -> top_level w' id -> ~ live w' id ->
     field w' id key = v -> wpc k Q (safe_live id) w') ->
  wpc (createWrite id reason key v desc k) Q (safe_live id) w.
Proof.
  intros Ht Hd Hk Hgo. assert (He := top_level_exists _ _ Ht). unfold createWrite.
  apply wpc_call; [by intros ?|]. intros r w1 Hst. assert (F := Hst).
  apply (env_step_frame id) in F; [|done|done]. simpl in F. rewrite String.eqb_refl in F.
  assert (Ht1 := root_frame_top_level _ _ _ _ F Ht).
  assert (Hd1 : ~ live w1 id).
  { unfold live. rewrite (root_frame_field _ _ _ _ _ F) by (done || set_solver). done. }
  destruct r as [[]|e].
  - apply Hgo; try done. by eapply set_metadata_ok.
  - eapply wpc_conseq; [by apply rollback_wpc; [|intros ?]|done|]. intros r w' _ ->. apply HE.
Qed.

(** A write of a late key on a configured root. *)
Lemma wpc_createWrite_late key v desc (k : prog (res A)) w :
  top_level w id -> configured w id -> RequiresToken key = true ->
  negb (key_in key configKeys) = true ->
  (forall w', root_frame id [key] w w' -> top_level w' id -> configured w' id ->
     field w' id key = v -> wpc k Q (safe_live id) w') ->
  wpc (createWrite id reason key v desc k) Q (safe_live id) w.
Proof.
  intros Ht Hc Hp Hk Hgo. assert (He := top_level_exists _ _ Ht). unfold createWrite.
  apply wpc_call; [by intros ?|]. intros r w1 Hst. assert (F := Hst).
  apply (env_step_frame id) in F; [|done|done]. simpl in F. rewrite String.eqb_refl in F.
  assert (Ht1 := root_frame_top_level _ _ _ _ F Ht).
  assert (Hc1 : configured w1 id).
  { eapply configured_frame; [exact F| |done]. cbn [forallb]. by rewrite Hk. }
  destruct r as [[]|e].
  - apply Hgo; try done. by eapply set_metadata_ok.
  - eapply wpc_conseq; [by apply rollback_wpc; [|intros ?]|done|]. intros r w' _ ->. apply HE.
Qed.

(** The write that marks the bead as being created. *)
Lemma wpc_createWrite_creating desc (k : prog (res A)) w :
  top_level w id -> ~ live w id ->
  (forall w', top_level w' id -> ~ live w' id -> wpc k Q (safe_live id) w') ->
  wpc (createWrite id reason FieldState StateCreating desc k) Q (safe_live id) w.
Proof.
  intros Ht Hd Hgo. assert (He := top_level_exists _ _ Ht). unfold createWrite.
  apply wpc_call; [by intros ?|]. intros r w1 Hst.
  apply set_metadata_cases in Hst as [F Hc]; [|done|done].
  assert (Ht1 := root_frame_top_level _ _ _ _ F Ht).
  assert (Hd1 : ~ live w1 id).
  { unfold live. destruct Hc as [->|[_ ->]]; [|done]. apply key_not_in. reflexivity. }
  destruct r as [[]|e]; [by apply Hgo|].
  eapply wpc_conseq; [by apply rollback_wpc; [|intros ?]|done|]. intros r w' _ ->. apply HE.
Qed.

Lemma wpc_createFields ws (k : prog (res A)) w :
  top_level w id -> ~ live w id -> NoDup (map fst ws) ->
  (forall key, key ∈ map fst ws -> key ∈ configKeys) ->
  (forall w', top_level w' id -> ~ live w' id -> root_frame id (map fst ws) w w' ->
     has_fields ws w' id -> wpc k Q (safe_live id) w') ->
  wpc (createFields id reason ws k) Q (safe_live id) w.
Proof.
  revert w. induction ws as [|[key v] ws IH]; intros w Ht Hd Hnd HK Hgo; cbn [createFields].
  { apply Hgo; [done|done| |constructor]. by apply root_frame_refl, top_level_exists. }
  simpl in Hnd. apply NoDup_cons in Hnd as [Hn Hnd].
  assert (Hkey : key ∈ configKeys) by (apply HK; set_solver).
  apply wpc_createWrite_dead; [done|done| |].
  { intros ->. revert Hkey. apply key_not_in. reflexivity. }
  intros w1 F1 Ht1 Hd1 Hv. apply IH; [done|done|done|set_solver|].
  intros w2 Ht2 Hd2 F2 HF. apply Hgo; [done|done| |].
  - eapply root_frame_trans; eapply root_frame_weaken; [|exact F1| |exact F2]; set_solver.
  - constructor; [|done]. simpl. assert (Hp := configKeys_protected).
    rewrite Forall_forall in Hp. rewrite (root_frame_field _ _ _ _ _ F2) by auto. done.
Qed.

Lemma wpc_createVars vs (k : prog (res A)) w :
  top_level w id -> ~ live w id -> configured w id ->
  (forall w', top_level w' id -> ~ live w' id -> configured w' id -> wpc k Q (safe_live id) w') ->
  wpc (createVars id reason vs k) Q (safe_live id) w.
Proof.
  revert w. induction vs as [|[key v] vs IH]; intros w Ht Hd Hc Hgo; cbn [createVars]; [by apply Hgo|].
  apply wpc_createWrite_dead; [done|done|by destruct key|].
  intros w1 F1 Ht1 Hd1 _. apply IH; [done|done| |done].
  eapply configured_frame; [exact F1| |done]. reflexivity.
Qed.

End Walk.

End One.

(** What a successful creation left behind. *)
Definition created (id : string) (trig : TriggerConfig) (w' : World) (x : CreateResult) : Prop :=
  cr_BeadID x = id /\ top_level w' id /\ configured w' id
  /\ (if trigger_Enabled trig
      then field w' id FieldState = StateWaitingTrigger /\ cr_FirstWispID x = ""
           /\ field w' id FieldIteration = "0"
      else field w' id FieldState = StateActive /\ field w' id FieldIteration = "1"
           /\ field w' id FieldActiveWisp = cr_FirstWispID x).

Section On.
Context (id : string) (trig : TriggerConfig).
Let Q := fun (r : res CreateResult) w' => forall x, r = Ok x -> created id trig w' x.

Lemma Q_err e w : Q (Err e) w.
Proof. by intros x. Qed.

(** The closing steps of both variants: the event, then the result. *)
Lemma wpc_created first w :
  top_level w id -> configured w id ->
  (if trigger_Enabled trig
   then field w id FieldState = StateWaitingTrigger /\ first = "" /\ field w id FieldIteration = "0"
   else field w id FieldState = StateActive /\ field w id FieldIteration = "1"
        /\ field w id FieldActiveWisp = first) ->
  wpc (let! _ := emitEvent h EventCreated (EventIDCreated id) id (createdPayload p first) in
       Ret (Ok (mkCreateResult id first))) Q (safe_live id) w.
Proof.
  intros Ht Hc Hf. eapply (wpc_specs id []); [apply emit_keeps|done| |].
  - intros w' F _. eapply configured_frame; [exact F|reflexivity|done].
  - intros _ w' F Ht' _. assert (Hc' : configured w' id)
      by (eapply configured_frame; [exact F|reflexivity|done]).
    apply wpc_ret; [by intros _|]. intros x [= <-]. split; [done|]. split; [done|]. split; [done|].
    assert (Hk := fun k => root_frame_field _ _ _ _ k F). cbn [cr_FirstWispID].
    by destruct (trigger_Enabled trig); rewrite !Hk by (done || set_solver).
Qed.

Lemma createGated_wpc reason w :
  trigger_Enabled trig = true -> top_level w id -> configured w id ->
  wpc (createGated h p id reason) Q (safe_live id) w.
Proof.
  intros Htr Ht Hc. unfold createGated.
  apply wpc_createWrite_late; [apply Q_err|done|done|done|done|]. intros w1 F1 Ht1 Hc1 H1.
  apply wpc_createWrite_late; [apply Q_err|done|done|done|done|]. intros w2 F2 Ht2 Hc2 H2.
  apply wpc_created; [done|done|]. rewrite Htr. split; [done|]. split; [done|].
  by rewrite (root_frame_field _ _ _ _ _ F2) by (done || set_solver).
Qed.

Lemma createActive_wpc reason w :
  trigger_Enabled trig = false -> top_level w id -> configured w id ->
  wpc (createActive h p id reason) Q (safe_live id) w.
Proof.
  intros Htr Ht Hc. unfold createActive.
  apply wpc_createWrite_late; [apply Q_err|done|done|done|done|]. intros w1 F1 Ht1 Hc1 H1.
  assert (Hx : forall w', root_frame id [] w1 w' -> configured w' id)
    by (intros w' F; eapply configured_frame; [exact F|reflexivity|done]).
  eapply (wpc_specs id [] _ _ (fun _ => True)); [specs_tac|done|by intros w' F _; apply Hx|].
  intros [first|e] w2 F2 Ht2 _.
  2: { eapply wpc_conseq; [apply rollback_wpc; [done|by intros _; apply Hx]|done|].
       intros r w' _ ->. apply Q_err. }
  apply wpc_createWrite_late; [apply Q_err|done|by apply Hx|done|done|]. intros w3 F3 Ht3 Hc3 H3.
  apply wpc_createWrite_late; [apply Q_err|done|done|done|done|]. intros w4 F4 Ht4 Hc4 H4.
  apply wpc_created; [done|done|]. rewrite Htr.
  assert (Hk2 := fun k => root_frame_field _ _ _ _ k F2).
  assert (Hk3 := fun k => root_frame_field _ _ _ _ k F3).
  assert (Hk4 := fun k => root_frame_field _ _ _ _ k F4).
  split; [by rewrite Hk4, Hk3, Hk2 by (done || set_solver)|]. split; [done|].
  by rewrite Hk4 by (done || set_solver).
Qed.

Lemma createOn_wpc w :
  top_level w id -> field w id FieldState = "" ->
  wpc (createOn h p trig id) Q (safe_live id) w.
Proof.
  intros Ht Hs.
  assert (Hd : ~ live w id) by (unfold live; rewrite Hs; apply key_not_in; reflexivity).
  unfold createOn.
  apply wpc_createWrite_creating; [apply Q_err|done|done|]. intros w1 Ht1 Hd1.
  apply wpc_createFields; [apply Q_err|done|done|apply createWrites_nodup|apply createWrites_keys|].
  intros w2 Ht2 Hd2 F2 Hc2.
  apply wpc_createVars; [apply Q_err|done|done|done|]. intros w3 Ht3 Hd3 Hc3.
  destruct (trigger_Enabled trig) eqn:E; [by apply createGated_wpc|by apply createActive_wpc].
Qed.

End On.

Lemma create_bead_ok title w id w' :
  env_step w (CreateConvergenceBead title) (Ok id) w' ->
  top_level w' id /\ field w' id FieldState = "".
Proof.
  intros (w1 & _ & b & Hn & Hid & Hp & Hk & _ & Hm & ->). unfold top_level, field. simpl.
  rewrite lookup_insert, decide_True by done. split; [split; [done|by exists b]|].
  unfold mget. by rewrite Hm.
Qed.

(** The loop a request creates, with the trigger configuration it asked for. *)
Definition create_result (w' : World) (x : CreateResult) : Prop :=
  exists trig, validateCreate p = Ok trig /\ created (cr_BeadID x) trig w' x.

Lemma CreateHandler_wpc w :
  wpc (CreateHandler h p) (fun r w' => forall x, r = Ok x -> create_result w' x) (fun _ => True) w.
Proof.
  unfold CreateHandler. destruct (validateCreate p) as [trig|e] eqn:Ev; [|by apply wpc_ret].
  apply wpc_call; [done|]. intros [id|e] w1 Hst; [|by apply wpc_ret].
  apply create_bead_ok in Hst as [Ht Hs].
  eapply wpc_conseq; [by apply (createOn_wpc id trig)|done|].
  intros r w' _ HQ x ->. specialize (HQ x eq_refl). exists trig. split; [done|].
  by assert (Hid : cr_BeadID x = id) by apply HQ; rewrite Hid.
Qed.

(** CreateHandler: a successful creation passed every check and leaves a root
    bead that carries all the requested fields and is active on its first wisp at
    iteration one, or, with an event trigger, holds in waiting_trigger at iteration
    zero with no wisp poured. *)
Theorem CreateHandler_outcome w x w' :
  runs (CreateHandler h p) w (Ok x) w' -> create_result w' x.
Proof. intros Hr. exact (wpc_runs _ _ _ _ _ _ (CreateHandler_wpc w) Hr x eq_refl). Qed.

(** A loop is never live half configured: from the moment its bead exists, at
    every point where CreateHandler can stop, whatever failed, a bead in a state the
    controller drives already carries every requested field. *)
Theorem creation_never_half_live id trig w w' :
  top_level w id -> field w id FieldState = "" -> reaches (createOn h p trig id) w w' ->
  live w' id -> configured w' id.
Proof.
  intros Ht Hs Hr. exact (wpc_reaches _ _ _ _ _ (createOn_wpc id trig w Ht Hs) Hr).
Qed.

End Create.

(** * Retry *)

Section Retry.
Context `{UnicodeTables} (h : Handler).

(** The configuration a retry carries over. *)
Definition carriedKeys : list string :=
  [FieldFormula; FieldTarget; FieldGateCondition; FieldGateTimeout; FieldGateTimeoutAction;
   FieldCityPath; FieldRig; FieldEvaluatePrompt; FieldTrigger; FieldTriggerCondition].

Definition retried (src : string) (max : Z) (w w' : World) (x : RetryResult) : Prop :=
  field w src FieldState = StateTerminated
  /\ field w src FieldTerminalReason <> TerminalApproved
  /\ (forall k, k ∈ carriedKeys -> field w' (rr_NewBeadID x) k = field w src k)
  /\ field w' (rr_NewBeadID x) FieldMaxIterations = EncodeInt max /\ 0 < max
  /\ (src <> "" -> field w' (rr_NewBeadID x) FieldRetrySource = src)
  /\ field w' (rr_NewBeadID x) FieldState ∈ [StateActive; StateWaitingTrigger].

Lemma created_retried src max meta w w' x :
  snapshot w src meta -> mget meta FieldState = StateTerminated ->
  mget meta FieldTerminalReason <> TerminalApproved ->
  create_result (retryParams src meta max) w' x ->
  retried src max w w' (mkRetryResult (cr_BeadID x) (cr_FirstWispID x) 1).
Proof.
  intros Hsn Hst Hr (trig & Hv & _ & _ & Hc & Htr).
  assert (Hf : forall k v, In (k, v) (createWrites (retryParams src meta max)) ->
    field w' (cr_BeadID x) k = v).
  { intros k v Hin. unfold configured, has_fields in Hc. rewrite List.Forall_forall in Hc.
    exact (Hc _ Hin). }
  unfold retried. simpl rr_NewBeadID. rewrite <- !Hsn by done. split; [done|]. split; [done|].
  split.
  { intros k Hk. rewrite <- Hsn.
    - apply Hf. unfold createWrites. rewrite in_app_iff. left. simpl.
      unfold carriedKeys in Hk. rewrite !elem_of_cons, elem_of_nil in Hk.
      repeat (destruct Hk as [->|Hk]; [naive_solver|]). done.
    - revert k Hk. apply Forall_forall. repeat constructor. }
  split; [apply Hf; simpl; naive_solver|]. split.
  { unfold validateCreate in Hv. simpl in Hv. repeat case_match; (done || lia). }
  split.
  { intros Hs. apply Hf. unfold createWrites. rewrite in_app_iff. right. simpl.
    apply String.eqb_neq in Hs. rewrite Hs. by left. }
  destruct (trigger_Enabled trig); destruct Htr as [-> _]; set_solver.
Qed.

(** RetryHandler: a successful retry started from a terminated loop that was not
    approved, and the new loop carries the source's configuration, the given positive
    iteration limit and the source's id. *)
Theorem RetryHandler_outcome src max w x w' :
  top_level w src -> runs (RetryHandler h src max) w (Ok x) w' -> retried src max w w' x.
Proof.
  intros Ht Hr.
  assert (HQ : wpc (RetryHandler h src max) (fun r w' => forall x, r = Ok x -> retried src max w w' x)
                 (fun _ => True) w);
    [|exact (wpc_runs _ _ _ _ _ _ HQ Hr x eq_refl)].
  apply wpc_get_meta; [done|done|intros; by apply wpc_ret|]. intros meta w1 F Ht1 Hsn. cbv zeta.
  destruct (String.eqb_spec (mget meta FieldState) StateTerminated) as [Hs|]; [|by apply wpc_ret].
  destruct (String.eqb_spec (mget meta FieldTerminalReason) TerminalApproved) as [|Hn];
    [by apply wpc_ret|].
  cbn [negb]. destruct (ParseGateConfig _) as [cfg|e]; [|by apply wpc_ret].
  eapply wpc_seq; [apply CreateHandler_wpc|done|].
  intros [y|e] w2 _ HC; [|by apply wpc_ret].
  apply wpc_ret; [done|]. intros z [= <-]. eapply created_retried; eauto.
Qed.

End Retry.

(** A request for a loop, and the store it is made on. *)
Definition request0 : CreateParams :=
  mkCreateParams "review" "agent-a" 3 "" "" "" "" "" [("doc_path", "a.md")] "/city" "" "" "" "" "".
Definition empty_store : RefStore := mkRefStore (mkWorld ∅ []) 1 [] [].

Lemma CreateHandler_outcome_witness :
  let r := run (CreateHandler handler0 request0) empty_store in
  create_result request0 (rs_world (snd r)) (mkCreateResult "bd" "bd0").
Proof.
  cbv zeta. apply (CreateHandler_outcome handler0 request0 (rs_world empty_store)).
  apply ref_runs. vm_compute. reflexivity.
Defined.

Lemma creation_never_half_live_witness :
  let s := snd (run (call (CreateConvergenceBead "t")) empty_store) in
  let w' := rs_world (run_upto 16 (createOn handler0 request0 (mkTriggerConfig "" "") "bd") s) in
  configured request0 w' "bd".
Proof.
  cbv zeta. apply (creation_never_half_live handler0 request0 "bd" (mkTriggerConfig "" "")
    (rs_world (snd (run (call (CreateConvergenceBead "t")) empty_store))));
    [top_level_tac|vm_compute; reflexivity|apply run_upto_reaches|].
  apply eqb_or_elem. vm_compute. reflexivity.
Defined.

Lemma RetryHandler_outcome_witness :
  let s := snd (run (StopHandler handler0 "gc-1" "bob") manual_held) in
  let r := run (RetryHandler handler0 "gc-1" 5) s in
  retried "gc-1" 5 (rs_world s) (rs_world (snd r)) (mkRetryResult "bd" "bd0" 1).
Proof.
  cbv zeta. apply (RetryHandler_outcome handler0 "gc-1" 5);
    [top_level_tac|apply ref_runs; vm_compute; reflexivity].
Defined.
