(* ===== verification/ConvRecovery.v ===== *)
(** Properties of startup recovery (reconcile.go): interrupted terminal transitions are
    completed, the report accounts for every bead, and the window in which recovery
    loses a manual hold. *)
From S2P Require Import Prelude GoStd ConvMeta ConvKeys ConvStore ConvFrame ConvGate ConvHandler.
From S2P Require Import ConvHandlerFacts ConvTransitions ConvWisp ConvManual ConvTrigger.
From S2P Require Import ConvReconcile ConvMachine RefStore.
#[local] Open Scope prog_scope.

Section Recovery.
Context `{UnicodeTables} (h : Handler) (root : string).

(** A loop whose end was decided but not completed. *)
Definition ending (w : World) : Prop :=
  field w root FieldState = StateCreating \/ field w root FieldState = StateTerminated
  \/ (field w root FieldState ∈ [StateActive; StateWaitingManual; StateWaitingTrigger]
      /\ field w root FieldTerminalReason <> "").

(** The reason recovery ends it with. *)
Definition ending_reason (w : World) : string :=
  if String.eqb (field w root FieldState) StateCreating then TerminalPartialCreation
  else field w root FieldTerminalReason.

Definition concluded (w w' : World) : Prop :=
  field w' root FieldState = StateTerminated /\ status w' root = "closed"
  /\ field w' root FieldTerminalReason = ending_reason w.

(** Closing the root at the end of a recovery path. *)
Lemma wpc_close (f : res unit -> prog rresult) Q w K :
  top_level w root ->
  (forall e w', root_frame root K w w' -> wpc (f (Err e)) Q (fun _ => True) w') ->
  (forall w', root_frame root K w w' -> top_level w' root -> status w' root = "closed" ->
     wpc (f (Ok tt)) Q (fun _ => True) w') ->
  wpc (bind (call (CloseBead root CloseReasonReconcileDone)) f) Q (fun _ => True) w.
Proof.
  intros Ht HE HO. assert (He := top_level_exists _ _ Ht). apply wpc_call; [done|].
  intros r w' Hst. assert (F := Hst). apply (env_step_frame root) in F; [|done|done].
  assert (F' : root_frame root K w w') by (eapply root_frame_weaken; [|exact F]; set_solver).
  destruct r as [[]|e]; [|by apply HE].
  apply HO; [done|by eapply root_frame_top_level|]. by eapply close_bead_ok.
Qed.

(** A write of a root key, with both replies. *)
Lemma wpc_set {A} k v (f : res unit -> prog A) Q w :
  top_level w root -> RequiresToken k = true ->
  (forall e w', root_frame root [k] w w' -> wpc (f (Err e)) Q (fun _ => True) w') ->
  (forall w', root_frame root [k] w w' -> top_level w' root -> field w' root k = v ->
     wpc (f (Ok tt)) Q (fun _ => True) w') ->
  wpc (bind (call (SetMetadata root k v)) f) Q (fun _ => True) w.
Proof.
  intros Ht Hk HE HO. assert (He := top_level_exists _ _ Ht). apply wpc_call; [done|].
  intros r w' Hst. apply set_metadata_cases in Hst as [F Hc]; [|done|done].
  destruct r as [[]|e]; [|by apply HE].
  apply HO; [done|by eapply root_frame_top_level|]. by destruct Hc as [|[? _]].
Qed.

Definition ok_then (P : World -> Prop) (r : rresult) (w' : World) : Prop := r.2 = None -> P w'.

Lemma wpc_failed P a e w : wpc (failed a e) (ok_then P) (fun _ => True) w.
Proof. by apply wpc_ret. Qed.

Lemma creating_wpc w :
  top_level w root ->
  wpc (reconcileCreating root) (ok_then (fun w' =>
    field w' root FieldState = StateTerminated /\ status w' root = "closed"
    /\ field w' root FieldTerminalReason = TerminalPartialCreation)) (fun _ => True) w.
Proof.
  intros Ht. unfold reconcileCreating.
  apply wpc_set; [done|done|intros; apply wpc_failed|]. intros w1 _ Ht1 H1.
  apply wpc_set; [done|done|intros; apply wpc_failed|]. intros w2 F2 Ht2 _.
  apply wpc_set; [done|done|intros; apply wpc_failed|]. intros w3 F3 Ht3 H3.
  eapply (wpc_close _ _ _ []); [done|intros; apply wpc_failed|]. intros w4 F4 Ht4 Hc.
  apply wpc_ret; [done|]. intros _.
  assert (Hk2 := fun k => root_frame_field _ _ _ _ k F2).
  assert (Hk3 := fun k => root_frame_field _ _ _ _ k F3).
  assert (Hk4 := fun k => root_frame_field _ _ _ _ k F4).
  split; [by rewrite Hk4 by (done || set_solver)|]. split; [done|].
  by rewrite Hk4, Hk3, Hk2 by (done || set_solver).
Qed.

Definition endKeys : list string := [FieldTerminalActor; FieldLastProcessedWisp].

Lemma completeTerminal_wpc meta w :
  top_level w root -> mget meta FieldState <> StateTerminated ->
  wpc (completeTerminalTransition h root meta) (ok_then (fun w' =>
    field w' root FieldState = StateTerminated /\ status w' root = "closed"
    /\ field w' root FieldTerminalReason = field w root FieldTerminalReason)) (fun _ => True) w.
Proof.
  intros Ht Hm. unfold completeTerminalTransition.
  apply String.eqb_neq in Hm. rewrite Hm. cbn [negb].
  eapply (wpc_specs root endKeys _ _ (fun _ => True));
    [unfold backfillTerminalActor; specs_tac|done|done|].
  intros [[]|e] w1 F1 Ht1 _; [|apply wpc_failed].
  eapply (wpc_specs root endKeys _ _ (fun _ => True)); [unfold childrenStats; specs_tac|done|done|].
  intros stats w2 F2 Ht2 _.
  eapply (wpc_specs root endKeys _ _ (fun _ => True));
    [unfold recoveryTerminated, emitRecoveryEvent; specs_tac|done|done|].
  intros _ w3 F3 Ht3 _.
  assert (F13 := root_frame_trans _ _ _ _ _ (root_frame_trans _ _ _ _ _ F1 F2) F3).
  apply wpc_set; [done|done|intros; apply wpc_failed|]. intros w4 F4 Ht4 H4.
  eapply (wpc_close _ _ _ endKeys); [done|intros; apply wpc_failed|]. intros w5 F5 Ht5 Hc.
  eapply (wpc_specs root endKeys _ _ (fun _ => True)); [specs_tac|done|done|].
  intros _ w6 F6 Ht6 _. apply wpc_ret; [done|]. intros _.
  assert (F56 := root_frame_trans _ _ _ _ _ F5 F6).
  assert (Hk1 := fun k => root_frame_field _ _ _ _ k F13).
  assert (Hk4 := fun k => root_frame_field _ _ _ _ k F4).
  assert (Hk5 := fun k => root_frame_field _ _ _ _ k F56).
  split; [by rewrite Hk5 by (done || key_mem)|].
  split; [by eapply root_frame_closed; [exact F6|]|].
  by rewrite Hk5, Hk4, Hk1 by (done || key_mem).
Qed.

Lemma terminated_wpc meta w :
  top_level w root ->
  wpc (reconcileTerminatedNotClosed h root meta) (ok_then (fun w' =>
    root_frame root endKeys w w' /\ status w' root = "closed")) (fun _ => True) w.
Proof.
  intros Ht. assert (He := top_level_exists _ _ Ht). unfold reconcileTerminatedNotClosed.
  apply wpc_call; [done|]. intros r w1 Hst. assert (F := Hst).
  apply (env_step_frame root) in F; [|done|done].
  assert (F1 : root_frame root endKeys w w1) by (eapply root_frame_weaken; [|exact F]; set_solver).
  assert (Ht1 := root_frame_top_level _ _ _ _ F1 Ht).
  destruct r as [i|e]; [|apply wpc_failed].
  destruct (String.eqb_spec (bi_Status i) "closed") as [Hc|_].
  { apply wpc_ret; [done|]. intros _. split; [done|].
    destruct Hst as (w0 & _ & -> & b & Hb & ->). unfold status. by rewrite Hb. }
  eapply (wpc_specs root endKeys _ _ (fun _ => True));
    [unfold backfillTerminalActor; specs_tac|done|done|].
  intros [[]|e] w2 F2 Ht2 _; [|apply wpc_failed].
  eapply (wpc_specs root endKeys _ _ (fun _ => True)); [unfold childrenStats; specs_tac|done|done|].
  intros stats w3 F3 Ht3 _.
  eapply (wpc_specs root endKeys _ _ (fun _ => True));
    [unfold recoveryTerminated, emitRecoveryEvent; specs_tac|done|done|].
  intros _ w4 F4 Ht4 _.
  eapply (wpc_close _ _ _ endKeys); [done|intros; apply wpc_failed|]. intros w5 F5 Ht5 Hc.
  apply wpc_ret; [done|]. intros _. split; [|done].
  do 4 (eapply root_frame_trans; [eassumption|]). done.
Qed.

Lemma reconcile_ending_wpc w :
  top_level w root -> ending w ->
  wpc (reconcileState h root) (ok_then (concluded w)) (fun _ => True) w.
Proof.
  intros Ht Hend. apply wpc_get_meta; [done|done|intros; apply wpc_failed|].
  intros meta w1 F Ht1 Hsn.
  assert (Hk := fun k => root_frame_field _ _ _ _ k F).
  assert (Hst := Hsn FieldState eq_refl). assert (Hr := Hsn FieldTerminalReason eq_refl).
  cbv zeta. unfold concluded, ending_reason.
  destruct Hend as [E|[E|[E Hne]]].
  - rewrite Hst, E. change (wpc (reconcileCreating root) (ok_then (fun w' =>
      field w' root FieldState = StateTerminated /\ status w' root = "closed"
      /\ field w' root FieldTerminalReason = TerminalPartialCreation)) (fun _ => True) w1).
    by apply creating_wpc.
  - rewrite Hst, E. change (wpc (reconcileTerminatedNotClosed h root meta) (ok_then (fun w' =>
      field w' root FieldState = StateTerminated /\ status w' root = "closed"
      /\ field w' root FieldTerminalReason = field w root FieldTerminalReason)) (fun _ => True) w1).
    eapply wpc_conseq; [by apply terminated_wpc|done|]. intros r w' _ HQ Hok.
    destruct (HQ Hok) as [F1 Hc]. assert (Hk1 := fun k => root_frame_field _ _ _ _ k F1).
    split; [by rewrite Hk1, Hk by (done || key_mem)|]. split; [done|].
    by rewrite Hk1, Hk by (done || key_mem).
  - rewrite <- Hst in E.
    assert (Hn1 : mget meta FieldState <> StateTerminated).
    { intros E'. rewrite E' in E. revert E.
      change (StateTerminated ∉ [StateActive; StateWaitingManual; StateWaitingTrigger]). key_mem. }
    assert (Hn2 : mget meta FieldState <> StateCreating).
    { intros E'. rewrite E' in E. revert E.
      change (StateCreating ∉ [StateActive; StateWaitingManual; StateWaitingTrigger]). key_mem. } rewrite <- Hst. rewrite <- Hr in Hne.
    apply String.eqb_neq in Hne, Hn2.
    assert (Hgo : wpc (completeTerminalTransition h root meta) (ok_then (fun w' =>
      field w' root FieldState = StateTerminated /\ status w' root = "closed"
      /\ field w' root FieldTerminalReason = field w root FieldTerminalReason)) (fun _ => True) w1).
    { eapply wpc_conseq; [by apply completeTerminal_wpc|done|]. intros r w' _ HQ Hok.
      rewrite <- Hk by (done || set_solver). by apply HQ. }
    rewrite Hn2. unfold reconcileActive, reconcileWaitingManual, reconcileWaitingTrigger.
    rewrite Hne. rewrite !elem_of_cons, elem_of_nil in E.
    destruct E as [E|[E|[E|[]]]]; rewrite E; exact Hgo.
Qed.

(** Recovery completes what was decided: on a root whose creation was
    interrupted, or whose terminal reason is recorded, or whose state is already
    terminated, a recovery without error leaves the state terminated, the root closed,
    and the recorded reason in place (partial_creation for an interrupted creation). *)
Theorem recovery_concludes w a w' :
  top_level w root -> ending w -> runs (reconcileState h root) w (a, None) w' -> concluded w w'.
Proof.
  intros Ht He Hr. exact (wpc_runs _ _ _ _ _ _ (reconcile_ending_wpc w Ht He) Hr eq_refl).
Qed.

(** * The report *)

Definition failed_detail (d : ReconcileDetail) : bool :=
  match rd_Error d with Some _ => true | None => false end.
Definition recovered_detail (d : ReconcileDetail) : bool :=
  negb (failed_detail d) && negb (String.eqb (rd_Action d) ActionNoAction).
Definition count (f : ReconcileDetail -> bool) (l : list ReconcileDetail) : Z :=
  Z.of_nat (length (List.filter f l)).

Definition report_ok (ids : list string) (r : ReconcileReport) : Prop :=
  rp_Scanned r = Z.of_nat (length ids) /\ map rd_BeadID (rp_Details r) = ids
  /\ rp_Errors r = count failed_detail (rp_Details r)
  /\ rp_Recovered r = count recovered_detail (rp_Details r).

Lemma add_detail_ok ids r d :
  map rd_BeadID (rp_Details r) = ids ->
  rp_Errors r = count failed_detail (rp_Details r) ->
  rp_Recovered r = count recovered_detail (rp_Details r) ->
  let r' := add_detail r d in
  map rd_BeadID (rp_Details r') = ids ++ [rd_BeadID d]
  /\ rp_Errors r' = count failed_detail (rp_Details r')
  /\ rp_Recovered r' = count recovered_detail (rp_Details r').
Proof.
  intros Hm He Hr. unfold add_detail, count. simpl. rewrite map_app, Hm.
  rewrite !List.filter_app, !length_app, He, Hr. unfold count. simpl.
  unfold recovered_detail, failed_detail.
  destruct (rd_Error d); simpl; [|destruct (String.eqb _ _); simpl]; split_and!; (done || lia).
Qed.

Lemma reconcile_all_report ids prev r :
  map rd_BeadID (rp_Details r) = prev ->
  rp_Errors r = count failed_detail (rp_Details r) ->
  rp_Recovered r = count recovered_detail (rp_Details r) ->
  returns (fun r' => rp_Scanned r' = rp_Scanned r /\ map rd_BeadID (rp_Details r') = prev ++ ids
    /\ rp_Errors r' = count failed_detail (rp_Details r')
    /\ rp_Recovered r' = count recovered_detail (rp_Details r')) (reconcile_all h ids r).
Proof.
  revert prev r. induction ids as [|id ids IH]; intros prev r Hm He Hr; cbn [reconcile_all].
  { simpl. by rewrite app_nil_r. }
  eapply (returns_seq (fun d => rd_BeadID d = id)).
  - unfold reconcileBead. eapply returns_seq; [apply returns_True|]. by intros [a e] _.
  - intros d <-. destruct (add_detail_ok prev r d Hm He Hr) as (Hm' & He' & Hr').
    eapply returns_mono; [|by apply (IH _ _ Hm' He' Hr')]. simpl.
    intros r'. by rewrite <- app_assoc.
Qed.

(** The reconciliation report accounts for every bead: whatever happened to the
    individual beads, it scanned all of them in the given order, and its error and
    recovery counts are those of its details. *)
Theorem ReconcileBeads_report ids : returns (report_ok ids) (ReconcileBeads h ids).
Proof.
  unfold ReconcileBeads. eapply returns_mono; [|by apply (reconcile_all_report ids [])]. done.
Qed.

End Recovery.

(** * The recovery window

    A manual hold clears active_wisp two writes before it sets the state.  A process
    that stops in between leaves an active root without active wisp, and recovery
    pours the next iteration instead of holding. *)
Definition window_handler : Handler := mkHandler "" true 5.
Definition window_store : RefStore := sample GateModeManual [] [].
Definition held_prog : prog (res HandlerResult) := HandleWispClosed window_handler "gc-1" "gc-2".
Definition window_crash : RefStore := run_upto 9 held_prog window_store.

(** Recovery can lose a manual hold: on a loop with the manual gate, the
    uninterrupted handler ends in waiting_manual, but when the process stops right
    after the write that clears active_wisp, recovery reports success, pours iteration
    two and leaves the loop active, with the first iteration neither processed nor
    approved. *)
Theorem recovery_loses_manual_hold :
  field (rs_world (snd (run held_prog window_store))) "gc-1" FieldState = StateWaitingManual
  /\ fst (run (reconcileState window_handler "gc-1") window_crash) = (ActionPouredWisp, None)
  /\ (let w := rs_world (snd (run (reconcileState window_handler "gc-1") window_crash)) in
      field w "gc-1" FieldState = StateActive
      /\ field w "gc-1" FieldLastProcessedWisp = ""
      /\ find_key w (IdempotencyKey "gc-1" 2) = Some (field w "gc-1" FieldActiveWisp)).
Proof. vm_compute. repeat split. Qed.

Lemma recovery_concludes_witness :
  let s := run_upto 7 (StopHandler handler0 "gc-1" "bob") manual_held in
  let r := run (reconcileState handler0 "gc-1") s in
  concluded "gc-1" (rs_world s) (rs_world (snd r)).
Proof.
  cbv zeta. apply (recovery_concludes handler0 "gc-1" _ ActionCompletedTerminal);
    [top_level_tac| |apply ref_runs; vm_compute; reflexivity].
  right. right. split; [apply eqb_or_elem; vm_compute; reflexivity|vm_compute; discriminate].
Defined.
