(* ===== verification/BeadQuery.v ===== *)
(** Beads and bead queries (internal/beads/beads.go and query.go): the bead record,
    the conjunctive list filter, the canonical orders and the keyset boundary of
    cursor pagination, and the store-independent ready filter.  The theorem at the end
    shows that pages cut at any row neither skip nor repeat a bead. *)
From stdpp Require Import sorting.
From Stdlib Require Import OrdersEx.
From S2P Require Import Prelude GoStd.

Module beads.

(** * Data (beads.go) *)

Record Dep : Type := mkDep {
  dp_IssueID : string;
  dp_DependsOnID : string;
  dp_Type : string
}.
#[export] Instance Dep_eq_dec : EqDecision Dep.
Proof. solve_decision. Defined.

(** A nil Metadata map reads like an empty one, and both are the empty gmap; a nil
    pointer is None; a time is nanoseconds since Go's zero time. *)
Record Bead : Type := mkBead {
  bd_ID : string;
  bd_Title : string;
  bd_Status : string;
  bd_Type : string;
  bd_Priority : option Z;
  bd_CreatedAt : Z;
  bd_UpdatedAt : Z;
  bd_Assignee : string;
  bd_From : string;
  bd_ParentID : string;
  bd_Ref : string;
  bd_Needs : list string;
  bd_Description : string;
  bd_Labels : list string;
  bd_Metadata : gmap string string;
  bd_Dependencies : list Dep;
  bd_Ephemeral : bool;
  bd_NoHistory : bool;
  bd_DeferUntil : option Z;
  bd_IsBlocked : option bool;
  bd_Revision : Z;
  bd_ClaimFence : Z
}.

Definition set_Title (v : string) (b : Bead) : Bead :=
  mkBead (bd_ID b) v (bd_Status b) (bd_Type b) (bd_Priority b) (bd_CreatedAt b) (bd_UpdatedAt b)
    (bd_Assignee b) (bd_From b) (bd_ParentID b) (bd_Ref b) (bd_Needs b) (bd_Description b)
    (bd_Labels b) (bd_Metadata b) (bd_Dependencies b) (bd_Ephemeral b) (bd_NoHistory b)
    (bd_DeferUntil b) (bd_IsBlocked b) (bd_Revision b) (bd_ClaimFence b).
Definition set_Status (v : string) (b : Bead) : Bead :=
  mkBead (bd_ID b) (bd_Title b) v (bd_Type b) (bd_Priority b) (bd_CreatedAt b) (bd_UpdatedAt b)
    (bd_Assignee b) (bd_From b) (bd_ParentID b) (bd_Ref b) (bd_Needs b) (bd_Description b)
    (bd_Labels b) (bd_Metadata b) (bd_Dependencies b) (bd_Ephemeral b) (bd_NoHistory b)
    (bd_DeferUntil b) (bd_IsBlocked b) (bd_Revision b) (bd_ClaimFence b).
Definition set_Type (v : string) (b : Bead) : Bead :=
  mkBead (bd_ID b) (bd_Title b) (bd_Status b) v (bd_Priority b) (bd_CreatedAt b)
    (bd_UpdatedAt b) (bd_Assignee b) (bd_From b) (bd_ParentID b) (bd_Ref b) (bd_Needs b)
    (bd_Description b) (bd_Labels b) (bd_Metadata b) (bd_Dependencies b) (bd_Ephemeral b)
    (bd_NoHistory b) (bd_DeferUntil b) (bd_IsBlocked b) (bd_Revision b) (bd_ClaimFence b).
Definition set_Priority (v : option Z) (b : Bead) : Bead :=
  mkBead (bd_ID b) (bd_Title b) (bd_Status b) (bd_Type b) v (bd_CreatedAt b) (bd_UpdatedAt b)
    (bd_Assignee b) (bd_From b) (bd_ParentID b) (bd_Ref b) (bd_Needs b) (bd_Description b)
    (bd_Labels b) (bd_Metadata b) (bd_Dependencies b) (bd_Ephemeral b) (bd_NoHistory b)
    (bd_DeferUntil b) (bd_IsBlocked b) (bd_Revision b) (bd_ClaimFence b).
Definition set_UpdatedAt (v : Z) (b : Bead) : Bead :=
  mkBead (bd_ID b) (bd_Title b) (bd_Status b) (bd_Type b) (bd_Priority b) (bd_CreatedAt b) v
    (bd_Assignee b) (bd_From b) (bd_ParentID b) (bd_Ref b) (bd_Needs b) (bd_Description b)
    (bd_Labels b) (bd_Metadata b) (bd_Dependencies b) (bd_Ephemeral b) (bd_NoHistory b)
    (bd_DeferUntil b) (bd_IsBlocked b) (bd_Revision b) (bd_ClaimFence b).
Definition set_Assignee (v : string) (b : Bead) : Bead :=
  mkBead (bd_ID b) (bd_Title b) (bd_Status b) (bd_Type b) (bd_Priority b) (bd_CreatedAt b)
    (bd_UpdatedAt b) v (bd_From b) (bd_ParentID b) (bd_Ref b) (bd_Needs b) (bd_Description b)
    (bd_Labels b) (bd_Metadata b) (bd_Dependencies b) (bd_Ephemeral b) (bd_NoHistory b)
    (bd_DeferUntil b) (bd_IsBlocked b) (bd_Revision b) (bd_ClaimFence b).
Definition set_ParentID (v : string) (b : Bead) : Bead :=
  mkBead (bd_ID b) (bd_Title b) (bd_Status b) (bd_Type b) (bd_Priority b) (bd_CreatedAt b)
    (bd_UpdatedAt b) (bd_Assignee b) (bd_From b) v (bd_Ref b) (bd_Needs b) (bd_Description b)
    (bd_Labels b) (bd_Metadata b) (bd_Dependencies b) (bd_Ephemeral b) (bd_NoHistory b)
    (bd_DeferUntil b) (bd_IsBlocked b) (bd_Revision b) (bd_ClaimFence b).
Definition set_Description (v : string) (b : Bead) : Bead :=
  mkBead (bd_ID b) (bd_Title b) (bd_Status b) (bd_Type b) (bd_Priority b) (bd_CreatedAt b)
    (bd_UpdatedAt b) (bd_Assignee b) (bd_From b) (bd_ParentID b) (bd_Ref b) (bd_Needs b) v
    (bd_Labels b) (bd_Metadata b) (bd_Dependencies b) (bd_Ephemeral b) (bd_NoHistory b)
    (bd_DeferUntil b) (bd_IsBlocked b) (bd_Revision b) (bd_ClaimFence b).
Definition set_Labels (v : list string) (b : Bead) : Bead :=
  mkBead (bd_ID b) (bd_Title b) (bd_Status b) (bd_Type b) (bd_Priority b) (bd_CreatedAt b)
    (bd_UpdatedAt b) (bd_Assignee b) (bd_From b) (bd_ParentID b) (bd_Ref b) (bd_Needs b)
    (bd_Description b) v (bd_Metadata b) (bd_Dependencies b) (bd_Ephemeral b) (bd_NoHistory b)
    (bd_DeferUntil b) (bd_IsBlocked b) (bd_Revision b) (bd_ClaimFence b).
Definition set_Metadata (v : gmap string string) (b : Bead) : Bead :=
  mkBead (bd_ID b) (bd_Title b) (bd_Status b) (bd_Type b) (bd_Priority b) (bd_CreatedAt b)
    (bd_UpdatedAt b) (bd_Assignee b) (bd_From b) (bd_ParentID b) (bd_Ref b) (bd_Needs b)
    (bd_Description b) (bd_Labels b) v (bd_Dependencies b) (bd_Ephemeral b) (bd_NoHistory b)
    (bd_DeferUntil b) (bd_IsBlocked b) (bd_Revision b) (bd_ClaimFence b).
Definition set_Revision (v : Z) (b : Bead) : Bead :=
  mkBead (bd_ID b) (bd_Title b) (bd_Status b) (bd_Type b) (bd_Priority b) (bd_CreatedAt b)
    (bd_UpdatedAt b) (bd_Assignee b) (bd_From b) (bd_ParentID b) (bd_Ref b) (bd_Needs b)
    (bd_Description b) (bd_Labels b) (bd_Metadata b) (bd_Dependencies b) (bd_Ephemeral b)
    (bd_NoHistory b) (bd_DeferUntil b) (bd_IsBlocked b) v (bd_ClaimFence b).
Definition set_ClaimFence (v : Z) (b : Bead) : Bead :=
  mkBead (bd_ID b) (bd_Title b) (bd_Status b) (bd_Type b) (bd_Priority b) (bd_CreatedAt b)
    (bd_UpdatedAt b) (bd_Assignee b) (bd_From b) (bd_ParentID b) (bd_Ref b) (bd_Needs b)
    (bd_Description b) (bd_Labels b) (bd_Metadata b) (bd_Dependencies b) (bd_Ephemeral b)
    (bd_NoHistory b) (bd_DeferUntil b) (bd_IsBlocked b) (bd_Revision b) v.

(** The zero Bead of Go. *)
Definition Bead0 : Bead :=
  mkBead "" "" "" "" None 0 0 "" "" "" "" [] "" [] ∅ [] false false None None 0 0.

(** UpdateOpts: a nil pointer changes nothing. *)
Record UpdateOpts : Type := mkUpdateOpts {
  uo_Title : option string;
  uo_Status : option string;
  uo_Type : option string;
  uo_Priority : option Z;
  uo_Description : option string;
  uo_ParentID : option string;
  uo_Assignee : option string;
  uo_Labels : list string;
  uo_RemoveLabels : list string;
  uo_Metadata : gmap string string
}.
Definition UpdateOpts0 : UpdateOpts := mkUpdateOpts None None None None None None None [] [] ∅.

Definition is_nil {A} (o : option A) : bool := match o with None => true | Some _ => false end.
Definition empty_map (m : gmap string string) : bool := bool_decide (m = ∅).

Definition isEmptyUpdateOpts (o : UpdateOpts) : bool :=
  is_nil (uo_Title o) && is_nil (uo_Status o) && is_nil (uo_Type o) && is_nil (uo_Priority o)
  && is_nil (uo_Description o) && is_nil (uo_ParentID o) && is_nil (uo_Assignee o)
  && Nat.eqb (length (uo_Labels o)) 0 && Nat.eqb (length (uo_RemoveLabels o)) 0
  && empty_map (uo_Metadata o).

(** * Ready filters (beads.go) *)

Inductive TierMode : Type := TierIssues | TierWisps | TierBoth.

Inductive QueryOpt : Type := IncludeClosed | WithEphemeral | WithBothTiers.
Definition QueryOpt_eqb (a b : QueryOpt) : bool :=
  match a, b with
  | IncludeClosed, IncludeClosed | WithEphemeral, WithEphemeral
  | WithBothTiers, WithBothTiers => true
  | _, _ => false
  end.

Definition HasOpt (opts : list QueryOpt) (want : QueryOpt) : bool :=
  existsb (QueryOpt_eqb want) opts.

Definition TierModeFromOpts (opts : list QueryOpt) : TierMode :=
  if HasOpt opts WithBothTiers then TierBoth
  else if HasOpt opts WithEphemeral then TierWisps
  else TierIssues.

Definition readyExcludeTypes : list string :=
  ["merge-request"; "gate"; "molecule"; "step"; "convoy"; "message"; "session"; "agent";
   "role"; "rig"].
Definition IsReadyExcludedType (t : string) : bool := existsb (String.eqb t) readyExcludeTypes.

Definition readyBlockingDependencyTypes : list string :=
  ["blocks"; "waits-for"; "conditional-blocks"].
Definition IsReadyBlockingDependencyType (t : string) : bool :=
  existsb (String.eqb t) readyBlockingDependencyTypes.

Definition HasReadyExcludedLabel (b : Bead) : bool :=
  existsb (fun l => existsb (String.eqb l) ["gc:session"; "gc:order-tracking"; "order-tracking"])
    (bd_Labels b).

Definition IsReadyExcludedBead (b : Bead) : bool :=
  IsReadyExcludedType (bd_Type b) || HasReadyExcludedLabel b.

Definition IsDeferred (b : Bead) (now : Z) : bool :=
  match bd_DeferUntil b with Some t => now <? t | None => false end.

Definition IsReadyCandidateForTier (b : Bead) (now : Z) (tier : TierMode) : bool :=
  if (match tier with
      | TierWisps => negb (bd_Ephemeral b) && negb (bd_NoHistory b)
      | TierBoth => false
      | TierIssues => bd_Ephemeral b
      end) then false else
  String.eqb (bd_Status b) "open" && negb (IsReadyExcludedBead b) && negb (IsDeferred b now).

Definition IsReadyCandidate (b : Bead) (now : Z) : bool :=
  IsReadyCandidateForTier b now TierIssues.

(** * List queries (query.go) *)

Inductive SortOrder : Type := SortDefault | SortCreatedAsc | SortCreatedDesc.

Record SeekBoundary : Type := mkSeekBoundary { sb_CreatedAt : Z; sb_ID : string }.

Record ListQuery : Type := mkListQuery {
  lq_Status : string;
  lq_Type : string;
  lq_Label : string;
  lq_Assignee : string;
  lq_Assignees : list string;
  lq_ParentID : string;
  lq_ParentIDs : list string;
  lq_Metadata : gmap string string;
  lq_CreatedBefore : Z;
  lq_UpdatedBefore : Z;
  lq_Limit : Z;
  lq_IncludeClosed : bool;
  lq_AllowScan : bool;
  lq_SkipLabels : bool;
  lq_Live : bool;
  lq_Sort : SortOrder;
  lq_AllowBackingCreatedLimit : bool;
  lq_TierMode : TierMode;
  lq_SeekAfter : option SeekBoundary
}.
Definition ListQuery0 : ListQuery :=
  mkListQuery "" "" "" "" [] "" [] ∅ 0 0 0 false false false false SortDefault false TierIssues None.

Record ReadyQuery : Type := mkReadyQuery {
  rq_Assignee : string;
  rq_Limit : Z;
  rq_TierMode : TierMode
}.
Definition readyQueryFromArgs (queries : list ReadyQuery) : ReadyQuery :=
  match queries with [] => mkReadyQuery "" 0 TierIssues | q :: _ => q end.

Definition Validate (q : ListQuery) : res unit :=
  if negb (String.eqb (lq_Assignee q) "") && negb (Nat.eqb (length (lq_Assignees q)) 0)
  then Err (errmsg "ListQuery: Assignee and Assignees are mutually exclusive" []) else
  match lq_SeekAfter q, lq_Sort q with
  | Some _, SortDefault =>
      Err (errmsg "ListQuery: SeekAfter requires an explicit created_at sort order" [])
  | _, _ => Ok tt
  end.

Definition HasFilter (q : ListQuery) : bool :=
  negb (String.eqb (lq_Status q) "") || negb (String.eqb (lq_Type q) "")
  || negb (String.eqb (lq_Label q) "") || negb (String.eqb (lq_Assignee q) "")
  || negb (Nat.eqb (length (lq_Assignees q)) 0) || negb (String.eqb (lq_ParentID q) "")
  || negb (empty_map (lq_Metadata q)) || negb (IsZero (lq_CreatedBefore q))
  || negb (IsZero (lq_UpdatedBefore q)) || negb (is_nil (lq_SeekAfter q)).

Definition IncludesClosed (q : ListQuery) : bool :=
  lq_IncludeClosed q || String.eqb (lq_Status q) "closed".

Definition matchesTier (q : ListQuery) (b : Bead) : bool :=
  match lq_TierMode q with
  | TierWisps => bd_Ephemeral b || bd_NoHistory b
  | TierBoth => true
  | TierIssues => negb (bd_Ephemeral b)
  end.

Definition matchesMetadata (b : Bead) (filters : gmap string string) : bool :=
  forallb (fun kv => String.eqb (mget (bd_Metadata b) kv.1) kv.2) (map_to_list filters).

Definition beadHasLabel (b : Bead) (want : string) : bool :=
  existsb (fun l => String.eqb l want) (bd_Labels b).

Definition beadUpdatedReferenceTime (b : Bead) : Z :=
  if negb (IsZero (bd_UpdatedAt b)) then bd_UpdatedAt b else bd_CreatedAt b.

Definition After (sb : SeekBoundary) (b : Bead) (sort : SortOrder) : bool :=
  match sort with
  | SortCreatedAsc =>
      if sb_CreatedAt sb <? bd_CreatedAt b then true
      else (bd_CreatedAt b =? sb_CreatedAt sb) && String.ltb (sb_ID sb) (bd_ID b)
  | SortCreatedDesc =>
      if bd_CreatedAt b <? sb_CreatedAt sb then true
      else (bd_CreatedAt b =? sb_CreatedAt sb) && String.ltb (bd_ID b) (sb_ID sb)
  | SortDefault => false
  end.

Definition Matches (q : ListQuery) (b : Bead) : bool :=
  if negb (matchesTier q b) then false else
  if (if negb (String.eqb (lq_Status q) "") then negb (String.eqb (bd_Status b) (lq_Status q))
      else negb (lq_IncludeClosed q) && String.eqb (bd_Status b) "closed") then false else
  if negb (String.eqb (lq_Type q) "") && negb (String.eqb (bd_Type b) (lq_Type q)) then false else
  if negb (String.eqb (lq_Label q) "") && negb (beadHasLabel b (lq_Label q)) then false else
  if negb (String.eqb (lq_Assignee q) "") && negb (String.eqb (bd_Assignee b) (lq_Assignee q))
  then false else
  if negb (Nat.eqb (length (lq_Assignees q)) 0)
     && negb (existsb (String.eqb (bd_Assignee b)) (lq_Assignees q)) then false else
  if negb (String.eqb (lq_ParentID q) "") && negb (String.eqb (bd_ParentID b) (lq_ParentID q))
  then false else
  if negb (empty_map (lq_Metadata q)) && negb (matchesMetadata b (lq_Metadata q)) then false else
  if negb (IsZero (lq_CreatedBefore q)) && negb (bd_CreatedAt b <? lq_CreatedBefore q)
  then false else
  if negb (IsZero (lq_UpdatedBefore q)) && negb (beadUpdatedReferenceTime b <? lq_UpdatedBefore q)
  then false else
  match lq_SeekAfter q with
  | Some sb => After sb b (lq_Sort q)
  | None => true
  end.

(** sort.Slice(items, less): some permutation of the slice sorted by less; insertion
    sort stands for the library's algorithm, and for the total orders below every
    algorithm gives the same slice. *)
Fixpoint insert_by (less : Bead -> Bead -> bool) (x : Bead) (l : list Bead) : list Bead :=
  match l with
  | [] => [x]
  | y :: l' => if less y x then y :: insert_by less x l' else x :: l
  end.
Fixpoint sort_Slice (less : Bead -> Bead -> bool) (l : list Bead) : list Bead :=
  match l with
  | [] => []
  | x :: l' => insert_by less x (sort_Slice less l')
  end.

Definition lessCreatedAsc (a b : Bead) : bool :=
  if bd_CreatedAt a =? bd_CreatedAt b then String.ltb (bd_ID a) (bd_ID b)
  else bd_CreatedAt a <? bd_CreatedAt b.
Definition lessCreatedDesc (a b : Bead) : bool :=
  if bd_CreatedAt a =? bd_CreatedAt b then String.ltb (bd_ID b) (bd_ID a)
  else bd_CreatedAt b <? bd_CreatedAt a.

Definition sortBeadsForQuery (items : list Bead) (order : SortOrder) : list Bead :=
  match order with
  | SortDefault => items
  | SortCreatedAsc => sort_Slice lessCreatedAsc items
  | SortCreatedDesc => sort_Slice lessCreatedDesc items
  end.

Definition readySortPriority (b : Bead) : Z := match bd_Priority b with None => 2 | Some p => p end.
Definition beadReadyLess (a b : Bead) : bool :=
  let pa := readySortPriority a in
  let pb := readySortPriority b in
  if negb (pa =? pb) then pa <? pb else
  if negb (bd_CreatedAt a =? bd_CreatedAt b) then bd_CreatedAt a <? bd_CreatedAt b
  else String.ltb (bd_ID a) (bd_ID b).
Definition sortBeadsReadyOrder (items : list Bead) : list Bead := sort_Slice beadReadyLess items.

(** if limit > 0 && len(result) > limit { result = result[:limit] } *)
Definition limited {A} (limit : Z) (l : list A) : list A :=
  if (0 <? limit) && (limit <? Z.of_nat (length l)) then take (Z.to_nat limit) l else l.

Definition ApplyListQuery (items : list Bead) (q : ListQuery) : list Bead :=
  limited (lq_Limit q) (sortBeadsForQuery (List.filter (Matches q) items) (lq_Sort q)).

(** The query of the page after a row: the same filters, cut after the boundary. *)
Definition seek_query (q : ListQuery) (sb : option SeekBoundary) (limit : Z) : ListQuery :=
  mkListQuery (lq_Status q) (lq_Type q) (lq_Label q) (lq_Assignee q) (lq_Assignees q)
    (lq_ParentID q) (lq_ParentIDs q) (lq_Metadata q) (lq_CreatedBefore q) (lq_UpdatedBefore q)
    limit (lq_IncludeClosed q) (lq_AllowScan q) (lq_SkipLabels q) (lq_Live q) (lq_Sort q)
    (lq_AllowBackingCreatedLimit q) (lq_TierMode q) sb.
Definition boundary (b : Bead) : SeekBoundary := mkSeekBoundary (bd_CreatedAt b) (bd_ID b).

(** * Orders that identifiers make total *)

Class IDOrder (less : Bead -> Bead -> bool) : Prop := {
  less_irrefl a : less a a = false;
  less_trans a b c : less a b = true -> less b c = true -> less a c = true;
  less_total a b : bd_ID a <> bd_ID b -> less a b = true \/ less b a = true
}.

Lemma ltb_lt a b : String.ltb a b = true <-> String_as_OT.lt a b.
Proof.
  unfold String.ltb, String_as_OT.lt. change (String_as_OT.compare a b) with (String.compare a b).
  destruct (String.compare a b); split; congruence.
Qed.

Lemma ltb_irrefl a : String.ltb a a = false.
Proof.
  destruct (String.ltb a a) eqn:E; [|done]. apply ltb_lt in E.
  by apply (StrictOrder_Irreflexive (R := String_as_OT.lt)) in E.
Qed.

Lemma ltb_trans a b c : String.ltb a b = true -> String.ltb b c = true -> String.ltb a c = true.
Proof. rewrite !ltb_lt. apply (StrictOrder_Transitive (R := String_as_OT.lt)). Qed.

Lemma ltb_total a b : a <> b -> String.ltb a b = true \/ String.ltb b a = true.
Proof.
  intros Hn. unfold String.ltb. rewrite (String.compare_antisym b a).
  destruct (String.compare a b) eqn:E; auto. by apply String.compare_eq_iff in E.
Qed.

Ltac split_Z :=
  repeat match goal with
  | |- context [?a =? ?b] => destruct (Z.eqb_spec a b)
  | |- context [?a <? ?b] => destruct (Z.ltb_spec a b)
  end; simpl.

(** The same, dropping impossible cases as they appear. *)
Ltac prune_Z :=
  repeat (match goal with
  | |- context [?a =? ?b] => destruct (Z.eqb_spec a b)
  | |- context [?a <? ?b] => destruct (Z.ltb_spec a b)
  end; try (exfalso; lia)); simpl.

#[export] Instance lessCreatedAsc_order : IDOrder lessCreatedAsc.
Proof.
  unfold lessCreatedAsc. split.
  - intros a. rewrite Z.eqb_refl. apply ltb_irrefl.
  - intros a b c. split_Z; try done; try lia; eauto using ltb_trans.
  - intros a b Hid. split_Z; try lia; auto using ltb_total.
Qed.

#[export] Instance lessCreatedDesc_order : IDOrder lessCreatedDesc.
Proof.
  unfold lessCreatedDesc. split.
  - intros a. rewrite Z.eqb_refl. apply ltb_irrefl.
  - intros a b c. split_Z; try done; try lia; eauto using ltb_trans.
  - intros a b Hid. split_Z; try lia; auto using ltb_total.
Qed.

#[export] Instance beadReadyLess_order : IDOrder beadReadyLess.
Proof.
  unfold beadReadyLess. split.
  - intros a. rewrite !Z.eqb_refl. apply ltb_irrefl.
  - intros a b c. prune_Z; try done; eauto using ltb_trans.
  - intros a b Hid. split_Z; try lia; auto using ltb_total.
Qed.

Section Sorting.
Context {less : Bead -> Bead -> bool} `{!IDOrder less}.

Abbreviation sorted := (StronglySorted (fun a b => less a b = true)).

Lemma insert_by_perm x l : insert_by less x l ≡ₚ x :: l.
Proof.
  induction l as [|y l IH]; simpl; [done|]. destruct (less y x); [|done].
  rewrite IH. constructor.
Qed.

Lemma sort_Slice_perm l : sort_Slice less l ≡ₚ l.
Proof. induction l as [|x l IH]; simpl; [done|]. by rewrite insert_by_perm, IH. Qed.

Lemma insert_by_sorted x l :
  Forall (fun y => bd_ID y <> bd_ID x) l -> sorted l -> sorted (insert_by less x l).
Proof.
  intros Hn Hs. induction Hs as [|y l Hs IH Hy]; simpl; [repeat constructor|].
  apply Forall_cons in Hn as [Hyx Hn]. destruct (less y x) eqn:E.
  - constructor; [by apply IH|]. rewrite insert_by_perm. by constructor.
  - destruct (less_total _ _ Hyx) as [|Hxy]; [congruence|].
    constructor; [by constructor|]. constructor; [done|].
    eapply Forall_impl; [exact Hy|]. intros z. by apply less_trans.
Qed.

Lemma sort_Slice_sorted l : NoDup (bd_ID <$> l) -> sorted (sort_Slice less l).
Proof.
  induction l as [|x l IH]; simpl; [constructor|]. intros [Hx Hl]%NoDup_cons.
  apply insert_by_sorted; [|by apply IH]. rewrite sort_Slice_perm. apply Forall_forall.
  intros y Hy E. apply Hx. rewrite <- E. by apply list_elem_of_fmap_2.
Qed.

(** Sorted lists with the same members are equal, whichever algorithm sorted them. *)
Lemma sorted_unique l1 l2 : sorted l1 -> sorted l2 -> l1 ≡ₚ l2 -> l1 = l2.
Proof.
  apply StronglySorted_unique_strong. intros x1 x2 _ _ H1 H2.
  assert (less x1 x1 = true) by eauto using less_trans. rewrite less_irrefl in *. congruence.
Qed.

Lemma sorted_filter (p : Bead -> bool) l : sorted l -> sorted (List.filter p l).
Proof.
  intros Hs. induction Hs as [|x l Hs IH Hx]; simpl; [constructor|].
  destruct (p x); [|done]. constructor; [done|].
  apply List.Forall_forall. intros y [Hy _]%List.filter_In. rewrite List.Forall_forall in Hx. auto.
Qed.

(** In a sorted list the rows after [b] are the ones greater than [b]. *)
Lemma sorted_after l1 b l2 : sorted (l1 ++ b :: l2) -> List.filter (less b) (l1 ++ b :: l2) = l2.
Proof.
  rewrite List.filter_app. simpl. rewrite less_irrefl. induction l1 as [|x l1 IH]; simpl; intros Hs.
  - apply StronglySorted_inv in Hs as [_ Hb]. induction Hb as [|y l Hy Hb IHb]; simpl; [done|].
    by rewrite Hy, IHb.
  - apply StronglySorted_inv in Hs as [Hs Hx].
    destruct (less b x) eqn:E; [exfalso|by apply IH]. apply Forall_app in Hx as [_ Hx].
    apply Forall_cons in Hx as [Hx _]. assert (less b b = true) by eauto using less_trans.
    rewrite less_irrefl in *. congruence.
Qed.

Lemma filter_perm (p : Bead -> bool) l1 l2 :
  l1 ≡ₚ l2 -> List.filter p l1 ≡ₚ List.filter p l2.
Proof.
  induction 1; simpl; repeat match goal with |- context [p ?x] => destruct (p x) end;
    eauto using Permutation; by constructor.
Qed.

Lemma NoDup_ids_filter (p : Bead -> bool) l : NoDup (bd_ID <$> l) -> NoDup (bd_ID <$> List.filter p l).
Proof.
  induction l as [|x l IH]; simpl; [done|]. intros [Hx Hl]%NoDup_cons.
  destruct (p x); [|by apply IH]. constructor; [|by apply IH].
  intros (y & E & Hy)%list_elem_of_fmap. apply Hx. rewrite E.
  apply list_elem_of_fmap_2. apply list_elem_of_In, List.filter_In in Hy as [Hy _].
  by apply list_elem_of_In.
Qed.

Lemma sort_after items p l1 b l2 :
  NoDup (bd_ID <$> items) -> sort_Slice less (List.filter p items) = l1 ++ b :: l2 ->
  sort_Slice less (List.filter (fun x => p x && less b x) items) = l2.
Proof.
  intros Hn Hs.
  assert (Hs' := sort_Slice_sorted _ (NoDup_ids_filter p _ Hn)). rewrite Hs in Hs'.
  rewrite <- (sorted_after _ _ _ Hs'). apply sorted_unique.
  - apply sort_Slice_sorted, NoDup_ids_filter, Hn.
  - by apply sorted_filter.
  - rewrite sort_Slice_perm, <- Hs. rewrite (filter_perm _ _ _ (sort_Slice_perm _)).
    clear. induction items as [|x l IH]; simpl; [done|].
    destruct (p x); simpl; [|done]. destruct (less b x); [|done]. by rewrite IH.
Qed.
End Sorting.

(** * Pagination *)

Lemma Matches_seek q b limit x :
  lq_SeekAfter q = None ->
  Matches (seek_query q (Some (boundary b)) limit) x
  = Matches q x && After (boundary b) x (lq_Sort q).
Proof.
  intros Hs. unfold Matches, matchesTier. simpl. rewrite Hs.
  repeat match goal with
  | |- context [if ?c then false else _] => destruct c; [done|]
  end. done.
Qed.

Lemma After_asc b x : After (boundary b) x SortCreatedAsc = lessCreatedAsc b x.
Proof. unfold After, lessCreatedAsc. simpl. split_Z; try done; lia. Qed.

Lemma After_desc b x : After (boundary b) x SortCreatedDesc = lessCreatedDesc b x.
Proof. unfold After, lessCreatedDesc. simpl. split_Z; try done; lia. Qed.

(** Cursor pagination: in a store with unique identifiers, resuming a created-at
    query after any row of its result returns exactly the rows that follow that row,
    in the same order, cut to the page limit; no row is skipped and none repeated,
    ties on the timestamp included. *)
Theorem pagination_exact items q limit l1 b l2 :
  NoDup (bd_ID <$> items) -> lq_Sort q <> SortDefault -> lq_SeekAfter q = None ->
  ApplyListQuery items (seek_query q None 0) = l1 ++ b :: l2 ->
  ApplyListQuery items (seek_query q (Some (boundary b)) limit) = limited limit l2.
Proof.
  intros Hn Ho Hs. unfold ApplyListQuery. cbn [lq_Limit lq_Sort seek_query].
  change (limited 0 ?l) with l.
  rewrite (List.filter_ext _ _ (fun x => Matches_seek q b limit x Hs)).
  rewrite (List.filter_ext (Matches (seek_query q None 0)) (Matches q))
    by (intros x; unfold Matches, matchesTier; simpl; by rewrite Hs).
  unfold sortBeadsForQuery. destruct (lq_Sort q) eqn:E; [done| |]; intros Hl; f_equal.
  - rewrite (List.filter_ext _ (fun x => Matches q x && lessCreatedAsc b x))
      by (intros x; by rewrite After_asc).
    by apply sort_after with l1.
  - rewrite (List.filter_ext _ (fun x => Matches q x && lessCreatedDesc b x))
      by (intros x; by rewrite After_desc).
    by apply sort_after with l1.
Qed.

(** Three beads, two of them created at the same time. *)
Definition row (id : string) (at_ : Z) : Bead :=
  mkBead id "" "open" "task" None at_ at_ "" "" "" "" [] "" [] ∅ [] false false None None 1 0.
Definition by_created : ListQuery :=
  mkListQuery "" "task" "" "" [] "" [] ∅ 0 0 0 false false false false SortCreatedDesc false
    TierIssues None.

Lemma pagination_exact_witness :
  ApplyListQuery [row "gc-1" 5; row "gc-2" 7; row "gc-3" 5]
    (seek_query by_created (Some (boundary (row "gc-3" 5))) 2) = [row "gc-1" 5].
Proof.
  apply (pagination_exact _ by_created 2 [row "gc-2" 7] (row "gc-3" 5) [row "gc-1" 5]);
    [|done|done|vm_compute; reflexivity].
  apply (bool_decide_unpack _). vm_compute. exact I.
Defined.

End beads.
