(* ===== verification/BeadMem.v ===== *)
(** The in-memory bead store (internal/beads/memstore.go and memstore_conditional.go):
    its state, every operation that reads or changes it, and the guarantees the rest of
    the system builds on: unique identifiers, the revision and ownership-fence
    discipline of optimistic concurrency, and the ready filter.  Each operation holds
    the store's mutex from start to end, so operations are atomic; stored and returned
    beads are deep copies (cloneBead), so values model them. *)
From S2P Require Import Prelude GoStd BeadQuery.

Module MemStore.
Import beads.

Record MemStore : Type := mkMemStore {
  ms_beads : list Bead;
  ms_deps : list Dep;
  ms_seq : Z;
  ms_DisableConditionalWrites : bool;
  ms_IDPrefix : string;
  ms_localStrings : gmap string (gmap string string)
}.

Definition NewMemStore : MemStore := mkMemStore [] [] 0 false "" ∅.
Definition NewMemStoreFrom (seq : Z) (existing : list Bead) (deps : list Dep) : MemStore :=
  mkMemStore existing deps seq false "" ∅.

Definition set_beads (l : list Bead) (m : MemStore) : MemStore :=
  mkMemStore l (ms_deps m) (ms_seq m) (ms_DisableConditionalWrites m) (ms_IDPrefix m)
    (ms_localStrings m).
Definition set_deps (l : list Dep) (m : MemStore) : MemStore :=
  mkMemStore (ms_beads m) l (ms_seq m) (ms_DisableConditionalWrites m) (ms_IDPrefix m)
    (ms_localStrings m).
Definition set_localStrings (l : gmap string (gmap string string)) (m : MemStore) : MemStore :=
  mkMemStore (ms_beads m) (ms_deps m) (ms_seq m) (ms_DisableConditionalWrites m) (ms_IDPrefix m) l.

(** restoreFrom keeps the clone-local strings and the configuration. *)
Definition restoreFrom (seq : Z) (beads : list Bead) (deps : list Dep) (m : MemStore) : MemStore :=
  mkMemStore beads deps seq (ms_DisableConditionalWrites m) (ms_IDPrefix m) (ms_localStrings m).
Definition snapshot (m : MemStore) : Z * list Bead * list Dep := (ms_seq m, ms_beads m, ms_deps m).

(** * Create *)

Definition id_prefix (m : MemStore) : string :=
  if String.eqb (ms_IDPrefix m) "" then "gc" else ms_IDPrefix m.

(** One entry of Needs: a bare identifier, or a dependency type before a colon. *)
Definition need_dep (issueID need : string) : Dep :=
  match before_first ":" need with
  | Some p0 =>
      let p1 := TrimPrefix need (p0 +:+ ":") in
      if negb (String.eqb p0 "") && negb (String.eqb p1 "") then mkDep issueID p1 p0
      else mkDep issueID need "blocks"
  | None => mkDep issueID need "blocks"
  end.

Definition minted (now : Z) (m : MemStore) (b : Bead) : Bead :=
  mkBead (id_prefix m +:+ "-" +:+ Itoa (wrap64 (ms_seq m + 1))) (bd_Title b) "open"
    (if String.eqb (bd_Type b) "" then "task" else bd_Type b) (bd_Priority b) now now
    (bd_Assignee b) (bd_From b) (bd_ParentID b) (bd_Ref b) (bd_Needs b) (bd_Description b)
    (bd_Labels b) (bd_Metadata b) (bd_Dependencies b) (bd_Ephemeral b) (bd_NoHistory b)
    (bd_DeferUntil b) (bd_IsBlocked b) 1 0.

Definition Create (now : Z) (b : Bead) (m : MemStore) : res Bead * MemStore :=
  let stored := minted now m b in
  (Ok stored,
   mkMemStore (ms_beads m ++ [stored])
     (ms_deps m ++ (need_dep (bd_ID stored) <$> bd_Needs stored))
     (wrap64 (ms_seq m + 1)) (ms_DisableConditionalWrites m) (ms_IDPrefix m) (ms_localStrings m)).

(** * Update and ownership *)

(** indexOfLocked: None stands for -1. *)
Fixpoint index_in (l : list Bead) (id : string) : option nat :=
  match l with
  | [] => None
  | b :: l' => if String.eqb (bd_ID b) id then Some 0%nat else S <$> index_in l' id
  end.
Definition indexOfLocked (m : MemStore) (id : string) : option nat := index_in (ms_beads m) id.
Definition beadExistsLocked (m : MemStore) (id : string) : bool :=
  match indexOfLocked m id with Some _ => true | None => false end.

Definition isOwnershipTransition (oldStatus oldAssignee : string) (opts : UpdateOpts) : bool :=
  if (match uo_Assignee opts with Some a => negb (String.eqb a oldAssignee) | None => false end)
  then true else
  match uo_Status opts with
  | Some s => negb (String.eqb s "") && String.eqb oldStatus "closed"
              && negb (String.eqb s "closed")
  | None => false
  end.

Definition opt_set {A} (set : A -> Bead -> Bead) (o : option A) (b : Bead) : Bead :=
  match o with Some v => set v b | None => b end.
(** UpdatedAt = time.Now(); Revision++ *)
Definition mutated (now : Z) (b : Bead) : Bead :=
  set_Revision (wrap64 (bd_Revision b + 1)) (set_UpdatedAt now b).
(** ClaimFence++ *)
Definition fenced (b : Bead) : Bead := set_ClaimFence (wrap64 (bd_ClaimFence b + 1)) b.
(** for k, v := range kvs { Metadata[k] = v } *)
Definition merge_meta (kvs : gmap string string) (b : Bead) : Bead :=
  set_Metadata (kvs ∪ bd_Metadata b) b.
Definition put_meta (key value : string) (b : Bead) : Bead :=
  set_Metadata (<[key := value]> (bd_Metadata b)) b.

Definition apply_update (now : Z) (opts : UpdateOpts) (b0 : Bead) : Bead :=
  let b := opt_set set_Title (uo_Title opts) b0 in
  let b := opt_set set_Status (uo_Status opts) b in
  let b := opt_set set_Description (uo_Description opts) b in
  let b := opt_set (fun p => set_Priority (Some p)) (uo_Priority opts) b in
  let b := opt_set set_ParentID (uo_ParentID opts) b in
  let b := opt_set set_Assignee (uo_Assignee opts) b in
  let b := opt_set set_Type (uo_Type opts) b in
  let b := merge_meta (uo_Metadata opts) b in
  let b := set_Labels (bd_Labels b ++ uo_Labels opts) b in
  let b := set_Labels
             (List.filter (fun l => negb (existsb (String.eqb l) (uo_RemoveLabels opts)))
                (bd_Labels b)) b in
  let b := mutated now b in
  if isOwnershipTransition (bd_Status b0) (bd_Assignee b0) opts then fenced b else b.

Definition applyUpdateLocked (now : Z) (i : nat) (opts : UpdateOpts) (m : MemStore) : MemStore :=
  set_beads (alter (apply_update now opts) i (ms_beads m)) m.

(** A loop over m.beads that rewrites the bead with this identifier and returns. *)
Definition on_bead (ctx id : string) (f : Bead -> Bead) (m : MemStore) : res unit * MemStore :=
  match indexOfLocked m id with
  | Some i => (Ok tt, set_beads (alter f i (ms_beads m)) m)
  | None => (Err (Errorf ctx [id] [ErrNotFound]), m)
  end.

Definition Update (now : Z) (id : string) (opts : UpdateOpts) (m : MemStore)
  : res unit * MemStore :=
  match indexOfLocked m id with
  | None => (Err (Errorf "updating bead %q: %w" [id] [ErrNotFound]), m)
  | Some i => (Ok tt, applyUpdateLocked now i opts m)
  end.

Definition released (now : Z) (b : Bead) : Bead :=
  fenced (mutated now (set_Assignee "" (set_Status "open" b))).

Definition ReleaseIfCurrent (now : Z) (id expectedAssignee : string) (m : MemStore)
  : res bool * MemStore :=
  match indexOfLocked m id with
  | None => (Ok false, m)
  | Some i =>
      match ms_beads m !! i with
      | Some b =>
          if negb (String.eqb (bd_Status b) "in_progress")
             || negb (String.eqb (bd_Assignee b) expectedAssignee)
          then (Ok false, m)
          else (Ok true, set_beads (alter (released now) i (ms_beads m)) m)
      | None => (Ok false, m)
      end
  end.

(** * Close, reopen, delete *)

Definition closed_bead (now : Z) (b : Bead) : Bead :=
  if String.eqb (bd_Status b) "closed" then b else mutated now (set_Status "closed" b).

Definition Close (now : Z) (id : string) (m : MemStore) : res unit * MemStore :=
  on_bead "closing bead %q: %w" id (closed_bead now) m.

Definition reopened (now : Z) (b : Bead) : Bead :=
  if String.eqb (bd_Status b) "open" then b else
  let wasClosed := String.eqb (bd_Status b) "closed" in
  let b' := mutated now (set_Status "open" b) in
  if wasClosed then fenced b' else b'.

Definition Reopen (now : Z) (id : string) (m : MemStore) : res unit * MemStore :=
  on_bead "reopening bead %q: %w" id (reopened now) m.

(** One round of CloseAll's loop over the beads. *)
Definition close_one (now : Z) (ids : list string) (metadata : gmap string string) (b : Bead)
  : Bead :=
  if negb (existsb (String.eqb (bd_ID b)) ids) || String.eqb (bd_Status b) "closed" then b
  else merge_meta metadata (mutated now (set_Status "closed" b)).
Definition closes (ids : list string) (b : Bead) : bool :=
  existsb (String.eqb (bd_ID b)) ids && negb (String.eqb (bd_Status b) "closed").

Definition CloseAll (now : Z) (ids : list string) (metadata : gmap string string) (m : MemStore)
  : res Z * MemStore :=
  (Ok (Z.of_nat (length (List.filter (closes ids) (ms_beads m)))),
   set_beads (close_one now ids metadata <$> ms_beads m) m).

(** append(l[:i], l[i+1:]...) *)
Definition remove_at {A} (i : nat) (l : list A) : list A := take i l ++ drop (S i) l.

Definition Delete (id : string) (m : MemStore) : res unit * MemStore :=
  match indexOfLocked m id with
  | Some i => (Ok tt, set_localStrings (delete id (ms_localStrings m))
                        (set_beads (remove_at i (ms_beads m)) m))
  | None => (Err (Errorf "deleting bead %q: %w" [id] [ErrNotFound]), m)
  end.

(** * Reads *)

Definition Get (id : string) (m : MemStore) : res Bead :=
  match indexOfLocked m id ≫= fun i => ms_beads m !! i with
  | Some b => Ok b
  | None => Err (Errorf "getting bead %q: %w" [id] [ErrNotFound])
  end.

Definition ErrQueryRequiresScan : error := errmsg "bead query requires scan" [].

Definition List (query : ListQuery) (m : MemStore) : res (list Bead) :=
  if negb (HasFilter query) && negb (lq_AllowScan query)
  then Err (wrap "listing beads: %w" ErrQueryRequiresScan)
  else Ok (limited (lq_Limit query)
             (sortBeadsForQuery (List.filter (Matches query) (ms_beads m)) (lq_Sort query))).

Definition ListOpen (status : list string) (m : MemStore) : res (list Bead) :=
  List (mkListQuery (match status with [] => "" | s :: _ => s end) "" "" "" [] "" [] ∅ 0 0 0
          false true false false SortDefault false TierIssues None) m.

Definition Children (parentID : string) (opts : list QueryOpt) (m : MemStore) : res (list Bead) :=
  List (mkListQuery "" "" "" "" [] parentID [] ∅ 0 0 0 (HasOpt opts IncludeClosed) false false
          false SortCreatedAsc false (TierModeFromOpts opts) None) m.

Definition ListByLabel (label : string) (limit : Z) (opts : list QueryOpt) (m : MemStore)
  : res (list Bead) :=
  List (mkListQuery "" "" label "" [] "" [] ∅ 0 0 limit (HasOpt opts IncludeClosed) false false
          false SortCreatedDesc false (TierModeFromOpts opts) None) m.

Definition ListByAssignee (assignee status : string) (limit : Z) (m : MemStore)
  : res (list Bead) :=
  List (mkListQuery status "" "" assignee [] "" [] ∅ 0 0 limit false false false false
          SortCreatedDesc false TierIssues None) m.

Definition ListByMetadata (filters : gmap string string) (limit : Z) (opts : list QueryOpt)
  (m : MemStore) : res (list Bead) :=
  List (mkListQuery "" "" "" "" [] "" [] filters 0 0 limit (HasOpt opts IncludeClosed) false false
          false SortCreatedDesc false (TierModeFromOpts opts) None) m.

(** * Ready *)

(** contextErr: what the n-th poll of the request context answers; a context that
    cannot be cancelled always answers nil. *)
Definition Poll : Type := nat -> option error.
Definition background : Poll := fun _ => None.

(** statusByID after the first loop. *)
Definition statusByID (l : list Bead) : gmap string string :=
  fold_left (fun m b => <[bd_ID b := bd_Status b]> m) l ∅.

(** The loop over m.deps for one bead: the polls made and whether it is blocked. *)
Fixpoint blocked_loop (poll : Poll) (n : nat) (st : gmap string string) (id : string)
  (deps : list Dep) : res (bool * nat) :=
  match deps with
  | [] => Ok (false, n)
  | d :: deps' =>
      match poll n with
      | Some e => Err e
      | None =>
          if negb (String.eqb (dp_IssueID d) id) then blocked_loop poll (S n) st id deps' else
          if negb (IsReadyBlockingDependencyType (dp_Type d))
          then blocked_loop poll (S n) st id deps' else
          if negb (String.eqb (mget st (dp_DependsOnID d)) "closed") then Ok (true, S n)
          else blocked_loop poll (S n) st id deps'
      end
  end.

(** The main loop: [acc] is the result so far. *)
Fixpoint ready_loop (poll : Poll) (n : nat) (now : Z) (q : ReadyQuery) (st : gmap string string)
  (deps : list Dep) (acc l : list Bead) : res (list Bead) :=
  match l with
  | [] => Ok acc
  | b :: l' =>
      match poll n with
      | Some e => Err e
      | None =>
          if negb (IsReadyCandidateForTier b now (rq_TierMode q))
          then ready_loop poll (S n) now q st deps acc l' else
          if negb (String.eqb (rq_Assignee q) "") && negb (String.eqb (bd_Assignee b) (rq_Assignee q))
          then ready_loop poll (S n) now q st deps acc l' else
          match blocked_loop poll (S n) st (bd_ID b) deps with
          | Err e => Err e
          | Ok (true, n') => ready_loop poll n' now q st deps acc l'
          | Ok (false, n') =>
              let acc' := acc ++ [b] in
              if (0 <? rq_Limit q) && (rq_Limit q <=? Z.of_nat (length acc')) then Ok acc'
              else ready_loop poll n' now q st deps acc' l'
          end
      end
  end.

(** The polls of the status loop: the first answer that is an error ends the call. *)
Fixpoint poll_each (poll : Poll) (n : nat) (l : list Bead) : res nat :=
  match l with
  | [] => Ok n
  | _ :: l' => match poll n with Some e => Err e | None => poll_each poll (S n) l' end
  end.

Definition readyLocked (poll : Poll) (now : Z) (q : ReadyQuery) (m : MemStore)
  : res (list Bead) :=
  match poll_each poll 0 (ms_beads m) with
  | Err e => Err e
  | Ok n => ready_loop poll n now q (statusByID (ms_beads m)) (ms_deps m) [] (ms_beads m)
  end.

Definition Ready (now : Z) (query : list ReadyQuery) (m : MemStore) : res (list Bead) :=
  readyLocked background now (readyQueryFromArgs query) m.

(** * Metadata and clone-local strings *)

Definition SetMetadata (now : Z) (id key value : string) (m : MemStore) : res unit * MemStore :=
  on_bead "setting metadata on %q: %w" id (fun b => mutated now (put_meta key value b)) m.

Definition SetMetadataBatch (now : Z) (id : string) (kvs : gmap string string) (m : MemStore)
  : res unit * MemStore :=
  if empty_map kvs then (Ok tt, m) else
  on_bead "setting metadata batch on %q: %w" id (fun b => mutated now (merge_meta kvs b)) m.

Definition local_of (m : MemStore) (id : string) : gmap string string :=
  default ∅ (ms_localStrings m !! id).

Definition SetLocalString (id key value : string) (m : MemStore) : res unit * MemStore :=
  if negb (beadExistsLocked m id)
  then (Err (Errorf "setting local string on %q: %w" [id] [ErrNotFound]), m) else
  if String.eqb value ""
  then (Ok tt, set_localStrings (alter (delete key) id (ms_localStrings m)) m)
  else (Ok tt, set_localStrings (<[id := <[key := value]> (local_of m id)]> (ms_localStrings m)) m).

Definition GetLocalString (id key : string) (m : MemStore) : res string :=
  if negb (beadExistsLocked m id)
  then Err (Errorf "getting local string on %q: %w" [id] [ErrNotFound])
  else Ok (mget (local_of m id) key).

(** * Dependencies *)

Definition same_pair (issueID dependsOnID : string) (d : Dep) : bool :=
  String.eqb (dp_IssueID d) issueID && String.eqb (dp_DependsOnID d) dependsOnID.

(** DepAdd's loop: None when no entry absorbed the new edge. *)
Fixpoint dep_absorb (issueID dependsOnID depType : string) (l : list Dep) : option (list Dep) :=
  match l with
  | [] => None
  | d :: l' =>
      if same_pair issueID dependsOnID d && String.eqb (dp_Type d) depType then Some l else
      if same_pair issueID dependsOnID d && negb (String.eqb (dp_Type d) "parent-child")
         && negb (String.eqb depType "parent-child")
      then Some (mkDep (dp_IssueID d) (dp_DependsOnID d) depType :: l')
      else cons d <$> dep_absorb issueID dependsOnID depType l'
  end.

Definition DepAdd (issueID dependsOnID depType : string) (m : MemStore) : res unit * MemStore :=
  (Ok tt,
   match dep_absorb issueID dependsOnID depType (ms_deps m) with
   | Some l => set_deps l m
   | None => set_deps (ms_deps m ++ [mkDep issueID dependsOnID depType]) m
   end).

Fixpoint dep_drop (issueID dependsOnID : string) (l : list Dep) : list Dep :=
  match l with
  | [] => []
  | d :: l' => if same_pair issueID dependsOnID d then l' else d :: dep_drop issueID dependsOnID l'
  end.
Definition DepRemove (issueID dependsOnID : string) (m : MemStore) : res unit * MemStore :=
  (Ok tt, set_deps (dep_drop issueID dependsOnID (ms_deps m)) m).

Definition DepList (id direction : string) (m : MemStore) : res (list Dep) :=
  Ok (List.filter (fun d => if String.eqb direction "up" then String.eqb (dp_DependsOnID d) id
                            else String.eqb (dp_IssueID d) id) (ms_deps m)).

Definition DepListBatch (ids : list string) (m : MemStore) : res (gmap string (list Dep)) :=
  Ok (fold_left (fun r d =>
        if existsb (String.eqb (dp_IssueID d)) ids
        then <[dp_IssueID d := default [] (r !! dp_IssueID d) ++ [d]]> r else r) (ms_deps m) ∅).

(** * Conditional writes (memstore_conditional.go) *)

Definition ErrConditionalWriteUnsupported : error := errmsg "conditional writes unsupported" [].
Definition ErrEmptyConditionalUpdate : error :=
  errmsg "conditional update: empty UpdateOpts (nothing to apply)" [].
Definition PreconditionFailedError (id : string) (expected current : Z) : error :=
  errmsg "conditional write on %s: precondition failed (expected revision %d, current %d)"
    [id; Itoa expected; Itoa current].

(** The shared shape of the fenced writes: the capability switch, the lookup, then the
    revision test before [f] changes the bead at index i. *)
Definition fence (ctx id : string) (expectedRevision : Z)
  (f : nat -> Bead -> res unit * MemStore) (m : MemStore) : res unit * MemStore :=
  if ms_DisableConditionalWrites m then (Err ErrConditionalWriteUnsupported, m) else
  match indexOfLocked m id with
  | None => (Err (Errorf ctx [id] [ErrNotFound]), m)
  | Some i =>
      match ms_beads m !! i with
      | None => (Err (Errorf ctx [id] [ErrNotFound]), m)
      | Some b =>
          if negb (bd_Revision b =? expectedRevision)
          then (Err (PreconditionFailedError id expectedRevision (bd_Revision b)), m)
          else f i b
      end
  end.

Definition UpdateIfMatch (now : Z) (id : string) (expectedRevision : Z) (opts : UpdateOpts)
  (m : MemStore) : res unit * MemStore :=
  if isEmptyUpdateOpts opts
  then (Err (Errorf "conditional update %s: %w" [id] [ErrEmptyConditionalUpdate]), m)
  else fence "updating bead %q: %w" id expectedRevision
         (fun i _ => (Ok tt, applyUpdateLocked now i opts m)) m.

Definition CloseIfMatch (now : Z) (id : string) (expectedRevision : Z) (m : MemStore)
  : res unit * MemStore :=
  fence "closing bead %q: %w" id expectedRevision
    (fun i _ => (Ok tt, set_beads (alter (closed_bead now) i (ms_beads m)) m)) m.

Definition DeleteIfMatch (id : string) (expectedRevision : Z) (m : MemStore)
  : res unit * MemStore :=
  fence "deleting bead %q: %w" id expectedRevision
    (fun i _ => (Ok tt, set_beads (remove_at i (ms_beads m)) m)) m.

Definition CompareAndSetMetadataKey (now : Z) (id key expected next : string) (m : MemStore)
  : res bool * MemStore :=
  if ms_DisableConditionalWrites m then (Err ErrConditionalWriteUnsupported, m) else
  match indexOfLocked m id ≫= fun i => (i ,.) <$> ms_beads m !! i with
  | None => (Err (Errorf "compare-and-set metadata on %q: %w" [id] [ErrNotFound]), m)
  | Some (i, b) =>
      if negb (String.eqb (mget (bd_Metadata b) key) expected) then (Ok false, m)
      else (Ok true,
            set_beads (alter (fun b => mutated now (put_meta key next b)) i (ms_beads m)) m)
  end.

Definition probeConditionalWriteCapability (m : MemStore) : bool * string :=
  if ms_DisableConditionalWrites m
  then (false, "conditional writes disabled on this store instance") else (true, "").

(** * Lookup *)

Definition find (m : MemStore) (id : string) : option Bead :=
  indexOfLocked m id ≫= fun i => ms_beads m !! i.

Lemma index_in_find l id i :
  index_in l id = Some i -> exists b, l !! i = Some b /\ bd_ID b = id.
Proof.
  revert i. induction l as [|b l IH]; intros i; simpl; [done|].
  destruct (String.eqb_spec (bd_ID b) id) as [E|]; [intros [= <-]; by exists b|].
  intros (j & Hj & ->)%fmap_Some. by apply IH.
Qed.

Lemma index_in_alter f i l id :
  (forall b, bd_ID (f b) = bd_ID b) -> index_in (alter f i l) id = index_in l id.
Proof.
  intros Hf. revert i. induction l as [|b l IH]; intros i; [done|].
  destruct i as [|i]; cbn; [by rewrite Hf|].
  change (list_alter f i l) with (alter f i l). by rewrite IH.
Qed.

Lemma find_cons b l id :
  (index_in (b :: l) id ≫= fun i => (b :: l) !! i)
  = if String.eqb (bd_ID b) id then Some b else index_in l id ≫= fun i => l !! i.
Proof. simpl. destruct (String.eqb _ _); [done|]. by destruct (index_in l id). Qed.

Lemma find_app l1 l2 id :
  (index_in (l1 ++ l2) id ≫= fun i => (l1 ++ l2) !! i)
  = match index_in l1 id ≫= fun i => l1 !! i with
    | Some b => Some b
    | None => index_in l2 id ≫= fun i => l2 !! i
    end.
Proof.
  induction l1 as [|b l1 IH]; [done|]. rewrite <- app_comm_cons, !find_cons, IH.
  by destruct (String.eqb _ _).
Qed.

Lemma find_elem l id b :
  (index_in l id ≫= fun i => l !! i) = Some b -> b ∈ l /\ bd_ID b = id.
Proof.
  intros (i & Hi & Hb)%bind_Some. destruct (index_in_find _ _ _ Hi) as (b' & Hb' & <-).
  assert (b' = b) as -> by congruence. split; [|done]. by eapply list_elem_of_lookup_2.
Qed.

Lemma find_none l id :
  (index_in l id ≫= fun i => l !! i) = None <-> id ∉ (bd_ID <$> l).
Proof.
  induction l as [|b l IH]; [split; [intros _; apply not_elem_of_nil|done]|].
  rewrite find_cons, fmap_cons, not_elem_of_cons, <- IH.
  destruct (String.eqb_spec (bd_ID b) id); intuition congruence.
Qed.

Lemma find_unique l id b :
  NoDup (bd_ID <$> l) -> b ∈ l -> bd_ID b = id -> (index_in l id ≫= fun i => l !! i) = Some b.
Proof.
  intros Hn Hb <-. induction l as [|c l IH]; [by apply not_elem_of_nil in Hb|].
  rewrite find_cons. rewrite fmap_cons, NoDup_cons in Hn. destruct Hn as [Hc Hn].
  apply elem_of_cons in Hb as [->|Hb]; [by rewrite String.eqb_refl|].
  destruct (String.eqb_spec (bd_ID c) (bd_ID b)) as [E|]; [|by apply IH].
  exfalso. apply Hc. rewrite E. by apply list_elem_of_fmap_2.
Qed.

Lemma find_alter f m id i id' :
  (forall b, bd_ID (f b) = bd_ID b) -> indexOfLocked m id = Some i ->
  find (set_beads (alter f i (ms_beads m)) m) id'
  = if String.eqb id' id then f <$> find m id else find m id'.
Proof.
  intros Hf Hi. unfold find, indexOfLocked in *. simpl. rewrite index_in_alter by done.
  destruct (String.eqb_spec id' id) as [->|Hne].
  - rewrite Hi. simpl. apply list_lookup_alter_eq.
  - destruct (index_in (ms_beads m) id') as [j|] eqn:Hj; simpl; [|done].
    apply list_lookup_alter_ne. intros ->.
    destruct (index_in_find _ _ _ Hi) as (b & Hb & E), (index_in_find _ _ _ Hj) as (b' & Hb' & E').
    congruence.
Qed.

Lemma find_remove l id i id' :
  NoDup (bd_ID <$> l) -> index_in l id = Some i ->
  (index_in (remove_at i l) id' ≫= fun j => remove_at i l !! j)
  = if String.eqb id' id then None else index_in l id' ≫= fun j => l !! j.
Proof.
  unfold remove_at. revert i. induction l as [|b l IH]; intros i Hn Hi; [done|]. simpl in Hi.
  rewrite fmap_cons, NoDup_cons in Hn. destruct Hn as [Hb Hn]. rewrite (find_cons b l).
  destruct (String.eqb_spec (bd_ID b) id) as [<-|Hne].
  - injection Hi as <-. cbn [take drop app]. rewrite drop_0, (String.eqb_sym id').
    destruct (String.eqb_spec (bd_ID b) id') as [<-|]; [by apply find_none|done].
  - apply fmap_Some in Hi as (j & Hj & ->). cbn [take drop app]. rewrite find_cons.
    rewrite (IH _ Hn Hj). destruct (String.eqb_spec (bd_ID b) id') as [E|]; [|done].
    destruct (String.eqb_spec id' id); congruence.
Qed.

Lemma Get_find id m b : Get id m = Ok b <-> find m id = Some b.
Proof. unfold Get, find. destruct (_ ≫= _); split; congruence. Qed.

Lemma Get_not_found id m e : Get id m = Err e -> find m id = None.
Proof. unfold Get, find. by destruct (_ ≫= _). Qed.

Lemma find_index m id b : find m id = Some b -> is_Some (indexOfLocked m id).
Proof. unfold find. destruct (indexOfLocked m id); [by eexists|done]. Qed.

Lemma index_find m id i : indexOfLocked m id = Some i -> is_Some (find m id).
Proof. intros H. unfold find. rewrite H. destruct (index_in_find _ _ _ H) as (b & Hb & _). by exists b. Qed.

(** * How one operation may change one bead *)

(** An ownership context ends with an assignee change, a reopen, or a release. *)
Definition reopens (b b' : Bead) : Prop :=
  bd_Status b = "closed" /\ bd_Status b' <> "closed" /\ bd_Status b' <> "".
Definition releases (b b' : Bead) : Prop :=
  bd_Status b = "in_progress" /\ bd_Status b' = "open" /\ bd_Assignee b' = "".

(** The revision moves with every change, the fence with every change of owner and
    with nothing else. *)
Definition versioned (b b' : Bead) : Prop :=
  bd_ID b' = bd_ID b
  /\ (b' = b \/ bd_Revision b' = wrap64 (bd_Revision b + 1))
  /\ (bd_Assignee b' <> bd_Assignee b \/ reopens b b' ->
       bd_ClaimFence b' = wrap64 (bd_ClaimFence b + 1))
  /\ (bd_ClaimFence b' <> bd_ClaimFence b ->
       bd_Assignee b' <> bd_Assignee b \/ reopens b b' \/ releases b b').

Lemma versioned_refl b : versioned b b.
Proof. unfold versioned, reopens. intuition congruence. Qed.

(** What apply_update does to the fields the version discipline is about. *)
Lemma apply_update_fields now opts b :
  let b' := apply_update now opts b in
  bd_ID b' = bd_ID b /\ bd_Revision b' = wrap64 (bd_Revision b + 1)
  /\ bd_Assignee b' = default (bd_Assignee b) (uo_Assignee opts)
  /\ bd_Status b' = default (bd_Status b) (uo_Status opts)
  /\ bd_ClaimFence b' = (if isOwnershipTransition (bd_Status b) (bd_Assignee b) opts
                          then wrap64 (bd_ClaimFence b + 1) else bd_ClaimFence b).
Proof.
  unfold apply_update. destruct (isOwnershipTransition _ _ _), opts as [[] [] [] [] [] [] [] ls rl md];
    split_and!; reflexivity.
Qed.

Lemma apply_update_versioned now opts b : versioned b (apply_update now opts b).
Proof.
  destruct (apply_update_fields now opts b) as (Hi & Hr & Ha & Hs & Hf).
  unfold versioned, reopens, releases. rewrite Ha, Hs, Hf. split; [done|]. split; [by right|].
  unfold isOwnershipTransition. destruct (uo_Assignee opts) as [a|], (uo_Status opts) as [st|]; simpl;
    repeat split_str; simpl; intuition congruence.
Qed.

Lemma closed_bead_versioned now b : versioned b (closed_bead now b).
Proof.
  unfold closed_bead. destruct (String.eqb _ _); [apply versioned_refl|].
  unfold versioned, reopens. simpl. intuition congruence.
Qed.

Lemma reopened_versioned now b : versioned b (reopened now b).
Proof.
  unfold reopened. destruct (String.eqb_spec (bd_Status b) "open"); [apply versioned_refl|].
  unfold versioned, reopens. destruct (String.eqb_spec (bd_Status b) "closed"); simpl;
    intuition congruence.
Qed.

Lemma close_one_versioned now ids md b : versioned b (close_one now ids md b).
Proof.
  unfold close_one. destruct (_ || _); [apply versioned_refl|].
  unfold versioned, reopens. simpl. intuition congruence.
Qed.

Lemma released_versioned now b : bd_Status b = "in_progress" -> versioned b (released now b).
Proof. unfold versioned, reopens, releases. simpl. intuition congruence. Qed.

Lemma put_meta_versioned now k v b : versioned b (mutated now (put_meta k v b)).
Proof. unfold versioned, reopens. simpl. intuition congruence. Qed.

Lemma merge_meta_versioned now kvs b : versioned b (mutated now (merge_meta kvs b)).
Proof. unfold versioned, reopens. simpl. intuition congruence. Qed.

Create HintDb mem.
#[local] Hint Resolve versioned_refl apply_update_versioned closed_bead_versioned
  reopened_versioned close_one_versioned put_meta_versioned merge_meta_versioned : mem.

(** * Operations as calls *)

Inductive call : Type :=
| CCreate (b : Bead)
| CUpdate (id : string) (opts : UpdateOpts)
| CReleaseIfCurrent (id expectedAssignee : string)
| CClose (id : string)
| CReopen (id : string)
| CCloseAll (ids : list string) (metadata : gmap string string)
| CDelete (id : string)
| CSetMetadata (id key value : string)
| CSetMetadataBatch (id : string) (kvs : gmap string string)
| CSetLocalString (id key value : string)
| CDepAdd (issueID dependsOnID depType : string)
| CDepRemove (issueID dependsOnID : string)
| CUpdateIfMatch (id : string) (rev : Z) (opts : UpdateOpts)
| CCloseIfMatch (id : string) (rev : Z)
| CDeleteIfMatch (id : string) (rev : Z)
| CCompareAndSetMetadataKey (id key expected next : string).

Definition perform (now : Z) (c : call) (m : MemStore) : MemStore :=
  match c with
  | CCreate b => (Create now b m).2
  | CUpdate id opts => (Update now id opts m).2
  | CReleaseIfCurrent id a => (ReleaseIfCurrent now id a m).2
  | CClose id => (Close now id m).2
  | CReopen id => (Reopen now id m).2
  | CCloseAll ids md => (CloseAll now ids md m).2
  | CDelete id => (Delete id m).2
  | CSetMetadata id k v => (SetMetadata now id k v m).2
  | CSetMetadataBatch id kvs => (SetMetadataBatch now id kvs m).2
  | CSetLocalString id k v => (SetLocalString id k v m).2
  | CDepAdd i d t => (DepAdd i d t m).2
  | CDepRemove i d => (DepRemove i d m).2
  | CUpdateIfMatch id r opts => (UpdateIfMatch now id r opts m).2
  | CCloseIfMatch id r => (CloseIfMatch now id r m).2
  | CDeleteIfMatch id r => (DeleteIfMatch id r m).2
  | CCompareAndSetMetadataKey id k e n => (CompareAndSetMetadataKey now id k e n m).2
  end.

(** Any interleaving of [n] operations by any number of clients. *)
Inductive history : nat -> MemStore -> MemStore -> Prop :=
| history_nil m : history 0 m m
| history_step n now c m m' : history n (perform now c m) m' -> history (S n) m m'.

(** The three ways an operation changes the slice of beads. *)
Inductive slice_step (m : MemStore) : MemStore -> Prop :=
| slice_same m' :
    Forall2 versioned (ms_beads m) (ms_beads m') -> ms_seq m' = ms_seq m ->
    ms_IDPrefix m' = ms_IDPrefix m -> slice_step m m'
| slice_removed m' i :
    ms_beads m' = remove_at i (ms_beads m) -> ms_seq m' = ms_seq m ->
    ms_IDPrefix m' = ms_IDPrefix m -> slice_step m m'
| slice_added m' b :
    ms_beads m' = ms_beads m ++ [b] ->
    bd_ID b = id_prefix m +:+ "-" +:+ Itoa (wrap64 (ms_seq m + 1)) ->
    ms_seq m' = wrap64 (ms_seq m + 1) -> ms_IDPrefix m' = ms_IDPrefix m -> slice_step m m'.

Lemma Forall2_versioned_refl l : Forall2 versioned l l.
Proof. induction l; constructor; auto with mem. Qed.

Lemma alter_versioned f i l :
  (forall b, l !! i = Some b -> versioned b (f b)) -> Forall2 versioned l (alter f i l).
Proof.
  revert i. induction l as [|b l IH]; intros i Hf; [constructor|].
  destruct i as [|i]; constructor; auto using Forall2_versioned_refl with mem.
Qed.

Lemma slice_refl m : slice_step m m.
Proof. by apply slice_same; [apply Forall2_versioned_refl| |]. Qed.

Lemma slice_alter f i m :
  (forall b, ms_beads m !! i = Some b -> versioned b (f b)) ->
  slice_step m (set_beads (alter f i (ms_beads m)) m).
Proof. intros Hf. by apply slice_same; [apply alter_versioned| |]. Qed.

#[local] Hint Resolve slice_refl slice_alter : mem.

Lemma fence_slice ctx id rev f m :
  (forall i b, slice_step m (f i b).2) -> slice_step m (fence ctx id rev f m).2.
Proof.
  intros Hf. unfold fence. repeat case_match; simpl; auto with mem; by subst.
Qed.

Lemma perform_slice now c m : slice_step m (perform now c m).
Proof.
  destruct c; simpl;
    unfold Update, Close, Reopen, Delete, SetMetadata, SetMetadataBatch, on_bead, SetLocalString,
      UpdateIfMatch, CloseIfMatch, DeleteIfMatch, applyUpdateLocked.
  all: try (repeat case_match; simpl; auto with mem; fail).
  all: try (repeat case_match; simpl; auto with mem;
            apply fence_slice; intros; simpl; auto with mem; fail).
  - by eapply slice_added.
  - unfold ReleaseIfCurrent. destruct (indexOfLocked m id) as [i|]; [|auto with mem].
    destruct (ms_beads m !! i) as [b|] eqn:E; [|auto with mem].
    destruct (String.eqb_spec (bd_Status b) "in_progress") as [Hs|]; [|auto with mem].
    destruct (String.eqb (bd_Assignee b) expectedAssignee); [|auto with mem].
    apply slice_alter. intros b' Hb. assert (b' = b) as -> by congruence. by apply released_versioned.
  - apply slice_same; [|done|done]. simpl. induction (ms_beads m); constructor; auto with mem.
  - destruct (indexOfLocked m id); [|auto with mem]. by eapply slice_removed.
  - repeat case_match; simpl; try apply slice_same; simpl; auto using Forall2_versioned_refl.
  - case_match; apply slice_same; simpl; auto using Forall2_versioned_refl.
  - apply slice_same; simpl; auto using Forall2_versioned_refl.
  - apply fence_slice. intros. by eapply slice_removed.
  - unfold CompareAndSetMetadataKey. repeat case_match; simpl; auto with mem.
Qed.

(** * Identifiers *)

(** The store minted [id] at some point. *)
Definition spent (m : MemStore) (id : string) : Prop :=
  exists k, 0 < k <= ms_seq m /\ id = id_prefix m +:+ "-" +:+ Itoa k.

(** Well-formed: identifiers are unique and all of them were minted. *)
Definition wf (m : MemStore) : Prop :=
  0 <= ms_seq m /\ NoDup (bd_ID <$> ms_beads m) /\ Forall (fun b => spent m (bd_ID b)) (ms_beads m).

Lemma mint_fresh m :
  0 <= ms_seq m < max_int64 -> ~ spent m (id_prefix m +:+ "-" +:+ Itoa (wrap64 (ms_seq m + 1))).
Proof.
  intros Hs (k & Hk & E). unfold max_int64 in Hs.
  rewrite wrap64_small in E by (unfold min_int64, max_int64; lia).
  apply string_app_inj_l, string_app_inj_l, Itoa_inj in E;
    unfold min_int64, max_int64 in *; lia.
Qed.

Lemma slice_seq m m' :
  slice_step m m' -> 0 <= ms_seq m < max_int64 ->
  ms_seq m <= ms_seq m' <= ms_seq m + 1 /\ id_prefix m' = id_prefix m.
Proof.
  intros Hs Hb. unfold id_prefix.
  destruct Hs as [m' _ -> ->|m' i _ -> ->|m' b _ _ -> ->]; split; try done; try lia.
  rewrite wrap64_small by (unfold min_int64, max_int64 in *; lia). lia.
Qed.

Lemma spent_mono m m' id :
  ms_seq m <= ms_seq m' -> id_prefix m' = id_prefix m -> spent m id -> spent m' id.
Proof. intros Hs Hp (k & Hk & ->). exists k. rewrite Hp. split; [lia|done]. Qed.

Lemma remove_at_sublist {A} i (l : list A) : remove_at i l `sublist_of` l.
Proof.
  unfold remove_at. rewrite <- (take_drop i l) at 3. apply sublist_app; [done|].
  rewrite <- Nat.add_1_r, <- drop_drop. apply sublist_drop.
Qed.

Lemma slice_wf m m' : slice_step m m' -> ms_seq m < max_int64 -> wf m -> wf m'.
Proof.
  intros Hs Hb (H0 & Hn & Hf). destruct (slice_seq _ _ Hs) as [Hq Hp]; [lia|].
  assert (Hmono : forall id, spent m id -> spent m' id)
    by (intros; apply (spent_mono m); [lia|done..]).
  assert (Hf' : Forall (fun b => spent m' (bd_ID b)) (ms_beads m)) by (eapply Forall_impl; eauto).
  split; [lia|]. destruct Hs as [m' H2 _ _|m' i -> _ _|m' b -> Hid Hseq _].
  - assert (bd_ID <$> ms_beads m' = bd_ID <$> ms_beads m) as E.
    { clear -H2. induction H2 as [|b b' l l' (E & _) _ IH]; [done|].
      rewrite !fmap_cons. congruence. }
    rewrite E. split; [done|]. rewrite Forall_forall in Hf' |- *. intros b Hin.
    apply (list_elem_of_fmap_2 bd_ID) in Hin. rewrite E in Hin.
    apply list_elem_of_fmap in Hin as (c & -> & Hc). by apply Hf'.
  - pose proof (remove_at_sublist i (ms_beads m)) as Hsub. split.
    + eapply sublist_NoDup; [done|]. by apply (fmap_sublist bd_ID).
    + rewrite Forall_forall in Hf' |- *. intros b Hin. apply Hf'.
      by eapply (sublist_subseteq _ _ Hsub).
  - split.
    + rewrite fmap_app. apply NoDup_app. split; [done|]. split; [|apply NoDup_singleton].
      intros x (c & -> & Hc)%list_elem_of_fmap Hx. simpl in Hx.
      apply list_elem_of_singleton in Hx. rewrite Forall_forall in Hf.
      apply (mint_fresh m); [lia|]. rewrite <- Hid, <- Hx. by apply Hf.
    + apply Forall_app. split; [done|]. repeat constructor.
      exists (ms_seq m'). split; [rewrite Hseq, wrap64_small; unfold min_int64, max_int64 in *; lia|].
      rewrite Hid, Hp, Hseq. done.
Qed.

(** * Versions along a history *)

(** An identifier that left the store stays out of it. *)
Lemma slice_gone m m' id :
  slice_step m m' -> 0 <= ms_seq m < max_int64 -> spent m id -> find m id = None ->
  find m' id = None.
Proof.
  unfold find, indexOfLocked. intros Hs Hb Hsp. rewrite !find_none.
  destruct Hs as [m' H2 _ _|m' i -> _ _|m' b -> Hid _ _]; intros Hg.
  - contradict Hg. clear -Hg H2. induction H2 as [|b b' l l' (E & _) _ IH]; [done|].
    rewrite fmap_cons, elem_of_cons in *. rewrite <- E. tauto.
  - contradict Hg. eapply (sublist_subseteq _ _ (fmap_sublist bd_ID _ _ (remove_at_sublist i _))).
    exact Hg.
  - rewrite fmap_app. rewrite not_elem_of_app. split; [done|]. simpl.
    intros ->%list_elem_of_singleton. rewrite Hid in Hsp. by apply (mint_fresh m).
Qed.

Lemma find_Forall2 l l' id b :
  Forall2 versioned l l' -> (index_in l id ≫= fun i => l !! i) = Some b ->
  exists b', (index_in l' id ≫= fun i => l' !! i) = Some b' /\ versioned b b'.
Proof.
  induction 1 as [|c c' l l' Hc _ IH]; [done|]. rewrite !find_cons.
  destruct Hc as (E & Hc). rewrite E. destruct (String.eqb _ _); [|done].
  intros [= <-]. exists c'. done.
Qed.

(** A bead is changed by one version step, untouched, or gone. *)
Lemma slice_find m m' id b :
  slice_step m m' -> wf m -> find m id = Some b ->
  (exists b', find m' id = Some b' /\ versioned b b') \/ find m' id = None.
Proof.
  unfold find, indexOfLocked. intros Hs (_ & Hn & _) Hf.
  destruct Hs as [m' H2 _ _|m' i -> _ _|m' c -> _ _ _].
  - left. by eapply find_Forall2.
  - pose proof (remove_at_sublist i (ms_beads m)) as Hsub.
    destruct (index_in (remove_at i _) id ≫= _) as [b'|] eqn:E; [left|by right].
    exists b'. split; [done|]. destruct (find_elem _ _ _ E) as [Hb' Hid].
    apply (sublist_subseteq _ _ Hsub) in Hb'. rewrite (find_unique _ _ _ Hn Hb' Hid) in Hf.
    injection Hf as ->. apply versioned_refl.
  - left. exists b. rewrite find_app, Hf. split; [done|apply versioned_refl].
Qed.

Lemma history_gone n m m' id :
  history n m m' -> 0 <= ms_seq m -> ms_seq m + Z.of_nat n <= max_int64 -> spent m id ->
  find m id = None -> find m' id = None.
Proof.
  induction 1 as [m|n now c m m' _ IH]; intros H0 Hb Hsp Hg; [done|].
  pose proof (perform_slice now c m) as Hs. destruct (slice_seq _ _ Hs); [lia|].
  apply IH; [lia|lia|by apply (spent_mono m); [lia|..]|].
  by apply (slice_gone m); [|lia|..].
Qed.

Lemma history_versions n m m' id b b' :
  history n m m' -> wf m -> ms_seq m + Z.of_nat n <= max_int64 ->
  min_int64 <= bd_Revision b -> bd_Revision b + Z.of_nat n <= max_int64 ->
  find m id = Some b -> find m' id = Some b' ->
  bd_Revision b <= bd_Revision b' /\ (bd_Revision b' = bd_Revision b -> b' = b).
Proof.
  intros Hh. revert b. induction Hh as [m|n now c m m' Hh IH]; intros b Hw Hq Hm Hr Hf Hf'.
  { assert (b' = b) as -> by congruence. split; [lia|done]. }
  pose proof (perform_slice now c m) as Hs. pose proof Hw as (H0 & _ & Hall).
  destruct (slice_seq _ _ Hs) as [Hq' Hp]; [lia|].
  destruct (slice_find _ _ _ _ Hs Hw Hf) as [(b1 & Hf1 & _ & Hv & _)|Hg].
  - assert (Hw1 := slice_wf _ _ Hs ltac:(lia) Hw).
    destruct Hv as [->|Hv].
    + apply IH; [done|lia..|done|done].
    + rewrite wrap64_small in Hv by (unfold min_int64, max_int64 in *; lia).
      destruct (IH b1) as [Hle _]; [done|lia..|done|done|]. lia.
  - exfalso. unfold find in Hf. destruct (find_elem _ _ _ Hf) as [Hb Hid].
    rewrite Forall_forall in Hall. apply Hall in Hb. rewrite Hid in Hb.
    rewrite (history_gone _ _ _ _ Hh) in Hf'; [done|lia|lia|by apply (spent_mono m); [lia|..]|done].
Qed.

(** Identifiers stay unique and are never reused: along any interleaving of
    operations by any number of clients (within the int range of the counter), the
    store stays well-formed, and a deleted bead's identifier never names another bead. *)
Theorem identifiers_never_reused n m m' id :
  wf m -> history n m m' -> ms_seq m + Z.of_nat n <= max_int64 ->
  wf m' /\ (spent m id -> find m id = None -> find m' id = None).
Proof.
  intros Hw Hh Hb. pose proof Hw as (H0 & _). split.
  - revert Hw Hb. clear H0. induction Hh as [m|n now c m m' _ IH]; intros Hw Hb; [done|].
    pose proof (perform_slice now c m) as Hs. pose proof Hw as (H0 & _).
    destruct (slice_seq _ _ Hs); [lia|].
    apply IH; [|lia]. apply (slice_wf m); [done|lia|done].
  - by apply (history_gone n).
Qed.

(** (C36) Optimistic concurrency: a fenced update against the revision a client read
    succeeds exactly when the bead is still the version that was read, whatever other
    clients did in between, and then applies to that version; otherwise it changes
    nothing.  So no update is lost and no stale snapshot wins. *)
Theorem fenced_update_exact n m m' id b now opts :
  wf m -> history n m m' -> ms_seq m + Z.of_nat n <= max_int64 ->
  min_int64 <= bd_Revision b -> bd_Revision b + Z.of_nat n <= max_int64 ->
  find m id = Some b -> isEmptyUpdateOpts opts = false -> ms_DisableConditionalWrites m' = false ->
  match UpdateIfMatch now id (bd_Revision b) opts m' with
  | (Ok _, m'') => find m' id = Some b /\ find m'' id = Some (apply_update now opts b)
  | (Err _, m'') => find m' id <> Some b /\ m'' = m'
  end.
Proof.
  intros Hw Hh Hq Hm Hr Hf Ho Hd. unfold UpdateIfMatch, fence. rewrite Ho, Hd.
  pose proof (fun b' => history_versions n m m' id b b' Hh Hw Hq Hm Hr Hf) as Hv.
  unfold find in *. destruct (indexOfLocked m' id) as [i|] eqn:Ei; simpl in *; [|done].
  destruct (ms_beads m' !! i) as [b'|] eqn:Eb; [|done].
  destruct (Z.eqb_spec (bd_Revision b') (bd_Revision b)) as [E|E]; simpl.
  - destruct (Hv _ eq_refl) as [_ Hb]. rewrite (Hb E) in *. split; [done|].
    assert (indexOfLocked (applyUpdateLocked now i opts m') id = Some i) as ->.
    { unfold indexOfLocked, applyUpdateLocked in *. simpl. rewrite index_in_alter; [done|].
      intros c. apply apply_update_fields. }
    simpl. by rewrite list_lookup_alter_eq, Eb.
  - split; [|done]. congruence.
Qed.

(** The revision contract and the ownership fence: every operation leaves a bead
    alone, deletes it, or bumps its revision by one; the claim fence is bumped by one
    whenever the assignee changes or a closed bead is reopened, and moves only then or
    when an in-progress bead is released. *)
Theorem versions_and_fences now c m id b :
  wf m -> find m id = Some b ->
  find (perform now c m) id = None
  \/ exists b', find (perform now c m) id = Some b' /\ bd_ID b' = id
       /\ (b' = b \/ bd_Revision b' = wrap64 (bd_Revision b + 1))
       /\ (bd_Assignee b' <> bd_Assignee b \/ reopens b b' ->
            bd_ClaimFence b' = wrap64 (bd_ClaimFence b + 1))
       /\ (bd_ClaimFence b' <> bd_ClaimFence b ->
            bd_Assignee b' <> bd_Assignee b \/ reopens b b' \/ releases b b').
Proof.
  intros Hw Hf. destruct (slice_find _ _ _ _ (perform_slice now c m) Hw Hf)
    as [(b' & Hf' & Hid & Hv)|Hg]; [right|by left].
  exists b'. split; [done|]. rewrite Hid. split; [|done].
  by destruct (find_elem _ _ _ Hf).
Qed.

(** * Ready work *)

(** The dependency target is a closed bead of the store; a deleted or unknown target
    is not, and blocks for ever. *)
Definition target_closed (m : MemStore) (id : string) : bool :=
  match find m id with Some b => String.eqb (bd_Status b) "closed" | None => false end.
Definition blocked (m : MemStore) (b : Bead) : bool :=
  existsb (fun d => String.eqb (dp_IssueID d) (bd_ID b) && IsReadyBlockingDependencyType (dp_Type d)
                    && negb (target_closed m (dp_DependsOnID d))) (ms_deps m).
Definition is_ready (m : MemStore) (now : Z) (q : ReadyQuery) (b : Bead) : bool :=
  IsReadyCandidateForTier b now (rq_TierMode q)
  && (String.eqb (rq_Assignee q) "" || String.eqb (bd_Assignee b) (rq_Assignee q))
  && negb (blocked m b).

Lemma statusByID_lookup l id :
  NoDup (bd_ID <$> l) ->
  statusByID l !! id = bd_Status <$> (index_in l id ≫= fun i => l !! i).
Proof.
  unfold statusByID. intros Hn.
  enough (H : forall m0 : gmap string string,
    fold_left (fun m b => <[bd_ID b := bd_Status b]> m) l m0 !! id
    = match index_in l id ≫= fun i => l !! i with
      | Some b => Some (bd_Status b) | None => m0 !! id end).
  { rewrite H, lookup_empty. by destruct (index_in l id ≫= _). }
  induction l as [|b l IH]; intros m0; [done|]. cbn [fold_left].
  rewrite fmap_cons, NoDup_cons in Hn. destruct Hn as [Hb Hn]. rewrite (IH Hn), find_cons.
  destruct (String.eqb_spec (bd_ID b) id) as [<-|Hne].
  - apply find_none in Hb. rewrite Hb. apply lookup_insert_eq.
  - destruct (index_in l id ≫= _); [done|]. by apply lookup_insert_ne.
Qed.

Lemma status_closed m id :
  NoDup (bd_ID <$> ms_beads m) ->
  String.eqb (mget (statusByID (ms_beads m)) id) "closed" = target_closed m id.
Proof.
  intros Hn. unfold mget, target_closed, find, indexOfLocked. rewrite statusByID_lookup by done.
  by destruct (index_in _ _ ≫= _).
Qed.

Lemma blocked_loop_spec poll m b deps n :
  NoDup (bd_ID <$> ms_beads m) ->
  match blocked_loop poll n (statusByID (ms_beads m)) (bd_ID b) deps with
  | Ok (r, _) =>
      r = existsb (fun d => String.eqb (dp_IssueID d) (bd_ID b)
            && IsReadyBlockingDependencyType (dp_Type d)
            && negb (target_closed m (dp_DependsOnID d))) deps
  | Err e => exists k, poll k = Some e
  end.
Proof.
  intros Hn. revert n. induction deps as [|d deps IH]; intros n; simpl; [done|].
  destruct (poll n) as [e|] eqn:Hp; [by exists n|]. rewrite status_closed by done.
  destruct (String.eqb (dp_IssueID d) (bd_ID b)); simpl; [|apply IH].
  destruct (IsReadyBlockingDependencyType (dp_Type d)); simpl; [|apply IH].
  destruct (target_closed m (dp_DependsOnID d)); simpl; [apply IH|done].
Qed.

Lemma limited_short {A} limit (l : list A) :
  (0 < limit -> Z.of_nat (length l) <= limit) -> limited limit l = l.
Proof.
  intros H. unfold limited. destruct (Z.ltb_spec 0 limit); [|done].
  destruct (Z.ltb_spec limit (Z.of_nat (length l))); [|done]. lia.
Qed.

Lemma limited_full {A} limit (l1 l2 : list A) :
  0 < limit -> Z.of_nat (length l1) = limit -> limited limit (l1 ++ l2) = l1.
Proof.
  intros H0 Hl. unfold limited. rewrite length_app.
  assert (Hn : Z.to_nat limit = length l1) by lia.
  destruct (Z.ltb_spec 0 limit); [|lia]. simpl.
  destruct (Z.ltb_spec limit (Z.of_nat (length l1 + length l2))).
  - rewrite Hn. by rewrite take_app_length.
  - destruct l2; [by rewrite app_nil_r|simpl in *; lia].
Qed.

Lemma ready_loop_spec poll m now q l acc n :
  NoDup (bd_ID <$> ms_beads m) ->
  (0 < rq_Limit q -> Z.of_nat (length acc) < rq_Limit q) ->
  match ready_loop poll n now q (statusByID (ms_beads m)) (ms_deps m) acc l with
  | Ok r => r = limited (rq_Limit q) (acc ++ List.filter (is_ready m now q) l)
  | Err e => exists k, poll k = Some e
  end.
Proof.
  intros Hn. revert acc n. induction l as [|b l IH]; intros acc n Hacc; simpl.
  { rewrite app_nil_r. symmetry. apply limited_short. lia. }
  destruct (poll n) as [e|] eqn:Hp; [by exists n|]. unfold is_ready at 1.
  destruct (IsReadyCandidateForTier b now (rq_TierMode q)); simpl; [|by apply IH].
  destruct (String.eqb (rq_Assignee q) ""), (String.eqb (bd_Assignee b) (rq_Assignee q)); simpl;
    try (by apply IH).
  all: pose proof (blocked_loop_spec poll m b (ms_deps m) (S n) Hn) as Hb;
    destruct (blocked_loop _ _ _ _ _) as [[r n']|e]; [|done];
    unfold blocked; rewrite <- Hb; destruct r; simpl; [by apply IH|];
    destruct (Z.ltb_spec 0 (rq_Limit q)); simpl;
    [destruct (Z.leb_spec (rq_Limit q) (Z.of_nat (length (acc ++ [b]))))|].
  all: rewrite ?length_app in *; simpl in *; rewrite (cons_middle b acc (List.filter _ l)), (app_assoc acc [b]).
  all: try (symmetry; apply limited_full; [lia|rewrite length_app; simpl; lia]).
  all: apply IH; rewrite length_app; simpl; lia.
Qed.

(** Ready work: without cancellation Ready returns exactly the open, actionable,
    undeferred beads of the requested tier and assignee all of whose blocking
    dependencies are closed beads, in creation order and cut to the limit; under a
    cancellable context a call either returns that same list or an error of the
    context, never a partial list. *)
Theorem Ready_exact poll now q m :
  wf m ->
  Ready now [q] m = Ok (limited (rq_Limit q) (List.filter (is_ready m now q) (ms_beads m)))
  /\ match readyLocked poll now q m with
     | Ok l => Ready now [q] m = Ok l
     | Err e => exists k, poll k = Some e
     end.
Proof.
  intros (_ & Hn & _).
  assert (Hall : forall poll, match readyLocked poll now q m with
     | Ok l => l = limited (rq_Limit q) (List.filter (is_ready m now q) (ms_beads m))
     | Err e => exists k, poll k = Some e end).
  { clear poll. intros poll. unfold readyLocked.
    assert (Hp : forall l n, match poll_each poll n l with Ok _ => True
                             | Err e => exists k, poll k = Some e end).
    { induction l as [|b l IH]; intros n; simpl; [done|].
      destruct (poll n) eqn:E; [by exists n|apply IH]. }
    specialize (Hp (ms_beads m) 0%nat). destruct (poll_each _ _ _) as [n|e]; [|done].
    apply (ready_loop_spec poll m now q (ms_beads m) [] n Hn). simpl. lia. }
  assert (Hr : Ready now [q] m = Ok (limited (rq_Limit q)
                 (List.filter (is_ready m now q) (ms_beads m)))).
  { unfold Ready. simpl. specialize (Hall background).
    destruct (readyLocked background now q m); [by rewrite Hall|]. by destruct Hall. }
  split; [done|]. specialize (Hall poll). destruct (readyLocked poll now q m); [|done]. congruence.
Qed.

(** * Examples *)

(** Two beads, the second waiting for the first. *)
Definition demo : MemStore :=
  (Create 20 (set_Title "second" (mkBead "" "" "" "" None 0 0 "" "" "" "" ["gc-1"] "" [] ∅ []
                                    false false None None 0 0))
    (Create 10 (set_Title "first" Bead0) NewMemStore).2).2.

Lemma demo_wf : wf demo.
Proof.
  split; [vm_compute; congruence|]. split.
  - apply (bool_decide_unpack _). vm_compute. exact I.
  - repeat constructor; [exists 1|exists 2]; (split; [vm_compute; split; congruence|reflexivity]).
Qed.

Lemma identifiers_never_reused_witness :
  wf (perform 30 (CDelete "gc-2") demo)
  /\ find (perform 40 (CCreate Bead0) (perform 30 (CDelete "gc-2") demo)) "gc-2" = None.
Proof.
  split.
  - apply (identifiers_never_reused 1 demo _ "gc-2" demo_wf);
      [apply history_step with 30 (CDelete "gc-2"), history_nil|vm_compute; congruence].
  - apply (identifiers_never_reused 1 (perform 30 (CDelete "gc-2") demo) _ "gc-2").
    + apply (identifiers_never_reused 1 demo _ "gc-2" demo_wf);
        [apply history_step with 30 (CDelete "gc-2"), history_nil|vm_compute; congruence].
    + apply history_step with 40 (CCreate Bead0), history_nil.
    + vm_compute; congruence.
    + exists 2. split; [vm_compute; split; congruence|reflexivity].
    + reflexivity.
Defined.

Definition bead_of (m : MemStore) (id : string) : Bead := default Bead0 (find m id).
Definition retitle (t : string) : UpdateOpts :=
  mkUpdateOpts (Some t) None None None None None None [] [] ∅.

(** Another client wrote in between: the stale update is refused. *)
Lemma fenced_update_exact_witness :
  find (perform 30 (CSetMetadata "gc-1" "k" "v") demo) "gc-1" <> Some (bead_of demo "gc-1")
  /\ (UpdateIfMatch 40 "gc-1" 1 (retitle "late") (perform 30 (CSetMetadata "gc-1" "k" "v") demo)).2
     = perform 30 (CSetMetadata "gc-1" "k" "v") demo.
Proof.
  apply (fenced_update_exact 1 demo (perform 30 (CSetMetadata "gc-1" "k" "v") demo) "gc-1"
           (bead_of demo "gc-1") 40 (retitle "late") demo_wf);
    try (vm_compute; congruence); try reflexivity.
  apply history_step with 30 (CSetMetadata "gc-1" "k" "v"), history_nil.
Defined.

Lemma versions_and_fences_witness :
  find (perform 30 (CClose "gc-1") demo) "gc-1" = None
  \/ exists b', find (perform 30 (CClose "gc-1") demo) "gc-1" = Some b' /\ bd_ID b' = "gc-1"
       /\ (b' = bead_of demo "gc-1" \/ bd_Revision b' = 2).
Proof.
  destruct (versions_and_fences 30 (CClose "gc-1") demo "gc-1" (bead_of demo "gc-1") demo_wf)
    as [H|(b' & H1 & H2 & H3 & _)]; [reflexivity|by left|right; by exists b'].
Defined.

Lemma Ready_exact_witness :
  Ready 50 [mkReadyQuery "" 0 TierIssues] demo = Ok [bead_of demo "gc-1"].
Proof.
  destruct (Ready_exact background 50 (mkReadyQuery "" 0 TierIssues) demo demo_wf) as [H _].
  rewrite H. reflexivity.
Defined.

End MemStore.
