(* ===== verification/ConvAdapter.v ===== *)
(** The adapter between the bead store and the convergence engine
    (cmd/gc/convergence_store.go) over the in-memory bead store: its active index, its
    twelve Store methods, and the translation of beads into BeadInfo.  Formula
    compilation and cooking (internal/graphv2, internal/molecule) and the RFC 3339
    parser are parameters. *)
From S2P Require Import Prelude GoStd ConvMeta ConvKeys ConvStore ConvFrame ConvGate ConvHandler.
From S2P Require Import ConvManual RefStore BeadQuery BeadMem.

Module convergenceStoreAdapter.
Import beads.

(** Metadata keys of internal/beadmeta/keys.go the activation reads and writes. *)
Definition DeferredAssigneeMetadataKey : string := "gc.deferred_assignee".
Definition DeferredExecutionRoutedToMetadataKey : string := "gc.deferred_execution_routed_to".
Definition DeferredRoutedToMetadataKey : string := "gc.deferred_routed_to".
Definition DeferredTypeMetadataKey : string := "gc.deferred_type".
Definition ExecutionRoutedToMetadataKey : string := "gc.execution_routed_to".
Definition RoutedToMetadataKey : string := "gc.routed_to".

(** The adapter with the store behind it and the clock readings to come; a nil
    activeIndex is None. *)
Record Adapter : Type := mkAdapter {
  ad_store : MemStore.MemStore;
  ad_formulaSearchPaths : list string;
  ad_activeIndex : option (gmap string string);
  ad_indexReady : bool;
  ad_clock : list Z
}.

Definition newConvergenceStoreAdapter (store : MemStore.MemStore) (paths : list string)
  (clock : list Z) : Adapter := mkAdapter store paths None false clock.

Definition set_store (m : MemStore.MemStore) (a : Adapter) : Adapter :=
  mkAdapter m (ad_formulaSearchPaths a) (ad_activeIndex a) (ad_indexReady a) (ad_clock a).
Definition set_index (i : option (gmap string string)) (a : Adapter) : Adapter :=
  mkAdapter (ad_store a) (ad_formulaSearchPaths a) i (ad_indexReady a) (ad_clock a).
(** time.Now() *)
Definition now (a : Adapter) : Z := hd 0 (ad_clock a).
Definition tick (a : Adapter) : Adapter :=
  mkAdapter (ad_store a) (ad_formulaSearchPaths a) (ad_activeIndex a) (ad_indexReady a)
    (tl (ad_clock a)).
(** A mutation of the store, which reads the clock. *)
Definition mutate {A} (f : Z -> MemStore.MemStore -> res A * MemStore.MemStore) (a : Adapter)
  : res A * Adapter :=
  let '(r, m) := f (now a) (ad_store a) in (r, set_store m (tick a)).

Definition query_type (t : string) : ListQuery :=
  mkListQuery "" t "" "" [] "" [] ∅ 0 0 0 false false false false SortDefault false TierIssues None.
Definition query_parent (p : string) : ListQuery :=
  mkListQuery "" "" "" "" [] p [] ∅ 0 0 0 false false false false SortCreatedAsc false TierIssues None.
Definition query_metadata (f : gmap string string) : ListQuery :=
  mkListQuery "" "" "" "" [] "" [] f 0 0 0 false false false false SortDefault false TierIssues None.

(** The states the index holds. *)
Definition indexed_state (state : string) : bool :=
  String.eqb state StateActive || String.eqb state StateWaitingManual
  || String.eqb state StateWaitingTrigger.

Definition populateIndex (a : Adapter) : res unit * Adapter :=
  match MemStore.List (query_type "convergence") (ad_store a) with
  | Err e => (Err e, a)
  | Ok all =>
      let idx := fold_left (fun idx b =>
        if indexed_state (mget (bd_Metadata b) FieldState)
        then <[bd_ID b := mget (bd_Metadata b) FieldTarget]> idx else idx) all ∅ in
      (Ok tt, mkAdapter (ad_store a) (ad_formulaSearchPaths a) (Some idx) true (ad_clock a))
  end.

Definition activeBeadIDs (a : Adapter) : list string :=
  match ad_activeIndex a with
  | None => []
  | Some idx => (map_to_list idx).*1
  end.

Section Parameters.
(** time.Parse(time.RFC3339Nano, s) as nanoseconds since Go's zero time. *)
Variable parse_time : string -> option Z.
(** graphv2.IsGraphV2Formula(formula, paths). *)
Variable IsGraphV2Formula : string -> list string -> res bool.
(** molecule.Cook on the store with Vars, ParentID, IdempotencyKey and DeferAssignees:
    the root bead's identifier and the store it leaves. *)
Variable Cook : Z -> MemStore.MemStore -> string -> list string -> gmap string string -> string ->
  string -> bool -> res string * MemStore.MemStore.

Definition beadToInfo (b : Bead) : BeadInfo :=
  let ca := mget (bd_Metadata b) "closed_at" in
  let closedAt := if negb (String.eqb ca "") then default 0 (parse_time ca) else 0 in
  let closedAt := if String.eqb (bd_Status b) "closed" && IsZero closedAt
                  then bd_CreatedAt b else closedAt in
  mkBeadInfo (bd_ID b) (bd_Status b) (bd_ParentID b) (mget (bd_Metadata b) "idempotency_key")
    (bd_CreatedAt b) closedAt.

Definition GetBead (id : string) (a : Adapter) : res BeadInfo :=
  match MemStore.Get id (ad_store a) with Err e => Err e | Ok b => Ok (beadToInfo b) end.

Definition GetMetadata (id : string) (a : Adapter) : res (gmap string string) :=
  match MemStore.Get id (ad_store a) with Err e => Err e | Ok b => Ok (bd_Metadata b) end.

Definition SetMetadata (id key value : string) (a : Adapter) : res unit * Adapter :=
  match mutate (fun t => MemStore.SetMetadata t id key value) a with
  | (Err e, a) => (Err e, a)
  | (Ok _, a) =>
      match ad_activeIndex a with
      | None => (Ok tt, a)
      | Some idx =>
          if negb (String.eqb key FieldState) then (Ok tt, a) else
          if indexed_state value then
            match idx !! id with
            | Some _ => (Ok tt, a)
            | None =>
                match MemStore.Get id (ad_store a) with
                | Err e => (Err (Errorf "reading bead %q for active index: %w" [id] [e]), a)
                | Ok b =>
                    (Ok tt, set_index (Some (<[id := mget (bd_Metadata b) FieldTarget]> idx)) a)
                end
            end
          else if String.eqb value StateTerminated || String.eqb value StateCreating
          then (Ok tt, set_index (Some (delete id idx)) a)
          else (Ok tt, a)
      end
  end.

(** if a.activeIndex != nil { delete(a.activeIndex, id) } *)
Definition unindex (id : string) (a : Adapter) : Adapter :=
  set_index (delete id <$> ad_activeIndex a) a.

Definition CloseBead (id reason : string) (a : Adapter) : res unit * Adapter :=
  let a := if String.eqb reason "" then a
           else (mutate (fun t => MemStore.SetMetadata t id "close_reason" reason) a).2 in
  match mutate (fun t => MemStore.Close t id) a with
  | (Err e, a) => (Err e, a)
  | (Ok _, a) => (Ok tt, unindex id a)
  end.

Definition DeleteBead (id : string) (a : Adapter) : res unit * Adapter :=
  match MemStore.Delete id (ad_store a) with
  | (Err e, m) => (Err e, set_store m a)
  | (Ok _, m) => (Ok tt, unindex id (set_store m a))
  end.

Definition Children (parentID : string) (a : Adapter) : res (list BeadInfo) :=
  match MemStore.List (query_parent parentID) (ad_store a) with
  | Err e => Err e
  | Ok children => Ok (beadToInfo <$> children)
  end.

Definition extractParentIDFromKey (key : string) : string :=
  match strip_prefix "converge:" key with
  | None => ""
  | Some rest => default "" (before_first ":iter:" rest)
  end.

(** The first bead of the list with the key. *)
Definition first_with_key (key : string) (l : list Bead) : string * bool :=
  match List.find (fun b => String.eqb (mget (bd_Metadata b) "idempotency_key") key) l with
  | Some b => (bd_ID b, true)
  | None => ("", false)
  end.

Definition findByKeyScan (key : string) (a : Adapter) : res (string * bool) :=
  match MemStore.List (query_metadata {[ "idempotency_key" := key ]}) (ad_store a) with
  | Err e => Err e
  | Ok all => Ok (first_with_key key all)
  end.

Definition FindByIdempotencyKey (key : string) (a : Adapter) : res (string * bool) :=
  let parentID := extractParentIDFromKey key in
  if String.eqb parentID "" then findByKeyScan key a else
  match MemStore.List (query_parent parentID) (ad_store a) with
  | Err e => Err (Errorf "listing children of %s: %w" [parentID] [e])
  | Ok children => Ok (first_with_key key children)
  end.

Definition pourWisp (parentID formula idempotencyKey : string) (vars : gmap string string)
  (evaluatePrompt : string) (deferAssignees : bool) (a : Adapter) : res string * Adapter :=
  match FindByIdempotencyKey idempotencyKey a with
  | Err e => (Err (Errorf "idempotency check for %q: %w" [idempotencyKey] [e]), a)
  | Ok (existing, true) => (Ok existing, a)
  | Ok (_, false) =>
      let cookVars := if String.eqb evaluatePrompt "" then vars
                      else <["evaluate_prompt" := evaluatePrompt]> vars in
      match IsGraphV2Formula formula (ad_formulaSearchPaths a) with
      | Err e =>
          (Err (Errorf "checking formulas v2 contract for convergence wisp %q: %w" [formula] [e]), a)
      | Ok true =>
          (Err (errmsg "convergence wisps do not support v2 formula %q; use a v1 formula until convergence has an explicit input convoy target"
                  [formula]), a)
      | Ok false =>
          mutate (fun t m => Cook t m formula (ad_formulaSearchPaths a) cookVars parentID
                               idempotencyKey deferAssignees) a
      end
  end.

Definition PourWisp (parentID formula key : string) (vars : gmap string string) (prompt : string)
  (a : Adapter) : res string * Adapter := pourWisp parentID formula key vars prompt false a.
Definition PourSpeculativeWisp (parentID formula key : string) (vars : gmap string string)
  (prompt : string) (a : Adapter) : res string * Adapter :=
  pourWisp parentID formula key vars prompt true a.

(** The update one bead's deferred fields ask for. *)
Definition routed (from to : string) (b : Bead) : gmap string string :=
  let r := mget (bd_Metadata b) from in
  if negb (String.eqb r "") && negb (String.eqb (mget (bd_Metadata b) to) r)
  then {[ to := r ]} else ∅.
Definition deferred_update (b : Bead) : UpdateOpts :=
  let assignee := mget (bd_Metadata b) DeferredAssigneeMetadataKey in
  let typ := mget (bd_Metadata b) DeferredTypeMetadataKey in
  mkUpdateOpts None None
    (if negb (String.eqb typ "") && negb (String.eqb (bd_Type b) typ) then Some typ else None)
    None None None
    (if negb (String.eqb assignee "") && negb (String.eqb (bd_Assignee b) assignee)
     then Some assignee else None)
    [] []
    (routed DeferredExecutionRoutedToMetadataKey ExecutionRoutedToMetadataKey b
     ∪ routed DeferredRoutedToMetadataKey RoutedToMetadataKey b).

(** for _, child := range children { if err := rec(child.ID); err != nil { return err } } *)
Fixpoint each_child (rec : string -> Adapter -> option (res unit * Adapter)) (l : list Bead)
  (a : Adapter) : option (res unit * Adapter) :=
  match l with
  | [] => Some (Ok tt, a)
  | child :: l' =>
      match rec (bd_ID child) a with
      | Some (Ok _, a) => each_child rec l' a
      | r => r
      end
  end.

(** activateDeferredAssignees; the recursion follows the parent links of the store, so
    it is given fuel, and None means the fuel did not reach the leaves. *)
Fixpoint activateDeferredAssignees (fuel : nat) (id : string) (a : Adapter)
  : option (res unit * Adapter) :=
  match fuel with
  | O => None
  | S fuel' =>
      match MemStore.Get id (ad_store a) with
      | Err e => Some (Err e, a)
      | Ok b =>
          let update := deferred_update b in
          let '(r, a) :=
            if negb (is_nil (uo_Assignee update)) || negb (is_nil (uo_Type update))
               || negb (empty_map (uo_Metadata update))
            then mutate (fun t => MemStore.Update t id update) a else (Ok tt, a) in
          match r with
          | Err e => Some (Err (Errorf "assigning deferred bead %q: %w" [id] [e]), a)
          | Ok _ =>
              match MemStore.Children id [IncludeClosed] (ad_store a) with
              | Err e => Some (Err (Errorf "listing children for activation %q: %w" [id] [e]), a)
              | Ok children =>
                  each_child (activateDeferredAssignees fuel') children a
              end
          end
      end
  end.

Definition CountActiveConvergenceLoops (targetAgent : string) (a : Adapter) : res Z :=
  match ad_activeIndex a with
  | Some idx =>
      Ok (Z.of_nat (length (List.filter (fun kv => String.eqb kv.2 targetAgent) (map_to_list idx))))
  | None =>
      match MemStore.List (query_type "convergence") (ad_store a) with
      | Err e => Err e
      | Ok all =>
          Ok (Z.of_nat (length (List.filter (fun b =>
                indexed_state (mget (bd_Metadata b) FieldState)
                && String.eqb (mget (bd_Metadata b) FieldTarget) targetAgent) all)))
      end
  end.

Definition CreateConvergenceBead (title : string) (a : Adapter) : res string * Adapter :=
  match mutate (fun t => MemStore.Create t
          (set_Status "in_progress" (set_Type "convergence" (set_Title title Bead0)))) a with
  | (Err e, a) => (Err e, a)
  | (Ok b, a) => (Ok (bd_ID b), a)
  end.

End Parameters.
End convergenceStoreAdapter.
