(* ===== verification/ConvAdapterProps.v ===== *)
(** What the store adapter promises the convergence engine.  Over a well-formed bead
    store it meets the contract of ConvStore for every call except the two lookups that
    list children, which leave closed beads out; the consequences of that gap for the
    iteration limit and for idempotent pours are proved beside it. *)
From S2P Require Import Prelude GoStd ConvMeta ConvKeys ConvStore ConvFrame ConvGate ConvHandler.
From S2P Require Import ConvManual RefStore BeadQuery BeadMem ConvAdapter.
From Stdlib Require Import Ascii.

Module Adapter.
Import beads convergenceStoreAdapter.

Section Adapter.
Variable parse_time : string -> option Z.
Variable IsGraphV2Formula : string -> list string -> res bool.
Variable Cook : Z -> MemStore.MemStore -> string -> list string -> gmap string string -> string ->
  string -> bool -> res string * MemStore.MemStore.

(** The adapter in a running process: the event log, the results of the next gate
    scripts, and the fuel of the activation walk. *)
Record Host : Type := mkHost {
  ho_adapter : Adapter;
  ho_events : list Event;
  ho_scripts : list ScriptRun;
  ho_fuel : nat
}.
Definition with_adapter (h : Host) (a : Adapter) : Host :=
  mkHost a (ho_events h) (ho_scripts h) (ho_fuel h).
Definition out_of_fuel : error := errmsg "activation walk did not end" [].

Definition host_exec R (h : Host) (c : cmd R) : R * Host :=
  let a := ho_adapter h in
  let lift {A} (ra : A * Adapter) : A * Host := (ra.1, with_adapter h ra.2) in
  match c in cmd R return R * Host with
  | ConvStore.GetBead id => (GetBead parse_time id a, h)
  | ConvStore.GetMetadata id => (GetMetadata id a, h)
  | ConvStore.SetMetadata id k v => lift (SetMetadata id k v a)
  | ConvStore.CloseBead id reason => lift (CloseBead id reason a)
  | ConvStore.DeleteBead id => lift (DeleteBead id a)
  | ConvStore.Children p => (Children parse_time p a, h)
  | ConvStore.PourWisp p f k vars prompt =>
      lift (PourWisp IsGraphV2Formula Cook p f k vars prompt a)
  | ConvStore.PourSpeculativeWisp p f k vars prompt =>
      lift (PourSpeculativeWisp IsGraphV2Formula Cook p f k vars prompt a)
  | ConvStore.ActivateWisp id =>
      match activateDeferredAssignees (ho_fuel h) id a with
      | Some ra => lift ra
      | None => (Err out_of_fuel, h)
      end
  | ConvStore.FindByIdempotencyKey key => (FindByIdempotencyKey key a, h)
  | ConvStore.CountActiveConvergenceLoops agent => (CountActiveConvergenceLoops agent a, h)
  | ConvStore.CreateConvergenceBead title => lift (CreateConvergenceBead title a)
  | Emit ev => (tt, mkHost a (ho_events h ++ [ev]) (ho_scripts h) (ho_fuel h))
  | RunScript _ _ _ _ =>
      match ho_scripts h with
      | [] => (failing_script, h)
      | r :: rs => (r, mkHost a (ho_events h) rs (ho_fuel h))
      end
  | WaitOrDone _ => (false, h)
  end.

(** A bead as the engine sees it. *)
Definition bead_view (b : Bead) : ConvStore.Bead :=
  let i := beadToInfo parse_time b in
  ConvStore.mkBead (bi_Status i) (bi_ParentID i) (bi_IdempotencyKey i) (bi_CreatedAt i)
    (bi_ClosedAt i) (bd_Metadata b).
Definition store_view (m : MemStore.MemStore) : gmap string ConvStore.Bead :=
  list_to_map ((fun b => (bd_ID b, bead_view b)) <$> MemStore.ms_beads m).
Definition host_view (h : Host) : World :=
  mkWorld (store_view (ad_store (ho_adapter h))) (ho_events h).

#[local] Instance Host_impl : StoreImpl Host := { exec := host_exec; view := host_view }.

(** * The view of the store *)

Lemma store_view_lookup m id :
  NoDup (bd_ID <$> MemStore.ms_beads m) -> store_view m !! id = bead_view <$> MemStore.find m id.
Proof.
  intros Hn. unfold store_view, MemStore.find, MemStore.indexOfLocked.
  induction (MemStore.ms_beads m) as [|b l IH]; [done|].
  rewrite fmap_cons, NoDup_cons in Hn. destruct Hn as [_ Hn].
  rewrite MemStore.find_cons, fmap_cons, list_to_map_cons.
  destruct (String.eqb_spec (bd_ID b) id) as [<-|Hne]; [by rewrite lookup_insert_eq|].
  rewrite lookup_insert_ne by done. by apply IH.
Qed.

Lemma alter_ids f i (l : list Bead) :
  (forall b, bd_ID (f b) = bd_ID b) -> bd_ID <$> alter f i l = bd_ID <$> l.
Proof.
  intros Hf. revert i. induction l as [|b l IH]; intros i; [done|].
  destruct i as [|i]; cbn; [by rewrite Hf|]. f_equal. apply IH.
Qed.

(** A rewrite of one stored bead is an alteration of the view. *)
Lemma store_view_alter m id i f g :
  NoDup (bd_ID <$> MemStore.ms_beads m) -> MemStore.indexOfLocked m id = Some i ->
  (forall b, bd_ID (f b) = bd_ID b) ->
  (forall b, MemStore.find m id = Some b -> bead_view (f b) = g (bead_view b)) ->
  store_view (MemStore.set_beads (alter f i (MemStore.ms_beads m)) m) = alter g id (store_view m).
Proof.
  intros Hn Hi Hf Hg. apply map_eq. intros id'.
  rewrite store_view_lookup by (simpl; by rewrite alter_ids).
  rewrite (MemStore.find_alter f m id i id') by done.
  destruct (String.eqb_spec id' id) as [->|Hne].
  - rewrite lookup_alter_eq, store_view_lookup by done.
    destruct (MemStore.find m id); simpl; [by rewrite Hg|done].
  - by rewrite lookup_alter_ne, store_view_lookup by done.
Qed.

Lemma put_meta_view t k v b :
  k <> "idempotency_key" -> k <> "closed_at" ->
  bead_view (MemStore.mutated t (MemStore.put_meta k v b)) = with_meta (bead_view b) k v.
Proof.
  intros H1 H2. unfold bead_view, beadToInfo, with_meta. simpl.
  by rewrite !mget_insert_ne by done.
Qed.

Abbreviation unique m := (NoDup (bd_ID <$> MemStore.ms_beads m)).

Lemma view_exists m evs id b :
  unique m -> MemStore.find m id = Some b -> exists_bead (mkWorld (store_view m) evs) id.
Proof. intros Hn Hf. exists (bead_view b). simpl. by rewrite store_view_lookup, Hf by done. Qed.

(** on_bead seen through the view: [f] acts as [g], or the bead is missing. *)
Lemma on_bead_view ctx id f g m :
  unique m -> (forall b, bd_ID (f b) = bd_ID b) ->
  (forall b, MemStore.find m id = Some b -> bead_view (f b) = g (bead_view b)) ->
  match MemStore.on_bead ctx id f m with
  | (Ok _, m') => is_Some (MemStore.find m id) /\ unique m'
                  /\ store_view m' = alter g id (store_view m)
  | (Err _, m') => MemStore.find m id = None /\ m' = m
  end.
Proof.
  intros Hn Hf Hg. unfold MemStore.on_bead. destruct (MemStore.indexOfLocked m id) as [i|] eqn:Hi.
  - split; [by eapply MemStore.index_find|]. split; [simpl; by rewrite alter_ids|].
    by apply store_view_alter.
  - split; [|done]. unfold MemStore.find. by rewrite Hi.
Qed.

Lemma mem_SetMetadata_view t id k v m :
  unique m -> k <> "idempotency_key" -> k <> "closed_at" ->
  match MemStore.SetMetadata t id k v m with
  | (Ok _, m') => is_Some (MemStore.find m id) /\ unique m'
                  /\ store_view m' = alter (fun b => with_meta b k v) id (store_view m)
  | (Err _, m') => MemStore.find m id = None /\ m' = m
  end.
Proof. intros Hn H1 H2. apply on_bead_view; auto. intros b _. by apply put_meta_view. Qed.

Lemma mem_Close_view t id m :
  unique m ->
  match MemStore.Close t id m with
  | (Ok _, m') => is_Some (MemStore.find m id) /\ unique m'
      /\ exists u, store_view m' = alter (fun b => with_closed b u) id (store_view m)
  | (Err _, m') => MemStore.find m id = None /\ m' = m
  end.
Proof.
  intros Hn. pose (u := match MemStore.find m id with
                        | Some b => b_closed (bead_view (MemStore.closed_bead t b)) | None => 0 end).
  assert (Hg : forall b, MemStore.find m id = Some b ->
            bead_view (MemStore.closed_bead t b) = with_closed (bead_view b) u).
  { intros b Hb. unfold u. rewrite Hb. unfold MemStore.closed_bead.
    destruct (String.eqb_spec (bd_Status b) "closed") as [E|]; [|done].
    unfold bead_view, with_closed. simpl. by rewrite E. }
  pose proof (on_bead_view "closing bead %q: %w" id (MemStore.closed_bead t)
                (fun b => with_closed b u) m Hn) as H.
  unfold MemStore.Close. destruct (MemStore.on_bead _ _ _ _) as [[x|e] m'].
  all: destruct H as (H1 & H2); [intros b; unfold MemStore.closed_bead; by destruct (String.eqb _ _)|done|].
  - destruct H2 as [H2 H3]. split; [done|]. split; [done|]. by exists u.
  - done.
Qed.

Lemma mem_Delete_view id m :
  unique m ->
  match MemStore.Delete id m with
  | (Ok _, m') => is_Some (MemStore.find m id) /\ store_view m' = delete id (store_view m)
  | (Err _, m') => MemStore.find m id = None /\ m' = m
  end.
Proof.
  intros Hn. unfold MemStore.Delete. destruct (MemStore.indexOfLocked m id) as [i|] eqn:Hi.
  - split; [by eapply MemStore.index_find|]. apply map_eq. intros id'.
    assert (unique (MemStore.set_beads (MemStore.remove_at i (MemStore.ms_beads m)) m)).
    { eapply sublist_NoDup; [exact Hn|]. apply (fmap_sublist bd_ID), MemStore.remove_at_sublist. }
    rewrite store_view_lookup by done. unfold MemStore.find, MemStore.indexOfLocked in *. simpl.
    rewrite (MemStore.find_remove _ id) by done.
    destruct (String.eqb_spec id' id) as [->|Hne]; [by rewrite lookup_delete_eq|].
    by rewrite lookup_delete_ne, store_view_lookup by done.
  - split; [|done]. unfold MemStore.find. by rewrite Hi.
Qed.

Lemma mem_Create_view t b m :
  MemStore.wf m -> MemStore.ms_seq m < max_int64 ->
  let id := bd_ID (MemStore.minted t m b) in
  store_view m !! id = None /\ id <> ""
  /\ store_view (MemStore.Create t b m).2 = <[id := bead_view (MemStore.minted t m b)]> (store_view m).
Proof.
  intros Hw Hs. pose proof Hw as (H0 & Hn & Hall). intros id.
  assert (Hfresh : id ∉ bd_ID <$> MemStore.ms_beads m).
  { intros (c & Hc & Hin)%list_elem_of_fmap. rewrite Forall_forall in Hall. apply Hall in Hin.
    rewrite <- Hc in Hin. by apply (MemStore.mint_fresh m); [lia|]. }
  split; [|split].
  - rewrite store_view_lookup by done. apply MemStore.find_none in Hfresh.
    unfold MemStore.find, MemStore.indexOfLocked. by rewrite Hfresh.
  - unfold id. simpl. intros E. apply (f_equal String.length) in E.
    rewrite !string_length_app in E. simpl in E. lia.
  - unfold store_view. cbn [MemStore.Create snd MemStore.ms_beads]. rewrite fmap_app.
    apply (list_to_map_snoc (M := gmap string)). rewrite <- list_fmap_compose. exact Hfresh.
Qed.

(** * Activation *)

(** What the activation walk may do to a bead: ownership fields and routing keys. *)
Definition tended (b b' : Bead) : Prop :=
  bd_ID b' = bd_ID b /\ bd_ParentID b' = bd_ParentID b
  /\ bead_rely (bead_view b) (bead_view b').

Lemma tended_refl b : tended b b.
Proof. split; [done|]. split; [done|]. apply bead_rely_refl. Qed.

Lemma tended_trans b1 b2 b3 : tended b1 b2 -> tended b2 b3 -> tended b1 b3.
Proof.
  intros (I1 & P1 & R1) (I2 & P2 & R2). split; [congruence|]. split; [congruence|].
  by eapply bead_rely_trans.
Qed.

Lemma routed_lookup from to b k : k <> to -> routed from to b !! k = None.
Proof.
  intros Hk. unfold routed. destruct (_ && _); [|apply lookup_empty].
  by apply lookup_singleton_ne.
Qed.

Lemma deferred_metadata b c k :
  k <> RoutedToMetadataKey -> k <> ExecutionRoutedToMetadataKey ->
  (uo_Metadata (deferred_update c) ∪ bd_Metadata b) !! k = bd_Metadata b !! k.
Proof.
  intros H1 H2. rewrite lookup_union_r; [done|]. simpl.
  apply lookup_union_None. by rewrite !routed_lookup.
Qed.

Lemma deferred_tended t b c : tended b (MemStore.apply_update t (deferred_update c) b).
Proof.
  assert (Hm : bd_Metadata (MemStore.apply_update t (deferred_update c) b)
               = uo_Metadata (deferred_update c) ∪ bd_Metadata b).
  { unfold MemStore.apply_update. destruct (MemStore.isOwnershipTransition _ _ _);
      simpl; by repeat destruct (_ && _). }
  assert (Hp : bd_ParentID (MemStore.apply_update t (deferred_update c) b) = bd_ParentID b).
  { unfold MemStore.apply_update. destruct (MemStore.isOwnershipTransition _ _ _);
      simpl; by repeat destruct (_ && _). }
  destruct (MemStore.apply_update_fields t (deferred_update c) b) as (Hi & _ & _ & Hs & _).
  unfold tended, bead_rely, bead_view. simpl. rewrite Hs, Hp. unfold mget. rewrite Hm.
  rewrite deferred_metadata by done. split; [done|]. split; [done|]. split; [done|].
  split; [done|]. split; [done|]. intros k Hk. apply deferred_metadata; intros ->;
    by vm_compute in Hk.
Qed.

Abbreviation kept := (Forall2 tended).
Lemma kept_refl l : kept l l.
Proof. induction l; constructor; auto using tended_refl. Qed.
Lemma kept_trans l1 l2 l3 : kept l1 l2 -> kept l2 l3 -> kept l1 l3.
Proof.
  intros H1. revert l3. induction H1 as [|b1 b2 l1 l2 Hb _ IH]; intros l3 H2; [done|].
  apply Forall2_cons_inv_l in H2 as (b3 & l3' & Hb' & H2 & ->).
  constructor; [by eapply tended_trans|by apply IH].
Qed.
Lemma kept_alter f i l : (forall b, tended b (f b)) -> kept l (alter f i l).
Proof.
  intros Hf. revert i. induction l as [|b l IH]; intros i; [constructor|].
  destruct i as [|i]; constructor; auto using kept_refl, tended_refl.
Qed.

Abbreviation kept_store a a' :=
  (kept (MemStore.ms_beads (ad_store a)) (MemStore.ms_beads (ad_store a'))).

Lemma Update_kept t id c m :
  kept (MemStore.ms_beads m) (MemStore.ms_beads (MemStore.Update t id (deferred_update c) m).2).
Proof.
  unfold MemStore.Update. destruct (MemStore.indexOfLocked m id); [|apply kept_refl].
  apply kept_alter. intros b. apply deferred_tended.
Qed.

Lemma each_child_kept rec l a r a' :
  (forall id a r a', rec id a = Some (r, a') -> kept_store a a') ->
  each_child rec l a = Some (r, a') -> kept_store a a'.
Proof.
  intros Hrec. revert a. induction l as [|c l IH]; intros a; simpl.
  { intros [= _ <-]. apply kept_refl. }
  destruct (rec (bd_ID c) a) as [[[x|e] a1]|] eqn:E; [| |done].
  - intros H. eapply kept_trans; [by eapply Hrec|by apply IH].
  - intros [= _ <-]. by eapply Hrec.
Qed.

(** The update step of one visit. *)
Lemma visit_kept b id a :
  let u := deferred_update b in
  kept_store a (if negb (is_nil (uo_Assignee u)) || negb (is_nil (uo_Type u))
                   || negb (empty_map (uo_Metadata u))
                then mutate (fun t => MemStore.Update t id u) a else (Ok tt, a)).2.
Proof.
  intros u. destruct (_ || _); [|apply kept_refl]. unfold mutate.
  pose proof (Update_kept (now a) id b (ad_store a)) as H. fold u in H.
  by destruct (MemStore.Update (now a) id u (ad_store a)).
Qed.

Lemma activate_kept fuel id a r a' :
  activateDeferredAssignees fuel id a = Some (r, a') -> kept_store a a'.
Proof.
  revert id a r a'. induction fuel as [|fuel IH]; intros id a r a'; simpl; [done|].
  destruct (MemStore.Get id (ad_store a)) as [b|e]; [|intros [= _ <-]; apply kept_refl].
  pose proof (visit_kept b id a) as Hv. cbv zeta in Hv. simpl in Hv.
  match goal with |- context [if ?c then mutate ?f a else _] =>
    destruct (if c then mutate f a else (Ok tt, a)) as [[x|e] a1] end;
    simpl in Hv; [|by intros [= _ <-]].
  destruct (MemStore.Children _ _ _) as [l|e]; [|by intros [= _ <-]].
  intros H. eapply kept_trans; [exact Hv|]. eapply each_child_kept; [|exact H]. apply IH.
Qed.

Lemma kept_ids l l' : kept l l' -> bd_ID <$> l' = bd_ID <$> l.
Proof. induction 1 as [|b b' l l' (E & _) _ IH]; [done|]. rewrite !fmap_cons. congruence. Qed.

Lemma kept_rely m m' evs :
  unique m -> kept (MemStore.ms_beads m) (MemStore.ms_beads m') ->
  rely (mkWorld (store_view m) evs) (mkWorld (store_view m') evs).
Proof.
  intros Hn Hk. split; [done|]. intros id v. simpl. rewrite !store_view_lookup;
    [|by rewrite (kept_ids _ _ Hk)|done].
  unfold MemStore.find, MemStore.indexOfLocked. clear Hn.
  induction Hk as [|b b' l l' Hb _ IH]; [done|]. rewrite !MemStore.find_cons.
  destruct Hb as (E & _ & Hb). rewrite E. destruct (String.eqb _ _); [|exact IH].
  intros [= <-]. exists (bead_view b'). done.
Qed.

(** * Listing *)

Lemma List_elem q m l b :
  MemStore.List q m = Ok l -> b ∈ l -> b ∈ MemStore.ms_beads m /\ Matches q b = true.
Proof.
  unfold MemStore.List. destruct (_ && _); [done|]. intros [= <-] Hb.
  assert (Hb' : b ∈ sortBeadsForQuery (List.filter (Matches q) (MemStore.ms_beads m)) (lq_Sort q)).
  { unfold limited in Hb. destruct (_ && _); [|done]. by eapply elem_of_take in Hb as (? & ? & _);
      eapply list_elem_of_lookup_2. }
  assert (Hb'' : b ∈ List.filter (Matches q) (MemStore.ms_beads m)).
  { unfold sortBeadsForQuery in Hb'. destruct (lq_Sort q); [done| |];
      by rewrite sort_Slice_perm in Hb'. }
  by apply list_elem_of_In, List.filter_In in Hb'' as [Hin%list_elem_of_In ?].
Qed.

(** An unlimited listing holds every matching bead. *)
Lemma List_perm q m l :
  lq_Limit q = 0 -> MemStore.List q m = Ok l ->
  l ≡ₚ List.filter (Matches q) (MemStore.ms_beads m).
Proof.
  intros Hl. unfold MemStore.List. rewrite Hl. destruct (_ && _); [done|]. intros [= <-].
  change (limited 0 ?x) with x. unfold sortBeadsForQuery.
  destruct (lq_Sort q); [done| |]; apply sort_Slice_perm.
Qed.

Lemma Matches_parent p b :
  p <> "" -> Matches (query_parent p) b
  = negb (bd_Ephemeral b) && negb (String.eqb (bd_Status b) "closed") && String.eqb (bd_ParentID b) p.
Proof.
  intros Hp. unfold Matches, matchesTier. simpl.
  destruct (bd_Ephemeral b); [done|]. simpl. destruct (String.eqb _ "closed"); [done|].
  simpl. destruct (String.eqb_spec p ""); [done|]. simpl. by destruct (String.eqb _ p).
Qed.

Lemma Children_elem id opts m l b :
  MemStore.Children id opts m = Ok l -> b ∈ l -> b ∈ MemStore.ms_beads m /\ bd_ParentID b = id.
Proof.
  unfold MemStore.Children. intros Hl Hb.
  destruct (String.eqb_spec id "") as [->|Hne]; [by vm_compute in Hl|].
  destruct (List_elem _ _ _ _ Hl Hb) as [Hin Hm]. split; [done|].
  unfold Matches in Hm. simpl in Hm. destruct (matchesTier _ _); [|done]. simpl in Hm.
  destruct (_ && _); [done|]. destruct (String.eqb_spec id ""); [done|]. simpl in Hm.
  by destruct (String.eqb_spec (bd_ParentID b) id).
Qed.

(** The activation walk ends: when parent links descend a ranking of the beads
    (no parent cycles), fuel above the rank of the wisp is enough, so ActivateWisp
    returns a result; its recursion is as deep as the tree below the wisp. *)
Theorem activation_terminates (rank : string -> nat) id a :
  Forall (fun b => (rank (bd_ID b) < rank (bd_ParentID b))%nat) (MemStore.ms_beads (ad_store a)) ->
  is_Some (activateDeferredAssignees (S (rank id)) id a).
Proof.
  intros Hr. enough (H : forall fuel id a,
    Forall (fun b => (rank (bd_ID b) < rank (bd_ParentID b))%nat) (MemStore.ms_beads (ad_store a)) ->
    (rank id < fuel)%nat -> is_Some (activateDeferredAssignees fuel id a)) by (apply H; [done|lia]).
  clear Hr id a. induction fuel as [|fuel IH]; intros id a Hr Hlt; [lia|]. simpl.
  destruct (MemStore.Get id (ad_store a)) as [b|e]; [|by eexists].
  pose proof (visit_kept b id a) as Hv. cbv zeta in Hv. simpl in Hv.
  match goal with |- context [if ?c then mutate ?f a else _] =>
    destruct (if c then mutate f a else (Ok tt, a)) as [[x|e] a1] end; simpl in Hv; [|by eexists].
  assert (Hkeep : forall l l', kept l l' ->
    Forall (fun b => (rank (bd_ID b) < rank (bd_ParentID b))%nat) l ->
    Forall (fun b => (rank (bd_ID b) < rank (bd_ParentID b))%nat) l').
  { induction 1 as [|c c' l l' (E & P & _) _ IHk]; [done|].
    rewrite !Forall_cons. intros [Hb Hl]. rewrite E, P. auto. }
  apply (Hkeep _ _ Hv) in Hr. destruct (MemStore.Children _ _ _) as [l|e] eqn:El; [|by eexists].
  assert (Hl : Forall (fun b => (rank (bd_ID b) < fuel)%nat) l).
  { apply Forall_forall. intros c Hc. destruct (Children_elem _ _ _ _ _ El Hc) as [Hin <-].
    rewrite Forall_forall in Hr. apply Hr in Hin. lia. }
  clear El Hv. revert a1 Hr. induction Hl as [|c l Hc _ IHl]; intros a1 Hr; simpl; [by eexists|].
  destruct (IH (bd_ID c) a1 Hr Hc) as [[[y|e] a2] E]; rewrite E; [|by eexists].
  apply IHl. eapply Hkeep; [|exact Hr]. by eapply activate_kept.
Qed.

(** * The contract, call by call *)

(** Every bead with the property is listed by default: open and in the issues tier. *)
Definition listed (P : Bead -> Prop) (m : MemStore.MemStore) : Prop :=
  Forall (fun b => P b -> bd_Ephemeral b = false /\ bd_Status b <> "closed") (MemStore.ms_beads m).

(** The calls the adapter answers as the contract says: a metadata key the view does not
    read off, the children of a parent none of which is closed, a key whose bead is
    open.  Pours are left to the cooking parameter. *)
Definition covered (m : MemStore.MemStore) {R} (c : cmd R) : Prop :=
  match c with
  | ConvStore.SetMetadata _ k _ => k <> "idempotency_key" /\ k <> "closed_at"
  | ConvStore.Children p => p <> "" /\ listed (fun b => bd_ParentID b = p) m
  | ConvStore.FindByIdempotencyKey key =>
      extractParentIDFromKey key <> ""
      /\ listed (fun b => mget (bd_Metadata b) "idempotency_key" = key) m
      /\ Forall (fun b => mget (bd_Metadata b) "idempotency_key" = key ->
                          bd_ParentID b = extractParentIDFromKey key) (MemStore.ms_beads m)
  | ConvStore.PourWisp _ _ _ _ _ | ConvStore.PourSpeculativeWisp _ _ _ _ _ => False
  | _ => True
  end.

Lemma children_perm m evs p :
  unique m -> p <> "" -> listed (fun b => bd_ParentID b = p) m ->
  beadToInfo parse_time <$> List.filter (Matches (query_parent p)) (MemStore.ms_beads m)
  ≡ₚ children_of (mkWorld (store_view m) evs) p.
Proof.
  intros Hn Hp Hl. unfold children_of. simpl. unfold store_view.
  rewrite (map_to_list_to_map (M := gmap string)) by (rewrite <- list_fmap_compose; exact Hn).
  clear Hn. unfold listed in Hl. induction Hl as [|b l Hb _ IH]; [done|].
  cbn [List.filter fmap list_fmap]. rewrite Matches_parent by done.
  destruct (String.eqb_spec (bd_ParentID b) p) as [E|E]; simpl.
  - destruct (Hb E) as [-> Hs]. apply String.eqb_neq in Hs. rewrite Hs. simpl.
    rewrite E, String.eqb_refl. apply Permutation_cons; [|exact IH]. done.
  - rewrite andb_false_r. apply String.eqb_neq in E. rewrite E. exact IH.
Qed.

Lemma first_with_key_spec key l :
  match first_with_key key l with
  | (id, true) => exists b, b ∈ l /\ bd_ID b = id /\ mget (bd_Metadata b) "idempotency_key" = key
  | (_, false) => Forall (fun b => mget (bd_Metadata b) "idempotency_key" <> key) l
  end.
Proof.
  unfold first_with_key. destruct (List.find _ l) as [b|] eqn:E.
  - apply List.find_some in E as [Hin E%String.eqb_eq]. exists b. by rewrite list_elem_of_In.
  - apply Forall_forall. intros b Hb%list_elem_of_In. apply String.eqb_neq.
    by apply (List.find_none _ _ E).
Qed.

(** SetMetadata of the adapter is SetMetadata of the store: the index never fails it. *)
Lemma adapter_SetMetadata id k v a :
  let '(r, m) := MemStore.SetMetadata (now a) id k v (ad_store a) in
  ad_store (SetMetadata id k v a).2 = m
  /\ match r with
     | Ok _ => (SetMetadata id k v a).1 = Ok tt
     | Err e => (SetMetadata id k v a).1 = Err e
     end.
Proof.
  unfold SetMetadata, mutate.
  destruct (MemStore.SetMetadata (now a) id k v (ad_store a)) as [[x|e] m] eqn:E; [|done].
  assert (Hg : exists b, MemStore.Get id m = Ok b).
  { unfold MemStore.SetMetadata, MemStore.on_bead in E.
    destruct (MemStore.indexOfLocked (ad_store a) id) as [i|] eqn:Hi; [|done]. injection E as <- <-.
    destruct (MemStore.index_find _ _ _ Hi) as [b Hb]. eexists. apply MemStore.Get_find.
    rewrite (MemStore.find_alter _ _ id) by done. by rewrite String.eqb_refl, Hb. }
  destruct Hg as [b Hg]. simpl. destruct (ad_activeIndex a); [|done].
  destruct (negb _); [done|]. destruct (indexed_state v).
  - destruct (_ !! id); [done|]. simpl. by rewrite Hg.
  - by destruct (_ || _).
Qed.

Lemma view_get h id b :
  unique (ad_store (ho_adapter h)) -> MemStore.find (ad_store (ho_adapter h)) id = Some b ->
  w_beads (host_view h) !! id = Some (bead_view b).
Proof. intros Hn Hf. simpl. by rewrite store_view_lookup, Hf by done. Qed.

Lemma SetMetadata_sound h id k v :
  unique (ad_store (ho_adapter h)) -> k <> "idempotency_key" -> k <> "closed_at" ->
  let ra := SetMetadata id k v (ho_adapter h) in
  store_step (host_view h) (ConvStore.SetMetadata id k v) ra.1 (host_view (with_adapter h ra.2))
  /\ unique (ad_store ra.2).
Proof.
  intros Hn H1 H2. pose proof (adapter_SetMetadata id k v (ho_adapter h)) as Ha.
  pose proof (mem_SetMetadata_view (now (ho_adapter h)) id k v _ Hn H1 H2) as Hm.
  destruct (MemStore.SetMetadata _ _ _ _ _) as [[x|e] m']; destruct Ha as [Hst Hr];
    cbv zeta; rewrite Hr; simpl; unfold host_view; simpl; rewrite Hst.
  - destruct Hm as ([b Hb] & Hn' & Hv). split; [|done].
    split; [by eapply view_exists|]. by rewrite Hv.
  - destruct Hm as [_ ->]. split; [by left|done].
Qed.

Lemma CloseBead_sound h id reason :
  unique (ad_store (ho_adapter h)) ->
  let ra := CloseBead id reason (ho_adapter h) in
  store_step (host_view h) (ConvStore.CloseBead id reason) ra.1 (host_view (with_adapter h ra.2)).
Proof.
  intros Hn. cbv zeta. unfold CloseBead.
  set (a1 := if String.eqb reason "" then ho_adapter h else _).
  assert (H1 : unique (ad_store a1)
    /\ (is_Some (MemStore.find (ad_store a1) id) <-> is_Some (MemStore.find (ad_store (ho_adapter h)) id))
    /\ (MemStore.find (ad_store (ho_adapter h)) id = None -> ad_store a1 = ad_store (ho_adapter h))
    /\ (is_Some (MemStore.find (ad_store (ho_adapter h)) id) ->
        mkWorld (store_view (ad_store a1)) (ho_events h) = stamp_reason (host_view h) id reason)).
  { unfold a1, stamp_reason. destruct (String.eqb reason ""); [done|]. unfold mutate.
    pose proof (mem_SetMetadata_view (now (ho_adapter h)) id "close_reason" reason _ Hn) as Hm.
    destruct (MemStore.SetMetadata _ _ _ _ _) as [[x|e] m']; simpl in *.
    - destruct Hm as (Hs & Hn' & Hv); [done|done|]. split; [done|]. split.
      + pose proof (store_view_lookup m' id Hn') as L. rewrite Hv, lookup_alter_eq in L.
        rewrite store_view_lookup in L by done. rewrite <- (fmap_is_Some bead_view), <- L.
        by rewrite !fmap_is_Some.
      + split; [intros Hnone; rewrite Hnone in Hs; by destruct Hs|].
        intros _. rewrite Hv. done.
    - destruct Hm as (Hs & ->); [done|done|]. split; [done|]. split; [done|]. split; [done|].
      intros Hs'. rewrite Hs in Hs'. by destruct Hs'. }
  clearbody a1. destruct H1 as (Hn1 & Hf1 & Hnone & Hst). unfold mutate.
  pose proof (mem_Close_view (now a1) id _ Hn1) as Hc.
  destruct (MemStore.Close _ _ _) as [[x|e] m']; simpl.
  - destruct Hc as (Hs & _ & u & Hv). apply Hf1 in Hs. pose proof Hs as [b Hb].
    split; [by eapply view_exists|]. exists u. rewrite <- (Hst Hs).
    unfold host_view. simpl. by rewrite Hv.
  - destruct Hc as (Hs & ->). left. unfold host_view. simpl. rewrite Hnone; [done|].
    destruct (MemStore.find (ad_store (ho_adapter h)) id) as [b|]; [|done].
    destruct Hf1 as [_ Hf1]. rewrite Hs in Hf1. by destruct (Hf1 ltac:(by eexists)).
Qed.

Lemma DeleteBead_sound h id :
  unique (ad_store (ho_adapter h)) ->
  let ra := DeleteBead id (ho_adapter h) in
  store_step (host_view h) (ConvStore.DeleteBead id) ra.1 (host_view (with_adapter h ra.2)).
Proof.
  intros Hn. cbv zeta. unfold DeleteBead. pose proof (mem_Delete_view id _ Hn) as Hd.
  destruct (MemStore.Delete _ _) as [[x|e] m']; simpl.
  - destruct Hd as ([b Hb] & Hv). split; [by eapply view_exists|]. unfold host_view. simpl.
    by rewrite Hv.
  - destruct Hd as [_ ->]. by left.
Qed.

Lemma Children_sound h p :
  MemStore.wf (ad_store (ho_adapter h)) -> covered (ad_store (ho_adapter h)) (ConvStore.Children p) ->
  store_step (host_view h) (ConvStore.Children p) (Children parse_time p (ho_adapter h)) (host_view h).
Proof.
  intros (_ & Hn & Hall) [Hp Hl]. split; [done|]. unfold Children.
  destruct (MemStore.List _ _) as [l|e] eqn:E; [|done]. apply List_perm in E; [|done]. split.
  - rewrite E. by apply children_perm.
  - rewrite Forall_fmap, E. apply Forall_forall. intros b Hb%list_elem_of_In. simpl.
    apply List.filter_In in Hb as [Hb%list_elem_of_In _]. rewrite Forall_forall in Hall.
    apply Hall in Hb as (k & _ & ->). intros E'. apply (f_equal String.length) in E'.
    rewrite !string_length_app in E'. simpl in E'. lia.
Qed.

Lemma FindByIdempotencyKey_sound h key :
  unique (ad_store (ho_adapter h)) ->
  covered (ad_store (ho_adapter h)) (ConvStore.FindByIdempotencyKey key) ->
  store_step (host_view h) (ConvStore.FindByIdempotencyKey key)
    (FindByIdempotencyKey key (ho_adapter h)) (host_view h).
Proof.
  intros Hn (Hp & Hl & Hpar). split; [done|]. unfold FindByIdempotencyKey.
  destruct (String.eqb_spec (extractParentIDFromKey key) ""); [done|].
  destruct (MemStore.List _ _) as [l|e] eqn:E; [|done].
  pose proof (first_with_key_spec key l) as Hf. destruct (first_with_key key l) as [id [|]].
  - destruct Hf as (b & Hb & <- & Hk). apply (List_elem _ _ _ _ E) in Hb as [Hb _].
    exists (bead_view b). split; [|done]. apply view_get; [done|]. by apply MemStore.find_unique.
  - apply List_perm in E; [|done]. intros id' v Hv. simpl in Hv. rewrite store_view_lookup in Hv by done.
    apply fmap_Some in Hv as (b & Hb & ->). simpl. intros Hk.
    apply MemStore.find_elem in Hb as [Hb _]. unfold listed in Hl.
    rewrite Forall_forall in Hl, Hpar, Hf. destruct (Hl b Hb Hk) as [He Hs].
    apply (Hf b); [|done]. rewrite E. apply list_elem_of_In, List.filter_In.
    split; [by apply list_elem_of_In|]. rewrite Matches_parent, He by done. simpl.
    apply String.eqb_neq in Hs. rewrite Hs. simpl. apply String.eqb_eq. by apply Hpar.
Qed.

Lemma ActivateWisp_sound h id :
  unique (ad_store (ho_adapter h)) ->
  store_step (host_view h) (ConvStore.ActivateWisp id)
    (host_exec _ h (ConvStore.ActivateWisp id)).1 (host_view (host_exec _ h (ConvStore.ActivateWisp id)).2).
Proof.
  intros Hn. simpl. destruct (activateDeferredAssignees _ id (ho_adapter h)) as [[r a']|] eqn:E;
    simpl; [|split; [apply rely_refl|done]].
  split; [apply kept_rely; [done|]; by eapply activate_kept|].
  destruct r as [x|e]; [|done]. destruct (ho_fuel h); [done|]. simpl in E.
  destruct (MemStore.Get id (ad_store (ho_adapter h))) as [b|] eqn:Hb; [|done].
  apply MemStore.Get_find in Hb. by eapply view_exists.
Qed.

(** (C38) The adapter implements the engine's Store contract over the in-memory bead
    store: for every call other than a pour, and for the two child lookups whenever the
    beads asked for are open, its answer and its effect on the store are the ones the
    contract allows.  The closed beads a child lookup leaves out are the exception the
    covered condition names. *)
Theorem adapter_meets_contract R (c : cmd R) h :
  MemStore.wf (ad_store (ho_adapter h)) -> MemStore.ms_seq (ad_store (ho_adapter h)) < max_int64 ->
  covered (ad_store (ho_adapter h)) c ->
  store_step (host_view h) c (host_exec R h c).1 (host_view (host_exec R h c).2).
Proof.
  intros Hw Hs Hc. pose proof Hw as (_ & Hn & _). destruct c; try done.
  - split; [done|]. simpl. unfold GetBead. destruct (MemStore.Get _ _) as [b|e] eqn:E.
    + apply MemStore.Get_find in E. exists (bead_view b). split; [by apply view_get|].
      apply MemStore.find_elem in E as [_ <-]. done.
    + intros _. apply MemStore.Get_not_found in E. by rewrite store_view_lookup, E by done.
  - split; [done|]. simpl. unfold GetMetadata. destruct (MemStore.Get _ _) as [b|e] eqn:E.
    + apply MemStore.Get_find in E. exists (bead_view b). split; [by apply view_get|done].
    + intros _. apply MemStore.Get_not_found in E. by rewrite store_view_lookup, E by done.
  - destruct Hc. by apply SetMetadata_sound.
  - by apply CloseBead_sound.
  - by apply DeleteBead_sound.
  - by apply Children_sound.
  - by apply ActivateWisp_sound.
  - by apply FindByIdempotencyKey_sound.
  - split; [done|]. simpl. unfold CountActiveConvergenceLoops.
    destruct (ad_activeIndex _); [lia|]. destruct (MemStore.List _ _); [lia|done].
  - simpl. unfold CreateConvergenceBead, mutate.
    set (nb := set_Status "in_progress" (set_Type "convergence" (set_Title title Bead0))).
    destruct (mem_Create_view (now (ho_adapter h)) nb _ Hw Hs) as (Hfree & Hne & Hv).
    exists (bead_view (MemStore.minted (now (ho_adapter h)) (ad_store (ho_adapter h)) nb)).
    split_and!; try done; [by constructor|].
    apply (f_equal (fun v => mkWorld v (ho_events h))) in Hv. exact Hv.
  - simpl. by destruct (ho_scripts h).
Qed.

(** * Closed iterations are invisible *)

Lemma Matches_parent_open p b : Matches (query_parent p) b = true -> bd_Status b <> "closed".
Proof.
  unfold Matches. simpl. destruct (matchesTier _ _); [|done]. simpl.
  by destruct (String.eqb_spec (bd_Status b) "closed").
Qed.

Lemma Children_open p a l :
  Children parse_time p a = Ok l -> Forall (fun i => bi_Status i <> "closed") l.
Proof.
  unfold Children. destruct (MemStore.List _ _) as [bs|e] eqn:E; [|done]. intros [= <-].
  rewrite Forall_fmap. apply Forall_forall. intros b Hb. simpl.
  destruct (List_elem _ _ _ _ E Hb) as [_ Hm]. by eapply Matches_parent_open.
Qed.

Lemma childStats_open l b :
  Forall (fun i => bi_Status i <> "closed") l -> cs_ClosedCount (childStats l b) = 0.
Proof.
  intros Hl. rewrite childStats_closed.
  induction Hl as [|i l Hi _ IH]; [done|]. simpl. unfold closed_wisp at 1.
  apply String.eqb_neq in Hi. rewrite Hi, andb_false_r. exact IH.
Qed.

End Adapter.

(** * A loop at its limit *)

(** Cooking reduced to the root bead of the wisp. *)
Definition cook0 (t : Z) (m : MemStore.MemStore) (formula : string) (paths : list string)
  (vars : gmap string string) (parent key : string) (defer : bool)
  : res string * MemStore.MemStore :=
  let b := mkBead "" formula "" "molecule" None 0 0 "" "" parent "" [] "" []
             {[ "idempotency_key" := key ]} [] false false None None 0 0 in
  (Ok (bd_ID (MemStore.minted t m b)), (MemStore.Create t b m).2).

(** A loop with max_iterations 1 whose only iteration closed and is held for an
    operator, as the engine left it. *)
Definition at_limit : MemStore.MemStore :=
  MemStore.mkMemStore
    [mkBead "gc-1" "loop" "open" "convergence" None 1 1 "" "" "" "" [] "" []
       {[ FieldState := StateWaitingManual; FieldIteration := "1"; FieldMaxIterations := "1";
          FieldFormula := "review"; FieldTarget := "agent-a"; FieldGateMode := GateModeManual;
          FieldLastProcessedWisp := "gc-2"; FieldWaitingReason := WaitManual ]}
       [] false false None None 9 0;
     mkBead "gc-2" "wisp" "closed" "molecule" None 2 5 "" "" "gc-1" "" [] "" []
       {[ "idempotency_key" := "converge:gc-1:iter:1" ]} [] false false None None 3 0]
    [] 2 false "" ∅.
Definition host0 : Host :=
  mkHost (newConvergenceStoreAdapter at_limit [] [10; 11; 12; 13; 14; 15; 16; 17; 18; 19; 20])
    [] [] 3.
Definition no_time : string -> option Z := fun _ => None.
Definition v1_only : string -> list string -> res bool := fun _ _ => Ok false.

#[local] Instance Host0_impl : StoreImpl Host := Host_impl no_time v1_only cook0.

(** Closed iterations are invisible through the adapter: Children lists open beads
    only, so the closed-wisp count the engine derives its iteration number from is
    always 0.  A loop with max_iterations 1 whose only iteration is closed is iterated
    again instead of being refused, and the new wisp carries the idempotency key of the
    closed one. *)
Theorem closed_iterations_invisible :
  (forall parse_time root a,
     match Children parse_time root a with
     | Ok l => Forall (fun i => bi_Status i <> "closed") l
               /\ cs_ClosedCount (childStats l root) = 0
     | Err _ => True
     end)
  /\ exists x h, run (IterateHandler handler0 "gc-1" "op") host0 = (Ok x, h)
     /\ hr_Action x = ActionIterate /\ hr_NextWispID x = "gc-3"
     /\ (fun b => mget (bd_Metadata b) "idempotency_key")
          <$> MemStore.ms_beads (ad_store (ho_adapter h))
        = [""; IdempotencyKey "gc-1" 1; IdempotencyKey "gc-1" 1].
Proof.
  split.
  - intros parse_time root a. destruct (Children parse_time root a) as [l|e] eqn:E; [|done].
    apply Children_open in E. split; [done|]. by apply childStats_open.
  - do 2 eexists. split; [vm_compute; reflexivity|]. done.
Qed.

(** * Idempotent pours *)

Lemma before_first_unfold m s :
  before_first m s = match strip_prefix m s with
                     | Some _ => Some ""
                     | None => match s with
                               | EmptyString => None
                               | String c s' => String c <$> before_first m s'
                               end
                     end.
Proof. by destruct s. Qed.

Lemma before_first_iter b r :
  all_bytes (fun c => negb (Ascii.eqb c ":")) b = true ->
  before_first ":iter:" (b +:+ ":iter:" +:+ r) = Some b.
Proof.
  induction b as [|c b IH]; intros Hb; rewrite before_first_unfold.
  - by rewrite string_app_nil_l, strip_prefix_app.
  - cbn [all_bytes] in Hb. apply andb_true_iff in Hb as [Hc Hb].
    rewrite string_app_cons, (IH Hb). cbn [strip_prefix].
    destruct (Ascii.eqb_spec ":" c) as [<-|]; [by vm_compute in Hc|done].
Qed.

Lemma extract_roundtrip b n :
  all_bytes (fun c => negb (Ascii.eqb c ":")) b = true -> extractParentIDFromKey (IdempotencyKey b n) = b.
Proof.
  intros Hb. unfold extractParentIDFromKey, IdempotencyKey. rewrite strip_prefix_app.
  by rewrite before_first_iter.
Qed.

Section Pour.
Variable IsGraphV2Formula : string -> list string -> res bool.
Variable Cook : Z -> MemStore.MemStore -> string -> list string -> gmap string string -> string ->
  string -> bool -> res string * MemStore.MemStore.

(** molecule.Cook stamps the idempotency key on the root bead it creates under the
    parent, and on no other bead. *)
Definition cook_stamps : Prop :=
  forall t m f paths vars parent key defer id m',
    Cook t m f paths vars parent key defer = (Ok id, m') ->
    (exists b, b ∈ MemStore.ms_beads m' /\ bd_ID b = id /\ bd_ParentID b = parent
       /\ mget (bd_Metadata b) "idempotency_key" = key /\ bd_Status b = "open"
       /\ bd_Ephemeral b = false)
    /\ Forall (fun b => mget (bd_Metadata b) "idempotency_key" = key -> bd_ID b <> id ->
                        b ∈ MemStore.ms_beads m) (MemStore.ms_beads m').

Lemma found_key key a id :
  FindByIdempotencyKey key a = Ok (id, true) -> extractParentIDFromKey key <> "" ->
  exists b, b ∈ MemStore.ms_beads (ad_store a) /\ bd_ID b = id
    /\ mget (bd_Metadata b) "idempotency_key" = key
    /\ Matches (query_parent (extractParentIDFromKey key)) b = true.
Proof.
  unfold FindByIdempotencyKey. destruct (String.eqb_spec (extractParentIDFromKey key) ""); [done|].
  destruct (MemStore.List _ _) as [l|e] eqn:E; [|done]. intros [= H] _.
  pose proof (first_with_key_spec key l) as Hf. rewrite H in Hf.
  destruct Hf as (b & Hb & Hid & Hk). destruct (List_elem _ _ _ _ E Hb). by exists b.
Qed.

Lemma find_total key a :
  extractParentIDFromKey key <> "" ->
  exists id found, FindByIdempotencyKey key a = Ok (id, found)
    /\ (found = false -> Forall (fun b => mget (bd_Metadata b) "idempotency_key" = key ->
          Matches (query_parent (extractParentIDFromKey key)) b = false)
          (MemStore.ms_beads (ad_store a))).
Proof.
  intros Hp. unfold FindByIdempotencyKey.
  destruct (String.eqb_spec (extractParentIDFromKey key) ""); [done|].
  destruct (MemStore.List _ _) as [l|e] eqn:E.
  2: { unfold MemStore.List, HasFilter in E. simpl in E. apply String.eqb_neq in Hp.
       by rewrite Hp in E. }
  pose proof (first_with_key_spec key l) as Hf. destruct (first_with_key key l) as [id found].
  exists id, found. split; [done|]. intros ->. apply List_perm in E; [|done].
  rewrite Forall_forall in Hf |- *. intros b Hb Hk. apply not_true_is_false. intros Hm.
  apply (Hf b); [|done]. rewrite E. apply list_elem_of_In, List.filter_In.
  by rewrite <- list_elem_of_In.
Qed.

(** Pouring an iteration twice pours it once: while the wisp is open, a second
    pour with the same key, whatever formula, variables and assignment it asks for,
    returns the same bead and leaves the store and the index alone. *)
Theorem pour_once root n f vars prompt defer f' vars' prompt' defer' a id a' :
  cook_stamps -> root <> "" -> all_bytes (fun c => negb (Ascii.eqb c ":")) root = true ->
  let key := IdempotencyKey root n in
  pourWisp IsGraphV2Formula Cook root f key vars prompt defer a = (Ok id, a') ->
  pourWisp IsGraphV2Formula Cook root f' key vars' prompt' defer' a' = (Ok id, a').
Proof.
  intros Hcook Hr Hc key Hp. assert (Hx : extractParentIDFromKey key = root)
    by (by apply extract_roundtrip).
  unfold pourWisp in Hp at 1. destruct (find_total key a) as (i & found & Hf & Hnone);
    [by rewrite Hx|]. rewrite Hf in Hp. destruct found.
  { injection Hp as -> <-. unfold pourWisp. by rewrite Hf. }
  specialize (Hnone eq_refl). destruct (IsGraphV2Formula f _) as [[|]|]; [done| |done].
  unfold mutate in Hp. destruct (Cook _ _ _ _ _ _ _ _) as [r m'] eqn:Ec. injection Hp as -> <-.
  apply Hcook in Ec as [(b & Hb & Hid & Hpar & Hk & Hs & He) Hother].
  unfold pourWisp. destruct (find_total key (set_store m' (tick a))) as (i' & found & Hf' & Hnone');
    [by rewrite Hx|]. rewrite Hf'. destruct found.
  - apply found_key in Hf'; [|by rewrite Hx]. destruct Hf' as (b' & Hb' & <- & Hk' & Hm).
    destruct (decide (bd_ID b' = id)) as [->|Hne]; [done|]. rewrite Forall_forall in Hother, Hnone.
    simpl in Hb'. rewrite (Hnone b') in Hm; [done|by apply Hother|done].
  - specialize (Hnone' eq_refl). simpl in Hnone'. rewrite Forall_forall in Hnone'.
    specialize (Hnone' b Hb Hk). rewrite Hx, Matches_parent, He, Hs, Hpar, String.eqb_refl in Hnone' by done.
    done.
Qed.
End Pour.

Lemma cook0_stamps : cook_stamps cook0.
Proof.
  intros t m f paths vars parent key defer id m'. unfold cook0. cbn [MemStore.Create snd].
  set (b := mkBead _ _ _ _ _ _ _ _ _ _ _ _ _ _ _ _ _ _ _ _ _ _). intros [= <- <-].
  cbn [MemStore.ms_beads]. split.
  - exists (MemStore.minted t m b). split_and!; try done. apply elem_of_app. right. by constructor.
  - apply Forall_app. split; [by apply Forall_forall|]. repeat constructor. done.
Qed.

Lemma pour_once_witness :
  let a := newConvergenceStoreAdapter at_limit [] [10; 11] in
  let a' := (pourWisp v1_only cook0 "gc-1" "review" (IdempotencyKey "gc-1" 2) ∅ "" false a).2 in
  pourWisp v1_only cook0 "gc-1" "other" (IdempotencyKey "gc-1" 2) ∅ "p" true a' = (Ok "gc-3", a').
Proof.
  intros a a'.
  apply (pour_once v1_only cook0 "gc-1" 2 "review" ∅ "" false "other" ∅ "p" true a "gc-3" a');
    [exact cook0_stamps|done|done|vm_compute; reflexivity].
Defined.

Lemma adapter_meets_contract_witness :
  store_step (host_view no_time host0) (ConvStore.CloseBead "gc-1" "done")
    (host_exec no_time v1_only cook0 _ host0 (ConvStore.CloseBead "gc-1" "done")).1
    (host_view no_time (host_exec no_time v1_only cook0 _ host0 (ConvStore.CloseBead "gc-1" "done")).2).
Proof.
  apply (adapter_meets_contract no_time v1_only cook0 _ (ConvStore.CloseBead "gc-1" "done") host0);
    [|vm_compute; reflexivity|exact I].
  split; [vm_compute; congruence|]. split.
  - apply (bool_decide_unpack _). vm_compute. exact I.
  - repeat constructor; [exists 1|exists 2]; (split; [vm_compute; split; congruence|reflexivity]).
Defined.

Lemma activation_terminates_witness :
  is_Some (activateDeferredAssignees 2 "gc-1" (ho_adapter host0)).
Proof.
  apply (activation_terminates no_time (fun id => if String.eqb id "" then 2%nat else
           if String.eqb id "gc-1" then 1%nat else 0%nat) "gc-1").
  repeat constructor.
Defined.

End Adapter.
