(* ===== verification/ConvAdapterIndex.v ===== *)
(** The adapter's active index (cmd/gc/convergence_store.go): it is the projection of
    the bead store it claims to be, from populateIndex on and through every write of the
    adapter, so counting loops through the index is counting them by a scan. *)
From S2P Require Import Prelude GoStd ConvMeta ConvKeys BeadQuery BeadMem ConvAdapter.

Module Index.
Import beads convergenceStoreAdapter.

(** What the index should hold for a bead: the target of a listed live loop. *)
Definition live_target (b : Bead) : option string :=
  if Matches (query_type "convergence") b && indexed_state (mget (bd_Metadata b) FieldState)
  then Some (mget (bd_Metadata b) FieldTarget) else None.
Definition index_ok (a : Adapter) : Prop :=
  exists idx, ad_activeIndex a = Some idx
    /\ forall id, idx !! id = MemStore.find (ad_store a) id ≫= live_target.

(** The writes the engine makes through the adapter. *)
Inductive write : Type :=
| WSet (id key value : string)
| WClose (id reason : string)
| WDelete (id : string)
| WCreate (title : string).
Definition do_write (w : write) (a : Adapter) : Adapter :=
  match w with
  | WSet id k v => (SetMetadata id k v a).2
  | WClose id reason => (CloseBead id reason a).2
  | WDelete id => (DeleteBead id a).2
  | WCreate title => (CreateConvergenceBead title a).2
  end.

(** The engine writes a loop's target before its state, and states of the lifecycle
    onto listed convergence beads. *)
Definition disciplined (a : Adapter) (w : write) : Prop :=
  match w with
  | WSet id k v =>
      k <> FieldTarget
      /\ (k = FieldState ->
          v ∈ [StateActive; StateWaitingManual; StateWaitingTrigger; StateTerminated; StateCreating]
          /\ forall b, MemStore.find (ad_store a) id = Some b ->
               Matches (query_type "convergence") b = true)
  | _ => True
  end.

Lemma Matches_type t b :
  t <> "" -> Matches (query_type t) b
  = negb (bd_Ephemeral b) && negb (String.eqb (bd_Status b) "closed") && String.eqb (bd_Type b) t.
Proof.
  intros Ht. unfold Matches, matchesTier. simpl. destruct (bd_Ephemeral b); [done|]. simpl.
  destruct (String.eqb _ "closed"); [done|]. simpl. destruct (String.eqb_spec t ""); [done|].
  simpl. by destruct (String.eqb _ t).
Qed.

Abbreviation unique m := (NoDup (bd_ID <$> MemStore.ms_beads m)).

(** * Counting *)

Definition add_live (idx : gmap string string) (b : Bead) : gmap string string :=
  if indexed_state (mget (bd_Metadata b) FieldState)
  then <[bd_ID b := mget (bd_Metadata b) FieldTarget]> idx else idx.

Lemma fold_live_lookup l idx id :
  NoDup (bd_ID <$> l) ->
  fold_left add_live l idx !! id
  = match MemStore.index_in l id ≫= fun i => l !! i with
    | Some b => if indexed_state (mget (bd_Metadata b) FieldState)
                then Some (mget (bd_Metadata b) FieldTarget) else idx !! id
    | None => idx !! id
    end.
Proof.
  revert idx. induction l as [|b l IH]; intros idx Hn; [done|].
  rewrite fmap_cons, NoDup_cons in Hn. destruct Hn as [Hb Hn]. cbn [fold_left].
  rewrite (IH _ Hn), MemStore.find_cons. unfold add_live.
  destruct (String.eqb_spec (bd_ID b) id) as [<-|Hne].
  - apply MemStore.find_none in Hb. rewrite Hb.
    destruct (indexed_state _); [apply lookup_insert_eq|done].
  - assert (H : (if indexed_state (mget (bd_Metadata b) FieldState)
                 then <[bd_ID b := mget (bd_Metadata b) FieldTarget]> idx else idx) !! id
                = idx !! id) by (destruct (indexed_state _); [by apply lookup_insert_ne|done]).
    rewrite H. done.
Qed.

Lemma find_filter (p : Bead -> bool) l id :
  NoDup (bd_ID <$> l) ->
  (MemStore.index_in (List.filter p l) id ≫= fun i => List.filter p l !! i)
  = (MemStore.index_in l id ≫= fun i => l !! i) ≫= fun b => if p b then Some b else None.
Proof.
  induction l as [|b l IH]; intros Hn; [done|].
  rewrite fmap_cons, NoDup_cons in Hn. destruct Hn as [Hb Hn]. rewrite MemStore.find_cons.
  cbn [List.filter]. destruct (p b) eqn:Ep.
  - rewrite MemStore.find_cons. destruct (String.eqb _ _); [simpl; by rewrite Ep|by apply IH].
  - rewrite (IH Hn). destruct (String.eqb_spec (bd_ID b) id) as [<-|]; [|done].
    apply MemStore.find_none in Hb. rewrite Hb. simpl. by rewrite Ep.
Qed.

Lemma populate_ok a : unique (ad_store a) -> (populateIndex a).1 = Ok tt /\ index_ok (populateIndex a).2.
Proof.
  intros Hn. unfold populateIndex. unfold MemStore.List. cbn [HasFilter query_type lq_Type].
  simpl. split; [done|]. eexists. split; [reflexivity|]. intros id. simpl.
  unfold MemStore.find, MemStore.indexOfLocked. change (limited 0 ?l) with l.
  rewrite (fold_live_lookup _ ∅) by (by apply NoDup_ids_filter). rewrite find_filter by done.
  destruct (MemStore.index_in _ id ≫= _) as [b|]; simpl; [|done]. unfold live_target.
  destruct (Matches _ b); simpl; [|done]. by destruct (indexed_state _).
Qed.

(** The index's entries are the live loops of the store. *)
Lemma index_perm (idx : gmap string string) l :
  NoDup (bd_ID <$> l) ->
  (forall id, idx !! id = (MemStore.index_in l id ≫= fun i => l !! i) ≫= live_target) ->
  (map_to_list idx).*2 ≡ₚ omap live_target l.
Proof.
  intros Hn Hi.
  pose (ps := omap (fun b => (bd_ID b,.) <$> live_target b) l).
  assert (Hfst : ps.*1 `sublist_of` bd_ID <$> l).
  { unfold ps. clear. induction l as [|b l IH]; [done|]. simpl.
    destruct (live_target b); simpl; [by apply sublist_skip|by apply sublist_cons]. }
  assert (Hps : map_to_list idx ≡ₚ ps).
  { rewrite <- (map_to_list_to_map (M := gmap string) ps)
      by (eapply sublist_NoDup; [exact Hn|exact Hfst]).
    f_equiv. apply map_eq. intros id. rewrite Hi. clear Hi. unfold ps.
    clear ps Hfst. induction l as [|b l IH]; [done|].
    rewrite fmap_cons, NoDup_cons in Hn. destruct Hn as [Hb Hn]. rewrite MemStore.find_cons.
    simpl. destruct (String.eqb_spec (bd_ID b) id) as [<-|Hne].
    - apply MemStore.find_none in Hb. rewrite Hb in IH. simpl in *.
      destruct (live_target b); simpl; [by rewrite lookup_insert_eq|]. by apply IH.
    - rewrite (IH Hn). destruct (live_target b); simpl; [by rewrite lookup_insert_ne|done]. }
  rewrite Hps. unfold ps. clear. induction l as [|b l IH]; [done|]. simpl.
  destruct (live_target b); simpl; by rewrite IH.
Qed.

Definition count_of (agent : string) (l : list string) : nat :=
  length (List.filter (fun t => String.eqb t agent) l).

Lemma count_perm agent l1 l2 : l1 ≡ₚ l2 -> count_of agent l1 = count_of agent l2.
Proof.
  unfold count_of. induction 1; simpl; repeat destruct (String.eqb _ _); simpl; congruence.
Qed.

Lemma count_snd agent (l : list (string * string)) :
  length (List.filter (fun kv => String.eqb kv.2 agent) l) = count_of agent l.*2.
Proof.
  unfold count_of. induction l as [|[i t] l IH]; [done|]. simpl.
  destruct (String.eqb t agent); simpl; by rewrite IH.
Qed.

Lemma count_scan agent l :
  length (List.filter (fun b => indexed_state (mget (bd_Metadata b) FieldState)
            && String.eqb (mget (bd_Metadata b) FieldTarget) agent)
            (List.filter (Matches (query_type "convergence")) l))
  = count_of agent (omap live_target l).
Proof.
  unfold count_of. induction l as [|b l IH]; [done|]. simpl. unfold live_target at 1.
  destruct (Matches _ b); simpl; [|exact IH].
  destruct (indexed_state _); simpl; [|exact IH].
  destruct (String.eqb _ agent); simpl; by rewrite IH.
Qed.

Lemma index_count agent a :
  unique (ad_store a) -> index_ok a ->
  CountActiveConvergenceLoops agent a = CountActiveConvergenceLoops agent (set_index None a).
Proof.
  intros Hn (idx & Hidx & Hi). unfold CountActiveConvergenceLoops. rewrite Hidx. simpl.
  unfold MemStore.List. cbn [HasFilter query_type lq_Type]. simpl.
  change (limited 0 ?l) with l. rewrite count_snd, count_scan. do 2 f_equal.
  apply count_perm, index_perm; done.
Qed.

(** * Preservation *)

Lemma find_on_bead ctx id f m id' :
  (forall b, bd_ID (f b) = bd_ID b) ->
  MemStore.find (MemStore.on_bead ctx id f m).2 id'
  = if String.eqb id' id then f <$> MemStore.find m id else MemStore.find m id'.
Proof.
  intros Hf. unfold MemStore.on_bead. destruct (MemStore.indexOfLocked m id) as [i|] eqn:Hi.
  - by apply MemStore.find_alter.
  - simpl. destruct (String.eqb_spec id' id) as [->|]; [|done]. unfold MemStore.find. by rewrite Hi.
Qed.

Lemma live_target_put t k v b :
  live_target (MemStore.mutated t (MemStore.put_meta k v b))
  = if Matches (query_type "convergence") b
       && indexed_state (if String.eqb k FieldState then v else mget (bd_Metadata b) FieldState)
    then Some (if String.eqb k FieldTarget then v else mget (bd_Metadata b) FieldTarget) else None.
Proof.
  unfold live_target. rewrite !Matches_type by done. simpl. by rewrite !mget_insert_dec.
Qed.

Lemma live_target_closed t b : live_target (MemStore.closed_bead t b) = None.
Proof.
  unfold live_target. rewrite Matches_type by done. unfold MemStore.closed_bead.
  destruct (String.eqb_spec (bd_Status b) "closed") as [->|]; simpl; by rewrite !andb_false_r.
Qed.

Lemma set_keeps_index id k v a :
  unique (ad_store a) -> disciplined a (WSet id k v) -> index_ok a -> index_ok (do_write (WSet id k v) a).
Proof.
  intros Hn [Ht Hs] (idx & Hidx & Hi). simpl. unfold SetMetadata, mutate.
  pose proof (find_on_bead "setting metadata on %q: %w" id
    (fun b => MemStore.mutated (now a) (MemStore.put_meta k v b)) (ad_store a)) as Hf.
  fold (MemStore.SetMetadata (now a) id k v (ad_store a)) in Hf.
  destruct (MemStore.SetMetadata (now a) id k v (ad_store a)) as [r m] eqn:E. simpl in Hf.
  assert (Hlive : forall id', MemStore.find m id' ≫= live_target
    = if String.eqb id' id then MemStore.find (ad_store a) id ≫= fun b =>
        live_target (MemStore.mutated (now a) (MemStore.put_meta k v b))
      else idx !! id').
  { intros id'. rewrite Hf by done. destruct (String.eqb _ _); [|by rewrite Hi].
    by destruct (MemStore.find (ad_store a) id). }
  destruct r as [x|e].
  2: { exists idx. split; [done|]. intros id'. simpl.
       unfold MemStore.SetMetadata, MemStore.on_bead in E. by destruct (MemStore.indexOfLocked _ _);
         [done|injection E as _ <-]. }
  assert (Hb : exists b, MemStore.find (ad_store a) id = Some b).
  { unfold MemStore.SetMetadata, MemStore.on_bead in E.
    destruct (MemStore.indexOfLocked (ad_store a) id) eqn:Hx; [|done]. by apply MemStore.index_find in Hx as [b ?]; exists b. }
  destruct Hb as [b Hb]. rewrite Hb in Hlive. cbn [mbind option_bind] in Hlive.
  assert (Hg : MemStore.Get id m = Ok (MemStore.mutated (now a) (MemStore.put_meta k v b))).
  { apply MemStore.Get_find. rewrite Hf by done. by rewrite String.eqb_refl, Hb. }
  pose proof (Hi id) as Hid. rewrite Hb in Hid. cbn [mbind option_bind] in Hid.
  apply String.eqb_neq in Ht. cbn [ad_activeIndex set_store tick]. rewrite Hidx.
  setoid_rewrite live_target_put in Hlive. rewrite Ht in Hlive.
  destruct (String.eqb_spec k FieldState) as [->|Hk]; simpl negb; cbv iota.
  - destruct (Hs eq_refl) as [Hv Hm]. rewrite (Hm b Hb) in Hlive. unfold live_target in Hid.
    rewrite (Hm b Hb) in Hid. simpl in Hlive, Hid. destruct (indexed_state v) eqn:Ev.
    + cbn [ad_store set_store]. destruct (idx !! id) as [t|] eqn:Et.
      * exists idx. split; [done|]. intros id'. cbn [ad_store set_store tick]. rewrite Hlive.
        destruct (String.eqb_spec id' id) as [->|]; [|done].
        destruct (indexed_state (mget _ FieldState)); [|done]. congruence.
      * rewrite Hg. eexists. split; [reflexivity|]. intros id'. cbn [ad_store set_store set_index tick].
        rewrite Hlive. destruct (String.eqb_spec id' id) as [->|].
        -- rewrite lookup_insert_eq. cbn [bd_Metadata MemStore.mutated MemStore.put_meta].
           simpl. by rewrite mget_insert_ne.
        -- by rewrite lookup_insert_ne.
    + assert (Hd : String.eqb v StateTerminated || String.eqb v StateCreating = true).
      { rewrite !elem_of_cons, elem_of_nil in Hv. destruct Hv as [->|[->|[->|[->|[->|[]]]]]]; done. }
      rewrite Hd. eexists. split; [reflexivity|]. intros id'. cbn [ad_store set_store set_index tick].
      rewrite Hlive. destruct (String.eqb_spec id' id) as [->|];
        [by rewrite lookup_delete_eq|by rewrite lookup_delete_ne].
  - exists idx. split; [done|]. intros id'. cbn [ad_store set_store tick]. rewrite Hlive.
    destruct (String.eqb_spec id' id) as [->|]; [|done]. exact Hid.
Qed.

Lemma stamp_keeps_index id reason a :
  index_ok a ->
  index_ok (mutate (fun t => MemStore.SetMetadata t id "close_reason" reason) a).2.
Proof.
  intros (idx & Hidx & Hi). unfold mutate.
  pose proof (find_on_bead "setting metadata on %q: %w" id
    (fun b => MemStore.mutated (now a) (MemStore.put_meta "close_reason" reason b)) (ad_store a)) as Hf.
  fold (MemStore.SetMetadata (now a) id "close_reason" reason (ad_store a)) in Hf.
  destruct (MemStore.SetMetadata _ _ _ _ _) as [r m]. exists idx. split; [done|]. intros id'.
  cbn [snd ad_store set_store tick] in *. rewrite Hf by done. rewrite Hi.
  destruct (String.eqb_spec id' id) as [->|]; [|done].
  destruct (MemStore.find (ad_store a) id) as [b|]; [|done].
  cbn [fmap option_fmap option_map mbind option_bind]. by rewrite live_target_put.
Qed.

Lemma close_keeps_index id reason a : index_ok a -> index_ok (do_write (WClose id reason) a).
Proof.
  intros Ha. simpl. unfold CloseBead.
  set (a1 := if String.eqb reason "" then a else _).
  assert (H1 : index_ok a1) by (unfold a1; destruct (String.eqb _ _); [done|by apply stamp_keeps_index]).
  clearbody a1. destruct H1 as (idx & Hidx & Hi). unfold mutate.
  pose proof (find_on_bead "closing bead %q: %w" id (MemStore.closed_bead (now a1)) (ad_store a1)) as Hf.
  fold (MemStore.Close (now a1) id (ad_store a1)) in Hf.
  destruct (MemStore.Close (now a1) id (ad_store a1)) as [[x|e] m] eqn:E; simpl in Hf.
  - exists (delete id idx). split; [simpl; by rewrite Hidx|]. intros id'. simpl.
    rewrite Hf by (intros b; unfold MemStore.closed_bead; by destruct (String.eqb _ _)).
    destruct (String.eqb_spec id' id) as [->|]; [|by rewrite lookup_delete_ne].
    rewrite lookup_delete_eq. destruct (MemStore.find (ad_store a1) id); [|done].
    simpl. by rewrite live_target_closed.
  - exists idx. split; [done|]. intros id'. simpl. rewrite Hi.
    unfold MemStore.Close, MemStore.on_bead in E.
    destruct (MemStore.indexOfLocked _ _); [done|]. by injection E as _ <-.
Qed.

Lemma delete_keeps_index id a :
  unique (ad_store a) -> index_ok a -> index_ok (do_write (WDelete id) a).
Proof.
  intros Hn (idx & Hidx & Hi). simpl. unfold DeleteBead, MemStore.Delete.
  destruct (MemStore.indexOfLocked (ad_store a) id) as [i|] eqn:E; simpl.
  - exists (delete id idx). split; [simpl; by rewrite Hidx|]. intros id'. simpl.
    unfold MemStore.find, MemStore.indexOfLocked in *. simpl.
    rewrite (MemStore.find_remove _ id) by done.
    destruct (String.eqb_spec id' id) as [->|]; [by rewrite lookup_delete_eq|].
    by rewrite lookup_delete_ne, Hi.
  - by exists idx.
Qed.

Lemma create_keeps_index title a :
  MemStore.wf (ad_store a) -> MemStore.ms_seq (ad_store a) < max_int64 -> index_ok a ->
  index_ok (do_write (WCreate title) a).
Proof.
  intros (H0 & Hn & Hall) Hs (idx & Hidx & Hi). exists idx. split; [done|]. intros id. simpl.
  rewrite Hi. unfold MemStore.find, MemStore.indexOfLocked. simpl.
  rewrite MemStore.find_app, MemStore.find_cons.
  destruct (MemStore.index_in (MemStore.ms_beads (ad_store a)) id ≫= _); [done|]. simpl.
  destruct (String.eqb _ id); [|done]. by vm_compute.
Qed.

(** The active index is the projection of the store it stands for: populateIndex
    builds it and never fails, and every write the engine makes through the adapter
    (targets before states, lifecycle states on convergence beads) keeps it so; counting
    the active loops of an agent through the index is counting them by a full scan. *)
Theorem index_faithful a w :
  MemStore.wf (ad_store a) -> MemStore.ms_seq (ad_store a) < max_int64 ->
  ((populateIndex a).1 = Ok tt /\ index_ok (populateIndex a).2)
  /\ (index_ok a -> disciplined a w -> index_ok (do_write w a))
  /\ (index_ok a -> forall agent,
        CountActiveConvergenceLoops agent a = CountActiveConvergenceLoops agent (set_index None a)).
Proof.
  intros Hw Hs. pose proof Hw as (_ & Hn & _). split; [by apply populate_ok|]. split.
  - intros Hi Hd. destruct w; [by apply set_keeps_index|by apply close_keeps_index|
      by apply delete_keeps_index|by apply create_keeps_index].
  - intros Hi agent. by apply index_count.
Qed.

(** One active loop of agent-a. *)
Definition one_loop : Adapter :=
  newConvergenceStoreAdapter
    (MemStore.mkMemStore
       [mkBead "gc-1" "loop" "open" "convergence" None 1 1 "" "" "" "" [] "" []
          {[ FieldState := StateActive; FieldTarget := "agent-a" ]} [] false false None None 3 0]
       [] 1 false "" ∅) [] [5; 6].

Lemma index_faithful_witness :
  index_ok (do_write (WSet "gc-1" FieldState StateTerminated) (populateIndex one_loop).2)
  /\ CountActiveConvergenceLoops "agent-a" (populateIndex one_loop).2 = Ok 1.
Proof.
  assert (Hw : MemStore.wf (ad_store one_loop)).
  { split; [vm_compute; congruence|]. split; [apply (bool_decide_unpack _); vm_compute; exact I|].
    repeat constructor. exists 1. split; [vm_compute; split; congruence|reflexivity]. }
  destruct (index_faithful one_loop (WSet "gc-1" FieldState StateTerminated) Hw) as ((_ & Hi) & _);
    [done|].
  destruct (index_faithful (populateIndex one_loop).2 (WSet "gc-1" FieldState StateTerminated) Hw)
    as (_ & Hk & Hc); [done|]. split.
  - apply Hk; [exact Hi|]. split; [done|]. intros _. split.
    + do 3 apply elem_of_cons, or_intror. by apply elem_of_cons, or_introl.
    + intros b Hb. vm_compute in Hb. injection Hb as <-. reflexivity.
  - rewrite (Hc Hi). reflexivity.
Defined.

End Index.
