(* ===== verification/SessionMachine.v ===== *)
(** The session command table (internal/session/state_machine.go): which lifecycle
    command each session state accepts and where it leads, with the command list shown
    to users.  States and commands are strings, as in the source, so unknown ones are
    covered. *)
From stdpp Require Import sorting.
From Stdlib Require Import OrdersEx.
From S2P Require Import Prelude BeadQuery.

Module session.

(** * States and commands *)

Definition StateActive : string := "active".
Definition StateAsleep : string := "asleep".
Definition StateSuspended : string := "suspended".
Definition StateStartPending : string := "start-pending".
Definition StateCreating : string := "creating".
Definition StateDraining : string := "draining".
Definition StateArchived : string := "archived".
Definition StateQuarantined : string := "quarantined".
Definition StateClosed : string := "closed".
Definition StateNone : string := "".
Definition anyState : string := "*".

Definition CmdCreate : string := "create".
Definition CmdReady : string := "ready".
Definition CmdSuspend : string := "suspend".
Definition CmdWake : string := "wake".
Definition CmdSleep : string := "sleep".
Definition CmdQuarantine : string := "quarantine".
Definition CmdDrain : string := "drain".
Definition CmdArchive : string := "archive".
Definition CmdClose : string := "close".

(** The transitions map as an association list; lookups go by key. *)
Definition transitions : list (string * list (string * string)) :=
  [ (CmdCreate, [(StateNone, StateStartPending)]);
    (CmdReady, [(StateCreating, StateActive)]);
    (CmdSuspend, [(StateActive, StateSuspended); (StateAsleep, StateSuspended);
                  (StateQuarantined, StateSuspended)]);
    (CmdWake, [(StateAsleep, StateActive); (StateSuspended, StateActive);
               (StateQuarantined, StateActive); (StateArchived, StateActive)]);
    (CmdSleep, [(StateActive, StateAsleep)]);
    (CmdQuarantine, [(StateActive, StateQuarantined); (StateAsleep, StateQuarantined)]);
    (CmdDrain, [(StateActive, StateDraining)]);
    (CmdArchive, [(StateActive, StateArchived); (StateAsleep, StateArchived);
                  (StateSuspended, StateArchived); (StateQuarantined, StateArchived);
                  (StateDraining, StateArchived)]);
    (CmdClose, [(anyState, StateClosed)]) ].

Fixpoint assoc {A} (k : string) (l : list (string * A)) : option A :=
  match l with
  | [] => None
  | (k', v) :: l' => if String.eqb k k' then Some v else assoc k l'
  end.

Definition IllegalTransitionError (from cmd : string) : error :=
  errmsg "illegal transition: state %q does not accept command %q" [from; cmd].

(** The lookup both functions make in one command's table. *)
Definition target (table : list (string * string)) (from : string) : option string :=
  match assoc from table with
  | Some to => Some to
  | None => if negb (String.eqb from StateNone) then assoc anyState table else None
  end.

Definition Transition (from cmd : string) : res string :=
  match assoc cmd transitions with
  | None => Err (errmsg "unknown command %q" [cmd])
  | Some table =>
      match target table from with
      | Some to => Ok to
      | None => Err (IllegalTransitionError from cmd)
      end
  end.

(** sort.Slice on the command names. *)
Fixpoint insert_name (x : string) (l : list string) : list string :=
  match l with
  | [] => [x]
  | y :: l' => if String.ltb y x then y :: insert_name x l' else x :: l
  end.
Fixpoint sort_names (l : list string) : list string :=
  match l with [] => [] | x :: l' => insert_name x (sort_names l') end.

Definition AllowedCommands (from : string) : list string :=
  sort_names (omap (fun ct => match target ct.2 from with Some _ => Some ct.1 | None => None end)
                transitions).

(** * The lifecycle as a step relation *)

(** A session's state moves by an accepted command, or by the reconciler's commit just
    before the provider starts (PreWakePatch), from start-pending to creating. *)
Inductive moves : string -> string -> Prop :=
| moves_cmd from cmd to : Transition from cmd = Ok to -> moves from to
| moves_prewake : moves StateStartPending StateCreating.
Inductive lifecycle : string -> string -> Prop :=
| lifecycle_nil s : lifecycle s s
| lifecycle_step s1 s2 s3 : moves s1 s2 -> lifecycle s2 s3 -> lifecycle s1 s3.

Definition live_states : list string :=
  [StateStartPending; StateCreating; StateActive; StateAsleep; StateSuspended; StateDraining;
   StateArchived; StateQuarantined].

Lemma insert_name_perm x l : insert_name x l ≡ₚ x :: l.
Proof.
  induction l as [|y l IH]; simpl; [done|]. destruct (String.ltb y x); [|done].
  rewrite IH. constructor.
Qed.

Lemma sort_names_perm l : sort_names l ≡ₚ l.
Proof. induction l as [|x l IH]; simpl; [done|]. by rewrite insert_name_perm, IH. Qed.

Lemma insert_name_sorted x l :
  x ∉ l -> StronglySorted (fun a b => String.ltb a b = true) l ->
  StronglySorted (fun a b => String.ltb a b = true) (insert_name x l).
Proof.
  intros Hx Hs. induction Hs as [|y l Hs IH Hy]; simpl; [repeat constructor|].
  apply not_elem_of_cons in Hx as [Hxy Hx]. destruct (String.ltb y x) eqn:E.
  - constructor; [by apply IH|]. rewrite insert_name_perm. by constructor.
  - destruct (beads.ltb_total x y Hxy) as [Hlt|]; [|congruence].
    constructor; [by constructor|]. constructor; [done|].
    eapply Forall_impl; [exact Hy|]. intros z Hz. by eapply beads.ltb_trans.
Qed.

Lemma sort_names_sorted l :
  NoDup l -> StronglySorted (fun a b => String.ltb a b = true) (sort_names l).
Proof.
  induction l as [|x l IH]; simpl; [constructor|]. intros [Hx Hl]%NoDup_cons.
  apply insert_name_sorted; [by rewrite sort_names_perm|by apply IH].
Qed.

Lemma assoc_elem {A} k (l : list (string * A)) v : assoc k l = Some v -> (k, v) ∈ l.
Proof.
  induction l as [|[k' v'] l IH]; [done|]. simpl. destruct (String.eqb_spec k k') as [<-|].
  - intros [= ->]. by constructor.
  - intros H. constructor. by apply IH.
Qed.

Lemma assoc_unique {A} k (l : list (string * A)) v :
  NoDup l.*1 -> (k, v) ∈ l -> assoc k l = Some v.
Proof.
  induction l as [|[k' v'] l IH]; [by intros _ ?%elem_of_nil|]. simpl.
  intros [Hk Hn]%NoDup_cons [[= -> ->]|Hin]%elem_of_cons; [by rewrite String.eqb_refl|].
  destruct (String.eqb_spec k k') as [->|]; [|by apply IH].
  destruct Hk. by apply (list_elem_of_fmap_2 fst) in Hin.
Qed.

Lemma commands_nodup : NoDup transitions.*1.
Proof. apply (bool_decide_unpack _). vm_compute. exact I. Qed.

Lemma Transition_target from cmd to :
  Transition from cmd = Ok to <-> exists table, (cmd, table) ∈ transitions /\ target table from = Some to.
Proof.
  unfold Transition. split.
  - destruct (assoc cmd transitions) as [table|] eqn:E; [|done]. apply assoc_elem in E.
    destruct (target table from) eqn:Et; [|done]. intros [= ->]. by exists table.
  - intros (table & Hin & Ht). by rewrite (assoc_unique _ _ _ commands_nodup Hin), Ht.
Qed.

(** Every accepted command leads from a known state to a live one, or closes. *)
Lemma target_cases cmd table from to :
  (cmd, table) ∈ transitions -> target table from = Some to ->
  (cmd = CmdClose /\ from <> StateNone /\ to = StateClosed)
  \/ (to ∈ live_states /\ from ∈ StateNone :: live_states).
Proof.
  intros Hin. unfold target, transitions in *.
  rewrite !elem_of_cons, elem_of_nil in Hin.
  assert (Hlive : forall s, existsb (String.eqb s) (StateNone :: live_states) = true ->
            s ∈ StateNone :: live_states).
  { intros s (x & Hx & ->%String.eqb_eq)%existsb_exists. by apply list_elem_of_In. }
  assert (Hlive' : forall s, existsb (String.eqb s) live_states = true -> s ∈ live_states).
  { intros s (x & Hx & ->%String.eqb_eq)%existsb_exists. by apply list_elem_of_In. }
  destruct Hin as [[= -> ->]|[[= -> ->]|[[= -> ->]|[[= -> ->]|[[= -> ->]|[[= -> ->]|[[= -> ->]|
    [[= -> ->]|[[= -> ->]|[]]]]]]]]]]; cbn [assoc];
    repeat match goal with
    | |- context [String.eqb from ?s] => destruct (String.eqb_spec from s) as [->|]
    end; simpl; intros H; try discriminate H; injection H as <-.
  all: try (right; split; [by apply Hlive'|by apply Hlive]).
  all: by left.
Qed.

(** The session command table: AllowedCommands lists, sorted and without
    repetition, exactly the commands Transition accepts; no history re-enters the state
    before creation or leaves the closed state, and from creation on every state is one
    of the eight live states or closed. *)
Theorem session_lifecycle :
  (forall from cmd, cmd ∈ AllowedCommands from <-> exists to, Transition from cmd = Ok to)
  /\ (forall from, StronglySorted (fun a b => String.ltb a b = true) (AllowedCommands from))
  /\ (forall s, lifecycle StateClosed s -> s = StateClosed)
  /\ (forall s1 s, moves StateNone s1 -> lifecycle s1 s -> s ∈ StateClosed :: live_states).
Proof.
  assert (Hsub : forall from l, (omap (fun ct : string * list (string * string) =>
            match target ct.2 from with Some _ => Some ct.1 | None => None end) l)
            `sublist_of` l.*1).
  { intros from l. induction l as [|[c t] l IH]; [done|]. simpl.
    destruct (target t from); [by apply sublist_skip|by apply sublist_cons]. }
  assert (Hstep : forall s s', s ∈ StateClosed :: live_states -> moves s s' ->
                   s' ∈ StateClosed :: live_states).
  { intros s s' _ [from cmd to (table & Hin & Ht)%Transition_target|].
    - destruct (target_cases _ _ _ _ Hin Ht) as [(_ & _ & ->)|[H _]]; [by constructor|by constructor].
    - by apply (bool_decide_unpack _). }
  split; [|split; [|split]].
  - intros from cmd. unfold AllowedCommands. rewrite sort_names_perm, list_elem_of_omap.
    setoid_rewrite Transition_target. split.
    + intros ([c t] & Hin & H). simpl in H. destruct (target t from) eqn:E; [|done].
      injection H as ->. by exists s, t.
    + intros (to & t & Hin & Ht). exists (cmd, t). split; [done|]. simpl. by rewrite Ht.
  - intros from. apply sort_names_sorted. eapply sublist_NoDup; [apply commands_nodup|apply Hsub].
  - intros s Hl. remember StateClosed as c eqn:Hc. induction Hl as [|s1 s2 s3 Hm _ IH]; [done|].
    subst s1. assert (s2 = StateClosed) as ->; [|by apply IH].
    inversion Hm as [from cmd to Ht|]; subst.
    apply Transition_target in Ht as (table & Hin & Ht).
    destruct (target_cases _ _ _ _ Hin Ht) as [(_ & _ & ->)|[_ Hf]]; [done|].
    exfalso. revert Hf. apply (bool_decide_unpack _). vm_compute. exact I.
  - intros s1 s Hm Hl. assert (H1 : s1 ∈ StateClosed :: live_states).
    { inversion Hm as [from cmd to Ht|]; subst. apply Transition_target in Ht as (table & Hin & Ht).
      destruct (target_cases _ _ _ _ Hin Ht) as [(_ & ? & _)|[H _]]; [done|by constructor]. }
    clear Hm. induction Hl; [done|]. eauto.
Qed.

Lemma session_lifecycle_witness :
  CmdWake ∈ AllowedCommands StateArchived /\ StateDraining ∈ StateClosed :: live_states.
Proof.
  destruct session_lifecycle as (Ha & _ & _ & Hr). split.
  - apply Ha. by exists StateActive.
  - apply (Hr StateStartPending); [by apply moves_cmd with CmdCreate|].
    apply lifecycle_step with StateCreating; [apply moves_prewake|].
    apply lifecycle_step with StateActive; [by apply moves_cmd with CmdReady|].
    apply lifecycle_step with StateDraining; [by apply moves_cmd with CmdDrain|apply lifecycle_nil].
Defined.

End session.
