(* ===== verification/RunFailure.v ===== *)
(** Failure classes and response policies (internal/unattended/failure.go): the ten
    declared classes, the policy table, the backoff arithmetic on float64, and the
    classifier that reads a failure text with the spec's rules first and the built-in
    ones after.  A class is a string, as in the source, so unknown ones are covered. *)
From Stdlib Require Import SpecFloat.
From S2P Require Import Prelude GoStd.

(** * Classes *)

Definition FailureRetryable : string := "retryable".
Definition FailureCodeDefect : string := "code-defect".
Definition FailureEnvironment : string := "environment".
Definition FailureAuth : string := "auth".
Definition FailureGovernance : string := "governance".
Definition FailureDependency : string := "dependency".
Definition FailureConcurrentWriter : string := "concurrent-writer".
Definition FailureExternalService : string := "external-service".
Definition FailureHumanDecision : string := "human-decision".
Definition FailureIrreversibleBoundary : string := "irreversible-boundary".

Definition failureClasses : list string :=
  [ FailureRetryable; FailureCodeDefect; FailureEnvironment; FailureAuth;
    FailureGovernance; FailureDependency; FailureConcurrentWriter;
    FailureExternalService; FailureHumanDecision; FailureIrreversibleBoundary ].

Definition class_Valid (c : string) : bool := existsb (String.eqb c) failureClasses.

(** * Policies *)

Record Policy : Type := mkPolicy {
  MaxAttempts : Z;
  BaseBackoff : Z;
  MaxBackoff : Z;
  StopsRun : bool;
  Why : string
}.

Definition policies : list (string * Policy) :=
  [ (FailureRetryable, mkPolicy 4 (5 * Second) (2 * Minute) false
      "transient by definition; retried with backoff, then treated as a blocked task rather than a stopped run");
    (FailureCodeDefect, mkPolicy 3 Second (10 * Second) false
      "ordinary engineering work — a failing test or build is what the run is for, not a reason to end it");
    (FailureEnvironment, mkPolicy 2 (10 * Second) (30 * Second) false
      "the machine will not fix itself, but one retry costs little and covers a transient filesystem or process race");
    (FailureAuth, mkPolicy 1 0 0 false
      "a credential does not become valid by being asked again; the task is held and the queue moves on");
    (FailureGovernance, mkPolicy 1 0 0 false
      "a policy refusal is a decision, not a fault; the task is held for the human who can lift it");
    (FailureDependency, mkPolicy 1 0 0 false
      "the queue re-offers the task when its dependency succeeds, so retrying in place would only burn attempts");
    (FailureConcurrentWriter, mkPolicy 1 0 0 true
      "another session owns this worktree; continuing would mean two writers, which is the failure this layer exists to prevent");
    (FailureExternalService, mkPolicy 5 (15 * Second) (5 * Minute) false
      "third-party outages and rate limits recover on their own; backoff is longer and attempts are more generous");
    (FailureHumanDecision, mkPolicy 1 0 0 false
      "the answer is a judgement this run is not entitled to make");
    (FailureIrreversibleBoundary, mkPolicy 1 0 0 true
      "the next step cannot be undone without authorization, so it is never taken unattended") ].

Fixpoint lookup_policy (c : string) (l : list (string * Policy)) : option Policy :=
  match l with
  | [] => None
  | (k, p) :: l' => if String.eqb k c then Some p else lookup_policy c l'
  end.

Definition PolicyFor (c : string) : Policy :=
  match lookup_policy c policies with
  | Some p => p
  | None => mkPolicy 1 0 0 true
      ("unrecognized failure class " +:+ c +:+ " — nothing is known about it, so nothing is assumed")
  end.

(** float64(p.BaseBackoff) * math.Pow(2, float64(shift)), truncated to a Duration.
    The power of two is exact, and so are the products below. *)
Definition scaled (base shift : Z) : Z :=
  f64_trunc (f64_mul (f64_of_Z base) (f64_of_Z (2 ^ shift))).

Definition Backoff (p : Policy) (attempt : Z) : Z :=
  if (attempt <? 1) || (BaseBackoff p <=? 0) then 0
  else
    let shift := attempt - 1 in
    let shift := if 20 <? shift then 20 else shift in
    let d := scaled (BaseBackoff p) shift in
    if (0 <? MaxBackoff p) && (MaxBackoff p <? d) then MaxBackoff p else d.

(** * Classification *)

Record ClassificationRule : Type := mkRule {
  rule_Pattern : string;
  rule_Class : string;
  rule_Reason : string
}.

Definition builtinRules : list ClassificationRule :=
  [ mkRule "(?i)another session (owns|took ownership)|worktree already has a live owner|fence (branch-changed|head-moved|owner-lost)"
      FailureConcurrentWriter "the worktree ownership guard fired";
    mkRule "(?i)\b(401|403)\b|not logged in|authentication failed|bad credentials|permission denied \(publickey\)|token .*(expired|invalid)"
      FailureAuth "the forge or transport refused the credential";
    mkRule "(?i)protected branch|required status check|review required|at least \d+ approving review|environment .* requires approval"
      FailureGovernance "a repository or deployment policy refused the action";
    mkRule "(?i)\b(429|502|503|504)\b|rate limit|service unavailable|temporarily unavailable|connection reset by peer|i/o timeout|TLS handshake timeout"
      FailureExternalService "a third party refused or dropped the request";
    mkRule "(?i)command not found|executable file not found|no such file or directory|no space left on device|cannot allocate memory|address already in use"
      FailureEnvironment "the machine could not provide something the command needed";
    mkRule "(?i)^--- FAIL|\bFAIL\b.*\[build failed\]|\bassertion failed\b|\bcompile error\b|\bsyntax error\b|undefined:|cannot use .* as .* value"
      FailureCodeDefect "the code under test did not do what it should";
    mkRule "(?i)merge conflict|CONFLICT \(content\)|would be overwritten by merge"
      FailureCodeDefect "a merge conflict is ordinary work, resolved in the tree";
    mkRule "(?i)context deadline exceeded|timed out|timeout"
      FailureRetryable "the attempt ran out of time without saying why" ].

Record Classification : Type := mkClassification {
  cl_Class : string;
  cl_Reason : string;
  cl_Rule : string
}.

Section classify.
Context `{GoTables}.

(** A pattern that does not compile never matches; the built-in patterns compile, or
    MustCompile stops the program before it runs. *)
Definition rule_matches (pattern text : string) : bool :=
  match regexp_Compile pattern with Some f => f text | None => false end.

Fixpoint classify_spec (text : string) (i : Z) (rules : list ClassificationRule)
  : option Classification :=
  match rules with
  | [] => None
  | r :: rules' =>
      if rule_matches (rule_Pattern r) text then
        Some (mkClassification (rule_Class r)
          (if String.eqb (rule_Reason r) "" then "matched a project-declared signature"
           else rule_Reason r)
          ("spec.classify[" +:+ Itoa i +:+ "]"))
      else classify_spec text (i + 1) rules'
  end.

Fixpoint classify_builtin (text : string) (i : Z) (rules : list ClassificationRule)
  : option Classification :=
  match rules with
  | [] => None
  | r :: rules' =>
      if rule_matches (rule_Pattern r) text then
        Some (mkClassification (rule_Class r) (rule_Reason r) ("builtin[" +:+ Itoa i +:+ "]"))
      else classify_builtin text (i + 1) rules'
  end.

Definition Classify (text : string) (rules : list ClassificationRule) : Classification :=
  match classify_spec text 0 rules with
  | Some c => c
  | None =>
      match classify_builtin text 0 builtinRules with
      | Some c => c
      | None => mkClassification FailureCodeDefect
          "no signature matched, so it is treated as ordinary work rather than as a boundary"
          "default"
      end
  end.

Definition ErrSpecInvalid : error := errmsg "unattended: run spec is invalid" [].

Fixpoint rule_problems (i : Z) (rules : list ClassificationRule) : list string :=
  match rules with
  | [] => []
  | r :: rules' =>
      (match regexp_Compile (rule_Pattern r) with
       | Some _ => []
       | None => ["classify[" +:+ Itoa i +:+ "] pattern " +:+ Quote (rule_Pattern r)
                  +:+ " does not compile: " +:+ regexp_Error (rule_Pattern r)]
       end)
      ++ (if class_Valid (rule_Class r) then []
          else ["classify[" +:+ Itoa i +:+ "] class " +:+ Quote (rule_Class r)
                +:+ " is not a declared failure class"])
      ++ rule_problems (i + 1) rules'
  end.

Definition ValidateClassificationRules (rules : list ClassificationRule) : option error :=
  match rule_problems 0 rules with
  | [] => None
  | ps => Some (Errorf "%w: %s" [join_with "; " ps] [ErrSpecInvalid])
  end.

End classify.

(** * The table *)

Lemma lookup_policy_Some c l : is_Some (lookup_policy c l) <-> existsb (String.eqb c) l.*1 = true.
Proof.
  induction l as [|[k p] l IH]; simpl; [by split; [intros [? ?]|]|].
  rewrite (String.eqb_sym c). by destruct (String.eqb k c).
Qed.

(** Every declared class has a policy of its own. *)
Lemma lookup_policy_Valid c : is_Some (lookup_policy c policies) <-> class_Valid c = true.
Proof. apply lookup_policy_Some. Qed.

(** What holds of every declared policy and of the cautious default holds of the
    policy of every class. *)
Lemma PolicyFor_ind (P : Policy -> Prop) :
  Forall (fun e => P e.2) policies ->
  (forall w, P (mkPolicy 1 0 0 true w)) -> forall c, P (PolicyFor c).
Proof.
  intros Hf Hd c. unfold PolicyFor. induction Hf as [|[k p] l Hp Hf IH]; simpl; [apply Hd|].
  by destruct (String.eqb k c).
Qed.

(** Every policy allows between one and five attempts. *)
Lemma MaxAttempts_range c : 1 <= MaxAttempts (PolicyFor c) <= 5.
Proof. apply PolicyFor_ind; [|intros; simpl; lia]. repeat constructor; simpl; lia. Qed.

(** The float arithmetic agrees with integer arithmetic up to the cap, at every shift
    the guard lets through. *)
Definition backoff_exact (p : Policy) : bool :=
  (BaseBackoff p <=? 0)
  || ((0 <? MaxBackoff p) && (MaxBackoff p <=? BaseBackoff p * 2 ^ 20)
      && forallb (fun i => scaled (BaseBackoff p) (Z.of_nat i) =? BaseBackoff p * 2 ^ Z.of_nat i)
           (seq 0 21)).

Lemma policies_exact c : backoff_exact (PolicyFor c) = true.
Proof. apply PolicyFor_ind; [|done]. repeat constructor; by vm_compute. Qed.

Lemma backoff_exact_min p n :
  backoff_exact p = true -> 0 < BaseBackoff p -> 1 <= n ->
  Backoff p n = Z.min (MaxBackoff p) (BaseBackoff p * 2 ^ (n - 1)).
Proof.
  unfold backoff_exact. intros He Hb Hn.
  assert ((BaseBackoff p <=? 0) = false) as E0 by lia. rewrite E0, orb_false_l in He.
  apply andb_true_iff in He as [[Hm%Z.ltb_lt Hc%Z.leb_le]%andb_true_iff Hs].
  assert (Hscaled : forall i, 0 <= i <= 20 -> scaled (BaseBackoff p) i = BaseBackoff p * 2 ^ i).
  { intros i Hi. rewrite forallb_forall in Hs.
    rewrite <- (Z2Nat.id i) by lia. apply Z.eqb_eq, Hs, in_seq. lia. }
  unfold Backoff. rewrite E0. replace (n <? 1) with false by lia. simpl.
  replace (0 <? MaxBackoff p) with true by lia. simpl.
  destruct (20 <? n - 1) eqn:E20.
  - apply Z.ltb_lt in E20. rewrite Hscaled by lia.
    assert (2 ^ 20 <= 2 ^ (n - 1)) by (apply Z.pow_le_mono_r; lia).
    split_match; nia.
  - apply Z.ltb_ge in E20. rewrite Hscaled by lia. split_match; lia.
Qed.

Lemma BaseBackoff_nonneg c : 0 <= BaseBackoff (PolicyFor c).
Proof. apply PolicyFor_ind; [|intros; simpl; lia]. repeat constructor; vm_compute; congruence. Qed.

(** The documented schedule: the base delay before the second attempt, doubled for
    each further one, never above the cap. *)
Fixpoint doubling (base cap : Z) (k : nat) : Z :=
  match k with
  | O => Z.min cap base
  | S k' => Z.min cap (2 * doubling base cap k')
  end.

Lemma doubling_min base cap k :
  0 < base -> 0 <= cap -> doubling base cap k = Z.min cap (base * 2 ^ Z.of_nat k).
Proof.
  intros Hb Hc. induction k as [|k IH]; simpl doubling; [f_equal; lia|].
  rewrite IH, Nat2Z.inj_succ, Z.pow_succ_r by lia. lia.
Qed.

(** The backoff computed in floating point, with its guarded shift, is exactly the
    documented schedule for every failure class, declared or not, and every attempt
    number: the base delay doubled per attempt and capped; classes without a base
    delay never wait. *)
Theorem Backoff_capped_doubling c n :
  Backoff (PolicyFor c) n
  = if (n <? 1) || (BaseBackoff (PolicyFor c) =? 0) then 0
    else doubling (BaseBackoff (PolicyFor c)) (MaxBackoff (PolicyFor c)) (Z.to_nat (n - 1)).
Proof.
  assert (Hb := BaseBackoff_nonneg c).
  destruct (Z.ltb_spec n 1); [unfold Backoff; by replace (n <? 1) with true by lia|].
  destruct (Z.eqb_spec (BaseBackoff (PolicyFor c)) 0) as [E|E]; simpl.
  { unfold Backoff. rewrite E. by rewrite orb_true_r. }
  rewrite (backoff_exact_min _ _ (policies_exact c)) by lia.
  rewrite doubling_min; [by rewrite Z2Nat.id by lia|lia|].
  pattern (PolicyFor c). apply PolicyFor_ind; [|done].
  repeat constructor; vm_compute; congruence.
Qed.
