(* ===== verification/RunQA.v ===== *)
(** The mechanical quality contract (internal/unattended/qa.go): risk classes, the gate
    catalogue, the gates a packet must pass, the evidence ledger and the progression
    decision.  Classes, gate names and results are strings, as in the source. *)
From S2P Require Import Prelude GoStd.

(** * Risk classes *)

Definition RiskQ0 : string := "Q0".
Definition RiskQ1 : string := "Q1".
Definition RiskQ2 : string := "Q2".
Definition RiskQ3 : string := "Q3".

Definition riskRank (r : string) : option Z :=
  if String.eqb r RiskQ0 then Some 0
  else if String.eqb r RiskQ1 then Some 1
  else if String.eqb r RiskQ2 then Some 2
  else if String.eqb r RiskQ3 then Some 3
  else None.

Definition risk_Valid (r : string) : bool :=
  match riskRank r with Some _ => true | None => false end.

(** An unrecognized class ranks above every declared one. *)
Definition risk_Rank (r : string) : Z := default 4 (riskRank r).

Definition RiskClasses : list string := [RiskQ0; RiskQ1; RiskQ2; RiskQ3].

(** * The gate catalogue *)

Definition GateBuild : string := "build".
Definition GateUnitTest : string := "unit-test".
Definition GateStaticAnalysis : string := "static-analysis".
Definition GateControlSafety : string := "control-safety".

Record GateDefinition : Type := mkGateDefinition {
  gd_ID : string;
  gd_Title : string;
  gd_MinRisk : string
}.

Definition gateCatalogue : list GateDefinition :=
  [ mkGateDefinition GateBuild "the packet's code builds" RiskQ1;
    mkGateDefinition GateUnitTest "the packet's automated tests pass" RiskQ1;
    mkGateDefinition GateStaticAnalysis "the packet passes static examination" RiskQ2;
    mkGateDefinition GateControlSafety
      "the packet's autonomous behavior is mechanically examined" RiskQ3 ].

Definition LookupGate (id : string) : option GateDefinition :=
  List.find (fun d => String.eqb (gd_ID d) id) gateCatalogue.

(** RequireGates, the one field of QAPolicy. *)
Record QAPolicy : Type := mkQAPolicy { RequireGates : list string }.

(** The set the loop collects, and its sorted elements. *)
Definition required_set (policy : QAPolicy) (risk : string) : gset string :=
  let seen := fold_left
    (fun seen d => if risk_Rank (gd_MinRisk d) <=? risk_Rank risk then {[gd_ID d]} ∪ seen else seen)
    gateCatalogue (∅ : gset string) in
  fold_left (fun seen id => {[id]} ∪ seen) (RequireGates policy) seen.

Definition RequiredGates (policy : QAPolicy) (risk : string) : list string :=
  sort_Strings (elements (required_set policy risk)).

(** * Evidence *)

Definition GatePass : string := "pass".
Definition GateFail : string := "fail".
Definition GateError : string := "error".

Definition Passed (r : string) : bool := String.eqb r GatePass.

Definition gate_severity (r : string) : Z :=
  if String.eqb r GatePass then 0
  else if String.eqb r GateFail then 2
  else if String.eqb r GateError then 1
  else 3.

(** GateEvidence; the observation time is not kept. *)
Record GateEvidence : Type := mkGateEvidence {
  ev_GateID : string;
  ev_TaskID : string;
  ev_Tool : string;
  ev_ToolVersion : string;
  ev_Result : string;
  ev_TargetSHA : string;
  ev_Reproduce : list string;
  ev_Detail : string;
  ev_EvidencePath : string
}.

Definition no_evidence : GateEvidence := mkGateEvidence "" "" "" "" "" "" [] "" "".

Definition blank (s : string) : bool := String.eqb (TrimSpace s) "".

Definition Certifies (e : GateEvidence) (targetSHA : string) : bool :=
  if negb (Passed (ev_Result e)) then false
  else if blank (ev_TargetSHA e) || blank targetSHA then false
  else String.eqb (ev_TargetSHA e) targetSHA.

Definition Stale (e : GateEvidence) (targetSHA : string) : bool :=
  negb (blank targetSHA) && negb (blank (ev_TargetSHA e))
  && negb (String.eqb (ev_TargetSHA e) targetSHA).

Definition MergeEvidence (existing observed : GateEvidence) : GateEvidence :=
  if String.eqb (ev_GateID existing) "" then observed
  else if negb (String.eqb (ev_TargetSHA existing) (ev_TargetSHA observed)) then observed
  else if gate_severity (ev_Result observed) <=? gate_severity (ev_Result existing) then existing
  else observed.

(** The ledger: a missing gate reads as the zero evidence. *)
Definition record_evidence (m : gmap string GateEvidence) (ev : GateEvidence)
  : gmap string GateEvidence :=
  <[ev_GateID ev := MergeEvidence (default no_evidence (m !! ev_GateID ev)) ev]> m.

(** * The progression decision *)

Inductive BlockReason : Type := BlockMissing | BlockFailed | BlockStale | BlockUnknownTarget.

Record GateBlock : Type := mkGateBlock {
  gb_GateID : string;
  gb_Reason : BlockReason;
  gb_Result : string;
  gb_EvidenceSHA : string;
  gb_Detail : string
}.

Definition shortSHA (s : string) : string :=
  if (9 <? String.length s)%nat then String.substring 0 9 s else s.

Definition firstLine (s : string) : string :=
  match before_first (bytes [10]) s with Some l => TrimSpace l | None => TrimSpace s end.

(** GateBlock.String. *)
Definition block_String (b : GateBlock) : string :=
  match gb_Reason b with
  | BlockMissing => gb_GateID b +:+ ": required, and no evidence has been recorded"
  | BlockStale => gb_GateID b +:+ ": passed against " +:+ shortSHA (gb_EvidenceSHA b)
                  +:+ ", which is not the code in hand"
  | BlockUnknownTarget => gb_GateID b +:+ ": there is no target revision to certify against"
  | BlockFailed =>
      let detail := if String.eqb (gb_Detail b) "" then ""
                    else " — " +:+ firstLine (gb_Detail b) in
      gb_GateID b +:+ ": recorded " +:+ gb_Result b +:+ " against "
      +:+ shortSHA (gb_EvidenceSHA b) +:+ detail
  end.

Record ProgressionDecision : Type := mkDecision {
  pd_Allowed : bool;
  pd_Risk : string;
  pd_TargetSHA : string;
  pd_Required : list string;
  pd_Satisfied : list string;
  pd_Blocking : list GateBlock
}.

(** ProgressionDecision.Reason. *)
Definition decision_Reason (d : ProgressionDecision) : string :=
  let nreq := Z.of_nat (length (pd_Required d)) in
  let nblock := Z.of_nat (length (pd_Blocking d)) in
  if negb (pd_Allowed d) && (nreq =? 0) && (nblock =? 0) then "no progression decision was recorded"
  else if pd_Allowed d then
    if nreq =? 0 then "risk " +:+ pd_Risk d +:+ " requires no mechanical gate"
    else "every gate required at risk " +:+ pd_Risk d +:+ " has passing evidence for "
         +:+ shortSHA (pd_TargetSHA d) +:+ ": " +:+ join_with ", " (pd_Required d)
  else Itoa nblock +:+ " of " +:+ Itoa nreq +:+ " gate(s) required at risk " +:+ pd_Risk d
       +:+ " do not permit progression: " +:+ join_with "; " (block_String <$> pd_Blocking d).

(** The switch of the loop: the gate is satisfied, or why it blocks. *)
Definition judge (targetSHA : string) (evidence : gmap string GateEvidence) (id : string)
  : option GateBlock :=
  match evidence !! id with
  | None => Some (mkGateBlock id BlockMissing "" "" "")
  | Some ev =>
      if Certifies ev targetSHA then None
      else if negb (Passed (ev_Result ev)) then
        Some (mkGateBlock id BlockFailed (ev_Result ev) (ev_TargetSHA ev) (ev_Detail ev))
      else if Stale ev targetSHA then
        Some (mkGateBlock id BlockStale (ev_Result ev) (ev_TargetSHA ev) "")
      else Some (mkGateBlock id BlockUnknownTarget (ev_Result ev) "" "")
  end.

Fixpoint judge_all (targetSHA : string) (evidence : gmap string GateEvidence)
    (required : list string) : list string * list GateBlock :=
  match required with
  | [] => ([], [])
  | id :: rest =>
      let '(sat, blocks) := judge_all targetSHA evidence rest in
      match judge targetSHA evidence id with
      | None => (id :: sat, blocks)
      | Some b => (sat, b :: blocks)
      end
  end.

Definition EvaluateProgression (policy : QAPolicy) (risk targetSHA : string)
    (evidence : gmap string GateEvidence) : ProgressionDecision :=
  let required := RequiredGates policy risk in
  match required with
  | [] => mkDecision true risk targetSHA required [] []
  | _ =>
      if blank targetSHA then
        mkDecision false risk targetSHA required []
          ((fun id => mkGateBlock id BlockUnknownTarget "" "" "") <$> required)
      else
        let '(sat, blocks) := judge_all targetSHA evidence required in
        mkDecision (match blocks with [] => true | _ => false end) risk targetSHA required sat blocks
  end.

Definition quoteOrBare `{GoTables} (s : string) : string :=
  if String.eqb s "unset" then s else Quote s.

(** * Required gates *)

Lemma fold_insert_set {A} (f : A -> bool) (g : A -> string) l (s : gset string) x :
  x ∈ fold_left (fun seen a => if f a then {[g a]} ∪ seen else seen) l s
  <-> x ∈ s \/ exists a, a ∈ l /\ f a = true /\ x = g a.
Proof.
  revert s. induction l as [|a l IH]; intros s; simpl.
  { split; [by left|]. intros [?|(a & Ha & _)]; [done|]. by apply elem_of_nil in Ha. }
  rewrite IH. setoid_rewrite elem_of_cons.
  destruct (f a) eqn:E; [rewrite elem_of_union, elem_of_singleton|].
  - split; [intros [[->|?]|(b & ? & ? & ?)]|intros [?|(b & [->|?] & ? & ?)]]; subst; eauto 8.
  - split; [intros [?|(b & ? & ? & ?)]|intros [?|(b & [->|?] & ? & ?)]]; subst; eauto 8; congruence.
Qed.

Lemma elem_of_required policy risk id :
  id ∈ RequiredGates policy risk
  <-> (exists d, d ∈ gateCatalogue /\ risk_Rank (gd_MinRisk d) <= risk_Rank risk /\ id = gd_ID d)
      \/ id ∈ RequireGates policy.
Proof.
  unfold RequiredGates, required_set. rewrite elem_of_sort_Strings, elem_of_elements.
  change (fun seen id => {[id]} ∪ seen) with
    (fun (seen : gset string) (id : string) => if true then {[id]} ∪ seen else seen).
  rewrite fold_insert_set, fold_insert_set. setoid_rewrite Z.leb_le. split.
  - intros [[[]%not_elem_of_empty|?]|(a & Ha & _ & ->)]; auto.
  - intros [?|?]; eauto 8.
Qed.

(** * The decision *)

Lemma judge_all_blocks target ev req :
  (judge_all target ev req).2 = [] <-> Forall (fun id => judge target ev id = None) req.
Proof.
  induction req as [|id req IH]; simpl; [by split|].
  destruct (judge_all target ev req) as [sat blocks]. simpl in IH.
  rewrite Forall_cons, <- IH. destruct (judge target ev id); simpl; [by split; [|intros [? _]]|by split; [|intros [_ ?]]].
Qed.

Lemma filter_everything {A} (P : A -> Prop) `{!forall x, Decision (P x)} (l : list A) :
  (forall x, P x) -> filter P l = l.
Proof. intros HP. induction l as [|x l IH]; [done|]. by rewrite filter_cons_True, IH. Qed.

Lemma judge_all_ids target ev req :
  gb_GateID <$> (judge_all target ev req).2
  = filter (fun id => false = true \/ judge target ev id <> None) req.
Proof.
  induction req as [|id req IH]; simpl; [done|].
  destruct (judge_all target ev req) as [sat blocks]. simpl in IH.
  destruct (judge target ev id) as [b|] eqn:E; csimpl.
  - rewrite filter_cons_True by (right; congruence). rewrite IH. f_equal. unfold judge in E.
    repeat split_match_in E; by simplify_eq.
  - by rewrite filter_cons_False by (intros [?|?]; congruence).
Qed.

Lemma judge_None target ev id :
  judge target ev id = None <-> exists e, ev !! id = Some e /\ Certifies e target = true.
Proof.
  unfold judge. destruct (ev !! id) as [e|] eqn:E.
  - destruct (Certifies e target) eqn:C; [by split; eauto|].
    split; [by repeat split_match|intros (e' & [= <-] & ?); congruence].
  - split; [done|]. by intros (e & ? & _).
Qed.

Lemma Certifies_spec e target :
  Certifies e target = true
  <-> ev_Result e = GatePass /\ ev_TargetSHA e = target /\ blank target = false.
Proof.
  unfold Certifies, Passed. destruct (String.eqb_spec (ev_Result e) GatePass) as [Hp|Hp]; simpl;
    [|split; [done|by intros [? _]]].
  destruct (blank (ev_TargetSHA e)) eqn:B1, (blank target) eqn:B2; simpl;
    try (split; [done|]; intros (_ & <- & ?); congruence).
  rewrite String.eqb_eq. tauto.
Qed.

(** Progression is allowed exactly when every required gate has a pass recorded for
    the revision in hand. *)
Lemma progression_allowed policy risk target ev :
  pd_Allowed (EvaluateProgression policy risk target ev) = true
  <-> forall id, id ∈ RequiredGates policy risk ->
      exists e, ev !! id = Some e /\ ev_Result e = GatePass /\ ev_TargetSHA e = target
                /\ blank target = false.
Proof.
  transitivity (Forall (fun id => blank target = false /\ judge target ev id = None)
                  (RequiredGates policy risk)).
  - unfold EvaluateProgression. destruct (RequiredGates policy risk) as [|r rs]; [by split|].
    destruct (blank target) eqn:B; [split; [done|]; by intros [[? _] _]%Forall_cons|].
    pose proof (judge_all_blocks target ev (r :: rs)) as Hj.
    destruct (judge_all target ev (r :: rs)) as [sat blocks]. simpl in *.
    destruct blocks as [|g blocks]; [split; [|done]; intros _|split; [done|]; intros Hf].
    + eapply Forall_impl; [by apply Hj|done].
    + exfalso. enough (g :: blocks = []) by done. apply Hj. eapply Forall_impl; [exact Hf|by intros ? [_ ?]].
  - rewrite Forall_forall. setoid_rewrite judge_None. setoid_rewrite Certifies_spec.
    split; intros Hf id Hid; specialize (Hf id Hid).
    + destruct Hf as (_ & e & ? & ? & ? & ?). eauto.
    + destruct Hf as (e & ? & ? & ? & ?). eauto 8.
Qed.

(** * The ledger *)

(** Merging keeps the worse verdict of one revision and drops verdicts of others. *)
Lemma merge_severity existing observed :
  ev_GateID existing <> "" -> ev_TargetSHA existing = ev_TargetSHA observed ->
  gate_severity (ev_Result (MergeEvidence existing observed))
  = Z.max (gate_severity (ev_Result existing)) (gate_severity (ev_Result observed)).
Proof.
  intros Hid Ht. unfold MergeEvidence. rewrite (proj2 (String.eqb_neq _ _) Hid), Ht, String.eqb_refl.
  simpl. split_match; lia.
Qed.

Lemma merge_target existing observed :
  ev_TargetSHA (MergeEvidence existing observed) = ev_TargetSHA observed.
Proof.
  unfold MergeEvidence. destruct (String.eqb (ev_GateID existing) ""); [done|].
  destruct (String.eqb_spec (ev_TargetSHA existing) (ev_TargetSHA observed)); simpl; [by split_match|done].
Qed.

Lemma merge_gate existing observed :
  ev_GateID observed <> "" -> ev_GateID (MergeEvidence existing observed) <> "".
Proof. intros Ho. unfold MergeEvidence. split_str; [done|]. by repeat split_match. Qed.

Lemma severity_pass r : gate_severity r <= 0 <-> r = GatePass.
Proof.
  unfold gate_severity. destruct (String.eqb_spec r GatePass) as [->|E]; [by split|].
  split; [|done]. repeat split_match; lia.
Qed.

Lemma merge_pass sha existing observed :
  ev_GateID existing <> "" ->
  ev_TargetSHA (MergeEvidence existing observed) = sha /\ ev_Result (MergeEvidence existing observed) = GatePass
  <-> (ev_TargetSHA observed = sha /\ ev_Result observed = GatePass)
      /\ (ev_TargetSHA existing = sha -> ev_Result existing = GatePass).
Proof.
  intros Hid. rewrite merge_target. destruct (decide (ev_TargetSHA existing = ev_TargetSHA observed)) as [Et|Et].
  - rewrite <- !severity_pass, merge_severity by done. rewrite Et. destruct (decide (ev_TargetSHA observed = sha)); [|tauto].
    split; [intros [_ ?]; split_and!; [done|lia|lia]|intros [[_ ?] Hx]; specialize (Hx ltac:(done)); split; [done|lia]].
  - unfold MergeEvidence. rewrite (proj2 (String.eqb_neq _ _) Hid), (proj2 (String.eqb_neq _ _) Et). simpl.
    split; [intros [<- ?]; tauto|tauto].
Qed.

(** The records of one gate, and the entry they leave. *)
Definition records_of (g : string) (evs : list GateEvidence) : list GateEvidence :=
  filter (fun e => ev_GateID e = g) evs.

Definition entry (l : list GateEvidence) : option GateEvidence :=
  match l with [] => None | e :: es => Some (fold_left MergeEvidence es e) end.

Lemma entry_snoc l e : entry (l ++ [e]) = Some (match entry l with None => e | Some x => MergeEvidence x e end).
Proof. destruct l as [|x l]; [done|]. simpl. by rewrite fold_left_app. Qed.

Lemma entry_gate g l x : g <> "" -> Forall (fun e => ev_GateID e = g) l -> entry l = Some x -> ev_GateID x <> "".
Proof.
  intros Hg. revert x. induction l as [|e l IH] using rev_ind; intros x Hl; [done|]. apply Forall_app in Hl as [Hl [He _]%Forall_cons].
  rewrite entry_snoc. intros [= <-]. destruct (entry l); [apply merge_gate|]; by rewrite He.
Qed.

Lemma ledger_entry g evs : fold_left record_evidence evs ∅ !! g = entry (records_of g evs).
Proof.
  unfold records_of. induction evs as [|e evs IH] using rev_ind; [done|].
  rewrite fold_left_app, filter_app. simpl. unfold record_evidence at 1. destruct (decide (ev_GateID e = g)) as [<-|Hg].
  - rewrite lookup_insert_eq, filter_cons_True by done. rewrite filter_nil, entry_snoc, IH. by destruct (entry _).
  - by rewrite lookup_insert_ne, filter_cons_False, filter_nil, app_nil_r by done.
Qed.

(** The records since the gate was last judged on another revision are of this one, there is
    one, and they all pass. *)
Definition passed_throughout (sha : string) (l : list GateEvidence) : Prop :=
  exists earlier since, l = earlier ++ since /\ since <> []
    /\ Forall (fun e => ev_TargetSHA e = sha /\ ev_Result e = GatePass) since
    /\ (forall e, last earlier = Some e -> ev_TargetSHA e <> sha).

Lemma passed_snoc sha l e :
  passed_throughout sha (l ++ [e])
  <-> (ev_TargetSHA e = sha /\ ev_Result e = GatePass)
      /\ (forall x, last l = Some x -> ev_TargetSHA x = sha -> passed_throughout sha l).
Proof.
  split.
  - intros (earlier & since & E & Hn & Hf & Hl). destruct since as [|s since] using rev_ind; [done|clear IHsince].
    rewrite app_assoc in E. apply app_inj_tail in E as [-> ->]. apply Forall_app in Hf as [Hf [He _]%Forall_cons]. split; [done|].
    intros x Hx Hs. destruct since as [|y since]; [rewrite app_nil_r in Hx; by destruct (Hl x Hx)|]. by exists earlier, (y :: since).
  - intros [He Hx]. destruct (last l) as [x|] eqn:El; [destruct (decide (ev_TargetSHA x = sha)) as [Hs|Hs]|].
    + destruct (Hx x eq_refl Hs) as (earlier & since & -> & Hn & Hf & Hl). exists earlier, (since ++ [e]).
      rewrite app_assoc. split_and!; [done|by destruct since|apply Forall_app; by rewrite Forall_singleton|done].
    + exists l, [e]. split_and!; [done|done|by apply Forall_singleton|]. intros y. rewrite El. by intros [= <-].
    + apply last_None in El as ->. exists [], [e]. split_and!; [done|done|by apply Forall_singleton|done].
Qed.

Lemma entry_target l x : entry l = Some x -> exists e, last l = Some e /\ ev_TargetSHA e = ev_TargetSHA x.
Proof.
  destruct l as [|e l _] using rev_ind; [done|]. rewrite entry_snoc, last_snoc. intros [= <-]. exists e. split; [done|].
  destruct (entry l); [by rewrite merge_target|done].
Qed.

Lemma entry_passed g sha l :
  g <> "" -> Forall (fun e => ev_GateID e = g) l ->
  (exists x, entry l = Some x /\ ev_TargetSHA x = sha /\ ev_Result x = GatePass) <-> passed_throughout sha l.
Proof.
  intros Hg. induction l as [|e l IH] using rev_ind; intros Hl.
  { split; [by intros (x & ? & _)|]. intros (earlier & since & E & Hn & _). symmetry in E. by apply app_nil in E as [_ ->]. }
  apply Forall_app in Hl as [Hl _]. specialize (IH Hl). rewrite passed_snoc. setoid_rewrite <- IH. rewrite entry_snoc.
  destruct (entry l) as [x|] eqn:Ex.
  - destruct (entry_target l x Ex) as (y & Hy & Ey). rewrite Hy. split.
    + intros (z & [= <-] & Hz). apply merge_pass in Hz as [He Hs]; [|by eapply entry_gate]. split; [done|].
      intros ? [= <-] Hsha. exists x. split; [done|]. split; [congruence|]. apply Hs. congruence.
    + intros [He Hs]. eexists. split; [done|]. apply merge_pass; [by eapply entry_gate|]. split; [done|].
      intros Hsha. destruct (Hs y eq_refl) as (? & [= <-] & _ & ?); congruence.
  - assert (l = []) as -> by (destruct l as [|z l]; [done|by simpl in Ex]). split; [intros (z & [= <-] & ?); by split; [done|]|].
    intros [He _]. eauto.
Qed.

Lemma allowed_records policy risk sha evs :
  "" ∉ RequireGates policy ->
  pd_Allowed (EvaluateProgression policy risk sha (fold_left record_evidence evs ∅)) = true
  <-> forall g, g ∈ RequiredGates policy risk -> blank sha = false /\ passed_throughout sha (records_of g evs).
Proof.
  intros Hnm. rewrite progression_allowed. setoid_rewrite ledger_entry.
  assert (Hnamed : forall g, g ∈ RequiredGates policy risk -> g <> "").
  { intros g Hg ->. apply elem_of_required in Hg as [(d & Hd & _ & E)|Hg]; [|done].
    by repeat (apply elem_of_cons in Hd as [->|Hd]; [done|]); apply elem_of_nil in Hd. }
  assert (Hp : forall g, g ∈ RequiredGates policy risk -> (exists x, entry (records_of g evs) = Some x /\ ev_TargetSHA x = sha /\ ev_Result x = GatePass)
    <-> passed_throughout sha (records_of g evs)).
  { intros g Hg. apply (entry_passed g); [by apply Hnamed|]. apply Forall_forall. by intros e [? _]%list_elem_of_filter. }
  split; intros Hall g Hg; specialize (Hall g Hg); specialize (Hp g Hg).
  - destruct Hall as (x & ? & ? & ? & ?). split; [done|]. apply Hp. eauto.
  - destruct Hall as [? (x & ? & ? & ?)%Hp]. eauto.
Qed.

Lemma failure_kept sha before e after :
  ev_TargetSHA e = sha -> ev_Result e <> GatePass -> Forall (fun x => ev_TargetSHA x = sha) after ->
  ~ passed_throughout sha (before ++ e :: after).
Proof.
  intros He Hf. induction after as [|x after IH] using rev_ind; intros Ha.
  - intros [[_ ?] _]%passed_snoc. done.
  - apply Forall_app in Ha as [Ha [Hx _]%Forall_cons]. rewrite app_comm_cons, app_assoc. intros [_ Hp]%passed_snoc.
    destruct (last (before ++ e :: after)) as [y|] eqn:Ey; [|by apply last_None, app_nil in Ey as [_ ?]].
    apply (IH Ha), (Hp y eq_refl). rewrite last_app_cons in Ey. apply last_Some_elem_of in Ey.
    apply elem_of_cons in Ey as [->|Hy]; [done|]. by apply (proj1 (Forall_forall _ _) Ha y).
Qed.

(** * Theorems *)

(** The progression decision is exactly the evidence: it is allowed if and only if
    every gate the risk class or the policy makes mandatory has a recorded pass for the
    revision in hand, and otherwise it lists every mandatory gate that does not, in
    order; a riskier class or a longer policy never removes a mandatory gate. *)
Theorem progression_exact policy risk target ev :
  let d := EvaluateProgression policy risk target ev in
  (pd_Allowed d = true
   <-> forall id, id ∈ RequiredGates policy risk ->
       exists e, ev !! id = Some e /\ ev_Result e = GatePass /\ ev_TargetSHA e = target
                 /\ blank target = false)
  /\ gb_GateID <$> pd_Blocking d
     = filter (fun id => blank target = true \/ judge target ev id <> None) (RequiredGates policy risk)
  /\ (forall policy' risk', RequireGates policy ⊆ RequireGates policy' ->
      risk_Rank risk <= risk_Rank risk' ->
      RequiredGates policy risk ⊆ RequiredGates policy' risk').
Proof.
  intros d. split; [apply progression_allowed|]. split.
  - unfold d, EvaluateProgression. destruct (RequiredGates policy risk) as [|r rs] eqn:Er; [done|].
    rewrite <- Er. clear Er. destruct (blank target) eqn:B; simpl.
    + rewrite <- list_fmap_compose, filter_everything by (by left). apply list_fmap_id.
    + transitivity (gb_GateID <$> (judge_all target ev (RequiredGates policy risk)).2).
      { by destruct (judge_all target ev (RequiredGates policy risk)). }
      apply judge_all_ids.
  - intros policy' risk' Hp Hr id. rewrite !elem_of_required.
    intros [(g & ? & ? & ->)|?]; [left; exists g; eauto with lia|right; auto].
Qed.

(** (C15) What licenses a revision is a whole stretch of passes: progression is allowed
    exactly when every mandatory gate, a gate with a name, was judged on this revision since
    it was last judged on another, every record since then being a pass.  So a verdict
    other than a pass stands against its revision whatever is recorded afterwards, for any
    gate and in any order, until that gate is judged on another revision. *)
Theorem failure_stands policy risk sha evs :
  "" ∉ RequireGates policy ->
  let ledger := fold_left record_evidence evs ∅ in
  (pd_Allowed (EvaluateProgression policy risk sha ledger) = true
   <-> forall g, g ∈ RequiredGates policy risk -> blank sha = false /\ passed_throughout sha (records_of g evs))
  /\ (forall before e after, evs = before ++ e :: after ->
        ev_GateID e ∈ RequiredGates policy risk -> ev_TargetSHA e = sha -> ev_Result e <> GatePass ->
        (forall e', e' ∈ after -> ev_GateID e' = ev_GateID e -> ev_TargetSHA e' = sha) ->
        pd_Allowed (EvaluateProgression policy risk sha ledger) = false).
Proof.
  intros Hnm ledger. assert (Hex := allowed_records policy risk sha evs Hnm). split; [done|].
  intros before e after -> Hreq Hsha Hf Hafter. apply not_true_is_false. intros Ha.
  destruct (proj1 Hex Ha _ Hreq) as [_ Hp]. revert Hp. unfold records_of. rewrite filter_app, filter_cons_True by done.
  apply failure_kept; [done|done|]. apply Forall_forall. intros e' [Hg He]%list_elem_of_filter. by apply Hafter.
Qed.

(** A failed build of revision c0ffee, then a claimed pass of the same revision. *)
Definition failed_build : GateEvidence :=
  mkGateEvidence GateBuild "t" "make" "" GateFail "c0ffee" [] "" "".
Definition claimed_pass : GateEvidence :=
  mkGateEvidence GateBuild "t" "make" "" GatePass "c0ffee" [] "" "".
Definition another_pass : GateEvidence :=
  mkGateEvidence GateBuild "t" "make" "" GatePass "decaf0" [] "" "".

Lemma failure_stands_witness :
  pd_Allowed (EvaluateProgression (mkQAPolicy []) RiskQ1 "c0ffee"
    (fold_left record_evidence [failed_build; claimed_pass] ∅)) = false.
Proof.
  apply (failure_stands (mkQAPolicy []) RiskQ1 "c0ffee" [failed_build; claimed_pass] ltac:(set_solver)) with [] failed_build [claimed_pass].
  - done.
  - apply elem_of_required. left. eexists. split; [left|]. split; [vm_compute; congruence|done].
  - done.
  - done.
  - intros e' He _. apply list_elem_of_singleton in He. by subst.
Defined.

(** One verdict per gate is kept, so a verdict on another revision in between makes the
    ledger forget the failure, and a pass claimed for the failed revision then licenses it. *)
Theorem detour_forgets_failure :
  let tests := mkGateEvidence GateUnitTest "t" "make" "" GatePass "c0ffee" [] "" "" in
  let allowed evs := pd_Allowed (EvaluateProgression (mkQAPolicy []) RiskQ1 "c0ffee" (fold_left record_evidence evs ∅)) in
  allowed [tests; failed_build; claimed_pass] = false
  /\ allowed [tests; failed_build; another_pass; claimed_pass] = true.
Proof. split; vm_compute; reflexivity. Qed.
