(* ===== verification/RunPlan.v ===== *)
(** The work plan (internal/unattended/plan.go): bands, tasks, plans, the validation
    that refuses an unexecutable plan, and the depth-first search behind its cycle
    check, which always ends within its fuel and refuses exactly the plans whose
    dependencies are circular.  A validated plan has unique task names, known
    dependencies and a well-founded dependency order. *)
From S2P Require Import Prelude GoStd RunQA.

(** * Bands *)

Definition BandPrimary : string := "primary".
Definition BandDependency : string := "dependency".
Definition BandValidation : string := "validation".
Definition BandAssurance : string := "assurance".
Definition BandEvidence : string := "evidence".
Definition BandDocumentation : string := "documentation".
Definition BandNextStage : string := "next-stage".

Definition bandRank (b : string) : option Z :=
  if String.eqb b BandPrimary then Some 0
  else if String.eqb b BandDependency then Some 1
  else if String.eqb b BandValidation then Some 2
  else if String.eqb b BandAssurance then Some 3
  else if String.eqb b BandEvidence then Some 4
  else if String.eqb b BandDocumentation then Some 5
  else if String.eqb b BandNextStage then Some 6
  else None.

Definition band_Valid (b : string) : bool :=
  match bandRank b with Some _ => true | None => false end.

Definition band_Rank (b : string) : Z := default 7 (bandRank b).

(** * Tasks and plans *)

Record Task : Type := mkTask {
  tk_ID : string;
  tk_Title : string;
  tk_Band : string;
  tk_Argv : list string;
  tk_Dir : string;
  tk_Needs : list string;
  tk_RequiresChecks : list string;
  tk_Mutates : bool;
  tk_TimeoutSeconds : Z;
  tk_MaxAttempts : Z;
  tk_ResultPath : string;
  tk_MaxResumes : Z;
  tk_DeliveryStatus : string;
  tk_CompletionGate : string;
  tk_Phase : string;
  tk_QAGate : string
}.

Record Plan : Type := mkPlan {
  pl_RunID : string;
  pl_Risk : string;
  pl_Tasks : list Task
}.

(** * The cycle search *)

Inductive Color : Type := white | grey | black.

#[export] Instance Color_eq_dec : EqDecision Color.
Proof. solve_decision. Defined.

(** The state the recursive closure mutates. *)
Record Walk : Type := mkWalk {
  wk_color : gmap string Color;
  wk_stack : list string
}.

Definition color_of (st : Walk) (id : string) : Color := default white (wk_color st !! id).

Section search.
Context (needs : gmap string (list string)).

(** The loop over needs[id]: a non-empty string is a cycle found below, None that the
    recursion ran out of fuel. *)
Fixpoint walk_each (rec : string -> Walk -> option (string * Walk)) (nexts : list string) (st : Walk)
  : option (string * Walk) :=
  match nexts with
  | [] => Some ("", st)
  | next :: nexts' =>
      match needs !! next with
      | None => walk_each rec nexts' st
      | Some _ =>
          match color_of st next with
          | grey => Some (join_with " -> " (wk_stack st ++ [next]), st)
          | white =>
              match rec next st with
              | Some (c, st') =>
                  if String.eqb c "" then walk_each rec nexts' st' else Some (c, st')
              | None => None
              end
          | black => walk_each rec nexts' st
          end
      end
  end.

Fixpoint walk (fuel : nat) (id : string) (st : Walk) : option (string * Walk) :=
  match fuel with
  | O => None
  | S f =>
      let st := mkWalk (<[id := grey]> (wk_color st)) (wk_stack st ++ [id]) in
      match walk_each (walk f) (default [] (needs !! id)) st with
      | Some (c, st') =>
          if String.eqb c "" then
            Some ("", mkWalk (<[id := black]> (wk_color st')) (removelast (wk_stack st')))
          else Some (c, st')
      | None => None
      end
  end.

(** The outer loop over the sorted identifiers.  A walk is at most as deep as there
    are tasks, so that many calls are fuel enough. *)
Fixpoint walk_all (ids : list string) (st : Walk) : option string :=
  match ids with
  | [] => Some ""
  | id :: ids' =>
      match color_of st id with
      | white =>
          match walk (S (size needs)) id st with
          | Some (c, st') => if String.eqb c "" then walk_all ids' st' else Some c
          | None => None
          end
      | _ => walk_all ids' st
      end
  end.

End search.

Definition needs_of (tasks : list Task) : gmap string (list string) :=
  fold_left (fun m t => <[tk_ID t := tk_Needs t]> m) tasks ∅.

(** findTaskCycle: a readable cycle, or the empty string.  The fuel never runs out
    (walk_all_total). *)
Definition findTaskCycle (tasks : list Task) : string :=
  default "" (walk_all (needs_of tasks) (sort_Strings (tk_ID <$> tasks)) (mkWalk ∅ [])).

(** * Validation *)

Section validate.
Context `{GoTables}.

Definition ErrPlanInvalid : error := errmsg "unattended: work plan is invalid" [].

Definition joinRiskClasses : string := join_with ", " RiskClasses.

Definition declared_risk (r : string) : string := if blank r then "unset" else r.

(** The first loop: identifiers, commands and bands, with the identifiers seen. *)
Fixpoint task_problems (i : Z) (seen : gset string) (tasks : list Task)
  : list string * gset string :=
  match tasks with
  | [] => ([], seen)
  | t :: tasks' =>
      let '(p1, seen1) :=
        if blank (tk_ID t) then (["task[" +:+ Itoa i +:+ "] has no id"], seen)
        else if bool_decide (tk_ID t ∈ seen) then
          (["task[" +:+ Itoa i +:+ "] id " +:+ Quote (tk_ID t) +:+ " is duplicated"], seen)
        else ([], {[tk_ID t]} ∪ seen) in
      let p2 := match tk_Argv t with
                | [] => ["task " +:+ Quote (tk_ID t) +:+ " has no argv"]
                | _ => []
                end in
      let p3 := if band_Valid (tk_Band t) then []
                else ["task " +:+ Quote (tk_ID t) +:+ " band " +:+ Quote (tk_Band t)
                      +:+ " is not a declared band"] in
      let '(ps, seen2) := task_problems (i + 1) seen1 tasks' in
      (p1 ++ p2 ++ p3 ++ ps, seen2)
  end.

(** The second loop: needs that name the task itself or nothing in the plan. *)
Definition need_problems (seen : gset string) (t : Task) : list string :=
  tk_Needs t ≫= fun need =>
    if String.eqb need (tk_ID t) then ["task " +:+ Quote (tk_ID t) +:+ " needs itself"]
    else if bool_decide (need ∈ seen) then []
    else ["task " +:+ Quote (tk_ID t) +:+ " needs " +:+ Quote need +:+ ", which is not in this plan"].

Definition plan_problems (p : Plan) : list string :=
  let p0 := if risk_Valid (pl_Risk p) then []
            else ["risk " +:+ quoteOrBare (declared_risk (pl_Risk p))
                  +:+ " is not a declared class (" +:+ joinRiskClasses +:+ ")"] in
  let '(p1, seen) := task_problems 0 ∅ (pl_Tasks p) in
  let p2 := pl_Tasks p ≫= need_problems seen in
  let cycle := findTaskCycle (pl_Tasks p) in
  let p3 := if String.eqb cycle "" then [] else ["task dependencies contain a cycle: " +:+ cycle] in
  p0 ++ p1 ++ p2 ++ p3.

Definition plan_Validate (p : Plan) : option error :=
  match plan_problems p with
  | [] => None
  | ps => Some (Errorf "%w: %s" [join_with "; " ps] [ErrPlanInvalid])
  end.

End validate.

Section graph.
Context (needs : gmap string (list string)).

(** x needs y, and y is a task of the plan. *)
Definition edge (x y : string) : Prop :=
  exists ns, needs !! x = Some ns /\ y ∈ ns /\ is_Some (needs !! y).

(** Following needs from x ends. *)
Definition grounded (x : string) : Prop := Acc (fun y x => edge x y) x.

(** A non-empty chain of needs from x back to itself. *)
Definition circular (x : string) : Prop := tc edge x x.

Lemma grounded_not_circular x : grounded x -> ~ circular x.
Proof.
  intros Hg. induction Hg as [x _ IH]. intros Hc. inversion Hc as [? ? He|? y ? He Ht]; subst.
  - exact (IH x He Hc).
  - apply (IH y He). by apply tc_r with x.
Qed.

(** The stack is a chain of needs. *)
Fixpoint chain (l : list string) : Prop :=
  match l with
  | x :: ((y :: _) as l') => edge x y /\ chain l'
  | _ => True
  end.

Lemma chain_snoc l x y : chain (l ++ [x]) -> edge x y -> chain ((l ++ [x]) ++ [y]).
Proof.
  induction l as [|a [|b l] IH]; simpl in *; [done|by intros [? ?]|].
  intros [? ?] ?. split; [done|]. by apply IH.
Qed.

Lemma chain_push l y : chain l -> (forall s t, l = s ++ [t] -> edge t y) -> chain (l ++ [y]).
Proof.
  induction l as [|t s _] using rev_ind; [done|]. intros Hc He. apply chain_snoc; [done|]. by apply (He s).
Qed.

Lemma chain_app_r l1 l2 : chain (l1 ++ l2) -> chain l2.
Proof.
  induction l1 as [|a l1 IH]; simpl; [done|]. destruct (l1 ++ l2) eqn:E; [by destruct l1; simplify_eq/=|].
  intros [_ ?]. by apply IH.
Qed.

Lemma chain_reach x l y : chain (x :: l ++ [y]) -> tc edge x y.
Proof.
  revert x. induction l as [|z l IH]; intros x; simpl; [intros [? _]; by constructor|].
  intros [He Hc]. eapply tc_l; [exact He|]. by apply IH.
Qed.

(** A grey successor of the top of the stack closes a circle. *)
Lemma chain_closes s x y : chain (s ++ [x]) -> y ∈ s ++ [x] -> edge x y -> circular y.
Proof.
  intros Hc Hy He. apply list_elem_of_split in Hy as (l1 & l2 & E).
  assert (Hc' := chain_snoc _ _ _ Hc He). rewrite E, <- app_assoc in Hc'.
  apply chain_app_r in Hc'. by apply chain_reach with l2.
Qed.

(** * The invariant of the search *)

Record Inv (st : Walk) : Prop := {
  inv_black x : color_of st x = black -> grounded x;
  inv_grey x : color_of st x = grey <-> x ∈ wk_stack st;
  inv_chain : chain (wk_stack st)
}.

(** What a finished walk leaves alone: the stack, and every colour but white. *)
Definition extends (st st' : Walk) : Prop :=
  wk_stack st' = wk_stack st
  /\ forall x, color_of st x <> white -> color_of st' x = color_of st x.

Lemma extends_refl st : extends st st.
Proof. by split. Qed.

Lemma extends_trans st1 st2 st3 : extends st1 st2 -> extends st2 st3 -> extends st1 st3.
Proof.
  intros [Hs Hc] [Hs' Hc']. split; [congruence|]. intros x Hx. rewrite Hc'; rewrite Hc; done.
Qed.

(** The tasks still white bound the depth that is left. *)
Definition whites (st : Walk) : gset string := filter (fun x => color_of st x = white) (dom needs).

Lemma whites_mono st st' :
  (forall x, color_of st x <> white -> color_of st' x <> white) -> whites st' ⊆ whites st.
Proof.
  intros H x. unfold whites. rewrite !elem_of_filter. intros [Hw Hd]. split; [|done].
  destruct (decide (color_of st x = white)) as [E|E]; [done|]. by destruct (H x E).
Qed.

Lemma extends_whites st st' : extends st st' -> whites st' ⊆ whites st.
Proof. intros [_ Hc]. apply whites_mono. intros x Hx. by rewrite Hc. Qed.

(** The circle found, or the state a silent walk leaves. *)
Definition walk_post (P : Walk -> Prop) (r : option (string * Walk)) : Prop :=
  match r with
  | None => False
  | Some (c, st') => (c = "" /\ P st') \/ (c <> "" /\ exists z, circular z)
  end.

(** The contract of the recursive call. *)
Definition walks (fuel : nat) (rec : string -> Walk -> option (string * Walk)) : Prop :=
  forall x st, Inv st -> color_of st x = white -> is_Some (needs !! x) ->
  (size (whites st) <= fuel)%nat ->
  (forall s t, wk_stack st = s ++ [t] -> edge t x) ->
  walk_post (fun st' => Inv st' /\ extends st st' /\ color_of st' x = black) (rec x st).

Lemma join_arrow_nonempty s t y : join_with " -> " ((s ++ [t]) ++ [y]) <> "".
Proof. destruct s as [|a s]; simpl; [by destruct t|]. destruct ((s ++ [t]) ++ [y]) eqn:E; [by destruct s|]. by destruct a. Qed.

(** What the loop over the needs of a task establishes. *)
Definition each_post (nexts : list string) (st : Walk) : option (string * Walk) -> Prop :=
  walk_post (fun st' => Inv st' /\ extends st st'
    /\ forall y, y ∈ nexts -> is_Some (needs !! y) -> color_of st' y = black).

(** One settled need more. *)
Lemma each_post_cons y nexts st st1 r :
  extends st st1 -> (is_Some (needs !! y) -> color_of st1 y = black) ->
  each_post nexts st1 r -> each_post (y :: nexts) st r.
Proof.
  intros Hx Hy. unfold each_post, walk_post. destruct r as [[c st']|]; [|done].
  intros [(-> & Hi & Hx' & Hb)|?]; [left|by right]. split; [done|]. split; [done|].
  split; [by eapply extends_trans|]. intros z [->|Hz]%elem_of_cons Hk; [|auto].
  rewrite (proj2 Hx'), Hy; [done|done|]. by rewrite Hy.
Qed.

Lemma walk_each_spec fuel rec x s :
  walks fuel rec -> forall nexts st, Inv st -> wk_stack st = s ++ [x] ->
  (size (whites st) <= fuel)%nat ->
  (forall y, y ∈ nexts -> is_Some (needs !! y) -> edge x y) ->
  each_post nexts st (walk_each needs rec nexts st).
Proof.
  intros Hrec. induction nexts as [|y nexts IH]; intros st Hi Hs Hw He; simpl.
  { left. split; [done|]. split; [done|]. split; [apply extends_refl|]. by intros y Hy%elem_of_nil. }
  assert (He' : forall z, z ∈ nexts -> is_Some (needs !! z) -> edge x z).
  { intros z Hz. apply He. by right. }
  destruct (needs !! y) as [ns|] eqn:Ey.
  2:{ apply each_post_cons with st; [apply extends_refl|rewrite Ey; by intros [? ?]|by apply IH]. }
  assert (Hey : edge x y) by (apply He; [left|by eauto]).
  destruct (color_of st y) eqn:Ec.
  - assert (Hr : walk_post (fun st' => Inv st' /\ extends st st' /\ color_of st' y = black) (rec y st)).
    { apply Hrec; eauto. intros s0 t0 E. rewrite Hs in E. by apply app_inj_tail in E as [_ <-]. }
    destruct (rec y st) as [[c st1]|]; [|done].
    destruct Hr as [(-> & Hi1 & Hx1 & Hb1)|[Hne Hz]]; simpl.
    + apply each_post_cons with st1; [done|done|]. apply IH; [done|by rewrite (proj1 Hx1)| |done].
      etrans; [|exact Hw]. apply subseteq_size, extends_whites, Hx1.
    + rewrite (proj2 (String.eqb_neq _ _) Hne). by right.
  - right. rewrite Hs. split; [apply join_arrow_nonempty|]. exists y.
    apply chain_closes with s x; [by rewrite <- Hs; apply inv_chain|rewrite <- Hs; by apply inv_grey|done].
  - apply each_post_cons with st; [apply extends_refl|done|by apply IH].
Qed.

(** * A walk *)

Lemma color_insert st x c y s :
  color_of (mkWalk (<[x := c]> (wk_color st)) s) y = if decide (x = y) then c else color_of st y.
Proof.
  unfold color_of. simpl. destruct (decide (x = y)) as [->|E]; [by rewrite lookup_insert_eq|].
  by rewrite lookup_insert_ne.
Qed.

Definition push (x : string) (st : Walk) : Walk :=
  mkWalk (<[x := grey]> (wk_color st)) (wk_stack st ++ [x]).

Lemma push_Inv x st :
  Inv st -> color_of st x = white -> (forall s t, wk_stack st = s ++ [t] -> edge t x) -> Inv (push x st).
Proof.
  intros [Hb Hg Hc] Hw He. split.
  - intros y. unfold push. rewrite color_insert. case_decide; [done|]. apply Hb.
  - intros y. unfold push. rewrite color_insert. simpl. rewrite elem_of_app, list_elem_of_singleton, <- Hg.
    case_decide as E; [subst; by split; [auto|]|]. split; [by left|]. by intros [?|?].
  - by apply chain_push.
Qed.

Lemma push_whites x st :
  color_of st x = white -> is_Some (needs !! x) ->
  (size (whites (push x st)) < size (whites st))%nat.
Proof.
  intros Hw Hk. apply subset_size. split.
  - apply whites_mono. intros y Hy. unfold push. rewrite color_insert. by case_decide.
  - intros Hs. specialize (Hs x). unfold whites in Hs. rewrite !elem_of_filter, elem_of_dom in Hs.
    destruct Hs as [Hs _]; [by split|]. unfold push in Hs. rewrite color_insert in Hs. by case_decide.
Qed.

Definition pop (x : string) (st : Walk) : Walk :=
  mkWalk (<[x := black]> (wk_color st)) (removelast (wk_stack st)).

Lemma walk_spec fuel : walks fuel (walk needs (S fuel)).
Proof.
  induction fuel as [fuel IH] using lt_wf_ind. intros x st Hi Hw Hk Hf He.
  assert (Hp := push_whites x st Hw Hk). simpl. fold (push x st).
  assert (Hpre : each_post (default [] (needs !! x)) (push x st)
                   (walk_each needs (walk needs fuel) (default [] (needs !! x)) (push x st))).
  { destruct fuel as [|f]; [lia|]. apply walk_each_spec with (fuel := f) (x := x) (s := wk_stack st); [apply IH; lia| |done|lia|].
    - by apply push_Inv.
    - intros y Hy Hky. destruct Hk as [ns Hk]. rewrite Hk in Hy. by exists ns. }
  destruct (walk_each _ _ _ _) as [[c st']|]; [|done].
  destruct Hpre as [(-> & Hi' & [Hs' Hc'] & Hb)|[Hne Hz]]; simpl;
    [left|rewrite (proj2 (String.eqb_neq _ _) Hne); by right].
  split; [done|]. fold (pop x st'). assert (Hx' : color_of st' x = grey).
  { rewrite Hc'; unfold push; rewrite color_insert; by rewrite decide_True. }
  assert (Hpop : forall y, color_of (pop x st') y = if decide (x = y) then black else color_of st' y).
  { intros y. apply color_insert. }
  assert (Hst : wk_stack (pop x st') = wk_stack st).
  { simpl. rewrite Hs'. simpl. apply removelast_last. }
  assert (Hold : forall y, color_of st y <> white -> x <> y -> color_of st' y = color_of st y).
  { intros y Hy Hxy. rewrite Hc'; unfold push; rewrite color_insert; by rewrite decide_False. }
  split; [|split; [split; [done|]|by rewrite Hpop, decide_True]].
  - split.
    + intros y. rewrite Hpop. case_decide as E; [intros _; subst y|apply Hi'].
      constructor. intros y (ns & Hn & Hy & Hky). apply Hi'. apply Hb; [by rewrite Hn|done].
    + intros y. rewrite Hpop, Hst. case_decide as E.
      * subst. split; [done|]. intros Hg. apply Hi in Hg. congruence.
      * rewrite (inv_grey _ Hi'), Hs'. simpl. rewrite elem_of_app, list_elem_of_singleton.
        split; [intros [?|?]; congruence|by left].
    + rewrite Hst. apply Hi.
  - intros y Hy. rewrite Hpop. case_decide as E; [congruence|by apply Hold].
Qed.

(** * The whole search *)

Lemma whites_le st : (size (whites st) <= size needs)%nat.
Proof.
  rewrite <- size_dom. apply subseteq_size. intros x. unfold whites. by rewrite elem_of_filter; intros [_ ?].
Qed.

Lemma walk_all_spec ids st :
  Inv st -> wk_stack st = [] -> (forall id, id ∈ ids -> is_Some (needs !! id)) ->
  exists c, walk_all needs ids st = Some c
  /\ ((c = "" /\ forall id, id ∈ ids -> grounded id) \/ (c <> "" /\ exists z, circular z)).
Proof.
  revert st. induction ids as [|id ids IH]; intros st Hi Hs Hk; cbn [walk_all].
  { eexists. split; [done|]. left. split; [done|]. by intros id Hid%elem_of_nil. }
  assert (Hk' : forall z, z ∈ ids -> is_Some (needs !! z)) by (intros z Hz; apply Hk; by right).
  assert (Hcons : forall st', Inv st' -> wk_stack st' = [] -> grounded id ->
    exists c, walk_all needs ids st' = Some c
    /\ ((c = "" /\ forall z, z ∈ id :: ids -> grounded z) \/ (c <> "" /\ exists z, circular z))).
  { intros st' Hi' Hs' Hg. destruct (IH st' Hi' Hs' Hk') as (c & Hc & Hr). exists c. split; [done|].
    destruct Hr as [[-> Hr]|?]; [left|by right]. split; [done|]. by intros z [->|?]%elem_of_cons; [|apply Hr]. }
  destruct (color_of st id) eqn:E.
  - assert (Hw : walk_post (fun st' => Inv st' /\ extends st st' /\ color_of st' id = black)
                  (walk needs (S (size needs)) id st)).
    { apply walk_spec; [done|done|apply Hk; left|apply whites_le|]. intros s t. rewrite Hs. by destruct s. }
    destruct (walk needs (S (size needs)) id st) as [[c st']|]; [|done].
    destruct Hw as [(-> & Hi' & [Hs' _] & Hb)|[Hne Hz]].
    + apply Hcons; [done|by rewrite Hs'|by apply Hi'].
    + rewrite (proj2 (String.eqb_neq _ _) Hne). eauto.
  - apply Hi in E. rewrite Hs in E. by apply elem_of_nil in E.
  - apply Hcons; [done|done|by apply Hi].
Qed.

Lemma Inv_empty : Inv (mkWalk ∅ []).
Proof.
  split; [by intros x; unfold color_of; simpl; rewrite lookup_empty| |done].
  intros x. unfold color_of. simpl. rewrite lookup_empty. split; [done|]. by intros ?%elem_of_nil.
Qed.

Lemma circular_known x : circular x -> is_Some (needs !! x).
Proof. intros Hc. inversion Hc as [? ? (ns & ? & _)|? ? ? (ns & ? & _)]; eauto. Qed.

End graph.

(** * The dependency graph of a plan *)

Lemma needs_of_snoc tasks t : needs_of (tasks ++ [t]) = <[tk_ID t := tk_Needs t]> (needs_of tasks).
Proof. unfold needs_of. by rewrite fold_left_app. Qed.

Lemma needs_of_known tasks id : is_Some (needs_of tasks !! id) <-> id ∈ tk_ID <$> tasks.
Proof.
  induction tasks as [|t tasks IH] using rev_ind.
  { split; [by intros [? ?]|by intros ?%elem_of_nil]. }
  rewrite needs_of_snoc, fmap_app, elem_of_app, lookup_insert_is_Some', IH.
  change (tk_ID <$> [t]) with [tk_ID t]. rewrite list_elem_of_singleton.
  split; [intros [?|?]; [right|left]; done|intros [?|?]; [right|left]; done].
Qed.

Lemma needs_of_task tasks t :
  NoDup (tk_ID <$> tasks) -> t ∈ tasks -> needs_of tasks !! tk_ID t = Some (tk_Needs t).
Proof.
  induction tasks as [|u tasks IH] using rev_ind; [by intros _ ?%elem_of_nil|].
  rewrite needs_of_snoc, fmap_app. intros (Hn & Hd & _)%NoDup_app.
  intros [Ht| ->%list_elem_of_singleton]%elem_of_app; [|by rewrite lookup_insert_eq].
  rewrite lookup_insert_ne; [by apply IH|]. intros E.
  apply (Hd (tk_ID t)); [by apply list_elem_of_fmap_2|]. rewrite <- E. left.
Qed.

Lemma cycle_search tasks :
  is_Some (walk_all (needs_of tasks) (sort_Strings (tk_ID <$> tasks)) (mkWalk ∅ []))
  /\ (findTaskCycle tasks = "" <-> forall id, ~ circular (needs_of tasks) id)
  /\ (findTaskCycle tasks = "" <-> forall id, id ∈ tk_ID <$> tasks -> grounded (needs_of tasks) id).
Proof.
  destruct (walk_all_spec (needs_of tasks) (sort_Strings (tk_ID <$> tasks)) (mkWalk ∅ []))
    as (c & Hc & Hr); [apply Inv_empty|done| |].
  { intros id. by rewrite elem_of_sort_Strings, needs_of_known. }
  unfold findTaskCycle. rewrite Hc. simpl. setoid_rewrite elem_of_sort_Strings in Hr.
  split; [by eauto|]. destruct Hr as [[-> Hg]|[Hne [z Hz]]].
  - split; split; try done. intros _ id Hcirc.
    assert (Hk := circular_known _ _ Hcirc). rewrite needs_of_known in Hk.
    exact (grounded_not_circular _ _ (Hg id Hk) Hcirc).
  - split; (split; [done|]); intros Hf; exfalso; [by eapply Hf|].
    apply (grounded_not_circular (needs_of tasks) z); [|done]. apply Hf, needs_of_known, circular_known, Hz.
Qed.

(** The cycle check of a plan always returns, answers the empty string exactly when
    no task depends on itself through any chain of needs, and then following needs from
    any task ends. *)
Theorem findTaskCycle_exact tasks :
  is_Some (walk_all (needs_of tasks) (sort_Strings (tk_ID <$> tasks)) (mkWalk ∅ []))
  /\ (findTaskCycle tasks = "" <-> forall id, ~ circular (needs_of tasks) id)
  /\ (findTaskCycle tasks = "" <-> forall id, id ∈ tk_ID <$> tasks -> grounded (needs_of tasks) id).
Proof. apply cycle_search. Qed.

(** * Validation *)

(** What a plan must be: a known risk class, named and distinct tasks that run
    something in a known band and need other tasks of the plan, without a circle. *)
Record plan_ok (p : Plan) : Prop := {
  ok_risk : risk_Valid (pl_Risk p) = true;
  ok_named : Forall (fun t => blank (tk_ID t) = false) (pl_Tasks p);
  ok_distinct : NoDup (tk_ID <$> pl_Tasks p);
  ok_argv : Forall (fun t => tk_Argv t <> []) (pl_Tasks p);
  ok_band : Forall (fun t => band_Valid (tk_Band t) = true) (pl_Tasks p);
  ok_needs : forall t need, t ∈ pl_Tasks p -> need ∈ tk_Needs t ->
             need <> tk_ID t /\ need ∈ tk_ID <$> pl_Tasks p;
  ok_acyclic : forall id, ~ circular (needs_of (pl_Tasks p)) id
}.

Section validate.
Context `{GoTables}.

(** The first loop is silent exactly on named, new and distinct tasks with a command
    and a band, and then has seen every identifier. *)
Lemma task_problems_nil tasks : forall i seen,
  (task_problems i seen tasks).1 = []
  <-> Forall (fun t => blank (tk_ID t) = false /\ tk_ID t ∉ seen) tasks
      /\ NoDup (tk_ID <$> tasks)
      /\ Forall (fun t => tk_Argv t <> [] /\ band_Valid (tk_Band t) = true) tasks.
Proof.
  induction tasks as [|t tasks IH]; intros i seen; cbn [task_problems].
  { split; [|done]. intros _. repeat split; constructor. }
  rewrite fmap_cons, NoDup_cons, !Forall_cons.
  destruct (blank (tk_ID t)) eqn:Eb.
  { destruct (task_problems _ _ _). split; [done|]. by intros [[[? _] _] _]. }
  case_bool_decide as Es.
  { destruct (task_problems _ _ _). split; [done|]. by intros [[[_ ?] _] _]. }
  specialize (IH (i + 1) ({[tk_ID t]} ∪ seen)). destruct (task_problems _ _ _) as [ps seen'].
  simpl in *. destruct (tk_Argv t) eqn:Ea; simpl; [split; [done|]; by intros (_ & _ & [? _] & _)|].
  destruct (band_Valid (tk_Band t)) eqn:Ev; simpl; [|split; [done|]; by intros (_ & _ & [_ ?] & _)].
  rewrite IH, !Forall_forall. setoid_rewrite not_elem_of_union. setoid_rewrite not_elem_of_singleton.
  rewrite list_elem_of_fmap. split.
  - intros (Hf & Hn & Ha). repeat split; try done; [by apply Hf..| |by apply Ha|by apply Ha].
    intros (u & Hu & Ht). by destruct (Hf u Ht) as (_ & ? & _).
  - intros ([_ Hf] & (Hx & Hn) & _ & Ha). split; [|done]. intros u Hu. destruct (Hf u Hu).
    split; [done|]. split; [|done]. intros E. apply Hx. eauto.
Qed.

Lemma task_problems_seen tasks : forall i seen id,
  (task_problems i seen tasks).1 = [] ->
  id ∈ (task_problems i seen tasks).2 <-> id ∈ seen \/ id ∈ tk_ID <$> tasks.
Proof.
  induction tasks as [|t tasks IH]; intros i seen id; cbn [task_problems].
  { simpl. intros _. rewrite elem_of_nil. tauto. }
  destruct (blank (tk_ID t)); [by destruct (task_problems _ _ _)|].
  case_bool_decide; [by destruct (task_problems _ _ _)|].
  specialize (IH (i + 1) ({[tk_ID t]} ∪ seen) id). destruct (task_problems _ _ _) as [ps seen'].
  simpl in *. intros Hn. apply app_eq_nil in Hn as [_ [_ Hn]%app_eq_nil].
  rewrite IH by done. rewrite elem_of_union, elem_of_singleton, elem_of_cons. tauto.
Qed.

Lemma need_problems_nil seen t :
  need_problems seen t = []
  <-> forall need, need ∈ tk_Needs t -> need <> tk_ID t /\ need ∈ seen.
Proof.
  unfold need_problems. rewrite bind_nil, Forall_forall. split; intros Hf need Hn; specialize (Hf need Hn).
  - destruct (String.eqb_spec need (tk_ID t)); [done|]. by case_bool_decide.
  - destruct Hf as [Hne Hs]. apply String.eqb_neq in Hne. by rewrite Hne, bool_decide_eq_true_2.
Qed.

Lemma plan_Validate_ok p : plan_Validate p = None <-> plan_ok p.
Proof.
  transitivity (plan_problems p = []); [unfold plan_Validate; by destruct (plan_problems p)|].
  assert (Hnil := task_problems_nil (pl_Tasks p) 0 ∅).
  assert (Hseen := fun id => task_problems_seen (pl_Tasks p) 0 ∅ id).
  unfold plan_problems. destruct (task_problems 0 ∅ (pl_Tasks p)) as [p1 seen]. simpl in Hnil, Hseen.
  destruct (cycle_search (pl_Tasks p)) as (_ & Hcyc & _).
  rewrite !app_nil, bind_nil, Forall_forall. setoid_rewrite need_problems_nil.
  assert (Hc : (if String.eqb (findTaskCycle (pl_Tasks p)) "" then []
      else ["task dependencies contain a cycle: " +:+ findTaskCycle (pl_Tasks p)]) = []
      <-> forall id, ~ circular (needs_of (pl_Tasks p)) id).
  { rewrite <- Hcyc. by destruct (String.eqb_spec (findTaskCycle (pl_Tasks p)) ""). }
  rewrite Hc. clear Hc Hcyc.
  assert (Hs : p1 = [] -> forall id, id ∈ seen <-> id ∈ tk_ID <$> pl_Tasks p).
  { intros E id. rewrite Hseen by done. rewrite elem_of_empty. tauto. }
  assert (Hrisk : (if risk_Valid (pl_Risk p) then [] else
      ["risk " +:+ quoteOrBare (declared_risk (pl_Risk p)) +:+ " is not a declared class ("
       +:+ joinRiskClasses +:+ ")"]) = [] <-> risk_Valid (pl_Risk p) = true).
  { by destruct (risk_Valid (pl_Risk p)). }
  rewrite Hrisk. clear Hrisk. split.
  - intros (Hr & E1 & Hd & Hac). destruct (proj1 Hnil E1) as (Hn & Hu & Hb).
    split; [done| |done| | | |done].
    + eapply Forall_impl; [exact Hn|]. by intros ? [? _].
    + eapply Forall_impl; [exact Hb|]. by intros ? [? _].
    + eapply Forall_impl; [exact Hb|]. by intros ? [_ ?].
    + intros t need Ht Hnd. rewrite <- Hs by done. by apply (Hd t).
  - intros [Hr Hn Hu Ha Hb Hd Hac]. assert (E1 : p1 = []).
    { apply Hnil. split; [|split; [done|by apply Forall_and]].
      eapply Forall_impl; [exact Hn|]. intros t Ht. by split; [|apply not_elem_of_empty]. }
    split; [done|]. split; [done|]. split; [|done].
    intros t Ht need Hnd. rewrite Hs by done. by apply Hd.
Qed.

(** Validation accepts exactly the executable plans: a declared risk class, tasks
    that are named, distinct, in a declared band and have a command, needs that name
    other tasks of the plan, and no circular dependency. *)
Theorem plan_Validate_exact p : plan_Validate p = None <-> plan_ok p.
Proof. apply plan_Validate_ok. Qed.

End validate.
