(* ===== verification/RunJournal.v ===== *)
(** The run journal (internal/unattended/journal.go): records, the append-only file of
    JSON lines, reading it back, and the replay that folds one run's records into what
    a restart resumes from.  The record codec is encoding/json; it is a class with the
    facts the journal relies on. *)
From Stdlib Require Import Ascii.
From S2P Require Import Prelude GoStd RunQA.

(** * Records *)

Inductive RecordKind : Type :=
| RecordRunStarted | RecordPreflight | RecordLockAcquired | RecordFenceTaken
| RecordFenceVerified | RecordFenceViolated | RecordFenceAdvanced
| RecordTaskStarted | RecordTaskSucceeded | RecordTaskFailed | RecordTaskHeld
| RecordTaskRetry | RecordTaskResumed | RecordGateEvidence | RecordRunFinished
| RecordOther (kind : string).

#[export] Instance RecordKind_eq_dec : EqDecision RecordKind.
Proof. solve_decision. Defined.

(** Record, less its clock readings (at, durationMs), which nothing reads back. *)
Record JournalRecord : Type := mkRecord {
  jr_Seq : Z;
  jr_Kind : RecordKind;
  jr_RunID : string;
  jr_TaskID : string;
  jr_Attempt : Z;
  jr_Class : string;
  jr_Outcome : string;
  jr_Detail : string;
  jr_Gate : option GateEvidence
}.

(** A record literal: every field but the kind has a zero value. *)
Definition rec0 (k : RecordKind) : JournalRecord := mkRecord 0 k "" "" 0 "" "" "" None.

(** * Replay *)

(** ResumeState.  Succeeded and Interrupted only ever hold true, so they are sets;
    the counters keep their keys when they fall to zero, as Go maps do. *)
Record ResumeState : Type := mkResume {
  rs_Succeeded : gset string;
  rs_Attempts : gmap string Z;
  rs_Resumes : gmap string Z;
  rs_Interrupted : gset string;
  rs_Gates : gmap string GateEvidence;
  rs_Finished : bool;
  rs_FinalOutcome : string;
  rs_LastSeq : Z
}.

Definition resume0 : ResumeState := mkResume ∅ ∅ ∅ ∅ ∅ false "" 0.

(** A missing key of a map[string]int reads as zero. *)
Definition zget (m : gmap string Z) (k : string) : Z := default 0 (m !! k).

Definition with_LastSeq (n : Z) (st : ResumeState) : ResumeState :=
  mkResume (rs_Succeeded st) (rs_Attempts st) (rs_Resumes st) (rs_Interrupted st) (rs_Gates st)
    (rs_Finished st) (rs_FinalOutcome st) n.

(** The switch on the kind of a record of this run. *)
Definition replay_kind (st : ResumeState) (r : JournalRecord) : ResumeState :=
  let id := jr_TaskID r in
  match jr_Kind r with
  | RecordTaskStarted =>
      mkResume (rs_Succeeded st) (<[id := zget (rs_Attempts st) id + 1]> (rs_Attempts st))
        (rs_Resumes st) ({[id]} ∪ rs_Interrupted st) (rs_Gates st) (rs_Finished st)
        (rs_FinalOutcome st) (rs_LastSeq st)
  | RecordTaskSucceeded =>
      mkResume ({[id]} ∪ rs_Succeeded st) (rs_Attempts st) (rs_Resumes st)
        (rs_Interrupted st ∖ {[id]}) (rs_Gates st) (rs_Finished st) (rs_FinalOutcome st)
        (rs_LastSeq st)
  | RecordTaskResumed =>
      mkResume (rs_Succeeded st)
        (if 0 <? zget (rs_Attempts st) id
         then <[id := zget (rs_Attempts st) id - 1]> (rs_Attempts st) else rs_Attempts st)
        (<[id := zget (rs_Resumes st) id + 1]> (rs_Resumes st)) (rs_Interrupted st) (rs_Gates st)
        (rs_Finished st) (rs_FinalOutcome st) (rs_LastSeq st)
  | RecordTaskFailed | RecordTaskHeld =>
      mkResume (rs_Succeeded st) (rs_Attempts st) (rs_Resumes st)
        (rs_Interrupted st ∖ {[id]}) (rs_Gates st) (rs_Finished st) (rs_FinalOutcome st)
        (rs_LastSeq st)
  | RecordGateEvidence =>
      match jr_Gate r with
      | None => st
      | Some g =>
          if String.eqb (ev_GateID g) "" then st
          else mkResume (rs_Succeeded st) (rs_Attempts st) (rs_Resumes st) (rs_Interrupted st)
                 (record_evidence (rs_Gates st) g) (rs_Finished st) (rs_FinalOutcome st)
                 (rs_LastSeq st)
      end
  | RecordRunFinished =>
      mkResume (rs_Succeeded st) (rs_Attempts st) (rs_Resumes st) (rs_Interrupted st)
        (rs_Gates st) true (jr_Outcome r) (rs_LastSeq st)
  | _ => st
  end.

Definition replay_step (runID : string) (st : ResumeState) (r : JournalRecord) : ResumeState :=
  let st := if rs_LastSeq st <? jr_Seq r then with_LastSeq (jr_Seq r) st else st in
  if negb (String.eqb (jr_RunID r) runID) then st else replay_kind st r.

Definition Replay (records : list JournalRecord) (runID : string) : ResumeState :=
  fold_left (replay_step runID) records resume0.

(** * The file *)

(** json.Marshal and json.Unmarshal on records.  Marshal replaces bytes that are not
    UTF-8, which [to_valid] does to a text. *)
Class JournalCodec : Type := {
  to_valid : string -> string;
  marshal : JournalRecord -> string;
  unmarshal : string -> option JournalRecord
}.

Definition newline : string := bytes [10].

Section file.
Context `{JournalCodec}.

Definition valid_evidence (e : GateEvidence) : GateEvidence :=
  mkGateEvidence (to_valid (ev_GateID e)) (to_valid (ev_TaskID e)) (to_valid (ev_Tool e))
    (to_valid (ev_ToolVersion e)) (to_valid (ev_Result e)) (to_valid (ev_TargetSHA e))
    (to_valid <$> ev_Reproduce e) (to_valid (ev_Detail e)) (to_valid (ev_EvidencePath e)).

(** A record as it comes back from the file. *)
Definition valid_record (r : JournalRecord) : JournalRecord :=
  mkRecord (jr_Seq r) (jr_Kind r) (to_valid (jr_RunID r)) (to_valid (jr_TaskID r)) (jr_Attempt r)
    (to_valid (jr_Class r)) (to_valid (jr_Outcome r)) (to_valid (jr_Detail r))
    (valid_evidence <$> jr_Gate r).

(** bufio.ScanLines: the lines between newlines, less a carriage return at the end of
    each and less an empty last one. *)
Definition drop_cr (s : string) : string :=
  match string_rev s with
  | String c r => if byte_of c =? 13 then string_rev r else s
  | EmptyString => s
  end.

Fixpoint drop_last_empty (l : list string) : list string :=
  match l with
  | [] => []
  | [w] => if String.eqb w "" then [] else [w]
  | w :: ws => w :: drop_last_empty ws
  end.

Definition ScanLines (data : string) : list string :=
  drop_cr <$> drop_last_empty (split_on (ascii_of_N 10) data).

(** The size of the scanner's buffer, which no line may reach. *)
Definition max_line : Z := 4 * 1024 * 1024.

Definition ErrJournalCorrupt : error := errmsg "unattended: run journal is corrupt" [].

(** The second loop: a malformed line is dropped when it is the last one and refused
    anywhere else. *)
Fixpoint collect (path : string) (i : Z) (lines : list (option JournalRecord))
  : res (list JournalRecord * bool) :=
  match lines with
  | [] => Ok ([], false)
  | Some r :: lines' =>
      match collect path (i + 1) lines' with
      | Ok (rs, truncated) => Ok (r :: rs, truncated)
      | Err e => Err e
      end
  | [None] => Ok ([], true)
  | None :: _ => Err (Errorf "%w: %q line %d is not a record" [path; Itoa (i + 1)] [ErrJournalCorrupt])
  end.

(** ReadJournal on the contents of the file; None is a file that does not exist. *)
Definition ReadJournal (path : string) (file : option string) : res (list JournalRecord * bool) :=
  match file with
  | None => Ok ([], false)
  | Some data =>
      let raw := ScanLines data in
      if existsb (fun l => max_line <=? Z.of_nat (String.length l)) raw then
        Err (Errorf "reading run journal %q: %w" [path] [errmsg "bufio.Scanner: token too long" []])
      else collect path 0 (unmarshal <$> List.filter (fun l => negb (blank l)) raw)
  end.

(** Journal: the run it belongs to, the last number given out, and the file behind it. *)
Record Journal : Type := mkJournal {
  jn_runID : string;
  jn_seq : Z;
  jn_file : string
}.

(** OpenJournal: an existing file is appended to as it is. *)
Definition OpenJournal (path : string) (file : option string) (runID : string) : res Journal :=
  match ReadJournal path file with
  | Err e => Err e
  | Ok (existing, _) =>
      Ok (mkJournal runID (fold_left (fun seq r => if seq <? jr_Seq r then jr_Seq r else seq) existing 0)
            (default "" file))
  end.

(** The record Append writes for r. *)
Definition stamped (j : Journal) (r : JournalRecord) : JournalRecord :=
  mkRecord (jn_seq j + 1) (jr_Kind r)
    (if String.eqb (jr_RunID r) "" then jn_runID j else jr_RunID r)
    (jr_TaskID r) (jr_Attempt r) (jr_Class r) (jr_Outcome r) (jr_Detail r) (jr_Gate r).

(** Append when the write and the sync succeed. *)
Definition Append (j : Journal) (r : JournalRecord) : Journal :=
  let r := stamped j r in
  mkJournal (jn_runID j) (jn_seq j + 1) (jn_file j +:+ marshal r +:+ newline).

(** Append cut short: the process dies, or the write fails, after n bytes. *)
Definition AppendTorn (j : Journal) (r : JournalRecord) (n : nat) : Journal :=
  let r := stamped j r in
  mkJournal (jn_runID j) (jn_seq j + 1)
    (jn_file j +:+ String.substring 0 n (marshal r +:+ newline)).

End file.
