(* ===== verification/RunJournalProps.v ===== *)
(** The journal file: records written come back in order, a torn last record is dropped
    and reported, and appending past a torn record makes the file unreadable. *)
From Stdlib Require Import Ascii.
From stdpp Require Import countable.
From S2P Require Import Prelude GoStd RunQA RunJournal.

(** * Texts of one line *)

(** No control characters. *)
Definition printable (s : string) : bool := all_bytes (fun c => 32 <=? byte_of c) s.

Lemma all_bytes_app f a b : all_bytes f (a +:+ b) = all_bytes f a && all_bytes f b.
Proof. induction a as [|c a IH]; [done|]. simpl. by rewrite IH, andb_assoc. Qed.

Lemma all_bytes_substring f n s : all_bytes f s = true -> all_bytes f (String.substring 0 n s) = true.
Proof.
  revert n. induction s as [|c s IH]; intros [|n] Hs; [done..|]. simpl in *.
  apply andb_prop in Hs as [-> Hs]. by apply IH.
Qed.

Lemma printable_cons c s : printable (String c s) = true -> c <> ascii_of_N 10 /\ printable s = true.
Proof. unfold printable. simpl. intros [Hc Hs]%andb_prop. split; [by intros ->|done]. Qed.

Lemma split_on_other sep c s w ws :
  c <> sep -> split_on sep s = w :: ws -> split_on sep (String c s) = String c w :: ws.
Proof. intros Hc E. simpl. rewrite E. by destruct (Ascii.eqb_spec c sep). Qed.

(** A printable text is a line of its own. *)
Lemma split_on_line a b :
  printable a = true ->
  split_on (ascii_of_N 10) (a +:+ newline +:+ b) = a :: split_on (ascii_of_N 10) b.
Proof.
  induction a as [|c a IH]; [done|]. intros [Hc Ha]%printable_cons.
  rewrite string_app_cons. apply split_on_other; auto.
Qed.

Lemma split_on_last a : printable a = true -> split_on (ascii_of_N 10) a = [a].
Proof.
  induction a as [|c a IH]; [done|]. intros [Hc Ha]%printable_cons. apply split_on_other; auto.
Qed.

Lemma rev_app_spec a b : rev_app a b = rev_app a "" +:+ b.
Proof.
  revert b. induction a as [|c a IH]; intros b; [done|]. simpl. rewrite IH, (IH (String c "")).
  by rewrite <- string_app_assoc.
Qed.

Lemma string_rev_cons c s : string_rev (String c s) = string_rev s +:+ String c "".
Proof. unfold string_rev. simpl. apply rev_app_spec. Qed.

Lemma printable_rev s : printable s = true -> printable (string_rev s) = true.
Proof.
  unfold printable. induction s as [|c s IH]; [done|]. simpl. intros [Hc Hs]%andb_prop.
  rewrite string_rev_cons, all_bytes_app, IH by done. simpl. by rewrite Hc.
Qed.

Lemma drop_cr_printable s : printable s = true -> drop_cr s = s.
Proof.
  intros Hs%printable_rev. unfold drop_cr. destruct (string_rev s) as [|c r]; [done|].
  simpl in Hs. apply andb_prop in Hs as [Hc _]. destruct (Z.eqb_spec (byte_of c) 13) as [E|]; [|done].
  by rewrite E in Hc.
Qed.

(** Trimming does not reach a brace at the front. *)
Lemma trim_left_brace runes fuel u :
  Forall (fun r => all_bytes (fun c => negb (Ascii.eqb c "{")) r = true) runes ->
  exists u', trim_left fuel runes (u +:+ "{") = u' +:+ "{".
Proof.
  intros Hr. revert u. induction fuel as [|f IH]; intros u; [by exists u|]. simpl.
  destruct (strip_space runes (u +:+ "{")) as [t|] eqn:E; [|by exists u].
  assert (Ht : exists u', t = u' +:+ "{"); [|destruct Ht as [u' ->]; apply IH].
  clear IH. revert E. induction Hr as [|r runes Hr _ IH]; [done|]. simpl.
  destruct (strip_prefix r (u +:+ "{")) as [t'|] eqn:Ep; [|exact IH]. intros [= ->]. clear IH runes.
  revert u Ep. induction r as [|c r IH]; intros u; simpl in *; [intros [= <-]; by exists u|].
  apply andb_prop in Hr as [Hc Hr]. destruct u as [|d u]; simpl.
  - destruct (Ascii.eqb_spec c "{"); [by subst|done].
  - destruct (Ascii.eqb c d); [|done]. by apply IH.
Qed.

Lemma not_blank s : blank (String "{" s) = false.
Proof.
  unfold blank, TrimSpace. apply String.eqb_neq.
  assert (H1 : forall n, trim_left n space_runes (String "{" s) = String "{" s) by (by intros []).
  rewrite H1. rewrite string_rev_cons.
  destruct (trim_left_brace (map string_rev space_runes) (String.length (String "{" s)) (string_rev s)) as [u ->].
  { apply Forall_forall. intros r Hr. revert r Hr. apply Forall_forall. vm_compute. repeat constructor. }
  unfold string_rev. intros E. apply (f_equal String.length) in E. destruct u as [|c u]; [done|].
  simpl in E. rewrite rev_app_spec in E. rewrite string_length_app in E. simpl in E. lia.
Qed.

(** * Files of lines *)

Definition file_of (ls : list string) (tail : string) : string :=
  fold_right (fun l acc => l +:+ newline +:+ acc) tail ls.

Lemma file_of_snoc ls l : file_of (ls ++ [l]) "" = file_of ls "" +:+ l +:+ newline.
Proof.
  induction ls as [|x ls IH]; simpl; [by rewrite string_app_nil_r|].
  rewrite IH. by rewrite !string_app_assoc.
Qed.

Lemma file_of_tail ls tail : file_of ls tail = file_of ls "" +:+ tail.
Proof. induction ls as [|x ls IH]; simpl; [done|]. by rewrite IH, !string_app_assoc. Qed.

(** The lines of a file, the last one possibly unfinished. *)
Definition all_lines (ls : list string) (tail : string) : list string :=
  ls ++ (if String.eqb tail "" then [] else [tail]).

Lemma ScanLines_file ls tail :
  Forall (fun l => printable l = true) ls -> printable tail = true ->
  ScanLines (file_of ls tail) = all_lines ls tail.
Proof.
  intros Hls Ht. unfold ScanLines.
  assert (Hs : split_on (ascii_of_N 10) (file_of ls tail) = ls ++ [tail]).
  { induction Hls as [|l ls Hl _ IH]; [by apply split_on_last|]. simpl file_of. by rewrite split_on_line, IH. }
  rewrite Hs. assert (Hd : drop_last_empty (ls ++ [tail]) = all_lines ls tail).
  { clear. unfold all_lines. induction ls as [|l ls IH]; [done|].
    change ((l :: ls) ++ [tail]) with (l :: (ls ++ [tail])). simpl app. rewrite <- IH. by destruct ls. }
  rewrite Hd. rewrite <- (list_fmap_id (all_lines ls tail)) at 2. apply list_fmap_ext.
  intros i l Hl. apply drop_cr_printable. unfold all_lines in Hl.
  apply list_elem_of_lookup_2, elem_of_app in Hl as [Hl|Hl]; [rewrite Forall_forall in Hls; auto|].
  destruct (String.eqb tail ""); set_solver.
Qed.

(** What a line of a journal looks like: printable, an object, and within the buffer. *)
Definition line_ok (l : string) : Prop :=
  printable l = true /\ (exists s, l = String "{" s) /\ Z.of_nat (String.length l) < max_line.

Section codec.
Context `{JournalCodec}.

Lemma ReadJournal_file path ls tail :
  Forall line_ok ls -> tail = "" \/ line_ok tail ->
  ReadJournal path (Some (file_of ls tail)) = collect path 0 (unmarshal <$> all_lines ls tail).
Proof.
  intros Hls Ht. unfold ReadJournal. rewrite ScanLines_file.
  2: { eapply Forall_impl; [exact Hls|]. by intros l (? & _). }
  2: { destruct Ht as [->|[? _]]; done. }
  assert (Hall : Forall line_ok (all_lines ls tail)).
  { apply Forall_app. split; [done|]. destruct (String.eqb_spec tail ""); [constructor|].
    repeat constructor; destruct Ht as [?|(? & ? & ?)]; done. }
  generalize dependent (all_lines ls tail). intros l Hall.
  assert (E1 : existsb (fun l => max_line <=? Z.of_nat (String.length l)) l = false).
  { induction Hall as [|x l (_ & _ & Hx) _ IH]; [done|]. simpl. rewrite IH.
    destruct (Z.leb_spec max_line (Z.of_nat (String.length x))); [lia|done]. }
  rewrite E1. do 2 f_equal. induction Hall as [|x l (_ & [s ->] & _) _ IH]; [done|].
  simpl List.filter. rewrite not_blank. simpl. f_equal. apply IH. simpl in E1. by apply orb_false_elim in E1 as [_ ?].
Qed.

Lemma collect_ok path i rs : collect path i (Some <$> rs) = Ok (rs, false).
Proof. revert i. induction rs as [|r rs IH]; intros i; [done|]. simpl. by rewrite IH. Qed.

Lemma collect_torn path i rs : collect path i ((Some <$> rs) ++ [None]) = Ok (rs, true).
Proof. revert i. induction rs as [|r rs IH]; intros i; [done|]. simpl. by rewrite IH. Qed.

Lemma collect_corrupt path i rs x l : exists e, collect path i ((Some <$> rs) ++ None :: x :: l) = Err e.
Proof.
  revert i. induction rs as [|r rs IH]; intros i; [by eexists|].
  destruct (IH (i + 1)) as [e He]. exists e. rewrite fmap_cons, <- app_comm_cons. cbn [collect]. by rewrite He.
Qed.

End codec.

(** * What the journal relies on of encoding/json *)

(** A kind the program writes. *)
Definition own_kind (r : JournalRecord) : Prop := forall k, jr_Kind r <> RecordOther k.

(** A record is encoded as one object without control characters and decodes to itself,
    with its texts made valid; part of an encoding is not a record, and neither is part
    of one with a whole one after it. *)
Class CodecLaws `{JournalCodec} : Prop := {
  marshal_printable r : printable (marshal r) = true;
  marshal_object r : exists s, marshal r = String "{" s;
  unmarshal_marshal r : own_kind r -> unmarshal (marshal r) = Some (valid_record r);
  unmarshal_torn r n :
    (0 < n < String.length (marshal r))%nat -> unmarshal (String.substring 0 n (marshal r)) = None;
  unmarshal_glued r n r' :
    (0 < n < String.length (marshal r))%nat ->
    unmarshal (String.substring 0 n (marshal r) +:+ marshal r') = None
}.

Section laws.
Context `{CodecLaws}.

(** The records a sequence of appends writes, and the journal after them. *)
Fixpoint stamps (j : Journal) (rs : list JournalRecord) : list JournalRecord :=
  match rs with
  | [] => []
  | r :: rs' => stamped j r :: stamps (Append j r) rs'
  end.

Definition appends (j : Journal) (rs : list JournalRecord) : Journal := fold_left Append rs j.

(** Records whose encoding fits the reader's buffer. *)
Definition fits (r : JournalRecord) : Prop := Z.of_nat (String.length (marshal r)) < max_line.

Lemma marshal_line r : fits r -> line_ok (marshal r).
Proof. intros Hf. split; [apply marshal_printable|]. split; [apply marshal_object|done]. Qed.

Lemma appends_file j ls rs :
  jn_file j = file_of ls "" -> jn_file (appends j rs) = file_of (ls ++ (marshal <$> stamps j rs)) "".
Proof.
  revert j ls. induction rs as [|r rs IH]; intros j ls Hj; simpl; [by rewrite app_nil_r|].
  rewrite (IH (Append j r) (ls ++ [marshal (stamped j r)])); [by rewrite <- app_assoc|].
  simpl. by rewrite Hj, file_of_snoc.
Qed.

Lemma unmarshal_all rs :
  Forall own_kind rs -> unmarshal <$> (marshal <$> rs) = Some <$> (valid_record <$> rs).
Proof.
  induction 1 as [|r rs Hr _ IH]; [done|]. rewrite !fmap_cons, IH. f_equal. by apply unmarshal_marshal.
Qed.

(** The first bytes of an encoding are a line the reader sees. *)
Lemma torn_line r n :
  fits r -> (0 < n <= String.length (marshal r))%nat -> line_ok (String.substring 0 n (marshal r)).
Proof.
  intros Hf Hn. split; [apply all_bytes_substring, marshal_printable|]. destruct (marshal_object r) as [s Hs].
  unfold fits in Hf. rewrite Hs in *. destruct n as [|n]; [lia|]. simpl. split; [by eexists|].
  simpl in Hf, Hn. assert (Hl : String.length (String.substring 0 n s) = n); [|lia].
  clear - Hn. revert n Hn. induction s as [|c s IH]; intros [|n] Hn; simpl in *; [done|lia|done|]. f_equal. apply IH. lia.
Qed.

Lemma substring_app_l n a b : (n <= String.length a)%nat -> String.substring 0 n (a +:+ b) = String.substring 0 n a.
Proof.
  revert n. induction a as [|c a IH]; intros [|n] Hn; simpl in *; [by destruct b|lia|done|]. f_equal. apply IH. lia.
Qed.

Lemma substring_length n a : (String.length (String.substring 0 n a) <= n)%nat.
Proof. revert n. induction a as [|c a IH]; intros [|n]; simpl; [lia..|]. specialize (IH n). lia. Qed.

Definition empty_journal (runID : string) : Journal := mkJournal runID 0 "".

Lemma stamps_own j rs : Forall own_kind rs -> Forall own_kind (stamps j rs).
Proof.
  intros Hrs. revert j. induction Hrs as [|r rs Hr _ IH]; intros j; [constructor|]. simpl. constructor; [exact Hr|apply IH].
Qed.

Lemma torn_file runID rs r n :
  (0 < n <= String.length (marshal (stamped (appends (empty_journal runID) rs) r)))%nat ->
  jn_file (AppendTorn (appends (empty_journal runID) rs) r n)
  = file_of (marshal <$> stamps (empty_journal runID) rs)
      (String.substring 0 n (marshal (stamped (appends (empty_journal runID) rs) r))).
Proof.
  intros Hn. unfold AppendTorn. cbn [jn_file]. rewrite (appends_file (empty_journal runID) []) by done.
  rewrite substring_app_l by lia. symmetry. apply file_of_tail.
Qed.

(** The record of a run with its number, and those of a list numbered one after another. *)
Definition numbered_as (runID : string) (seq : Z) (r : JournalRecord) : JournalRecord :=
  mkRecord seq (jr_Kind r) (if String.eqb (jr_RunID r) "" then runID else jr_RunID r)
    (jr_TaskID r) (jr_Attempt r) (jr_Class r) (jr_Outcome r) (jr_Detail r) (jr_Gate r).

Definition numbered_records (runID : string) (rs : list JournalRecord) : list JournalRecord :=
  imap (fun i r => numbered_as runID (Z.of_nat i + 1) r) rs.

Lemma stamps_imap j rs : stamps j rs = imap (fun i r => numbered_as (jn_runID j) (jn_seq j + Z.of_nat i + 1) r) rs.
Proof.
  revert j. induction rs as [|r rs IH]; intros j; [done|]. cbn [stamps imap]. rewrite IH. unfold stamped, numbered_as. f_equal; [f_equal; lia|].
  apply imap_ext. intros i x _. cbn. f_equal. lia.
Qed.

Lemma stamps_numbered runID rs : stamps (empty_journal runID) rs = numbered_records runID rs.
Proof. rewrite stamps_imap. apply imap_ext. intros i x _. cbn. f_equal. Qed.

Lemma appends_state j rs : jn_runID (appends j rs) = jn_runID j /\ jn_seq (appends j rs) = jn_seq j + Z.of_nat (length rs).
Proof.
  revert j. induction rs as [|r rs IH]; intros j; [split; [done|]; cbn; lia|]. destruct (IH (Append j r)) as [H1 H2]. cbn [appends fold_left length].
  unfold appends in *. split; [by rewrite H1|]. rewrite H2. cbn [jn_seq Append]. lia.
Qed.

Lemma stamped_next runID rs r : stamped (appends (empty_journal runID) rs) r = numbered_as runID (Z.of_nat (length rs) + 1) r.
Proof. destruct (appends_state (empty_journal runID) rs) as [E1 E2]. unfold stamped, numbered_as. rewrite E1, E2. done. Qed.

Lemma numbered_last runID rs seq :
  0 <= seq <= Z.of_nat (length rs) ->
  fold_left (fun seq r => if seq <? jr_Seq r then jr_Seq r else seq) (valid_record <$> numbered_records runID rs) seq = Z.of_nat (length rs).
Proof.
  unfold numbered_records. induction rs as [|r rs IH] using rev_ind; intros Hs; [cbn in *; lia|]. rewrite length_app in *. cbn [length] in *.
  rewrite imap_app, fmap_app, fold_left_app. cbn [imap fmap list_fmap fold_left]. destruct (decide (seq <= Z.of_nat (length rs))) as [Hle|Hgt].
  - rewrite IH by lia. cbn. destruct (Z.ltb_spec (Z.of_nat (length rs)) (Z.of_nat (length rs + 0) + 1)); lia.
  - assert (forall l, Forall (fun r => jr_Seq r <= seq) l -> fold_left (fun seq r => if seq <? jr_Seq r then jr_Seq r else seq) l seq = seq) as Hk.
    { induction 1 as [|x l Hx _ IHl]; [done|]. cbn. by rewrite (proj2 (Z.ltb_ge _ _) Hx). }
    rewrite Hk; [cbn; destruct (Z.ltb_spec seq (Z.of_nat (length rs + 0) + 1)); lia|]. apply Forall_fmap, Forall_forall.
    intros x (i & y & -> & Hy)%elem_of_lookup_imap_1. apply lookup_lt_Some in Hy. cbn. lia.
Qed.

(** (C39) What was appended is what is read back: a journal written by any sequence of
    appends, of records of the kinds the program writes and short enough for the reader's
    buffer, reads as those records with their texts made valid, numbered 1, 2, 3 and so on,
    and opening it again goes on from the last number; and if the process dies inside the
    next append, after any number of its bytes short of the whole record, that record alone
    is dropped and the loss is reported. *)
Theorem journal_roundtrip path runID rs r n :
  let j := appends (empty_journal runID) rs in
  let written := numbered_records runID rs in
  let next := numbered_as runID (Z.of_nat (length rs) + 1) r in
  Forall own_kind rs -> Forall fits written -> fits next ->
  ReadJournal path (Some (jn_file j)) = Ok (valid_record <$> written, false)
  /\ (exists j', OpenJournal path (Some (jn_file j)) runID = Ok j' /\ jn_seq j' = Z.of_nat (length rs) /\ jn_file j' = jn_file j)
  /\ ((0 < n < String.length (marshal next))%nat ->
      ReadJournal path (Some (jn_file (AppendTorn j r n))) = Ok (valid_record <$> written, true)).
Proof.
  intros j written next Hk Hfit Hr. unfold written, next in *. rewrite <- stamps_numbered in *. rewrite <- stamped_next in *. fold j in Hr |- *.
  assert (Hls : Forall line_ok (marshal <$> stamps (empty_journal runID) rs)).
  { apply Forall_fmap. eapply Forall_impl; [exact Hfit|]. apply marshal_line. }
  assert (Hun := unmarshal_all _ (stamps_own (empty_journal runID) rs Hk)).
  assert (Hread : ReadJournal path (Some (jn_file j)) = Ok (valid_record <$> stamps (empty_journal runID) rs, false)).
  { unfold j. rewrite (appends_file (empty_journal runID) []) by done. simpl app.
    rewrite ReadJournal_file by auto. unfold all_lines. simpl. rewrite app_nil_r, Hun. apply collect_ok. }
  split; [done|]. split.
  - unfold OpenJournal. rewrite Hread, stamps_numbered. eexists. split; [done|]. split; [apply numbered_last; lia|done].
  - intros Hn. unfold j. rewrite torn_file by (fold j; lia).
    rewrite ReadJournal_file; [|done|right; apply torn_line; [done|fold j; lia]].
    unfold all_lines. fold j. assert (Ht : line_ok (String.substring 0 n (marshal (stamped j r)))) by (apply torn_line; [done|lia]).
    destruct Ht as (_ & [s Hs] & _). rewrite Hs at 1. simpl. rewrite fmap_app, Hun. simpl.
    rewrite unmarshal_torn by done. apply collect_torn.
Qed.

(** A torn record is not repaired: reopening the journal keeps the torn bytes, so the
    next record is glued to them and lost, and the one after that makes the file
    unreadable. *)
Theorem torn_then_appended path runID rs r n j' r1 r2 :
  let j := appends (empty_journal runID) rs in
  Forall own_kind rs -> Forall fits (stamps (empty_journal runID) rs) -> fits (stamped j r) ->
  (0 < n < String.length (marshal (stamped j r)))%nat ->
  OpenJournal path (Some (jn_file (AppendTorn j r n))) runID = Ok j' ->
  Z.of_nat (n + String.length (marshal (stamped j' r1))) < max_line -> fits (stamped (Append j' r1) r2) ->
  ReadJournal path (Some (jn_file (Append j' r1)))
  = Ok (valid_record <$> stamps (empty_journal runID) rs, true)
  /\ exists e, ReadJournal path (Some (jn_file (Append (Append j' r1) r2))) = Err e.
Proof.
  intros j Hk Hfit Hr Hn Hopen Hlen Hf2. unfold OpenJournal in Hopen.
  destruct (ReadJournal path _) as [[existing tr]|e]; [|done]. injection Hopen as <-.
  set (j' := mkJournal _ _ _) in *. set (t := String.substring 0 n (marshal (stamped j r))).
  assert (Hls : Forall line_ok (marshal <$> stamps (empty_journal runID) rs)).
  { apply Forall_fmap. eapply Forall_impl; [exact Hfit|]. apply marshal_line. }
  assert (Hun := unmarshal_all _ (stamps_own (empty_journal runID) rs Hk)).
  assert (Hj' : jn_file j' = file_of (marshal <$> stamps (empty_journal runID) rs) t).
  { simpl jn_file. apply torn_file. fold j. lia. }
  assert (Hglue : jn_file (Append j' r1)
    = file_of ((marshal <$> stamps (empty_journal runID) rs) ++ [t +:+ marshal (stamped j' r1)]) "").
  { change (jn_file j' +:+ marshal (stamped j' r1) +:+ newline
            = file_of ((marshal <$> stamps (empty_journal runID) rs) ++ [t +:+ marshal (stamped j' r1)]) "").
    rewrite Hj', file_of_tail, file_of_snoc. by rewrite !string_app_assoc. }
  assert (Htl : line_ok t) by (apply torn_line; [done|lia]).
  assert (Hgl : line_ok (t +:+ marshal (stamped j' r1))).
  { destruct Htl as (Hp & [s Hs] & _). split; [|split].
    - unfold printable in *. by rewrite all_bytes_app, Hp, marshal_printable.
    - rewrite Hs. by eexists.
    - rewrite string_length_app. assert (Ht : (String.length t <= n)%nat); [|lia]. apply substring_length. }
  assert (Hall : Forall line_ok ((marshal <$> stamps (empty_journal runID) rs) ++ [t +:+ marshal (stamped j' r1)])).
  { apply Forall_app. split; [done|]. constructor; [done|constructor]. }
  assert (Hg : unmarshal (t +:+ marshal (stamped j' r1)) = None) by (by apply unmarshal_glued).
  split.
  - rewrite Hglue, ReadJournal_file by auto. unfold all_lines. simpl. rewrite app_nil_r, fmap_app, Hun. simpl.
    rewrite Hg. apply collect_torn.
  - change (jn_file (Append (Append j' r1) r2))
      with (jn_file (Append j' r1) +:+ marshal (stamped (Append j' r1) r2) +:+ newline).
    rewrite Hglue, <- file_of_snoc, ReadJournal_file; [|apply Forall_app; split; [done|constructor; [by apply marshal_line|constructor]]|by left].
    unfold all_lines. simpl. rewrite app_nil_r, <- app_assoc, fmap_app, Hun. simpl. rewrite Hg. apply collect_corrupt.
Qed.

End laws.

(** * A codec with these laws *)

(** It keeps the kind, the numbers and the presence of evidence, as the bits of a
    positive between braces, and makes every text empty. *)
Definition kinds : list RecordKind :=
  [ RecordRunStarted; RecordPreflight; RecordLockAcquired; RecordFenceTaken; RecordFenceVerified;
    RecordFenceViolated; RecordFenceAdvanced; RecordTaskStarted; RecordTaskSucceeded; RecordTaskFailed;
    RecordTaskHeld; RecordTaskRetry; RecordTaskResumed; RecordGateEvidence; RecordRunFinished ].

Definition kind_index (k : RecordKind) : nat :=
  match k with
  | RecordRunStarted => 0 | RecordPreflight => 1 | RecordLockAcquired => 2 | RecordFenceTaken => 3
  | RecordFenceVerified => 4 | RecordFenceViolated => 5 | RecordFenceAdvanced => 6
  | RecordTaskStarted => 7 | RecordTaskSucceeded => 8 | RecordTaskFailed => 9 | RecordTaskHeld => 10
  | RecordTaskRetry => 11 | RecordTaskResumed => 12 | RecordGateEvidence => 13 | RecordRunFinished => 14
  | RecordOther _ => 15
  end.

Fixpoint bits (p : positive) : string :=
  match p with
  | xH => "}"
  | xO p' => String "0" (bits p')
  | xI p' => String "1" (bits p')
  end.

Fixpoint unbits (s : string) : option positive :=
  match s with
  | EmptyString => None
  | String c s' =>
      if Ascii.eqb c "}" then match s' with EmptyString => Some xH | _ => None end
      else if Ascii.eqb c "0" then xO <$> unbits s'
      else if Ascii.eqb c "1" then xI <$> unbits s'
      else None
  end.

Definition toy_record (k : RecordKind) (seq attempt : Z) (g : option nat) : JournalRecord :=
  mkRecord seq k "" "" attempt "" "" ""
    ((fun n => mkGateEvidence "" "" "" "" "" "" (replicate n "") "" "") <$> g).

#[local] Instance toy_codec : JournalCodec := {
  to_valid := fun _ => "";
  marshal := fun r =>
    String "{" (bits (encode (kind_index (jr_Kind r), jr_Seq r, jr_Attempt r,
                              length ∘ ev_Reproduce <$> jr_Gate r)));
  unmarshal := fun s =>
    match s with
    | String c s' =>
        if Ascii.eqb c "{" then
          unbits s' ≫= fun p => decode p ≫= fun '(k, seq, attempt, g) =>
            (fun k => toy_record k seq attempt g) <$> kinds !! (k : nat)
        else None
    | EmptyString => None
    end
}.

Lemma unbits_bits p : unbits (bits p) = Some p.
Proof. induction p as [p IH|p IH|]; simpl; [by rewrite IH..|done]. Qed.

Lemma bits_printable p : printable (bits p) = true.
Proof. unfold printable. induction p as [p IH|p IH|]; [simpl; by rewrite IH..|done]. Qed.

(** A strict prefix has no closing brace, whatever follows opens another. *)
Lemma unbits_torn p n s :
  (n < String.length (bits p))%nat -> unbits (String.substring 0 n (bits p)) = None
  /\ unbits (String.substring 0 n (bits p) +:+ String "{" s) = None.
Proof.
  revert n. induction p as [p IH|p IH|]; intros [|n] Hn; simpl in *; try done; try lia;
    destruct (IH n ltac:(lia)) as [-> ->]; done.
Qed.

#[local] Instance toy_laws : CodecLaws.
Proof.
  split.
  - intros r. apply bits_printable.
  - intros r. by eexists.
  - intros r Hk. cbn [unmarshal marshal toy_codec]. rewrite Ascii.eqb_refl, unbits_bits. simpl. rewrite decode_encode.
    simpl. unfold valid_record, toy_record. destruct (jr_Gate r) as [e|]; cbn.
    + unfold valid_evidence. simpl. assert (Hr : (fun _ : string => "") <$> ev_Reproduce e = replicate (length (ev_Reproduce e)) "").
      { induction (ev_Reproduce e); [done|]. simpl. by f_equal. }
      rewrite <- Hr. destruct (jr_Kind r) eqn:E; try done. by destruct (Hk kind).
    + destruct (jr_Kind r) eqn:E; try done. by destruct (Hk kind).
  - intros r [|n] Hn; [lia|]. cbn [unmarshal marshal toy_codec String.substring] in *. rewrite Ascii.eqb_refl.
    simpl in Hn. destruct (unbits_torn (encode (kind_index (jr_Kind r), jr_Seq r, jr_Attempt r,
      length ∘ ev_Reproduce <$> jr_Gate r)) n "") as [E _]; [lia|]. by rewrite E.
  - intros r [|n] r' Hn; [lia|]. cbn [unmarshal marshal toy_codec String.substring] in *.
    rewrite string_app_cons, Ascii.eqb_refl. simpl in Hn.
    match goal with |- context [String "{" ?s] => destruct (unbits_torn (encode (kind_index (jr_Kind r), jr_Seq r, jr_Attempt r,
      length ∘ ev_Reproduce <$> jr_Gate r)) n s) as [_ E]; [lia|] end. by rewrite E.
Qed.

(** Two records, and a third cut after four bytes. *)
Lemma journal_roundtrip_witness :
  let j := appends (empty_journal "run-1") [rec0 RecordRunStarted; rec0 RecordTaskStarted] in
  ReadJournal "journal" (Some (jn_file (AppendTorn j (rec0 RecordTaskSucceeded) 4)))
  = Ok (valid_record <$> [numbered_as "run-1" 1 (rec0 RecordRunStarted); numbered_as "run-1" 2 (rec0 RecordTaskStarted)], true).
Proof.
  intros j. apply (journal_roundtrip "journal" "run-1" [rec0 RecordRunStarted; rec0 RecordTaskStarted]
    (rec0 RecordTaskSucceeded) 4).
  - repeat constructor; intros k; discriminate.
  - repeat constructor; vm_compute; reflexivity.
  - vm_compute; reflexivity.
  - vm_compute. lia.
Defined.

(** The journal of one record, torn inside the second and opened again. *)
Definition reopened_journal : Journal :=
  match OpenJournal "journal" (Some (jn_file (AppendTorn (appends (empty_journal "run-1") [rec0 RecordRunStarted])
          (rec0 RecordTaskStarted) 4))) "run-1" with
  | Ok j => j
  | Err _ => empty_journal ""
  end.

Lemma torn_then_appended_witness :
  exists e, ReadJournal "journal" (Some (jn_file (Append (Append reopened_journal (rec0 RecordTaskStarted))
              (rec0 RecordTaskSucceeded)))) = Err e.
Proof.
  apply (torn_then_appended "journal" "run-1" [rec0 RecordRunStarted] (rec0 RecordTaskStarted) 4 reopened_journal
    (rec0 RecordTaskStarted) (rec0 RecordTaskSucceeded)).
  - repeat constructor; intros k; discriminate.
  - repeat constructor; vm_compute; reflexivity.
  - vm_compute; reflexivity.
  - vm_compute. lia.
  - vm_compute. reflexivity.
  - vm_compute. reflexivity.
  - vm_compute. reflexivity.
Defined.
