(* ===== verification/RunQueue.v ===== *)
(** The work queue (internal/unattended/queue.go).  A queue holds its tasks in
    declaration order and an index of pointers to them; a pointer is a position, so an
    update through the index is seen by every reader, as in the source. *)
From stdpp Require Import sorting.
From S2P Require Import Prelude GoStd RunFailure RunQA RunPlan RunJournal.

(** * Data *)

Inductive TaskState : Type := TaskPending | TaskSucceeded | TaskFailed | TaskHeld.

#[export] Instance TaskState_eq_dec : EqDecision TaskState.
Proof. solve_decision. Defined.

Definition state_string (s : TaskState) : string :=
  match s with
  | TaskPending => "pending"
  | TaskSucceeded => "succeeded"
  | TaskFailed => "failed"
  | TaskHeld => "held"
  end.

Definition Terminal (s : TaskState) : bool :=
  bool_decide (s = TaskSucceeded) || bool_decide (s = TaskFailed) || bool_decide (s = TaskHeld).

(** TaskAttempt, less its clock readings. *)
Record TaskAttempt : Type := mkAttempt {
  at_Number : Z;
  at_Succeeded : bool;
  at_Class : string;
  at_Reason : string;
  at_Output : string
}.

Record QueuedTask : Type := mkQueued {
  qt_Task : Task;
  qt_State : TaskState;
  qt_Attempts : list TaskAttempt;
  qt_HeldReason : string;
  qt_Interrupted : bool;
  qt_Resumes : Z
}.

Definition AttemptCount (t : QueuedTask) : Z := Z.of_nat (length (qt_Attempts t)).

Definition DefaultMaxResumes : Z := 20.

Definition resumeBudget (t : QueuedTask) : Z :=
  if 0 <? tk_MaxResumes (qt_Task t) then tk_MaxResumes (qt_Task t) else DefaultMaxResumes.

Definition budget (t : QueuedTask) (class : string) : Z :=
  if 0 <? tk_MaxAttempts (qt_Task t) then tk_MaxAttempts (qt_Task t)
  else MaxAttempts (PolicyFor class).

Record Queue : Type := mkQueue {
  q_tasks : list QueuedTask;
  q_index : gmap string nat;
  q_boundaries : gmap string string
}.

(** *p of a task pointer. *)
Definition task_at (q : Queue) (p : nat) : option QueuedTask := q_tasks q !! p.

(** q.index[need], followed. *)
Definition indexed (q : Queue) (need : string) : option QueuedTask :=
  q_index q !! need ≫= task_at q.

(** Writing through a task pointer. *)
Definition update (q : Queue) (p : nat) (f : QueuedTask -> QueuedTask) : Queue :=
  mkQueue (alter f p (q_tasks q)) (q_index q) (q_boundaries q).

Definition with_state (s : TaskState) (t : QueuedTask) : QueuedTask :=
  mkQueued (qt_Task t) s (qt_Attempts t) (qt_HeldReason t) (qt_Interrupted t) (qt_Resumes t).

Definition held (reason : string) (t : QueuedTask) : QueuedTask :=
  mkQueued (qt_Task t) TaskHeld (qt_Attempts t) reason (qt_Interrupted t) (qt_Resumes t).

(** * Holds *)

Definition boundaryHold (boundaries : gmap string string) (t : Task) : option string :=
  let blocked := tk_RequiresChecks t ≫= fun id =>
    match boundaries !! id with
    | Some action => [id +:+ " (" +:+ action +:+ ")"]
    | None => []
    end in
  match blocked with
  | [] => None
  | _ => Some ("requires a capability behind a human boundary: " +:+ join_with "; " blocked)
  end.

Definition dead (s : TaskState) : bool :=
  bool_decide (s = TaskFailed) || bool_decide (s = TaskHeld).

(** The needs of a task that can no longer succeed. *)
Definition blocked_by (q : Queue) (t : QueuedTask) : list string :=
  tk_Needs (qt_Task t) ≫= fun need =>
    match indexed q need with
    | None => []
    | Some dep => if dead (qt_State dep) then [need +:+ " is " +:+ state_string (qt_State dep)] else []
    end.

(** One pass of the inner loop over the positions given, and whether it held a task. *)
Fixpoint hold_pass (ps : list nat) (q : Queue) : bool * Queue :=
  match ps with
  | [] => (false, q)
  | p :: ps' =>
      match task_at q p with
      | None => hold_pass ps' q
      | Some t =>
          match qt_State t, blocked_by q t with
          | TaskPending, (_ :: _) as blocked =>
              let '(_, q') := hold_pass ps' (update q p
                (held ("depends on work that did not succeed: " +:+ join_with "; " blocked))) in
              (true, q')
          | _, _ => hold_pass ps' q
          end
      end
  end.

Fixpoint propagate (fuel : nat) (q : Queue) : Queue :=
  match fuel with
  | O => q
  | S f =>
      let '(changed, q') := hold_pass (seq 0 (length (q_tasks q))) q in
      if changed then propagate f q' else q'
  end.

(** propagateHolds: every pass but the last holds a task that was pending, so one
    pass per task and one more reach the fixed point (propagateHolds_stable). *)
Definition propagateHolds (q : Queue) : Queue := propagate (S (length (q_tasks q))) q.

Definition queued (boundaries : gmap string string) (t : Task) : QueuedTask :=
  match boundaryHold boundaries t with
  | Some why => mkQueued t TaskHeld [] why false 0
  | None => mkQueued t TaskPending [] "" false 0
  end.

(** The positions of the tasks; a later duplicate of an identifier wins. *)
Fixpoint index_tasks (i : nat) (ts : list Task) (m : gmap string nat) : gmap string nat :=
  match ts with
  | [] => m
  | t :: ts' => index_tasks (S i) ts' (<[tk_ID t := i]> m)
  end.

Definition NewQueue (plan : Plan) (boundaries : gmap string string) : Queue :=
  propagateHolds (mkQueue (queued boundaries <$> pl_Tasks plan) (index_tasks 0 (pl_Tasks plan) ∅)
                    boundaries).

(** * Restore *)

Definition restored_attempt (i : nat) : TaskAttempt :=
  mkAttempt (Z.of_nat i) false "" "attempt recorded by an earlier run of this journal" "".

Definition restored_attempts (n : Z) : list TaskAttempt := restored_attempt <$> seq 1 (Z.to_nat n).

(** The body of the loop over the tasks, which touches only its own task. *)
Definition restore_task (st : ResumeState) (t : QueuedTask) : QueuedTask :=
  let id := tk_ID (qt_Task t) in
  if bool_decide (id ∈ rs_Succeeded st) then with_state TaskSucceeded t
  else
    let n := zget (rs_Attempts st) id in
    let attempts := if (0 <? n) && bool_decide (qt_Attempts t = [])
                    then restored_attempts n else qt_Attempts t in
    let m := zget (rs_Resumes st) id in
    let resumes := if qt_Resumes t <? m then m else qt_Resumes t in
    let t := mkQueued (qt_Task t) (qt_State t) attempts (qt_HeldReason t) (qt_Interrupted t) resumes in
    if resumeBudget t <? qt_Resumes t then
      held ("did not converge within its " +:+ Itoa (resumeBudget t)
            +:+ " resume(s); the bound is durable and restarting does not renew it") t
    else if bool_decide (id ∈ rs_Interrupted st) then
      mkQueued (qt_Task t) (qt_State t) (qt_Attempts t) (qt_HeldReason t) true (qt_Resumes t)
    else t.

Definition Restore (st : ResumeState) (q : Queue) : Queue :=
  propagateHolds (mkQueue (restore_task st <$> q_tasks q) (q_index q) (q_boundaries q)).

(** * Selection *)

Definition dependenciesSatisfied (q : Queue) (t : QueuedTask) : bool :=
  forallb (fun need => match indexed q need with
                       | None => true
                       | Some dep => bool_decide (qt_State dep = TaskSucceeded)
                       end) (tk_Needs (qt_Task t)).

Definition eligible (q : Queue) (t : QueuedTask) : bool :=
  bool_decide (qt_State t = TaskPending) && dependenciesSatisfied q t.

(** The loop of Next over the remaining tasks, from position p, with the best so far. *)
Fixpoint next_from (q : Queue) (p : nat) (ts : list QueuedTask) (best : option (nat * QueuedTask))
  : option (nat * QueuedTask) :=
  match ts with
  | [] => best
  | t :: ts' =>
      if eligible q t then
        match best with
        | None => next_from q (S p) ts' (Some (p, t))
        | Some (_, b) =>
            if band_Rank (tk_Band (qt_Task t)) <? band_Rank (tk_Band (qt_Task b))
            then next_from q (S p) ts' (Some (p, t)) else next_from q (S p) ts' best
        end
      else next_from q (S p) ts' best
  end.

Definition Next (q : Queue) : option (nat * QueuedTask) := next_from q 0 (q_tasks q) None.

(** * Recording *)

Definition numbered (t : QueuedTask) (a : TaskAttempt) : TaskAttempt :=
  mkAttempt (Z.of_nat (length (qt_Attempts t)) + 1) (at_Succeeded a) (at_Class a) (at_Reason a)
    (at_Output a).

Definition add_attempt (a : TaskAttempt) (t : QueuedTask) : QueuedTask :=
  mkQueued (qt_Task t) (qt_State t) (qt_Attempts t ++ [numbered t a]) (qt_HeldReason t)
    (qt_Interrupted t) (qt_Resumes t).

(** RecordAttempt: the queue, and the delay when the task will be retried. *)
Definition RecordAttempt (q : Queue) (p : nat) (a : TaskAttempt) : Queue * option Z :=
  let q := update q p (add_attempt a) in
  match task_at q p with
  | None => (q, None)
  | Some t =>
      if at_Succeeded a then (propagateHolds (update q p (with_state TaskSucceeded)), None)
      else if budget t (at_Class a) <=? AttemptCount t then
        (propagateHolds (update q p (with_state TaskFailed)), None)
      else (update q p (with_state TaskPending),
            Some (Backoff (PolicyFor (at_Class a)) (AttemptCount t)))
  end.

Definition add_resume (t : QueuedTask) : QueuedTask :=
  mkQueued (qt_Task t) TaskPending (qt_Attempts t) (qt_HeldReason t) (qt_Interrupted t)
    (qt_Resumes t + 1).

(** RecordResume: the queue, the resumes used, the budget, and whether one more is allowed. *)
Definition RecordResume (q : Queue) (p : nat) : Queue * (Z * Z * bool) :=
  let q := update q p add_resume in
  match task_at q p with
  | None => (q, (0, 0, false))
  | Some t => (q, (qt_Resumes t, resumeBudget t, qt_Resumes t <=? resumeBudget t))
  end.

Definition Hold (q : Queue) (p : nat) (reason : string) : Queue :=
  propagateHolds (update q p (held reason)).

(** * Reports *)

Definition Counts (q : Queue) (s : TaskState) : Z :=
  Z.of_nat (length (filter (fun t => qt_State t = s) (q_tasks q))).

Definition Exhausted (q : Queue) : bool :=
  match Next q with Some _ => false | None => true end.

Definition PrimaryWorkOutstanding (q : Queue) : bool :=
  existsb (fun t => String.eqb (tk_Band (qt_Task t)) BandPrimary
                    && negb (bool_decide (qt_State t = TaskSucceeded))) (q_tasks q).

Definition Summary (q : Queue) : string :=
  join_with " " (sort_Strings ([TaskPending; TaskSucceeded; TaskFailed; TaskHeld] ≫= fun s =>
    if 0 <? Counts q s then [state_string s +:+ "=" +:+ Itoa (Counts q s)] else [])).
