(* ===== verification/RunQueueProps.v ===== *)
(** The work queue is correct: holds are propagated exactly to the tasks that can no
    longer run, Next selects the preferred runnable task, and in a validated plan a
    queue with nothing to select has no task left pending. *)
From S2P Require Import Prelude GoStd RunFailure RunQA RunPlan RunJournal RunQueue.

(** * Shape: what no operation changes *)

Definition same_shape (q q' : Queue) : Prop :=
  qt_Task <$> q_tasks q' = qt_Task <$> q_tasks q
  /\ q_index q' = q_index q /\ q_boundaries q' = q_boundaries q.

#[export] Instance same_shape_preorder : PreOrder same_shape.
Proof. split; [by intros q|]. intros q1 q2 q3 (? & ? & ?) (? & ? & ?). repeat split; congruence. Qed.

(** A write that keeps the declared task. *)
Definition keeps_task (f : QueuedTask -> QueuedTask) : Prop := forall t, qt_Task (f t) = qt_Task t.

Lemma alter_fmap_task f p (ts : list QueuedTask) : keeps_task f -> qt_Task <$> alter f p ts = qt_Task <$> ts.
Proof.
  intros Hf. apply list_eq. intros i. rewrite !list_lookup_fmap.
  destruct (decide (p = i)) as [->|E]; [rewrite list_lookup_alter_eq|by rewrite list_lookup_alter_ne].
  destruct (ts !! i); simpl; [by rewrite Hf|done].
Qed.

Lemma update_shape q p f : keeps_task f -> same_shape q (update q p f).
Proof. intros Hf. split; [by apply alter_fmap_task|done]. Qed.

Lemma task_at_update q p f p' :
  task_at (update q p f) p' = if decide (p = p') then f <$> task_at q p' else task_at q p'.
Proof.
  unfold task_at. simpl. case_decide as E; [subst; apply list_lookup_alter_eq|by apply list_lookup_alter_ne].
Qed.

Lemma keeps_held r : keeps_task (held r).
Proof. done. Qed.
Lemma keeps_with_state s : keeps_task (with_state s).
Proof. done. Qed.
Lemma keeps_add_attempt a : keeps_task (add_attempt a).
Proof. done. Qed.
Lemma keeps_add_resume : keeps_task add_resume.
Proof. done. Qed.
Create HintDb runq.
#[export] Hint Resolve keeps_held keeps_with_state keeps_add_attempt keeps_add_resume update_shape : runq.

(** * States decide what is blocked and what is eligible *)

Definition states (q : Queue) : list TaskState := qt_State <$> q_tasks q.

Definition state_of (q : Queue) (need : string) : option TaskState := qt_State <$> indexed q need.

Lemma state_of_lookup q need : state_of q need = q_index q !! need ≫= (fun p => states q !! p).
Proof.
  unfold state_of, indexed, task_at, states. destruct (q_index q !! need) as [p|]; simpl; [|done].
  by rewrite list_lookup_fmap.
Qed.

Lemma blocked_by_nil q t :
  blocked_by q t = []
  <-> forall need s, need ∈ tk_Needs (qt_Task t) -> state_of q need = Some s -> dead s = false.
Proof.
  unfold blocked_by, state_of. rewrite bind_nil, Forall_forall. split; intros Hf need.
  - intros s Hn Hs. specialize (Hf need Hn). destruct (indexed q need) as [d|]; simplify_eq/=.
    by destruct (dead (qt_State d)).
  - intros Hn. specialize (fun s => Hf need s Hn). destruct (indexed q need) as [d|]; [|done].
    by rewrite (Hf (qt_State d)).
Qed.

Lemma satisfied_spec q t :
  dependenciesSatisfied q t = true
  <-> forall need s, need ∈ tk_Needs (qt_Task t) -> state_of q need = Some s -> s = TaskSucceeded.
Proof.
  unfold dependenciesSatisfied, state_of. rewrite forallb_forall. split; intros Hf need.
  - intros s Hn Hs. specialize (Hf need ltac:(by apply list_elem_of_In)).
    destruct (indexed q need) as [d|]; simplify_eq/=. by apply bool_decide_eq_true in Hf.
  - intros Hn%list_elem_of_In. specialize (fun s => Hf need s Hn). destruct (indexed q need) as [d|]; [|done].
    rewrite (Hf (qt_State d)) by done. done.
Qed.

(** No pending task depends on one that cannot succeed. *)
Definition stable (q : Queue) : Prop :=
  forall p t, task_at q p = Some t -> qt_State t = TaskPending -> blocked_by q t = [].

Lemma states_transfer q q' p t :
  same_shape q q' -> states q' = states q -> task_at q' p = Some t ->
  exists t0, task_at q p = Some t0 /\ qt_Task t0 = qt_Task t /\ qt_State t0 = qt_State t.
Proof.
  intros (Ht & _ & _) Hs Hp. unfold task_at, states in *.
  assert (H1 : (qt_Task <$> q_tasks q) !! p = Some (qt_Task t)).
  { rewrite <- Ht, list_lookup_fmap, Hp. done. }
  assert (H2 : (qt_State <$> q_tasks q) !! p = Some (qt_State t)).
  { rewrite <- Hs, list_lookup_fmap, Hp. done. }
  rewrite list_lookup_fmap in H1. rewrite list_lookup_fmap in H2. destruct (q_tasks q !! p) as [t0|]; simplify_eq/=. eauto.
Qed.

Lemma stable_states q q' : same_shape q q' -> states q' = states q -> stable q -> stable q'.
Proof.
  intros Hsh Hs Hst p t Hp Hpend. destruct (states_transfer _ _ _ _ Hsh Hs Hp) as (t0 & Hp0 & Ht & Hst0).
  specialize (Hst p t0 Hp0 ltac:(congruence)). rewrite blocked_by_nil in Hst |- *.
  intros need s. rewrite <- Ht. rewrite state_of_lookup, Hs. destruct Hsh as (_ & -> & _).
  rewrite <- state_of_lookup. apply Hst.
Qed.

Lemma states_update q p f t :
  task_at q p = Some t -> qt_State (f t) = qt_State t -> states (update q p f) = states q.
Proof.
  intros Hp Hf. unfold states. simpl. apply list_eq. intros i. rewrite !list_lookup_fmap.
  destruct (decide (p = i)) as [->|E]; [rewrite list_lookup_alter_eq|by rewrite list_lookup_alter_ne].
  unfold task_at in Hp. rewrite Hp. simpl. by rewrite Hf.
Qed.

(** * Propagation as steps *)

(** One hold: a pending task with a dead need. *)
Definition hstep (q q' : Queue) : Prop :=
  exists p t r, task_at q p = Some t /\ qt_State t = TaskPending /\ blocked_by q t <> []
                /\ q' = update q p (held r).

Definition pendings (q : Queue) : nat := length (filter (fun t => qt_State t = TaskPending) (q_tasks q)).

Lemma pendings_held (ts : list QueuedTask) p t r :
  ts !! p = Some t -> qt_State t = TaskPending ->
  (length (filter (fun t => qt_State t = TaskPending) (alter (held r) p ts))
   < length (filter (fun t => qt_State t = TaskPending) ts))%nat.
Proof.
  revert p. induction ts as [|u ts IH]; intros [|p] Hp Hs; simplify_eq/=.
  - rewrite filter_cons_False by done. rewrite filter_cons_True by done. simpl. lia.
  - specialize (IH p Hp Hs). rewrite !filter_cons. case_decide; simpl; unfold alter in *; lia.
Qed.

Lemma hstep_pendings q q' : hstep q q' -> (pendings q' < pendings q)%nat.
Proof. intros (p & t & r & Hp & Hs & _ & ->). by eapply pendings_held. Qed.

Lemma hstep_shape q q' : hstep q q' -> same_shape q q'.
Proof. intros (p & t & r & _ & _ & _ & ->). by apply update_shape. Qed.

Lemma hsteps_shape q q' : rtc hstep q q' -> same_shape q q'.
Proof. induction 1; [done|]. etrans; [by apply hstep_shape|done]. Qed.

Lemma same_shape_length q q' : same_shape q q' -> length (q_tasks q') = length (q_tasks q).
Proof. intros (H & _). by rewrite <- (length_fmap qt_Task), H, length_fmap. Qed.

Lemma hold_pass_spec ps q :
  let '(changed, q') := hold_pass ps q in
  rtc hstep q q'
  /\ (changed = true -> (pendings q' < pendings q)%nat)
  /\ (changed = false -> q' = q /\ forall p t, p ∈ ps -> task_at q p = Some t ->
        qt_State t = TaskPending -> blocked_by q t = []).
Proof.
  revert q. induction ps as [|p ps IH]; intros q; simpl.
  { split; [done|]. split; [done|]. intros _. split; [done|]. by intros p t Hp%elem_of_nil. }
  assert (Hskip : (forall t, task_at q p = Some t -> qt_State t = TaskPending -> blocked_by q t = []) ->
    let '(changed, q') := hold_pass ps q in
    rtc hstep q q' /\ (changed = true -> (pendings q' < pendings q)%nat)
    /\ (changed = false -> q' = q /\ forall p' t, p' ∈ p :: ps -> task_at q p' = Some t ->
        qt_State t = TaskPending -> blocked_by q t = [])).
  { intros Hq. specialize (IH q). destruct (hold_pass ps q) as [c q'].
    destruct IH as (? & ? & Hf). split; [done|]. split; [done|]. intros E. destruct (Hf E) as [-> Hf'].
    split; [done|]. intros p' t [->|?]%elem_of_cons; eauto. }
  destruct (task_at q p) as [t|] eqn:Ep; [|by apply Hskip].
  destruct (qt_State t) eqn:Es; [|apply Hskip; intros t' [= <-]; congruence..].
  destruct (blocked_by q t) as [|b bs] eqn:Eb; [apply Hskip; by intros t' [= <-]|].
  match goal with |- context [update q p (held ?r)] => assert (Hstep : hstep q (update q p (held r))) end.
  { exists p, t. eexists. repeat split; try done. congruence. }
  match goal with |- context [update q p (held ?r)] => specialize (IH (update q p (held r))) end.
  apply hstep_pendings in Hstep as Hlt. destruct (hold_pass ps _) as [c q'].
  destruct IH as (Hr & Ht & Hf). split; [by eapply rtc_l|]. split; [|done]. intros _.
  destruct c; [specialize (Ht eq_refl); lia|]. destruct (Hf eq_refl) as [-> _]. lia.
Qed.

Lemma propagate_spec fuel q :
  (pendings q < fuel)%nat -> rtc hstep q (propagate fuel q) /\ stable (propagate fuel q).
Proof.
  revert q. induction fuel as [|f IH]; intros q Hf; [lia|]. simpl.
  pose proof (hold_pass_spec (seq 0 (length (q_tasks q))) q) as Hp.
  destruct (hold_pass _ q) as [c q']. destruct Hp as (Hr & Ht & Hs). destruct c.
  - specialize (Ht eq_refl). destruct (IH q') as [Hr' Hst]; [lia|]. split; [by etrans|done].
  - destruct (Hs eq_refl) as [-> Hst]. split; [done|]. intros p t Hp. apply (Hst p t); [|done].
    apply elem_of_seq. apply lookup_lt_Some in Hp. lia.
Qed.

Lemma propagateHolds_steps q : rtc hstep q (propagateHolds q).
Proof. apply propagate_spec. unfold pendings. assert (H := length_filter (fun t => qt_State t = TaskPending) (q_tasks q)). lia. Qed.

Lemma propagateHolds_stable q : stable (propagateHolds q).
Proof. apply propagate_spec. unfold pendings. assert (H := length_filter (fun t => qt_State t = TaskPending) (q_tasks q)). lia. Qed.

Lemma propagateHolds_shape q : same_shape q (propagateHolds q).
Proof. apply hsteps_shape, propagateHolds_steps. Qed.

(** * What propagation holds *)

(** The reference: a pending task that needs a failed or held task, or needs a doomed one. *)
Inductive doomed (q : Queue) : nat -> Prop :=
| doomed_dead p t need j d :
    task_at q p = Some t -> qt_State t = TaskPending -> need ∈ tk_Needs (qt_Task t) ->
    q_index q !! need = Some j -> task_at q j = Some d -> dead (qt_State d) = true ->
    doomed q p
| doomed_need p t need j :
    task_at q p = Some t -> qt_State t = TaskPending -> need ∈ tk_Needs (qt_Task t) ->
    q_index q !! need = Some j -> doomed q j -> doomed q p.

(** Every task is as it was, or was pending, is doomed, and is now held. *)
Definition held_from (q q' : Queue) : Prop :=
  forall p, task_at q' p = task_at q p
    \/ exists t r, task_at q p = Some t /\ qt_State t = TaskPending /\ doomed q p
                   /\ task_at q' p = Some (held r t).

Lemma held_from_step q q1 q2 : same_shape q q1 -> held_from q q1 -> hstep q1 q2 -> held_from q q2.
Proof.
  intros (_ & Hi & _) Hh (p & t & r & Hp & Hs & Hb & ->) p'. rewrite task_at_update.
  case_decide as E; [subst p'|apply Hh]. right. rewrite Hp. simpl.
  destruct (Hh p) as [Hsame|(t0 & r0 & _ & _ & _ & Hp')]; [|rewrite Hp in Hp'; by simplify_eq].
  exists t, r. rewrite <- Hsame, Hp. split; [done|]. split; [done|]. split; [|done].
  destruct (blocked_by q1 t) as [|b bs] eqn:Eb; [done|].
  assert (Hx : exists need s, need ∈ tk_Needs (qt_Task t) /\ state_of q1 need = Some s /\ dead s = true).
  { assert (Hb' : blocked_by q1 t <> []) by congruence. unfold blocked_by in Hb'.
    rewrite bind_nil in Hb'. apply not_Forall_Exists in Hb'; [|apply _]. apply Exists_exists in Hb' as (need & Hn & Hne).
    unfold state_of. destruct (indexed q1 need) as [d|] eqn:Ed; [|by destruct Hne; rewrite Ed].
    exists need, (qt_State d). rewrite Ed.
    split; [done|]. split; [done|]. apply not_false_is_true. intros Ee. apply Hne. by rewrite Ed, Ee. }
  destruct Hx as (need & s & Hn & Hst & Hd). unfold state_of, indexed in Hst. rewrite Hi in Hst.
  destruct (q_index q !! need) as [j|] eqn:Ej; [|done]. simpl in Hst.
  destruct (Hh j) as [Hj|(tj & rj & Hj & _ & Hdj & _)].
  - rewrite Hj in Hst. destruct (task_at q j) as [d|] eqn:Etj; simplify_eq/=.
    eapply doomed_dead; eauto. by rewrite <- Hsame.
  - eapply doomed_need; eauto. by rewrite <- Hsame.
Qed.

Lemma held_from_steps q q' : rtc hstep q q' -> held_from q q'.
Proof.
  intros Hr. assert (Hg : forall q1, same_shape q q1 -> held_from q q1 -> rtc hstep q1 q' -> held_from q q').
  { clear Hr. intros q1 Hs Hh Hr1. induction Hr1 as [|q1 q2 q3 Hst _ IH]; [done|].
    apply IH; [etrans; [done|by apply hstep_shape]|by eapply held_from_step]. }
  apply (Hg q); [done|by left|done].
Qed.

(** A doomed task is not left pending by a stable queue reached by holds. *)
Lemma doomed_held q q' p t :
  held_from q q' -> same_shape q q' -> stable q' -> doomed q p -> task_at q p = Some t ->
  exists r, task_at q' p = Some (held r t).
Proof.
  intros Hh (_ & Hi & _) Hst Hd. revert t.
  assert (Hgo : forall p t need s, task_at q p = Some t -> qt_State t = TaskPending ->
    need ∈ tk_Needs (qt_Task t) -> state_of q' need = Some s -> dead s = true ->
    exists r, task_at q' p = Some (held r t)).
  { clear p Hd. intros p t need s Hp Hs Hn Hso Hdead. destruct (Hh p) as [E|(t0 & r & Hp0 & _ & _ & E)].
    - rewrite Hp in E. specialize (Hst p t E Hs). rewrite blocked_by_nil in Hst.
      specialize (Hst need s Hn Hso). congruence.
    - simplify_eq. eauto. }
  induction Hd as [p t need j d Hp Hs Hn Hj Hjd Hdead|p t need j Hp Hs Hn Hj Hd IH]; intros t' Hp'; rewrite Hp in Hp'; injection Hp' as <-.
  - apply (Hgo p t need (qt_State d)); try done. unfold state_of, indexed. rewrite Hi, Hj. simpl.
    destruct (Hh j) as [->|(d' & r & Hjd' & Hpend & _ & _)]; [by rewrite Hjd|]. simplify_eq. by rewrite Hpend in Hdead.
  - assert (exists tj, task_at q j = Some tj) as [tj Htj] by (by inversion Hd; eauto).
    destruct (IH tj Htj) as [r Hr]. apply (Hgo p t need TaskHeld); try done.
    unfold state_of, indexed. rewrite Hi, Hj. simpl. by rewrite Hr.
Qed.

(** Holds reach exactly the tasks that can no longer run: propagation holds every
    pending task with a chain of pending needs down to a failed or held one, leaves
    every other task as it was, and stops with no pending task behind a dead one. *)
Theorem propagateHolds_exact q p t :
  task_at q p = Some t ->
  ((doomed q p /\ exists r, task_at (propagateHolds q) p = Some (held r t))
   \/ (~ doomed q p /\ task_at (propagateHolds q) p = Some t))
  /\ stable (propagateHolds q).
Proof.
  intros Hp. split; [|apply propagateHolds_stable].
  assert (Hh := held_from_steps _ _ (propagateHolds_steps q)).
  destruct (Hh p) as [E|(t0 & r & Hp0 & _ & Hd & E)]; [|left; simplify_eq; eauto].
  right. split; [|by rewrite E]. intros Hd.
  destruct (doomed_held _ _ _ _ Hh (propagateHolds_shape q) (propagateHolds_stable q) Hd Hp) as [r Hr].
  rewrite E, Hp in Hr. assert (Hpend : qt_State t = TaskPending) by (by inversion Hd; simplify_eq).
  injection Hr as Ht. rewrite Ht in Hpend. done.
Qed.

(** * Next *)

Definition rank_of (t : QueuedTask) : Z := band_Rank (tk_Band (qt_Task t)).

(** Preference: band first, then declaration order. *)
Definition preferred (a b : nat * QueuedTask) : Prop :=
  rank_of a.2 < rank_of b.2 \/ rank_of a.2 = rank_of b.2 /\ (a.1 <= b.1)%nat.

(** One turn of the loop. *)
Definition pick (q : Queue) (best : option (nat * QueuedTask)) (x : nat * QueuedTask)
  : option (nat * QueuedTask) :=
  if eligible q x.2 then
    match best with
    | None => Some x
    | Some b => if rank_of x.2 <? rank_of b.2 then Some x else Some b
    end
  else best.

Lemma next_from_pick q p t ts best :
  next_from q p (t :: ts) best = next_from q (S p) ts (pick q best (p, t)).
Proof.
  unfold pick, rank_of. simpl. destruct (eligible q t); [|done]. destruct best as [[bp b]|]; [|done].
  simpl. by destruct (_ <? _).
Qed.

(** The candidate is the preferred eligible one of those seen. *)
Definition best_of (q : Queue) (seen : list (nat * QueuedTask)) (best : option (nat * QueuedTask)) : Prop :=
  match best with
  | None => forall x, x ∈ seen -> eligible q x.2 = false
  | Some b => b ∈ seen /\ eligible q b.2 = true
              /\ forall x, x ∈ seen -> eligible q x.2 = true -> preferred b x
  end.

Lemma pick_best q seen best x :
  (forall y, y ∈ seen -> (y.1 < x.1)%nat) -> best_of q seen best ->
  best_of q (seen ++ [x]) (pick q best x).
Proof.
  intros Hlt Hb. unfold pick. destruct (eligible q x.2) eqn:Ee.
  - destruct best as [b|]; simpl in Hb.
    + destruct Hb as (Hin & He & Hp). assert (Hbx := Hlt b Hin).
      destruct (Z.ltb_spec (rank_of x.2) (rank_of b.2)); simpl.
      * split; [apply elem_of_app; right; left|]. split; [done|].
        intros y [Hy| ->%list_elem_of_singleton]%elem_of_app Hey; [|by right].
        specialize (Hp y Hy Hey). unfold preferred in *. lia.
      * split; [by apply elem_of_app; left|]. split; [done|].
        intros y [Hy| ->%list_elem_of_singleton]%elem_of_app Hey; [by apply Hp|]. unfold preferred. lia.
    + split; [apply elem_of_app; right; left|]. split; [done|].
      intros y [Hy| ->%list_elem_of_singleton]%elem_of_app Hey; [|by right]. rewrite Hb in Hey by done. done.
  - destruct best as [b|]; simpl in *.
    + destruct Hb as (Hin & He & Hp). split; [by apply elem_of_app; left|]. split; [done|].
      intros y [Hy| ->%list_elem_of_singleton]%elem_of_app Hey; [by apply Hp|congruence].
    + intros y [Hy| ->%list_elem_of_singleton]%elem_of_app; [by apply Hb|done].
Qed.

Definition from (p : nat) (ts : list QueuedTask) : list (nat * QueuedTask) :=
  imap (fun i t => ((p + i)%nat, t)) ts.

Lemma from_cons p t ts : from p (t :: ts) = (p, t) :: from (S p) ts.
Proof.
  unfold from. rewrite imap_cons. simpl. rewrite Nat.add_0_r. f_equal.
  apply imap_ext. intros i u _. simpl. f_equal. lia.
Qed.

Lemma next_from_best q ts : forall p seen best,
  (forall y, y ∈ seen -> (y.1 < p)%nat) -> best_of q seen best ->
  best_of q (seen ++ from p ts) (next_from q p ts best).
Proof.
  induction ts as [|t ts IH]; intros p seen best Hlt Hb; [by rewrite app_nil_r|].
  rewrite next_from_pick, from_cons, cons_middle, app_assoc. apply IH.
  - intros y [Hy| ->%list_elem_of_singleton]%elem_of_app; [specialize (Hlt y Hy)|simpl]; lia.
  - by apply pick_best.
Qed.

Lemma elem_of_from p t q : (p, t) ∈ from 0 (q_tasks q) <-> task_at q p = Some t.
Proof.
  unfold from, task_at. rewrite list_elem_of_lookup. setoid_rewrite list_lookup_imap. split.
  - intros (i & Hi). destruct (q_tasks q !! i) eqn:E; by simplify_eq/=.
  - intros Hp. exists p. by rewrite Hp.
Qed.

Lemma Next_best q :
  match Next q with
  | None => forall p t, task_at q p = Some t -> eligible q t = false
  | Some (p, t) =>
      task_at q p = Some t /\ eligible q t = true
      /\ forall p' t', task_at q p' = Some t' -> eligible q t' = true -> preferred (p, t) (p', t')
  end.
Proof.
  assert (Hb : best_of q ([] ++ from 0 (q_tasks q)) (Next q)).
  { apply next_from_best; [by intros y Hy%elem_of_nil|]. by intros y Hy%elem_of_nil. }
  simpl in Hb. destruct (Next q) as [[p t]|]; simpl in Hb.
  - destruct Hb as (Hin & He & Hp). split; [by apply elem_of_from|]. split; [done|].
    intros p' t' Hp'. apply (Hp (p', t')). by apply elem_of_from.
  - intros p t Hp. apply (Hb (p, t)). by apply elem_of_from.
Qed.

(** Next selects a task that is pending with every need succeeded, preferred to
    every other such task by band and then by declaration order, and reports none
    exactly when there is none. *)
Theorem Next_exact q :
  match Next q with
  | None => forall p t, task_at q p = Some t -> eligible q t = false
  | Some (p, t) =>
      task_at q p = Some t /\ eligible q t = true
      /\ forall p' t', task_at q p' = Some t' -> eligible q t' = true -> preferred (p, t) (p', t')
  end.
Proof. apply Next_best. Qed.

(** * Queues of a validated plan *)

(** The queue holds the tasks of the plan, indexed by name. *)
Definition follows (plan : Plan) (q : Queue) : Prop :=
  qt_Task <$> q_tasks q = pl_Tasks plan /\ q_index q = index_tasks 0 (pl_Tasks plan) ∅.

Lemma follows_shape plan q q' : same_shape q q' -> follows plan q -> follows plan q'.
Proof. intros (H1 & H2 & _) [? ?]. split; congruence. Qed.

Lemma index_tasks_other ts : forall i m id,
  id ∉ tk_ID <$> ts -> index_tasks i ts m !! id = m !! id.
Proof.
  induction ts as [|t ts IH]; intros i m id Hn; [done|]. rewrite fmap_cons, not_elem_of_cons in Hn.
  destruct Hn as [Hne Hn]. simpl. rewrite IH by done. by rewrite lookup_insert_ne.
Qed.

Lemma index_tasks_lookup ts : forall i m k t,
  NoDup (tk_ID <$> ts) -> ts !! k = Some t -> index_tasks i ts m !! tk_ID t = Some (i + k)%nat.
Proof.
  induction ts as [|u ts IH]; intros i m [|k] t Hn Hk; simplify_eq/=; apply NoDup_cons in Hn as [Hu Hn].
  - rewrite index_tasks_other by done. rewrite lookup_insert_eq. f_equal. lia.
  - rewrite (IH (S i) _ k t Hn Hk). f_equal. lia.
Qed.

Lemma follows_task plan q p t : follows plan q -> task_at q p = Some t -> pl_Tasks plan !! p = Some (qt_Task t).
Proof. intros [<- _] Hp. unfold task_at in Hp. by rewrite list_lookup_fmap, Hp. Qed.

(** Through the index a need reaches the task of that name. *)
Lemma follows_indexed plan q p t :
  plan_ok plan -> follows plan q -> task_at q p = Some t -> indexed q (tk_ID (qt_Task t)) = Some t.
Proof.
  intros Hok Hf Hp. unfold indexed. destruct Hf as [Hf1 Hf2] eqn:E. rewrite Hf2.
  rewrite (index_tasks_lookup _ _ _ p (qt_Task t)); [done|apply Hok|by eapply follows_task].
Qed.

Lemma follows_need plan q t need :
  plan_ok plan -> follows plan q -> t ∈ q_tasks q -> need ∈ tk_Needs (qt_Task t) ->
  exists p d, task_at q p = Some d /\ tk_ID (qt_Task d) = need /\ indexed q need = Some d.
Proof.
  intros Hok Hf Ht Hn. destruct (ok_needs _ Hok (qt_Task t) need) as [_ Hin]; [|done|].
  { destruct Hf as [<- _]. by apply list_elem_of_fmap_2. }
  apply list_elem_of_fmap in Hin as (d & -> & Hd). destruct Hf as [Hf1 Hf2] eqn:E.
  rewrite <- Hf1 in Hd. apply list_elem_of_fmap in Hd as (d' & -> & Hd').
  apply list_elem_of_lookup in Hd' as [p Hp]. exists p, d'. split; [done|]. split; [done|].
  by eapply follows_indexed.
Qed.

(** A task pending in a stable queue with nothing to select would need another one. *)
Lemma no_pending_chain plan q :
  plan_ok plan -> follows plan q -> stable q -> Next q = None ->
  forall id, grounded (needs_of (pl_Tasks plan)) id ->
  forall p t, task_at q p = Some t -> tk_ID (qt_Task t) = id -> qt_State t <> TaskPending.
Proof.
  intros Hok Hf Hst Hnext id Hg. induction Hg as [id _ IH]. intros p t Hp Hid Hpend.
  assert (Hnone := Next_best q). rewrite Hnext in Hnone.
  specialize (Hnone p t Hp). unfold eligible in Hnone. rewrite bool_decide_eq_true_2 in Hnone by done.
  simpl in Hnone. apply not_true_iff_false in Hnone. apply Hnone, satisfied_spec.
  intros need s Hn Hs. assert (Hin : t ∈ q_tasks q) by (by apply list_elem_of_lookup; exists p).
  destruct (follows_need plan q t need Hok Hf Hin Hn) as (pd & d & Hpd & Hdid & Hidx).
  unfold state_of in Hs. rewrite Hidx in Hs. simplify_eq/=.
  specialize (Hst p t Hp Hpend). rewrite blocked_by_nil in Hst.
  specialize (Hst (tk_ID (qt_Task d)) (qt_State d) Hn). unfold state_of in Hst. rewrite Hidx in Hst.
  specialize (Hst eq_refl). assert (Hnp : qt_State d <> TaskPending).
  { apply (IH (tk_ID (qt_Task d))) with pd; try done.
    exists (tk_Needs (qt_Task t)). split; [|split; [done|]].
    - apply needs_of_task; [apply Hok|]. destruct Hf as [<- _]. by apply list_elem_of_fmap_2.
    - apply needs_of_known, list_elem_of_fmap. exists (qt_Task d). split; [done|].
      apply list_elem_of_lookup. exists pd. by eapply follows_task. }
  by destruct (qt_State d).
Qed.

Lemma nothing_stranded plan q :
  plan_ok plan -> follows plan q -> stable q -> Next q = None ->
  forall p t, task_at q p = Some t -> Terminal (qt_State t) = true.
Proof.
  intros Hok Hf Hst Hnext p t Hp. enough (qt_State t <> TaskPending) by (by destruct (qt_State t)).
  apply (no_pending_chain plan q Hok Hf Hst Hnext (tk_ID (qt_Task t))) with p; [|done|done].
  destruct (cycle_search (pl_Tasks plan)) as (_ & Hc & Hg). apply Hg.
  - apply Hc, Hok.
  - apply list_elem_of_fmap. exists (qt_Task t). split; [done|].
    apply list_elem_of_lookup. exists p. by eapply follows_task.
Qed.

(** * The operations keep the queue in shape and stable *)

Lemma NewQueue_follows plan bs : follows plan (NewQueue plan bs).
Proof.
  eapply follows_shape; [apply propagateHolds_shape|]. split; [|done]. simpl.
  rewrite <- list_fmap_compose. rewrite <- (list_fmap_id (pl_Tasks plan)) at 2.
  apply list_fmap_ext. intros i t _. unfold queued. simpl. by destruct (boundaryHold bs t).
Qed.

Lemma restore_task_keeps st : keeps_task (restore_task st).
Proof. intros t. unfold restore_task. case_bool_decide; [done|]. repeat split_match; done. Qed.

Lemma Restore_shape st q : same_shape q (Restore st q).
Proof.
  etrans; [|apply propagateHolds_shape]. split; [|done]. simpl. rewrite <- list_fmap_compose.
  apply list_fmap_ext. intros i t _. apply restore_task_keeps.
Qed.

Lemma RecordAttempt_shape q p a : same_shape q (RecordAttempt q p a).1.
Proof.
  unfold RecordAttempt. assert (H1 : same_shape q (update q p (add_attempt a))) by auto with runq.
  destruct (task_at _ _) as [t|]; [|done]. etrans; [exact H1|].
  destruct (at_Succeeded a); [|destruct (budget t (at_Class a) <=? AttemptCount t)];
    cbn [fst]; [etrans; [|apply propagateHolds_shape]..|]; by apply update_shape.
Qed.

Lemma RecordResume_shape q p : same_shape q (RecordResume q p).1.
Proof. unfold RecordResume. destruct (task_at _ _); simpl; auto with runq. Qed.

Lemma Hold_shape q p r : same_shape q (Hold q p r).
Proof. etrans; [|apply propagateHolds_shape]. auto with runq. Qed.

Lemma RecordAttempt_stable q p t a :
  stable q -> task_at q p = Some t -> qt_State t = TaskPending -> stable (RecordAttempt q p a).1.
Proof.
  intros Hst Hp Hs. unfold RecordAttempt. rewrite task_at_update, decide_True, Hp by done. cbn [fmap option_fmap option_map].
  destruct (at_Succeeded a); [apply propagateHolds_stable|].
  destruct (_ <=? _); [apply propagateHolds_stable|]. cbn [fst].
  assert (Hp' : task_at (update q p (add_attempt a)) p = Some (add_attempt a t)).
  { by rewrite task_at_update, decide_True, Hp. }
  eapply stable_states; [eauto with runq|by eapply states_update|].
  eapply stable_states; [eauto with runq|by eapply states_update|done].
Qed.

Lemma RecordResume_stable q p t :
  stable q -> task_at q p = Some t -> qt_State t = TaskPending -> stable (RecordResume q p).1.
Proof.
  intros Hst Hp Hs. unfold RecordResume. rewrite task_at_update, decide_True, Hp by done. simpl.
  eapply stable_states; [eauto with runq|by eapply states_update|done].
Qed.
