(* ===== verification/RunController.v ===== *)
(** The controller-result contract (internal/unattended/controller.go): what a
    supervised task says about its own execution, and how one execution is read into
    a disposition of the run. *)
From S2P Require Import Prelude GoStd RunFailure RunQA.

(** * Vocabulary *)

Definition StateContinue : string := "CONTINUE".
Definition StateComplete : string := "COMPLETE".
Definition StateHumanBlocked : string := "HUMAN_BLOCKED".
Definition StateFailed : string := "FAILED".

Definition controllerStates : list string :=
  [StateContinue; StateComplete; StateHumanBlocked; StateFailed].

Definition state_Valid (s : string) : bool := existsb (String.eqb s) controllerStates.

Definition ReasonMaxTurns : string := "max_turns".
Definition ReasonErrorMaxTurns : string := "error_max_turns".
Definition ReasonNetworkTimeout : string := "network_timeout".
Definition ReasonRateLimited : string := "rate_limited".
Definition ReasonAuthenticationFailed : string := "authentication_failed".
Definition ReasonPermissionDenied : string := "permission_denied".

Definition resumableReasons (r : string) : bool :=
  String.eqb r ReasonMaxTurns || String.eqb r ReasonErrorMaxTurns.

Definition reasonClasses (r : string) : option string :=
  if String.eqb r ReasonNetworkTimeout then Some FailureExternalService
  else if String.eqb r ReasonRateLimited then Some FailureExternalService
  else if String.eqb r ReasonAuthenticationFailed then Some FailureAuth
  else if String.eqb r ReasonPermissionDenied then Some FailureAuth
  else None.

Record ControllerResult : Type := mkResult {
  cr_State : string;
  cr_TerminalReason : string;
  cr_Subtype : string;
  cr_IsError : bool;
  cr_Detail : string;
  cr_NumTurns : Z
}.

Definition no_result : ControllerResult := mkResult "" "" "" false "" 0.

Inductive Disposition : Type :=
| DispositionSucceeded | DispositionContinue | DispositionResume
| DispositionRetry | DispositionHumanBlocked | DispositionFailSafe.

#[export] Instance Disposition_eq_dec : EqDecision Disposition.
Proof. solve_decision. Defined.

Definition disposition_string (d : Disposition) : string :=
  match d with
  | DispositionSucceeded => "succeeded"
  | DispositionContinue => "continue"
  | DispositionResume => "resume"
  | DispositionRetry => "retry"
  | DispositionHumanBlocked => "human-blocked"
  | DispositionFailSafe => "fail-safe"
  end.

Definition Resumable (d : Disposition) : bool :=
  match d with DispositionContinue | DispositionResume => true | _ => false end.

Record ControllerVerdict : Type := mkVerdict {
  cv_Disposition : Disposition;
  cv_Class : string;
  cv_Reason : string;
  cv_Structured : bool;
  cv_State : string;
  cv_TerminalReason : string;
  cv_GateResult : string
}.

(** Execution.  An error is kept as its text, which is all that is read of it. *)
Record Execution : Type := mkExecution {
  ex_ExitedZero : bool;
  ex_Output : string;
  ex_Err : option string;
  ex_DeclaredResult : bool;
  ex_Result : option ControllerResult;
  ex_ResultErr : option string
}.

(** Execution.text *)
Definition text (e : Execution) : string :=
  match ex_Err e with
  | Some m => m +:+ bytes [10] +:+ ex_Output e
  | None => ex_Output e
  end.

Section controller.
Context `{GoTables}.

Definition normalizeReason (reason : string) : string := ToLower (TrimSpace reason).

Definition IsResumableReason (reason : string) : bool := resumableReasons (normalizeReason reason).

Definition effectiveReason (r : ControllerResult) : string :=
  let reason := normalizeReason (cr_TerminalReason r) in
  if String.eqb reason "" then normalizeReason (cr_Subtype r) else reason.

(** * Reading a result *)

(** An ErrControllerResultUnusable, as its text. *)
Definition unusable (why : string) : string :=
  "unattended: the task's structured controller result is unusable: " +:+ why.

Definition joinControllerStates : string := join_with ", " (sort_Strings controllerStates).

(** ParseControllerResult, over json.Unmarshal into a ControllerResult: the value it
    leaves, and the text of the error it returns if any. *)
Definition ParseControllerResult
    (json_Unmarshal : string -> ControllerResult * option string) (data : string)
  : ControllerResult * option string :=
  if blank data then (no_result, Some (unusable "it is empty"))
  else
    match json_Unmarshal data with
    | (res, Some e) => (res, Some (unusable ("it is not readable JSON: " +:+ e)))
    | (res, None) =>
        let st := ToUpper (TrimSpace (cr_State res)) in
        let res := mkResult st (cr_TerminalReason res) (cr_Subtype res) (cr_IsError res)
                     (cr_Detail res) (cr_NumTurns res) in
        if state_Valid st then (res, None)
        else
          let declared := if String.eqb st "" then "unset" else st in
          (res, Some (unusable ("state " +:+ quoteOrBare declared
             +:+ " is not a declared controller state (" +:+ joinControllerStates +:+ ")")))
    end.

(** os.ReadFile: no such file, another error, or the contents. *)
Inductive FileRead : Type := FileAbsent | FileError (e : string) | FileData (data : string).

Definition ReadControllerResult
    (json_Unmarshal : string -> ControllerResult * option string) (path : string) (file : FileRead)
  : ControllerResult * option string :=
  match file with
  | FileAbsent => (no_result, Some (unusable (path +:+ " was never written")))
  | FileError e => (no_result, Some (unusable ("reading " +:+ path +:+ ": " +:+ e)))
  | FileData data => ParseControllerResult json_Unmarshal data
  end.

(** * Redaction *)

Definition secretPatterns : list string :=
  [ "gh[pousr]_[A-Za-z0-9]{16,}";
    "github_pat_[A-Za-z0-9_]{20,}";
    "(?i)\bbearer\s+[A-Za-z0-9._\-]{12,}";
    "\bAKIA[0-9A-Z]{16}\b";
    "(?i)\b(token|secret|password|passwd|api[_-]?key)\b\s*[:=]\s*\S+";
    "\bey[A-Za-z0-9_\-]{10,}\.[A-Za-z0-9_\-]{10,}\.[A-Za-z0-9_\-]{10,}";
    "\b[A-Za-z0-9_\-]{40,}\b" ].

Definition Redact (s : string) : string :=
  fold_left (fun s re => regexp_ReplaceAll re s "[redacted]") secretPatterns s.

(** * Interpretation *)

Definition classForBlockedReason (reason : string) : string :=
  match reasonClasses reason with
  | Some c => if String.eqb c FailureAuth then FailureAuth else FailureHumanDecision
  | None => FailureHumanDecision
  end.

Definition blockedReasonText (reason detail : string) : string :=
  let base := "the task reported HUMAN_BLOCKED" in
  let base := if String.eqb reason "" then base else base +:+ " (" +:+ reason +:+ ")" in
  let d := TrimSpace detail in
  if String.eqb d "" then base else base +:+ ": " +:+ firstLine (Redact d).

Definition interpretStructured (res : ControllerResult) (rules : list ClassificationRule)
    (txt : string) : ControllerVerdict :=
  let reason := effectiveReason res in
  let v d class why gate := mkVerdict d class why true (cr_State res) reason gate in
  if IsResumableReason reason then
    v DispositionResume ""
      ("the harness stopped the agent at its turn cap (" +:+ reason
       +:+ "); the work is unfinished, not failed") ""
  else if String.eqb (cr_State res) StateComplete then
    v DispositionSucceeded "" "the task reported COMPLETE" GatePass
  else if String.eqb (cr_State res) StateContinue then
    v DispositionContinue "" "the task reported CONTINUE; it has more to do" ""
  else if String.eqb (cr_State res) StateHumanBlocked then
    v DispositionHumanBlocked (classForBlockedReason reason)
      (blockedReasonText reason (cr_Detail res)) GateError
  else if String.eqb (cr_State res) StateFailed then
    let '(class, why) :=
      match reasonClasses reason with
      | Some class => (class, "the task reported FAILED with terminal reason " +:+ reason)
      | None => let c := Classify txt rules in (cl_Class c, cl_Reason c)
      end in
    if String.eqb class FailureAuth then v DispositionHumanBlocked class why GateError
    else v DispositionRetry class why GateFail
  else
    v DispositionFailSafe FailureEnvironment
      ("the structured result declared state " +:+ cr_State res
       +:+ ", which this run cannot adjudicate") GateError.

Definition InterpretExecution (e : Execution) (rules : list ClassificationRule) : ControllerVerdict :=
  match ex_DeclaredResult e, ex_Result e with
  | true, None =>
      let silence := default
        "the task declared a structured controller result and did not produce a usable one"
        (ex_ResultErr e) in
      if match ex_Err e with Some _ => true | None => negb (ex_ExitedZero e) end then
        let c := Classify (text e) rules in
        mkVerdict DispositionFailSafe (cl_Class c) (cl_Reason c +:+ "; and " +:+ silence)
          true "" "" GateError
      else
        mkVerdict DispositionFailSafe FailureEnvironment
          (silence +:+ " — nothing is known about this attempt, so nothing is assumed")
          true "" "" GateError
  | _, Some res => interpretStructured res rules (text e)
  | false, None =>
      if ex_ExitedZero e && match ex_Err e with None => true | Some _ => false end then
        mkVerdict DispositionSucceeded "" "the command exited zero" false "" "" GatePass
      else
        let class := Classify (text e) rules in
        mkVerdict DispositionRetry (cl_Class class) (cl_Reason class) false "" "" GateFail
  end.

End controller.

(** * What an execution can mean *)

Section interpretation.
Context `{GoTables}.

(** The task's own statement that it finished, not cut off by a turn cap; or, when it
    promised no statement, a clean exit. *)
Definition finished (e : Execution) : Prop :=
  match ex_Result e with
  | Some r => IsResumableReason (effectiveReason r) = false /\ cr_State r = StateComplete
  | None => ex_DeclaredResult e = false /\ ex_ExitedZero e = true /\ ex_Err e = None
  end.

(** The branches of interpretStructured, in the order of the code. *)
Ltac case_structured r :=
  unfold interpretStructured;
  destruct (IsResumableReason (effectiveReason r)); [|
  destruct (String.eqb_spec (cr_State r) StateComplete); [|
  destruct (String.eqb (cr_State r) StateContinue); [|
  destruct (String.eqb (cr_State r) StateHumanBlocked); [|
  destruct (String.eqb (cr_State r) StateFailed); [
  destruct (reasonClasses (effectiveReason r)); cbn [cl_Class cl_Reason];
    match goal with |- context [String.eqb ?c FailureAuth] => destruct (String.eqb_spec c FailureAuth) end|]]]]];
  cbn [cv_Disposition cv_Class cv_GateResult].

Lemma structured_succeeded r rules txt :
  cv_Disposition (interpretStructured r rules txt) = DispositionSucceeded
  <-> IsResumableReason (effectiveReason r) = false /\ cr_State r = StateComplete.
Proof. case_structured r; split; try done; by intros [? ?]. Qed.

Lemma structured_gate r rules txt :
  cv_GateResult (interpretStructured r rules txt) = GatePass
  <-> cv_Disposition (interpretStructured r rules txt) = DispositionSucceeded.
Proof. by case_structured r. Qed.

Lemma structured_auth r rules txt :
  cv_Disposition (interpretStructured r rules txt) = DispositionRetry ->
  cv_Class (interpretStructured r rules txt) <> FailureAuth.
Proof. by case_structured r. Qed.

(** The precedence rule: an execution counts as success exactly when the task said
    it completed without being cut off or, having promised no statement, exited cleanly;
    only a success ever passes a gate; the exit status of a task that stated its outcome
    changes nothing, and a promised statement that is missing is a fail-safe whatever
    the exit status; a supervised authentication failure is never retried. *)
Theorem InterpretExecution_precedence e rules :
  (cv_Disposition (InterpretExecution e rules) = DispositionSucceeded <-> finished e)
  /\ (cv_GateResult (InterpretExecution e rules) = GatePass
      <-> cv_Disposition (InterpretExecution e rules) = DispositionSucceeded)
  /\ (forall z, ex_Result e <> None ->
      InterpretExecution (mkExecution z (ex_Output e) (ex_Err e) (ex_DeclaredResult e) (ex_Result e)
        (ex_ResultErr e)) rules = InterpretExecution e rules)
  /\ (ex_DeclaredResult e = true -> ex_Result e = None ->
      cv_Disposition (InterpretExecution e rules) = DispositionFailSafe)
  /\ (ex_Result e <> None -> cv_Disposition (InterpretExecution e rules) = DispositionRetry ->
      cv_Class (InterpretExecution e rules) <> FailureAuth).
Proof.
  unfold InterpretExecution, finished. simpl.
  destruct (ex_Result e) as [r|].
  - replace (if ex_DeclaredResult e then interpretStructured r rules (text e)
             else interpretStructured r rules (text e)) with (interpretStructured r rules (text e))
      by (by destruct (ex_DeclaredResult e)).
    split; [apply structured_succeeded|]. split; [apply structured_gate|].
    split; [by intros z _; destruct (ex_DeclaredResult e)|]. split; [done|]. intros _. apply structured_auth.
  - destruct (ex_DeclaredResult e), (ex_Err e), (ex_ExitedZero e); simpl;
      repeat split; try done; by intros (? & ? & ?).
Qed.

End interpretation.

(** An engine whose patterns never match, for evaluating the definitions. *)
Definition plain_tables : GoTables :=
  Build_GoTables (Build_UnicodeTables (fun s => s)) (fun s => s) String.eqb (fun s => s)
    (fun _ => Some (fun _ => false)) (fun _ => "") (fun _ s _ => s).

(** The statement wins over a clean exit and over a failed one. *)
Lemma InterpretExecution_precedence_witness :
  cv_Disposition (@InterpretExecution plain_tables
    (mkExecution true "" None true (Some (mkResult StateFailed "max_turns" "" true "" 9)) None) [])
  = DispositionResume
  /\ cv_Disposition (@InterpretExecution plain_tables (mkExecution true "" None true None None) [])
     = DispositionFailSafe.
Proof.
  split; [by vm_compute|].
  by apply (proj2 (proj2 (@InterpretExecution_precedence plain_tables
    (mkExecution true "" None true None None) []))).
Defined.
