(* ===== verification/RunFence.v ===== *)
(** The fence (internal/unattended/fence.go): a run's claim on the branch and commit it
    works from.  What ReadOwner and ProbeRepo observe, the lock record and the state of
    the worktree, is an argument of the operations: an observation is a value, or the
    text of the error it failed with. *)
From S2P Require Import Prelude GoStd RunQA.

(** * Observations *)

(** Owner, the evidence of a lock holder, less the time it was acquired. *)
Inductive Owner : Type := mkOwner {
  ow_RunID : string;
  ow_ProjectID : string;
  ow_Session : string;
  ow_Worktree : string;
  ow_Role : string;
  ow_PID : Z;
  ow_Host : string;
  ow_OSFamily : string;
  ow_Displaced : option Owner
}.

Record RepoState : Type := mkRepoState {
  rp_Dir : string;
  rp_Root : string;
  rp_GitDir : string;
  rp_CommonDir : string;
  rp_Branch : string;
  rp_Detached : bool;
  rp_Head : string;
  rp_OriginURL : string;
  rp_Dirty : list string;
  rp_InProgress : string;
  rp_Worktrees : list string
}.

(** ReadOwner: the recorded owner if there is one, or an error; ProbeRepo likewise. *)
Definition OwnerRead : Type := option Owner + string.
Definition RepoRead : Type := RepoState + string.

(** * The fence *)

Inductive FenceStatus : Type :=
| FenceIntact | FenceBranchChanged | FenceHeadMoved | FenceOwnerLost | FenceUnreadable.

#[export] Instance FenceStatus_eq_dec : EqDecision FenceStatus.
Proof. solve_decision. Defined.

Definition fence_string (s : FenceStatus) : string :=
  match s with
  | FenceIntact => "intact"
  | FenceBranchChanged => "branch-changed"
  | FenceHeadMoved => "head-moved"
  | FenceOwnerLost => "owner-lost"
  | FenceUnreadable => "unreadable"
  end.

Record FenceResult : Type := mkFenceResult {
  fr_Status : FenceStatus;
  fr_Expected : string;
  fr_Observed : string;
  fr_Evidence : string
}.

Definition Intact (r : FenceResult) : bool := bool_decide (fr_Status r = FenceIntact).

Definition evidenceSuffix (e : string) : string :=
  if String.eqb e "" then "" else " (" +:+ e +:+ ")".

(** FenceResult.Error: the text of the violation. *)
Definition violation `{GoTables} (r : FenceResult) : option string :=
  if Intact r then None
  else Some ("unattended: fence " +:+ fence_string (fr_Status r) +:+ " — expected "
             +:+ Quote (fr_Expected r) +:+ ", observed " +:+ Quote (fr_Observed r)
             +:+ evidenceSuffix (fr_Evidence r)).

Record FenceAdvance : Type := mkAdvance {
  fa_From : string;
  fa_To : string;
  fa_Reason : string
}.

Record Fence : Type := mkFence {
  fn_Worktree : string;
  fn_LockDir : string;
  fn_RunID : string;
  fn_PID : Z;
  fn_Branch : string;
  fn_Head : string;
  fn_Advances : list FenceAdvance
}.

Definition TakeFence (state : RepoState) (lockDir : string) (owner : Owner) : Fence :=
  mkFence (rp_Root state) lockDir (ow_RunID owner) (ow_PID owner) (rp_Branch state) (rp_Head state) [].

(** The lock record still names this run and process. *)
Definition owned (f : Fence) (o : OwnerRead) : bool :=
  match o with
  | inl (Some w) => String.eqb (ow_RunID w) (fn_RunID f) && (ow_PID w =? fn_PID f)
  | _ => false
  end.

Definition holder (run : string) (pid : Z) : string := run +:+ " (pid " +:+ Itoa pid +:+ ")".

Definition position (f : Fence) : string := fn_Branch f +:+ "@" +:+ shortSHA (fn_Head f).

Definition Check (f : Fence) (o : OwnerRead) (s : RepoRead) : FenceResult :=
  match o with
  | inr e => mkFenceResult FenceOwnerLost (fn_RunID f) "unreadable" e
  | inl None => mkFenceResult FenceOwnerLost (fn_RunID f) "no owner recorded"
                  "the writer lock record was removed while this run held it"
  | inl (Some w) =>
      if negb (String.eqb (ow_RunID w) (fn_RunID f)) || negb (ow_PID w =? fn_PID f) then
        mkFenceResult FenceOwnerLost (holder (fn_RunID f) (fn_PID f)) (holder (ow_RunID w) (ow_PID w))
          "another session took ownership of this worktree"
      else
        match s with
        | inr e => mkFenceResult FenceUnreadable (fn_Worktree f) "unreadable" e
        | inl state =>
            if negb (String.eqb (rp_Branch state) (fn_Branch f)) then
              mkFenceResult FenceBranchChanged (fn_Branch f)
                (if rp_Detached state then "detached HEAD at " +:+ shortSHA (rp_Head state)
                 else rp_Branch state)
                "the worktree was moved to a different ref outside this run"
            else if negb (String.eqb (rp_Head state) (fn_Head f)) then
              mkFenceResult FenceHeadMoved (shortSHA (fn_Head f)) (shortSHA (rp_Head state))
                "HEAD moved without an authorized advance being recorded by this run"
            else mkFenceResult FenceIntact (position f) "unchanged" ""
        end
  end.

Definition advance_to (f : Fence) (head reason : string) : Fence :=
  if String.eqb head (fn_Head f) then f
  else mkFence (fn_Worktree f) (fn_LockDir f) (fn_RunID f) (fn_PID f) (fn_Branch f) head
         (fn_Advances f ++ [mkAdvance (fn_Head f) head reason]).

(** RecordAuthorisedAdvance reads the owner and, when it is this run, the worktree;
    when it is not, Check reads both again (o2, s2).  The result is the new fence, the
    fence result, and the text of the error if any. *)
Definition RecordAuthorisedAdvance `{GoTables} (f : Fence) (reason : string)
    (o : OwnerRead) (s : RepoRead) (o2 : OwnerRead) (s2 : RepoRead)
  : Fence * FenceResult * option string :=
  if String.eqb reason "" then
    (f, mkFenceResult FenceIntact "" "" "", Some "unattended: an authorized advance must state its reason")
  else if negb (owned f o) then
    let res := Check f o2 s2 in (f, res, violation res)
  else
    match s with
    | inr e =>
        let res := mkFenceResult FenceUnreadable (fn_Worktree f) "unreadable" e in
        (f, res, violation res)
    | inl state =>
        if negb (String.eqb (rp_Branch state) (fn_Branch f)) then
          let res := mkFenceResult FenceBranchChanged (fn_Branch f) (rp_Branch state)
                       "an advance was claimed on a branch this run does not own" in
          (f, res, violation res)
        else
          let f' := advance_to f (rp_Head state) reason in
          (f', mkFenceResult FenceIntact (position f') "advanced by this run" "", None)
    end.

(** * Facts *)

Lemma owned_spec f w : owned f (inl (Some w)) = true <-> ow_RunID w = fn_RunID f /\ ow_PID w = fn_PID f.
Proof. simpl. by rewrite andb_true_iff, String.eqb_eq, Z.eqb_eq. Qed.

(** The fence is intact exactly when nothing moved. *)
Lemma Check_Intact f o s :
  Intact (Check f o s) = true
  <-> owned f o = true
      /\ exists state, s = inl state /\ rp_Branch state = fn_Branch f /\ rp_Head state = fn_Head f.
Proof.
  unfold Check, Intact. destruct o as [[w|]|e]; simpl; [|by split; [|intros [? _]]..].
  destruct (String.eqb (ow_RunID w) (fn_RunID f)), (ow_PID w =? fn_PID f); simpl;
    try (by split; [|intros [? _]]).
  destruct s as [state|e]; simpl; [|split; [done|]; by intros (_ & ? & ? & _)].
  destruct (String.eqb_spec (rp_Branch state) (fn_Branch f)) as [Eb|Eb]; simpl;
    [|split; [done|]; by intros (_ & ? & [= <-] & ? & _)].
  destruct (String.eqb_spec (rp_Head state) (fn_Head f)) as [Eh|Eh]; simpl;
    [|split; [done|]; by intros (_ & ? & [= <-] & _ & ?)].
  split; [|done]. intros _. split; [done|]. eauto.
Qed.

(** * The claim a fence makes good *)

(** One round of a run: the run checks, or records an advance of its own. *)
Inductive fence_op : Type :=
| OpCheck (o : OwnerRead) (s : RepoRead)
| OpAdvance (reason : string) (o : OwnerRead) (s : RepoRead) (o2 : OwnerRead) (s2 : RepoRead).

Definition fence_step `{GoTables} (f : Fence) (op : fence_op) : Fence :=
  match op with
  | OpCheck _ _ => f
  | OpAdvance r o s o2 s2 => (RecordAuthorisedAdvance f r o s o2 s2).1.1
  end.

(** The recorded advances are a chain from the commit claimed to the current one. *)
Fixpoint linked (from : string) (l : list FenceAdvance) (to : string) : Prop :=
  match l with
  | [] => from = to
  | a :: l' => fa_From a = from /\ fa_From a <> fa_To a /\ fa_Reason a <> "" /\ linked (fa_To a) l' to
  end.

Lemma linked_snoc from l mid a :
  linked from l mid -> fa_From a = mid -> fa_From a <> fa_To a -> fa_Reason a <> "" ->
  linked from (l ++ [a]) (fa_To a).
Proof.
  revert from. induction l as [|b l IH]; intros from; simpl; [by intros <- <-|].
  intros (? & ? & ? & Hl) ? ? ?. repeat split; try done. by apply IH.
Qed.

(** What no operation touches. *)
Definition claim (f : Fence) : string * string * string * Z * string :=
  (fn_Worktree f, fn_LockDir f, fn_RunID f, fn_PID f, fn_Branch f).

Section trail.
Context `{GoTables}.

Lemma advance_moves f r o s o2 s2 :
  (RecordAuthorisedAdvance f r o s o2 s2).1.1 = f
  \/ exists state, r <> "" /\ owned f o = true /\ s = inl state /\ rp_Branch state = fn_Branch f
     /\ rp_Head state <> fn_Head f
     /\ (RecordAuthorisedAdvance f r o s o2 s2).1.1
        = mkFence (fn_Worktree f) (fn_LockDir f) (fn_RunID f) (fn_PID f) (fn_Branch f) (rp_Head state)
            (fn_Advances f ++ [mkAdvance (fn_Head f) (rp_Head state) r]).
Proof.
  unfold RecordAuthorisedAdvance. destruct (String.eqb_spec r "") as [|Hr]; [by left|].
  destruct (owned f o); [|by left]. destruct s as [state|e]; [|by left]. simpl.
  destruct (String.eqb_spec (rp_Branch state) (fn_Branch f)); [|by left]. simpl. unfold advance_to.
  destruct (String.eqb_spec (rp_Head state) (fn_Head f)); [by left|]. right. by exists state.
Qed.

Lemma trail f0 ops :
  let f := fold_left fence_step ops f0 in
  fn_Advances f0 = [] ->
  claim f = claim f0 /\ linked (fn_Head f0) (fn_Advances f) (fn_Head f)
  /\ forall a, a ∈ fn_Advances f -> exists r o state o2 s2,
       OpAdvance r o (inl state) o2 s2 ∈ ops /\ owned f0 o = true /\ rp_Branch state = fn_Branch f0
       /\ fa_To a = rp_Head state /\ fa_Reason a = r.
Proof.
  intros f Hnil. unfold f. clear f. induction ops as [|op ops IH] using rev_ind.
  { simpl. rewrite Hnil. split; [done|]. split; [done|]. by intros a Ha%elem_of_nil. }
  rewrite fold_left_app. simpl. destruct IH as (Hc & Hl & Ha). set (f := fold_left fence_step ops f0) in *.
  assert (Hkeep : forall a, a ∈ fn_Advances f -> exists r o state o2 s2,
    OpAdvance r o (inl state) o2 s2 ∈ ops ++ [op] /\ owned f0 o = true
    /\ rp_Branch state = fn_Branch f0 /\ fa_To a = rp_Head state /\ fa_Reason a = r).
  { intros a Hin. destruct (Ha a Hin) as (r & o & st & o2 & s2 & Hop & Hrest).
    exists r, o, st, o2, s2. split; [by apply elem_of_app; left|done]. }
  destruct op as [o s|r o s o2 s2]; [done|]. simpl.
  destruct (advance_moves f r o s o2 s2) as [->|(st & Hr & Ho & -> & Hb & Hh & ->)]; [done|].
  split; [exact Hc|]. simpl. split; [by apply (linked_snoc _ _ (fn_Head f) (mkAdvance (fn_Head f) (rp_Head st) r)); auto|].
  intros a [Hin| ->%list_elem_of_singleton]%elem_of_app; [by apply Hkeep|].
  exists r, o, st, o2, s2. split; [apply elem_of_app; right; left|]. unfold claim in Hc. simplify_eq.
  assert (Hown : owned f0 o = owned f o) by (unfold owned; destruct o as [[w|]|]; [congruence|done|done]).
  rewrite Hown, Ho. split; [done|]. split; [congruence|done].
Qed.

(** Over any sequence of checks and recorded advances the fence keeps its claim:
    worktree, owner and branch never change, its commit is reached from the one claimed
    at the start by the recorded advances, each stating its reason and observed on the
    claimed branch while the lock named this run; and a check is intact exactly when the
    lock still names this run and the worktree is on that branch and that commit. *)
Theorem fence_trail f0 ops :
  let f := fold_left fence_step ops f0 in
  fn_Advances f0 = [] ->
  claim f = claim f0 /\ linked (fn_Head f0) (fn_Advances f) (fn_Head f)
  /\ (forall a, a ∈ fn_Advances f -> exists r o state o2 s2,
       OpAdvance r o (inl state) o2 s2 ∈ ops /\ owned f0 o = true /\ rp_Branch state = fn_Branch f0
       /\ fa_To a = rp_Head state /\ fa_Reason a = r)
  /\ (forall o s, Intact (Check f o s) = true
      <-> owned f0 o = true
          /\ exists state, s = inl state /\ rp_Branch state = fn_Branch f0 /\ rp_Head state = fn_Head f).
Proof.
  intros f Hnil. destruct (trail f0 ops Hnil) as (Hc & Hl & Ha). fold f in Hc, Hl, Ha. repeat (split; [done|]).
  intros o s. rewrite Check_Intact.
  assert (Ho : owned f o = owned f0 o) by (unfold claim in Hc; unfold owned; destruct o as [[w|]|]; [congruence|done|done]).
  assert (Hb : fn_Branch f = fn_Branch f0) by (unfold claim in Hc; congruence). by rewrite Ho, Hb.
Qed.

End trail.
