(* ===== verification/RunSpec.v ===== *)
(** The run specification (internal/unattended/spec.go, and the declarations of
    lock.go and ownership.go it contains) and the checks that refuse a specification or
    a packet that cannot govern a run. *)
From S2P Require Import Prelude GoStd RunFailure RunQA RunPlan.

(** * Ownership *)

Definition RoleWriter : string := "writer".
Definition RoleController : string := "controller".
Definition RoleReadOnly : string := "read-only".

Definition Exclusive (r : string) : bool := String.eqb r RoleWriter || String.eqb r RoleController.

Definition role_Valid (r : string) : bool :=
  String.eqb r RoleWriter || String.eqb r RoleController || String.eqb r RoleReadOnly.

Record Ownership : Type := mkOwnership {
  os_ProjectID : string;
  os_Worktree : string;
  os_ExpectedOrigin : string;
  os_ExpectedBranch : string;
  os_Role : string;
  os_Session : string;
  os_AllowDirtyWorktree : bool
}.

Definition ErrOwnershipIncomplete : error :=
  errmsg "unattended: ownership declaration is incomplete" [].

(** Ownership.Validate: the text of the refusal after the sentinel, if any. *)
Definition ownership_problem `{GoTables} (o : Ownership) : option string :=
  let missing := (if blank (os_ProjectID o) then ["projectId"] else [])
              ++ (if blank (os_Worktree o) then ["worktree"] else [])
              ++ (if blank (os_Session o) then ["session"] else []) in
  match missing with
  | _ :: _ => Some ("missing " +:+ join_with ", " missing)
  | [] =>
      if negb (role_Valid (os_Role o)) then
        Some ("role " +:+ Quote (os_Role o) +:+ " is not one of writer, controller, read-only")
      else if Exclusive (os_Role o) && blank (os_ExpectedBranch o) then
        Some ("a " +:+ os_Role o +:+ " must declare expectedBranch — a mutating session with no branch expectation cannot detect the branch moving underneath it")
      else None
  end.

(** * The specification *)

Record KnownBoundary : Type := mkBoundary {
  kb_ID : string; kb_Title : string; kb_Detail : string; kb_Action : string
}.

Record ToolRequirement : Type := mkTool {
  tr_Name : string; tr_MinVersion : string; tr_VersionArgs : list string;
  tr_Purpose : string; tr_HumanAction : string
}.

Definition PathAny : string := "".
Definition PathDir : string := "dir".
Definition PathFile : string := "file".

Record PathRequirement : Type := mkPath {
  pr_Path : string; pr_Kind : string; pr_Purpose : string; pr_Writable : bool; pr_Create : bool
}.

Record EnvRequirement : Type := mkEnv { er_Name : string; er_Purpose : string; er_Secret : bool }.

Record PortRequirement : Type := mkPort {
  po_Address : string; po_Purpose : string; po_TimeoutSeconds : Z
}.

Record CommandRequirement : Type := mkCommand {
  cm_ID : string; cm_Title : string; cm_Argv : list string; cm_Dir : string;
  cm_TimeoutSeconds : Z; cm_ExpectOutput : string; cm_Remedy : string
}.

Record CredentialRequirement : Type := mkCredential {
  cd_ID : string; cd_Title : string; cd_Env : string; cd_File : string; cd_NotAfter : Z;
  cd_Probe : list string; cd_TimeoutSeconds : Z; cd_ExpiredPattern : string; cd_HumanAction : string
}.

Record GitHubRequirement : Type := mkGitHub {
  gh_Repo : string; gh_Command : string; gh_Account : string; gh_Branch : string;
  gh_NeedPush : bool; gh_NeedPR : bool; gh_NeedChecks : bool; gh_NeedMerge : bool;
  gh_MergeHumanAction : string
}.

Record Spec : Type := mkSpec {
  sp_ProjectID : string;
  sp_Ownership : Ownership;
  sp_Tools : list ToolRequirement;
  sp_Paths : list PathRequirement;
  sp_Env : list EnvRequirement;
  sp_Ports : list PortRequirement;
  sp_Commands : list CommandRequirement;
  sp_Credentials : list CredentialRequirement;
  sp_GitHub : option GitHubRequirement;
  sp_Classification : list ClassificationRule;
  sp_QA : QAPolicy;
  sp_StateDir : string;
  sp_PublishPath : string;
  sp_Boundaries : list KnownBoundary
}.

(** * Spec.Validate *)

Section validate.
Context `{GoTables}.

(** A loop that numbers its items in the messages. *)
Fixpoint each_problem {A} (f : Z -> A -> list string) (i : Z) (l : list A) : list string :=
  match l with
  | [] => []
  | a :: l' => f i a ++ each_problem f (i + 1) l'
  end.

Definition problem_if (b : bool) (msg : string) : list string := if b then [msg] else [].

Definition numbered_problem (what : string) (i : Z) (rest : string) : string :=
  what +:+ "[" +:+ Itoa i +:+ "] " +:+ rest.

Definition joinGateIDs : string := join_with ", " (sort_Strings (gd_ID <$> gateCatalogue)).

Definition unknown_gate (id : string) : bool :=
  match LookupGate id with Some _ => false | None => true end.

Definition path_problems (i : Z) (p : PathRequirement) : list string :=
  problem_if (blank (pr_Path p)) (numbered_problem "path" i "has no path")
  ++ problem_if (negb (String.eqb (pr_Kind p) PathAny || String.eqb (pr_Kind p) PathDir
                       || String.eqb (pr_Kind p) PathFile))
       (numbered_problem "path" i ("kind " +:+ Quote (pr_Kind p) +:+ " is not one of dir, file"))
  ++ problem_if (pr_Create p && negb (String.eqb (pr_Kind p) PathDir))
       (numbered_problem "path" i "may only be created when kind is dir").

Definition credential_problems (i : Z) (c : CredentialRequirement) : list string :=
  problem_if (blank (cd_ID c)) (numbered_problem "credential" i "has no id")
  ++ problem_if (String.eqb (cd_Env c) "" && String.eqb (cd_File c) ""
                 && bool_decide (cd_Probe c = []) && IsZero (cd_NotAfter c))
       (numbered_problem "credential" i ("(" +:+ cd_ID c +:+ ") declares nothing to check")).

Definition command_problems (i : Z) (c : CommandRequirement) : list string :=
  problem_if (blank (cm_ID c)) (numbered_problem "command" i "has no id")
  ++ problem_if (bool_decide (cm_Argv c = [])) (numbered_problem "command" i "has no argv").

Fixpoint boundary_problems (i : Z) (seen : gset string) (l : list KnownBoundary) : list string :=
  match l with
  | [] => []
  | b :: l' =>
      let '(p, seen') :=
        if blank (kb_ID b) then ([numbered_problem "boundary" i "has no id"], seen)
        else if bool_decide (kb_ID b ∈ seen) then
          ([numbered_problem "boundary" i ("id " +:+ Quote (kb_ID b) +:+ " is duplicated")], seen)
        else ([], {[kb_ID b]} ∪ seen) in
      p ++ problem_if (blank (kb_Action b))
             (numbered_problem "boundary" i ("(" +:+ kb_ID b +:+ ") names no action only a person can take"))
        ++ boundary_problems (i + 1) seen' l'
  end.

Definition rule_declaration_problems (i : Z) (r : ClassificationRule) : list string :=
  problem_if (blank (rule_Pattern r)) (numbered_problem "classify" i "has no pattern")
  ++ problem_if (negb (class_Valid (rule_Class r)))
       (numbered_problem "classify" i ("class " +:+ Quote (rule_Class r)
          +:+ " is not a declared failure class")).

Definition require_gate_problems (ids : list string) : list string :=
  ids ≫= fun id => problem_if (unknown_gate id)
    ("qa.requireGates names " +:+ Quote id +:+ ", which is not a catalog gate (" +:+ joinGateIDs +:+ ")").

Definition spec_problems (s : Spec) : list string :=
  let own := sp_Ownership s in
  problem_if (blank (sp_ProjectID s)) "projectId is required"
  ++ problem_if (blank (sp_StateDir s))
       "stateDir is required — a run with nowhere durable to write cannot be resumed"
  ++ match ownership_problem own with
     | Some why => ["unattended: ownership declaration is incomplete: " +:+ why]
     | None => []
     end
  ++ problem_if (negb (String.eqb (os_ProjectID own) "") && negb (String.eqb (sp_ProjectID s) "")
                 && negb (String.eqb (os_ProjectID own) (sp_ProjectID s)))
       ("ownership.projectId " +:+ Quote (os_ProjectID own) +:+ " does not match projectId "
        +:+ Quote (sp_ProjectID s))
  ++ each_problem (fun i t => problem_if (blank (tr_Name t)) (numbered_problem "tool" i "has no name"))
       0 (sp_Tools s)
  ++ each_problem path_problems 0 (sp_Paths s)
  ++ each_problem (fun i e => problem_if (blank (er_Name e)) (numbered_problem "env" i "has no name"))
       0 (sp_Env s)
  ++ each_problem (fun i p => problem_if (negb (Contains (po_Address p) ":"))
       (numbered_problem "port" i ("address " +:+ Quote (po_Address p) +:+ " is not host:port")))
       0 (sp_Ports s)
  ++ each_problem command_problems 0 (sp_Commands s)
  ++ each_problem credential_problems 0 (sp_Credentials s)
  ++ require_gate_problems (RequireGates (sp_QA s))
  ++ match sp_GitHub s with
     | Some g => problem_if (negb (Contains (gh_Repo g) "/"))
                   ("github.repo " +:+ Quote (gh_Repo g) +:+ " is not owner/name")
     | None => []
     end
  ++ boundary_problems 0 ∅ (sp_Boundaries s)
  ++ each_problem rule_declaration_problems 0 (sp_Classification s).

Definition spec_Validate (s : Spec) : option error :=
  match spec_problems s with
  | [] => None
  | ps => Some (Errorf "%w: %s" [join_with "; " ps] [ErrSpecInvalid])
  end.

(** * ValidateQAPacket *)

Definition ErrQAPacketInvalid : error :=
  errmsg "unattended: the packet's QA declarations are invalid" [].

(** The tasks that produce a gate, in order; the map producers of the source. *)
Definition producers (tasks : list Task) (gate : string) : list string :=
  tk_ID <$> List.filter (fun t => negb (String.eqb (tk_QAGate t) "")
                                  && negb (unknown_gate (tk_QAGate t))
                                  && String.eqb (tk_QAGate t) gate) tasks.

Definition produced (tasks : list Task) : list string :=
  sort_Strings (elements (list_to_set (List.filter (fun g => negb (String.eqb g "") && negb (unknown_gate g))
    (tk_QAGate <$> tasks)) : gset string)).

Definition qa_packet_problems (s : Spec) (p : Plan) : list string :=
  problem_if (negb (risk_Valid (pl_Risk p)))
    ("risk " +:+ quoteOrBare (declared_risk (pl_Risk p)) +:+ " is not a declared class ("
     +:+ joinRiskClasses
     +:+ ") — a packet that does not classify its own risk cannot resolve a gate set")
  ++ require_gate_problems (RequireGates (sp_QA s))
  ++ (pl_Tasks p ≫= fun t =>
       if String.eqb (tk_QAGate t) "" then []
       else problem_if (unknown_gate (tk_QAGate t))
              ("task " +:+ Quote (tk_ID t) +:+ " declares qaGate " +:+ Quote (tk_QAGate t)
               +:+ ", which is not a catalog gate (" +:+ joinGateIDs +:+ ")"))
  ++ (produced (pl_Tasks p) ≫= fun id =>
       let ps := producers (pl_Tasks p) id in
       problem_if (1 <? Z.of_nat (length ps))
         ("gate " +:+ Quote id +:+ " is claimed by " +:+ Itoa (Z.of_nat (length ps)) +:+ " tasks ("
          +:+ join_with ", " ps +:+ ") — two verdicts for one gate is an ambiguous ledger"))
  ++ (if risk_Valid (pl_Risk p) then
        RequiredGates (sp_QA s) (pl_Risk p) ≫= fun id =>
          problem_if (bool_decide (producers (pl_Tasks p) id = []))
            ("risk " +:+ pl_Risk p +:+ " requires gate " +:+ Quote id +:+ " ("
             +:+ match LookupGate id with Some d => gd_Title d | None => "" end
             +:+ ") and no task declares it — the packet cannot produce the evidence it needs to progress")
      else []).

Definition ValidateQAPacket (s : Spec) (p : Plan) : option error :=
  match qa_packet_problems s p with
  | [] => None
  | ps => Some (Errorf "%w: %s" [join_with "; " ps] [ErrQAPacketInvalid])
  end.

End validate.

(** * What an accepted packet guarantees *)

(** Every gate named is in the catalogue, no gate is claimed twice, and every gate the
    risk class or the policy makes mandatory has a task that produces it. *)
Record packet_ok (s : Spec) (p : Plan) : Prop := {
  pk_risk : risk_Valid (pl_Risk p) = true;
  pk_policy : Forall (fun g => is_Some (LookupGate g)) (RequireGates (sp_QA s));
  pk_known : Forall (fun t => tk_QAGate t = "" \/ is_Some (LookupGate (tk_QAGate t))) (pl_Tasks p);
  pk_once : forall g, (length (producers (pl_Tasks p) g) <= 1)%nat;
  pk_covered : forall g, g ∈ RequiredGates (sp_QA s) (pl_Risk p) -> producers (pl_Tasks p) g <> []
}.

Lemma problem_if_nil b msg : problem_if b msg = [] <-> b = false.
Proof. by destruct b. Qed.

Lemma unknown_gate_false g : unknown_gate g = false <-> is_Some (LookupGate g).
Proof. unfold unknown_gate. destruct (LookupGate g); [by split; eauto|]. by split; [|intros [? ?]]. Qed.

Lemma not_produced tasks g : g ∉ produced tasks -> producers tasks g = [].
Proof.
  intros Hg. unfold producers. destruct (List.filter _ tasks) as [|t l] eqn:E; [done|]. exfalso. apply Hg.
  assert (Ht : In t (t :: l)) by (by left). rewrite <- E in Ht. apply filter_In in Ht as [Hin Hp].
  apply andb_true_iff in Hp as [Hp Hq%String.eqb_eq]. unfold produced.
  rewrite elem_of_sort_Strings, elem_of_elements, elem_of_list_to_set. apply list_elem_of_In, filter_In.
  rewrite <- Hq. split; [|done]. by apply list_elem_of_In, list_elem_of_fmap_2, list_elem_of_In.
Qed.

(** A packet is accepted exactly when it can certify itself: a declared risk class,
    only catalogue gates, at most one task per gate, and for every mandatory gate a task
    that produces its evidence. *)
Theorem ValidateQAPacket_exact `{GoTables} s p : ValidateQAPacket s p = None <-> packet_ok s p.
Proof.
  transitivity (qa_packet_problems s p = []); [unfold ValidateQAPacket; by destruct (qa_packet_problems s p)|].
  unfold qa_packet_problems, require_gate_problems. rewrite !app_nil, !bind_nil, !Forall_forall, problem_if_nil.
  setoid_rewrite problem_if_nil. setoid_rewrite unknown_gate_false. rewrite negb_false_iff. split.
  - intros (Hr & Hp & Hk & Ho & Hc). rewrite Hr, bind_nil, Forall_forall in Hc.
    setoid_rewrite problem_if_nil in Hc. setoid_rewrite bool_decide_eq_false in Hc.
    split; [done|by apply Forall_forall| |intros g|done].
    + apply Forall_forall. intros t Ht. specialize (Hk t Ht).
      destruct (String.eqb_spec (tk_QAGate t) ""); [by left|right]. by apply problem_if_nil, unknown_gate_false in Hk.
    + destruct (decide (g ∈ produced (pl_Tasks p))) as [Hg|Hg]; [|rewrite not_produced by done; simpl; lia].
      specialize (Ho g Hg). lia.
  - intros [Hr Hp Hk Ho Hc]. rewrite Forall_forall in Hp. rewrite Forall_forall in Hk. split; [done|]. split; [done|]. split; [|split].
    + intros t Ht. destruct (String.eqb_spec (tk_QAGate t) ""); [done|].
      apply problem_if_nil, unknown_gate_false. by destruct (Hk t Ht).
    + intros g _. specialize (Ho g). lia.
    + rewrite Hr, bind_nil, Forall_forall. intros g Hg. apply problem_if_nil, bool_decide_eq_false. by apply Hc.
Qed.
