(* ===== verification/RunPreflight.v ===== *)
(** Preflight (internal/unattended/verdict.go, check.go, ownership.go, github.go and the
    assembly in preflight.go): check outcomes and the verdict they reduce to, the checks
    that prove a session stands where it declared, the forge checks, and the report.
    What the probes observe (git, the lock, the forge, the declared tools and services)
    is a record of facts; ToolChecks to CredentialChecks run commands and enter as the
    list of checks they return. *)
From S2P Require Import Prelude GoStd RunFailure RunQA RunPlan RunSpec RunFence.

(** * Outcomes and verdicts *)

Definition OutcomePass : string := "pass".
Definition OutcomeHumanBoundary : string := "human-boundary".
Definition OutcomeNotReached : string := "not-reached".
Definition OutcomeFail : string := "fail".

Definition severity (o : string) : Z :=
  if String.eqb o OutcomePass then 0
  else if String.eqb o OutcomeHumanBoundary then 1
  else if String.eqb o OutcomeNotReached then 2
  else if String.eqb o OutcomeFail then 3
  else 2.

Definition normalizeOutcome (o : string) : string :=
  if String.eqb o OutcomePass || String.eqb o OutcomeHumanBoundary
     || String.eqb o OutcomeNotReached || String.eqb o OutcomeFail
  then o else OutcomeNotReached.

Definition worse (worst o : string) : string :=
  if severity worst <? severity o then normalizeOutcome o else worst.

Definition WorstOutcome (outcomes : list string) : string :=
  match outcomes with
  | [] => OutcomeNotReached
  | _ => fold_left worse outcomes OutcomePass
  end.

Inductive Readiness : Type := Ready | ReadyWithKnownHumanBoundary | NotReady.

#[export] Instance Readiness_eq_dec : EqDecision Readiness.
Proof. solve_decision. Defined.

Definition ReadinessOf (outcomes : list string) : Readiness :=
  let w := WorstOutcome outcomes in
  if String.eqb w OutcomePass then Ready
  else if String.eqb w OutcomeHumanBoundary then ReadyWithKnownHumanBoundary
  else NotReady.

Definition PermitsUnattendedRun (r : Readiness) : bool :=
  match r with Ready | ReadyWithKnownHumanBoundary => true | NotReady => false end.

Definition readiness_string (r : Readiness) : string :=
  match r with
  | Ready => "READY"
  | ReadyWithKnownHumanBoundary => "READY-WITH-KNOWN-HUMAN-BOUNDARY"
  | NotReady => "NOT-READY"
  end.

(** * Checks *)

Definition CategoryConcurrency : string := "concurrency".
Definition CategoryOwnership : string := "ownership".
Definition CategoryRepository : string := "repository".
Definition CategoryGitHub : string := "github".
Definition CategoryProject : string := "project".

Record CheckResult : Type := mkCheck {
  ck_ID : string;
  ck_Category : string;
  ck_Title : string;
  ck_Outcome : string;
  ck_Expected : string;
  ck_Observed : string;
  ck_Detail : string;
  ck_Remedy : string;
  ck_Boundary : string
}.

Definition pass (id c title observed : string) : CheckResult :=
  mkCheck id c title OutcomePass "" observed "" "" "".
Definition fail_check (id c title expected observed remedy : string) : CheckResult :=
  mkCheck id c title OutcomeFail expected observed "" remedy "".
Definition notReached (id c title why : string) : CheckResult :=
  mkCheck id c title OutcomeNotReached "" "" why "" "".
(** The literal Check values with a human-boundary outcome. *)
Definition boundary (id c title expected observed detail action : string) : CheckResult :=
  mkCheck id c title OutcomeHumanBoundary expected observed detail "" action.

Definition DeclaredBoundaryChecks (bs : list KnownBoundary) : list CheckResult :=
  (fun b => boundary (kb_ID b) CategoryProject
     (if blank (kb_Title b) then kb_ID b else kb_Title b)
     "a person's answer" "not answered" (kb_Detail b) (kb_Action b)) <$> bs.

Definition Outcomes (cs : list CheckResult) : list string := ck_Outcome <$> cs.

Definition checks_Readiness (cs : list CheckResult) : Readiness := ReadinessOf (Outcomes cs).

Definition Failures (cs : list CheckResult) : list CheckResult :=
  List.filter (fun c => String.eqb (ck_Outcome c) OutcomeFail
                        || String.eqb (ck_Outcome c) OutcomeNotReached) cs.

Definition checks_Boundaries (cs : list CheckResult) : list CheckResult :=
  List.filter (fun c => String.eqb (ck_Outcome c) OutcomeHumanBoundary) cs.

(** PlanChecks: the run has work, and work below the primary band. *)
Definition band_count (b : string) (tasks : list Task) : Z :=
  Z.of_nat (length (List.filter (fun t => String.eqb (tk_Band t) b) tasks)).

Definition PlanChecks (p : Plan) : list CheckResult :=
  match pl_Tasks p with
  | [] =>
      [ fail_check "plan.work" CategoryProject "the run has declared work" "at least one task" "none"
          "declare the work in the plan — a run with an empty queue has nothing to converge on";
        notReached "plan.fallback" CategoryProject "useful work exists below the primary band"
          "the plan declares no work at all" ]
  | tasks =>
      let n := Z.of_nat (length tasks) in
      let parts := [BandPrimary; BandDependency; BandValidation; BandAssurance; BandEvidence;
                    BandDocumentation; BandNextStage] ≫= fun b =>
        if 0 <? band_count b tasks then [b +:+ "=" +:+ Itoa (band_count b tasks)] else [] in
      let fallbacks := n - band_count BandPrimary tasks in
      [ pass "plan.work" CategoryProject "the run has declared work"
          (Itoa n +:+ " task(s): " +:+ join_with " " parts);
        if 0 <? fallbacks then
          pass "plan.fallback" CategoryProject "useful work exists below the primary band"
            (Itoa fallbacks +:+ " task(s) below primary")
        else fail_check "plan.fallback" CategoryProject "useful work exists below the primary band"
          "at least one non-primary task" "none"
          "declare validation, assurance, evidence or documentation work, so a blocked primary path does not end the run" ]
  end.

Section checks.
Context `{GoTables}.
(** filepath.EvalSymlinks, on a Unix host. *)
Context (eval_symlinks : string -> option string).

(** * Remotes and paths *)

Definition normalizeRemoteURL (raw : string) : string :=
  let u := TrimSpace raw in
  if String.eqb u "" then ""
  else
    let u := TrimSuffix u "/" in
    let u := fold_left TrimPrefix ["https://"; "http://"; "ssh://"; "git://"] u in
    let u := match after_last "@" u with
             | Some rest =>
                 if Contains (String.substring 0 (String.length u - String.length rest - 1) u) "/"
                 then u else rest
             | None => u
             end in
    let u := ReplaceFirst u ":" "/" in
    let u := TrimSuffix u ".git" in
    ToLower (TrimSuffix u "/").

Definition SameRemote (a b : string) : bool :=
  negb (String.eqb (normalizeRemoteURL a) "")
  && String.eqb (normalizeRemoteURL a) (normalizeRemoteURL b).

Definition norm_path (p : string) : string :=
  default (filepath_Clean p) (eval_symlinks (filepath_Clean p)).

Definition samePath (a b : string) : bool := String.eqb (norm_path a) (norm_path b).

Definition WriterLockDir (state : RepoState) : string := filepath_Join [rp_GitDir state; "gc-unattended"].

Definition orNone (s : string) : string := if blank s then "none" else s.

(** * Ownership.Assert *)

Definition unprobed_checks : list CheckResult :=
  let u := "the declared worktree could not be probed" in
  [ notReached "ownership.repository" CategoryOwnership "worktree is the declared repository"
      (u +:+ ", so its identity is unknown");
    notReached "ownership.origin" CategoryOwnership "origin remote is the declared repository"
      (u +:+ ", so it has no readable remote");
    notReached "ownership.branch" CategoryOwnership "checked-out branch is the declared branch"
      (u +:+ ", so it has no readable branch");
    notReached "repository.head" CategoryRepository "HEAD is known" (u +:+ ", so HEAD is unknown");
    notReached "repository.clean" CategoryRepository "worktree state is known and acceptable"
      (u +:+ ", so its cleanliness is unknown");
    notReached "repository.operation" CategoryRepository "no unfinished merge, rebase or cherry-pick"
      (u +:+ ", so an unfinished operation cannot be ruled out") ].

Definition repository_check (o : Ownership) (s : RepoState) : CheckResult :=
  if samePath (rp_Root s) (os_Worktree o) then
    pass "ownership.repository" CategoryOwnership "worktree is the declared repository" (rp_Root s)
  else fail_check "ownership.repository" CategoryOwnership "worktree is the declared repository"
    (os_Worktree o) (rp_Root s)
    "this session is pointed at a different repository than it declared — stop before mutating anything".

Definition origin_check (o : Ownership) (s : RepoState) : CheckResult :=
  let title := "origin remote is the declared repository" in
  if String.eqb (os_ExpectedOrigin o) "" then
    pass "ownership.origin" CategoryOwnership title "no origin expectation declared"
  else if SameRemote (rp_OriginURL s) (os_ExpectedOrigin o) then
    pass "ownership.origin" CategoryOwnership title (rp_OriginURL s)
  else fail_check "ownership.origin" CategoryOwnership title (os_ExpectedOrigin o)
    (orNone (rp_OriginURL s))
    "the directory is a git worktree but not of the declared project — do not push or open a PR from here".

Definition branch_check (o : Ownership) (s : RepoState) : CheckResult :=
  let title := "checked-out branch is the declared branch" in
  if String.eqb (os_ExpectedBranch o) "" then
    pass "ownership.branch" CategoryOwnership title "no branch expectation declared"
  else if rp_Detached s then
    fail_check "ownership.branch" CategoryOwnership title (os_ExpectedBranch o)
      ("detached HEAD at " +:+ shortSHA (rp_Head s))
      "check out the declared branch before starting an unattended run"
  else if String.eqb (rp_Branch s) (os_ExpectedBranch o) then
    pass "ownership.branch" CategoryOwnership title (rp_Branch s)
  else fail_check "ownership.branch" CategoryOwnership title (os_ExpectedBranch o) (rp_Branch s)
    "another session may already have moved this worktree — do not mutate it".

Definition head_check (s : RepoState) : CheckResult :=
  if String.eqb (rp_Head s) "" then
    fail_check "repository.head" CategoryRepository "HEAD is known" "a commit"
      "unborn branch — no commits"
      "make an initial commit; a run cannot fence a HEAD that does not exist"
  else pass "repository.head" CategoryRepository "HEAD is known" (shortSHA (rp_Head s)).

Definition clean_check (o : Ownership) (s : RepoState) : CheckResult :=
  let title := "worktree state is known and acceptable" in
  let n := Itoa (Z.of_nat (length (rp_Dirty s))) in
  match rp_Dirty s with
  | [] => pass "repository.clean" CategoryRepository title "clean"
  | _ =>
      if os_AllowDirtyWorktree o then
        mkCheck "repository.clean" CategoryRepository title OutcomePass ""
          ("dirty, " +:+ n +:+ " path(s), permitted by declaration") (join_with "; " (rp_Dirty s)) "" ""
      else mkCheck "repository.clean" CategoryRepository title OutcomeFail "clean"
          ("dirty, " +:+ n +:+ " path(s)") (join_with "; " (rp_Dirty s))
          "commit or stash the change, or declare allowDirtyWorktree if the dirt is expected" ""
  end.

Definition operation_check (s : RepoState) : CheckResult :=
  let title := "no unfinished merge, rebase or cherry-pick" in
  if String.eqb (rp_InProgress s) "" then pass "repository.operation" CategoryRepository title "none"
  else fail_check "repository.operation" CategoryRepository title "no operation in progress"
    (rp_InProgress s +:+ " in progress")
    ("finish or abort the " +:+ rp_InProgress s
     +:+ " by hand — an unattended run must not compound a state a human was resolving").

Definition Assert (o : Ownership) (s : RepoState) (probeErr : option string) : list CheckResult :=
  let title := "declared worktree is a readable git worktree" in
  match probeErr with
  | Some e =>
      fail_check "ownership.worktree" CategoryOwnership title (os_Worktree o) e
        "point the run at a real git worktree, or create it before starting" :: unprobed_checks
  | None =>
      [ pass "ownership.worktree" CategoryOwnership title (rp_Root s); repository_check o s;
        origin_check o s; branch_check o s; head_check s; clean_check o s; operation_check s ]
  end.

(** * The competing writer *)

(** ProbeOwner: the recorded owner, whether one is recorded, whether the lock is held
    now, and an error. *)
Record OwnerProbe : Type := mkProbe { op_owner : option Owner; op_live : bool; op_err : option string }.

Definition describeOwner (o : option Owner) (since : string) : string :=
  match o with
  | None => "an unrecorded holder"
  | Some w => "run " +:+ Quote (ow_RunID w) +:+ " (session " +:+ Quote (ow_Session w) +:+ ", pid "
              +:+ Itoa (ow_PID w) +:+ " on " +:+ ow_Host w +:+ ") since " +:+ since
  end.

Definition competingWriterCheck (state : RepoState) (p : OwnerProbe) (since : string) : CheckResult :=
  let id := "concurrency.writer" in
  let title := "no competing writer on this worktree" in
  if String.eqb (rp_Root state) "" then
    notReached id CategoryConcurrency title
      "the worktree could not be probed, so its lock could not be read"
  else
    match op_err p with
    | Some e => fail_check id CategoryConcurrency title "a readable lock" e
                  "inspect the lock directory by hand"
    | None =>
        if op_live p then
          mkCheck id CategoryConcurrency title OutcomeFail "no live owner"
            (describeOwner (op_owner p) since)
            "the lock is held right now, so another session is genuinely working in this worktree"
            "wait for the other session to finish; do not break a live lock" ""
        else
          match op_owner p with
          | Some _ => mkCheck id CategoryConcurrency title OutcomePass ""
              ("no live owner; a stale record from " +:+ describeOwner (op_owner p) since)
              "the previous owner's record outlived its lock, so it will be archived when this run acquires"
              "" ""
          | None => pass id CategoryConcurrency title "no owner recorded and the lock is free"
          end
    end.

(** * The forge *)

Record GitHubProbe : Type := mkGitHubProbe {
  gp_Authenticated : bool;
  gp_Account : string;
  gp_RepoReadable : bool;
  gp_ViewerPermission : string;
  gp_DefaultBranch : string;
  gp_ProtectionReadable : bool;
  gp_ProtectionPresent : bool;
  gp_RequiredApprovals : Z;
  gp_RequiresReview : bool;
  gp_Notes : list string
}.

Definition writeCapablePermissions (p : string) : bool :=
  String.eqb p "ADMIN" || String.eqb p "MAINTAIN" || String.eqb p "WRITE".
Definition mergeCapablePermissions (p : string) : bool :=
  String.eqb p "ADMIN" || String.eqb p "MAINTAIN" || String.eqb p "WRITE".

Definition GitHubCommand : string := "gh".

Definition gh_command (r : GitHubRequirement) : string :=
  if blank (gh_Command r) then GitHubCommand else gh_Command r.

Definition notesSuffix (notes : list string) : string :=
  match notes with [] => "" | _ => " (" +:+ join_with "; " notes +:+ ")" end.

Definition ghNotReached (why : string) : list CheckResult :=
  [ notReached "github.repo" CategoryGitHub "repository is readable" why;
    notReached "github.push" CategoryGitHub "push authority on the working branch" why;
    notReached "github.pr" CategoryGitHub "pull requests may be opened" why;
    notReached "github.checks" CategoryGitHub "CI results are readable" why;
    notReached "github.merge" CategoryGitHub "pull requests may be merged" why ].

Definition capabilityCheck (id title : string) (needed have : bool) (permission action : string)
  : CheckResult :=
  if negb needed then pass id CategoryGitHub title "not required by this run"
  else if have then pass id CategoryGitHub title permission
  else boundary id CategoryGitHub title "write-capable permission"
         ("permission " +:+ orNone permission) "" action.

Definition mergeCheck (req : GitHubRequirement) (p : GitHubProbe) : CheckResult :=
  let id := "github.merge" in
  let title := "pull requests may be merged" in
  let humanAction :=
    if String.eqb (gh_MergeHumanAction req) "" then
      "a person with merge rights on " +:+ gh_Repo req +:+ " merges the pull request this run opens"
    else gh_MergeHumanAction req in
  if negb (gh_NeedMerge req) then
    boundary id CategoryGitHub title "a merge this run performs"
      "this run does not claim merge authority" "" humanAction
  else if negb (mergeCapablePermissions (gp_ViewerPermission p)) then
    boundary id CategoryGitHub title "merge-capable permission"
      ("permission " +:+ orNone (gp_ViewerPermission p)) "" humanAction
  else if negb (gp_ProtectionReadable p) then
    fail_check id CategoryGitHub title "branch protection readable"
      ("unreadable" +:+ notesSuffix (gp_Notes p))
      "grant this account permission to read branch protection, or set needMerge=false and plan for a human merge"
  else if gp_RequiresReview p then
    boundary id CategoryGitHub title "no blocking review requirement"
      ("branch protection requires " +:+ Itoa (gp_RequiredApprovals p) +:+ " approving review(s)") ""
      "a human reviewer approves the pull request before it can merge"
  else
    pass id CategoryGitHub title
      (if gp_ProtectionPresent p
       then gp_ViewerPermission p +:+ ", branch protection present but requires no approving review"
       else gp_ViewerPermission p +:+ ", no branch protection").

Definition GitHubChecks (req : GitHubRequirement) (p : GitHubProbe) : list CheckResult :=
  if negb (gp_Authenticated p) then
    boundary "github.auth" CategoryGitHub "the forge CLI is authenticated" "authenticated"
      "not authenticated" ""
      ("run `" +:+ gh_command req +:+ " auth login` — an interactive login cannot be performed by the run")
    :: ghNotReached "the forge CLI is not authenticated, so this could not be asked"
  else
    [pass "github.auth" CategoryGitHub "the forge CLI is authenticated" ("as " +:+ orNone (gp_Account p))]
    ++ (if String.eqb (gh_Account req) "" then []
        else if EqualFold (gh_Account req) (gp_Account p) then
          [pass "github.account" CategoryGitHub "authenticated as the declared account" (gp_Account p)]
        else [fail_check "github.account" CategoryGitHub "authenticated as the declared account"
                (gh_Account req) (orNone (gp_Account p))
                ("switch accounts with `" +:+ gh_command req
                 +:+ " auth switch` before starting a run that pushes")])
    ++ (if negb (gp_RepoReadable p) then
          fail_check "github.repo" CategoryGitHub "repository is readable" (gh_Repo req)
            ("not readable" +:+ notesSuffix (gp_Notes p))
            "check the repository name, and that this account has access to it"
          :: ghNotReached "the repository could not be read, so this could not be asked"
        else
          let canWrite := writeCapablePermissions (gp_ViewerPermission p) in
          [ pass "github.repo" CategoryGitHub "repository is readable"
              (gh_Repo req +:+ " (" +:+ gp_ViewerPermission p +:+ ")");
            capabilityCheck "github.push" "push authority on the working branch" (gh_NeedPush req)
              canWrite (gp_ViewerPermission p)
              ("ask an administrator of " +:+ gh_Repo req +:+ " for write access");
            capabilityCheck "github.pr" "pull requests may be opened" (gh_NeedPR req)
              canWrite (gp_ViewerPermission p)
              ("use a fork-and-pull workflow, or obtain write access to " +:+ gh_Repo req);
            capabilityCheck "github.checks" "CI results are readable" (gh_NeedChecks req)
              true (gp_ViewerPermission p)
              ("obtain read access to Actions on " +:+ gh_Repo req);
            mergeCheck req p ]).

(** * State directory *)

(** The observations stateChecks makes: whether the state directory lies inside the
    worktree, and why it cannot be written if it cannot. *)
Definition stateChecks (spec : Spec) (inside : bool) (unwritable : option string) : list CheckResult :=
  let title := "durable run state has somewhere to go" in
  if blank (sp_StateDir spec) then
    [fail_check "state.dir" CategoryProject title "stateDir" "unset"
       "set stateDir — a run whose journal has nowhere to go cannot be resumed or audited"]
  else if negb (String.eqb (os_Worktree (sp_Ownership spec)) "") && inside then
    [fail_check "state.dir" CategoryProject title "a directory outside the mutable worktree"
       (sp_StateDir spec)
       ("move stateDir outside " +:+ os_Worktree (sp_Ownership spec)
        +:+ " so a checkout cannot disturb the run journal")]
  else
    match unwritable with
    | Some e => [fail_check "state.dir" CategoryProject title "a writable directory" e
                   ("create " +:+ sp_StateDir spec +:+ " and make it writable")]
    | None =>
        [ pass "state.dir" CategoryProject title (sp_StateDir spec);
          if blank (sp_PublishPath spec) then
            mkCheck "state.publish" CategoryProject "run progress is published where the dashboard reads it"
              OutcomePass "" "this run publishes nothing"
              "publishPath is unset, so no delivery projection is written; the report says so rather than implying publication happened" "" ""
          else pass "state.publish" CategoryProject "run progress is published where the dashboard reads it"
                 (sp_PublishPath spec) ]
    end.

(** * Preflight *)

(** What a preflight observes. *)
Record Facts : Type := mkFacts {
  fx_repo : RepoState;
  fx_repo_err : option string;
  fx_owner : OwnerProbe;
  fx_owner_since : string;
  fx_cross_os : CheckResult;
  fx_github : GitHubProbe;
  fx_probes : list CheckResult;
  fx_state_inside : bool;
  fx_state_unwritable : option string
}.

Record Report : Type := mkReport {
  rt_RunID : string;
  rt_ProjectID : string;
  rt_Session : string;
  rt_Readiness : Readiness;
  rt_Checks : list CheckResult;
  rt_Repo : RepoState
}.

Definition Preflight (spec : Spec) (plan : option Plan) (x : Facts) : Report :=
  let checks :=
    Assert (sp_Ownership spec) (fx_repo x) (fx_repo_err x)
    ++ [competingWriterCheck (fx_repo x) (fx_owner x) (fx_owner_since x)]
    ++ (if String.eqb (rp_Root (fx_repo x)) "" then [] else [fx_cross_os x])
    ++ match sp_GitHub spec with Some req => GitHubChecks req (fx_github x) | None => [] end
    ++ fx_probes x
    ++ stateChecks spec (fx_state_inside x) (fx_state_unwritable x)
    ++ DeclaredBoundaryChecks (sp_Boundaries spec)
    ++ match plan with
       | None =>
           [ notReached "plan.work" CategoryProject "the run has declared work"
               "no work plan was supplied to preflight";
             notReached "plan.fallback" CategoryProject "useful work exists below the primary band"
               "no work plan was supplied to preflight" ]
       | Some p => PlanChecks p
       end in
  mkReport (match plan with Some p => pl_RunID p | None => "" end) (sp_ProjectID spec)
    (os_Session (sp_Ownership spec)) (checks_Readiness checks) checks (fx_repo x).

End checks.

(** Report.Check and Report.Boundaries; a later boundary of the same id wins. *)
Definition report_Check (r : Report) (id : string) : option CheckResult :=
  List.find (fun c => String.eqb (ck_ID c) id) (rt_Checks r).

Definition report_Boundaries (r : Report) : gmap string string :=
  fold_left (fun m c => <[ck_ID c := ck_Boundary c]> m) (checks_Boundaries (rt_Checks r)) ∅.

Definition Blocking (r : Report) : list CheckResult := Failures (rt_Checks r).

(** * The verdict *)

Lemma severity_normalize o : severity (normalizeOutcome o) = severity o.
Proof. unfold severity, normalizeOutcome. repeat (split_str; simpl; subst; try done). Qed.

Lemma severity_worse w o : severity (worse w o) = Z.max (severity w) (severity o).
Proof. unfold worse. split_match; [rewrite severity_normalize|]; lia. Qed.

Lemma worse_le os : forall w n,
  severity (fold_left worse os w) <= n <-> severity w <= n /\ Forall (fun o => severity o <= n) os.
Proof.
  induction os as [|o os IH]; intros w n; simpl; [by split; [intros ?; split; [|constructor]|intros [? _]]|].
  rewrite IH, severity_worse, Forall_cons. split; [intros [? ?]; repeat split|intros (? & ? & ?); split]; (done || lia).
Qed.

Lemma severity_pass_le o : severity o <= 0 <-> o = OutcomePass.
Proof. unfold severity. repeat (split_str; [subst; split; (done || lia)|]). split; [lia|done]. Qed.

Lemma severity_boundary_le o : severity o <= 1 <-> o = OutcomePass \/ o = OutcomeHumanBoundary.
Proof.
  unfold severity. repeat (split_str; [subst; split; [auto || lia|by intros [?|?]]|]).
  split; [lia|by intros [?|?]].
Qed.

Lemma worst_severity os : os <> [] -> severity (WorstOutcome os) = severity (fold_left worse os OutcomePass).
Proof. by destruct os. Qed.

Lemma readiness_severity os :
  (ReadinessOf os = Ready <-> severity (WorstOutcome os) <= 0)
  /\ (PermitsUnattendedRun (ReadinessOf os) = true <-> severity (WorstOutcome os) <= 1).
Proof.
  unfold ReadinessOf. rewrite severity_pass_le, severity_boundary_le.
  destruct (String.eqb_spec (WorstOutcome os) OutcomePass); [by split; split; auto|].
  destruct (String.eqb_spec (WorstOutcome os) OutcomeHumanBoundary); [by split; split; auto|].
  by split; (split; [|intros; exfalso; tauto]).
Qed.

Lemma readiness_facts os :
  (ReadinessOf os = Ready <-> os <> [] /\ Forall (fun o => o = OutcomePass) os)
  /\ (PermitsUnattendedRun (ReadinessOf os) = true
      <-> os <> [] /\ Forall (fun o => o = OutcomePass \/ o = OutcomeHumanBoundary) os)
  /\ (forall os', os ≡ₚ os' -> ReadinessOf os = ReadinessOf os').
Proof.
  assert (Hr : forall os, ReadinessOf os = Ready <-> os <> [] /\ Forall (fun o => o = OutcomePass) os).
  { intros l. rewrite (proj1 (readiness_severity l)). destruct l as [|o l]; [by split; [|intros [? _]]|].
    rewrite worst_severity, worse_le by done. setoid_rewrite severity_pass_le. by split; intros [? ?]. }
  assert (Hp : forall os, PermitsUnattendedRun (ReadinessOf os) = true
    <-> os <> [] /\ Forall (fun o => o = OutcomePass \/ o = OutcomeHumanBoundary) os).
  { intros l. rewrite (proj2 (readiness_severity l)). destruct l as [|o l]; [by split; [|intros [? _]]|].
    rewrite worst_severity, worse_le by done. setoid_rewrite severity_boundary_le.
    split; intros [? ?]; by auto. }
  split; [done|]. split; [done|]. intros os' Hperm.
  assert (Hn : os <> [] <-> os' <> []).
  { split; intros Hne ->; apply Hne; [by apply Permutation_nil_r|symmetry; by apply Permutation_nil_l]. }
  assert (H1 : ReadinessOf os = Ready <-> ReadinessOf os' = Ready) by (by rewrite !Hr, Hn, Hperm).
  assert (H2 : PermitsUnattendedRun (ReadinessOf os) = true <-> PermitsUnattendedRun (ReadinessOf os') = true)
    by (by rewrite !Hp, Hn, Hperm).
  clear -H1 H2. destruct (ReadinessOf os), (ReadinessOf os'); simpl in *; intuition congruence.
Qed.

(** The verdict of a preflight is the worst outcome and nothing else: READY exactly
    when there are checks and all passed, a permitted run exactly when every check passed
    or found a named human boundary; an empty set of checks, an unrun check and an
    outcome outside the vocabulary all refuse, in whatever order the checks ran. *)
Theorem readiness_exact os :
  (ReadinessOf os = Ready <-> os <> [] /\ Forall (fun o => o = OutcomePass) os)
  /\ (PermitsUnattendedRun (ReadinessOf os) = true
      <-> os <> [] /\ Forall (fun o => o = OutcomePass \/ o = OutcomeHumanBoundary) os)
  /\ (forall os', os ≡ₚ os' -> ReadinessOf os = ReadinessOf os').
Proof. apply readiness_facts. Qed.

(** * What a permitted run may rely on *)

Definition good (c : CheckResult) : Prop := ck_Outcome c = OutcomePass \/ ck_Outcome c = OutcomeHumanBoundary.

Section guarantees.
Context `{GoTables} (eval_symlinks : string -> option string).

Lemma preflight_good spec plan x :
  PermitsUnattendedRun (rt_Readiness (Preflight eval_symlinks spec plan x)) = true ->
  Forall good (rt_Checks (Preflight eval_symlinks spec plan x)).
Proof.
  intros Hp. apply (proj1 (proj2 (readiness_facts _))) in Hp as [_ Hp]. unfold Outcomes in Hp.
  rewrite Forall_fmap in Hp. exact Hp.
Qed.

Lemma bad_fail id c t e o r : ~ good (fail_check id c t e o r).
Proof. by intros [?|?]. Qed.
Lemma bad_notReached id c t w : ~ good (notReached id c t w).
Proof. by intros [?|?]. Qed.

(** The worktree is the one declared, on its branch, at a commit, in a state to work
    from, and nobody else is in it. *)
Definition ground_safe (o : Ownership) (x : Facts) : Prop :=
  let s := fx_repo x in
  samePath eval_symlinks (rp_Root s) (os_Worktree o) = true
  /\ (os_ExpectedOrigin o = "" \/ SameRemote (rp_OriginURL s) (os_ExpectedOrigin o) = true)
  /\ (os_ExpectedBranch o = "" \/ rp_Detached s = false /\ rp_Branch s = os_ExpectedBranch o)
  /\ rp_Head s <> "" /\ (rp_Dirty s = [] \/ os_AllowDirtyWorktree o = true) /\ rp_InProgress s = ""
  /\ op_live (fx_owner x) = false.

Lemma assert_good o x :
  Forall good (Assert eval_symlinks o (fx_repo x) (fx_repo_err x)) ->
  good (competingWriterCheck (fx_repo x) (fx_owner x) (fx_owner_since x)) -> ground_safe o x.
Proof.
  intros Ha Hw. unfold Assert in Ha. destruct (fx_repo_err x) as [e|].
  { apply Forall_cons in Ha as [Ha _]. by apply bad_fail in Ha. }
  rewrite !Forall_cons in Ha. destruct Ha as (_ & Hrepo & Horig & Hbr & Hhead & Hclean & Hop & _).
  unfold ground_safe. repeat split.
  - unfold repository_check in Hrepo. destruct (samePath _ _ _); [done|]. by apply bad_fail in Hrepo.
  - unfold origin_check in Horig. destruct (String.eqb_spec (os_ExpectedOrigin o) ""); [by left|].
    destruct (SameRemote _ _); [by right|]. by apply bad_fail in Horig.
  - unfold branch_check in Hbr. destruct (String.eqb_spec (os_ExpectedBranch o) ""); [by left|right].
    destruct (rp_Detached _); [by apply bad_fail in Hbr|]. split; [done|].
    destruct (String.eqb_spec (rp_Branch (fx_repo x)) (os_ExpectedBranch o)); [done|]. by apply bad_fail in Hbr.
  - unfold head_check in Hhead. destruct (String.eqb_spec (rp_Head (fx_repo x)) ""); [by apply bad_fail in Hhead|done].
  - unfold clean_check in Hclean. destruct (rp_Dirty _); [by left|right].
    destruct (os_AllowDirtyWorktree o); [done|]. by destruct Hclean.
  - unfold operation_check in Hop. destruct (String.eqb_spec (rp_InProgress (fx_repo x)) ""); [done|]. by apply bad_fail in Hop.
  - unfold competingWriterCheck in Hw. destruct (String.eqb _ ""); [by apply bad_notReached in Hw|].
    destruct (op_err _); [by apply bad_fail in Hw|]. destruct (op_live _); [|done]. by destruct Hw.
Qed.

Lemma failures_nil cs : Forall good cs -> Failures cs = [].
Proof.
  induction 1 as [|c cs Hc _ IH]; [done|]. unfold Failures in *. simpl. rewrite IH.
  by destruct Hc as [-> | ->].
Qed.

Lemma all_primary tasks :
  band_count BandPrimary tasks = Z.of_nat (length tasks)
  \/ exists t, t ∈ tasks /\ tk_Band t <> BandPrimary.
Proof.
  induction tasks as [|t tasks IH]; [by left|]. unfold band_count in *. simpl.
  destruct (String.eqb_spec (tk_Band t) BandPrimary) as [E|E]; [|right; exists t; split; [left|done]].
  destruct IH as [IH|(u & Hu & Hb)]; [left; simpl; lia|right; exists u; split; [by right|done]].
Qed.

Lemma plan_good plan :
  Forall good (PlanChecks plan) -> exists t, t ∈ pl_Tasks plan /\ tk_Band t <> BandPrimary.
Proof.
  destruct (all_primary (pl_Tasks plan)) as [Hall|?]; [|done]. unfold PlanChecks.
  destruct (pl_Tasks plan) as [|t ts]; rewrite Forall_cons; [intros [Hf _]; by apply bad_fail in Hf|].
  intros [_ Hf]. rewrite Hall, Z.sub_diag in Hf. apply Forall_cons in Hf as [Hf _]. by apply bad_fail in Hf.
Qed.

(** A run preflight permits stands on proved ground: its worktree is the declared
    one, on the declared branch and remote, at a known commit, clean unless declared
    otherwise, without an unfinished operation or a live competing writer; its plan has
    work, and work below the primary band; and a specification with a forge requirement
    is permitted only when the forge is authenticated and the repository readable. *)
Theorem preflight_guarantees spec plan x :
  PermitsUnattendedRun (rt_Readiness (Preflight eval_symlinks spec (Some plan) x)) = true ->
  ground_safe (sp_Ownership spec) x
  /\ pl_Tasks plan <> [] /\ (exists t, t ∈ pl_Tasks plan /\ tk_Band t <> BandPrimary)
  /\ (forall req, sp_GitHub spec = Some req ->
      gp_Authenticated (fx_github x) = true /\ gp_RepoReadable (fx_github x) = true)
  /\ Blocking (Preflight eval_symlinks spec (Some plan) x) = [].
Proof.
  intros Hp%preflight_good. assert (Hblock := Hp). unfold Preflight in Hp.
  cbn [rt_Checks] in Hp. rewrite !Forall_app in Hp.
  destruct Hp as (Ha & Hw & _ & Hg & _ & _ & _ & Hplan). split; [|split; [|split; [|split]]].
  - apply Forall_cons in Hw as [Hw _]. by apply assert_good.
  - unfold PlanChecks in Hplan. destruct (pl_Tasks plan); [|done].
    apply Forall_cons in Hplan as [Hplan _]. by apply bad_fail in Hplan.
  - by apply plan_good.
  - intros req E. rewrite E in Hg. unfold GitHubChecks in Hg.
    destruct (gp_Authenticated (fx_github x)); simpl in Hg.
    + split; [done|]. apply Forall_cons in Hg as [_ Hg]. apply Forall_app in Hg as [_ Hg].
      destruct (gp_RepoReadable (fx_github x)); [done|]. apply Forall_cons in Hg as [Hg _]. by apply bad_fail in Hg.
    + unfold ghNotReached in Hg. rewrite !Forall_cons in Hg. destruct Hg as (_ & Hg & _). by apply bad_notReached in Hg.
  - by apply failures_nil.
Qed.

End guarantees.
