(* ===== verification/RunRunner.v ===== *)
(** The runner (internal/unattended/runner.go): the loop that drains the work queue
    under the fence and the journal, one attempt, the gate evidence, the completion
    event; and starting a run (session.go): validation, the journal of the run so far,
    preflight, the lock, the fence, the restored queue, and the runner.  Everything
    outside the process (the clock of cancellation, the lock record, the worktree, the
    task's command, the files written) is a World: a reply for every tick of a counter
    that each interaction advances, so the theorems hold whatever the outside does and
    whenever it changes.  Clock readings and durations, which no decision reads, are left
    out. *)
From S2P Require Import Prelude GoStd RunFailure RunQA RunPlan RunJournal RunQueue.
From S2P Require Import RunController RunFence RunSpec RunPreflight.

(** * The outside *)

(** One Journal.Append: the record is durable; it is not written; or it is in the file
    and the sync failed. *)
Inductive AppendReply : Type := Durable | NotWritten (e : string) | NotSynced (e : string).

Record World : Type := mkWorld {
  w_ctx : nat -> option string;                          (* ctx.Err() *)
  w_owner : nat -> OwnerRead;                            (* ReadOwner *)
  w_repo : nat -> RepoRead;                              (* ProbeRepo *)
  w_remove : nat -> option string;                       (* os.Remove of the result file *)
  w_execute : nat -> Task -> string * bool * option string;  (* Runner.execute *)
  w_result : nat -> FileRead;                            (* the result file afterwards *)
  w_json : string -> ControllerResult * option string;   (* json.Unmarshal *)
  w_append : nat -> AppendReply;
  w_capture : nat -> option string;                      (* writing a failure's output *)
  w_progress : nat -> option string;                     (* WriteProgress *)
  w_delivery : nat -> option string;                     (* PublishDelivery *)
  w_completion : nat -> option string                    (* WriteCompletion *)
}.

(** * Reports *)

Definition RunCompleted : string := "completed".
Definition RunBlockedHuman : string := "blocked-human".
Definition RunAwaitingAuth : string := "awaiting-auth".
Definition RunFailed : string := "failed".

Definition NeedsAttention (o : string) : bool := negb (String.eqb o RunCompleted).

Definition StageFinished : string := "finished".

Record Progress : Type := mkProgress {
  pg_RunID : string; pg_ProjectID : string; pg_Session : string; pg_Stage : string;
  pg_CurrentTask : string; pg_CurrentBand : string; pg_LastMilestone : string;
  pg_ActiveBlocker : string; pg_UsingFallback : bool; pg_NextAction : string;
  pg_WriterOwner : string; pg_WriterPID : Z; pg_Worktree : string; pg_Branch : string;
  pg_Head : string; pg_Tasks : TaskState -> Z; pg_Attempts : Z; pg_Resumes : Z;
  pg_Boundaries : list string; pg_QA : ProgressionDecision
}.

Record CompletionEvent : Type := mkCompletion {
  ce_RunID : string; ce_ProjectID : string; ce_Session : string; ce_SessionLabel : string;
  ce_Outcome : string; ce_Reason : string; ce_Worktree : string; ce_Branch : string;
  ce_Head : string; ce_Tasks : TaskState -> Z; ce_Attempts : Z; ce_Resumes : Z;
  ce_HumanActions : list string; ce_Failures : list string; ce_QA : ProgressionDecision
}.

(** * The runner's state *)

(** The journal is the records in the file, the last number given out and the run it
    stamps; published heartbeats, backoffs slept and the tick of the world are kept with
    the fields of Runner. *)
Record Runner : Type := mkRunner {
  rn_Spec : Spec;
  rn_Plan : Plan;
  rn_Report : option Report;
  rn_Lock : option Owner;
  rn_Fence : Fence;
  rn_runID : string;
  rn_seq : Z;
  rn_log : list JournalRecord;
  rn_Queue : Queue;
  rn_Evidence : gmap string GateEvidence;
  rn_lastMilestone : string;
  rn_stopReason : string;
  rn_stopClass : string;
  rn_stopOutcome : string;
  rn_attempts : Z;
  rn_resumes : Z;
  rn_published : list Progress;
  rn_slept : list Z;
  rn_tick : nat
}.

Definition set_Fence (f : Fence) (r : Runner) : Runner :=
  mkRunner (rn_Spec r) (rn_Plan r) (rn_Report r) (rn_Lock r) f (rn_runID r) (rn_seq r) (rn_log r)
    (rn_Queue r) (rn_Evidence r) (rn_lastMilestone r) (rn_stopReason r) (rn_stopClass r)
    (rn_stopOutcome r) (rn_attempts r) (rn_resumes r) (rn_published r) (rn_slept r) (rn_tick r).

Definition set_Queue (q : Queue) (r : Runner) : Runner :=
  mkRunner (rn_Spec r) (rn_Plan r) (rn_Report r) (rn_Lock r) (rn_Fence r) (rn_runID r) (rn_seq r)
    (rn_log r) q (rn_Evidence r) (rn_lastMilestone r) (rn_stopReason r) (rn_stopClass r)
    (rn_stopOutcome r) (rn_attempts r) (rn_resumes r) (rn_published r) (rn_slept r) (rn_tick r).

Definition set_Evidence (m : gmap string GateEvidence) (r : Runner) : Runner :=
  mkRunner (rn_Spec r) (rn_Plan r) (rn_Report r) (rn_Lock r) (rn_Fence r) (rn_runID r) (rn_seq r)
    (rn_log r) (rn_Queue r) m (rn_lastMilestone r) (rn_stopReason r) (rn_stopClass r)
    (rn_stopOutcome r) (rn_attempts r) (rn_resumes r) (rn_published r) (rn_slept r) (rn_tick r).

Definition set_milestone (s : string) (r : Runner) : Runner :=
  mkRunner (rn_Spec r) (rn_Plan r) (rn_Report r) (rn_Lock r) (rn_Fence r) (rn_runID r) (rn_seq r)
    (rn_log r) (rn_Queue r) (rn_Evidence r) s (rn_stopReason r) (rn_stopClass r)
    (rn_stopOutcome r) (rn_attempts r) (rn_resumes r) (rn_published r) (rn_slept r) (rn_tick r).

(** stopReason, stopClass and, when it is given, stopOutcome. *)
Definition set_stop (reason class : string) (outcome : option string) (r : Runner) : Runner :=
  mkRunner (rn_Spec r) (rn_Plan r) (rn_Report r) (rn_Lock r) (rn_Fence r) (rn_runID r) (rn_seq r)
    (rn_log r) (rn_Queue r) (rn_Evidence r) (rn_lastMilestone r) reason class
    (default (rn_stopOutcome r) outcome) (rn_attempts r) (rn_resumes r) (rn_published r) (rn_slept r)
    (rn_tick r).

Definition count_drive (attempts resumes : Z) (r : Runner) : Runner :=
  mkRunner (rn_Spec r) (rn_Plan r) (rn_Report r) (rn_Lock r) (rn_Fence r) (rn_runID r) (rn_seq r)
    (rn_log r) (rn_Queue r) (rn_Evidence r) (rn_lastMilestone r) (rn_stopReason r) (rn_stopClass r)
    (rn_stopOutcome r) (rn_attempts r + attempts) (rn_resumes r + resumes) (rn_published r)
    (rn_slept r) (rn_tick r).

Definition add_progress (p : Progress) (r : Runner) : Runner :=
  mkRunner (rn_Spec r) (rn_Plan r) (rn_Report r) (rn_Lock r) (rn_Fence r) (rn_runID r) (rn_seq r)
    (rn_log r) (rn_Queue r) (rn_Evidence r) (rn_lastMilestone r) (rn_stopReason r) (rn_stopClass r)
    (rn_stopOutcome r) (rn_attempts r) (rn_resumes r) (rn_published r ++ [p]) (rn_slept r) (rn_tick r).

(** r.sleep: a delay that is not positive does not sleep. *)
Definition sleep (d : Z) (r : Runner) : Runner :=
  if d <=? 0 then r
  else
    mkRunner (rn_Spec r) (rn_Plan r) (rn_Report r) (rn_Lock r) (rn_Fence r) (rn_runID r) (rn_seq r)
      (rn_log r) (rn_Queue r) (rn_Evidence r) (rn_lastMilestone r) (rn_stopReason r) (rn_stopClass r)
      (rn_stopOutcome r) (rn_attempts r) (rn_resumes r) (rn_published r) (rn_slept r ++ [d]) (rn_tick r).

(** The journal after an append, and the tick it took. *)
Definition logged (seq : Z) (log : list JournalRecord) (r : Runner) : Runner :=
  mkRunner (rn_Spec r) (rn_Plan r) (rn_Report r) (rn_Lock r) (rn_Fence r) (rn_runID r) seq log
    (rn_Queue r) (rn_Evidence r) (rn_lastMilestone r) (rn_stopReason r) (rn_stopClass r)
    (rn_stopOutcome r) (rn_attempts r) (rn_resumes r) (rn_published r) (rn_slept r) (S (rn_tick r)).

Definition ticked (r : Runner) : Runner := logged (rn_seq r) (rn_log r) r.

(** * Journal.Append *)

Definition stamp (r : Runner) (rec : JournalRecord) : JournalRecord :=
  mkRecord (rn_seq r + 1) (jr_Kind rec)
    (if String.eqb (jr_RunID rec) "" then rn_runID r else jr_RunID rec)
    (jr_TaskID rec) (jr_Attempt rec) (jr_Class rec) (jr_Outcome rec) (jr_Detail rec) (jr_Gate rec).

Section runner.
Context `{GoTables} (w : World).

Definition append (rec : JournalRecord) (r : Runner) : Runner * option string :=
  match w_append w (rn_tick r) with
  | Durable => (logged (rn_seq r + 1) (rn_log r ++ [stamp r rec]) r, None)
  | NotWritten e => (logged (rn_seq r + 1) (rn_log r) r, Some e)
  | NotSynced e => (logged (rn_seq r + 1) (rn_log r ++ [stamp r rec]) r, Some e)
  end.

(** An append whose error is ignored. *)
Definition note (rec : JournalRecord) (r : Runner) : Runner := (append rec r).1.

(** A record literal of the runner. *)
Definition entry (k : RecordKind) (taskID : string) (attempt : Z) (class outcome detail : string)
  : JournalRecord := mkRecord 0 k "" taskID attempt class outcome detail None.

(** * Progress *)

Definition QADecision (r : Runner) : ProgressionDecision :=
  EvaluateProgression (sp_QA (rn_Spec r)) (pl_Risk (rn_Plan r)) (fn_Head (rn_Fence r)) (rn_Evidence r).

(** The held tasks with a reason, as the heartbeat lists them. *)
Definition held_lines (q : Queue) : list string :=
  q_tasks q ≫= fun t =>
    if bool_decide (qt_State t = TaskHeld) && negb (String.eqb (qt_HeldReason t) "")
    then [tk_ID (qt_Task t) +:+ ": " +:+ qt_HeldReason t] else [].

Definition progress_of (stage : string) (current : option QueuedTask) (r : Runner) : Progress :=
  let q := rn_Queue r in
  mkProgress (pl_RunID (rn_Plan r)) (sp_ProjectID (rn_Spec r)) (os_Session (sp_Ownership (rn_Spec r)))
    stage
    (match current with Some t => tk_ID (qt_Task t) | None => "" end)
    (match current with Some t => tk_Band (qt_Task t) | None => "" end)
    (rn_lastMilestone r)
    (match held_lines q with l :: _ => l | [] => "" end)
    (match current with
     | Some t => negb (String.eqb (tk_Band (qt_Task t)) BandPrimary) && PrimaryWorkOutstanding q
     | None => false
     end)
    (match Next q with
     | Some (_, t) => tk_ID (qt_Task t) +:+ " (" +:+ tk_Band (qt_Task t) +:+ ")"
     | None => ""
     end)
    (match rn_Lock r with Some o => ow_RunID o | None => "" end)
    (match rn_Lock r with Some o => ow_PID o | None => 0 end)
    (fn_Worktree (rn_Fence r)) (fn_Branch (rn_Fence r)) (fn_Head (rn_Fence r))
    (Counts q) (rn_attempts r) (rn_resumes r) (held_lines q) (QADecision r).

Definition publish (stage : string) (current : option nat) (r : Runner) : Runner :=
  let cur := current ≫= task_at (rn_Queue r) in
  let r := add_progress (progress_of stage cur r) r in
  let r := match w_progress w (rn_tick r) with
           | Some e => note (entry RecordPreflight "" 0 "" "progress-publication-failed" e) (ticked r)
           | None => ticked r
           end in
  match w_delivery w (rn_tick r) with
  | Some e => note (entry RecordPreflight "" 0 "" "delivery-projection-failed" e) (ticked r)
  | None => ticked r
  end.

(** * Observing an attempt *)

Definition resultPath (r : Runner) (t : Task) : string :=
  if String.eqb (tk_ResultPath t) "" then ""
  else if HasPrefix (tk_ResultPath t) "/" then tk_ResultPath t
  else filepath_Join [sp_StateDir (rn_Spec r); tk_ResultPath t].

(** observe: the stale result is removed first, the command runs, the result is read. *)
Definition observe (r : Runner) (t : Task) : Execution :=
  let declared := negb (String.eqb (tk_ResultPath t) "") in
  let path := resultPath r t in
  let run :=
    let '(out, ok, err) := w_execute w (rn_tick r) t in
    if negb declared then mkExecution ok out err declared None None
    else
      match ReadControllerResult (w_json w) path (w_result w (rn_tick r)) with
      | (_, Some e) => mkExecution ok out err declared None (Some e)
      | (res, None) => mkExecution ok out err declared (Some res) None
      end in
  if declared then
    match w_remove w (rn_tick r) with
    | Some e => mkExecution false "" None declared None
                  (Some (unusable ("clearing " +:+ path +:+ " before the attempt: " +:+ e)))
    | None => run
    end
  else run.

(** * Evidence *)

Definition observedToolVersion (r : Runner) (tool : string) : string :=
  match rn_Report r with
  | None => ""
  | Some rt =>
      match report_Check rt ("tool." +:+ tool) with
      | Some c => if String.eqb (ck_Outcome c) OutcomePass then ck_Observed c else ""
      | None => ""
      end
  end.

Definition evidence_of (t : Task) (result detail : string) (r : Runner) : GateEvidence :=
  mkGateEvidence (tk_QAGate t) (tk_ID t)
    (match tk_Argv t with tool :: _ => tool | [] => "" end)
    (match tk_Argv t with tool :: _ => observedToolVersion r tool | [] => "" end)
    result (fn_Head (rn_Fence r)) (tk_Argv t) detail "".

Definition recordGateEvidence (t : Task) (result detail : string) (r : Runner) : Runner :=
  if String.eqb (tk_QAGate t) "" then r
  else if String.eqb result "" then r
  else
    let ev := evidence_of t result detail r in
    let r := set_Evidence (record_evidence (rn_Evidence r) ev) r in
    note (mkRecord 0 RecordGateEvidence "" (tk_ID t) 0 "" result
            ("gate " +:+ ev_GateID ev +:+ " against " +:+ shortSHA (ev_TargetSHA ev)) (Some ev)) r.

Definition recordAdvance (t : Task) (r : Runner) : Runner :=
  let n := rn_tick r in
  let '(f, res, err) := RecordAuthorisedAdvance (rn_Fence r)
    ("task " +:+ tk_ID t +:+ " mutated the worktree") (w_owner w n) (w_repo w n)
    (w_owner w (S n)) (w_repo w (S n)) in
  let r := set_Fence f (ticked (ticked r)) in
  match err with
  | Some e => note (entry RecordFenceViolated (tk_ID t) 0 "" (fence_string (fr_Status res))
                ("an advance after a mutating task was refused: " +:+ e)) r
  | None => note (entry RecordFenceAdvanced (tk_ID t) 0 "" "" (shortSHA (fn_Head (rn_Fence r)))) r
  end.

Definition maxCapturedOutput : nat := 8 * 1024.

Definition truncate (s : string) : string :=
  if (String.length s <=? maxCapturedOutput)%nat then s
  else String.substring 0 maxCapturedOutput s +:+ newline +:+ "… truncated".

Definition FailuresDirName : string := "failures".

Definition captureFailure (taskID : string) (attempt : Z) (r : Runner) : string * Runner :=
  let path := filepath_Join [sp_StateDir (rn_Spec r);
    FailuresDirName +:+ "/" +:+ taskID +:+ "-attempt-" +:+ Itoa attempt +:+ ".log"] in
  match w_capture w (rn_tick r) with
  | Some e => ("not captured",
      note (entry RecordTaskFailed taskID attempt "" "failure-output-not-captured" e) (ticked r))
  | None => (path, ticked r)
  end.

(** * One attempt *)

Definition driveAgain (p : nat) (t : QueuedTask) (v : ControllerVerdict) (r : Runner) : Runner :=
  let '(q, (used, budget, mayResume)) := RecordResume (rn_Queue r) p in
  let r := count_drive 0 1 (set_Queue q r) in
  let id := tk_ID (qt_Task t) in
  let r := note (entry RecordTaskResumed id (AttemptCount t) "" (disposition_string (cv_Disposition v))
    (cv_Reason v +:+ " (resume " +:+ Itoa used +:+ " of " +:+ Itoa budget +:+ ")")) r in
  if negb mayResume then
    let reason := "did not converge within its " +:+ Itoa budget +:+ " resume(s): " +:+ cv_Reason v in
    let r := set_Queue (Hold (rn_Queue r) p reason) r in
    let r := note (entry RecordTaskHeld id 0 "" (state_string TaskHeld) reason) r in
    let r := recordGateEvidence (qt_Task t) GateError reason r in
    publish "running" None r
  else
    let r := set_milestone (id +:+ " " +:+ disposition_string (cv_Disposition v) +:+ " (resume "
               +:+ Itoa used +:+ " of " +:+ Itoa budget +:+ ")") r in
    publish "resuming" (Some p) r.

Definition stopOnHumanBoundary (p : nat) (t : QueuedTask) (v : ControllerVerdict) (attempt : Z)
    (r : Runner) : Runner :=
  let id := tk_ID (qt_Task t) in
  let '(outputPath, r) := captureFailure id attempt r in
  let r := set_Queue (Hold (rn_Queue r) p (cv_Reason v)) r in
  let r := note (entry RecordTaskHeld id attempt (cv_Class v) (state_string TaskHeld)
             (cv_Reason v +:+ " | output: " +:+ outputPath)) r in
  let r := recordGateEvidence (qt_Task t) (cv_GateResult v)
             (cv_Reason v +:+ " | output: " +:+ outputPath) r in
  let r := set_stop (id +:+ " reached a boundary this run may not cross: " +:+ cv_Reason v) (cv_Class v)
             (Some (if String.eqb (cv_Class v) FailureAuth then RunAwaitingAuth else RunBlockedHuman)) r in
  publish "stopping" None r.

Definition succeed (p : nat) (t : QueuedTask) (v : ControllerVerdict) (attempt : Z) (r : Runner)
  : Runner :=
  let id := tk_ID (qt_Task t) in
  let r := note (entry RecordTaskSucceeded id attempt "" "" (cv_Reason v)) r in
  let r := set_Queue (RecordAttempt (rn_Queue r) p (mkAttempt 0 true "" "" "")).1 r in
  let r := set_milestone (id +:+ " succeeded") r in
  let r := recordGateEvidence (qt_Task t) (cv_GateResult v) "" r in
  let r := if tk_Mutates (qt_Task t) then recordAdvance (qt_Task t) r else r in
  publish "running" None r.

(** The ordinary failure path, for retries and fail-safes. *)
Definition failed (p : nat) (t : QueuedTask) (v : ControllerVerdict) (attempt : Z) (txt : string)
    (r : Runner) : bool * Runner :=
  let id := tk_ID (qt_Task t) in
  let class := cv_Class v in
  let '(outputPath, r) := captureFailure id attempt r in
  let '(q, retry) := RecordAttempt (rn_Queue r) p
    (mkAttempt 0 false class (cv_Reason v) (truncate (Redact txt))) in
  let r := set_Queue q r in
  let state := match task_at q p with Some t' => qt_State t' | None => qt_State t end in
  let detail := cv_Reason v +:+ " | " +:+ firstLine (Redact txt) +:+ " | output: " +:+ outputPath in
  let r := note (entry RecordTaskFailed id attempt class (state_string state) detail) r in
  let r := if bool_decide (state = TaskFailed)
           then recordGateEvidence (qt_Task t) (cv_GateResult v) detail r else r in
  let policy := PolicyFor class in
  if StopsRun policy then
    (true, publish "stopping" None
      (set_stop (id +:+ " failed with a " +:+ class +:+ " failure, which ends the run: " +:+ Why policy)
         class None r))
  else
    match retry with
    | Some delay =>
        let r := note (entry RecordTaskRetry id attempt class "" ("retrying in " +:+ Duration_String delay)) r in
        (false, sleep delay (publish "retrying" (Some p) r))
    | None => (false, publish "running" None r)
    end.

(** The fence check before a mutation: the runner, and whether work may go on. *)
Definition guard_mutation (p : nat) (t : QueuedTask) (r : Runner) : bool * Runner :=
  let id := tk_ID (qt_Task t) in
  let res := Check (rn_Fence r) (w_owner w (rn_tick r)) (w_repo w (rn_tick r)) in
  let r := ticked r in
  if negb (Intact res) then
    let r := note (entry RecordFenceViolated id 0 "" (fence_string (fr_Status res))
               ("expected " +:+ Quote (fr_Expected res) +:+ ", observed " +:+ Quote (fr_Observed res)
                +:+ " — " +:+ fr_Evidence res)) r in
    let r := set_Queue (Hold (rn_Queue r) p
               ("the repository moved outside this run: " +:+ fence_string (fr_Status res))) r in
    (false, set_stop (default "" (violation res)) FailureConcurrentWriter None r)
  else (true, note (entry RecordFenceVerified id 0 "" "" (fr_Expected res)) r).

(** The attempt itself: started, observed, interpreted, recorded. *)
Definition drive (p : nat) (t : QueuedTask) (r : Runner) : bool * Runner :=
  let attempt := AttemptCount t + 1 in
  let r := note (entry RecordTaskStarted (tk_ID (qt_Task t)) attempt "" ""
             (join_with " " (tk_Argv (qt_Task t)))) r in
  let exec := observe r (qt_Task t) in
  let r := ticked r in
  let v := InterpretExecution exec (sp_Classification (rn_Spec r)) in
  let r := if Resumable (cv_Disposition v) then r else count_drive 1 0 r in
  match cv_Disposition v with
  | DispositionSucceeded => (false, succeed p t v attempt r)
  | DispositionContinue | DispositionResume => (false, driveAgain p t v r)
  | DispositionHumanBlocked => (true, stopOnHumanBoundary p t v attempt r)
  | DispositionRetry | DispositionFailSafe => failed p t v attempt (text exec) r
  end.

(** runOne: whether the run must stop. *)
Definition runOne (p : nat) (t : QueuedTask) (r : Runner) : bool * Runner :=
  let r := publish "running" (Some p) r in
  if tk_Mutates (qt_Task t) then
    let '(go, r) := guard_mutation p t r in
    if go then drive p t r else (true, r)
  else drive p t r.

(** * The run *)

Definition isAuthBoundary (checkID : string) : bool :=
  HasPrefix checkID "credential." || String.eqb checkID "github.auth".

Definition boundaries (r : Runner) : gmap string string :=
  match rn_Report r with Some rt => report_Boundaries rt | None => ∅ end.

(** The human actions of the held tasks, each reason once. *)
Fixpoint human_actions (seen : gset string) (ts : list QueuedTask) : list string :=
  match ts with
  | [] => []
  | t :: ts' =>
      if bool_decide (qt_State t = TaskHeld) && negb (String.eqb (qt_HeldReason t) "")
         && negb (bool_decide (qt_HeldReason t ∈ seen))
      then (tk_ID (qt_Task t) +:+ ": " +:+ qt_HeldReason t)
           :: human_actions ({[qt_HeldReason t]} ∪ seen) ts'
      else human_actions seen ts'
  end.

Definition awaits_auth (r : Runner) : bool :=
  existsb (fun t => bool_decide (qt_State t = TaskHeld)
    && existsb (fun id => match boundaries r !! id with Some _ => isAuthBoundary id | None => false end)
         (tk_RequiresChecks (qt_Task t))) (q_tasks (rn_Queue r)).

Definition failed_ids (q : Queue) : list string :=
  sort_Strings (tk_ID ∘ qt_Task <$> filter (fun t => qt_State t = TaskFailed) (q_tasks q)).

(** How the run ended, and why. *)
Definition verdict_of (r : Runner) : string * string :=
  let q := rn_Queue r in
  let qa := QADecision r in
  let failures := failed_ids q in
  if negb (String.eqb (rn_stopReason r) "") then
    (if String.eqb (rn_stopOutcome r) "" then RunFailed else rn_stopOutcome r, rn_stopReason r)
  else if negb (bool_decide (failures = [])) then
    (RunFailed, Itoa (Z.of_nat (length failures)) +:+ " task(s) exhausted their attempts: "
                +:+ join_with ", " failures)
  else if (0 <? Counts q TaskHeld) && awaits_auth r then
    (RunAwaitingAuth, Itoa (Counts q TaskHeld)
       +:+ " task(s) are waiting on an authentication a person must perform")
  else if 0 <? Counts q TaskHeld then
    (RunBlockedHuman, Itoa (Counts q TaskHeld)
       +:+ " task(s) are held behind a human boundary; everything else the run could do is done")
  else if negb (pd_Allowed qa) then
    (RunFailed, "the packet may not progress: " +:+ decision_Reason qa)
  else (RunCompleted, "every declared task succeeded").

Definition finish (r : Runner) : CompletionEvent :=
  let s := os_Session (sp_Ownership (rn_Spec r)) in
  mkCompletion (pl_RunID (rn_Plan r)) (sp_ProjectID (rn_Spec r)) s s (verdict_of r).1 (verdict_of r).2
    (fn_Worktree (rn_Fence r)) (fn_Branch (rn_Fence r)) (fn_Head (rn_Fence r)) (Counts (rn_Queue r))
    (rn_attempts r) (rn_resumes r) (human_actions ∅ (q_tasks (rn_Queue r))) (failed_ids (rn_Queue r))
    (QADecision r).

(** The loop; None is fuel that ran out. *)
Fixpoint run_loop (fuel : nat) (r : Runner) : option Runner :=
  match fuel with
  | O => None
  | S f =>
      match w_ctx w (rn_tick r) with
      | Some e => Some (set_stop ("the run was canceled: " +:+ e) FailureEnvironment None (ticked r))
      | None =>
          let r := ticked r in
          match Next (rn_Queue r) with
          | None => Some r
          | Some (p, t) =>
              match runOne p t r with
              | (true, r') => Some r'
              | (false, r') => run_loop f r'
              end
          end
      end
  end.

Definition started (r : Runner) : JournalRecord :=
  mkRecord 0 RecordRunStarted (pl_RunID (rn_Plan r)) "" 0 "" ""
    ("session=" +:+ os_Session (sp_Ownership (rn_Spec r)) +:+ " worktree=" +:+ fn_Worktree (rn_Fence r)
     +:+ " branch=" +:+ fn_Branch (rn_Fence r) +:+ " head=" +:+ shortSHA (fn_Head (rn_Fence r))) None.

(** Run: the completion event when the run got that far, the error if one is returned. *)
Definition Run (fuel : nat) (r : Runner) : option (option CompletionEvent * option string * Runner) :=
  let '(r, err) := append (started r) r in
  match err with
  | Some e => Some (None, Some e, r)
  | None =>
      match run_loop fuel (publish "starting" None r) with
      | None => None
      | Some r =>
          let event := finish r in
          let '(r, err) := append (entry RecordRunFinished "" 0 "" (ce_Outcome event) (ce_Reason event)) r in
          match err with
          | Some e => Some (Some event, Some e, r)
          | None =>
              match w_completion w (rn_tick r) with
              | Some e => Some (Some event, Some e, ticked r)
              | None => Some (Some event, None, publish StageFinished None (ticked r))
              end
          end
      end
  end.

End runner.

(** The outside of Begin: what ReadJournal found, what preflight observes, and the lock
    Acquire granted or why it did not. *)
Record Ground : Type := mkGround {
  gr_journal : res (list JournalRecord * bool);
  gr_symlinks : string -> option string;
  gr_facts : Facts;
  gr_lock : res Owner;
  gr_lock_dir : string
}.

Section session.
Context `{GoTables} (w : World).

Definition ErrRunAlreadyCompleted : error :=
  errmsg "unattended: this run already recorded a completed terminal state" [].
Definition ErrNotReady : error :=
  errmsg "unattended: the preflight verdict does not permit an unattended run" [].

(** The highest sequence number of the file, as OpenJournal resumes from it. *)
Definition last_seq (records : list JournalRecord) : Z :=
  fold_left (fun seq r => if seq <? jr_Seq r then jr_Seq r else seq) records 0.

(** Resumed: this run has been here before. *)
Definition resumed (st : ResumeState) : bool :=
  (0 <? rs_LastSeq st) && (negb (bool_decide (rs_Succeeded st = ∅)) || negb (bool_decide (rs_Attempts st = ∅))).

(** The queue the run starts from. *)
Definition start_queue (plan : Plan) (bs : gmap string string) (st : ResumeState) : Queue :=
  let q := NewQueue plan bs in if resumed st then Restore st q else q.

(** The runner before the first record of this session. *)
Definition fresh (spec : Spec) (plan : Plan) (report : Report) (lock : Owner) (fence : Fence)
    (records : list JournalRecord) : Runner :=
  let st := Replay records (pl_RunID plan) in
  mkRunner spec plan (Some report) (Some lock) fence (pl_RunID plan) (last_seq records) records
    (start_queue plan (report_Boundaries report) st) (rs_Gates st) "" "" "" "" 0 0 [] [] 0.

(** An append whose error ends Begin. *)
Definition then_append (rec : JournalRecord) (k : Runner -> res Runner) (r : Runner) : res Runner :=
  match append w rec r with
  | (_, Some e) => Err (errmsg e [])
  | (r', None) => k r'
  end.

Definition Begin (spec : Spec) (plan : Plan) (g : Ground) : res Runner :=
  match spec_Validate spec with
  | Some e => Err e
  | None =>
  match plan_Validate plan with
  | Some e => Err e
  | None =>
  match ValidateClassificationRules (sp_Classification spec) with
  | Some e => Err e
  | None =>
  match ValidateQAPacket spec plan with
  | Some e => Err e
  | None =>
  match gr_journal g with
  | Err e => Err e
  | Ok (records, truncated) =>
      let resume := Replay records (pl_RunID plan) in
      if rs_Finished resume && String.eqb (rs_FinalOutcome resume) RunCompleted then
        Err (Errorf "%w: run %q recorded outcome %s" [pl_RunID plan; rs_FinalOutcome resume]
               [ErrRunAlreadyCompleted])
      else
        let report := Preflight (gr_symlinks g) spec (Some plan) (gr_facts g) in
        if negb (PermitsUnattendedRun (rt_Readiness report)) then
          Err (Errorf "%w: %s" [join_with ", " (ck_ID <$> Blocking report)] [ErrNotReady])
        else
          match gr_lock g with
          | Err e => Err e
          | Ok lock =>
              let fence := TakeFence (rt_Repo report) (gr_lock_dir g) lock in
              let r := fresh spec plan report lock fence records in
              then_append (entry RecordLockAcquired "" 0 "" ""
                ("role=" +:+ os_Role (sp_Ownership spec) +:+ " worktree=" +:+ rp_Root (rt_Repo report)
                 +:+ " pid=" +:+ Itoa (ow_PID lock)))
              (then_append (entry RecordFenceTaken "" 0 "" ""
                (fn_Branch fence +:+ "@" +:+ shortSHA (fn_Head fence)))
              (then_append (entry RecordPreflight "" 0 "" (readiness_string (rt_Readiness report))
                (Itoa (Z.of_nat (length (rt_Checks report))) +:+ " checks, "
                 +:+ Itoa (Z.of_nat (size (report_Boundaries report))) +:+ " boundaries"))
              (if truncated then
                 then_append (entry RecordPreflight "" 0 "" "resumed-after-interruption"
                   "the previous run died between writing and syncing its last record; that record was never durable and is not replayed")
                   (fun r => Ok r)
               else fun r => Ok r))) r
          end
  end end end end end.

End session.
