(* ===== verification/RunRunnerFacts.v ===== *)
(** Frame lemmas of the runner: what journaling, publishing, evidence and the fence leave
    alone, and what one attempt does to the queue. *)
From stdpp Require Import sorting.
From S2P Require Import Prelude GoStd RunFailure RunQA RunPlan RunJournal.
From S2P Require Import RunQueue RunController RunFence RunSpec RunPreflight RunRunner.
From S2P Require Import RunQueueProps.

(** * What the journal says, less the noise *)

(** The records a restart or an auditor goes by: a verified fence, and a task that was
    started, succeeded or was resumed; everything else is reporting. *)
Definition marking (k : RecordKind) : bool :=
  match k with
  | RecordFenceVerified | RecordTaskStarted | RecordTaskSucceeded | RecordTaskResumed => true
  | _ => false
  end.

Definition mark (runID : string) (rec : JournalRecord) : option (RecordKind * string) :=
  if String.eqb (jr_RunID rec) runID && marking (jr_Kind rec) then Some (jr_Kind rec, jr_TaskID rec) else None.

Definition marks (runID : string) (log : list JournalRecord) : list (RecordKind * string) :=
  omap (mark runID) log.

Lemma marks_app runID a b : marks runID (a ++ b) = marks runID a ++ marks runID b.
Proof. apply omap_app. Qed.

(** Every append is written and synced. *)
Definition durable (w : World) : Prop := forall n, w_append w n = Durable.

(** The marks a stretch of a run adds to those of the journal: all it has to say when every
    append is durable, and in any world a part of it in its order, since the runner goes on
    when an append fails. *)
Definition says (w : World) (old ms new : list (RecordKind * string)) : Prop :=
  exists ms', new = old ++ ms' /\ ms' `sublist_of` ms /\ (durable w -> ms' = ms).

Lemma says_nothing w ms : says w ms [] ms.
Proof. exists []. by rewrite app_nil_r. Qed.

Lemma says_trans w a m1 b m2 c : says w a m1 b -> says w b m2 c -> says w a (m1 ++ m2) c.
Proof.
  intros (x & -> & S1 & D1) (y & -> & S2 & D2). exists (x ++ y). split; [by rewrite app_assoc|].
  split; [by apply sublist_app|]. intros Hd. by rewrite D1, D2.
Qed.

(** The numbers of the journal increase, up to the last one given out. *)
Record seq_ok (r : Runner) : Prop := {
  so_sorted : StronglySorted Z.lt (jr_Seq <$> rn_log r);
  so_range : Forall (fun s => 0 < s <= rn_seq r) (jr_Seq <$> rn_log r);
  so_nonneg : 0 <= rn_seq r
}.

(** * What never changes in a run *)

Definition core (r : Runner) : Spec * Plan * option Report * option Owner * string :=
  (rn_Spec r, rn_Plan r, rn_Report r, rn_Lock r, rn_runID r).

(** What an operation of the runner other than a queue update leaves alone. *)
Record frame (w : World) (r r' : Runner) : Prop := {
  fr_core : core r' = core r;
  fr_queue : rn_Queue r' = rn_Queue r;
  fr_stop : rn_stopReason r' = rn_stopReason r;
  fr_outcome : rn_stopOutcome r' = rn_stopOutcome r;
  fr_prefix : rn_log r `prefix_of` rn_log r';
  fr_seq : seq_ok r -> seq_ok r';
  fr_marks : marks (rn_runID r) (rn_log r') = marks (rn_runID r) (rn_log r)
}.

Lemma core_runID r r' : core r' = core r -> rn_runID r' = rn_runID r.
Proof. unfold core. congruence. Qed.

#[export] Instance frame_preorder w : PreOrder (frame w).
Proof.
  split; [by intros r|]. intros r1 r2 r3 [C1 Q1 S1 O1 P1 N1 M1] [C2 Q2 S2 O2 P2 N2 M2].
  apply core_runID in C1 as I1. rewrite I1 in M2.
  split; [congruence..|by etrans|auto|congruence].
Qed.

(** A field that journals, numbers and marks do not see. *)
Lemma frame_same w r r' :
  core r' = core r -> rn_Queue r' = rn_Queue r -> rn_stopReason r' = rn_stopReason r ->
  rn_stopOutcome r' = rn_stopOutcome r -> rn_log r' = rn_log r -> rn_seq r' = rn_seq r -> frame w r r'.
Proof.
  intros Hc Hq Hs Ho Hl Hn. split; [done..|by rewrite Hl| |by rewrite Hl].
  intros [S1 S2 S3]. split; by rewrite ?Hl, ?Hn.
Qed.

Section facts.
Context `{GoTables} (w : World).

(** One more record keeps the numbers in order, whether or not it was written. *)
Lemma append_seq rec r : seq_ok r -> seq_ok (append w rec r).1.
Proof.
  intros [S1 S2 S3].
  assert (Hle : Forall (fun s => 0 < s <= rn_seq r + 1) (jr_Seq <$> rn_log r)).
  { eapply Forall_impl; [exact S2|]. simpl. lia. }
  assert (Hsnoc : seq_ok (logged (rn_seq r + 1) (rn_log r ++ [stamp r rec]) r)).
  { split; simpl; [| |lia].
    - rewrite fmap_app. apply StronglySorted_app_2; [|done|repeat constructor].
      rewrite Forall_forall in S2. intros x y Hx Hy. apply list_elem_of_singleton in Hy. subst.
      specialize (S2 x Hx). simpl. lia.
    - rewrite fmap_app, Forall_app. split; [done|]. constructor; [simpl; lia|constructor]. }
  unfold append. destruct (w_append w (rn_tick r)); simpl; [done|split; simpl; [done|done|lia]|done].
Qed.

Lemma append_prefix rec r : rn_log r `prefix_of` rn_log (append w rec r).1.
Proof. unfold append. destruct (w_append w (rn_tick r)); simpl; [by eexists|done|by eexists]. Qed.

(** A record literal of the runner is stamped with the run. *)
Lemma append_marks rec r :
  jr_RunID rec = "" ->
  says w (marks (rn_runID r) (rn_log r)) (if marking (jr_Kind rec) then [(jr_Kind rec, jr_TaskID rec)] else [])
    (marks (rn_runID r) (rn_log (append w rec r).1)).
Proof.
  intros He. set (ms := if marking _ then _ else _).
  assert (Hw : marks (rn_runID r) (rn_log r ++ [stamp r rec]) = marks (rn_runID r) (rn_log r) ++ ms).
  { rewrite marks_app. f_equal. unfold marks. simpl. unfold mark, stamp. simpl. rewrite He. simpl.
    rewrite String.eqb_refl. simpl. unfold ms. by destruct (marking _). }
  unfold append. destruct (w_append w (rn_tick r)) as [|e|e] eqn:E; simpl; [by exists ms| |by exists ms].
  exists []. rewrite app_nil_r. split; [done|]. split; [apply sublist_nil_l|]. intros Hd. by rewrite Hd in E.
Qed.

Lemma frame_ticked r : frame w r (ticked r).
Proof. by apply frame_same. Qed.

Lemma frame_append rec r : marking (jr_Kind rec) = false -> frame w r (append w rec r).1.
Proof.
  intros Hm. split; [by unfold append; destruct (w_append _ _)..|apply append_prefix|apply append_seq|].
  assert (Hw : marks (rn_runID r) (rn_log r ++ [stamp r rec]) = marks (rn_runID r) (rn_log r)).
  { rewrite marks_app. unfold marks at 2. simpl. unfold mark, stamp. simpl. rewrite Hm, andb_false_r. apply app_nil_r. }
  unfold append. by destruct (w_append w (rn_tick r)).
Qed.

Lemma frame_note rec r : marking (jr_Kind rec) = false -> frame w r (note w rec r).
Proof. apply frame_append. Qed.

Lemma frame_add_progress pg r : frame w r (add_progress pg r).
Proof. by apply frame_same. Qed.

(** Reporting a failed side effect, or not, is a frame. *)
Lemma frame_report (e : option string) rec r :
  (forall x, marking (jr_Kind (rec x)) = false) ->
  frame w r (match e with Some x => note w (rec x) (ticked r) | None => ticked r end).
Proof.
  intros Hr. destruct e as [x|]; [|apply frame_ticked]. etrans; [apply frame_ticked|by apply frame_note].
Qed.

Lemma frame_publish stage cur r : frame w r (publish w stage cur r).
Proof.
  unfold publish. etrans; [|by apply (frame_report _ (entry RecordPreflight "" 0 "" "delivery-projection-failed"))].
  etrans; [|by apply (frame_report _ (entry RecordPreflight "" 0 "" "progress-publication-failed"))].
  apply frame_add_progress.
Qed.

Lemma frame_evidence t res d r : frame w r (recordGateEvidence w t res d r).
Proof.
  unfold recordGateEvidence. destruct (String.eqb (tk_QAGate t) ""); [done|].
  destruct (String.eqb res ""); [done|]. etrans; [|by apply frame_note]. by apply frame_same.
Qed.

Lemma frame_advance t r : frame w r (recordAdvance w t r).
Proof.
  unfold recordAdvance. destruct (RecordAuthorisedAdvance _ _ _ _ _ _) as [[f res] err].
  destruct err; (etrans; [|by apply frame_note]); by apply frame_same.
Qed.

Lemma frame_capture id n r : frame w r (captureFailure w id n r).2.
Proof.
  unfold captureFailure. destruct (w_capture w _); [|apply frame_ticked].
  etrans; [apply frame_ticked|by apply frame_note].
Qed.

Lemma frame_milestone s r : frame w r (set_milestone s r).
Proof. by apply frame_same. Qed.
Lemma frame_count a b r : frame w r (count_drive a b r).
Proof. by apply frame_same. Qed.
Lemma frame_sleep d r : frame w r (sleep d r).
Proof. unfold sleep. destruct (d <=? 0); by apply frame_same. Qed.

End facts.

(** * One attempt *)

(** What became of an attempt. *)
Inductive turn : Type := Succeeds | Resumes | Falls.

(** The mark it leaves. *)
Definition turn_mark (id : string) (o : turn) : list (RecordKind * string) :=
  match o with
  | Succeeds => [(RecordTaskSucceeded, id)]
  | Resumes => [(RecordTaskResumed, id)]
  | Falls => []
  end.

(** Every queue an attempt of the task at p can leave, by what became of it; the flag is
    whether the run stops. *)
Inductive drive_queue (q : Queue) (p : nat) : bool -> turn -> Queue -> Prop :=
| dq_success a : at_Succeeded a = true -> drive_queue q p false Succeeds (RecordAttempt q p a).1
| dq_failure a stop : at_Succeeded a = false -> drive_queue q p stop Falls (RecordAttempt q p a).1
| dq_resume : (RecordResume q p).2.2 = true -> drive_queue q p false Resumes (RecordResume q p).1
| dq_unconverged reason :
    (RecordResume q p).2.2 = false ->
    drive_queue q p false Resumes (Hold (RecordResume q p).1 p reason)
| dq_held reason : drive_queue q p true Falls (Hold q p reason).

(** An attempt: the core stays, the queue moves by one record, a stop has a reason while
    going on leaves the stop fields alone, and the journal gains the marks [ms]. *)
Record attempt_frame (w : World) (p : nat) (r : Runner) (stop : bool) (o : turn)
    (ms : list (RecordKind * string)) (r' : Runner) : Prop := {
  af_core : core r' = core r;
  af_queue : drive_queue (rn_Queue r) p stop o (rn_Queue r');
  af_go : stop = false -> rn_stopReason r' = rn_stopReason r /\ rn_stopOutcome r' = rn_stopOutcome r;
  af_stop : stop = true -> rn_stopReason r' <> ""
            /\ (rn_stopOutcome r' = rn_stopOutcome r \/ rn_stopOutcome r' = RunAwaitingAuth
                \/ rn_stopOutcome r' = RunBlockedHuman);
  af_prefix : rn_log r `prefix_of` rn_log r';
  af_seq : seq_ok r -> seq_ok r';
  af_marks : says w (marks (rn_runID r) (rn_log r)) ms (marks (rn_runID r) (rn_log r'))
}.

Lemma nonempty_app_r a b : b <> "" -> a +:+ b <> "".
Proof. by destruct a. Qed.

Section drive.
Context `{GoTables} (w : World).

(** The journal across a marking record. *)
Record marked (r : Runner) (ms : list (RecordKind * string)) (r' : Runner) : Prop := {
  mk_core : core r' = core r;
  mk_queue : rn_Queue r' = rn_Queue r;
  mk_stop : rn_stopReason r' = rn_stopReason r /\ rn_stopOutcome r' = rn_stopOutcome r;
  mk_prefix : rn_log r `prefix_of` rn_log r';
  mk_seq : seq_ok r -> seq_ok r';
  mk_marks : says w (marks (rn_runID r) (rn_log r)) ms (marks (rn_runID r) (rn_log r'))
}.

Lemma frame_marked r r' : frame w r r' -> marked r [] r'.
Proof. intros [Hc Hq Hs Ho Hp Hn Hm]. split; [done|done|done|done|done|]. rewrite Hm. apply says_nothing. Qed.

Lemma note_marked k id n c o d r :
  marking k = true -> marked r [(k, id)] (note w (entry k id n c o d) r).
Proof.
  intros Hm. unfold note.
  split; [by unfold append; destruct (w_append _ _)..|apply append_prefix|apply append_seq|].
  assert (Ha := append_marks w (entry k id n c o d) r eq_refl). simpl in Ha. by rewrite Hm in Ha.
Qed.

Lemma marked_trans r1 r2 r3 m1 m2 : marked r1 m1 r2 -> marked r2 m2 r3 -> marked r1 (m1 ++ m2) r3.
Proof.
  intros [C1 Q1 [S1 O1] P1 N1 M1] [C2 Q2 [S2 O2] P2 N2 M2]. apply core_runID in C1 as I1. rewrite I1 in M2.
  split; [congruence..|split; congruence|by etrans|auto|]. by eapply says_trans.
Qed.

(** A marked stretch before an attempt, and a frame after it, are absorbed. *)
Lemma attempt_pre p r m r1 stop o ms r' :
  marked r m r1 -> attempt_frame w p r1 stop o ms r' -> attempt_frame w p r stop o (m ++ ms) r'.
Proof.
  intros [C1 Q1 [S1 O1] P1 N1 M1] [Dc Dq Dg Ds Dp Dn Dm]. apply core_runID in C1 as I1. rewrite I1 in Dm.
  split; [congruence|by rewrite <- Q1|by rewrite <- S1, <- O1|by rewrite <- O1|by etrans|auto|].
  by eapply says_trans.
Qed.

Lemma attempt_pre_frame p r r1 stop o ms r' :
  frame w r r1 -> attempt_frame w p r1 stop o ms r' -> attempt_frame w p r stop o ms r'.
Proof. intros Hf%frame_marked Ha. exact (attempt_pre _ _ [] _ _ _ _ _ Hf Ha). Qed.

Lemma attempt_post p r stop o ms r1 r' :
  attempt_frame w p r stop o ms r1 -> frame w r1 r' -> attempt_frame w p r stop o ms r'.
Proof.
  intros [Dc Dq Dg Ds Dp Dn Dm] [Hc Hq Hs Ho Hp Hn Hm]. apply core_runID in Dc as I1. rewrite I1 in Hm.
  split; [congruence|by rewrite Hq|by rewrite Hs, Ho|by rewrite Hs, Ho|by etrans|auto|].
  by rewrite Hm.
Qed.

(** The queue update itself, and then the reason for stopping. *)
Lemma attempt_queue p r o q :
  drive_queue (rn_Queue r) p false o q -> attempt_frame w p r false o [] (set_Queue q r).
Proof.
  intros Hq. split; [done|done|done|done|done| |apply says_nothing]. by intros [].
Qed.

Lemma attempt_stops p r r1 o q reason class out :
  drive_queue (rn_Queue r) p true o q -> frame w (set_Queue q r) r1 -> reason <> "" ->
  default "" out = "" /\ out = None \/ out = Some RunAwaitingAuth \/ out = Some RunBlockedHuman ->
  attempt_frame w p r true o [] (set_stop reason class out r1).
Proof.
  intros Hq [Hc Hq1 Hs Ho Hp Hn Hm] Hr Hout. split; simpl; [exact Hc|by rewrite Hq1|done| |exact Hp| |].
  - intros _. split; [done|]. destruct Hout as [[_ ->]|[->| ->]]; simpl; auto.
  - intros H1. assert (H2 : seq_ok r1) by (apply Hn; by destruct H1). by destruct H2.
  - simpl in Hm. rewrite Hm. apply says_nothing.
Qed.

Lemma succeed_frame p t v n r :
  attempt_frame w p r false Succeeds (turn_mark (tk_ID (qt_Task t)) Succeeds) (succeed w p t v n r).
Proof.
  unfold succeed. set (r1 := note w _ r).
  assert (H1 : marked r (turn_mark (tk_ID (qt_Task t)) Succeeds) r1) by (by apply note_marked).
  clearbody r1. rewrite <- (app_nil_r (turn_mark _ _)). eapply attempt_pre; [exact H1|].
  eapply attempt_post; [by apply attempt_queue, (dq_success _ _ (mkAttempt 0 true "" "" ""))|].
  etrans; [|apply frame_publish]. etrans; [|destruct (tk_Mutates _); [apply frame_advance|done]].
  etrans; [|apply frame_evidence]. apply frame_milestone.
Qed.

Lemma driveAgain_frame p t v r :
  attempt_frame w p r false Resumes (turn_mark (tk_ID (qt_Task t)) Resumes) (driveAgain w p t v r).
Proof.
  unfold driveAgain. destruct (RecordResume (rn_Queue r) p) as [q [[used b] may]] eqn:E.
  assert (Hq : (RecordResume (rn_Queue r) p).1 = q) by (by rewrite E).
  assert (Hm : (RecordResume (rn_Queue r) p).2.2 = may) by (by rewrite E).
  set (r0 := note w _ (count_drive 0 1 (set_Queue q r))).
  assert (H0 : marked (set_Queue q r) (turn_mark (tk_ID (qt_Task t)) Resumes) r0).
  { apply (marked_trans _ (count_drive 0 1 (set_Queue q r)) _ []); [apply frame_marked, frame_count|].
    by apply note_marked. }
  clearbody r0. destruct H0 as [Hc Hq0 [Hs Ho] Hp Hn Hmk].
  assert (Hgo : forall q', drive_queue (rn_Queue r) p false Resumes q' ->
    attempt_frame w p r false Resumes (turn_mark (tk_ID (qt_Task t)) Resumes) (set_Queue q' r0)).
  { intros q' Hd. split; simpl; [exact Hc|done|intros _; exact (conj Hs Ho)|done|exact Hp| |exact Hmk].
    intros H1. assert (H2 : seq_ok r0) by (apply Hn; by destruct H1). by destruct H2. }
  destruct may; cbn [negb].
  - eapply attempt_post; [|etrans; [apply frame_milestone|apply frame_publish]].
    replace r0 with (set_Queue q r0) by (destruct r0; simpl in *; by subst).
    apply Hgo. rewrite <- Hq. by apply dq_resume.
  - eapply attempt_post; [|etrans; [|apply frame_publish]; etrans; [|apply frame_evidence]; by apply frame_note].
    rewrite Hq0. apply Hgo. simpl. rewrite <- Hq. by apply dq_unconverged.
Qed.

Lemma boundary_frame p t v n r :
  attempt_frame w p r true Falls [] (stopOnHumanBoundary w p t v n r).
Proof.
  unfold stopOnHumanBoundary. assert (Hc := frame_capture w (tk_ID (qt_Task t)) n r).
  destruct (captureFailure w _ n r) as [path r1]. simpl in Hc. eapply attempt_pre_frame; [exact Hc|].
  eapply attempt_post; [|apply frame_publish].
  eapply attempt_stops; [apply dq_held|etrans; [|apply frame_evidence]; by apply frame_note|by apply nonempty_app_r|].
  destruct (String.eqb _ _); auto.
Qed.

Lemma failed_frame p t v n txt r :
  attempt_frame w p r (failed w p t v n txt r).1 Falls [] (failed w p t v n txt r).2.
Proof.
  unfold failed. assert (Hc := frame_capture w (tk_ID (qt_Task t)) n r).
  destruct (captureFailure w _ n r) as [path r1]. simpl in Hc.
  destruct (RecordAttempt (rn_Queue r1) p _) as [q retry] eqn:E.
  assert (Hq : forall stop, drive_queue (rn_Queue r1) p stop Falls q).
  { intros stop. match type of E with RecordAttempt _ _ ?a = _ =>
      replace q with (RecordAttempt (rn_Queue r1) p a).1 by (by rewrite E) end. by apply dq_failure. }
  set (r2 := if bool_decide _ then _ else _). assert (H2 : frame w (set_Queue q r1) r2).
  { unfold r2. case_bool_decide; [etrans; [|apply frame_evidence]; by apply frame_note|by apply frame_note]. }
  clearbody r2. eapply attempt_pre_frame; [exact Hc|].
  destruct (StopsRun (PolicyFor (cv_Class v))); simpl.
  - eapply attempt_post; [|apply frame_publish].
    eapply attempt_stops; [apply Hq|exact H2|by apply nonempty_app_r|by left].
  - destruct retry; simpl; (eapply attempt_post; [apply attempt_queue, Hq|]); (etrans; [exact H2|]).
    + etrans; [|apply frame_sleep]. etrans; [|apply frame_publish]. by apply frame_note.
    + apply frame_publish.
Qed.

(** One attempt of a task, from its start record. *)
Lemma drive_ok p t r :
  exists o, attempt_frame w p r (drive w p t r).1 o
    ((RecordTaskStarted, tk_ID (qt_Task t)) :: turn_mark (tk_ID (qt_Task t)) o) (drive w p t r).2.
Proof.
  unfold drive. set (r1 := note w _ r). set (v := InterpretExecution _ _).
  assert (H1 : marked r [(RecordTaskStarted, tk_ID (qt_Task t))] r1) by (by apply note_marked).
  set (r2 := if Resumable _ then _ else _). assert (H2 : frame w r1 r2).
  { unfold r2. destruct (Resumable _); [|etrans; [|apply frame_count]]; apply frame_ticked. }
  clearbody r2 v r1. setoid_rewrite (cons_middle _ [] _ : _ :: _ = [_] ++ _).
  exists (match cv_Disposition v with
          | DispositionSucceeded => Succeeds
          | DispositionContinue | DispositionResume => Resumes
          | _ => Falls
          end).
  eapply attempt_pre; [exact H1|]. eapply attempt_pre_frame; [exact H2|].
  destruct (cv_Disposition v);
    [apply succeed_frame|apply driveAgain_frame|apply driveAgain_frame|apply failed_frame
    |apply boundary_frame|apply failed_frame].
Qed.

(** The marks of one turn of the loop: nothing when the fence stopped it, otherwise the
    verified fence of a mutating task, the start, and what became of it. *)
Inductive turn_marks (t : Task) : turn -> list (RecordKind * string) -> Prop :=
| tm_refused : tk_Mutates t = true -> turn_marks t Falls []
| tm_driven o :
    turn_marks t o ((if tk_Mutates t then [(RecordFenceVerified, tk_ID t)] else [])
                    ++ (RecordTaskStarted, tk_ID t) :: turn_mark (tk_ID t) o).

Lemma runOne_ok p t r :
  exists o ms, turn_marks (qt_Task t) o ms
               /\ attempt_frame w p r (runOne w p t r).1 o ms (runOne w p t r).2.
Proof.
  unfold runOne. assert (Hpub := frame_publish w "running" (Some p) r).
  set (r1 := publish w _ _ r) in *. clearbody r1.
  assert (Hd := tm_driven (qt_Task t)). destruct (tk_Mutates (qt_Task t)) eqn:Em.
  - unfold guard_mutation. destruct (Intact _) eqn:Ei; cbn [negb].
    + match goal with |- context [drive w p t ?X] => destruct (drive_ok p t X) as [o Ho];
        assert (HX : marked r1 [(RecordFenceVerified, tk_ID (qt_Task t))] X) end.
      { apply (marked_trans _ (ticked r1) _ []); [apply frame_marked, frame_ticked|by apply note_marked]. }
      exists o. eexists. split; [apply Hd|]. eapply attempt_pre_frame; [exact Hpub|].
      eapply attempt_pre; [exact HX|exact Ho].
    + exists Falls, []. split; [by apply tm_refused|]. eapply attempt_pre_frame; [exact Hpub|]. cbn [fst snd].
      match goal with |- attempt_frame _ _ _ _ _ _ (set_stop _ _ _ (set_Queue _ ?X)) =>
        assert (HX : frame w r1 X) by (etrans; [apply frame_ticked|by apply frame_note]); set (r2 := X) in * end.
      clearbody r2. eapply attempt_pre_frame; [exact HX|].
      eapply attempt_stops; [apply dq_held|done| |by left]. unfold violation. by rewrite Ei.
  - destruct (drive_ok p t r1) as [o Ho]. exists o. eexists. split; [apply Hd|].
    by eapply attempt_pre_frame.
Qed.

End drive.
