(* ===== verification/RunDrain.v ===== *)
(** The run ends: a measure of the drives a queue still allows, which every attempt that
    does not stop the run decreases, and the invariant of the loop. *)
From S2P Require Import Prelude GoStd RunFailure RunQA RunPlan RunJournal.
From S2P Require Import RunQueue RunController RunFence RunSpec RunPreflight RunRunner.
From S2P Require Import RunQueueProps RunRunnerFacts.

(** * The drives left *)

(** The most attempts any failure class allows a task. *)
Definition attempt_bound (t : Task) : Z := if 0 <? tk_MaxAttempts t then tk_MaxAttempts t else 5.
Definition resume_bound (t : Task) : Z := if 0 <? tk_MaxResumes t then tk_MaxResumes t else DefaultMaxResumes.

(** The most times a run drives a task. *)
Definition task_drives (t : Task) : nat := S (Z.to_nat (attempt_bound t) + Z.to_nat (resume_bound t)).

Definition plan_drives (plan : Plan) : nat := sum_list (task_drives <$> pl_Tasks plan).

(** The drives a task has left. *)
Definition slack (t : QueuedTask) : nat :=
  match qt_State t with
  | TaskPending => S (Z.to_nat (attempt_bound (qt_Task t) - AttemptCount t)
                      + Z.to_nat (resume_bound (qt_Task t) - qt_Resumes t))
  | _ => 0
  end.

Definition queue_slack (q : Queue) : nat := sum_list (slack <$> q_tasks q).

Lemma sum_list_alter f (ts : list QueuedTask) p t :
  ts !! p = Some t ->
  (sum_list (slack <$> alter f p ts) + slack t = sum_list (slack <$> ts) + slack (f t))%nat.
Proof.
  revert p. induction ts as [|u ts IH]; intros [|p] Hp; simplify_eq/=; [lia|].
  specialize (IH p Hp). unfold alter, sum_list in *. simpl in *. lia.
Qed.

Lemma update_slack q p f t :
  task_at q p = Some t -> (queue_slack (update q p f) + slack t = queue_slack q + slack (f t))%nat.
Proof. apply sum_list_alter. Qed.

(** Holding a task only takes drives away. *)
Lemma hstep_slack q q' : hstep q q' -> (queue_slack q' <= queue_slack q)%nat.
Proof.
  intros (p & t & r & Hp & _ & _ & ->). assert (H := update_slack q p (held r) t Hp).
  change (slack (held r t)) with 0%nat in H. lia.
Qed.

Lemma propagateHolds_slack q : (queue_slack (propagateHolds q) <= queue_slack q)%nat.
Proof.
  assert (H := propagateHolds_steps q). revert H. generalize (propagateHolds q). intros q'.
  induction 1 as [|q1 q2 q3 H1 _ IH]; [done|]. apply hstep_slack in H1. lia.
Qed.

Lemma Hold_slack q p t r : task_at q p = Some t -> (queue_slack (Hold q p r) + slack t <= queue_slack q)%nat.
Proof.
  intros Hp. unfold Hold. assert (H1 := propagateHolds_slack (update q p (held r))).
  assert (H2 := update_slack q p (held r) t Hp). change (slack (held r t)) with 0%nat in H2. lia.
Qed.

Lemma slack_pending t : qt_State t = TaskPending -> (0 < slack t)%nat.
Proof. unfold slack. intros ->. lia. Qed.

Lemma budget_bound t c : 0 <= budget t c <= attempt_bound (qt_Task t).
Proof.
  unfold budget, attempt_bound. assert (H := MaxAttempts_range c). destruct (Z.ltb_spec 0 (tk_MaxAttempts (qt_Task t))); lia.
Qed.

Lemma task_at_same_update q p f t : task_at q p = Some t -> task_at (update q p f) p = Some (f t).
Proof. intros Hp. by rewrite task_at_update, decide_True, Hp. Qed.

(** A recorded attempt uses up a drive: the task is done, failed, or has one fewer left. *)
Lemma RecordAttempt_slack q p t a :
  task_at q p = Some t -> qt_State t = TaskPending ->
  (queue_slack (RecordAttempt q p a).1 < queue_slack q)%nat.
Proof.
  intros Hp Hs. unfold RecordAttempt. assert (Hp1 := task_at_same_update q p (add_attempt a) t Hp). rewrite Hp1.
  assert (H1 := update_slack q p (add_attempt a) t Hp). assert (Hpos := slack_pending t Hs).
  set (q1 := update q p (add_attempt a)) in *.
  assert (H2 : forall s, s <> TaskPending ->
    (queue_slack (propagateHolds (update q1 p (with_state s))) < queue_slack q)%nat).
  { intros s Hne. assert (Ha := propagateHolds_slack (update q1 p (with_state s))).
    assert (Hb := update_slack q1 p (with_state s) _ Hp1).
    assert (Hz : slack (with_state s (add_attempt a t)) = 0%nat) by (by destruct s). lia. }
  destruct (at_Succeeded a); [by apply H2|].
  destruct (Z.leb_spec (budget (add_attempt a t) (at_Class a)) (AttemptCount (add_attempt a t))) as [Hl|Hl]; [by apply H2|].
  cbn [fst]. assert (Hb := update_slack q1 p (with_state TaskPending) _ Hp1).
  assert (Hbound := budget_bound (add_attempt a t) (at_Class a)).
  assert (Hc : AttemptCount (add_attempt a t) = AttemptCount t + 1).
  { unfold AttemptCount. simpl. rewrite length_app. simpl. lia. }
  assert (Hlt : (slack (with_state TaskPending (add_attempt a t)) < slack t)%nat).
  { unfold slack. rewrite Hs. change (qt_State (with_state TaskPending (add_attempt a t))) with TaskPending.
    change (AttemptCount (with_state TaskPending (add_attempt a t))) with (AttemptCount (add_attempt a t)).
    cbn [with_state add_attempt qt_Task qt_Resumes] in *. lia. }
  lia.
Qed.

(** A resume uses up one too, when it is allowed; it never adds one. *)
Lemma RecordResume_slack q p t :
  task_at q p = Some t -> qt_State t = TaskPending ->
  let q' := (RecordResume q p).1 in
  task_at q' p = Some (add_resume t)
  /\ (queue_slack q' <= queue_slack q)%nat
  /\ ((RecordResume q p).2.2 = true -> (queue_slack q' < queue_slack q)%nat).
Proof.
  intros Hp Hs. unfold RecordResume. assert (Hp1 := task_at_same_update q p add_resume t Hp). rewrite Hp1.
  simpl. assert (H1 := update_slack q p add_resume t Hp). split; [done|]. unfold slack in H1.
  rewrite Hs in H1. change (AttemptCount (add_resume t)) with (AttemptCount t) in H1.
  cbn [add_resume qt_State qt_Task qt_Resumes] in H1. split; [lia|]. intros Hl%Z.leb_le.
  unfold resumeBudget, resume_bound in *. cbn [add_resume qt_Task] in Hl. destruct (0 <? tk_MaxResumes (qt_Task t)); lia.
Qed.

Lemma drive_queue_slack q p t stop o q' :
  task_at q p = Some t -> qt_State t = TaskPending -> drive_queue q p stop o q' ->
  (queue_slack q' < queue_slack q)%nat.
Proof.
  intros Hp Hs Hd. assert (Hpos := slack_pending t Hs).
  destruct (RecordResume_slack q p t Hp Hs) as (Hp1 & Hle & Hlt).
  destruct Hd as [a _|a stop _|Hm|reason Hm|reason];
    [by eapply RecordAttempt_slack|by eapply RecordAttempt_slack|by apply Hlt| |].
  - assert (Hh := Hold_slack _ p _ reason Hp1). assert (Hpos' := slack_pending (add_resume t) eq_refl). lia.
  - assert (Hh := Hold_slack q p t reason Hp). lia.
Qed.

(** * Shape and stability through an attempt *)

Lemma drive_queue_shape q p stop o q' : drive_queue q p stop o q' -> same_shape q q'.
Proof.
  destruct 1; [apply RecordAttempt_shape|apply RecordAttempt_shape|apply RecordResume_shape| |apply Hold_shape].
  etrans; [apply RecordResume_shape|apply Hold_shape].
Qed.

Lemma drive_queue_stable q p t stop o q' :
  stable q -> task_at q p = Some t -> qt_State t = TaskPending -> drive_queue q p stop o q' -> stable q'.
Proof.
  intros Hst Hp Hs [a _|a stop' _|_|reason _|reason];
    [by eapply RecordAttempt_stable|by eapply RecordAttempt_stable|by eapply RecordResume_stable
    |apply propagateHolds_stable|apply propagateHolds_stable].
Qed.

(** * The loop *)

(** A runner between two attempts: a validated plan, its queue in shape and stable, and
    nothing that stops the run. *)
Record live (r : Runner) : Prop := {
  lv_plan : plan_ok (rn_Plan r);
  lv_follows : follows (rn_Plan r) (rn_Queue r);
  lv_stable : stable (rn_Queue r);
  lv_reason : rn_stopReason r = "";
  lv_outcome : rn_stopOutcome r = ""
}.

(** A runner the loop has left: stopped for a reason, or with nothing to select. *)
Record drained (r : Runner) : Prop := {
  dr_plan : plan_ok (rn_Plan r);
  dr_follows : follows (rn_Plan r) (rn_Queue r);
  dr_end : rn_stopReason r <> "" \/ stable (rn_Queue r) /\ Next (rn_Queue r) = None;
  dr_outcome : rn_stopOutcome r = "" \/ rn_stopOutcome r = RunAwaitingAuth
               \/ rn_stopOutcome r = RunBlockedHuman
}.

Lemma core_plan r r' : core r' = core r -> rn_Plan r' = rn_Plan r.
Proof. unfold core. congruence. Qed.

Lemma frame_live w r r' : frame w r r' -> live r -> live r'.
Proof.
  intros [Hc%core_plan Hq Hs Ho _ _ _] [L1 L2 L3 L4 L5]. split; [by rewrite Hc|by rewrite Hc, Hq|by rewrite Hq|congruence..].
Qed.

Section loop.
Context `{GoTables} (w : World).

Lemma Next_pending q p t : Next q = Some (p, t) -> task_at q p = Some t /\ qt_State t = TaskPending.
Proof.
  intros Hn. assert (He := Next_best q). rewrite Hn in He. destruct He as (Hp & He & _). split; [done|].
  unfold eligible in He. apply andb_prop in He as [He _]. by apply bool_decide_eq_true in He.
Qed.

(** One turn: the run goes on with fewer drives left, or is over. *)
Lemma turn_ok p t r :
  live r -> Next (rn_Queue r) = Some (p, t) ->
  let '(stop, r') := runOne w p t r in
  core r' = core r
  /\ (queue_slack (rn_Queue r') < queue_slack (rn_Queue r))%nat
  /\ (if stop then drained r' else live r').
Proof.
  intros [L1 L2 L3 L4 L5] [Hp Hs]%Next_pending. destruct (runOne_ok w p t r) as (o & ms & _ & Hd).
  destruct (runOne w p t r) as [stop r']. cbn [fst snd] in Hd. destruct Hd as [Dc Dq Dg Ds _ _ _].
  assert (Hpl := core_plan _ _ Dc). split; [done|]. split; [by eapply drive_queue_slack|].
  assert (Hf : follows (rn_Plan r') (rn_Queue r')).
  { rewrite Hpl. eapply follows_shape; [by eapply drive_queue_shape|done]. }
  destruct stop.
  - destruct (Ds eq_refl) as [Hr Ho]. split; [by rewrite Hpl|done|by left|rewrite L5 in Ho; tauto].
  - destruct (Dg eq_refl) as [Hr Ho]. split; [by rewrite Hpl|done|by eapply drive_queue_stable|congruence..].
Qed.

(** The loop returns with one turn more than the drives left, however the world answers. *)
Lemma run_loop_ok fuel r :
  live r -> (queue_slack (rn_Queue r) < fuel)%nat ->
  exists r', run_loop w fuel r = Some r' /\ core r' = core r /\ drained r'.
Proof.
  revert r. induction fuel as [|f IH]; intros r Hl Hf; [lia|]. simpl.
  destruct (w_ctx w (rn_tick r)) as [e|].
  { eexists. split; [done|]. split; [done|]. destruct Hl as [L1 L2 L3 L4 L5].
    split; simpl; [done|done|by left|by left]. }
  assert (Ht : live (ticked r)) by (by apply (frame_live w _ _ (frame_ticked w r))).
  destruct (Next (rn_Queue r)) as [[p t]|] eqn:En.
  - assert (Hturn := turn_ok p t (ticked r) Ht En). destruct (runOne w p t (ticked r)) as [[] r'].
    + destruct Hturn as (Hc & _ & Hd). exists r'. split; [done|]. split; [exact Hc|exact Hd].
    + destruct Hturn as (Hc & Hlt & Hd). destruct (IH r' Hd) as (r2 & H1 & H2 & H3).
      { change (rn_Queue (ticked r)) with (rn_Queue r) in Hlt. lia. }
      exists r2. split; [done|]. split; [by rewrite H2, Hc|done].
  - exists (ticked r). split; [done|]. split; [done|]. destruct Ht as [L1 L2 L3 L4 L5]. split; auto.
Qed.

(** More fuel changes nothing. *)
Lemma run_loop_more fuel k r r' : run_loop w fuel r = Some r' -> run_loop w (k + fuel) r = Some r'.
Proof.
  revert r. induction fuel as [|f IH]; intros r; [done|]. rewrite Nat.add_succ_r. simpl.
  destruct (w_ctx w (rn_tick r)); [done|]. destruct (Next (rn_Queue r)) as [[p t]|]; [|done].
  destruct (runOne w p t (ticked r)) as [[] r1]; [done|]. apply IH.
Qed.

(** * The parts of a run *)

(** A stretch that also leaves the fence and the evidence. *)
Definition quiet (r r' : Runner) : Prop :=
  frame w r r' /\ rn_Fence r' = rn_Fence r /\ rn_Evidence r' = rn_Evidence r.

Lemma quiet_trans r1 r2 r3 : quiet r1 r2 -> quiet r2 r3 -> quiet r1 r3.
Proof. intros (? & ? & ?) (? & ? & ?). split; [by etrans|split; congruence]. Qed.

Lemma quiet_append rec r : marking (jr_Kind rec) = false -> quiet r (append w rec r).1.
Proof. intros Hm. split; [by apply frame_append|]. unfold append. by destruct (w_append w _). Qed.

Lemma quiet_ticked r : quiet r (ticked r).
Proof. split; [apply frame_ticked|done]. Qed.

Lemma quiet_publish stage cur r : quiet r (publish w stage cur r).
Proof.
  split; [apply frame_publish|]. unfold publish, note, append.
  destruct (w_progress w _), (w_delivery w _); repeat destruct (w_append w _); done.
Qed.

(** A run that returned: it could not record its start, or the loop ran and its end was
    reported. *)
Lemma Run_cases fuel r ev err r' :
  Run w fuel r = Some (ev, err, r') ->
  ev = None /\ quiet r r'
  \/ exists r1 r2, quiet r r1 /\ run_loop w fuel r1 = Some r2 /\ quiet r2 r' /\ ev = Some (finish r2).
Proof.
  unfold Run. assert (H1 := quiet_append (started r) r eq_refl).
  destruct (append w (started r) r) as [r1 [e|]]; simpl in H1; [intros [= <- _ <-]; by left|].
  destruct (run_loop w fuel _) as [r2|] eqn:E; [|done]. intros Hr. right. exists (publish w "starting" None r1), r2.
  split; [eapply quiet_trans; [exact H1|apply quiet_publish]|]. split; [done|].
  match type of Hr with context [append w ?rec r2] => assert (H2 := quiet_append rec r2 eq_refl);
    destruct (append w rec r2) as [r3 [e|]]; simpl in H2 end; [by injection Hr as <- _ <-|].
  destruct (w_completion w (rn_tick r3)); injection Hr as <- _ <-; (split; [|done]); (eapply quiet_trans; [exact H2|]).
  - apply quiet_ticked.
  - eapply quiet_trans; [apply quiet_ticked|apply quiet_publish].
Qed.

Lemma run_loop_core fuel r r' : run_loop w fuel r = Some r' -> core r' = core r.
Proof.
  revert r. induction fuel as [|f IH]; intros r; [done|]. simpl.
  destruct (w_ctx w (rn_tick r)); [by intros [= <-]|].
  destruct (Next (rn_Queue r)) as [[p t]|]; [|by intros [= <-]].
  destruct (runOne_ok w p t (ticked r)) as (o & ms & _ & Ha).
  assert (Hc := af_core _ _ _ _ _ _ _ Ha). destruct (runOne w p t (ticked r)) as [[] r1]; simpl in Hc.
  - by intros [= <-].
  - intros Hl. apply IH in Hl. by rewrite Hl.
Qed.

Lemma Run_core fuel r ev err r' : Run w fuel r = Some (ev, err, r') -> core r' = core r.
Proof.
  intros [[_ [[] _]]|(r1 & r2 & [[] _] & Hl%run_loop_core & [[] _] & _)]%Run_cases; congruence.
Qed.

End loop.
