(* ===== verification/RunHistory.v ===== *)
(** What the journal of a run may say, as an abstract protocol on its marks, what replay
    reads out of it, and that every journal a run can leave, over any number of sessions
    that end anywhere, follows the protocol: the invariant of the loop that ties the queue
    to the journal, that a restart re-establishes it, and the histories of a run. *)
From stdpp Require Import sorting.
From S2P Require Import Prelude GoStd RunFailure RunQA RunPlan RunJournal RunQueue.
From S2P Require Import RunQueueProps RunController RunFence RunSpec RunPreflight RunRunner RunRunnerFacts.
From S2P Require Import RunDrain.

(** * The protocol *)

Definition count_mark (m : RecordKind * string) (ms : list (RecordKind * string)) : Z :=
  Z.of_nat (length (filter (fun x => x = m) ms)).

Definition mutating (plan : Plan) (id : string) : Prop :=
  exists t, t ∈ pl_Tasks plan /\ tk_ID t = id /\ tk_Mutates t = true.

(** The mark m may follow the marks ms: a task starts only if it has not succeeded; and when
    no append was lost a mutating one only under a fence just verified for it, it succeeds
    or is resumed only as the answer to a start, and is resumed while its resumes are
    within its budget. *)
Definition may_follow (lossless : bool) (plan : Plan) (ms : list (RecordKind * string)) (m : RecordKind * string) : Prop :=
  match m.1 with
  | RecordTaskStarted =>
      ((RecordTaskSucceeded, m.2) ∉ ms)
      /\ (lossless = true -> mutating plan m.2 -> last ms = Some (RecordFenceVerified, m.2))
  | RecordTaskSucceeded => lossless = true -> last ms = Some (RecordTaskStarted, m.2)
  | RecordTaskResumed =>
      lossless = true ->
      last ms = Some (RecordTaskStarted, m.2)
      /\ forall t, t ∈ pl_Tasks plan -> tk_ID t = m.2 -> count_mark m ms <= resume_bound t
  | _ => True
  end.

Inductive protocol (lossless : bool) (plan : Plan) : list (RecordKind * string) -> Prop :=
| protocol_nil : protocol lossless plan []
| protocol_snoc ms m :
    protocol lossless plan ms -> may_follow lossless plan ms m -> protocol lossless plan (ms ++ [m]).

Lemma count_mark_app m a b : count_mark m (a ++ b) = count_mark m a + count_mark m b.
Proof. unfold count_mark. rewrite filter_app, length_app. lia. Qed.

Lemma count_mark_pos m ms : 0 <= count_mark m ms.
Proof. unfold count_mark. lia. Qed.

Lemma count_mark_one m x : count_mark m [x] = if decide (x = m) then 1 else 0.
Proof. unfold count_mark. rewrite filter_cons. by case_decide. Qed.

Lemma count_mark_none m ms : m ∉ ms -> count_mark m ms = 0.
Proof.
  induction ms as [|x ms IH]; [done|]. intros [Hx Hn]%not_elem_of_cons.
  change (x :: ms) with ([x] ++ ms). rewrite count_mark_app, count_mark_one, decide_False, IH by done. done.
Qed.

(** What was said before a crash still follows the protocol. *)
Lemma protocol_prefix b plan a ms : a `prefix_of` ms -> protocol b plan ms -> protocol b plan a.
Proof.
  intros Hp Hm. revert a Hp. induction Hm as [|ms m Hm IH Hf]; intros a Hp.
  - apply prefix_nil_inv in Hp as ->. constructor.
  - destruct Hp as [k Hk]. destruct k as [|x k _] using rev_ind.
    + rewrite app_nil_r in Hk. subst. by constructor.
    + rewrite app_assoc in Hk. apply app_inj_2 in Hk as [-> _]; [|done]. apply IH. by exists k.
Qed.

(** Losing marks keeps the part of the protocol that does not rely on them. *)
Lemma protocol_lossy plan a ms : a `sublist_of` ms -> protocol false plan ms -> protocol false plan a.
Proof.
  intros Hs Hm. revert a Hs. induction Hm as [|ms m Hm IH Hf]; intros a Hs.
  - apply sublist_nil_r in Hs as ->. constructor.
  - apply sublist_app_r in Hs as (k1 & k2 & -> & H1 & H2). specialize (IH k1 H1).
    apply sublist_cons_r in H2 as [H2|(k & -> & H2)]; apply sublist_nil_r in H2 as ->; [by rewrite app_nil_r|].
    constructor; [done|]. destruct m as [[] id]; try done. destruct Hf as [Hf _]. split; [|done].
    intros Hin. apply Hf. by eapply elem_of_sublist.
Qed.

(** No task is resumed more than one time past its budget. *)
Lemma protocol_resumes plan ms t :
  protocol true plan ms -> t ∈ pl_Tasks plan ->
  count_mark (RecordTaskResumed, tk_ID t) ms <= resume_bound t + 1.
Proof.
  intros Hm Ht. assert (Hb : 0 <= resume_bound t).
  { unfold resume_bound, DefaultMaxResumes. destruct (Z.ltb_spec 0 (tk_MaxResumes t)); lia. }
  induction Hm as [|ms m Hm IH Hf]; [unfold count_mark; simpl; lia|].
  rewrite count_mark_app, count_mark_one. case_decide as E; [|lia]. subst m.
  destruct (Hf eq_refl) as [_ Hf']. specialize (Hf' t Ht eq_refl). simpl in Hf'. lia.
Qed.

(** A resume answers an earlier start. *)
Lemma protocol_started plan ms id :
  protocol true plan ms -> (RecordTaskResumed, id) ∈ ms -> (RecordTaskStarted, id) ∈ ms.
Proof.
  intros Hm. induction Hm as [|ms m Hm IH Hf]; [by intros ?%elem_of_nil|].
  intros Hin. apply elem_of_app. apply elem_of_app in Hin as [Hin|Hin%list_elem_of_singleton]; [left; auto|].
  subst m. left. destruct (Hf eq_refl) as [Hl _]. apply last_Some in Hl as [l ->]. apply elem_of_app; right; left.
Qed.

(** Nothing starts after it succeeded, and a mutation starts under a verified fence. *)
Lemma protocol_start_at b plan ms j id :
  protocol b plan ms -> ms !! j = Some (RecordTaskStarted, id) ->
  (forall i, (i < j)%nat -> ms !! i <> Some (RecordTaskSucceeded, id))
  /\ (b = true -> mutating plan id -> exists i, j = S i /\ ms !! i = Some (RecordFenceVerified, id)).
Proof.
  intros Hm. induction Hm as [|ms m Hm IH Hf]; [by rewrite lookup_nil|].
  intros Hj. apply lookup_app_Some in Hj as [Hj|[Hle Hj]].
  - destruct (IH Hj) as [H1 H2]. apply lookup_lt_Some in Hj as Hlt. split.
    + intros i Hi. rewrite lookup_app_l by lia. by apply H1.
    + intros Hb Hmut. destruct (H2 Hb Hmut) as (i & -> & Hi). exists i. split; [done|]. by apply lookup_app_l_Some.
  - assert (j = length ms) as ->. { apply lookup_lt_Some in Hj. simpl in Hj. lia. }
    rewrite Nat.sub_diag in Hj. injection Hj as ->. destruct Hf as [H1 H2]. simpl in H1, H2. split.
    + intros i Hi E. apply H1. rewrite lookup_app_l in E by done. apply list_elem_of_lookup. eauto.
    + intros Hb Hmut. apply last_Some in H2 as [l ->]; [|done|done]. exists (length l). rewrite length_app. simpl.
      split; [lia|]. rewrite <- app_assoc, lookup_app_r by lia. by rewrite Nat.sub_diag.
Qed.

(** * What replay reads out of a journal *)

Lemma Replay_snoc log rec runID : Replay (log ++ [rec]) runID = replay_step runID (Replay log runID) rec.
Proof. unfold Replay. by rewrite fold_left_app. Qed.

Lemma marks_snoc runID log rec :
  marks runID (log ++ [rec])
  = marks runID log ++ (if String.eqb (jr_RunID rec) runID && marking (jr_Kind rec)
                        then [(jr_Kind rec, jr_TaskID rec)] else []).
Proof. rewrite marks_app. f_equal. unfold marks. simpl. unfold mark. by destruct (_ && _). Qed.

(** What a record of this run does to a field of the state, whatever its number. *)
Lemma replay_step_seq runID st rec {A} (f : ResumeState -> A) :
  (forall n s, f (with_LastSeq n s) = f s) ->
  (forall n, f (replay_kind (with_LastSeq n st) rec) = f (replay_kind st rec)) ->
  f (replay_step runID st rec) = if String.eqb (jr_RunID rec) runID then f (replay_kind st rec) else f st.
Proof.
  intros Hf Hk. unfold replay_step. destruct (rs_LastSeq st <? jr_Seq rec), (String.eqb _ _); simpl; auto.
Qed.

Ltac by_kind rec := unfold replay_kind; destruct (jr_Kind rec); try done;
  destruct (jr_Gate rec) as [g|]; try done; by destruct (String.eqb (ev_GateID g) "").

Lemma Replay_Succeeded log runID id :
  id ∈ rs_Succeeded (Replay log runID) <-> (RecordTaskSucceeded, id) ∈ marks runID log.
Proof.
  induction log as [|rec log IH] using rev_ind; [set_solver|]. rewrite Replay_snoc, marks_snoc, elem_of_app.
  rewrite replay_step_seq by (intros; by_kind rec). destruct (String.eqb _ _); cbn [andb]; [|set_solver].
  unfold replay_kind. destruct (jr_Kind rec) eqn:Ek; cbn [marking rs_Succeeded]; try set_solver.
  destruct (jr_Gate rec) as [g|]; [destruct (String.eqb (ev_GateID g) "")|]; set_solver.
Qed.

Lemma Replay_Resumes log runID id :
  zget (rs_Resumes (Replay log runID)) id = count_mark (RecordTaskResumed, id) (marks runID log).
Proof.
  induction log as [|rec log IH] using rev_ind; [done|]. rewrite Replay_snoc, marks_snoc, count_mark_app.
  rewrite replay_step_seq by (intros; by_kind rec). destruct (String.eqb _ _); cbn [andb]; [|rewrite IH; unfold count_mark; simpl; lia].
  assert (Hsame : count_mark (RecordTaskResumed, id) [] = 0) by done.
  unfold replay_kind. destruct (jr_Kind rec) eqn:Ek; cbn [marking rs_Resumes];
    rewrite ?Hsame, ?count_mark_one; try lia; try (rewrite decide_False by done; lia).
  - unfold zget at 1. destruct (decide (jr_TaskID rec = id)) as [<-|Hne].
    + rewrite lookup_insert_eq, decide_True by done. simpl. by rewrite IH.
    + rewrite lookup_insert_ne, decide_False by congruence. rewrite <- IH. unfold zget. lia.
  - destruct (jr_Gate rec) as [g|]; [destruct (String.eqb (ev_GateID g) "")|]; simpl; lia.
Qed.

Lemma Replay_Attempts log runID id :
  (RecordTaskStarted, id) ∈ marks runID log -> is_Some (rs_Attempts (Replay log runID) !! id).
Proof.
  induction log as [|rec log IH] using rev_ind; [by intros ?%elem_of_nil|].
  rewrite Replay_snoc, marks_snoc, elem_of_app.
  rewrite (replay_step_seq _ _ _ rs_Attempts) by (intros; by_kind rec). destruct (String.eqb _ _); cbn [andb]; [|set_solver].
  assert (Hins : forall k v, (RecordTaskStarted, id) ∈ marks runID log \/ k = id ->
    is_Some (<[k := v]> (rs_Attempts (Replay log runID)) !! id)).
  { intros k v Hk. destruct (decide (k = id)) as [->|Hne]; [rewrite lookup_insert_eq; by eexists|].
    rewrite lookup_insert_ne by done. destruct Hk; [auto|done]. }
  unfold replay_kind. destruct (jr_Kind rec) eqn:Ek; cbn [marking rs_Attempts]; intros Hin;
    try (apply IH; set_solver); [apply Hins; set_solver| |].
  - destruct (0 <? _); [apply Hins|apply IH]; set_solver.
  - destruct (jr_Gate rec) as [g|]; [destruct (String.eqb (ev_GateID g) "")|]; apply IH; set_solver.
Qed.

Lemma Replay_LastSeq log runID rec : rec ∈ log -> jr_Seq rec <= rs_LastSeq (Replay log runID).
Proof.
  induction log as [|x log IH] using rev_ind; [by intros ?%elem_of_nil|]. rewrite Replay_snoc.
  assert (H1 : forall st, rs_LastSeq (replay_kind st x) = rs_LastSeq st) by (intros; by_kind x).
  assert (H2 : rs_LastSeq (Replay log runID) <= rs_LastSeq (replay_step runID (Replay log runID) x)
               /\ jr_Seq x <= rs_LastSeq (replay_step runID (Replay log runID) x)).
  { unfold replay_step. destruct (Z.ltb_spec (rs_LastSeq (Replay log runID)) (jr_Seq x)), (negb _);
      rewrite ?H1; simpl; lia. }
  intros [Hin| ->%list_elem_of_singleton]%elem_of_app; [specialize (IH Hin); lia|lia].
Qed.

(** * What an attempt does to each task *)

(** A task of the queue after an attempt at p of the task t. *)
Definition becomes (o : turn) (t t' : QueuedTask) : Prop :=
  qt_Task t' = qt_Task t
  /\ match o with
     | Succeeds => qt_State t' = TaskSucceeded
     | Resumes => qt_Resumes t' = qt_Resumes t + 1
                  /\ (qt_State t' = TaskHeld
                      \/ qt_State t' = TaskPending /\ qt_Resumes t' <= resume_bound (qt_Task t))
     | Falls => qt_Resumes t' = qt_Resumes t /\ qt_State t' <> TaskSucceeded
     end.

Definition kept (t t' : QueuedTask) : Prop :=
  t' = t \/ qt_State t = TaskPending /\ exists reason, t' = held reason t.

Lemma propagateHolds_kept q p t' :
  task_at (propagateHolds q) p = Some t' -> exists t, task_at q p = Some t /\ kept t t'.
Proof.
  intros Hp. destruct (held_from_steps _ _ (propagateHolds_steps q) p) as [E|(t & r & Ht & Hs & _ & E)].
  - exists t'. rewrite <- E. split; [done|by left].
  - exists t. split; [done|]. right. split; [done|]. exists r. congruence.
Qed.

(** Writing through p and propagating: p has the written task unless it is still pending. *)
Lemma written_kept q p f t p' t' :
  task_at q p = Some t -> task_at (propagateHolds (update q p f)) p' = Some t' ->
  qt_State (f t) <> TaskPending ->
  p' = p /\ t' = f t \/ p' <> p /\ exists u, task_at q p' = Some u /\ kept u t'.
Proof.
  intros Hp Hp' Hf. apply propagateHolds_kept in Hp' as (u & Hu & Hk). rewrite task_at_update in Hu.
  case_decide as E; [subst p'; left|right; eauto]. rewrite Hp in Hu. simpl in Hu. injection Hu as <-.
  split; [done|]. destruct Hk as [->|[? _]]; done.
Qed.

Lemma update_kept q p f t p' t' :
  task_at q p = Some t -> task_at (update q p f) p' = Some t' ->
  p' = p /\ t' = f t \/ p' <> p /\ exists u, task_at q p' = Some u /\ kept u t'.
Proof.
  intros Hp Hp'. rewrite task_at_update in Hp'. case_decide as E; [subst p'; left|right].
  - rewrite Hp in Hp'. by injection Hp' as <-.
  - split; [done|]. exists t'. split; [done|by left].
Qed.

Lemma update_twice q p f g : update (update q p f) p g = update q p (g ∘ f).
Proof. unfold update. simpl. f_equal. apply list_eq. intros i.
  destruct (decide (p = i)) as [->|E]; [rewrite !list_lookup_alter_eq|by rewrite !list_lookup_alter_ne].
  by destruct (q_tasks q !! i).
Qed.

Lemma drive_queue_tasks q p t stop o q' p' t' :
  task_at q p = Some t -> qt_State t = TaskPending -> drive_queue q p stop o q' ->
  task_at q' p' = Some t' ->
  p' = p /\ becomes o t t' \/ p' <> p /\ exists u, task_at q p' = Some u /\ kept u t'.
Proof.
  intros Hp Hs Hd. assert (Hp1 : forall f, task_at (update q p f) p = Some (f t)).
  { intros f. by apply task_at_same_update. }
  destruct Hd as [a Ha|a stop Ha|Hm|reason Hm|reason].
  - unfold RecordAttempt. rewrite Hp1, Ha, update_twice. cbn [fst]. intros Hp'.
    destruct (written_kept _ _ _ _ _ _ Hp Hp' ltac:(done)) as [[-> ->]|?]; [left; by split|by right].
  - unfold RecordAttempt. rewrite Hp1, Ha, !update_twice. destruct (_ <=? _); cbn [fst]; intros Hp'.
    + destruct (written_kept _ _ _ _ _ _ Hp Hp' ltac:(done)) as [[-> ->]|?]; [left; by split|by right].
    + destruct (update_kept _ _ _ _ _ _ Hp Hp') as [[-> ->]|?]; [left; by split|by right].
  - revert Hm. unfold RecordResume. rewrite Hp1. cbn [fst snd]. intros Hm%Z.leb_le Hp'.
    destruct (update_kept _ _ _ _ _ _ Hp Hp') as [[-> ->]|?]; [left|by right].
    split; [done|]. split; [done|]. split; [done|]. right. split; [done|exact Hm].
  - unfold RecordResume, Hold. rewrite Hp1. cbn [fst]. rewrite update_twice. intros Hp'.
    destruct (written_kept _ _ _ _ _ _ Hp Hp' ltac:(done)) as [[-> ->]|?]; [left|by right].
    split; [done|]. split; [done|]. split; [done|by left].
  - intros Hp'. destruct (written_kept _ _ _ _ _ _ Hp Hp' ltac:(done)) as [[-> ->]|?]; [left; by split|by right].
Qed.

(** * The queue agrees with the journal *)

Definition task_true (lossless : bool) (ms : list (RecordKind * string)) (t : QueuedTask) : Prop :=
  ((RecordTaskSucceeded, tk_ID (qt_Task t)) ∈ ms -> qt_State t = TaskSucceeded)
  /\ (lossless = true -> qt_State t <> TaskSucceeded ->
      count_mark (RecordTaskResumed, tk_ID (qt_Task t)) ms <= qt_Resumes t)
  /\ (qt_State t = TaskPending -> qt_Resumes t <= resume_bound (qt_Task t)).

(** The journal of a runner follows the protocol and its queue agrees with it. *)
Record truthful (b : bool) (r : Runner) : Prop := {
  tf_plan : plan_ok (rn_Plan r);
  tf_follows : follows (rn_Plan r) (rn_Queue r);
  tf_seq : seq_ok r;
  tf_protocol : protocol b (rn_Plan r) (marks (rn_runID r) (rn_log r));
  tf_tasks : forall p t, task_at (rn_Queue r) p = Some t -> task_true b (marks (rn_runID r) (rn_log r)) t
}.

Lemma kept_true b ms t t' : kept t t' -> task_true b ms t -> task_true b ms t'.
Proof.
  intros [->|[Hs [reason ->]]]; [done|]. intros (H1 & H2 & H3). split; [|split; [|done]]; simpl.
  - intros Hin. specialize (H1 Hin). congruence.
  - intros Hb _. apply H2; [done|]. by rewrite Hs.
Qed.

(** Marks of other tasks change nothing. *)
Lemma other_true b ms ms' t :
  (forall k, (k, tk_ID (qt_Task t)) ∉ ms') -> task_true b ms t -> task_true b (ms ++ ms') t.
Proof.
  intros Ho (H1 & H2 & H3). split; [|split; [|done]].
  - intros [Hin|Hin]%elem_of_app; [auto|by apply Ho in Hin].
  - intros Hb Hs. rewrite count_mark_app, (count_mark_none _ ms') by apply Ho. specialize (H2 Hb Hs). lia.
Qed.

(** The marks of a turn are of its task. *)
Lemma turn_marks_id t o ms k id : turn_marks t o ms -> (k, id) ∈ ms -> id = tk_ID t.
Proof.
  destruct 1 as [_|o]; [by intros ?%elem_of_nil|]. destruct (tk_Mutates t), o; simpl; set_solver.
Qed.

Lemma turn_marks_resumed t o ms :
  turn_marks t o ms ->
  count_mark (RecordTaskResumed, tk_ID t) ms = match o with Resumes => 1 | _ => 0 end
  /\ ((RecordTaskSucceeded, tk_ID t) ∈ ms -> o = Succeeds).
Proof.
  destruct 1 as [_|o]; [split; [done|by intros ?%elem_of_nil]|].
  assert (Hd : forall (k k' : RecordKind) (x y : string), k <> k' -> (k, x) <> (k', y)) by congruence.
  split.
  - rewrite count_mark_app, (count_mark_app _ [_] (turn_mark _ _) : count_mark _ (_ :: _) = _).
    rewrite count_mark_one, decide_False by (by apply Hd).
    destruct (tk_Mutates t); rewrite ?count_mark_one, ?decide_False by (by apply Hd);
      destruct o; simpl; rewrite ?count_mark_one, ?decide_True, ?decide_False by (done || by apply Hd); done.
  - destruct (tk_Mutates t), o; simpl; set_solver.
Qed.

(** What the world let the turn say: all of it, or a part when appends are lost. *)
Definition heard (lossless : bool) (ms ms' : list (RecordKind * string)) : Prop :=
  ms' `sublist_of` ms /\ (lossless = true -> ms' = ms).

Lemma becomes_true b ms t o full ms' t' :
  qt_State t = TaskPending -> task_true b ms t -> turn_marks (qt_Task t) o full -> heard b full ms' -> becomes o t t' ->
  task_true b (ms ++ ms') t'.
Proof.
  intros Hs (H1 & H2 & H3) Hm [Hsub Hall] [Ht Hb]. destruct (turn_marks_resumed _ _ _ Hm) as [Hc Hsu].
  specialize (H3 Hs). unfold task_true. rewrite Ht. split; [|split].
  - intros [Hin|Hin]%elem_of_app; [specialize (H1 Hin); congruence|].
    rewrite (Hsu (elem_of_sublist _ _ _ Hin Hsub)) in Hb. done.
  - intros Hl. rewrite count_mark_app, (Hall Hl), Hc. specialize (H2 Hl ltac:(congruence)).
    destruct o; [by rewrite Hb|destruct Hb as [-> _]; lia|destruct Hb as [-> _]; lia].
  - destruct o; [by rewrite Hb| |].
    + destruct Hb as [-> [Hh|[Hp Hle]]]; rewrite ?Hh, ?Hp; done.
    + destruct Hb as [-> Hne]. intros _. done.
Qed.

(** * The loop keeps them in agreement *)

Lemma plan_unique plan t t' :
  plan_ok plan -> t ∈ pl_Tasks plan -> t' ∈ pl_Tasks plan -> tk_ID t' = tk_ID t -> t' = t.
Proof.
  intros Hok [i Hi]%list_elem_of_lookup [j Hj]%list_elem_of_lookup E.
  assert (Hij : j = i); [|subst; congruence]. apply (NoDup_lookup (tk_ID <$> pl_Tasks plan) j i (tk_ID t)).
  - apply Hok.
  - by rewrite list_lookup_fmap, Hj, <- E.
  - by rewrite list_lookup_fmap, Hi.
Qed.

(** What a turn of a pending task says follows what was said. *)
Lemma protocol_turn_full b plan ms t o ms' :
  plan_ok plan -> qt_Task t ∈ pl_Tasks plan -> qt_State t = TaskPending -> task_true b ms t ->
  protocol b plan ms -> turn_marks (qt_Task t) o ms' -> protocol b plan (ms ++ ms').
Proof.
  intros Hok Hin Hs (H1 & H2 & H3) Hp Hm. destruct Hm as [_|o]; [by rewrite app_nil_r|].
  set (id := tk_ID (qt_Task t)) in *. set (g := if tk_Mutates (qt_Task t) then _ else _).
  assert (Hg : protocol b plan (ms ++ g)).
  { unfold g. destruct (tk_Mutates _); [|by rewrite app_nil_r]. by constructor. }
  assert (Hc : count_mark (RecordTaskResumed, id) (ms ++ g ++ [(RecordTaskStarted, id)])
               = count_mark (RecordTaskResumed, id) ms).
  { rewrite !count_mark_app, (count_mark_none _ g), (count_mark_none _ [_]); [lia|set_solver|].
    unfold g. destruct (tk_Mutates _); set_solver. }
  assert (Hst : protocol b plan (ms ++ g ++ [(RecordTaskStarted, id)])).
  { rewrite app_assoc. constructor; [done|]. split; cbn [snd].
    - intros [Hn|Hn]%elem_of_app; [specialize (H1 Hn); congruence|]. unfold g in Hn. destruct (tk_Mutates _); set_solver.
    - intros _ (t' & Ht' & Hid & Hmut). rewrite (plan_unique plan (qt_Task t) t' Hok Hin Ht' Hid) in Hmut.
      unfold g. rewrite Hmut. apply last_snoc. }
  assert (Hl : last (ms ++ g ++ [(RecordTaskStarted, id)]) = Some (RecordTaskStarted, id)).
  { rewrite app_assoc. apply last_snoc. }
  assert (Hsnoc : forall m, protocol b plan (ms ++ g ++ [(RecordTaskStarted, id); m])
    <-> protocol b plan ((ms ++ g ++ [(RecordTaskStarted, id)]) ++ [m])) by (intros m; by rewrite <- !app_assoc).
  destruct o; [..|exact Hst]; cbn [turn_mark]; apply Hsnoc; (constructor; [exact Hst|]); [by intros _|].
  intros Hb. split; [exact Hl|]. cbn [snd]. fold id. intros t' Ht' Hid.
  rewrite (plan_unique plan (qt_Task t) t' Hok Hin Ht' Hid), Hc.
  specialize (H2 Hb ltac:(congruence)). specialize (H3 Hs). lia.
Qed.

Lemma protocol_turn b plan ms t o full ms' :
  plan_ok plan -> qt_Task t ∈ pl_Tasks plan -> qt_State t = TaskPending -> task_true b ms t ->
  protocol b plan ms -> turn_marks (qt_Task t) o full -> heard b full ms' -> protocol b plan (ms ++ ms').
Proof.
  intros Hok Hin Hs Ht Hp Hm [Hsub Hall]. assert (Hf := protocol_turn_full b plan ms t o full Hok Hin Hs Ht Hp Hm).
  destruct b; [by rewrite Hall|]. eapply protocol_lossy; [|exact Hf]. by apply sublist_app.
Qed.

Section loop.
Context `{GoTables} (w : World) (b : bool) (Hdur : b = true -> durable w).

Lemma frame_truthful r r' : frame w r r' -> truthful b r -> truthful b r'.
Proof.
  intros [Hc Hq Hs Ho Hp Hn Hm] [T1 T2 T3 T4 T5]. apply core_plan in Hc as Hpl. apply core_runID in Hc as Hid.
  split; rewrite ?Hpl, ?Hid, ?Hq, ?Hm; auto.
Qed.

Lemma stop_truthful r reason class out : truthful b r -> truthful b (set_stop reason class out r).
Proof. intros [T1 T2 [S1 S2 S3] T4 T5]. by split. Qed.

Lemma turn_truthful p t r :
  truthful b r -> Next (rn_Queue r) = Some (p, t) -> truthful b (runOne w p t r).2.
Proof.
  intros [T1 T2 T3 T4 T5] [Hp Hs]%Next_pending. destruct (runOne_ok w p t r) as (o & ms & Hms & Ha).
  set (r' := (runOne w p t r).2) in *. destruct Ha as [Dc Dq _ _ _ Dn (ms' & Dm & Dsub & Dall)].
  assert (Hh : heard b ms ms') by (split; [done|]; intros Hb; by apply Dall, Hdur).
  apply core_plan in Dc as Hpl. apply core_runID in Dc as Hid.
  assert (Htt := T5 p t Hp). split; rewrite ?Hpl, ?Hid, ?Dm; auto.
  - eapply follows_shape; [by eapply drive_queue_shape|done].
  - eapply protocol_turn; eauto. apply list_elem_of_lookup. exists p. by eapply follows_task.
  - intros p' t' Hp'. destruct (drive_queue_tasks _ _ _ _ _ _ _ _ Hp Hs Dq Hp') as [[-> Hb]|(Hne & u & Hu & Hk)].
    + by eapply becomes_true.
    + assert (Htu := T5 p' u Hu). eapply kept_true in Hk; [|exact Htu].
      apply other_true; [|done]. intros k Hin. apply (elem_of_sublist _ _ _ Hin) in Dsub. apply (turn_marks_id _ _ _ _ _ Hms) in Dsub as Hid'.
      assert (Hp'' : task_at (rn_Queue r') p' = Some t') by done.
      assert (Hf' : follows (rn_Plan r) (rn_Queue r')) by (eapply follows_shape; [by eapply drive_queue_shape|done]).
      apply Hne. apply (NoDup_lookup (tk_ID <$> pl_Tasks (rn_Plan r)) p' p (tk_ID (qt_Task t))); [apply T1| |].
      * by rewrite list_lookup_fmap, (follows_task _ _ _ _ Hf' Hp''), <- Hid'.
      * by rewrite list_lookup_fmap, (follows_task _ _ _ _ T2 Hp).
Qed.

Lemma run_loop_truthful fuel r r' : truthful b r -> run_loop w fuel r = Some r' -> truthful b r'.
Proof.
  revert r. induction fuel as [|f IH]; intros r Ht; [done|]. simpl.
  assert (Htk : truthful b (ticked r)) by (by eapply frame_truthful; [apply frame_ticked|]).
  destruct (w_ctx w (rn_tick r)); [intros [= <-]; by apply stop_truthful|].
  destruct (Next (rn_Queue r)) as [[p t]|] eqn:En; [|by intros [= <-]].
  assert (Hturn := turn_truthful p t (ticked r) Htk En). destruct (runOne w p t (ticked r)) as [[] r1]; simpl in Hturn.
  - by intros [= <-].
  - by apply IH.
Qed.

Lemma Run_truthful fuel r ev err r' : truthful b r -> Run w fuel r = Some (ev, err, r') -> truthful b r'.
Proof.
  intros Ht [[_ [Hf _]]|(r1 & r2 & [Hf _] & Hl & [Hf' _] & _)]%Run_cases; [by eapply frame_truthful|].
  eapply frame_truthful; [exact Hf'|]. eapply run_loop_truthful; [|exact Hl]. by eapply frame_truthful.
Qed.

End loop.

(** * A restart re-establishes the agreement *)

Lemma last_seq_bound log : 0 <= last_seq log /\ forall rec, rec ∈ log -> jr_Seq rec <= last_seq log.
Proof.
  unfold last_seq. induction log as [|x log [IH1 IH2]] using rev_ind; [split; [done|by intros ? ?%elem_of_nil]|].
  rewrite fold_left_app. simpl. set (m := fold_left _ log 0) in *.
  destruct (Z.ltb_spec m (jr_Seq x)); (split; [lia|]);
    intros rec [Hin| ->%list_elem_of_singleton]%elem_of_app; try lia; specialize (IH2 rec Hin); lia.
Qed.

(** The journal of an earlier session: numbered in order, and saying what the protocol allows. *)
Record sound_log (lossless : bool) (plan : Plan) (log : list JournalRecord) : Prop := {
  sl_sorted : StronglySorted Z.lt (jr_Seq <$> log);
  sl_positive : Forall (fun s => 0 < s) (jr_Seq <$> log);
  sl_protocol : protocol lossless plan (marks (pl_RunID plan) log)
}.

Lemma NewQueue_task plan bs p t :
  task_at (NewQueue plan bs) p = Some t -> qt_Resumes t = 0 /\ qt_State t <> TaskSucceeded.
Proof.
  intros (u & Hu & Hk)%propagateHolds_kept. unfold task_at in Hu. simpl in Hu.
  rewrite list_lookup_fmap in Hu. destruct (pl_Tasks plan !! p) as [x|]; [|done]. simpl in Hu. injection Hu as <-.
  assert (Hq : qt_Resumes (queued bs x) = 0 /\ qt_State (queued bs x) <> TaskSucceeded).
  { unfold queued. by destruct (boundaryHold bs x). }
  destruct Hk as [->|[_ [r ->]]]; [done|]. by destruct Hq.
Qed.

Lemma resume_bound_pos t : 0 <= resume_bound t.
Proof. unfold resume_bound, DefaultMaxResumes. destruct (Z.ltb_spec 0 (tk_MaxResumes t)); lia. Qed.

Lemma resumeBudget_bound t : resumeBudget t = resume_bound (qt_Task t).
Proof. done. Qed.

(** A restored task agrees with the records it was restored from. *)
Lemma restore_true b log runID t :
  qt_Resumes t = 0 -> qt_State t <> TaskSucceeded ->
  task_true b (marks runID log) (restore_task (Replay log runID) t).
Proof.
  intros H0 Hs. unfold task_true. rewrite restore_task_keeps. unfold restore_task.
  rewrite (bool_decide_ext _ _ (Replay_Succeeded log runID (tk_ID (qt_Task t)))).
  case_bool_decide as E; [split; [done|split; done]|].
  rewrite Replay_Resumes, H0. set (c := count_mark _ _).
  assert (Hc : (if 0 <? c then c else 0) = c).
  { assert (Hp := count_mark_pos (RecordTaskResumed, tk_ID (qt_Task t)) (marks runID log)). fold c in Hp.
    destruct (Z.ltb_spec 0 c); lia. }
  rewrite Hc. cbn [qt_Resumes]. rewrite resumeBudget_bound. cbn [qt_Task].
  destruct (Z.ltb_spec (resume_bound (qt_Task t)) c) as [Hl|Hl]; [split; [done|split; [simpl; lia|done]]|].
  case_bool_decide; (split; [done|split; simpl; lia]).
Qed.

(** A journal with a mark in it is one to resume from; with a resume only, when the start it
    answers was not lost. *)
Lemma resumed_marks b plan log k id :
  sound_log b plan log -> (k, id) ∈ marks (pl_RunID plan) log ->
  k = RecordTaskStarted \/ k = RecordTaskSucceeded \/ b = true /\ k = RecordTaskResumed ->
  resumed (Replay log (pl_RunID plan)) = true.
Proof.
  intros [S1 S2 S3] Hin Hk. unfold resumed. apply andb_true_intro. split.
  - unfold marks in Hin. apply list_elem_of_omap in Hin as (rec & Hrec & _). apply Z.ltb_lt.
    assert (Hle := Replay_LastSeq log (pl_RunID plan) rec Hrec). rewrite Forall_fmap, Forall_forall in S2.
    specialize (S2 rec Hrec). simpl in S2. lia.
  - apply orb_true_intro. destruct Hk as [->|[->|[-> ->]]]; [right|left|right; apply (protocol_started plan) in Hin; [|done]].
    2: { apply Replay_Succeeded in Hin. rewrite bool_decide_eq_false_2; [done|]. intros E. rewrite E in Hin. set_solver. }
    all: apply Replay_Attempts in Hin as [v Hv]; rewrite bool_decide_eq_false_2; [done|]; intros E; by rewrite E in Hv.
Qed.

Lemma start_queue_follows plan bs st : follows plan (start_queue plan bs st).
Proof.
  unfold start_queue. destruct (resumed st); [|apply NewQueue_follows].
  eapply follows_shape; [apply Restore_shape|apply NewQueue_follows].
Qed.

Lemma start_queue_stable plan bs st : stable (start_queue plan bs st).
Proof. unfold start_queue. destruct (resumed st); apply propagateHolds_stable. Qed.

Lemma start_queue_true b plan bs log :
  sound_log b plan log -> forall p t,
  task_at (start_queue plan bs (Replay log (pl_RunID plan))) p = Some t ->
  task_true b (marks (pl_RunID plan) log) t.
Proof.
  intros Hs p t. unfold start_queue. destruct (resumed _) eqn:Er.
  - intros (u & Hu & Hk)%propagateHolds_kept. eapply kept_true; [exact Hk|].
    unfold task_at in Hu. simpl in Hu. rewrite list_lookup_fmap in Hu.
    destruct (q_tasks (NewQueue plan bs) !! p) as [x|] eqn:Ex; [|done]. simpl in Hu. injection Hu as <-.
    destruct (NewQueue_task plan bs p x Ex). by apply restore_true.
  - intros Hp. destruct (NewQueue_task plan bs p t Hp) as [H0 H1].
    assert (Hn : forall k, k = RecordTaskStarted \/ k = RecordTaskSucceeded \/ b = true /\ k = RecordTaskResumed ->
      (k, tk_ID (qt_Task t)) ∉ marks (pl_RunID plan) log).
    { intros k Hk Hin. rewrite (resumed_marks b plan log k _ Hs Hin Hk) in Er. done. }
    split; [|split]; [|intros Hb _; rewrite count_mark_none; [lia|]|].
    + intros Hin. apply Hn in Hin; tauto.
    + apply Hn. tauto.
    + rewrite H0. intros _. apply resume_bound_pos.
Qed.

Lemma fresh_truthful b spec plan report lock fence log :
  plan_ok plan -> sound_log b plan log -> truthful b (fresh spec plan report lock fence log).
Proof.
  intros Hok Hs. split; simpl.
  - done.
  - apply start_queue_follows.
  - destruct Hs as [S1 S2 S3]. destruct (last_seq_bound log) as [H1 H2]. split; simpl; [done| |done].
    rewrite Forall_fmap, Forall_forall in S2 |- *. intros rec Hrec. specialize (S2 rec Hrec). simpl in *.
    specialize (H2 rec Hrec). lia.
  - apply Hs.
  - by apply start_queue_true.
Qed.

Lemma then_append_ok `{GoTables} w rec k r r' :
  marking (jr_Kind rec) = false -> then_append w rec k r = Ok r' ->
  exists r1, frame w r r1 /\ k r1 = Ok r'.
Proof.
  intros Hm. unfold then_append. assert (Hf := frame_append w rec r Hm).
  destruct (append w rec r) as [r1 [e|]]; [done|]. eauto.
Qed.

(** What a granted start stands on. *)
Lemma Begin_ok `{GoTables} w spec plan g r :
  Begin w spec plan g = Ok r ->
  exists records truncated lock, gr_journal g = Ok (records, truncated) /\ gr_lock g = Ok lock
  /\ plan_ok plan
  /\ (rs_Finished (Replay records (pl_RunID plan))
      && String.eqb (rs_FinalOutcome (Replay records (pl_RunID plan))) RunCompleted) = false
  /\ let report := Preflight (gr_symlinks g) spec (Some plan) (gr_facts g) in
     PermitsUnattendedRun (rt_Readiness report) = true
     /\ frame w (fresh spec plan report lock (TakeFence (rt_Repo report) (gr_lock_dir g) lock) records) r.
Proof.
  unfold Begin. destruct (spec_Validate spec); [done|]. destruct (plan_Validate plan) eqn:Ep; [done|].
  destruct (ValidateClassificationRules _); [done|]. destruct (ValidateQAPacket spec plan); [done|].
  destruct (gr_journal g) as [[records truncated]|e]; [|done].
  destruct (rs_Finished _ && _) eqn:Ef; [done|]. cbv zeta.
  set (report := Preflight _ _ _ _). clearbody report. destruct (PermitsUnattendedRun _) eqn:Er; [|done].
  cbn [negb]. destruct (gr_lock g) as [lock|e]; [|done]. set (r0 := fresh _ _ _ _ _ _).
  intros Hb. exists records, truncated, lock. repeat (split; [done||by apply plan_Validate_ok|]).
  apply then_append_ok in Hb as (r1 & F1 & Hb); [|done]. apply then_append_ok in Hb as (r2 & F2 & Hb); [|done].
  apply then_append_ok in Hb as (r3 & F3 & Hb); [|done]. etrans; [exact F1|]. etrans; [exact F2|]. etrans; [exact F3|].
  destruct truncated; [apply then_append_ok in Hb as (r4 & F4 & Hb); [|done]; etrans; [exact F4|]|]; by injection Hb as <-.
Qed.

(** * Histories *)

(** The journals a run can have: none of this run at first, then sessions under the same
    plan, each starting from the journal as it is and cut off anywhere after it.  A lossless
    history is one in which no append failed; in any other the runner went on without the
    record, as the source does. *)
Inductive history `{GoTables} (lossless : bool) (plan : Plan) : list JournalRecord -> Prop :=
| history_new log :
    Forall (fun rec => jr_RunID rec <> pl_RunID plan) log ->
    StronglySorted Z.lt (jr_Seq <$> log) -> Forall (fun s => 0 < s) (jr_Seq <$> log) ->
    history lossless plan log
| history_session w spec g fuel records truncated r out r' n :
    history lossless plan records -> gr_journal g = Ok (records, truncated) -> (lossless = true -> durable w) ->
    Begin w spec plan g = Ok r -> Run w fuel r = Some (out, r') -> (length records <= n)%nat ->
    history lossless plan (take n (rn_log r')).

Lemma marks_other runID log : Forall (fun rec => jr_RunID rec <> runID) log -> marks runID log = [].
Proof.
  induction 1 as [|rec log Hne _ IH]; [done|]. unfold marks in *. simpl. unfold mark at 1.
  apply String.eqb_neq in Hne. by rewrite Hne.
Qed.

Lemma sound_prefix b plan a log : a `prefix_of` log -> sound_log b plan log -> sound_log b plan a.
Proof.
  intros [k ->] [S1 S2 S3]. rewrite fmap_app in S1, S2. apply Forall_app in S2 as [S2 _].
  split; [by eapply StronglySorted_app_1_l|done|]. eapply protocol_prefix; [|exact S3]. rewrite marks_app. by eexists.
Qed.

Lemma truthful_sound b r : truthful b r -> rn_runID r = pl_RunID (rn_Plan r) -> sound_log b (rn_Plan r) (rn_log r).
Proof.
  intros [T1 T2 [S1 S2 S3] T4 T5] Hid. split; [done| |by rewrite <- Hid].
  eapply Forall_impl; [exact S2|]. simpl. lia.
Qed.

Lemma history_sound `{GoTables} b plan log : history b plan log -> sound_log b plan log.
Proof.
  induction 1 as [log H1 H2 H3|w spec g fuel records truncated r out r' n _ IH Hg Hd Hb Hr _].
  { split; [done|done|]. rewrite marks_other by done. constructor. }
  destruct (Begin_ok _ _ _ _ _ Hb) as (recs & tr & lock & Hg' & _ & Hok & _ & _ & Hf).
  rewrite Hg in Hg'. injection Hg' as <- <-.
  assert (Ht : truthful b r) by (eapply frame_truthful; [exact Hf|by apply fresh_truthful]).
  apply (sound_prefix b plan _ (rn_log r')); [apply prefix_take|].
  destruct out as [ev err]. assert (Hc := Run_core _ _ _ _ _ _ Hr). rewrite (fr_core _ _ _ Hf) in Hc.
  apply (Run_truthful w b Hd) in Hr; [|done]. apply core_plan in Hc as Hpl. apply core_runID in Hc as Hid.
  simpl in Hpl, Hid. rewrite <- Hpl. apply truthful_sound; [done|]. by rewrite Hpl.
Qed.
