(* ===== verification/RunOutcome.v ===== *)
(** The run as a whole: it always ends within the drives its plan allows, its verdict is
    completed exactly when the work and the gates are, and its journal keeps the
    promises a restart relies on. *)
From stdpp Require Import sorting.
From S2P Require Import Prelude GoStd RunFailure RunQA RunPlan RunJournal.
From S2P Require Import RunQueue RunController RunFence RunSpec RunPreflight RunRunner.
From S2P Require Import RunQueueProps RunRunnerFacts RunDrain RunHistory.

(** * The drives of a plan *)

Lemma slack_drives t : 0 <= qt_Resumes t -> (slack t <= task_drives (qt_Task t))%nat.
Proof.
  intros Hr. unfold slack, task_drives. assert (0 <= AttemptCount t) by (unfold AttemptCount; lia).
  destruct (qt_State t); lia.
Qed.

Lemma queue_slack_plan plan q :
  follows plan q -> (forall p t, task_at q p = Some t -> 0 <= qt_Resumes t) ->
  (queue_slack q <= plan_drives plan)%nat.
Proof.
  intros [Hf _] Hr. unfold queue_slack, plan_drives, task_at in *. rewrite <- Hf. clear Hf. revert Hr. generalize (q_tasks q). intros ts Hr.
  induction ts as [|t ts IH]; [simpl; lia|]. assert (H1 := slack_drives t (Hr 0%nat t eq_refl)).
  assert (H2 := IH (fun p => Hr (S p))). rewrite !fmap_cons. change (slack t + sum_list (slack <$> ts) <= task_drives (qt_Task t) + sum_list (task_drives <$> (qt_Task <$> ts)))%nat. lia.
Qed.

Lemma start_queue_resumes plan bs st p t :
  task_at (start_queue plan bs st) p = Some t -> 0 <= qt_Resumes t.
Proof.
  unfold start_queue. destruct (resumed st); [|intros [-> _]%NewQueue_task; done].
  intros (u & Hu & Hk)%propagateHolds_kept. unfold task_at in Hu. simpl in Hu. rewrite list_lookup_fmap in Hu.
  destruct (q_tasks (NewQueue plan bs) !! p) as [x|] eqn:Ex; [|done]. simpl in Hu. injection Hu as <-.
  destruct (NewQueue_task plan bs p x Ex) as [H0 _].
  assert (Hx : 0 <= qt_Resumes (restore_task st x)).
  { unfold restore_task. case_bool_decide; [simpl; lia|].
    set (m := zget (rs_Resumes st) _). assert (Hm : 0 <= (if qt_Resumes x <? m then m else qt_Resumes x)).
    { destruct (Z.ltb_spec (qt_Resumes x) m); lia. }
    cbv zeta. set (n := if qt_Resumes x <? m then m else qt_Resumes x) in *. clearbody n.
    cbn [qt_Resumes]. destruct (_ <? n); [exact Hm|]. case_bool_decide; exact Hm. }
  by destruct Hk as [->|[_ [r ->]]].
Qed.

(** * A started run *)

Section run.
Context `{GoTables} (w : World) (spec : Spec) (plan : Plan) (g : Ground) (r : Runner).
Context (Hbegin : Begin w spec plan g = Ok r).

Lemma begun_live :
  live r /\ rn_Plan r = plan /\ rn_Spec r = spec /\ (queue_slack (rn_Queue r) <= plan_drives plan)%nat.
Proof.
  destruct (Begin_ok _ _ _ _ _ Hbegin) as (recs & tr & lock & _ & _ & Hok & _ & _ & Hf).
  apply fr_core in Hf as Hc. assert (Hq := fr_queue _ _ _ Hf). unfold core in Hc. simpl in Hc. injection Hc as H1 H2 _ _ _.
  split; [|split; [done|split; [done|]]].
  - eapply frame_live; [exact Hf|]. split; [exact Hok|apply start_queue_follows|apply start_queue_stable|done|done].
  - rewrite Hq. simpl. apply queue_slack_plan; [apply start_queue_follows|apply start_queue_resumes].
Qed.

(** What every returned run leaves. *)
Lemma run_drained fuel ev err r' :
  Run w fuel r = Some (Some ev, err, r') ->
  exists r2, drained r2 /\ core r2 = core r /\ ev = finish r2 /\ quiet w r2 r'.
Proof.
  destruct begun_live as (Hl & _). intros [[? _]|(r1 & r2 & Hq1 & Hr & Hq2 & Hev)]%Run_cases; [done|].
  injection Hev as ->. exists r2. apply (frame_live w r r1) in Hl as Hl1; [|apply Hq1].
  assert (Hd : drained r2 /\ core r2 = core r1).
  { destruct (run_loop_ok w (S (queue_slack (rn_Queue r1)) + fuel) r1 Hl1) as (r3 & Hr3 & Hc3 & Hd3); [lia|].
    assert (r3 = r2) as ->; [|done].
    assert (Hm := run_loop_more w fuel (S (queue_slack (rn_Queue r1))) r1 r2 Hr). congruence. }
  destruct Hd as [Hd Hc]. split; [done|]. split; [|done]. rewrite Hc. apply Hq1.
Qed.

End run.

(** * The verdict *)

Lemma Counts_zero q s : Counts q s = 0 <-> Forall (fun t => qt_State t <> s) (q_tasks q).
Proof.
  unfold Counts. induction (q_tasks q) as [|t ts IH]; [by split; [constructor|]|]. rewrite filter_cons, Forall_cons.
  case_decide; simpl in *; [split; [lia|tauto]|]. rewrite IH. tauto.
Qed.

Lemma failed_ids_nil q : failed_ids q = [] <-> Forall (fun t => qt_State t <> TaskFailed) (q_tasks q).
Proof.
  rewrite <- Counts_zero. unfold failed_ids, Counts. split.
  - intros E. apply (f_equal length) in E. rewrite (Permutation_length (sort_Strings_perm _)), length_fmap in E.
    simpl in E. lia.
  - intros E. destruct (filter _ (q_tasks q)); [done|]. simpl in E. lia.
Qed.

(** The verdict is completed exactly when nothing stopped the run, no task failed or is
    held, and the gates let the packet progress. *)
Lemma verdict_completed r :
  rn_stopOutcome r = "" \/ rn_stopOutcome r = RunAwaitingAuth \/ rn_stopOutcome r = RunBlockedHuman ->
  (verdict_of r).1 = RunCompleted
  <-> rn_stopReason r = "" /\ Forall (fun t => dead (qt_State t) = false) (q_tasks (rn_Queue r))
      /\ pd_Allowed (QADecision r) = true.
Proof.
  intros Ho. assert (Hdead : Forall (fun t => dead (qt_State t) = false) (q_tasks (rn_Queue r))
    <-> failed_ids (rn_Queue r) = [] /\ Counts (rn_Queue r) TaskHeld = 0).
  { rewrite failed_ids_nil, Counts_zero, <- Forall_and. apply Forall_iff. intros t.
    unfold dead. by destruct (qt_State t); simpl; intuition. }
  rewrite Hdead. unfold verdict_of. assert (Hc : 0 <= Counts (rn_Queue r) TaskHeld) by (unfold Counts; lia).
  destruct (String.eqb_spec (rn_stopReason r) "") as [Es|Es]; cbn [negb].
  2: { split; [|tauto]. destruct Ho as [-> |[-> | ->]]; done. }
  case_bool_decide as Ef; cbn [negb]; [|split; [done|tauto]].
  destruct (Z.ltb_spec 0 (Counts (rn_Queue r) TaskHeld)); cbn [andb].
  { split; [by destruct (awaits_auth r)|lia]. }
  destruct (pd_Allowed (QADecision r)); cbn [negb]; (split; [|done || by intros (_ & _ & ?)]); [|done].
  intros _. split; [done|]. split; [|done]. split; [done|lia].
Qed.

Lemma verdict_outcomes r :
  rn_stopOutcome r = "" \/ rn_stopOutcome r = RunAwaitingAuth \/ rn_stopOutcome r = RunBlockedHuman ->
  (verdict_of r).1 ∈ [RunCompleted; RunFailed; RunBlockedHuman; RunAwaitingAuth].
Proof.
  intros Ho. unfold verdict_of. destruct (String.eqb (rn_stopReason r) ""); cbn [negb].
  - repeat split_match; simpl; set_solver.
  - destruct Ho as [-> |[-> | ->]]; simpl; set_solver.
Qed.

Lemma drained_terminal r :
  drained r -> rn_stopReason r = "" ->
  forall p t, task_at (rn_Queue r) p = Some t -> Terminal (qt_State t) = true.
Proof.
  intros [D1 D2 D3 D4] Hs. destruct D3 as [?|[Hst Hn]]; [done|]. by apply (nothing_stranded (rn_Plan r)).
Qed.

(** * Theorems *)

(** (C9) Every granted run ends: whatever the commands answer, whatever fails to be
    written and whenever the run is cancelled, one turn more than the drives its plan
    allows is enough for the loop to return; and a run that was not stopped leaves no
    task pending. *)
Theorem Run_returns `{GoTables} w spec plan g r fuel :
  Begin w spec plan g = Ok r -> (plan_drives plan < fuel)%nat ->
  exists ev err r', Run w fuel r = Some (ev, err, r')
  /\ match ev with
     | None => err <> None
     | Some _ => rn_stopReason r' = "" -> forall p t, task_at (rn_Queue r') p = Some t -> Terminal (qt_State t) = true
     end.
Proof.
  intros Hb Hfuel. destruct (begun_live _ _ _ _ _ Hb) as (Hl & Hpl & _ & Hsl).
  assert (Hsome : exists ev err r', Run w fuel r = Some (ev, err, r') /\ (ev = None -> err <> None)).
  { unfold Run. assert (H1 := quiet_append w (started r) r eq_refl).
    destruct (append w (started r) r) as [r1 [e|]]; simpl in H1; [by eexists _, _, _|].
    assert (Hq : quiet w r (publish w "starting" None r1)) by (eapply quiet_trans; [exact H1|apply quiet_publish]).
    destruct (run_loop_ok w fuel (publish w "starting" None r1)) as (r2 & -> & _).
    { eapply frame_live; [apply Hq|done]. }
    { destruct Hq as [Hq _]. rewrite (fr_queue _ _ _ Hq). lia. }
    destruct (append w _ r2) as [r3 [e|]]; [by eexists _, _, _|]. destruct (w_completion w _); by eexists _, _, _. }
  destruct Hsome as (ev & err & r' & Hr & Hev). exists ev, err, r'. split; [done|]. destruct ev as [e|]; [|auto].
  destruct (run_drained w spec plan g r Hb _ _ _ _ Hr) as (r2 & Hd & _ & _ & [Hq _]).
  rewrite (fr_stop _ _ _ Hq), (fr_queue _ _ _ Hq). by apply drained_terminal.
Qed.

(** (C5) Completed is earned: the completion event of a granted run says completed
    exactly when nothing stopped the run, every task of the plan succeeded, and every
    gate the packet's risk class or policy makes mandatory has a recorded pass for the
    head the run finished on; every other run failed, is blocked on a person or awaits
    an authentication. *)
Theorem completed_exact `{GoTables} w spec plan g r fuel ev err r' :
  Begin w spec plan g = Ok r -> Run w fuel r = Some (Some ev, err, r') ->
  (ce_Outcome ev = RunCompleted
   <-> rn_stopReason r' = ""
       /\ (forall t, t ∈ pl_Tasks plan -> state_of (rn_Queue r') (tk_ID t) = Some TaskSucceeded)
       /\ (forall id, id ∈ RequiredGates (sp_QA spec) (pl_Risk plan) ->
           exists e, rn_Evidence r' !! id = Some e /\ ev_Result e = GatePass
                     /\ ev_TargetSHA e = fn_Head (rn_Fence r') /\ blank (fn_Head (rn_Fence r')) = false))
  /\ ce_Outcome ev ∈ [RunCompleted; RunFailed; RunBlockedHuman; RunAwaitingAuth].
Proof.
  intros Hb Hr. destruct (begun_live _ _ _ _ _ Hb) as (_ & Hpl & Hsp & _).
  destruct (run_drained w spec plan g r Hb _ _ _ _ Hr) as (r2 & Hd & Hc & -> & Hq & Hfe & Hev).
  assert (Hpl2 : rn_Plan r2 = plan) by (apply core_plan in Hc; congruence).
  assert (Hsp2 : rn_Spec r2 = spec) by (unfold core in Hc; congruence).
  split; [|by apply verdict_outcomes, Hd]. cbn [ce_Outcome finish]. rewrite verdict_completed by apply Hd.
  unfold QADecision. rewrite progression_allowed, Hpl2, Hsp2, Hfe, Hev, (fr_stop _ _ _ Hq).
  unfold state_of, indexed. rewrite (fr_queue _ _ _ Hq).
  split; intros (Hs & Ht & Hg); (split; [done|split; [|done]]).
  - intros t Hin. rewrite <- Hpl2 in Hin. destruct Hd as [D1 D2 D3 D4] eqn:Ed.
    assert (Hin' := Hin). rewrite <- (proj1 D2) in Hin'. apply list_elem_of_fmap in Hin' as (u & -> & Hu).
    apply list_elem_of_lookup in Hu as [p Hp]. assert (Hi := follows_indexed _ _ p u D1 D2 Hp). unfold indexed in Hi.
    rewrite Hi. simpl. assert (Hterm := drained_terminal r2 Hd Hs p u Hp).
    rewrite Forall_lookup in Ht. specialize (Ht p u Hp). by destruct (qt_State u).
  - apply Forall_lookup. intros p t Hp. destruct Hd as [D1 D2 D3 D4].
    assert (Hi := follows_indexed _ _ p t D1 D2 Hp). unfold indexed in Hi.
    specialize (Ht (qt_Task t)). rewrite Hi in Ht. simpl in Ht.
    assert (Hin : qt_Task t ∈ pl_Tasks plan).
    { rewrite <- Hpl2. apply list_elem_of_lookup. exists p. by eapply follows_task. }
    specialize (Ht Hin). injection Ht as ->. done.
Qed.

(** (C13) Every journal of a run refines the protocol: over any number of sessions, each
    killed anywhere, the journal is numbered in order and its marks are a trace of the
    protocol: of all of it when every append of every session was durable, and, when
    appends failed and the runner went on, of the part that needs no other record. *)
Theorem history_refines_protocol `{GoTables} lossless plan log :
  history lossless plan log ->
  protocol lossless plan (marks (pl_RunID plan) log) /\ StronglySorted Z.lt (jr_Seq <$> log).
Proof. intros [S1 S2 S3]%history_sound. done. Qed.

(** (C2) Across restarts, work whose success is in the journal is never started again,
    whatever appends failed.  When none did, a mutating task moreover never starts but
    under a fence verified for it just before, and no task is resumed more than one time
    past its budget, however often the run is restarted. *)
Theorem restart_promises `{GoTables} lossless plan log :
  history lossless plan log ->
  let ms := marks (pl_RunID plan) log in
  (forall i j id, (i < j)%nat -> ms !! i = Some (RecordTaskSucceeded, id) ->
     ms !! j <> Some (RecordTaskStarted, id))
  /\ (lossless = true ->
      (forall j id, ms !! j = Some (RecordTaskStarted, id) -> mutating plan id ->
        exists i, j = S i /\ ms !! i = Some (RecordFenceVerified, id))
      /\ (forall t, t ∈ pl_Tasks plan ->
        count_mark (RecordTaskResumed, tk_ID t) ms <= resume_bound t + 1)).
Proof.
  intros [S1 S2 S3]%history_sound ms. split; [|intros ->; split].
  - intros i j id Hij Hi Hj. destruct (protocol_start_at _ _ _ _ _ S3 Hj) as [Hn _]. by apply (Hn i).
  - intros j id Hj. by apply (protocol_start_at true plan ms j id S3).
  - intros t Ht. by apply (protocol_resumes plan).
Qed.
