(* ===== verification/RunExample.v ===== *)
(** A concrete packet, ground and world, on which the definitions are evaluated and the
    theorems of the run are applied. *)
From stdpp Require Import sorting.
From S2P Require Import Prelude GoStd RunFailure RunQA RunPlan RunJournal.
From S2P Require Import RunQueue RunController RunFence RunSpec RunPreflight RunRunner.
From S2P Require Import RunQueueProps RunRunnerFacts RunDrain RunHistory RunOutcome.

#[local] Existing Instance plain_tables.

Definition a_task (id band : string) (needs : list string) (mutates : bool) (attempts : Z)
    (result : string) (resumes : Z) (gate : string) : Task :=
  mkTask id id band ["make"; id] "" needs [] mutates 60 attempts result resumes "" "" "" gate.

Definition a_plan : Plan := mkPlan "run-1" RiskQ1
  [ a_task "edit" BandPrimary [] true 2 "" 0 "";
    a_task "build" BandValidation ["edit"] false 2 "" 0 GateBuild;
    a_task "test" BandValidation ["build"] false 2 "" 0 GateUnitTest;
    a_task "docs" BandDocumentation [] false 1 "" 0 "" ].

Definition a_spec : Spec :=
  mkSpec "proj" (mkOwnership "proj" "/w" "" "main" RoleWriter "s1" false)
    [] [] [] [] [] [] None [] (mkQAPolicy []) "/state" "" [].

Definition a_lock : Owner := mkOwner "run-1" "proj" "s1" "/w" RoleWriter 7 "host" "linux" None.

Definition repo_at (head : string) : RepoState :=
  mkRepoState "/w" "/w" "/w/.git" "/w/.git" "main" false head "" [] "" [].

Definition a_facts : Facts :=
  mkFacts (repo_at "aaaa") None (mkProbe None false None) ""
    (pass "concurrency.os" CategoryConcurrency "one operating system" "linux")
    (mkGitHubProbe false "" false "" "" false false 0 false []) [] false None.

Definition ground_of (records : list JournalRecord) : Ground :=
  mkGround (Ok (records, false)) (fun p => Some p) a_facts (Ok a_lock) "/w/.git/gc-unattended".

(** Everything is written, the lock and the worktree stay, and the commands answer as
    [answer] says. *)
Definition world (answer : nat -> Task -> string * bool * option string) : World :=
  mkWorld (fun _ => None) (fun _ => inl (Some a_lock)) (fun _ => inl (repo_at "aaaa")) (fun _ => None)
    answer (fun _ => FileAbsent) (fun _ => (no_result, None)) (fun _ => Durable) (fun _ => None)
    (fun _ => None) (fun _ => None) (fun _ => None).

Definition willing : World := world (fun _ _ => ("", true, None)).

Lemma world_durable answer : durable (world answer).
Proof. done. Qed.

(** The runner Begin starts, and what running it leaves. *)
Definition begun (w : World) (plan : Plan) (records : list JournalRecord) : res Runner :=
  Begin w a_spec plan (ground_of records).

Definition ran (w : World) (fuel : nat) (x : res Runner)
  : option (option CompletionEvent * option string * Runner) :=
  match x with Ok r => Run w fuel r | Err _ => None end.

Definition log_after (o : option (option CompletionEvent * option string * Runner)) : list JournalRecord :=
  match o with Some (_, _, r) => rn_log r | None => [] end.

Definition outcome_of (o : option (option CompletionEvent * option string * Runner)) : string :=
  match o with Some (Some e, _, _) => ce_Outcome e | _ => "" end.


(** A session from a journal, cut anywhere after it, is a step of a history. *)
Lemma session_history b w plan records fuel n :
  history b plan records -> (b = true -> durable w) -> is_Some (ran w fuel (begun w plan records)) ->
  (length records <= n)%nat ->
  history b plan (take n (log_after (ran w fuel (begun w plan records)))).
Proof.
  intros Hh Hd [[out r'] E] Hn. rewrite E. destruct out as [ev err]. simpl. unfold ran in E.
  destruct (begun w plan records) as [r|e] eqn:Eb; [|done].
  by eapply (history_session b plan w a_spec (ground_of records) fuel records false r (ev, err) r' n).
Qed.

Lemma history_empty b plan : history b plan [].
Proof. apply history_new; constructor. Qed.

(** * The packet runs to completion *)

Definition first_log : list JournalRecord := log_after (ran willing 200 (begun willing a_plan [])).

(** Killed when half its work is done, and started again. *)
Definition second_log : list JournalRecord :=
  log_after (ran willing 200 (begun willing a_plan (take 9 first_log))).

Example killed_and_resumed :
  marks "run-1" (take 9 first_log)
  = [(RecordFenceVerified, "edit"); (RecordTaskStarted, "edit"); (RecordTaskSucceeded, "edit");
     (RecordTaskStarted, "build")]
  /\ outcome_of (ran willing 200 (begun willing a_plan (take 9 first_log))) = RunCompleted.
Proof. split; vm_compute; reflexivity. Qed.

(** * The theorems of the run, applied *)

(** The runner of a granted start; a start that is refused has none, and the runner of
    the empty journal stands in. *)
Definition runner_of (x : res Runner) : Runner :=
  match x with
  | Ok r => r
  | Err _ => let report := Preflight (fun p => Some p) a_spec (Some a_plan) a_facts in
      fresh a_spec a_plan report a_lock (TakeFence (rt_Repo report) "" a_lock) []
  end.

Definition a_runner : Runner := runner_of (begun willing a_plan []).

Lemma a_runner_begun : Begin willing a_spec a_plan (ground_of []) = Ok a_runner.
Proof. vm_compute. reflexivity. Qed.

Lemma Run_returns_witness :
  exists ev err r', Run willing 92 a_runner = Some (ev, err, r')
  /\ match ev with
     | None => err <> None
     | Some _ => rn_stopReason r' = "" -> forall p t, task_at (rn_Queue r') p = Some t -> Terminal (qt_State t) = true
     end.
Proof.
  apply (Run_returns willing a_spec a_plan (ground_of []) a_runner 92).
  - exact a_runner_begun.
  - vm_compute. lia.
Defined.

Definition event_of (o : option (option CompletionEvent * option string * Runner)) : CompletionEvent :=
  match o with Some (Some e, _, _) => e | _ => finish a_runner end.
Definition left_by (o : option (option CompletionEvent * option string * Runner)) : Runner :=
  match o with Some (_, _, r) => r | None => a_runner end.

Definition reported (o : option (option CompletionEvent * option string * Runner)) : bool :=
  match o with Some (Some _, None, _) => true | _ => false end.

Lemma reported_run o : reported o = true -> o = Some (Some (event_of o), None, left_by o).
Proof. by destruct o as [[[[e|] [x|]] r]|]. Qed.

Lemma a_run_returns : Run willing 92 a_runner = Some (Some (event_of (Run willing 92 a_runner)), None, left_by (Run willing 92 a_runner)).
Proof. apply reported_run. vm_compute. reflexivity. Qed.

Lemma completed_exact_witness :
  ce_Outcome (event_of (Run willing 92 a_runner)) = RunCompleted
  <-> rn_stopReason (left_by (Run willing 92 a_runner)) = ""
      /\ (forall t, t ∈ pl_Tasks a_plan ->
          state_of (rn_Queue (left_by (Run willing 92 a_runner))) (tk_ID t) = Some TaskSucceeded)
      /\ (forall id, id ∈ RequiredGates (sp_QA a_spec) (pl_Risk a_plan) ->
           exists e, rn_Evidence (left_by (Run willing 92 a_runner)) !! id = Some e /\ ev_Result e = GatePass
                     /\ ev_TargetSHA e = fn_Head (rn_Fence (left_by (Run willing 92 a_runner)))
                     /\ blank (fn_Head (rn_Fence (left_by (Run willing 92 a_runner)))) = false).
Proof.
  exact (proj1 (completed_exact willing a_spec a_plan (ground_of []) a_runner 92 (event_of (Run willing 92 a_runner)) None
    (left_by (Run willing 92 a_runner)) a_runner_begun a_run_returns)).
Defined.

Lemma history_refines_protocol_witness :
  protocol true a_plan (marks "run-1" (take 200 second_log))
  /\ StronglySorted Z.lt (jr_Seq <$> take 200 second_log).
Proof.
  apply (history_refines_protocol true a_plan). apply session_history; [|intros _; apply world_durable|by vm_compute; eexists|vm_compute; lia].
  apply session_history; [apply history_empty|intros _; apply world_durable|by vm_compute; eexists|vm_compute; lia].
Defined.

Lemma restart_promises_witness :
  marks "run-1" (take 9 first_log) !! 1%nat = Some (RecordTaskStarted, "edit")
  /\ (exists i, 1%nat = S i /\ marks "run-1" (take 9 first_log) !! i = Some (RecordFenceVerified, "edit")).
Proof.
  split; [vm_compute; reflexivity|].
  refine (proj1 (proj2 (restart_promises true a_plan (take 9 first_log) _) eq_refl) 1%nat "edit" _ _).
  - apply session_history; [apply history_empty|intros _; apply world_durable|by vm_compute; eexists|vm_compute; lia].
  - vm_compute. reflexivity.
  - eexists. split; [left|]. split; reflexivity.
Defined.

(** * Behaviours the code does not intend *)

(** A task allowed one attempt, that always fails. *)
Definition once_plan : Plan := mkPlan "run-1" RiskQ0
  [a_task "once" BandPrimary [] false 1 "" 0 ""; a_task "docs" BandDocumentation [] false 1 "" 0 ""].

Definition failing : World := world (fun _ t => ("boom", negb (String.eqb (tk_ID t) "once"), None)).

Definition once_log (records : list JournalRecord) : list JournalRecord :=
  log_after (ran failing 200 (begun failing once_plan records)).

(** The attempts of a task are counted again after a restart but its failure is not, so a
    task with a budget of one attempt is attempted once more by every session. *)
Theorem retry_budget_not_durable :
  let log := take 200 (once_log (take 200 (once_log (take 200 (once_log []))))) in
  history true once_plan log
  /\ count_mark (RecordTaskStarted, "once") (marks "run-1" log) = 3
  /\ (tk_MaxAttempts <$> pl_Tasks once_plan !! 0%nat) = Some 1.
Proof.
  intros log. split; [|split; vm_compute; reflexivity].
  apply session_history; [|intros _; apply world_durable|vm_compute; by eexists|vm_compute; lia].
  apply session_history; [|intros _; apply world_durable|vm_compute; by eexists|vm_compute; lia].
  apply session_history; [apply history_empty|intros _; apply world_durable|vm_compute; by eexists|vm_compute; lia].
Qed.

(** The same world, in which one append is not written. *)
Definition forgetful (tick : nat) : World :=
  mkWorld (fun _ => None) (fun _ => inl (Some a_lock)) (fun _ => inl (repo_at "aaaa")) (fun _ => None)
    (fun _ _ => ("", true, None)) (fun _ => FileAbsent) (fun _ => (no_result, None))
    (fun n => if (n =? tick)%nat then NotWritten "no space left on device" else Durable) (fun _ => None)
    (fun _ => None) (fun _ => None) (fun _ => None).

Definition forgetful_run : option (option CompletionEvent * option string * Runner) :=
  ran (forgetful 13) 200 (begun (forgetful 13) a_plan []).

(** The record of a success is lost and the runner goes on, even to the task that needs it.
    Killed there and started again, the run executes the finished mutation a second time. *)
Theorem lost_success_runs_again :
  let log := take 200 (log_after (ran willing 200 (begun willing a_plan (take 8 (log_after forgetful_run))))) in
  history false a_plan log
  /\ state_of (rn_Queue (left_by forgetful_run)) "edit" = Some TaskSucceeded
  /\ take 5 (marks "run-1" log)
     = [(RecordFenceVerified, "edit"); (RecordTaskStarted, "edit"); (RecordTaskStarted, "build");
        (RecordFenceVerified, "edit"); (RecordTaskStarted, "edit")].
Proof.
  intros log. split; [|split; vm_compute; reflexivity].
  apply session_history; [|done|vm_compute; by eexists|vm_compute; lia].
  apply session_history; [apply history_empty|done|vm_compute; by eexists|vm_compute; lia].
Qed.

(** A boundary that appears after the task behind it succeeded: the task is restored as
    succeeded, while the one that needs it stays held on its account. *)
Definition guarded_plan : Plan := mkPlan "run-1" RiskQ0
  [mkTask "build" "" BandPrimary ["make"] "" [] ["credential.key"] false 60 1 "" 0 "" "" "" "";
   mkTask "test" "" BandValidation ["make"] "" ["build"] [] false 60 1 "" 0 "" "" "" ""].

Definition build_done : ResumeState := mkResume {["build"]} {["build" := 1]} ∅ ∅ ∅ false "" 3.

Theorem restore_leaves_stale_hold :
  let q := start_queue guarded_plan {["credential.key" := "a person provides the key"]} build_done in
  state_of q "build" = Some TaskSucceeded /\ state_of q "test" = Some TaskHeld /\ Next q = None.
Proof. split; [|split]; vm_compute; reflexivity. Qed.

(** A task that commits and asks to be driven again. *)
Definition loop_plan : Plan := mkPlan "run-1" RiskQ0
  [a_task "edit" BandPrimary [] true 2 "/state/edit.json" 5 "";
   a_task "docs" BandDocumentation [] false 1 "" 0 ""].

(** The commit lands while the task runs for the first time. *)
Definition committing (tick : nat) : World :=
  mkWorld (fun _ => None) (fun _ => inl (Some a_lock))
    (fun n => inl (repo_at (if (n <=? tick)%nat then "aaaa" else "bbbb")))
    (fun _ => None) (fun _ _ => ("", true, None)) (fun _ => FileData "continue")
    (fun _ => (mkResult StateContinue "" "" false "more to do" 3, None)) (fun _ => Durable) (fun _ => None)
    (fun _ => None) (fun _ => None) (fun _ => None).

(** A mutating task that commits and asks to be driven again ends the run as failed:
    its first drive is recorded as a resume, the fence check before the next one finds
    the task's own commit, and nothing is driven any more. *)
Theorem continued_mutation_stops_run :
  let o := ran (committing 12) 200 (begun (committing 12) loop_plan []) in
  marks "run-1" (log_after o)
  = [(RecordFenceVerified, "edit"); (RecordTaskStarted, "edit"); (RecordTaskResumed, "edit")]
  /\ outcome_of o = RunFailed
  /\ last (jr_Kind <$> log_after o) = Some RecordRunFinished
  /\ RecordFenceViolated ∈ jr_Kind <$> log_after o.
Proof.
  split; [vm_compute; reflexivity|]. split; [vm_compute; reflexivity|]. split; [vm_compute; reflexivity|].
  apply (bool_decide_unpack _). vm_compute. exact I.
Qed.

(** * The theorems of the parts, applied *)

Lemma propagateHolds_exact_witness :
  let q := mkQueue [mkQueued (a_task "a" BandPrimary [] false 1 "" 0 "") TaskFailed [] "" false 0;
                    mkQueued (a_task "b" BandPrimary ["a"] false 1 "" 0 "") TaskPending [] "" false 0]
             {["a" := 0%nat; "b" := 1%nat]} ∅ in
  exists r, task_at (propagateHolds q) 1
            = Some (held r (mkQueued (a_task "b" BandPrimary ["a"] false 1 "" 0 "") TaskPending [] "" false 0)).
Proof.
  intros q. destruct (propagateHolds_exact q 1 (mkQueued (a_task "b" BandPrimary ["a"] false 1 "" 0 "") TaskPending [] "" false 0)
    eq_refl) as [[[_ H]|[H _]] _]; [exact H|].
  destruct H. eapply (doomed_dead q 1 _ "a" 0); [reflexivity|reflexivity|left|reflexivity|reflexivity|reflexivity].
Defined.

Lemma fence_trail_witness :
  let f0 := TakeFence (repo_at "aaaa") "" a_lock in
  let ops := [OpAdvance "task edit mutated the worktree" (inl (Some a_lock)) (inl (repo_at "bbbb"))
                (inl (Some a_lock)) (inl (repo_at "bbbb"))] in
  fn_Head (fold_left fence_step ops f0) = "bbbb"
  /\ linked "aaaa" (fn_Advances (fold_left fence_step ops f0)) "bbbb".
Proof.
  intros f0 ops. split; [vm_compute; reflexivity|].
  exact (proj1 (proj2 (fence_trail f0 ops eq_refl))).
Defined.

Lemma readiness_exact_witness :
  ReadinessOf [OutcomePass; OutcomeFail] = ReadinessOf [OutcomeFail; OutcomePass].
Proof. apply (proj2 (proj2 (readiness_exact [OutcomePass; OutcomeFail]))). apply perm_swap. Defined.

Lemma preflight_guarantees_witness :
  ground_safe (fun p => Some p) (sp_Ownership a_spec) a_facts.
Proof.
  apply (preflight_guarantees (fun p => Some p) a_spec a_plan a_facts). vm_compute. reflexivity.
Defined.
