(* ===== verification/Projector.v ===== *)
(** The delivery projection (internal/projector): the consumer's task statuses and gates,
    the fold of execution events, blockers, deliverables and the rendered document.
    Times are nanoseconds since Go's zero time; a Go map of tasks is a finite map, and a
    loop over one takes the order of its keys as an argument. *)
From Stdlib Require Import Ascii.
From S2P Require Import Prelude GoStd.

(** * Schema *)

Definition StatusPlanned : string := "planned".
Definition StatusActive : string := "active".
Definition StatusAwaitingHuman : string := "awaiting-human-action".
Definition StatusBlocked : string := "blocked".
Definition StatusPROpen : string := "pr-open".
Definition StatusChecksPassing : string := "checks-passing".
Definition StatusPackagePrepared : string := "package-prepared".
Definition StatusTestsReviewPassed : string := "tests-review-passed".
Definition StatusMerged : string := "merged".
Definition StatusDeployedUAT : string := "deployed-uat".
Definition StatusAppliedUAT : string := "applied-uat".
Definition StatusVerified : string := "verified".
Definition StatusComplete : string := "complete".

Definition knownTaskStatuses : list string :=
  [ StatusPlanned; StatusActive; StatusAwaitingHuman; StatusBlocked; StatusPROpen; StatusChecksPassing;
    StatusPackagePrepared; StatusTestsReviewPassed; StatusMerged; StatusDeployedUAT; StatusAppliedUAT;
    StatusVerified; StatusComplete ].

Definition ErrUnknownStatus : error := errmsg "projector: status outside the canonical vocabulary" [].

Definition canonicalStatusList : list string := sort_Strings knownTaskStatuses.

Definition ValidateTaskStatus (s : string) : option error :=
  if negb (existsb (String.eqb s) knownTaskStatuses) then
    Some (Errorf "%w: %q (canonical: %s)" [s; join_with ", " canonicalStatusList] [ErrUnknownStatus])
  else None.

Definition GateMet : string := "met".
Definition GatePartiallyMet : string := "partially-met".
Definition GateNotMet : string := "not-met".

Record Attempt : Type := mkAttemptRow {
  ar_Date : Z; ar_Outcome : string; ar_Summary : string; ar_Evidence : string
}.

Record Blocker : Type := mkBlocker {
  bl_BlockerID : string; bl_Summary : string; bl_HumanBoundary : bool; bl_Evidence : string
}.

Record CompletedOutcome : Type := mkOutcome { co_Date : Z; co_Summary : string; co_Evidence : string }.

Record ProjectMeta : Type := mkMeta {
  pm_ProjectID : string; pm_Strategy : string; pm_AuthoritativeRef : string; pm_CurrentPhase : string;
  pm_CurrentMilestone : string; pm_OverallRag : string; pm_OverallRagReason : string;
  pm_LastUpdateTimestamp : Z; pm_LatestAcceptedMainSha : string
}.

(** * State *)

Record Task : Type := mkPTask {
  pt_TaskID : string; pt_Title : string; pt_Phase : string; pt_TaskType : string; pt_Status : string;
  pt_Priority : string; pt_OwnerType : string; pt_Branch : string; pt_PullRequest : Z;
  pt_Dependencies : list string; pt_ParallelGroup : string; pt_CriticalPath : bool;
  pt_ActualStart : Z; pt_ActualFinish : Z; pt_ImplementationSha : string; pt_CompletionGate : string;
  pt_CompletionGateStatus : string; pt_Evidence : list string; pt_Blocker : string;
  pt_NextPhysicalAction : string; pt_Attempts : list Attempt; pt_LastReviewed : Z; pt_lastStartSeq : Z
}.

Record DeliverableInvalidation : Type := mkInvalidation {
  di_Seq : Z; di_By : string; di_Reason : string; di_Evidence : string; di_At : string;
  di_PreviousState : string
}.

Record Deliverable : Type := mkDeliverable {
  dl_ID : string; dl_Statement : string; dl_SatisfiedBy : list string; dl_Met : bool;
  dl_AcceptedBy : string; dl_AcceptedAt : string; dl_Invalidated : option DeliverableInvalidation;
  dl_RemediatedBy : list string
}.

Record State : Type := mkState {
  st_Project : ProjectMeta;
  st_Tasks : gmap string Task;
  st_Deliverables : list Deliverable;
  st_CurrentBlockers : list Blocker;
  st_CompletedOutcomes : list CompletedOutcome
}.

Definition with_Tasks (ts : gmap string Task) (s : State) : State :=
  mkState (st_Project s) ts (st_Deliverables s) (st_CurrentBlockers s) (st_CompletedOutcomes s).

Definition NewState (projectID : string) : State :=
  mkState (mkMeta projectID "" "" "" "" "" "" 0 "") ∅ [] [] [].

Definition isTerminalStatus (s : string) : bool :=
  String.eqb s StatusMerged || String.eqb s StatusDeployedUAT || String.eqb s StatusAppliedUAT
  || String.eqb s StatusVerified || String.eqb s StatusComplete.

(** * Field updates of a task *)

Definition with_status (status : string) (t : Task) : Task :=
  mkPTask (pt_TaskID t) (pt_Title t) (pt_Phase t) (pt_TaskType t) status (pt_Priority t) (pt_OwnerType t)
    (pt_Branch t) (pt_PullRequest t) (pt_Dependencies t) (pt_ParallelGroup t) (pt_CriticalPath t)
    (pt_ActualStart t) (pt_ActualFinish t) (pt_ImplementationSha t) (pt_CompletionGate t)
    (pt_CompletionGateStatus t) (pt_Evidence t) (pt_Blocker t) (pt_NextPhysicalAction t) (pt_Attempts t)
    (pt_LastReviewed t) (pt_lastStartSeq t).

Definition with_gate (gate : string) (t : Task) : Task :=
  mkPTask (pt_TaskID t) (pt_Title t) (pt_Phase t) (pt_TaskType t) (pt_Status t) (pt_Priority t)
    (pt_OwnerType t) (pt_Branch t) (pt_PullRequest t) (pt_Dependencies t) (pt_ParallelGroup t)
    (pt_CriticalPath t) (pt_ActualStart t) (pt_ActualFinish t) (pt_ImplementationSha t)
    (pt_CompletionGate t) gate (pt_Evidence t) (pt_Blocker t) (pt_NextPhysicalAction t) (pt_Attempts t)
    (pt_LastReviewed t) (pt_lastStartSeq t).

Definition with_blocker (blocker action : string) (t : Task) : Task :=
  mkPTask (pt_TaskID t) (pt_Title t) (pt_Phase t) (pt_TaskType t) (pt_Status t) (pt_Priority t)
    (pt_OwnerType t) (pt_Branch t) (pt_PullRequest t) (pt_Dependencies t) (pt_ParallelGroup t)
    (pt_CriticalPath t) (pt_ActualStart t) (pt_ActualFinish t) (pt_ImplementationSha t)
    (pt_CompletionGate t) (pt_CompletionGateStatus t) (pt_Evidence t) blocker action (pt_Attempts t)
    (pt_LastReviewed t) (pt_lastStartSeq t).

Definition with_times (start finish : Z) (t : Task) : Task :=
  mkPTask (pt_TaskID t) (pt_Title t) (pt_Phase t) (pt_TaskType t) (pt_Status t) (pt_Priority t)
    (pt_OwnerType t) (pt_Branch t) (pt_PullRequest t) (pt_Dependencies t) (pt_ParallelGroup t)
    (pt_CriticalPath t) start finish (pt_ImplementationSha t)
    (pt_CompletionGate t) (pt_CompletionGateStatus t) (pt_Evidence t) (pt_Blocker t)
    (pt_NextPhysicalAction t) (pt_Attempts t) (pt_LastReviewed t) (pt_lastStartSeq t).

Definition with_attempts (attempts : list Attempt) (seq : Z) (t : Task) : Task :=
  mkPTask (pt_TaskID t) (pt_Title t) (pt_Phase t) (pt_TaskType t) (pt_Status t) (pt_Priority t)
    (pt_OwnerType t) (pt_Branch t) (pt_PullRequest t) (pt_Dependencies t) (pt_ParallelGroup t)
    (pt_CriticalPath t) (pt_ActualStart t) (pt_ActualFinish t) (pt_ImplementationSha t)
    (pt_CompletionGate t) (pt_CompletionGateStatus t) (pt_Evidence t) (pt_Blocker t)
    (pt_NextPhysicalAction t) attempts (pt_LastReviewed t) seq.

(** * Blockers *)

Definition blockersOf (s : State) (t : Task) : list string :=
  sort_Strings (List.filter (fun dep => match st_Tasks s !! dep with
                                        | Some d => negb (isTerminalStatus (pt_Status d))
                                        | None => true
                                        end) (pt_Dependencies t)).

(** The body of the loop for one task. *)
Definition recompute_task (outstanding : list string) (t : Task) : Task :=
  match outstanding with
  | _ :: _ =>
      let t := with_blocker ("waiting on " +:+ join_with ", " outstanding) (pt_NextPhysicalAction t) t in
      if String.eqb (pt_Status t) StatusPlanned then with_status StatusBlocked t else t
  | [] =>
      let t := if HasPrefix (pt_Blocker t) "waiting on " then with_blocker "" (pt_NextPhysicalAction t) t else t in
      if String.eqb (pt_Status t) StatusBlocked then with_status StatusPlanned t else t
  end.

Definition recompute_at (s : State) (id : string) : State :=
  match st_Tasks s !! id with
  | Some t => with_Tasks (<[id := recompute_task (blockersOf s t) t]> (st_Tasks s)) s
  | None => s
  end.

(** RecomputeBlockers, over the tasks in the order the iteration happens to take. *)
Definition RecomputeBlockers (order : list string) (s : State) : State := fold_left recompute_at order s.

(** * Events *)

Record Event : Type := mkPEvent {
  pe_Seq : Z; pe_Type : string; pe_Ts : Z; pe_Subject : string; pe_Actor : string
}.

Definition succeed_row (a : Attempt) : Attempt :=
  mkAttemptRow (ar_Date a) "succeeded" (ar_Summary a) (ar_Evidence a).

Definition markLastAttemptSucceeded (t : Task) : Task :=
  with_attempts (alter succeed_row (length (pt_Attempts t) - 1)%nat (pt_Attempts t)) (pt_lastStartSeq t) t.

(** The cases of the switch, on the task the event is about. *)
Definition apply_task (ev : Event) (t : Task) : Task :=
  if String.eqb (pe_Type ev) "work.started" then
    let t := if IsZero (pt_ActualStart t) then with_times (pe_Ts ev) (pt_ActualFinish t) t else t in
    let t := if String.eqb (pt_Status t) StatusPlanned || String.eqb (pt_Status t) StatusBlocked
             then with_status StatusActive t else t in
    if pt_lastStartSeq t <? pe_Seq ev then
      with_attempts (pt_Attempts t ++ [mkAttemptRow (pe_Ts ev) "failed"
                       "execution attempt observed on the event bus" ""]) (pe_Seq ev) t
    else t
  else if String.eqb (pe_Type ev) "work.finished" then
    let t := if IsZero (pt_ActualFinish t) then with_times (pt_ActualStart t) (pe_Ts ev) t else t in
    markLastAttemptSucceeded t
  else if String.eqb (pe_Type ev) "work.failed" then
    if IsZero (pt_ActualFinish t) then with_times (pt_ActualStart t) (pe_Ts ev) t else t
  else t.

Definition Apply (s : State) (ev : Event) : State :=
  if String.eqb (pe_Subject ev) "" then s
  else with_Tasks (alter (apply_task ev) (pe_Subject ev) (st_Tasks s)) s.

Definition SetTerminalFinish (s : State) (taskID : string) (closedAt : Z) : State :=
  if IsZero closedAt then s
  else with_Tasks (alter (fun t => markLastAttemptSucceeded (with_times (pt_ActualStart t) closedAt t))
                     taskID (st_Tasks s)) s.

Definition mapCityEventType (eventType payloadStatus : string) : option string :=
  if String.eqb eventType "bead.closed" then Some "work.finished"
  else if String.eqb eventType "bead.updated" then
    if String.eqb (TrimSpace payloadStatus) "in_progress" then Some "work.started" else None
  else None.

(** * Deliverables *)

Definition package_done (s : State) (pkg : string) : bool :=
  match st_Tasks s !! pkg with
  | Some t => isTerminalStatus (pt_Status t) && String.eqb (pt_CompletionGateStatus t) GateMet
  | None => false
  end.

Definition resolve (s : State) (d : Deliverable) : Deliverable :=
  let met :=
    if bool_decide (dl_SatisfiedBy d = []) && bool_decide (dl_RemediatedBy d = [])
    then negb (String.eqb (dl_AcceptedBy d) "")
    else
      let met := forallb (package_done s) (dl_SatisfiedBy d ++ dl_RemediatedBy d) in
      match dl_Invalidated d with
      | Some _ => if bool_decide (dl_RemediatedBy d = []) then false else met
      | None => met
      end in
  mkDeliverable (dl_ID d) (dl_Statement d) (dl_SatisfiedBy d) met (dl_AcceptedBy d) (dl_AcceptedAt d)
    (dl_Invalidated d) (dl_RemediatedBy d).

Definition resolveDeliverables (s : State) : State :=
  mkState (st_Project s) (st_Tasks s) (resolve s <$> st_Deliverables s) (st_CurrentBlockers s)
    (st_CompletedOutcomes s).

(** * The document *)

Definition SchemaVersion : Z := 1.

Definition dquote : string := bytes [34].

(** strings.ReplaceAll of a quote by an escaped one. *)
Fixpoint escape_quotes (v : string) : string :=
  match v with
  | EmptyString => ""
  | String c v' => if Ascii.eqb c (ascii_of_N 34) then String (ascii_of_N 92) (String c (escape_quotes v'))
                   else String c (escape_quotes v')
  end.

Definition yamlScalar (v : string) : string :=
  if String.eqb v "" then dquote +:+ dquote else dquote +:+ escape_quotes v +:+ dquote.

Definition yamlOpt (v : string) : string :=
  if String.eqb (TrimSpace v) "" then "null" else yamlScalar v.

Definition yamlOptInt (v : Z) : string := if v =? 0 then "null" else Itoa v.

Definition yamlBool (b : bool) : string := if b then "true" else "false".

Definition listIndent : string := "    ".

(** Fprintf of one line: a key and what it prints. *)
Definition field (indent key value : string) : string := indent +:+ key +:+ ": " +:+ value.

Definition writeList (key : string) (vals : list string) : list string :=
  match vals with
  | [] => [field listIndent key "[]"]
  | _ => (listIndent +:+ key +:+ ":") :: ((fun v => listIndent +:+ "  - " +:+ yamlScalar v) <$> sort_Strings vals)
  end.

Section render.
(** t.UTC().Format(time.RFC3339). *)
Context (rfc3339 : Z -> string).

Definition yamlOptTime (t : Z) : string := if IsZero t then "null" else dquote +:+ rfc3339 t +:+ dquote.

Definition render_header (p : ProjectMeta) : list string :=
  [ "# GENERATED BY THE DELIVERY ENGINE PROJECTOR - DO NOT EDIT.";
    "# Execution facts: Gas City event bus (starts) and bead store (terminal records).";
    "# Live PR/CI/merge state is read by the dashboard from GitHub, not from this file.";
    "# Hand edits are overwritten and are not a source of truth.";
    "schemaVersion: " +:+ Itoa SchemaVersion;
    "project:";
    field "  " "projectId" (yamlScalar (pm_ProjectID p));
    field "  " "strategy" (yamlScalar (pm_Strategy p));
    field "  " "authoritativeRef" (yamlOpt (pm_AuthoritativeRef p));
    field "  " "currentPhase" (yamlScalar (pm_CurrentPhase p));
    field "  " "currentMilestone" (yamlScalar (pm_CurrentMilestone p));
    field "  " "overallRag" (yamlScalar (pm_OverallRag p));
    field "  " "overallRagReason" (yamlScalar (pm_OverallRagReason p));
    field "  " "lastUpdateTimestamp" (yamlOptTime (pm_LastUpdateTimestamp p));
    field "  " "latestAcceptedMainSha" (yamlOpt (pm_LatestAcceptedMainSha p)) ].

Definition render_attempt (a : Attempt) : list string :=
  [ field "      - " "date" (yamlOptTime (ar_Date a));
    field "        " "outcome" (yamlScalar (ar_Outcome a));
    field "        " "summary" (yamlScalar (ar_Summary a));
    field "        " "evidence" (yamlOpt (ar_Evidence a)) ].

Definition render_task (t : Task) : list string :=
  let f := field listIndent in
  [ field "  - " "taskId" (yamlScalar (pt_TaskID t)); f "title" (yamlScalar (pt_Title t));
    f "phase" (yamlScalar (pt_Phase t)); f "taskType" (yamlScalar (pt_TaskType t));
    f "status" (yamlScalar (pt_Status t)); f "priority" (yamlScalar (pt_Priority t));
    f "ownerType" (yamlScalar (pt_OwnerType t)); f "branch" (yamlOpt (pt_Branch t));
    f "pullRequest" (yamlOptInt (pt_PullRequest t)) ]
  ++ writeList "dependencies" (pt_Dependencies t)
  ++ [ f "parallelGroup" (yamlOpt (pt_ParallelGroup t)); f "criticalPath" (yamlBool (pt_CriticalPath t));
       f "actualStart" (yamlOptTime (pt_ActualStart t)); f "actualFinish" (yamlOptTime (pt_ActualFinish t));
       f "implementationSha" (yamlOpt (pt_ImplementationSha t));
       f "completionGate" (yamlOpt (pt_CompletionGate t));
       f "completionGateStatus" (yamlScalar (pt_CompletionGateStatus t)) ]
  ++ writeList "evidence" (pt_Evidence t)
  ++ [ f "blocker" (yamlOpt (pt_Blocker t)); f "nextPhysicalAction" (yamlOpt (pt_NextPhysicalAction t));
       f "lastReviewed" (yamlOptTime (pt_LastReviewed t)) ]
  ++ match pt_Attempts t with
     | [] => [f "attempts" "[]"]
     | attempts => (listIndent +:+ "attempts:") :: (attempts ≫= render_attempt)
     end.

(** The loop over the sorted identifiers, which stops at a status outside the ladder. *)
Fixpoint render_tasks (s : State) (ids : list string) : res (list string) :=
  match ids with
  | [] => Ok []
  | id :: ids' =>
      match st_Tasks s !! id with
      | None => render_tasks s ids'
      | Some t =>
          match ValidateTaskStatus (pt_Status t) with
          | Some e => Err e
          | None => match render_tasks s ids' with
                    | Ok lines => Ok (render_task t ++ lines)
                    | Err e => Err e
                    end
          end
      end
  end.

Definition render_deliverable (d : Deliverable) : list string :=
  [ field "  - " "deliverableId" (yamlScalar (dl_ID d)); field listIndent "statement" (yamlScalar (dl_Statement d));
    field listIndent "met" (yamlBool (dl_Met d)) ]
  ++ (if String.eqb (dl_AcceptedBy d) "" then []
      else field listIndent "acceptedBy" (yamlScalar (dl_AcceptedBy d))
           :: (if String.eqb (dl_AcceptedAt d) "" then []
               else [field listIndent "acceptedAt" (yamlScalar (dl_AcceptedAt d))]))
  ++ writeList "satisfiedBy" (dl_SatisfiedBy d)
  ++ match dl_Invalidated d with
     | None => []
     | Some i =>
         [ "    invalidated:"; field "      " "seq" (Itoa (di_Seq i)); field "      " "by" (yamlScalar (di_By i));
           field "      " "reason" (yamlScalar (di_Reason i));
           field "      " "evidence" (yamlScalar (di_Evidence i)); field "      " "at" (yamlOpt (di_At i));
           field "      " "previousState" (yamlScalar (di_PreviousState i)) ]
         ++ writeList "remediatedBy" (dl_RemediatedBy d)
     end.

Definition render_blocker (b : Blocker) : list string :=
  [ field "  - " "blockerId" (yamlScalar (bl_BlockerID b)); field listIndent "summary" (yamlScalar (bl_Summary b));
    field listIndent "humanBoundary" (yamlBool (bl_HumanBoundary b));
    field listIndent "evidence" (yamlOpt (bl_Evidence b)) ].

Definition render_outcome (o : CompletedOutcome) : list string :=
  [ field "  - " "date" (yamlOptTime (co_Date o)); field listIndent "summary" (yamlScalar (co_Summary o));
    field listIndent "evidence" (yamlOpt (co_Evidence o)) ].

(** A section that is explicit when it is empty. *)
Definition section_of {A} (key : string) (f : A -> list string) (l : list A) : list string :=
  match l with [] => [key +:+ ": []"] | _ => (key +:+ ":") :: (l ≫= f) end.

(** Render; it resolves the deliverables of the state it is given. *)
Definition Render (s : State) : res string * State :=
  match render_tasks s (sort_Strings (elements (dom (st_Tasks s)))) with
  | Err e => (Err e, s)
  | Ok tasks =>
      let s' := resolveDeliverables s in
      let lines := render_header (st_Project s) ++ ["activeTasks:"] ++ tasks
        ++ section_of "deliverables" render_deliverable (st_Deliverables s')
        ++ section_of "currentBlockers" render_blocker (st_CurrentBlockers s')
        ++ ["deferredWork: []"]
        ++ section_of "recentCompletedOutcomes" render_outcome (st_CompletedOutcomes s') in
      (Ok (String.concat "" ((fun l => l +:+ bytes [10]) <$> lines)), s')
  end.

(** Project: the events past the cursor are folded in, the document is written, and only
    then the cursor moves.  The result is the document, the state and the cursor. *)
Definition Project (order : list string) (events : list Event) (s : State) (cursor : Z)
  : res (string * State * Z) :=
  let fresh := List.filter (fun ev => negb (pe_Seq ev <=? cursor)) events in
  let applied := fold_left (fun a ev => if a <? pe_Seq ev then pe_Seq ev else a) fresh cursor in
  let s := RecomputeBlockers order (fold_left Apply fresh s) in
  match Render s with
  | (Err e, _) => Err e
  | (Ok doc, s') => Ok (doc, s', applied)
  end.

End render.
