(* ===== verification/ProjectorProps.v ===== *)
(** The projection: blockers do not depend on the order of the iteration, replayed events
    change no fact, deliverables are met exactly by finished packages, and a rendered
    text reads back when it has no backslash. *)
From Stdlib Require Import Ascii.
From S2P Require Import Prelude GoStd Projector.

(** * Blockers in any order *)

(** Two states with the same finished tasks. *)
Definition same_terminal (s s' : State) : Prop :=
  forall id, (isTerminalStatus ∘ pt_Status <$> st_Tasks s' !! id) = (isTerminalStatus ∘ pt_Status <$> st_Tasks s !! id).

Lemma blockersOf_terminal s s' t : same_terminal s s' -> blockersOf s' t = blockersOf s t.
Proof.
  intros Hs. unfold blockersOf. f_equal. apply List.filter_ext. intros dep. specialize (Hs dep).
  destruct (st_Tasks s' !! dep), (st_Tasks s !! dep); simpl in Hs; try done. injection Hs as ->. done.
Qed.

Lemma recompute_task_terminal bs t :
  isTerminalStatus (pt_Status (recompute_task bs t)) = isTerminalStatus (pt_Status t).
Proof.
  assert (H1 : forall a b, pt_Status (with_blocker a b t) = pt_Status t) by done.
  unfold recompute_task. destruct bs as [|b bs].
  - destruct (HasPrefix (pt_Blocker t) "waiting on "); rewrite ?H1;
      (destruct (String.eqb_spec (pt_Status t) StatusBlocked) as [->|]; done).
  - rewrite H1. destruct (String.eqb_spec (pt_Status t) StatusPlanned) as [->|]; done.
Qed.

Lemma recompute_at_terminal s id : same_terminal s (recompute_at s id).
Proof.
  intros id'. unfold recompute_at. destruct (st_Tasks s !! id) as [t|] eqn:E; [|done]. simpl.
  destruct (decide (id = id')) as [->|Hne]; [rewrite lookup_insert_eq, E|by rewrite lookup_insert_ne].
  simpl. by rewrite recompute_task_terminal.
Qed.

Lemma recompute_fold order : forall s id,
  NoDup order ->
  st_Tasks (RecomputeBlockers order s) !! id
  = if bool_decide (id ∈ order) then (fun t => recompute_task (blockersOf s t) t) <$> st_Tasks s !! id
    else st_Tasks s !! id.
Proof.
  unfold RecomputeBlockers. induction order as [|x order IH]; intros s id Hn; simpl; [done|].
  apply NoDup_cons in Hn as [Hx Hn]. rewrite IH by done.
  assert (Hlook : st_Tasks (recompute_at s x) !! id
    = if decide (x = id) then (fun t => recompute_task (blockersOf s t) t) <$> st_Tasks s !! id else st_Tasks s !! id).
  { unfold recompute_at. case_decide as E.
    - subst. destruct (st_Tasks s !! id) as [t|] eqn:E; simpl; [by rewrite lookup_insert_eq|by rewrite E].
    - destruct (st_Tasks s !! x) as [t|]; [|done]. simpl. by rewrite lookup_insert_ne. }
  rewrite Hlook. case_decide as E.
  - subst. rewrite bool_decide_eq_false_2 by done. rewrite bool_decide_eq_true_2 by left. done.
  - assert (Hb : bool_decide (id ∈ x :: order) = bool_decide (id ∈ order)).
    { apply bool_decide_ext. rewrite elem_of_cons. intuition congruence. }
    rewrite Hb. destruct (bool_decide (id ∈ order)); [|done]. destruct (st_Tasks s !! id) as [t|]; [|done]. simpl.
    by rewrite (blockersOf_terminal s _ t (recompute_at_terminal s x)).
Qed.

(** * Events replayed *)

(** A task less the outcomes of its attempts. *)
Definition bare_row (a : Attempt) : Attempt := mkAttemptRow (ar_Date a) "" (ar_Summary a) (ar_Evidence a).
Definition bare (t : Task) : Task := with_attempts (bare_row <$> pt_Attempts t) (pt_lastStartSeq t) t.
Definition bare_state (s : State) : State := with_Tasks (bare <$> st_Tasks s) s.

(** The task already shows what the event says. *)
Definition settled (ev : Event) (t : Task) : Prop :=
  (pe_Type ev = "work.started" ->
     (pt_ActualStart t <> 0 \/ pe_Ts ev = 0)
     /\ pt_Status t <> StatusPlanned /\ pt_Status t <> StatusBlocked /\ pe_Seq ev <= pt_lastStartSeq t)
  /\ (pe_Type ev = "work.finished" \/ pe_Type ev = "work.failed" ->
      pt_ActualFinish t <> 0 \/ pe_Ts ev = 0).

(** What an event never takes back. *)
Record grows (t t' : Task) : Prop := {
  gw_start : pt_ActualStart t <> 0 -> pt_ActualStart t' = pt_ActualStart t;
  gw_finish : pt_ActualFinish t <> 0 -> pt_ActualFinish t' = pt_ActualFinish t;
  gw_status : pt_Status t' = pt_Status t \/ pt_Status t' = StatusActive;
  gw_seq : pt_lastStartSeq t <= pt_lastStartSeq t'
}.

#[export] Instance grows_preorder : PreOrder grows.
Proof.
  split; [split; [done|done|by left|lia]|]. intros t1 t2 t3 [A1 A2 A3 A4] [B1 B2 B3 B4]. split.
  - intros H. rewrite B1; [auto|]. by rewrite A1.
  - intros H. rewrite B2; [auto|]. by rewrite A2.
  - destruct B3 as [->|]; auto.
  - lia.
Qed.

Lemma grows_times t a b :
  (pt_ActualStart t <> 0 -> a = pt_ActualStart t) -> (pt_ActualFinish t <> 0 -> b = pt_ActualFinish t) ->
  grows t (with_times a b t).
Proof. intros Ha Hb. split; simpl; [done|done|by left|lia]. Qed.

Lemma apply_grows ev t : grows t (apply_task ev t).
Proof.
  unfold apply_task. destruct (String.eqb (pe_Type ev) "work.started").
  - set (t1 := if IsZero _ then _ else _). assert (H1 : grows t t1).
    { unfold t1, IsZero. destruct (Z.eqb_spec (pt_ActualStart t) 0); [by apply grows_times|done]. }
    etrans; [exact H1|]. clear H1. clearbody t1. set (t2 := if _ || _ then _ else t1). assert (H2 : grows t1 t2).
    { unfold t2. destruct (_ || _); [|done]. split; simpl; [done|done|by right|lia]. }
    etrans; [exact H2|]. destruct (Z.ltb_spec (pt_lastStartSeq t2) (pe_Seq ev)); [|done].
    split; simpl; [done|done|by left|lia].
  - assert (Hfin : grows t (if IsZero (pt_ActualFinish t) then with_times (pt_ActualStart t) (pe_Ts ev) t else t)).
    { unfold IsZero. destruct (Z.eqb_spec (pt_ActualFinish t) 0); [by apply grows_times|done]. }
    destruct (String.eqb (pe_Type ev) "work.finished"); [|by destruct (String.eqb _ "work.failed")].
    etrans; [exact Hfin|]. unfold markLastAttemptSucceeded. split; simpl; [done|done|by left|lia].
Qed.

Lemma settled_grows ev t t' : grows t t' -> settled ev t -> settled ev t'.
Proof.
  intros [G1 G2 G3 G4] [H1 H2]. split.
  - intros E. destruct (H1 E) as (Hs & Hp & Hb & Hq). split; [destruct Hs as [Hs|]; [left; rewrite G1|right]; done|].
    split; [|split; [|lia]]; destruct G3 as [->| ->]; done.
  - intros E. destruct (H2 E) as [Hs|]; [left; by rewrite G2|by right].
Qed.

Lemma apply_settles ev t : settled ev (apply_task ev t).
Proof.
  split; intros E.
  - unfold apply_task. rewrite E, String.eqb_refl.
    set (t1 := if IsZero _ then _ else _).
    assert (H1 : pt_ActualStart t1 <> 0 \/ pe_Ts ev = 0).
    { unfold t1, IsZero. destruct (Z.eqb_spec (pt_ActualStart t) 0); simpl; [|by left].
      destruct (decide (pe_Ts ev = 0)); auto. }
    clearbody t1. set (t2 := if _ || _ then _ else t1).
    assert (H2 : pt_ActualStart t2 = pt_ActualStart t1 /\ pt_Status t2 <> StatusPlanned /\ pt_Status t2 <> StatusBlocked).
    { unfold t2. destruct (String.eqb_spec (pt_Status t1) StatusPlanned), (String.eqb_spec (pt_Status t1) StatusBlocked); done. }
    clearbody t2. destruct H2 as (Hs & Hp & Hb). rewrite <- Hs in H1.
    destruct (Z.ltb_spec (pt_lastStartSeq t2) (pe_Seq ev)); simpl; repeat split; (done || lia).
  - unfold apply_task. set (t1 := if IsZero (pt_ActualFinish t) then _ else _).
    assert (H1 : pt_ActualFinish t1 <> 0 \/ pe_Ts ev = 0).
    { unfold t1, IsZero. destruct (Z.eqb_spec (pt_ActualFinish t) 0); simpl; [|by left].
      destruct (decide (pe_Ts ev = 0)); auto. }
    clearbody t1. destruct E as [->| ->]; simpl; done.
Qed.

Lemma with_times_same t a b : a = pt_ActualStart t -> b = pt_ActualFinish t -> with_times a b t = t.
Proof. intros -> ->. by destruct t. Qed.

Lemma bare_succeeds t : bare (markLastAttemptSucceeded t) = bare t.
Proof.
  unfold bare, markLastAttemptSucceeded. simpl. unfold with_attempts. simpl. f_equal. apply list_eq. intros i.
  rewrite !list_lookup_fmap. destruct (decide ((length (pt_Attempts t) - 1)%nat = i)) as [->|E].
  - rewrite list_lookup_alter_eq. by destruct (pt_Attempts t !! i).
  - by rewrite list_lookup_alter_ne.
Qed.

Lemma settled_bare ev t : settled ev t -> bare (apply_task ev t) = bare t.
Proof.
  intros [H1 H2]. unfold apply_task. destruct (String.eqb_spec (pe_Type ev) "work.started") as [E|_].
  - destruct (H1 E) as (Hs & Hp & Hb & Hq).
    assert (Et : (if IsZero (pt_ActualStart t) then with_times (pe_Ts ev) (pt_ActualFinish t) t else t) = t).
    { unfold IsZero. destruct (Z.eqb_spec (pt_ActualStart t) 0); [|done]. apply with_times_same; [|done].
      destruct Hs; congruence. }
    rewrite Et. apply String.eqb_neq in Hp, Hb. rewrite Hp, Hb. simpl.
    destruct (Z.ltb_spec (pt_lastStartSeq t) (pe_Seq ev)); [lia|done].
  - assert (Et : pe_Type ev = "work.finished" \/ pe_Type ev = "work.failed" ->
      (if IsZero (pt_ActualFinish t) then with_times (pt_ActualStart t) (pe_Ts ev) t else t) = t).
    { intros E. unfold IsZero. destruct (Z.eqb_spec (pt_ActualFinish t) 0); [|done]. apply with_times_same; [done|].
      destruct (H2 E); congruence. }
    destruct (String.eqb_spec (pe_Type ev) "work.finished"); [rewrite Et by auto; apply bare_succeeds|].
    destruct (String.eqb_spec (pe_Type ev) "work.failed"); [by rewrite Et by auto|done].
Qed.

(** The event is in the state: the task it names, if there is one, shows it. *)
Definition shows (s : State) (ev : Event) : Prop :=
  pe_Subject ev = "" \/ forall t, st_Tasks s !! pe_Subject ev = Some t -> settled ev t.

Lemma Apply_shows s ev : shows (Apply s ev) ev.
Proof.
  unfold shows, Apply. destruct (String.eqb_spec (pe_Subject ev) ""); [by left|right]. simpl. intros t.
  rewrite lookup_alter_eq. destruct (st_Tasks s !! pe_Subject ev) as [u|]; simpl; [|done].
  intros [= <-]. apply apply_settles.
Qed.

Lemma Apply_keeps s ev ev' : shows s ev -> shows (Apply s ev') ev.
Proof.
  intros [?|Hs]; [by left|right]. unfold Apply. destruct (String.eqb (pe_Subject ev') ""); [done|]. simpl.
  intros t. destruct (decide (pe_Subject ev' = pe_Subject ev)) as [->|Hne].
  - rewrite lookup_alter_eq. destruct (st_Tasks s !! pe_Subject ev) as [u|]; simpl; [|done].
    intros [= <-]. eapply settled_grows; [apply apply_grows|auto].
  - rewrite lookup_alter_ne by done. auto.
Qed.

Lemma shows_all events : forall s ev, ev ∈ events \/ shows s ev -> shows (fold_left Apply events s) ev.
Proof.
  induction events as [|x events IH]; intros s ev Hin; simpl; [by destruct Hin as [?%elem_of_nil|]|].
  apply IH. destruct Hin as [[->|?]%elem_of_cons|?]; [right; apply Apply_shows|by left|right; by apply Apply_keeps].
Qed.

Lemma shows_bare s ev : shows s ev -> bare_state (Apply s ev) = bare_state s.
Proof.
  intros Hs. unfold Apply. destruct (String.eqb_spec (pe_Subject ev) "") as [|Hne]; [done|].
  destruct Hs as [|Hs]; [done|]. unfold bare_state, with_Tasks. simpl. f_equal. apply map_eq. intros id.
  rewrite !lookup_fmap. destruct (decide (pe_Subject ev = id)) as [<-|E].
  - rewrite lookup_alter_eq. destruct (st_Tasks s !! pe_Subject ev) as [t|]; simpl; [|done]. f_equal.
    by apply settled_bare, Hs.
  - by rewrite lookup_alter_ne.
Qed.

(** * Scalars *)

(** A YAML double-quoted scalar at the front of a text: its value and what follows it.
    A backslash escapes a quote or a backslash; the other escapes are not needed. *)
Fixpoint read_quoted (s : string) : option (string * string) :=
  match s with
  | EmptyString => None
  | String c s' =>
      if Ascii.eqb c (ascii_of_N 34) then Some ("", s')
      else if Ascii.eqb c (ascii_of_N 92) then
        match s' with
        | String d s'' => if Ascii.eqb d (ascii_of_N 34) || Ascii.eqb d (ascii_of_N 92)
                          then (fun '(v, r) => (String d v, r)) <$> read_quoted s'' else None
        | EmptyString => None
        end
      else (fun '(v, r) => (String c v, r)) <$> read_quoted s'
  end.

Definition read_scalar (s : string) : option (string * string) :=
  match strip_prefix dquote s with Some r => read_quoted r | None => None end.

Definition no_backslash (v : string) : bool := all_bytes (fun c => negb (Ascii.eqb c (ascii_of_N 92))) v.

Lemma read_quoted_escaped v rest :
  no_backslash v = true -> read_quoted (escape_quotes v +:+ dquote +:+ rest) = Some (v, rest).
Proof.
  induction v as [|c v IH]; intros Hb; [done|]. unfold no_backslash in Hb. cbn [all_bytes] in Hb.
  apply andb_prop in Hb as [Hc Hb]. specialize (IH Hb). cbn [escape_quotes].
  destruct (Ascii.eqb_spec c (ascii_of_N 34)) as [->|Hq].
  - rewrite !string_app_cons. change (read_quoted (String (ascii_of_N 92) (String (ascii_of_N 34) (escape_quotes v +:+ dquote +:+ rest))))
      with ((fun '(x, r) => (String (ascii_of_N 34) x, r)) <$> read_quoted (escape_quotes v +:+ dquote +:+ rest)).
    by rewrite IH.
  - rewrite string_app_cons. cbn [read_quoted]. apply Ascii.eqb_neq in Hq. rewrite Hq.
    apply negb_true_iff in Hc. rewrite Hc, IH. done.
Qed.

(** * Theorems *)

(** The blockers of a projection do not depend on the order in which its tasks are
    visited: whatever order the iteration takes, every task gets the blocker and status
    its dependencies had at the start, and no task becomes or stops being finished. *)
Theorem RecomputeBlockers_any_order s order :
  order ≡ₚ elements (dom (st_Tasks s)) ->
  st_Tasks (RecomputeBlockers order s) = (fun t => recompute_task (blockersOf s t) t) <$> st_Tasks s
  /\ same_terminal s (RecomputeBlockers order s).
Proof.
  intros Ho. assert (Hn : NoDup order) by (rewrite Ho; apply NoDup_elements).
  assert (Ht : st_Tasks (RecomputeBlockers order s) = (fun t => recompute_task (blockersOf s t) t) <$> st_Tasks s).
  { apply map_eq. intros id. rewrite recompute_fold, lookup_fmap by done. case_bool_decide as Hin; [done|].
    rewrite Ho, elem_of_elements, not_elem_of_dom in Hin. by rewrite Hin. }
  split; [done|]. intros id. rewrite Ht, lookup_fmap. destruct (st_Tasks s !! id) as [t|]; [|done]. simpl.
  by rewrite recompute_task_terminal.
Qed.

(** Replay changes no fact: once a log has been folded into a projection, folding any
    of its events in again, in any order and any number of times, changes nothing but
    the outcomes of attempts. *)
Theorem replay_changes_no_fact events again s :
  Forall (fun ev => ev ∈ events) again ->
  bare_state (fold_left Apply again (fold_left Apply events s)) = bare_state (fold_left Apply events s).
Proof.
  intros Hag. assert (Hs : Forall (shows (fold_left Apply events s)) again).
  { eapply Forall_impl; [exact Hag|]. intros ev Hev. apply shows_all. by left. }
  clear Hag. revert Hs. generalize (fold_left Apply events s). intros s0 Hs. revert s0 Hs.
  induction again as [|ev again IH]; intros s0 Hs; [done|]. apply Forall_cons in Hs as [Hev Hs]. simpl.
  rewrite IH; [by apply shows_bare|]. eapply Forall_impl; [exact Hs|]. intros x Hx. by apply Apply_keeps.
Qed.

(** A text without a backslash survives the document: reading the scalar rendered for
    it gives the text back, and leaves exactly what follows it. *)
Theorem yamlScalar_roundtrip v rest :
  no_backslash v = true -> read_scalar (yamlScalar v +:+ rest) = Some (v, rest).
Proof.
  intros Hb. unfold yamlScalar, read_scalar. destruct (String.eqb_spec v "") as [->|_]; [done|].
  rewrite <- !string_app_assoc.
  assert (Hs : forall x, strip_prefix dquote (dquote +:+ x) = Some x) by done. rewrite Hs. by apply read_quoted_escaped.
Qed.

(** A deliverable is met exactly when a person accepted one no package claims, or
    every package that claims or repairs it is finished with its gate met and, if it was
    disproved, some package repairs it. *)
Theorem deliverable_met_exact s d :
  dl_Met (resolve s d) = true
  <-> (dl_SatisfiedBy d = [] /\ dl_RemediatedBy d = [] /\ dl_AcceptedBy d <> "")
      \/ (dl_SatisfiedBy d ++ dl_RemediatedBy d <> []
          /\ (forall pkg, pkg ∈ dl_SatisfiedBy d ++ dl_RemediatedBy d -> exists t, st_Tasks s !! pkg = Some t
              /\ isTerminalStatus (pt_Status t) = true /\ pt_CompletionGateStatus t = GateMet)
          /\ (dl_Invalidated d <> None -> dl_RemediatedBy d <> [])).
Proof.
  assert (Hall : forallb (package_done s) (dl_SatisfiedBy d ++ dl_RemediatedBy d) = true
    <-> forall pkg, pkg ∈ dl_SatisfiedBy d ++ dl_RemediatedBy d -> exists t, st_Tasks s !! pkg = Some t
        /\ isTerminalStatus (pt_Status t) = true /\ pt_CompletionGateStatus t = GateMet).
  { rewrite forallb_forall. setoid_rewrite list_elem_of_In. apply forall_proper. intros pkg.
    unfold package_done. destruct (st_Tasks s !! pkg) as [t|]; [|by split; [intros Hf Hin; specialize (Hf Hin)|intros Hf Hin; destruct (Hf Hin) as (? & ? & _)]].
    rewrite andb_true_iff, String.eqb_eq. split; [intros Hf Hin; exists t; auto|].
    intros Hf Hin. destruct (Hf Hin) as (t' & [= <-] & ?). done. }
  unfold resolve. cbn [dl_Met]. rewrite <- Hall. clear Hall.
  destruct (dl_SatisfiedBy d) as [|a l], (dl_RemediatedBy d) as [|b l'], (dl_Invalidated d) as [i|]; simpl;
    rewrite ?negb_true_iff, ?String.eqb_neq; intuition (congruence || eauto).
Qed.

(** * Behaviours the code does not intend *)

Definition a_row (status : string) : Task :=
  mkPTask "W1" "" "" "code" status "" "agent" "" 0 [] "" false 0 0 "" "" GateNotMet [] "" "" [] 0 0.

Definition a_state : State := with_Tasks {["W1" := a_row StatusPlanned]} (NewState "p").

Definition a_log : list Event :=
  [mkPEvent 1 "work.started" 10 "W1" ""; mkPEvent 2 "work.finished" 20 "W1" ""; mkPEvent 3 "work.started" 30 "W1" ""].

Definition outcomes (s : State) : list string :=
  match st_Tasks s !! "W1" with Some t => ar_Outcome <$> pt_Attempts t | None => [] end.

(** Replaying a log whose last attempt is still running marks that attempt succeeded. *)
Theorem replay_flips_an_outcome :
  outcomes (fold_left Apply a_log a_state) = ["succeeded"; "failed"]
  /\ outcomes (fold_left Apply a_log (fold_left Apply a_log a_state)) = ["succeeded"; "succeeded"].
Proof. split; vm_compute; reflexivity. Qed.

(** A text with a backslash before a quote ends its scalar early. *)
Theorem yamlScalar_escapes :
  let v := bytes [97; 92; 34] +:+ ", injected" in
  read_scalar (yamlScalar v) = Some (bytes [97; 92], ", injected" +:+ dquote).
Proof. vm_compute. reflexivity. Qed.

(** A second projection from the same plan and the saved cursor has lost the facts the
    first one had. *)
Theorem projection_forgets :
  let started (x : res (string * State * Z)) :=
    match x with Ok (_, s, _) => pt_ActualStart <$> st_Tasks s !! "W1" | Err _ => None end in
  let cursor (x : res (string * State * Z)) := match x with Ok (_, _, c) => c | Err _ => 0 end in
  let first := Project (fun _ => "") ["W1"] a_log a_state 0 in
  started first = Some 10
  /\ started (Project (fun _ => "") ["W1"] a_log a_state (cursor first)) = Some 0.
Proof. split; vm_compute; reflexivity. Qed.

(** * Witnesses *)

Lemma RecomputeBlockers_any_order_witness :
  st_Tasks (RecomputeBlockers ["W1"] a_state)
  = (fun t => recompute_task (blockersOf a_state t) t) <$> st_Tasks a_state.
Proof. apply (RecomputeBlockers_any_order a_state ["W1"]). vm_compute. reflexivity. Defined.

Lemma replay_changes_no_fact_witness :
  bare_state (fold_left Apply [mkPEvent 2 "work.finished" 20 "W1" ""] (fold_left Apply a_log a_state))
  = bare_state (fold_left Apply a_log a_state).
Proof.
  apply (replay_changes_no_fact a_log [mkPEvent 2 "work.finished" 20 "W1" ""]).
  constructor; [|constructor]. right. left.
Defined.

Lemma yamlScalar_roundtrip_witness :
  read_scalar (yamlScalar ("say " +:+ dquote +:+ "hi" +:+ dquote) +:+ " # end")
  = Some ("say " +:+ dquote +:+ "hi" +:+ dquote, " # end").
Proof. apply (yamlScalar_roundtrip ("say " +:+ dquote +:+ "hi" +:+ dquote) " # end"). vm_compute. reflexivity. Defined.
