(* ===== verification/RunPublish.v ===== *)
(** Publication (internal/unattended/publish.go): the queue of a run rendered as the
    consumer's delivery projection, with the progression decision as a ceiling on what
    it may claim.  The clock readings of an attempt, which the queue of the model does
    not keep, are functions of the task and the number of the attempt. *)
From S2P Require Import Prelude GoStd Projector ProjectorProps.
From S2P Require Import RunFailure RunQA RunPlan RunJournal RunQueue RunFence RunSpec.

Definition JournalName : string := "run-journal.jsonl".

Definition stateDirPath (stateDir name : string) : string := filepath_Join [stateDir; name].

Definition terminalDeliveryStatuses : list string :=
  [StatusMerged; StatusDeployedUAT; StatusAppliedUAT; StatusVerified; StatusComplete].

Definition terminal_delivery (status : string) : bool := existsb (String.eqb status) terminalDeliveryStatuses.

Section publish.
Context (started_at : string -> Z -> Z) (duration : string -> Z -> string)
  (parse_duration : string -> option Z).

(** One row of the attempt history. *)
Definition attempt_row (id : string) (a : TaskAttempt) : Attempt :=
  let outcome := if at_Succeeded a then "succeeded" else "failed" in
  let summary := if String.eqb (at_Reason a) ""
    then "attempt " +:+ Itoa (at_Number a) +:+ " " +:+ outcome +:+ " in " +:+ duration id (at_Number a)
    else at_Reason a in
  mkAttemptRow (started_at id (at_Number a)) outcome summary "".

(** The first attempt with a date. *)
Definition actual_start (id : string) (attempts : list TaskAttempt) : Z :=
  match List.find (fun a => negb (IsZero (started_at id (at_Number a)))) attempts with
  | Some a => started_at id (at_Number a)
  | None => 0
  end.

Definition actual_finish (qt : QueuedTask) : Z :=
  match qt_State qt, last (qt_Attempts qt) with
  | TaskSucceeded, Some a =>
      let id := tk_ID (qt_Task qt) in
      match parse_duration (duration id (at_Number a)) with
      | Some d => if IsZero (started_at id (at_Number a)) then 0 else started_at id (at_Number a) + d
      | None => 0
      end
  | _, _ => 0
  end.

Definition projectTask (qt : QueuedTask) (declared : string) (fence : option Fence) : Projector.Task :=
  let t := qt_Task qt in
  let '(status, gate, blocker, action) :=
    match qt_State qt with
    | TaskSucceeded => (declared, GateMet, "", "")
    | TaskHeld => (StatusAwaitingHuman, GateNotMet, qt_HeldReason qt, qt_HeldReason qt)
    | TaskFailed => (StatusBlocked, GateNotMet,
        match last (qt_Attempts qt) with Some a => at_Reason a | None => "" end, "")
    | TaskPending => (StatusPlanned, GateNotMet, "", "")
    end in
  let gate := if String.eqb (tk_CompletionGate t) "" then GateNotMet else gate in
  mkPTask (tk_ID t) (tk_Title t) (tk_Phase t) "code" status "" "agent"
    (match fence with Some f => fn_Branch f | None => "" end) 0 (tk_Needs t) "" false
    (actual_start (tk_ID t) (qt_Attempts qt)) (actual_finish qt)
    (match fence with Some f => fn_Head f | None => "" end)
    (tk_CompletionGate t) gate [] blocker action
    (attempt_row (tk_ID t) <$> qt_Attempts qt) 0 0.

(** The body of the loop of applyProgressionCeiling, once progression is refused. *)
Definition lower_claim (reason : string) (t : Projector.Task) : Projector.Task :=
  let t := if String.eqb (pt_CompletionGateStatus t) GateMet then with_gate GateNotMet t else t in
  if negb (terminal_delivery (pt_Status t)) then t
  else
    with_blocker reason (if String.eqb (pt_NextPhysicalAction t) "" then reason else pt_NextPhysicalAction t)
      (with_status StatusBlocked t).

Definition applyProgressionCeiling (qa : ProgressionDecision) (s : State) : State :=
  if pd_Allowed qa then s
  else with_Tasks (lower_claim ("the packet may not progress: " +:+ decision_Reason qa) <$> st_Tasks s) s.

(** The first loop: the tasks that declare a delivery status, an unknown one refused. *)
Fixpoint project_tasks (fence : option Fence) (qts : list QueuedTask) (m : gmap string Projector.Task)
  : res (gmap string Projector.Task) :=
  match qts with
  | [] => Ok m
  | qt :: qts' =>
      let t := qt_Task qt in
      if String.eqb (tk_DeliveryStatus t) "" then project_tasks fence qts' m
      else
        match ValidateTaskStatus (tk_DeliveryStatus t) with
        | Some e => Err (Errorf "task %q: %w" [tk_ID t] [e])
        | None => project_tasks fence qts' (<[tk_ID t := projectTask qt (tk_DeliveryStatus t) fence]> m)
        end
  end.

Definition held_blockers (stateDir : string) (qts : list QueuedTask) : list Blocker :=
  qts ≫= fun qt =>
    if negb (bool_decide (qt_State qt = TaskHeld)) || String.eqb (qt_HeldReason qt) "" then []
    else [mkBlocker (tk_ID (qt_Task qt)) (qt_HeldReason qt) true (stateDirPath stateDir JournalName)].

(** The state PublishDelivery renders; the iterations over its tasks take the given order. *)
Definition delivery_state (order : list string) (spec : Spec) (q : Queue) (fence : option Fence)
    (qa : ProgressionDecision) (now : Z) : res State :=
  match project_tasks fence (q_tasks q) ∅ with
  | Err e => Err e
  | Ok tasks =>
      let meta := mkMeta (sp_ProjectID spec) "" (os_ExpectedOrigin (sp_Ownership spec)) "" "" "" "" now
                    (match fence with Some f => fn_Head f | None => "" end) in
      let s := mkState meta tasks [] (held_blockers (sp_StateDir spec) (q_tasks q)) [] in
      Ok (applyProgressionCeiling qa (RecomputeBlockers order s))
  end.

(** PublishDelivery, up to writing the document to the publish path. *)
Definition PublishDelivery (rfc3339 : Z -> string) (order : list string) (spec : Spec) (q : Queue)
    (fence : option Fence) (qa : ProgressionDecision) (now : Z) : res string :=
  match delivery_state order spec q fence qa now with
  | Err e => Err e
  | Ok s => match (Render rfc3339 s).1 with
            | Err e => Err (Errorf "rendering delivery projection: %w" [] [e])
            | Ok doc => Ok doc
            end
  end.

(** * What a projection may claim *)

(** A row of the projection, before dependencies and gates have their say, is the row of
    a task of the queue. *)
Lemma project_tasks_rows fence qts : forall m m' id row,
  project_tasks fence qts m = Ok m' -> m' !! id = Some row ->
  m !! id = Some row
  \/ exists qt, qt ∈ qts /\ tk_ID (qt_Task qt) = id /\ tk_DeliveryStatus (qt_Task qt) <> ""
     /\ row = projectTask qt (tk_DeliveryStatus (qt_Task qt)) fence.
Proof.
  induction qts as [|qt qts IH]; intros m m' id row; simpl; [intros [= ->]; auto|].
  assert (Hstep : forall m1, project_tasks fence qts m1 = Ok m' -> m' !! id = Some row ->
    m1 !! id = Some row \/ exists qt', qt' ∈ qt :: qts /\ tk_ID (qt_Task qt') = id
      /\ tk_DeliveryStatus (qt_Task qt') <> "" /\ row = projectTask qt' (tk_DeliveryStatus (qt_Task qt')) fence).
  { intros m1 H1 H2. destruct (IH m1 m' id row H1 H2) as [?|(qt' & ? & ?)]; [by left|right].
    exists qt'. split; [by right|done]. }
  destruct (String.eqb_spec (tk_DeliveryStatus (qt_Task qt)) "") as [|Hne]; [apply Hstep|].
  destruct (ValidateTaskStatus _); [done|]. intros H1 H2. destruct (Hstep _ H1 H2) as [Hl|?]; [|by right].
  destruct (decide (tk_ID (qt_Task qt) = id)) as [E|E].
  - rewrite E, lookup_insert_eq in Hl. injection Hl as <-. right. exists qt. split; [left|done].
  - left. by rewrite lookup_insert_ne in Hl.
Qed.

Lemma terminal_delivery_spec status : terminal_delivery status = isTerminalStatus status.
Proof. unfold terminal_delivery, isTerminalStatus. simpl. by rewrite orb_false_r, !orb_assoc. Qed.

Lemma lower_claim_spec reason t :
  isTerminalStatus (pt_Status (lower_claim reason t)) = false
  /\ pt_CompletionGateStatus (lower_claim reason t) <> GateMet.
Proof.
  unfold lower_claim. set (t1 := if String.eqb _ GateMet then _ else t).
  assert (H1 : pt_CompletionGateStatus t1 <> GateMet).
  { unfold t1. by destruct (String.eqb_spec (pt_CompletionGateStatus t) GateMet). }
  clearbody t1. rewrite terminal_delivery_spec. destruct (isTerminalStatus (pt_Status t1)) eqn:E; simpl; done.
Qed.

Lemma recompute_keeps bs t :
  pt_CompletionGateStatus (recompute_task bs t) = pt_CompletionGateStatus t
  /\ pt_CompletionGate (recompute_task bs t) = pt_CompletionGate t
  /\ (isTerminalStatus (pt_Status t) = true -> pt_Status (recompute_task bs t) = pt_Status t).
Proof.
  unfold recompute_task. destruct bs as [|b bs].
  - destruct (HasPrefix (pt_Blocker t) "waiting on "); simpl;
      destruct (String.eqb_spec (pt_Status t) StatusBlocked) as [->|]; done.
  - simpl. destruct (String.eqb_spec (pt_Status t) StatusPlanned) as [->|]; done.
Qed.

(** A row claims completion when its status is finished or its gate met. *)
Definition claims (t : Projector.Task) : Prop :=
  isTerminalStatus (pt_Status t) = true \/ pt_CompletionGateStatus t = GateMet.

Lemma projectTask_claims qt declared fence :
  claims (projectTask qt declared fence) ->
  qt_State qt = TaskSucceeded
  /\ (isTerminalStatus (pt_Status (projectTask qt declared fence)) = true ->
      pt_Status (projectTask qt declared fence) = declared)
  /\ (pt_CompletionGateStatus (projectTask qt declared fence) = GateMet -> tk_CompletionGate (qt_Task qt) <> "").
Proof.
  unfold claims, projectTask. destruct (qt_State qt); cbn [pt_Status pt_CompletionGateStatus];
    destruct (String.eqb_spec (tk_CompletionGate (qt_Task qt)) ""); intros [Hc|Hc]; done.
Qed.

(** (C14) A delivery projection never overclaims: whatever order its tasks are visited in, a
    row with a finished status or a met completion gate belongs to a task of the queue
    that succeeded and declares that status, in a packet whose gates allow progression;
    a met gate is one the task declares.  A refused packet has no such row. *)
Theorem delivery_never_overclaims order spec q fence qa now s id row :
  order ≡ₚ elements (dom (default ∅ (match project_tasks fence (q_tasks q) ∅ with Ok m => Some m | Err _ => None end))) ->
  delivery_state order spec q fence qa now = Ok s -> st_Tasks s !! id = Some row -> claims row ->
  pd_Allowed qa = true
  /\ exists qt, qt ∈ q_tasks q /\ tk_ID (qt_Task qt) = id /\ qt_State qt = TaskSucceeded
     /\ (isTerminalStatus (pt_Status row) = true -> pt_Status row = tk_DeliveryStatus (qt_Task qt))
     /\ (pt_CompletionGateStatus row = GateMet -> tk_CompletionGate (qt_Task qt) <> "").
Proof.
  intros Ho. unfold delivery_state. destruct (project_tasks fence (q_tasks q) ∅) as [tasks|e] eqn:Ep; [|done].
  simpl in Ho. set (s0 := mkState _ _ _ _ _). intros [= <-].
  destruct (RecomputeBlockers_any_order s0 order Ho) as [Ht _]. unfold applyProgressionCeiling.
  destruct (pd_Allowed qa).
  - rewrite Ht, lookup_fmap. destruct (st_Tasks s0 !! id) as [r0|] eqn:Er; [|done]. simpl. intros [= <-] Hc.
    split; [done|]. destruct (recompute_keeps (blockersOf s0 r0) r0) as (Hg & _ & Hs).
    assert (Hterm := recompute_task_terminal (blockersOf s0 r0) r0). unfold claims in Hc. rewrite Hterm, Hg in Hc.
    destruct (project_tasks_rows _ _ _ _ _ _ Ep Er) as [?|(qt & Hin & Hid & _ & ->)]; [done|].
    destruct (projectTask_claims _ _ _ Hc) as (Hst & Hd & Hgate). exists qt. split; [done|]. split; [done|]. split; [done|].
    rewrite Hterm, Hg. split; [|done]. intros Htt. rewrite Hs by done. auto.
  - simpl. rewrite lookup_fmap. destruct (st_Tasks (RecomputeBlockers order s0) !! id) as [r|]; [|done]. simpl.
    intros [= <-] [Hc|Hc]; destruct (lower_claim_spec ("the packet may not progress: " +:+ decision_Reason qa) r);
      [congruence|done].
Qed.

End publish.

(** * A packet *)

Definition p_task (id : string) (needs : list string) (status gate : string) : RunPlan.Task :=
  mkTask id id "primary" ["make"] "" needs [] false 60 1 "" 0 status gate "" "".

Definition p_spec : Spec :=
  mkSpec "proj" (mkOwnership "proj" "/w" "" "main" RoleWriter "s1" false)
    [] [] [] [] [] [] None [] (mkQAPolicy []) "/state" "" [].

Definition p_queue (tasks : list QueuedTask) : Queue := mkQueue tasks ∅ ∅.

Definition p_done (t : RunPlan.Task) : QueuedTask := mkQueued t TaskSucceeded [mkAttempt 1 true "" "" ""] "" false 0.
Definition p_failed (t : RunPlan.Task) : QueuedTask :=
  mkQueued t TaskFailed [mkAttempt 1 false "deterministic" "exit status 1" ""] "" false 0.

Definition p_allowed : ProgressionDecision := mkDecision true "Q1" "aaaa" [] [] [].

Definition p_state (order : list string) (tasks : list QueuedTask) : res State :=
  delivery_state (fun _ n => n) (fun _ _ => "1s") (fun _ => Some 1) order p_spec (p_queue tasks) None p_allowed 9.

Definition p_row (id : string) (s : res State) : option (string * string) :=
  match s with Ok s => (fun t => (pt_Status t, pt_Blocker t)) <$> st_Tasks s !! id | Err _ => None end.

Definition p_shipped : State :=
  match p_state ["ship"] [p_done (p_task "ship" [] StatusMerged "green")] with Ok s => s | Err _ => NewState "" end.

Definition p_shipped_row : Projector.Task := default (a_row "") (st_Tasks p_shipped !! "ship").

Lemma delivery_never_overclaims_witness :
  isTerminalStatus (pt_Status p_shipped_row) = true
  /\ exists qt, qt ∈ [p_done (p_task "ship" [] StatusMerged "green")] /\ qt_State qt = TaskSucceeded.
Proof.
  split; [vm_compute; reflexivity|].
  destruct (delivery_never_overclaims (fun _ n => n) (fun _ _ => "1s") (fun _ => Some 1) ["ship"] p_spec
    (p_queue [p_done (p_task "ship" [] StatusMerged "green")]) None p_allowed 9 p_shipped "ship" p_shipped_row)
    as (_ & qt & Hin & _ & Hst & _).
  - vm_compute. reflexivity.
  - vm_compute. reflexivity.
  - vm_compute. reflexivity.
  - left. vm_compute. reflexivity.
  - exists qt. split; [exact Hin|exact Hst].
Defined.

(** A failed task is projected as blocked by its failure, but with no dependency
    outstanding the recomputation of blockers makes it planned again: the document shows
    work not yet begun, with the failure beside it as its blocker. *)
Theorem failed_projected_planned :
  pt_Status (projectTask (fun _ n => n) (fun _ _ => "1s") (fun _ => Some 1) (p_failed (p_task "ship" [] StatusMerged "")) StatusMerged None)
    = StatusBlocked
  /\ p_row "ship" (p_state ["ship"] [p_failed (p_task "ship" [] StatusMerged "")]) = Some (StatusPlanned, "exit status 1").
Proof. split; vm_compute; reflexivity. Qed.

(** Only tasks that declare a delivery status are projected, and a dependency that is not
    projected counts as outstanding: a finished task that needed a finished but
    undeclared one says it is waiting for it. *)
Theorem unprojected_dependency_blocks :
  p_row "ship" (p_state ["ship"] [p_done (p_task "lint" [] "" ""); p_done (p_task "ship" ["lint"] StatusMerged "")])
  = Some (StatusMerged, "waiting on lint").
Proof. vm_compute. reflexivity. Qed.
