(* ===== verification/RunLock.v ===== *)
(** The writer lock (internal/unattended/lock.go): sessions that share one lock directory,
    each at a point of Acquire, Release, ProbeOwner or ForceClearOwner, and the steps
    between those points in any interleaving, with failures and deaths anywhere.  The
    operating system's lock is the set of sessions that hold the file locked, dropped
    when a session dies; a session's handle is its own, so a probe conflicts with every
    holder.  The sessions are those of one host, as the file lock only reaches them; an
    owner elsewhere is the record it left.  writeFileAtomic removes the old file before
    it renames the new one into place, so a replacement is two steps. *)
From S2P Require Import Prelude GoStd RunQA RunFence RunSpec.

Definition ErrWriterHeld : error := errmsg "unattended: the worktree already has a live owner" [].
Definition ErrForeignWriter : error :=
  errmsg "unattended: the worktree records an owner on another host or OS whose liveness this process cannot verify" [].
Definition ErrInvalidRole : error := errmsg "unattended: owner must declare a valid role" [].

(** Where a session is. *)
Inductive pc : Type :=
| Out (err : option error)              (* outside, with the result of the last call *)
| Locked (o : Owner)                    (* Acquire, the file lock taken *)
| Archiving (o prev : Owner)            (* Acquire, about to archive the displaced owner *)
| Rearchiving (o prev : Owner)          (* Acquire, the former archive removed *)
| Writing (o : Owner)                   (* Acquire, about to write the owner record *)
| Replacing (o : Owner)                 (* Acquire, the former record removed *)
| Holding (o : Owner)                   (* Acquire returned the lock *)
| Removing (o : Owner)                  (* Release, the record read and found to be its own *)
| Unlocking (o : Owner)                 (* Release, about to unlock *)
| Probing                               (* ProbeOwner, between its lock and unlock *)
| Clearing (prev : Owner)               (* ForceClearOwner, the record read *)
| Reclearing (prev : Owner)             (* ForceClearOwner, the former archive removed *)
| Cleared.                              (* ForceClearOwner, the record archived *)

(** The lock a session has on the file: exclusive or shared. *)
Definition holds (c : pc) : option bool :=
  match c with
  | Out _ | Clearing _ | Reclearing _ | Cleared => None
  | Probing => Some true
  | Locked o | Archiving o _ | Rearchiving o _ | Writing o | Replacing o | Holding o | Removing o | Unlocking o =>
      Some (Exclusive (ow_Role o))
  end.

(** The directory and the sessions.  [ls_cleared] remembers whether the record was cleared
    by hand since it was last written. *)
Record LockState : Type := mkLockState {
  ls_pc : nat -> pc;
  ls_owner : OwnerRead;
  ls_archive : option Owner;
  ls_cleared : bool
}.

Definition moved (p : nat) (c : pc) (f : nat -> pc) : nat -> pc := fun q => if decide (p = q) then c else f q.

Definition goto (p : nat) (c : pc) (s : LockState) : LockState :=
  mkLockState (moved p c (ls_pc s)) (ls_owner s) (ls_archive s) (ls_cleared s).

Definition set_archive (o : option Owner) (s : LockState) : LockState :=
  mkLockState (ls_pc s) (ls_owner s) o (ls_cleared s).

Definition set_owner (o : OwnerRead) (cleared : bool) (s : LockState) : LockState :=
  mkLockState (ls_pc s) o (ls_archive s) cleared.

(** tryLockFile: an exclusive lock needs the file free, a shared one no exclusive holder. *)
Definition can_lock (s : LockState) (exclusive : bool) : Prop :=
  forall q, match holds (ls_pc s q) with
            | None => True
            | Some held => exclusive = false /\ held = false
            end.

Section lock.
(** The process of a session, its host and its operating system. *)
Context (pid : nat -> Z) (hostname goos : string).

Definition isForeign (prev : Owner) : bool :=
  if String.eqb (ow_Host prev) "" && String.eqb (ow_OSFamily prev) "" then false
  else if negb (String.eqb (ow_OSFamily prev) "") && negb (String.eqb (ow_OSFamily prev) goos) then true
  else negb (String.eqb (ow_Host prev) "") && negb (String.eqb (ow_Host prev) hostname).

Definition undisplaced (o : Owner) : Owner :=
  mkOwner (ow_RunID o) (ow_ProjectID o) (ow_Session o) (ow_Worktree o) (ow_Role o) (ow_PID o) (ow_Host o)
    (ow_OSFamily o) None.

(** The record of the session p for the declared owner o. *)
Definition record_of (p : nat) (o : Owner) (prev : option Owner) : Owner :=
  mkOwner (ow_RunID o) (ow_ProjectID o) (ow_Session o) (ow_Worktree o) (ow_Role o) (pid p) hostname goos
    (match prev with Some d => Some (undisplaced d) | None => ow_Displaced o end).

Definition names (cur o : Owner) : bool :=
  String.eqb (ow_RunID cur) (ow_RunID o) && (ow_PID cur =? ow_PID o).

(** Acquire. *)
Inductive acquire_step (p : nat) (s : LockState) : LockState -> Prop :=
| s_invalid r o : ls_pc s p = Out r -> role_Valid (ow_Role o) = false ->
    acquire_step p s (goto p (Out (Some (Errorf "%w: got %q" [ow_Role o] [ErrInvalidRole]))) s)
| s_denied r o e : ls_pc s p = Out r -> role_Valid (ow_Role o) = true ->
    ~ can_lock s (Exclusive (ow_Role o)) -> acquire_step p s (goto p (Out (Some (Errorf e [] [ErrWriterHeld]))) s)
| s_lock r o : ls_pc s p = Out r -> role_Valid (ow_Role o) = true -> can_lock s (Exclusive (ow_Role o)) ->
    acquire_step p s (goto p (Locked o) s)
| s_unreadable o e : ls_pc s p = Locked o -> ls_owner s = inr e ->
    acquire_step p s (goto p (Out (Some (errmsg e []))) s)
| s_foreign o prev e : ls_pc s p = Locked o -> ls_owner s = inl (Some prev) ->
    Exclusive (ow_Role o) = true -> isForeign prev = true ->
    acquire_step p s (goto p (Out (Some (Errorf e [] [ErrForeignWriter]))) s)
| s_unclaimed o : ls_pc s p = Locked o -> ls_owner s = inl None ->
    acquire_step p s (goto p (Writing (record_of p o None)) s)
| s_displace o prev : ls_pc s p = Locked o -> ls_owner s = inl (Some prev) ->
    Exclusive (ow_Role o) && isForeign prev = false ->
    acquire_step p s (goto p (Archiving (record_of p o (Some prev)) prev) s)
| s_archive o prev : ls_pc s p = Archiving o prev -> acquire_step p s (goto p (Rearchiving o prev) (set_archive None s))
| s_archived o prev : ls_pc s p = Rearchiving o prev -> acquire_step p s (goto p (Writing o) (set_archive (Some prev) s))
| s_write o : ls_pc s p = Writing o ->
    acquire_step p s (goto p (Replacing o) (set_owner (inl None) (ls_cleared s) s))
| s_written o : ls_pc s p = Replacing o ->
    acquire_step p s (goto p (Holding o) (set_owner (inl (Some o)) false s)).

(** Release. *)
Inductive release_step (p : nat) (s : LockState) : LockState -> Prop :=
| s_superseded o : ls_pc s p = Holding o ->
    match ls_owner s with inl (Some cur) => names cur o = false | _ => True end ->
    release_step p s (goto p (Unlocking o) s)
| s_named o cur : ls_pc s p = Holding o -> ls_owner s = inl (Some cur) -> names cur o = true ->
    release_step p s (goto p (Removing o) s)
| s_remove o : ls_pc s p = Removing o -> release_step p s (goto p (Unlocking o) (set_owner (inl None) (ls_cleared s) s))
| s_unlock o : ls_pc s p = Unlocking o -> release_step p s (goto p (Out None) s).

(** ProbeOwner; the file lock is taken and dropped again. *)
Inductive probe_step (p : nat) (s : LockState) : LockState -> Prop :=
| s_probe r : ls_pc s p = Out r -> can_lock s true -> probe_step p s (goto p Probing s)
| s_probe_live r : ls_pc s p = Out r -> ~ can_lock s true -> probe_step p s (goto p (Out None) s)
| s_probed : ls_pc s p = Probing -> probe_step p s (goto p (Out None) s).

(** ForceClearOwner; it takes no lock. *)
Inductive clear_step (p : nat) (s : LockState) : LockState -> Prop :=
| s_clear_nothing r reason actor : ls_pc s p = Out r -> reason <> "" -> actor <> "" ->
    ls_owner s = inl None -> clear_step p s (goto p (Out None) s)
| s_clear r reason actor prev : ls_pc s p = Out r -> reason <> "" -> actor <> "" ->
    ls_owner s = inl (Some prev) -> clear_step p s (goto p (Clearing prev) s)
| s_cleared prev : ls_pc s p = Clearing prev -> clear_step p s (goto p (Reclearing prev) (set_archive None s))
| s_recleared prev : ls_pc s p = Reclearing prev -> clear_step p s (goto p Cleared (set_archive (Some prev) s))
| s_clear_remove : ls_pc s p = Cleared -> clear_step p s (goto p (Out None) (set_owner (inl None) true s)).

(** A step of one session: of the call it is in, or an error of the file system or the
    death of its process, which drop the lock. *)
Inductive lstep (p : nat) (s : LockState) : LockState -> Prop :=
| in_acquire s' : acquire_step p s s' -> lstep p s s'
| in_release s' : release_step p s s' -> lstep p s s'
| in_probe s' : probe_step p s s' -> lstep p s s'
| in_clear s' : clear_step p s s' -> lstep p s s'
| fails e : lstep p s (goto p (Out (Some e)) s).

Definition any_step (s s' : LockState) : Prop := exists p, lstep p s s'.

(** Nobody there yet; the record may be anything an earlier machine left. *)
Definition initial (s : LockState) : Prop := forall p, ls_pc s p = Out None.

Definition reachable (s : LockState) : Prop := exists s0, initial s0 /\ rtc any_step s0 s.

(** * Invariants *)

Record lock_ok (s : LockState) : Prop := {
  lk_exclusive : forall p q, p <> q -> holds (ls_pc s p) = Some true -> holds (ls_pc s q) = None;
  lk_evidence : forall p o, ls_pc s p = Holding o -> Exclusive (ow_Role o) = true ->
                ls_owner s = inl (Some o) \/ ls_cleared s = true
}.

Lemma moved_eq p c f : moved p c f p = c.
Proof. unfold moved. by case_decide. Qed.

Lemma moved_ne p q c f : p <> q -> moved p c f q = f q.
Proof. intros ?. unfold moved. by case_decide. Qed.

(** A session that moves without taking a lock or touching the record. *)
Lemma ok_goto p c s :
  lock_ok s -> (holds c = None \/ holds c = holds (ls_pc s p)) -> (forall o, c <> Holding o) -> lock_ok (goto p c s).
Proof.
  intros [He Hv] Hc Hn. split; simpl.
  - intros a b Hab Ha. destruct (decide (p = a)) as [->|Hpa].
    + rewrite moved_eq in Ha. rewrite moved_ne by done.
      destruct Hc as [Hc|Hc]; [congruence|]. rewrite Hc in Ha. by apply (He a).
    + rewrite moved_ne in Ha by done. destruct (decide (p = b)) as [->|Hpb].
      * rewrite moved_eq. destruct Hc as [| ->]; [done|]. by apply (He a).
      * rewrite moved_ne by done. by apply (He a).
  - intros a o Ha. destruct (decide (p = a)) as [->|Hpa].
    + rewrite moved_eq in Ha. by apply Hn in Ha.
    + rewrite moved_ne in Ha by done. apply (Hv a o Ha).
Qed.

(** A session that takes the lock where it may. *)
Lemma ok_lock p c s excl :
  lock_ok s -> can_lock s excl -> holds (ls_pc s p) = None -> holds c = Some excl -> (forall o, c <> Holding o) ->
  lock_ok (goto p c s).
Proof.
  intros [He Hv] Hcan Hout Hc Hn. split; simpl.
  - intros a b Hab Ha. destruct (decide (p = a)) as [->|Hpa].
    + rewrite moved_eq in Ha. rewrite moved_ne by done. assert (excl = true) as -> by congruence.
      specialize (Hcan b). destruct (holds (ls_pc s b)); [by destruct Hcan|done].
    + rewrite moved_ne in Ha by done. exfalso. specialize (Hcan a). rewrite Ha in Hcan. by destruct Hcan.
  - intros a o Ha. destruct (decide (p = a)) as [->|Hpa].
    + rewrite moved_eq in Ha. by apply Hn in Ha.
    + rewrite moved_ne in Ha by done. apply (Hv a o Ha).
Qed.

(** A session with the lock that writes the record, or removes it: no exclusive holder
    but itself can be watching. *)
Lemma ok_record p c s rec cleared excl :
  lock_ok s -> holds (ls_pc s p) = Some excl -> holds c = Some excl ->
  (forall o, c = Holding o -> rec = inl (Some o)) -> lock_ok (goto p c (set_owner rec cleared s)).
Proof.
  intros [He Hv] Hp Hc Hrec. split; simpl.
  - intros a b Hab Ha. destruct (decide (p = a)) as [->|Hpa].
    + rewrite moved_eq in Ha. rewrite moved_ne by done. apply (He a); congruence.
    + rewrite moved_ne in Ha by done. exfalso. assert (H := He a p (not_eq_sym Hpa) Ha). congruence.
  - intros a o Ha Hex. left. destruct (decide (p = a)) as [->|Hpa].
    + rewrite moved_eq in Ha. by apply Hrec.
    + rewrite moved_ne in Ha by done. exfalso.
      assert (Hh : holds (ls_pc s a) = Some true) by (by rewrite Ha; simpl; rewrite Hex).
      assert (H := He a p (not_eq_sym Hpa) Hh). congruence.
Qed.

Lemma ok_archive s o : lock_ok s -> lock_ok (set_archive o s).
Proof. intros [He Hv]. by split. Qed.

Lemma ok_cleared s : lock_ok s -> lock_ok (set_owner (inl None) true s).
Proof. intros [He Hv]. split; simpl; auto. Qed.

(** The steps that neither take the lock nor write the record as its holder. *)
Ltac quiet Hp := apply ok_goto; [by auto using ok_archive, ok_cleared|solve [simpl; rewrite ?Hp; auto]|done].

Lemma acquire_ok p s s' : lock_ok s -> acquire_step p s s' -> lock_ok s'.
Proof.
  intros Hok Hs. destruct Hs as [r o Hp|r o e Hp|r o Hp Hr Hl|o e Hp|o prev e Hp|o Hp|o prev Hp|o prev Hp|o prev Hp
    |o Hp|o Hp]; try (quiet Hp); try (apply (ok_record _ _ _ _ _ (Exclusive (ow_Role o)));
    [done|by rewrite Hp|done|by intros ? [= ->]]).
  by apply (ok_lock _ _ _ (Exclusive (ow_Role o))); [| |rewrite Hp| |].
Qed.

Lemma release_ok p s s' : lock_ok s -> release_step p s s' -> lock_ok s'.
Proof.
  intros Hok Hs. destruct Hs as [o Hp|o cur Hp|o Hp|o Hp]; try (quiet Hp).
  by apply (ok_record _ _ _ _ _ (Exclusive (ow_Role o))); [|rewrite Hp| |].
Qed.

Lemma step_ok p s s' : lock_ok s -> lstep p s s' -> lock_ok s'.
Proof.
  intros Hok Hs. destruct Hs as [s' Hs|s' Hs|s' Hs|s' Hs|e];
    [by eapply acquire_ok|by eapply release_ok| | |by apply ok_goto; [|left|]].
  - destruct Hs as [r Hp Hl|r Hp|Hp]; try (quiet Hp). by apply (ok_lock _ _ _ true); [| |rewrite Hp| |].
  - destruct Hs as [r reason actor Hp|r reason actor prev Hp|prev Hp|prev Hp|Hp]; quiet Hp.
Qed.

Lemma reachable_ok s : reachable s -> lock_ok s.
Proof.
  intros (s0 & H0 & Hr). assert (Hok : lock_ok s0).
  { split; intros p; rewrite H0; done. }
  clear H0. revert Hok. induction Hr as [|s1 s2 s3 [p Hs] _ IH]; [done|]. intros Hok. apply IH. by eapply step_ok.
Qed.

(** (C16) The writer is alone and on record: in every interleaving of sessions that acquire,
    release, probe, clear, fail and die, a session with the exclusive lock is the only
    one with any lock; and while it holds the lock the record names it, so its fence
    finds the lock its own, unless the record was cleared by hand. *)
Theorem writer_exclusive s p o repo dir :
  reachable s -> ls_pc s p = Holding o -> Exclusive (ow_Role o) = true ->
  (forall q, q <> p -> holds (ls_pc s q) = None)
  /\ (ls_cleared s = false ->
      ls_owner s = inl (Some o) /\ owned (TakeFence repo dir o) (ls_owner s) = true).
Proof.
  intros [He Hv]%reachable_ok Hp Hex. split.
  - intros q Hq. apply (He p q (not_eq_sym Hq)). by rewrite Hp; simpl; rewrite Hex.
  - intros Hc. destruct (Hv p o Hp Hex) as [->|]; [|congruence]. split; [done|]. simpl.
    by rewrite String.eqb_refl, Z.eqb_refl.
Qed.

End lock.

(** * Traces *)

Definition a_owner (run role host : string) : Owner := mkOwner run "p" "s" "/w" role 7 host "linux" None.

Definition empty_lock (rec : OwnerRead) : LockState := mkLockState (fun _ => Out None) rec None false.

Definition a_pid (p : nat) : Z := Z.of_nat p + 7.

(** One step of the session p by the given rule, its premises evaluated. *)
Ltac solve_can_lock := intros ?; cbn; unfold moved; repeat case_decide; cbn; auto.
Ltac by_rule p rule :=
  eapply rtc_l; [exists p; first [eapply in_acquire; eapply rule | eapply in_release; eapply rule]; first [reflexivity | discriminate | solve_can_lock]|].

(** One writer, from an empty directory to the held lock. *)
Lemma writer_holds :
  let w := a_owner "run-1" "writer" "h" in
  exists s, reachable a_pid "h" "linux" s /\ ls_pc s 0%nat = Holding (record_of a_pid "h" "linux" 0 w None)
    /\ ls_cleared s = false.
Proof.
  intros w. eexists. split; [exists (empty_lock (inl None)); split; [done|]|].
  - by_rule 0%nat (s_lock a_pid "h" "linux" 0 (empty_lock (inl None)) None w). by_rule 0%nat s_unclaimed.
    by_rule 0%nat s_write. by_rule 0%nat s_written. apply rtc_refl.
  - done.
Defined.

Lemma writer_exclusive_witness :
  exists s p o, reachable a_pid "h" "linux" s /\ ls_pc s p = Holding o
    /\ forall q, q <> p -> holds (ls_pc s q) = None.
Proof.
  destruct writer_holds as (s & Hr & Hp & Hc). exists s, 0%nat, (record_of a_pid "h" "linux" 0 (a_owner "run-1" "writer" "h") None).
  split; [exact Hr|]. split; [exact Hp|].
  exact (proj1 (writer_exclusive a_pid "h" "linux" s 0 _ (mkRepoState "" "" "" "" "" false "" "" [] "" []) "" Hr Hp eq_refl)).
Defined.

(** Two read-only sessions share the lock, and Release reads the record before it removes
    it: the first session can find its own record, lose it to the second, and remove the
    second's, which never released and which no one cleared. *)
Theorem shared_release_deletes_successor :
  let a := a_owner "run-A" "read-only" "h" in
  let b := a_owner "run-B" "read-only" "h" in
  exists s b', reachable a_pid "h" "linux" s /\ ls_pc s 1%nat = Holding b' /\ ow_RunID b' = "run-B"
    /\ ls_owner s = inl None /\ ls_cleared s = false.
Proof.
  intros a b. eexists _, _. split; [exists (empty_lock (inl None)); split; [done|]|].
  - by_rule 0%nat (s_lock a_pid "h" "linux" 0 (empty_lock (inl None)) None a). by_rule 0%nat s_unclaimed.
    by_rule 0%nat s_write. by_rule 0%nat s_written. by_rule 0%nat s_named.
    by_rule 1%nat (fun s => s_lock a_pid "h" "linux" 1 s None b). by_rule 1%nat s_displace. by_rule 1%nat s_archive.
    by_rule 1%nat s_archived. by_rule 1%nat s_write. by_rule 1%nat s_written. by_rule 0%nat s_remove. apply rtc_refl.
  - done.
Qed.

(** A record from another host refuses every writer; but a read-only session displaces
    it, and once that session is gone a writer acquires, though the foreign owner was
    never cleared. *)
Theorem read_only_launders_foreign :
  let foreign := a_owner "run-F" "writer" "other" in
  let audit := a_owner "run-A" "read-only" "h" in
  let w := a_owner "run-W" "writer" "h" in
  let s0 := empty_lock (inl (Some foreign)) in
  (forall s', lstep a_pid "h" "linux" 1 (goto 1 (Locked w) s0) s' -> exists e, ls_pc s' 1%nat = Out (Some e))
  /\ exists s w', rtc (any_step a_pid "h" "linux") s0 s /\ ls_pc s 1%nat = Holding w' /\ ow_RunID w' = "run-W"
       /\ ls_cleared s = false.
Proof.
  intros foreign audit w s0. split.
  - intros s' Hs. inversion Hs as [? H|? H|? H|? H|]; [inversion H..|]; simplify_eq/=; rewrite ?moved_eq in *; simplify_eq/=; eauto.
  - eexists _, _. split.
    + by_rule 0%nat (s_lock a_pid "h" "linux" 0 s0 None audit). by_rule 0%nat s_displace. by_rule 0%nat s_archive.
      by_rule 0%nat s_archived. by_rule 0%nat s_write. by_rule 0%nat s_written. by_rule 0%nat s_named.
      by_rule 0%nat s_remove. by_rule 0%nat s_unlock.
      by_rule 1%nat (fun s => s_lock a_pid "h" "linux" 1 s None w). by_rule 1%nat s_unclaimed. by_rule 1%nat s_write.
      by_rule 1%nat s_written. apply rtc_refl.
    + done.
Qed.
