(* ===== verification/HandIntent.v ===== *)
(** The delivery intent (internal/handoff/intent.go): what a portal sends to start managed
    delivery, and the validation that refuses an intent that cannot govern a run.
    net/url is a parameter: the host and the path of a parsed URL, or the text of the
    error. *)
From Stdlib Require Import Ascii.
From S2P Require Import Prelude GoStd RunFailure RunQA RunSpec.

(** * More of package strings *)

Definition backslash : string := bytes [92].

Fixpoint trim_prefix_byte (c : ascii) (s : string) : string :=
  match s with
  | String d s' => if Ascii.eqb d c then trim_prefix_byte c s' else s
  | EmptyString => ""
  end.

(** strings.Trim(s, "/"). *)
Definition trim_slashes (s : string) : string :=
  string_rev (trim_prefix_byte "/" (string_rev (trim_prefix_byte "/" s))).

(** What follows the first occurrence of m, if there is one. *)
Fixpoint after_first (m s : string) : option string :=
  match strip_prefix m s with
  | Some r => Some r
  | None => match s with String _ s' => after_first m s' | EmptyString => None end
  end.

(** * Identifiers *)

Definition is_lower (c : ascii) : bool := (97 <=? byte_of c) && (byte_of c <=? 122).
Definition is_letter (c : ascii) : bool := is_lower c || ((65 <=? byte_of c) && (byte_of c <=? 90)).
Definition id_start (c : ascii) : bool := is_lower c || is_digit c.
Definition id_char (c : ascii) : bool := id_start c || Ascii.eqb c "-".

(** IDPattern.MatchString: a lower-case letter or digit, then 1 to 63 of those or
    hyphens. *)
Definition IDPattern (s : string) : bool :=
  match s with
  | EmptyString => false
  | String c s' =>
      id_start c && all_bytes id_char s'
      && (1 <=? Z.of_nat (String.length s')) && (Z.of_nat (String.length s') <=? 63)
  end.

(** * The intent *)

Record Repository : Type := mkRepository { rg_Slug : string; rg_Origin : string; rg_DefaultBranch : string }.

Record Criterion : Type := mkCriterion {
  cr_ID : string; cr_Statement : string; cr_AcceptedBy : string; cr_MustCover : list string
}.

Definition AcceptedByDelivery : string := "delivery".
Definition AcceptedByHuman : string := "human".

Definition IsHuman (c : Criterion) : bool := String.eqb (cr_AcceptedBy c) AcceptedByHuman.

Record Policy : Type := mkDeliveryPolicy {
  dp_NeedPush : bool; dp_NeedPR : bool; dp_NeedChecks : bool; dp_NeedMerge : bool;
  dp_MergeHumanAction : string; dp_MaxWorkers : Z; dp_WorkDeadlineSeconds : Z
}.

Record Intent : Type := mkIntent {
  in_SchemaVersion : Z;
  in_ProjectID : string;
  in_Repository : Repository;
  in_Checkout : string;
  in_Objective : string;
  in_Lifecycle : list string;
  in_Acceptance : list Criterion;
  in_Policy : Policy;
  in_RequestedBy : string;
  in_RequestedAt : Z
}.

Definition SchemaVersion : Z := 1.

Definition ErrIntentInvalid : error := errmsg "handoff: delivery intent is invalid" [].
Definition ErrSchemaUnsupported : error := errmsg "handoff: delivery intent schema is not supported" [].

Definition anyDelivered (cs : list Criterion) : bool := existsb (fun c => negb (IsHuman c)) cs.

Definition policy_problems (p : Policy) : list string :=
  problem_if (dp_NeedPR p && negb (dp_NeedPush p))
    "policy.needPr requires policy.needPush — a pull request needs a pushed branch"
  ++ (if dp_NeedMerge p then
        problem_if (negb (dp_NeedPR p))
          "policy.needMerge requires policy.needPr — this engine merges through pull requests, never by pushing to the default branch"
        ++ problem_if (negb (dp_NeedChecks p))
             "policy.needMerge requires policy.needChecks — merging without required checks is publication without acceptance"
      else [])
  ++ problem_if (negb (dp_NeedMerge p) && blank (dp_MergeHumanAction p))
       "policy.mergeHumanAction is required when merge authority is withheld — name what a person must do, so the run reports a boundary rather than a failure"
  ++ problem_if (dp_MaxWorkers p <? 0) "policy.maxWorkers cannot be negative"
  ++ problem_if (dp_WorkDeadlineSeconds p <? 0) "policy.workDeadlineSeconds cannot be negative".

Definition splitSlug (slug : string) : option (string * string) :=
  match split_on "/" (TrimSpace slug) with
  | [owner; name] =>
      if String.eqb owner "" || String.eqb name "" || String.eqb owner "." || String.eqb owner ".."
         || String.eqb name "." || String.eqb name ".."
      then None else Some (owner, name)
  | _ => None
  end.

(** isWindowsAbs: a drive letter with a separator, or a UNC path. *)
Definition isWindowsAbs (p : string) : bool :=
  match p with
  | String c (String d (String e _)) =>
      if Ascii.eqb d ":" && (Ascii.eqb e (ascii_of_N 92) || Ascii.eqb e "/") then is_letter c
      else HasPrefix p (backslash +:+ backslash)
  | _ => HasPrefix p (backslash +:+ backslash)
  end.

(** filepath.IsAbs on Unix. *)
Definition IsAbs (p : string) : bool := HasPrefix p "/".

(** net/url.Parse: the host and the path of the URL. *)
Class UrlParser : Type := { url_Parse : string -> (string * string) + string }.

Section validate.
Context `{GoTables} `{UrlParser}.

(** The path of a URL reduced to a slug. *)
Definition slug_of_url (origin : string) : string + string :=
  match url_Parse origin with
  | inr e => inr e
  | inl (host, path) =>
      if String.eqb host "" then inr "no host"
      else match splitSlug (trim_slashes (filepath_Clean ("/" +:+ path))) with
           | Some (owner, name) => inl (owner +:+ "/" +:+ name)
           | None => inr ("path " +:+ Quote path +:+ " is not /owner/name")
           end
  end.

(** slugFromOrigin: the slug, or the text of the error. *)
Definition slugFromOrigin (origin : string) : string + string :=
  let origin := TrimSuffix (TrimSpace origin) ".git" in
  match after_first "@" origin with
  | Some rest =>
      if Contains origin "://" then slug_of_url origin
      else match after_first ":" rest with
           | None => inr "no path after host"
           | Some tail => inl (trim_slashes tail)
           end
  | None => slug_of_url origin
  end.

(** The origin against the slug. *)
Definition origin_problems (r : Repository) : list string :=
  if blank (rg_Origin r)
  then ["repository.origin is required — the checkout's remote cannot be proved against nothing"]
  else
    match splitSlug (rg_Slug r) with
    | None => []
    | Some (owner, name) =>
        match slugFromOrigin (rg_Origin r) with
        | inr e => ["repository.origin " +:+ Quote (rg_Origin r) +:+ " is not a readable git remote URL: " +:+ e]
        | inl slug =>
            problem_if (negb (EqualFold slug (owner +:+ "/" +:+ name)))
              ("repository.origin " +:+ Quote (rg_Origin r) +:+ " names " +:+ Quote slug
               +:+ " but repository.slug says " +:+ Quote (owner +:+ "/" +:+ name))
        end
    end.

(** The loop over the criteria, with the identifiers seen. *)
Fixpoint criterion_problems (i : Z) (seen : gset string) (cs : list Criterion) : list string :=
  match cs with
  | [] => []
  | c :: cs' =>
      let at_ := "acceptance[" +:+ Itoa i +:+ "]" in
      let '(p1, seen') :=
        if negb (IDPattern (cr_ID c)) then ([at_ +:+ ".id " +:+ Quote (cr_ID c) +:+ " is not a valid identifier"], seen)
        else if bool_decide (cr_ID c ∈ seen) then ([at_ +:+ ".id " +:+ Quote (cr_ID c) +:+ " is duplicated"], seen)
        else ([], {[cr_ID c]} ∪ seen) in
      p1 ++ problem_if (blank (cr_Statement c)) (at_ +:+ " (" +:+ cr_ID c +:+ ") has no statement")
        ++ problem_if (negb (String.eqb (cr_AcceptedBy c) "" || String.eqb (cr_AcceptedBy c) AcceptedByDelivery
                             || String.eqb (cr_AcceptedBy c) AcceptedByHuman))
             (at_ +:+ " (" +:+ cr_ID c +:+ ") has acceptedBy " +:+ Quote (cr_AcceptedBy c) +:+ " — it is "
              +:+ Quote AcceptedByDelivery +:+ " or " +:+ Quote AcceptedByHuman +:+ ", and empty means "
              +:+ Quote AcceptedByDelivery)
        ++ criterion_problems (i + 1) seen' cs'
  end.

Definition intent_problems (i : Intent) : list string :=
  let r := in_Repository i in
  problem_if (negb (IDPattern (in_ProjectID i)))
    ("projectId " +:+ Quote (in_ProjectID i) +:+ " is not 2-64 characters of lowercase letters, digits and hyphens")
  ++ problem_if (match splitSlug (rg_Slug r) with Some _ => false | None => true end)
       ("repository.slug " +:+ Quote (rg_Slug r) +:+ " is not owner/name")
  ++ problem_if (blank (rg_DefaultBranch r))
       "repository.defaultBranch is required — delivery has nothing to integrate into"
  ++ origin_problems r
  ++ (if blank (in_Checkout i)
      then ["checkout is required — managed delivery does not choose where a project lives"]
      else problem_if (negb (IsAbs (in_Checkout i)) && negb (isWindowsAbs (in_Checkout i)))
             ("checkout " +:+ Quote (in_Checkout i) +:+ " is not an absolute path"))
  ++ problem_if (blank (in_Objective i))
       "objective is required — a run with no stated purpose cannot be planned or judged"
  ++ problem_if (bool_decide (in_Lifecycle i = [])) "lifecycle is required — at least one phase"
  ++ each_problem (fun n phase => problem_if (blank phase) ("lifecycle[" +:+ Itoa n +:+ "] is empty")) 0 (in_Lifecycle i)
  ++ problem_if (bool_decide (in_Acceptance i = []))
       "acceptance is required — delivery that cannot be judged done cannot complete"
  ++ criterion_problems 0 ∅ (in_Acceptance i)
  ++ problem_if (negb (bool_decide (in_Acceptance i = [])) && negb (anyDelivered (in_Acceptance i)))
       "every acceptance criterion is reserved to a person — managed delivery has nothing it may satisfy"
  ++ policy_problems (in_Policy i).

Definition intent_Validate (i : Intent) : option error :=
  if negb (in_SchemaVersion i =? SchemaVersion) then
    Some (Errorf "%w: schemaVersion %d, this engine speaks %d"
            [Itoa (in_SchemaVersion i); Itoa SchemaVersion] [ErrSchemaUnsupported])
  else match intent_problems i with
       | [] => None
       | ps => Some (Errorf "%w: %s" [join_with "; " ps] [ErrIntentInvalid])
       end.

(** * What an accepted intent guarantees *)

Record policy_ok (p : Policy) : Prop := {
  po_pr : dp_NeedPR p = true -> dp_NeedPush p = true;
  po_merge : dp_NeedMerge p = true -> dp_NeedPR p = true /\ dp_NeedChecks p = true;
  po_human : dp_NeedMerge p = false -> blank (dp_MergeHumanAction p) = false;
  po_workers : 0 <= dp_MaxWorkers p;
  po_deadline : 0 <= dp_WorkDeadlineSeconds p
}.

Record criterion_ok (c : Criterion) : Prop := {
  co_id : IDPattern (cr_ID c) = true;
  co_statement : blank (cr_Statement c) = false;
  co_by : cr_AcceptedBy c = "" \/ cr_AcceptedBy c = AcceptedByDelivery \/ cr_AcceptedBy c = AcceptedByHuman
}.

(** The remote names the repository the slug names. *)
Definition origin_agrees (r : Repository) : Prop :=
  exists owner name slug, splitSlug (rg_Slug r) = Some (owner, name) /\ slugFromOrigin (rg_Origin r) = inl slug
    /\ EqualFold slug (owner +:+ "/" +:+ name) = true.

Record intent_ok (i : Intent) : Prop := {
  io_version : in_SchemaVersion i = SchemaVersion;
  io_project : IDPattern (in_ProjectID i) = true;
  io_branch : blank (rg_DefaultBranch (in_Repository i)) = false;
  io_origin : blank (rg_Origin (in_Repository i)) = false;
  io_agrees : origin_agrees (in_Repository i);
  io_checkout : blank (in_Checkout i) = false;
  io_absolute : IsAbs (in_Checkout i) || isWindowsAbs (in_Checkout i) = true;
  io_objective : blank (in_Objective i) = false;
  io_phases : in_Lifecycle i <> [] /\ Forall (fun p => blank p = false) (in_Lifecycle i);
  io_criteria : Forall criterion_ok (in_Acceptance i);
  io_distinct : NoDup (cr_ID <$> in_Acceptance i);
  io_delivered : exists c, c ∈ in_Acceptance i /\ IsHuman c = false;
  io_policy : policy_ok (in_Policy i)
}.

Lemma each_problem_nil {A} (f : Z -> A -> list string) (ok : A -> Prop) l :
  (forall i a, f i a = [] <-> ok a) -> forall i, each_problem f i l = [] <-> Forall ok l.
Proof.
  intros Hf. induction l as [|a l IH]; intros i; simpl; [done|]. by rewrite app_nil, Forall_cons, Hf, IH.
Qed.

Lemma policy_problems_nil p : policy_problems p = [] <-> policy_ok p.
Proof.
  unfold policy_problems. rewrite !app_nil, !problem_if_nil. split.
  - intros (H1 & H2 & H3 & H4 & H5). split; [| | |lia|lia].
    + intros E. rewrite E in H1. by destruct (dp_NeedPush p).
    + intros E. rewrite E, app_nil, !problem_if_nil in H2. by destruct (dp_NeedPR p), (dp_NeedChecks p), H2.
    + intros E. by rewrite E in H3.
  - intros [H1 H2 H3 H4 H5]. repeat split; [| | |lia|lia].
    + destruct (dp_NeedPR p); [by rewrite H1|done].
    + destruct (dp_NeedMerge p); [|done]. by destruct H2 as [-> ->].
    + destruct (dp_NeedMerge p); [done|]. by rewrite H3.
Qed.

Lemma criterion_problems_nil cs : forall i seen,
  criterion_problems i seen cs = []
  <-> Forall criterion_ok cs /\ NoDup (cr_ID <$> cs) /\ Forall (fun c => cr_ID c ∉ seen) cs.
Proof.
  induction cs as [|c cs IH]; intros i seen; cbn [criterion_problems].
  { split; [|done]. intros _. repeat split; constructor. }
  rewrite fmap_cons, NoDup_cons, !Forall_cons.
  destruct (IDPattern (cr_ID c)) eqn:Hid; simpl negb.
  2:{ split; [intros Hn; simplify_eq/=|]. intros ([[? _ _] _] & _). congruence. }
  case_bool_decide as Hs.
  { split; [intros Hn; simplify_eq/=|]. intros (_ & _ & [? _]). done. }
  rewrite app_nil, !app_nil, !problem_if_nil, IH, negb_false_iff, !orb_true_iff, !String.eqb_eq.
  assert (Hf : Forall (fun c' => cr_ID c' ∉ ({[cr_ID c]} : gset string) ∪ seen) cs
    <-> (cr_ID c ∉ (cr_ID <$> cs)) /\ Forall (fun c' => cr_ID c' ∉ seen) cs).
  { rewrite !Forall_forall, list_elem_of_fmap. setoid_rewrite not_elem_of_union. setoid_rewrite not_elem_of_singleton.
    split; [intros Hall; split; [intros (c' & E & Hin); by destruct (Hall c' Hin)|intros c' Hin; by apply Hall]|].
    intros [Hn Hall] c' Hin. split; [|by apply Hall]. intros E. apply Hn. by exists c'. }
  rewrite Hf. split.
  - intros (_ & Hst & Hb & Hok & Hnd & Hn & Hall). repeat split; try done. destruct Hb as [[|]|]; auto.
  - intros ([[_ Hst Hb] Hok] & [Hn Hnd] & [_ Hall]). repeat split; try done. destruct Hb as [|[|]]; auto.
Qed.

Lemma origin_problems_nil r :
  splitSlug (rg_Slug r) <> None -> origin_problems r = [] <-> blank (rg_Origin r) = false /\ origin_agrees r.
Proof.
  intros Hs. unfold origin_problems, origin_agrees. destruct (blank (rg_Origin r)); [by split; [|intros [? ?]]|].
  destruct (splitSlug (rg_Slug r)) as [[owner name]|]; [|done]. destruct (slugFromOrigin (rg_Origin r)) as [slug|e].
  - rewrite problem_if_nil, negb_false_iff. split; [intros Hf; split; [done|]; by exists owner, name, slug|].
    intros (_ & ? & ? & ? & [= <- <-] & [= <-] & Hf). done.
  - split; [done|]. by intros (_ & ? & ? & ? & _ & ? & _).
Qed.

Lemma intent_Validate_ok i : intent_Validate i = None <-> intent_ok i.
Proof.
  unfold intent_Validate. destruct (Z.eqb_spec (in_SchemaVersion i) SchemaVersion) as [Hv|Hv]; simpl negb; cbn match.
  2:{ split; [done|]. by intros [? _]. }
  transitivity (intent_problems i = []); [by destruct (intent_problems i)|].
  unfold intent_problems. rewrite !app_nil, !problem_if_nil, policy_problems_nil, criterion_problems_nil.
  rewrite (each_problem_nil _ (fun p => blank p = false)) by (intros; apply problem_if_nil).
  rewrite !bool_decide_eq_false, negb_false_iff, andb_false_iff, !negb_false_iff.
  unfold anyDelivered. rewrite bool_decide_eq_true, existsb_exists. split.
  - intros (Hp & Hs & Hb & Ho & Hc & Hob & Hl & Hl' & Ha & (Hcr & Hnd & _) & Hd & Hpol).
    assert (Hs' : splitSlug (rg_Slug (in_Repository i)) <> None) by (by destruct (splitSlug _)).
    apply (origin_problems_nil _ Hs') in Ho as [Ho Hag]. destruct (blank (in_Checkout i)) eqn:Ec; [done|].
    rewrite problem_if_nil, andb_false_iff, !negb_false_iff in Hc.
    split; try done. { apply orb_true_iff. by destruct Hc; [left|right]. }
    destruct Hd as [?|(c & Hin%list_elem_of_In & Hn%negb_true_iff)]; [done|]. by exists c.
  - intros [_ Hp Hb Ho Hag Hc Habs Hob [Hl Hl'] Hcr Hnd (c & Hin & Hd) Hpol].
    assert (Hs : splitSlug (rg_Slug (in_Repository i)) <> None) by (destruct Hag as (? & ? & ? & -> & _); done).
    rewrite (origin_problems_nil _ Hs), Hc, problem_if_nil, andb_false_iff, !negb_false_iff.
    repeat match goal with |- policy_ok _ => fail 1 | |- _ /\ _ => split end; try done.
    + by destruct (splitSlug _).
    + by apply orb_true_iff in Habs.
    + intros E. by rewrite E in Hin; apply elem_of_nil in Hin.
    + apply Forall_forall. intros x _. apply not_elem_of_empty.
    + right. exists c. split; [by apply list_elem_of_In|by rewrite Hd].
Qed.

(** An intent is accepted exactly when it can govern a run: this schema, a safe
    project identifier, a remote that names the repository of the slug, an absolute
    checkout, a stated purpose and lifecycle, distinct well-formed criteria of which
    delivery may satisfy at least one, and grants that do not contradict one another. *)
Theorem intent_Validate_exact i : intent_Validate i = None <-> intent_ok i.
Proof. apply intent_Validate_ok. Qed.

End validate.
