(* ===== verification/HandPlan.v ===== *)
(** The delivery plan (internal/handoff/plan.go, with the types and the validation of
    remediations of reconcile.go it contains): work packages, the rules a plan must keep
    against its intent over all its generations, the containment of paths and gates, and
    the coverage of required behaviours.  JSON decoding is left out. *)
From Stdlib Require Import Ascii.
From S2P Require Import Prelude GoStd RunFailure RunQA RunPlan RunSpec HandIntent.

(** * Data *)

Record Verification : Type := mkVerification { vf_MergedSha : string }.

Record WorkPackage : Type := mkPackage {
  wp_ID : string;
  wp_Title : string;
  wp_Phase : string;
  wp_Objective : string;
  wp_Artifact : string;
  wp_AuthorizedPaths : list string;
  wp_Gates : list string;
  wp_DependsOn : list string;
  wp_Satisfies : list string;
  wp_Verifies : option Verification
}.

Definition IsVerification (wp : WorkPackage) : bool :=
  match wp_Verifies wp with Some _ => true | None => false end.

Record Repair : Type := mkRepair { rr_CriterionID : string; rr_Invalidation : Z }.

Record Remediation : Type := mkRemediation {
  rm_SchemaVersion : Z;
  rm_ProjectID : string;
  rm_Seq : Z;
  rm_Repairs : list Repair;
  rm_AuthorizedBy : string;
  rm_AuthorizedAt : Z;
  rm_Packages : list WorkPackage;
  rm_Supersedes : list string
}.

Record DeliveryPlan : Type := mkDeliveryPlan {
  pn_SchemaVersion : Z;
  pn_ProjectID : string;
  pn_PlannedBy : string;
  pn_PlannedAt : Z;
  pn_Packages : list WorkPackage;
  pn_Remediations : list Remediation;
  pn_Provisional : bool
}.

Definition PlanSchemaVersion : Z := 1.
Definition RemediationSchemaVersion : Z := 1.
Definition MaxGatesPerPackage : Z := 8.

Definition ErrPlanInvalid : error := errmsg "handoff: delivery plan is invalid" [].

(** * Generations *)

Definition Superseded (p : DeliveryPlan) : gset string :=
  list_to_set (pn_Remediations p ≫= rm_Supersedes).

(** The packages of a remediation that no later one replaced. *)
Definition live_packages (gone : gset string) (rm : Remediation) : list WorkPackage :=
  List.filter (fun wp => negb (bool_decide (wp_ID wp ∈ gone))) (rm_Packages rm).

Definition AllPackages (p : DeliveryPlan) : list WorkPackage :=
  pn_Packages p ++ (pn_Remediations p ≫= live_packages (Superseded p)).

Definition generations (p : DeliveryPlan) : list (list WorkPackage) :=
  pn_Packages p :: (live_packages (Superseded p) <$> pn_Remediations p).

(** * Gates *)

Definition gateRunners : list string :=
  ["npm"; "pnpm"; "yarn"; "node"; "go"; "make"; "cargo"; "mvn"; "gradle"; "python"; "python3"; "pytest"; "ruff";
   "tsc"; "eslint"; "vitest"; "jest"; "dotnet"].

(** The bytes of the constant gateForbidden. *)
Definition gateForbidden : list Z :=
  [59; 124; 38; 36; 96; 60; 62; 40; 41; 123; 125; 91; 93; 92; 34; 39; 10; 13; 9; 42; 63; 33; 35; 126].

Definition ContainsAny (s : string) (chars : list Z) : bool :=
  negb (all_bytes (fun c => negb (bool_decide (byte_of c ∈ chars))) s).

(** strings.Fields: [word] is the field being read, reversed. *)
Fixpoint fields_from (fuel : nat) (word : string) (s : string) : list string :=
  let flush := if String.eqb word "" then [] else [string_rev word] in
  match fuel with
  | O => flush
  | S f =>
      match s with
      | EmptyString => flush
      | String c s' =>
          match strip_space space_runes s with
          | Some rest => flush ++ fields_from f "" rest
          | None => fields_from f (String c word) s'
          end
      end
  end.

(** Every step takes at least one byte. *)
Definition Fields (s : string) : list string := fields_from (String.length s) "" s.

Definition HasSuffix (s suf : string) : bool := HasPrefix (string_rev s) (string_rev suf).

Definition traverses (token : string) : bool :=
  String.eqb token ".." || HasPrefix token "../" || Contains token "/../" || HasSuffix token "/..".

(** ValidateGate: the text of the refusal. *)
Definition ValidateGate `{GoTables} (gate : string) : option string :=
  let trimmed := TrimSpace gate in
  if String.eqb trimmed "" then Some "a gate cannot be empty"
  else if negb (String.eqb trimmed gate)
  then Some (Quote gate +:+ " has surrounding whitespace; a gate is granted verbatim")
  else if ContainsAny gate gateForbidden
  then Some (Quote gate +:+ " contains shell syntax; a gate is one command, not a script")
  else if existsb traverses (Fields gate) then Some (Quote gate +:+ " traverses out of the worktree")
  else
    let runner := default "" (head (Fields gate)) in
    if Contains runner "/" then Some (Quote gate +:+ " names a path rather than a project runner")
    else if negb (bool_decide (runner ∈ gateRunners))
    then Some (Quote gate +:+ " is not a project build or test runner this engine will grant")
    else None.

(** * Paths *)

Definition protectedPrefixes : list string := [".git"; ".github/workflows"; "delivery/gascity"].

Definition isProtected (cleaned : string) : option string :=
  List.find (fun prefix => String.eqb cleaned prefix || HasPrefix cleaned (prefix +:+ "/")) protectedPrefixes.

Definition slashed (c : ascii) : ascii := if Ascii.eqb c (ascii_of_N 92) then "/"%char else c.

(** repoRelative: the cleaned path, or the text of the refusal. *)
Definition repoRelative (raw : string) : string + string :=
  let s := TrimSpace raw in
  if String.eqb s "" then inr "empty"
  else if negb (all_bytes (fun c => negb (Ascii.eqb c (ascii_of_N 0))) s) then inr "contains a NUL byte"
  else
    let s := map_bytes slashed s in
    if HasPrefix s "/" then inr "is absolute"
    else if match s with String _ (String d _) => Ascii.eqb d ":" | _ => false end
    then inr "is a drive-qualified path"
    else
      let cleaned := filepath_Clean s in
      if String.eqb cleaned "." || String.eqb cleaned ".." || HasPrefix cleaned "../"
      then inr "escapes the repository" else inl cleaned.

Definition containsPath (paths : list string) (want : string) : bool := existsb (String.eqb want) paths.

(** * Order of packages *)

Definition by_id (packages : list WorkPackage) : gmap string WorkPackage :=
  fold_left (fun m wp => <[wp_ID wp := wp]> m) packages ∅.

Definition depends (byID : gmap string WorkPackage) (id : string) : list string :=
  match byID !! id with Some wp => wp_DependsOn wp | None => [] end.

(** The loop of reaches: the stack with its top first.  None is running out of fuel. *)
Fixpoint reach_loop (byID : gmap string WorkPackage) (to : string) (fuel : nat)
    (stack : list string) (seen : gset string) : option bool :=
  match stack with
  | [] => Some false
  | cur :: stack' =>
      match fuel with
      | O => None
      | S f =>
          if String.eqb cur to then Some true
          else if bool_decide (cur ∈ seen) then reach_loop byID to f stack' seen
          else reach_loop byID to f (rev (depends byID cur) ++ stack') ({[cur]} ∪ seen)
      end
  end.

(** Every package is expanded at most once, so the dependencies of all of them and the
    start bound the turns. *)
Definition reach_fuel (byID : gmap string WorkPackage) : nat :=
  S (list_sum ((fun kv => length (wp_DependsOn kv.2)) <$> map_to_list byID)).

Definition reaches (byID : gmap string WorkPackage) (from to : string) : bool :=
  default false (reach_loop byID to (reach_fuel byID) [from] ∅).

Definition dependencyOrdered (byID : gmap string WorkPackage) (a b : string) : bool :=
  reaches byID a b || reaches byID b a.

(** findCycle: the search is the one of the work plan. *)
Definition findCycle (pkgs : list WorkPackage) : string :=
  let deps := fold_left (fun m wp => <[wp_ID wp := wp_DependsOn wp]> m) pkgs ∅ in
  default "" (walk_all deps (sort_Strings (wp_ID <$> pkgs)) (mkWalk ∅ [])).

(** * Required behaviours *)

Definition coveringPackages (pkgs : list WorkPackage) (criterion : string) : list WorkPackage :=
  List.filter (fun wp => containsPath (wp_Satisfies wp) criterion) pkgs.

Definition newline : string := bytes [10].

Definition package_text (wp : WorkPackage) : string :=
  wp_Title wp +:+ newline +:+ wp_Objective wp +:+ newline +:+ wp_Artifact wp +:+ newline
  +:+ join_with newline (wp_Gates wp) +:+ newline.

Definition coveringText `{GoTables} (pkgs : list WorkPackage) : string :=
  ToLower (String.concat "" (package_text <$> pkgs)).

Definition alternatives (required : string) : list string := TrimSpace <$> split_on "|" required.

Definition longestAlternative (required : string) : nat :=
  fold_left (fun longest alt => Nat.max longest (String.length alt)) (alternatives required) 0%nat.

(** isWordByte; a position before the text or past its end is not a word. *)
Definition isWordByte (said : string) (at_ : Z) : bool :=
  if at_ <? 0 then false
  else match String.get (Z.to_nat at_) said with
       | Some c => Ascii.eqb c "_" || is_lower c || is_digit c
       | None => false
       end.

Definition wholeWord (said : string) (start fin : nat) : bool :=
  negb (isWordByte said (Z.of_nat start - 1)) && negb (isWordByte said (Z.of_nat fin)).

Definition spanIsSpent (spent : list bool) (start fin : nat) : bool :=
  existsb (fun i => default false (spent !! i)) (seq start (fin - start)).

Definition spend (spent : list bool) (start fin : nat) : list bool :=
  fold_left (fun l i => <[i := true]> l) (seq start (fin - start)) spent.

(** strings.Index: where m first occurs in s. *)
Fixpoint Index (s m : string) : option nat :=
  if HasPrefix s m then Some 0%nat
  else match s with String _ s' => S <$> Index s' m | EmptyString => None end.

(** s[at:]. *)
Fixpoint drop_bytes (n : nat) (s : string) : string :=
  match n, s with
  | S n', String _ s' => drop_bytes n' s'
  | _, _ => s
  end.

(** The inner loop over the occurrences of one spelling, from a position on. *)
Fixpoint claim_alt (fuel : nat) (said : string) (spent : list bool) (alt : string) (at_ : nat)
  : option (list bool) :=
  match fuel with
  | O => None
  | S f =>
      match Index (drop_bytes at_ said) alt with
      | None => None
      | Some found =>
          let start := (at_ + found)%nat in
          let fin := (start + String.length alt)%nat in
          if negb (wholeWord said start fin) || spanIsSpent spent start fin
          then claim_alt f said spent alt (S start)
          else Some (spend spent start fin)
      end
  end.

(** claimOccurrence over the spellings; the position grows with every turn, so the length
    of the text and one more are turns enough. *)
Fixpoint claim_any `{GoTables} (said : string) (spent : list bool) (alts : list string) : option (list bool) :=
  match alts with
  | [] => None
  | alt :: alts' =>
      let alt := ToLower alt in
      if String.eqb alt "" then claim_any said spent alts'
      else match claim_alt (S (String.length said)) said spent alt 0 with
           | Some spent' => Some spent'
           | None => claim_any said spent alts'
           end
  end.

Definition claimOccurrence `{GoTables} (said : string) (spent : list bool) (required : string) : option (list bool) :=
  claim_any said spent (alternatives required).

(** sort.SliceStable by length, the longest first. *)
Fixpoint insert_longest (r : nat * string) (l : list (nat * string)) : list (nat * string) :=
  match l with
  | [] => [r]
  | q :: l' => if (longestAlternative q.2 <=? longestAlternative r.2)%nat then r :: l else q :: insert_longest r l'
  end.

Definition longest_first (l : list (nat * string)) : list (nat * string) := fold_right insert_longest [] l.

(** The claims in order: the text spent and the requirements unmet. *)
Fixpoint claim_all `{GoTables} (said : string) (spent : list bool) (unmet : gset nat) (order : list (nat * string))
  : list bool * gset nat :=
  match order with
  | [] => (spent, unmet)
  | (i, r) :: order' =>
      match claimOccurrence said spent r with
      | Some spent' => claim_all said spent' unmet order'
      | None => claim_all said spent ({[i]} ∪ unmet) order'
      end
  end.

Definition numbered (l : list string) : list (nat * string) := zip (seq 0 (length l)) l.

Definition missingBehaviours `{GoTables} (said : string) (required : list string) : list string :=
  let unmet := (claim_all said (replicate (String.length said) false) ∅ (longest_first (numbered required))).2 in
  snd <$> List.filter (fun ir => bool_decide (ir.1 ∈ unmet)) (numbered required).

(** * Remediation.Validate *)

Section validate.
Context `{GoTables}.

Definition quoteAll (items : list string) : list string := Quote <$> items.

Definition find_criterion (i : Intent) (id : string) : option Criterion :=
  (* a map filled in order keeps the last criterion of a name *)
  List.find (fun c => String.eqb (cr_ID c) id) (rev (in_Acceptance i)).

(** The loop over the repairs, with the criteria it found repairable. *)
Fixpoint repair_problems (i : Intent) (n : Z) (repaired : gset string) (reps : list Repair)
  : list string * gset string :=
  match reps with
  | [] => ([], repaired)
  | r :: reps' =>
      let at_ := "repairs[" +:+ Itoa n +:+ "]" in
      let id := rr_CriterionID r in
      let '(p, repaired') :=
        match find_criterion i id with
        | None => ([at_ +:+ " names " +:+ Quote id +:+ ", which the intent does not declare as an acceptance criterion"], repaired)
        | Some c =>
            if IsHuman c then
              ([at_ +:+ " names " +:+ Quote id +:+ ", which only a person may accept — delivery does not remediate a person's answer"], repaired)
            else if rr_Invalidation r <? 1 then
              ([at_ +:+ " (" +:+ id +:+ ") names invalidation " +:+ Itoa (rr_Invalidation r)
                +:+ ", which is not a recorded finding"], repaired)
            else if bool_decide (id ∈ repaired) then ([at_ +:+ " names " +:+ Quote id +:+ " twice"], repaired)
            else ([], {[id]} ∪ repaired)
        end in
      let '(ps, final) := repair_problems i (n + 1) repaired' reps' in
      (p ++ ps, final)
  end.

Definition gated (pkgs : list WorkPackage) : bool :=
  existsb (fun wp => negb (bool_decide (wp_Gates wp = []))) pkgs.

(** Fidelity of a remediation's own packages to one repaired criterion. *)
Definition repair_fidelity (i : Intent) (pkgs : list WorkPackage) (r : Repair) : list string :=
  match find_criterion i (rr_CriterionID r) with
  | None => []
  | Some c =>
      if IsHuman c || bool_decide (cr_MustCover c = []) then []
      else
        match coveringPackages pkgs (cr_ID c) with
        | [] => [cr_ID c +:+ " is repaired by no work package in this remediation"]
        | covering =>
            problem_if (negb (gated covering))
              (cr_ID c +:+ " requires behavior the remediation must prove, and no remedial package claiming it declares a gate — the work being repaired passed every gate it declared, so a repair that declares none cannot be evidence of anything")
            ++ match missingBehaviours (coveringText covering) (cr_MustCover c) with
               | [] => []
               | missing =>
                   [cr_ID c +:+ " requires " +:+ join_with ", " (quoteAll missing)
                    +:+ ", which no remedial package claiming it plans to deliver — the original work claimed those behaviors and was disproved, so a repair has to carry them itself"]
               end
        end
  end.

Definition remediation_problems (i : Intent) (rm : Remediation) : list string :=
  problem_if (negb (String.eqb (rm_ProjectID rm) (in_ProjectID i)))
    ("remediation projectId " +:+ Quote (rm_ProjectID rm) +:+ " does not match the intent's " +:+ Quote (in_ProjectID i))
  ++ problem_if (rm_Seq rm <? 1)
       ("remediation seq " +:+ Itoa (rm_Seq rm) +:+ " is not a position in the project's remediations")
  ++ problem_if (blank (rm_AuthorizedBy rm))
       "remediation authorizedBy is required — additive work against a finished project is a decision, and a decision with no author is a mutation"
  ++ problem_if (bool_decide (rm_Repairs rm = []))
       "a remediation repairs nothing — corrective work is authorized against a finding, never in general"
  ++ problem_if (bool_decide (rm_Packages rm = [])) "a remediation with no work packages repairs nothing"
  ++ let '(ps, repaired) := repair_problems i 0 ∅ (rm_Repairs rm) in
     ps
     ++ (rm_Packages rm ≫= fun wp => wp_Satisfies wp ≫= fun s =>
          problem_if (negb (bool_decide (s ∈ repaired)))
            ("remedial package " +:+ wp_ID wp +:+ " claims " +:+ Quote s
             +:+ ", which this remediation does not repair — a repair may not widen into delivery nobody authorized"))
     ++ (rm_Repairs rm ≫= repair_fidelity i (rm_Packages rm)).

(** Remediation.Validate: what follows the sentinel in the text of the error. *)
Definition rm_refusal (i : Intent) (rm : Remediation) : option string :=
  if negb (rm_SchemaVersion rm =? RemediationSchemaVersion) then
    Some ("remediation schemaVersion " +:+ Itoa (rm_SchemaVersion rm) +:+ ", this engine speaks "
          +:+ Itoa RemediationSchemaVersion)
  else match remediation_problems i rm with [] => None | ps => Some (join_with "; " ps) end.

Definition rm_Validate (i : Intent) (rm : Remediation) : option error :=
  (fun text => Errorf "%w: %s" [text] [ErrPlanInvalid]) <$> rm_refusal i rm.

(** * DeliveryPlan.Validate *)

Record pathClaim : Type := mkClaim { pc_label : string; pc_id : string; pc_gen : Z }.

(** What the loop over the packages keeps: the names seen, who authorized which path, and
    the criteria claimed. *)
Record Tally : Type := mkTally {
  ty_ids : gset string;
  ty_owner : gmap string pathClaim;
  ty_satisfied : gset string
}.

Definition planPackageLabel (gen i : Z) : string :=
  if gen =? 0 then "packages[" +:+ Itoa i +:+ "]"
  else "remediation " +:+ Itoa gen +:+ " packages[" +:+ Itoa i +:+ "]".

Definition sha_char (c : ascii) : bool := is_digit c || ((97 <=? byte_of c) && (byte_of c <=? 102)).

Definition ShaPattern (s : string) : bool := all_bytes sha_char s && (String.length s =? 40)%nat.

Fixpoint gate_problems (label : string) (seen : gset string) (gates : list string) : list string :=
  match gates with
  | [] => []
  | g :: gates' =>
      match ValidateGate g with
      | Some e => (label +:+ " gate " +:+ e) :: gate_problems label seen gates'
      | None => problem_if (bool_decide (g ∈ seen)) (label +:+ " declares gate " +:+ Quote g +:+ " twice")
                ++ gate_problems label ({[g]} ∪ seen) gates'
      end
  end.

(** The rules of a package that checks and those of one that changes. *)
Definition verification_problems (label : string) (gen : Z) (wp : WorkPackage) : list string :=
  match wp_Verifies wp with
  | Some v =>
      problem_if (negb (bool_decide (wp_AuthorizedPaths wp = [])))
        (label +:+ " verifies existing evidence and authorizes " +:+ Itoa (Z.of_nat (length (wp_AuthorizedPaths wp)))
         +:+ " path(s) — a package that may write cannot be the check on what was written")
      ++ problem_if (negb (ShaPattern (vf_MergedSha v)))
           (label +:+ ".verifies.mergedSha " +:+ Quote (vf_MergedSha v)
            +:+ " is not a full commit sha — a verification names the exact tree it ran against, so a later reader can go and look at it")
      ++ problem_if (bool_decide (wp_Gates wp = []))
           (label +:+ " verifies nothing — a verification package with no gates asserts a criterion is met without checking anything")
      ++ problem_if (negb (bool_decide (wp_DependsOn wp = [])))
           (label +:+ " verifies existing evidence and declares dependencies — it merges nothing, so nothing it waited for could reach it")
      ++ problem_if (gen =? 0)
           (label +:+ " verifies existing evidence but is in the original plan — there is nothing for a delivery's first plan to verify, because none of its work has been done yet")
  | None =>
      problem_if (bool_decide (wp_AuthorizedPaths wp = []))
        (label +:+ " authorizes no paths — a package that may change nothing cannot produce anything")
  end.

(** The loop over the authorized paths: the claims and the usable paths. *)
Fixpoint path_claims (label : string) (gen : Z) (genByID : gmap string WorkPackage) (id : string)
    (owner : gmap string pathClaim) (clean : list string) (raws : list string)
  : list string * gmap string pathClaim * list string :=
  match raws with
  | [] => ([], owner, clean)
  | raw :: raws' =>
      match repoRelative raw with
      | inr e =>
          let '(ps, o, c) := path_claims label gen genByID id owner clean raws' in
          ((label +:+ " authorized path " +:+ Quote raw +:+ " is not usable: " +:+ e) :: ps, o, c)
      | inl c =>
          match isProtected c with
          | Some prefix =>
              let '(ps, o, cl) := path_claims label gen genByID id owner clean raws' in
              ((label +:+ " authorizes " +:+ Quote c +:+ ", which is under the protected path " +:+ Quote prefix
                +:+ " — a run may not change what judges it") :: ps, o, cl)
          | None =>
              match owner !! c with
              | Some claim =>
                  if (pc_gen claim =? gen) && negb (dependencyOrdered genByID (pc_id claim) id) then
                    let '(ps, o, cl) := path_claims label gen genByID id owner clean raws' in
                    ((label +:+ " and " +:+ pc_label claim +:+ " both authorize " +:+ Quote c
                      +:+ " with no dependency ordering them — two workers that could hold the path at the same time is a collision, not a plan")
                     :: ps, o, cl)
                  else path_claims label gen genByID id (<[c := mkClaim label id gen]> owner) (clean ++ [c]) raws'
              | None => path_claims label gen genByID id (<[c := mkClaim label id gen]> owner) (clean ++ [c]) raws'
              end
          end
      end
  end.

Definition artifact_problems (label : string) (clean : list string) (wp : WorkPackage) : list string :=
  if blank (wp_Artifact wp)
  then [label +:+ " names no required artifact — nothing would prove the package produced its result"]
  else match repoRelative (wp_Artifact wp) with
       | inr e => [label +:+ " artifact " +:+ Quote (wp_Artifact wp) +:+ " is not usable: " +:+ e]
       | inl artifact =>
           problem_if (negb (IsVerification wp) && negb (containsPath clean artifact))
             (label +:+ " must authorize its own artifact " +:+ Quote artifact)
       end.

(** The loop over the criteria a package claims. *)
Fixpoint satisfies_problems (i : Intent) (label : string) (satisfied : gset string) (cs : list string)
  : list string * gset string :=
  match cs with
  | [] => ([], satisfied)
  | c :: cs' =>
      let '(p, satisfied') :=
        if negb (bool_decide (c ∈ cr_ID <$> in_Acceptance i)) then
          ([label +:+ " satisfies " +:+ Quote c +:+ ", which the intent does not declare as an acceptance criterion"], satisfied)
        else if existsb (fun k => String.eqb (cr_ID k) c && IsHuman k) (in_Acceptance i) then
          ([label +:+ " satisfies " +:+ Quote c +:+ ", which only a person may accept — a work package may prepare what a reviewer reads and may never claim their acceptance"], satisfied)
        else ([], {[c]} ∪ satisfied) in
      let '(ps, final) := satisfies_problems i label satisfied' cs' in
      (p ++ ps, final)
  end.

(** The body of the loop over the packages of a generation. *)
Definition package_problems (i : Intent) (gen : Z) (genByID : gmap string WorkPackage) (n : Z) (ty : Tally)
    (wp : WorkPackage) : list string * Tally :=
  let id := wp_ID wp in
  let fresh := IDPattern id && negb (bool_decide (id ∈ ty_ids ty)) in
  let label := if fresh then id else planPackageLabel gen n in
  let p_id :=
    if negb (IDPattern id) then [label +:+ ".id " +:+ Quote id +:+ " is not a valid identifier"]
    else problem_if (bool_decide (id ∈ ty_ids ty)) (label +:+ ".id " +:+ Quote id +:+ " is duplicated") in
  let ids := if fresh then {[id]} ∪ ty_ids ty else ty_ids ty in
  let '(p_paths, owner, clean) := path_claims label gen genByID id (ty_owner ty) [] (wp_AuthorizedPaths wp) in
  let '(p_sat, satisfied) := satisfies_problems i label (ty_satisfied ty) (wp_Satisfies wp) in
  (p_id
   ++ problem_if (blank (wp_Title wp)) (label +:+ " has no title")
   ++ problem_if (blank (wp_Objective wp)) (label +:+ " has no objective — a worker cannot be given an empty instruction")
   ++ problem_if (negb (bool_decide (wp_Phase wp ∈ in_Lifecycle i)))
        (label +:+ ".phase " +:+ Quote (wp_Phase wp) +:+ " is not one of the lifecycle phases the intent declared")
   ++ problem_if (MaxGatesPerPackage <? Z.of_nat (length (wp_Gates wp)))
        (label +:+ " declares " +:+ Itoa (Z.of_nat (length (wp_Gates wp))) +:+ " gates; at most "
         +:+ Itoa MaxGatesPerPackage +:+ " may be granted")
   ++ gate_problems label ∅ (wp_Gates wp)
   ++ verification_problems label gen wp
   ++ p_paths
   ++ artifact_problems label clean wp
   ++ problem_if (bool_decide (wp_Satisfies wp = []))
        (label +:+ " satisfies no acceptance criterion — work nobody asked for is not delivery")
   ++ p_sat,
   mkTally ids owner satisfied).

Fixpoint generation_problems (i : Intent) (gen : Z) (genByID : gmap string WorkPackage) (n : Z) (ty : Tally)
    (packages : list WorkPackage) : list string * Tally :=
  match packages with
  | [] => ([], ty)
  | wp :: packages' =>
      let '(p, ty') := package_problems i gen genByID n ty wp in
      let '(ps, final) := generation_problems i gen genByID (n + 1) ty' packages' in
      (p ++ ps, final)
  end.

Fixpoint plan_generations (i : Intent) (gen : Z) (ty : Tally) (gens : list (list WorkPackage))
  : list string * Tally :=
  match gens with
  | [] => ([], ty)
  | packages :: gens' =>
      let '(p, ty') := generation_problems i gen (by_id packages) 0 ty packages in
      let '(ps, final) := plan_generations i (gen + 1) ty' gens' in
      (p ++ ps, final)
  end.

(** Supersession reaches backwards, and only into corrective work. *)
Fixpoint supersede_problems (base earlier seen : gset string) (n : Z) (ids : list string) : list string :=
  match ids with
  | [] => []
  | id :: ids' =>
      let at_ := "remediation " +:+ Itoa n +:+ " supersedes " +:+ Quote id in
      (if bool_decide (id ∈ seen) then [at_ +:+ " twice"]
       else if bool_decide (id ∈ base) then
         [at_ +:+ ", which the ORIGINAL plan authorized — that work is the history everything since was measured against, and a remediation may not withdraw it"]
       else problem_if (negb (bool_decide (id ∈ earlier)))
              (at_ +:+ ", which no earlier remediation authorized — corrective work can only replace corrective work that already exists"))
      ++ supersede_problems base earlier ({[id]} ∪ seen) n ids'
  end.

Fixpoint supersession_problems (base earlier : gset string) (n : Z) (rms : list Remediation) : list string :=
  match rms with
  | [] => []
  | rm :: rms' =>
      supersede_problems base earlier ∅ n (rm_Supersedes rm)
      ++ supersession_problems base (list_to_set (wp_ID <$> rm_Packages rm) ∪ earlier) (n + 1) rms'
  end.

Definition dependency_problems (ids : gset string) (all : list WorkPackage) (wp : WorkPackage) : list string :=
  wp_DependsOn wp ≫= fun dep =>
    if String.eqb dep (wp_ID wp) then [wp_ID wp +:+ " depends on itself"]
    else if negb (bool_decide (dep ∈ ids)) then
      [wp_ID wp +:+ " depends on " +:+ Quote dep +:+ ", which is not in this plan"]
    else problem_if (existsb (fun v => String.eqb (wp_ID v) dep && IsVerification v) all)
           (wp_ID wp +:+ " depends on " +:+ Quote dep
            +:+ ", which verifies existing evidence and merges nothing — the merge it would wait for can never happen").

Definition uncovered (i : Intent) (satisfied : gset string) : list string :=
  sort_Strings (cr_ID <$> List.filter (fun c => negb (IsHuman c) && negb (bool_decide (cr_ID c ∈ satisfied)))
                            (in_Acceptance i)).

(** Fidelity of the whole plan to one criterion. *)
Definition fidelity_problems (p : DeliveryPlan) (all : list WorkPackage) (c : Criterion) : list string :=
  if pn_Provisional p || IsHuman c || bool_decide (cr_MustCover c = []) then []
  else
    match coveringPackages all (cr_ID c) with
    | [] => []
    | covering =>
        problem_if (negb (gated covering))
          (cr_ID c +:+ " requires behavior the plan must prove, and no work package claiming it declares a gate — a criterion nothing verifies cannot be evidence of anything")
        ++ match missingBehaviours (coveringText covering) (cr_MustCover c) with
           | [] => []
           | missing =>
               [cr_ID c +:+ " requires " +:+ join_with ", " (quoteAll missing)
                +:+ ", which no work package claiming it plans to deliver — a planner may split or reword the work and may not drop what it must achieve"]
           end
    end.

Definition delivery_problems (i : Intent) (p : DeliveryPlan) : list string :=
  let all := AllPackages p in
  let '(p_pkgs, ty) := plan_generations i 0 (mkTally ∅ ∅ ∅) (generations p) in
  problem_if (negb (String.eqb (pn_ProjectID p) (in_ProjectID i)))
    ("plan projectId " +:+ Quote (pn_ProjectID p) +:+ " does not match the intent's " +:+ Quote (in_ProjectID i))
  ++ problem_if (bool_decide (pn_Packages p = [])) "a plan with no work packages cannot deliver anything"
  ++ p_pkgs
  ++ supersession_problems (list_to_set (wp_ID <$> pn_Packages p)) ∅ 1 (pn_Remediations p)
  ++ (all ≫= dependency_problems (ty_ids ty) all)
  ++ (let cycle := findCycle all in
      problem_if (negb (String.eqb cycle "")) ("work package dependencies contain a cycle: " +:+ cycle))
  ++ (match uncovered i (ty_satisfied ty) with
      | [] => []
      | cs => ["no work package addresses acceptance criteria " +:+ join_with ", " cs +:+ " — this plan cannot reach completion"]
      end)
  ++ (in_Acceptance i ≫= fidelity_problems p all)
  ++ (pn_Remediations p ≫= fun rm =>
       match rm_refusal i rm with
       | None => []
       | Some text => ["remediation " +:+ Itoa (rm_Seq rm) +:+ ": handoff: delivery plan is invalid: " +:+ text]
       end).

(** DeliveryPlan.Validate. *)
Definition delivery_Validate (i : Intent) (p : DeliveryPlan) : option error :=
  if negb (pn_SchemaVersion p =? PlanSchemaVersion) then
    Some (Errorf "%w: schemaVersion %d, this engine speaks %d"
            [Itoa (pn_SchemaVersion p); Itoa PlanSchemaVersion] [ErrPlanInvalid])
  else match delivery_problems i p with
       | [] => None
       | ps => Some (Errorf "%w: %s" [join_with "; " ps] [ErrPlanInvalid])
       end.

End validate.

(** DeliveryPlan.Package looks in the original packages only. *)
Definition Package (p : DeliveryPlan) (id : string) : option WorkPackage :=
  List.find (fun wp => String.eqb (wp_ID wp) id) (pn_Packages p).
