(* ===== verification/HandReach.v ===== *)
(** The dependency order between packages: the search of dependencyOrdered ends and decides
    reachability, and the search for cycles decides circularity. *)
From S2P Require Import Prelude GoStd RunFailure RunQA RunPlan RunSpec HandIntent HandPlan.

Section reach.
Context (byID : gmap string WorkPackage).

(** x depends on y. *)
Definition dep (x y : string) : Prop := y ∈ depends byID x.

(** * The search ends *)

(** The dependencies of the packages not yet expanded. *)
Definition weight (l : list (string * WorkPackage)) (seen : gset string) : nat :=
  list_sum ((fun kv => if bool_decide (kv.1 ∈ seen) then 0%nat else length (wp_DependsOn kv.2)) <$> l).

Lemma weight_nil_seen l cur seen :
  cur ∉ l.*1 -> weight l ({[cur]} ∪ seen) = weight l seen.
Proof.
  induction l as [|[k wp] l IH]; intros Hn; [done|]. apply not_elem_of_cons in Hn as [Hk Hn].
  unfold weight in *. rewrite !fmap_cons. simpl. rewrite IH by done. f_equal.
  rewrite (bool_decide_ext (k ∈ {[cur]} ∪ seen) (k ∈ seen)); [done|]. set_solver.
Qed.

Lemma weight_expand l cur seen :
  NoDup l.*1 -> cur ∉ seen ->
  (weight l ({[cur]} ∪ seen)
   + length (match (list_to_map l : gmap string WorkPackage) !! cur with Some wp => wp_DependsOn wp | None => [] end)
   = weight l seen)%nat.
Proof.
  induction l as [|[k wp] l IH]; intros Hnd Hc; [done|]. apply NoDup_cons in Hnd as [Hk Hnd].
  simpl list_to_map. destruct (decide (k = cur)) as [->|Hne].
  - rewrite lookup_insert_eq. assert (Hw := weight_nil_seen l cur seen Hk). unfold weight in *. rewrite !fmap_cons.
    simpl. rewrite Hw, (bool_decide_eq_true_2 (cur ∈ _)) by set_solver. rewrite bool_decide_eq_false_2 by done. lia.
  - rewrite lookup_insert_ne by done. specialize (IH Hnd Hc). unfold weight in *. rewrite !fmap_cons. simpl.
    rewrite <- IH, (bool_decide_ext (k ∈ {[cur]} ∪ seen) (k ∈ seen)) by set_solver. lia.
Qed.

Lemma reach_loop_total to fuel : forall stack seen,
  (length stack + weight (map_to_list byID) seen <= fuel)%nat -> is_Some (reach_loop byID to fuel stack seen).
Proof.
  induction fuel as [|fuel IH]; intros [|cur stack] seen Hf; simpl in *; [by eexists|lia|by eexists|].
  destruct (String.eqb cur to); [by eexists|]. case_bool_decide as Hs; [apply IH; lia|]. apply IH.
  assert (Hw := weight_expand (map_to_list byID) cur seen (NoDup_fst_map_to_list _) Hs).
  rewrite list_to_map_to_list in Hw. rewrite length_app, length_rev. unfold depends. lia.
Qed.

Lemma reaches_total from to : is_Some (reach_loop byID to (reach_fuel byID) [from] ∅).
Proof.
  apply reach_loop_total. unfold reach_fuel, weight. simpl. apply le_n_S. apply Nat.eq_le_incl. f_equal.
Qed.

(** * The search decides reachability *)

Lemma reach_loop_true to fuel : forall stack seen,
  reach_loop byID to fuel stack seen = Some true -> exists x, x ∈ stack /\ rtc dep x to.
Proof.
  induction fuel as [|fuel IH]; intros [|cur stack] seen; simpl; try done.
  destruct (String.eqb_spec cur to) as [->|_]; [intros _; exists to; split; [left|done]|].
  case_bool_decide as Hs; intros Hr; destruct (IH _ _ Hr) as (x & Hin & Hx).
  - exists x. split; [by right|done].
  - apply elem_of_app in Hin as [Hin|Hin]; [|exists x; split; [by right|done]].
    exists cur. split; [left|]. eapply rtc_l; [|exact Hx]. unfold dep. by apply list_elem_of_In, in_rev, list_elem_of_In.
Qed.

(** Nothing expanded is the target, and what it depends on is expanded or waiting. *)
Definition frontier (to : string) (seen : gset string) (stack : list string) : Prop :=
  forall x, x ∈ seen -> x <> to /\ forall y, dep x y -> y ∈ seen \/ y ∈ stack.

Lemma frontier_done to seen x : frontier to seen [] -> x ∈ seen -> ~ rtc dep x to.
Proof.
  intros Hf Hin Hr. revert Hin. induction Hr as [y|x y z Hd _ IH]; intros Hin; [by destruct (Hf y Hin)|].
  apply IH; [done|]. destruct (Hf x Hin) as [_ Hn]. by destruct (Hn y Hd) as [|?%elem_of_nil].
Qed.

Lemma reach_loop_false to fuel : forall stack seen,
  frontier to seen stack -> reach_loop byID to fuel stack seen = Some false ->
  forall x, x ∈ stack \/ x ∈ seen -> ~ rtc dep x to.
Proof.
  induction fuel as [|fuel IH]; intros [|cur stack] seen Hf; simpl; try done.
  1,2: intros _ x [?%elem_of_nil|Hin]; [done|by eapply frontier_done].
  destruct (String.eqb_spec cur to) as [|Hne]; [done|]. case_bool_decide as Hs; intros Hr.
  - intros x Hx. apply (IH stack seen); [|done|].
    + intros y Hy. destruct (Hf y Hy) as [? Hn]. split; [done|]. intros z Hz.
      destruct (Hn z Hz) as [|[->|]%elem_of_cons]; auto.
    + destruct Hx as [[->|]%elem_of_cons|]; auto.
  - intros x Hx. apply (IH _ _) with (x := x) in Hr; [done| |].
    + intros y [->%elem_of_singleton|Hy]%elem_of_union.
      * split; [done|]. intros z Hz. right. apply elem_of_app. left. by apply list_elem_of_In, in_rev in Hz; apply list_elem_of_In.
      * destruct (Hf y Hy) as [? Hn]. split; [done|]. intros z Hz.
        destruct (Hn z Hz) as [|[->|]%elem_of_cons]; [left; set_solver|left; set_solver|right; apply elem_of_app; by right].
    + destruct Hx as [[->|]%elem_of_cons|]; [right; set_solver|left; apply elem_of_app; by right|right; set_solver].
Qed.

Lemma reaches_exact from to : reaches byID from to = true <-> rtc dep from to.
Proof.
  unfold reaches. destruct (reaches_total from to) as [[|] Hr]; rewrite Hr; simpl; split; try done.
  - intros _. by destruct (reach_loop_true _ _ _ _ Hr) as (x & ->%list_elem_of_singleton & Hx).
  - intros Hx. exfalso. refine (reach_loop_false to _ _ _ _ Hr from _ Hx); [done|left; left].
Qed.

Lemma dependencyOrdered_exact a b : dependencyOrdered byID a b = true <-> rtc dep a b \/ rtc dep b a.
Proof. unfold dependencyOrdered. by rewrite orb_true_iff, !reaches_exact. Qed.

End reach.

(** * Cycles *)

Definition deps_of (pkgs : list WorkPackage) : gmap string (list string) :=
  fold_left (fun m wp => <[wp_ID wp := wp_DependsOn wp]> m) pkgs ∅.

Lemma deps_of_snoc pkgs wp : deps_of (pkgs ++ [wp]) = <[wp_ID wp := wp_DependsOn wp]> (deps_of pkgs).
Proof. unfold deps_of. by rewrite fold_left_app. Qed.

Lemma deps_of_known pkgs id : is_Some (deps_of pkgs !! id) <-> id ∈ wp_ID <$> pkgs.
Proof.
  induction pkgs as [|wp pkgs IH] using rev_ind.
  - unfold deps_of. simpl. rewrite lookup_empty. split; [by intros [? ?]|by intros ?%elem_of_nil].
  - rewrite deps_of_snoc, fmap_app, elem_of_app, lookup_insert_is_Some', IH.
    change (wp_ID <$> [wp]) with [wp_ID wp]. rewrite list_elem_of_singleton. intuition congruence.
Qed.

Lemma deps_of_package pkgs wp :
  NoDup (wp_ID <$> pkgs) -> wp ∈ pkgs -> deps_of pkgs !! wp_ID wp = Some (wp_DependsOn wp).
Proof.
  induction pkgs as [|x pkgs IH] using rev_ind; [by intros _ ?%elem_of_nil|].
  rewrite fmap_app, NoDup_app, deps_of_snoc. intros (Hnd & Hx & _) [Hin| ->%list_elem_of_singleton]%elem_of_app.
  - rewrite lookup_insert_ne; [by apply IH|]. intros E. apply (Hx (wp_ID wp)); [by apply list_elem_of_fmap_2|].
    rewrite <- E. apply list_elem_of_singleton. done.
  - by rewrite lookup_insert_eq.
Qed.

Lemma findCycle_exact pkgs :
  findCycle pkgs = "" <-> forall id, id ∈ wp_ID <$> pkgs -> grounded (deps_of pkgs) id.
Proof.
  unfold findCycle. fold (deps_of pkgs).
  destruct (walk_all_spec (deps_of pkgs) (sort_Strings (wp_ID <$> pkgs)) (mkWalk ∅ [])) as (c & Hc & Hr);
    [apply Inv_empty|done|intros id; rewrite elem_of_sort_Strings; by apply deps_of_known|].
  rewrite Hc. simpl. destruct Hr as [(-> & Hg)|(Hne & z & Hz)].
  - split; [|done]. intros _ id Hin. apply Hg. by apply elem_of_sort_Strings.
  - split; [by intros ->|]. intros Hg. exfalso. apply (grounded_not_circular (deps_of pkgs) z); [|done].
    apply Hg, deps_of_known. by apply circular_known.
Qed.
