(* ===== verification/HandCover.v ===== *)
(** Required behaviours (missingBehaviours of internal/handoff/plan.go): every requirement
    that is not reported missing has an occurrence of its own in the text, a whole word
    no other requirement used, and one that is reported missing has none left. *)
From Stdlib Require Import Ascii.
From S2P Require Import Prelude GoStd RunFailure RunQA RunPlan RunSpec HandIntent HandPlan.

(** * Positions in a text *)

Lemma drop_bytes_add a : forall b s, drop_bytes (a + b) s = drop_bytes b (drop_bytes a s).
Proof. induction a as [|a IH]; intros b [|c s]; simpl; try done. by destruct b. Qed.

Lemma drop_bytes_length n : forall s, String.length (drop_bytes n s) = (String.length s - n)%nat.
Proof. induction n as [|n IH]; intros [|c s]; simpl; try done. Qed.

Lemma HasPrefix_length s m : HasPrefix s m = true -> (String.length m <= String.length s)%nat.
Proof. intros [r ->]%HasPrefix_spec. rewrite string_length_app. lia. Qed.

Lemma Index_spec s m :
  match Index s m with
  | Some n => HasPrefix (drop_bytes n s) m = true /\ forall k, (k < n)%nat -> HasPrefix (drop_bytes k s) m = false
  | None => forall k, HasPrefix (drop_bytes k s) m = false
  end.
Proof.
  induction s as [|c s IH]; cbn [Index].
  - destruct (HasPrefix "" m) eqn:E; [by split; [|lia]|]. by intros [|k].
  - destruct (HasPrefix (String c s) m) eqn:E; [split; [done|lia]|]. destruct (Index s m) as [n|]; simpl.
    + destruct IH as [Hn Hk]. split; [done|]. intros [|k] Hlt; [done|]. apply Hk. lia.
    + intros [|k]; [done|apply IH].
Qed.

(** * Spans *)

Definition span : Type := nat * nat.
Definition covers (s : span) (i : nat) : Prop := (s.1 <= i < s.1 + s.2)%nat.
Definition overlap (s t : span) : Prop := exists i, covers s i /\ covers t i.

Definition free (spent : list bool) (s : span) : Prop := spanIsSpent spent s.1 (s.1 + s.2) = false.

Lemma in_span a n i : i ∈ seq a n <-> (a <= i < a + n)%nat.
Proof. rewrite list_elem_of_In. apply in_seq. Qed.

Lemma spent_spec spent s :
  spanIsSpent spent s.1 (s.1 + s.2) = true <-> exists i, covers s i /\ spent !! i = Some true.
Proof.
  unfold spanIsSpent, covers. rewrite existsb_exists. replace (s.1 + s.2 - s.1)%nat with s.2 by lia. split.
  - intros (i & Hi & Ht). apply in_seq in Hi. exists i. split; [done|]. by destruct (spent !! i) as [[|]|].
  - intros (i & Hi & Ht). exists i. split; [by apply in_seq|by rewrite Ht].
Qed.

Lemma spend_length l : forall spent, length (fold_left (fun l i => <[i := true]> l) l spent) = length (spent : list bool).
Proof. induction l as [|i l IH]; intros spent; simpl; [done|]. by rewrite IH, length_insert. Qed.

Lemma spend_lookup l : forall (spent : list bool) i,
  (forall k, k ∈ l -> (k < length spent)%nat) ->
  fold_left (fun l i => <[i := true]> l) l spent !! i = Some true <-> i ∈ l \/ spent !! i = Some true.
Proof.
  induction l as [|k l IH]; intros spent i Hl; simpl; [split; [by right|by intros [?%elem_of_nil|]]|].
  rewrite IH; [|intros x Hx; rewrite length_insert; apply Hl; by right]. rewrite elem_of_cons.
  destruct (decide (k = i)) as [->|Hne].
  - rewrite list_lookup_insert_eq by (apply Hl; left). intuition.
  - rewrite list_lookup_insert_ne by done. intuition congruence.
Qed.

(** * Occurrences *)

Section cover.
Context `{GoTables}.
Context (said : string).

(** A spelling of the requirement stands at the span as a word of its own. *)
Definition spelled (alt : string) (s : span) : Prop :=
  s.2 = String.length alt /\ HasPrefix (drop_bytes s.1 said) alt = true /\ wholeWord said s.1 (s.1 + s.2) = true.

Definition occurs (r : string) (s : span) : Prop :=
  exists alt, alt ∈ alternatives r /\ ToLower alt <> "" /\ spelled (ToLower alt) s.

Lemma spelled_inside alt s : spelled alt s -> alt <> "" -> (s.1 + s.2 <= String.length said)%nat /\ (0 < s.2)%nat.
Proof.
  intros (-> & Hp & _) Hne. apply HasPrefix_length in Hp. rewrite drop_bytes_length in Hp.
  destruct alt; [done|]. simpl in *. lia.
Qed.

Lemma claim_alt_spec alt spent fuel : forall at_,
  alt <> "" -> (S (String.length said) - at_ <= fuel)%nat -> (at_ <= S (String.length said))%nat ->
  match claim_alt fuel said spent alt at_ with
  | Some spent' => exists s, spelled alt s /\ free spent s /\ spent' = spend spent s.1 (s.1 + s.2)
  | None => forall s, (at_ <= s.1)%nat -> spelled alt s -> ~ free spent s
  end.
Proof.
  induction fuel as [|fuel IH]; intros at_ Hne Hf Ha; cbn [claim_alt].
  { intros s Hs Hsp. destruct (spelled_inside _ _ Hsp Hne). lia. }
  assert (Hi := Index_spec (drop_bytes at_ said) alt). destruct (Index (drop_bytes at_ said) alt) as [found|].
  - destruct Hi as [Hfound Hleast]. rewrite <- drop_bytes_add in Hfound. set (start := (at_ + found)%nat) in *.
    assert (Hlen := HasPrefix_length _ _ Hfound). rewrite drop_bytes_length in Hlen.
    assert (Hpos : (0 < String.length alt)%nat) by (destruct alt; [done|simpl; lia]).
    destruct (negb (wholeWord said start (start + String.length alt))
              || spanIsSpent spent start (start + String.length alt)) eqn:Eb.
    + assert (Hrec := IH (S start) Hne ltac:(lia) ltac:(lia)).
      destruct (claim_alt fuel said spent alt (S start)) as [spent'|]; [done|].
      intros s Hs Hsp Hfree. destruct (decide (S start <= s.1)%nat) as [|Hlt]; [by apply (Hrec s)|].
      assert (Heq : s.1 = start).
      { destruct (decide (s.1 < start)%nat) as [Hlt'|]; [|lia]. destruct Hsp as (_ & Hp & _).
        assert (Hk := Hleast (s.1 - at_)%nat ltac:(lia)). rewrite <- drop_bytes_add in Hk.
        replace (at_ + (s.1 - at_))%nat with s.1 in Hk by lia. congruence. }
      destruct Hsp as (Hl & _ & Hw). unfold free in Hfree. rewrite Heq, Hl in *.
      rewrite Hw, Hfree in Eb. done.
    + apply orb_false_iff in Eb as [Hw%negb_false_iff Hfree]. by exists (start, String.length alt).
  - intros s Hs (_ & Hp & _). specialize (Hi (s.1 - at_)%nat). rewrite <- drop_bytes_add in Hi.
    replace (at_ + (s.1 - at_))%nat with s.1 in Hi by lia. congruence.
Qed.

Lemma claim_any_spec spent alts :
  match claim_any said spent alts with
  | Some spent' => exists alt s, alt ∈ alts /\ ToLower alt <> "" /\ spelled (ToLower alt) s /\ free spent s
                   /\ spent' = spend spent s.1 (s.1 + s.2)
  | None => forall alt s, alt ∈ alts -> ToLower alt <> "" -> spelled (ToLower alt) s -> ~ free spent s
  end.
Proof.
  induction alts as [|alt alts IH]; cbn [claim_any]; [by intros ? ? ?%elem_of_nil|].
  assert (Hgo : match claim_any said spent alts with
    | Some spent' => exists alt' s, alt' ∈ alt :: alts /\ ToLower alt' <> "" /\ spelled (ToLower alt') s /\ free spent s
                     /\ spent' = spend spent s.1 (s.1 + s.2)
    | None => forall alt' s, alt' ∈ alts -> ToLower alt' <> "" -> spelled (ToLower alt') s -> ~ free spent s
    end).
  { destruct (claim_any said spent alts); [|done]. destruct IH as (a & s & Ha & ?). exists a, s. split; [by right|done]. }
  destruct (String.eqb_spec (ToLower alt) "") as [E|E].
  - destruct (claim_any said spent alts); [done|]. intros alt' s [->|Hin]%elem_of_cons; [done|by apply Hgo].
  - assert (Hc := claim_alt_spec (ToLower alt) spent (S (String.length said)) 0 E ltac:(lia) ltac:(lia)).
    destruct (claim_alt _ said spent (ToLower alt) 0) as [spent'|].
    + destruct Hc as (s & ? & ? & ?). exists alt, s. split; [left|done].
    + destruct (claim_any said spent alts); [done|]. intros alt' s [->|Hin]%elem_of_cons; [|by apply Hgo].
      intros _ Hs. apply Hc; [lia|done].
Qed.

Lemma claimOccurrence_spec spent r :
  match claimOccurrence said spent r with
  | Some spent' => exists s, occurs r s /\ free spent s /\ spent' = spend spent s.1 (s.1 + s.2)
  | None => forall s, occurs r s -> ~ free spent s
  end.
Proof.
  unfold claimOccurrence. assert (Hc := claim_any_spec spent (alternatives r)).
  destruct (claim_any said spent (alternatives r)).
  - destruct Hc as (alt & s & Hin & Hne & Hsp & Hf & ->). exists s. split; [by exists alt|done].
  - intros s (alt & Hin & Hne & Hsp). by apply (Hc alt).
Qed.

(** * The claims *)

(** The text spent is what the claims so far cover. *)
Record marks (spent : list bool) (f : gmap nat span) : Prop := {
  mk_length : length spent = String.length said;
  mk_spent : forall i, spent !! i = Some true <-> exists k s, f !! k = Some s /\ covers s i;
  mk_apart : forall k l s t, k <> l -> f !! k = Some s -> f !! l = Some t -> ~ overlap s t
}.

Lemma marks_claim spent f k r s :
  marks spent f -> f !! k = None -> occurs r s -> free spent s -> marks (spend spent s.1 (s.1 + s.2)) (<[k := s]> f).
Proof.
  intros [Hl Hs Ha] Hk (alt & _ & Hne & Hsp) Hf. destruct (spelled_inside _ _ Hsp Hne) as [Hin _].
  assert (Hno : forall i, covers s i -> spent !! i <> Some true).
  { intros i Hi Ht. unfold free in Hf. rewrite (proj2 (spent_spec spent s)) in Hf; [done|by exists i]. }
  unfold spend. replace (s.1 + s.2 - s.1)%nat with s.2 by lia. split.
  - by rewrite spend_length.
  - intros i. rewrite spend_lookup, in_span, Hs by (intros x; rewrite in_span; lia). split.
    + intros [Hi|(l & t & Hlt & Hi)]; [exists k, s; by rewrite lookup_insert_eq|]. exists l, t.
      rewrite lookup_insert_ne; [done|congruence].
    + intros (l & t & Hlt & Hi). destruct (decide (k = l)) as [->|E].
      * rewrite lookup_insert_eq in Hlt. injection Hlt as <-. by left.
      * rewrite lookup_insert_ne in Hlt by done. right. by exists l, t.
  - assert (Hnew : forall l t, f !! l = Some t -> ~ overlap s t).
    { intros l t Hlt (i & Hi & Hi'). apply (Hno i Hi), Hs. by exists l, t. }
    intros a b sa sb Hab Ea Eb. destruct (decide (k = a)) as [<-|Hka], (decide (k = b)) as [<-|Hkb]; [done| | |].
    + rewrite lookup_insert_eq in Ea. rewrite lookup_insert_ne in Eb by done. injection Ea as <-. by eapply Hnew.
    + rewrite lookup_insert_eq in Eb. rewrite lookup_insert_ne in Ea by done. injection Eb as <-.
      intros (i & Hi & Hi'). apply (Hnew a sa Ea). by exists i.
    + rewrite lookup_insert_ne in Ea, Eb by done. by apply (Ha a b).
Qed.

(** What the claims of a list of requirements come to. *)
Record claimed (order : list (nat * string)) (f f' : gmap nat span) (unmet unmet' : gset nat) : Prop := {
  cl_keeps : f ⊆ f';
  cl_met : forall i r s, (i, r) ∈ order -> f' !! i = Some s -> occurs r s;
  cl_only : forall i s, f' !! i = Some s -> f !! i = Some s \/ i ∈ order.*1;
  cl_unmet : forall i, i ∈ unmet' <-> i ∈ unmet \/ (i ∈ order.*1 /\ f' !! i = None);
  cl_none : forall i r s, (i, r) ∈ order -> f' !! i = None -> occurs r s -> exists k t, f' !! k = Some t /\ overlap s t
}.

Lemma not_free spent f s : marks spent f -> ~ free spent s -> exists k t, f !! k = Some t /\ overlap s t.
Proof.
  intros [_ Hs _] Hn. unfold free in Hn. apply not_false_is_true in Hn.
  apply spent_spec in Hn as (i & Hi & (k & t & Hk & Ht)%Hs). exists k, t. split; [done|]. by exists i.
Qed.

Lemma claim_all_spec order : forall spent f unmet,
  marks spent f -> NoDup order.*1 -> (forall i, i ∈ order.*1 -> f !! i = None) ->
  exists f', marks (claim_all said spent unmet order).1 f'
    /\ claimed order f f' unmet (claim_all said spent unmet order).2.
Proof.
  induction order as [|[i r] order IH]; intros spent f unmet Hm Hnd Hfresh; cbn [claim_all].
  { exists f. split; [done|]. split; [done| | | |]; try (by intros ? ? ? ?%elem_of_nil); [by left|].
    intros i. split; [by left|]. by intros [|[?%elem_of_nil _]]. }
  apply NoDup_cons in Hnd as [Hi Hnd]. assert (Hfi := Hfresh i ltac:(left)).
  assert (Hc := claimOccurrence_spec spent r). destruct (claimOccurrence said spent r) as [spent'|].
  - destruct Hc as (s & Hocc & Hfree & ->). assert (Hm' := marks_claim _ _ i r s Hm Hfi Hocc Hfree).
    destruct (IH _ (<[i := s]> f) unmet Hm' Hnd) as (f' & Hmf & Hcl).
    { intros j Hj. rewrite lookup_insert_ne; [apply Hfresh; by right|]. intros ->. done. }
    exists f'. split; [done|]. destruct Hcl as [H1 H2 H3 H4 H5].
    assert (Hf'i : f' !! i = Some s) by (eapply lookup_weaken; [apply lookup_insert_eq|done]). split.
    + etrans; [by apply insert_subseteq|done].
    + intros j r' t [[= -> ->]|Hin]%elem_of_cons Ht; [congruence|]. by apply (H2 j).
    + intros j t Ht. destruct (H3 j t Ht) as [Hj|Hj]; [|right; by right].
      destruct (decide (i = j)) as [->|E]; [right; left|left; by rewrite lookup_insert_ne in Hj].
    + intros j. rewrite H4. change ((i, r) :: order).*1 with (i :: order.*1). rewrite elem_of_cons.
      split; [intros [|[? ?]]; auto|]. intros [|[[->|] ?]]; auto. congruence.
    + intros j r' t [[= -> ->]|Hin]%elem_of_cons Ht Ho; [congruence|]. by apply (H5 j r').
  - destruct (IH spent f ({[i]} ∪ unmet) Hm Hnd) as (f' & Hmf & Hcl). { intros j Hj. apply Hfresh. by right. }
    exists f'. split; [done|]. destruct Hcl as [H1 H2 H3 H4 H5].
    assert (Hf'i : f' !! i = None).
    { destruct (f' !! i) as [t|] eqn:E; [|done]. destruct (H3 i t E) as [|]; [congruence|done]. }
    assert (Hmono : forall s k t, f !! k = Some t -> overlap s t -> exists k t, f' !! k = Some t /\ overlap s t).
    { intros s k t Hk Ho. exists k, t. split; [by eapply lookup_weaken|done]. }
    split; [done| | | |].
    + intros j r' t [[= -> ->]|Hin]%elem_of_cons Ht; [congruence|]. by apply (H2 j).
    + intros j t Ht. destruct (H3 j t Ht); [by left|right; by right].
    + intros j. rewrite H4, elem_of_union, elem_of_singleton.
      change ((i, r) :: order).*1 with (i :: order.*1). rewrite elem_of_cons. split.
      * intros [[->|]|[? ?]]; auto.
      * intros [|[[->|] ?]]; auto.
    + intros j r' t [[= -> ->]|Hin]%elem_of_cons Ht Ho; [|by apply (H5 j r')].
      destruct (not_free _ _ _ Hm (Hc t Ho)) as (k & u & Hk & Hu). by apply (Hmono t k u).
Qed.

End cover.

(** * The order of the claims *)

Lemma insert_longest_perm r l : insert_longest r l ≡ₚ r :: l.
Proof. induction l as [|q l IH]; simpl; [done|]. destruct (_ <=? _)%nat; [done|]. by rewrite IH, Permutation_swap. Qed.

Lemma longest_first_perm l : longest_first l ≡ₚ l.
Proof. induction l as [|r l IH]; simpl; [done|]. unfold longest_first in *. simpl. by rewrite insert_longest_perm, IH. Qed.

Lemma numbered_fst l : (numbered l).*1 = seq 0 (length l).
Proof. unfold numbered. apply fst_zip. by rewrite length_seq. Qed.

Lemma numbered_lookup l i r : (i, r) ∈ numbered l <-> l !! i = Some r.
Proof.
  unfold numbered. rewrite list_elem_of_lookup. setoid_rewrite lookup_zip_with_Some. split.
  - intros (k & a & b & [= <- <-] & Ha & Hb). apply lookup_seq in Ha as [-> _]. done.
  - intros Hl. exists i, i, r. split; [done|]. split; [|done]. apply lookup_seq. split; [done|]. by apply lookup_lt_Some in Hl.
Qed.

(** * Theorems *)

(** An assignment of occurrences to requirements: each its own, apart from the others, the
    requirements without one reported, and none of those left with a free occurrence. *)
Record coverage `{GoTables} (said : string) (required : list string) (missing : list string)
    (f : gmap nat span) : Prop := {
  cv_own : forall i s, f !! i = Some s -> exists r, required !! i = Some r /\ occurs said r s;
  cv_apart : forall i j s t, i <> j -> f !! i = Some s -> f !! j = Some t -> ~ overlap s t;
  cv_missing : missing = snd <$> List.filter (fun ir => bool_decide (f !! ir.1 = None)) (numbered required);
  cv_spent : forall i r s, required !! i = Some r -> f !! i = None -> occurs said r s ->
             exists j t, f !! j = Some t /\ overlap s t
}.

Lemma missingBehaviours_coverage `{GoTables} said required :
  exists f, coverage said required (missingBehaviours said required) f.
Proof.
  destruct (claim_all_spec said (longest_first (numbered required)) (replicate (String.length said) false) ∅ ∅)
    as (f & Hm & [_ Hmet Honly Hun Hnone]).
  - split; [apply length_replicate| |by intros ? ? ? ? _ ?%lookup_empty_Some].
    intros i. split; [|by intros (? & ? & ?%lookup_empty_Some & _)]. intros Hi. by apply lookup_replicate in Hi as [? _].
  - rewrite longest_first_perm, numbered_fst. apply NoDup_seq.
  - done.
  - assert (Hfst : forall i, i ∈ (longest_first (numbered required)).*1 <-> is_Some (required !! i)).
    { intros i. rewrite longest_first_perm, numbered_fst, in_span, lookup_lt_is_Some. lia. }
    exists f. split.
    + intros i s Hi. destruct (Honly i s Hi) as [?%lookup_empty_Some|Hin]; [done|]. apply Hfst in Hin as [r Hr].
      exists r. split; [done|]. apply (Hmet i r s); [|done]. rewrite longest_first_perm. by apply numbered_lookup.
    + apply (mk_apart said _ _ Hm).
    + unfold missingBehaviours. f_equal. apply filter_ext_in. intros [i r] Hin. simpl.
      apply list_elem_of_In, numbered_lookup in Hin. apply bool_decide_ext. rewrite Hun. split.
      * intros [?%elem_of_empty|[_ ?]]; [done|done].
      * intros Hi. right. split; [|done]. apply Hfst. by exists r.
    + intros i r s Hr Hi. apply Hnone with (i := i); [|done]. rewrite longest_first_perm. by apply numbered_lookup.
Qed.

(** (C17) Coverage is what it says: a requirement not reported missing has an occurrence of
    one of its spellings in the text that is a whole word and that no other requirement
    shares, and a requirement reported missing has no occurrence outside those of the
    others; the report keeps the order of the author. *)
Theorem missingBehaviours_exact `{GoTables} said required :
  exists f, coverage said required (missingBehaviours said required) f.
Proof. apply missingBehaviours_coverage. Qed.

(** Every requirement has an occurrence of its own in the text, apart from the others. *)
Definition promised `{GoTables} (said : string) (required : list string) : Prop :=
  exists f : gmap nat span,
    (forall i r, required !! i = Some r -> exists s, f !! i = Some s /\ occurs said r s)
    /\ forall i j s t, i <> j -> f !! i = Some s -> f !! j = Some t -> ~ overlap s t.

Lemma missing_none_promised `{GoTables} said required : missingBehaviours said required = [] -> promised said required.
Proof.
  intros Hm. destruct (missingBehaviours_coverage said required) as (f & [Hown Hap Hmiss _]). rewrite Hm in Hmiss.
  exists f. split; [|done]. intros i r Hr. destruct (f !! i) as [s|] eqn:E.
  - exists s. split; [done|]. destruct (Hown i s E) as (r' & Hr' & Ho). congruence.
  - symmetry in Hmiss. apply fmap_nil_inv in Hmiss.
    assert (Hin : In (i, r) (List.filter (fun ir => bool_decide (f !! ir.1 = None)) (numbered required))).
    { apply filter_In. split; [by apply list_elem_of_In, numbered_lookup|]. by rewrite bool_decide_eq_true_2. }
    by rewrite Hmiss in Hin.
Qed.

(** Between requirements of the same length the first declared takes the first occurrence,
    so whether a plan covers its criterion depends on the order they were written in. *)
Theorem missing_depends_on_order `{GoTables} :
  missingBehaviours "a b" ["a|b"; "a"] = ["a"] /\ missingBehaviours "a b" ["a"; "a|b"] = [].
Proof. split; vm_compute; reflexivity. Qed.
