(* ===== verification/HandPlanProps.v ===== *)
(** What a delivery plan must keep to be accepted against its intent: what the loops over
    packages, paths, generations and remediations accept, and the theorem. *)
From Stdlib Require Import Sorted.
From S2P Require Import Prelude GoStd RunFailure RunQA RunPlan RunController RunSpec.
From S2P Require Import HandIntent HandPlan HandReach HandCover.

(** * Lists whose neighbours are related *)

Lemma Sorted_app_l {A} (R : A -> A -> Prop) l l' : Sorted R (l ++ l') -> Sorted R l.
Proof.
  induction l as [|a l IH]; simpl; [constructor|]. intros [Hs Hh]%Sorted_inv. constructor; [by apply IH|].
  destruct l; simpl in *; [constructor|]. apply HdRel_inv in Hh. by constructor.
Qed.

Lemma Sorted_neighbours {A} (R : A -> A -> Prop) l x y l' : Sorted R (l ++ x :: y :: l') -> R x y.
Proof.
  induction l as [|a l IH]; simpl; intros [Hs Hh]%Sorted_inv; [by apply HdRel_inv in Hh|by apply IH].
Qed.

Lemma Sorted_last {A} (R : A -> A -> Prop) l x y l' : last l = Some x -> Sorted R (l ++ y :: l') -> R x y.
Proof. intros [k ->]%last_Some. rewrite <- app_assoc. apply Sorted_neighbours. Qed.

Lemma Sorted_snoc {A} (R : A -> A -> Prop) l y :
  Sorted R l -> (forall x, last l = Some x -> R x y) -> Sorted R (l ++ [y]).
Proof.
  induction l as [|a l IH]; simpl; intros Hs Hl; [by repeat constructor|]. apply Sorted_inv in Hs as [Hs Hh].
  constructor; [apply IH; [done|]; intros x Hx; apply Hl; by destruct l|].
  destruct l as [|b l]; simpl; [constructor; by apply Hl|]. constructor. by apply HdRel_inv in Hh.
Qed.

Lemma fmap_nil_eq {A B} (f : A -> B) (l : list A) : f <$> l = [] <-> l = [].
Proof. by destruct l. Qed.

Section plan.
Context `{GoTables}.

(** * Gates *)

(** A gate is one command of a project runner, written verbatim, that names nothing outside
    the worktree. *)
Record gate_ok (g : string) : Prop := {
  gt_some : g <> "";
  gt_verbatim : TrimSpace g = g;
  gt_plain : ContainsAny g gateForbidden = false;
  gt_inside : Forall (fun t => traverses t = false) (Fields g);
  gt_runner : exists r args, Fields g = r :: args /\ r ∈ gateRunners
}.

Lemma existsb_Forall {A} (f : A -> bool) l : existsb f l = false <-> Forall (fun x => f x = false) l.
Proof. induction l as [|x l IH]; simpl; [by split; [constructor|]|]. by rewrite orb_false_iff, Forall_cons, IH. Qed.

Lemma runners_plain : Forall (fun r => Contains r "/" = false) gateRunners.
Proof. by repeat constructor. Qed.

Lemma ValidateGate_ok g : ValidateGate g = None <-> gate_ok g.
Proof.
  unfold ValidateGate. split.
  - destruct (String.eqb_spec (TrimSpace g) ""); [done|]. destruct (String.eqb_spec (TrimSpace g) g) as [E|]; [|done]. simpl.
    destruct (ContainsAny g gateForbidden) eqn:Ec; [done|]. destruct (existsb traverses (Fields g)) eqn:Et; [done|].
    destruct (Contains _ _); [done|]. case_bool_decide as Hr; [|done]. intros _. split; try done; [congruence|by apply existsb_Forall|].
    destruct (Fields g) as [|r args]; [|by exists r, args]. apply (bool_decide_unpack _) in Hr || (simpl in Hr; set_solver).
  - intros [H1 H2 H3 H4%existsb_Forall (r & args & Hf & Hr)]. rewrite H2, String.eqb_refl. apply String.eqb_neq in H1. rewrite H1, H3, H4. simpl.
    rewrite Hf. simpl. assert (Hp := runners_plain). rewrite Forall_forall in Hp. rewrite (Hp r Hr), bool_decide_eq_true_2 by done. done.
Qed.

Lemma gate_problems_nil label gates : forall seen,
  gate_problems label seen gates = []
  <-> Forall (fun g => ValidateGate g = None) gates /\ NoDup gates /\ Forall (fun g => g ∉ seen) gates.
Proof.
  induction gates as [|g gates IH]; intros seen; cbn [gate_problems].
  { split; [|done]. intros _. repeat split; constructor. }
  rewrite NoDup_cons, !Forall_cons. destruct (ValidateGate g) as [e|]; [by split; [|intros [[? _] _]]|].
  rewrite app_nil, problem_if_nil, bool_decide_eq_false, IH, !Forall_forall. split.
  - intros (Hg & Hok & Hnd & Hs). repeat split; try done; [|intros x Hx; specialize (Hs x Hx); set_solver].
    intros Hin. specialize (Hs g Hin). set_solver.
  - intros ([_ Hok] & [Hg Hnd] & [Hgs Hs]). repeat split; try done. intros x Hx [->%elem_of_singleton|Hin]%elem_of_union;
      [done|by apply (Hs x)].
Qed.

(** * Paths and their claimants *)

Definition usable (raw : string) : Prop := exists c, repoRelative raw = inl c /\ isProtected c = None.

Definition clean_paths (raws : list string) : list string :=
  raws ≫= fun raw => match repoRelative raw with inl c => [c] | inr _ => [] end.

(** The claims of one package on a path. *)
Definition claims_on (c : string) (wp : WorkPackage) : list string :=
  (fun _ => wp_ID wp) <$> List.filter (String.eqb c) (clean_paths (wp_AuthorizedPaths wp)).

(** The packages of a generation that claim a path, in order. *)
Definition claimants (pkgs : list WorkPackage) (c : string) : list string := pkgs ≫= claims_on c.

(** One of the two waits for the other's merge. *)
Definition sequential (byID : gmap string WorkPackage) (a b : string) : Prop :=
  rtc (dep byID) a b \/ rtc (dep byID) b a.

(** The map of owners says who claimed a path last, in this generation. *)
Definition tracks (gen : Z) (hist : string -> list string) (owner : gmap string pathClaim) : Prop :=
  forall c, (forall claim, owner !! c = Some claim -> pc_gen claim <= gen)
    /\ match last (hist c) with
       | Some id => exists label, owner !! c = Some (mkClaim label id gen)
       | None => forall claim, owner !! c = Some claim -> pc_gen claim < gen
       end.

Definition more (hist : string -> list string) (id : string) (raws : list string) (c : string) : list string :=
  hist c ++ ((fun _ => id) <$> List.filter (String.eqb c) (clean_paths raws)).

Lemma tracks_ext gen hist hist' owner :
  (forall c, hist' c = hist c) -> tracks gen hist owner -> tracks gen hist' owner.
Proof. intros E Ht c. rewrite E. apply Ht. Qed.

Lemma tracks_claim gen hist owner c id label :
  tracks gen hist owner ->
  tracks gen (fun c' => if decide (c' = c) then hist c ++ [id] else hist c') (<[c := mkClaim label id gen]> owner).
Proof.
  intros Ht c'. destruct (decide (c' = c)) as [->|E].
  - rewrite last_snoc, lookup_insert_eq. split; [|by exists label]. intros claim [= <-]. simpl. lia.
  - rewrite lookup_insert_ne by done. apply Ht.
Qed.

Lemma more_cons hist id raw raws c :
  repoRelative raw = inl c ->
  forall c', more hist id (raw :: raws) c'
             = more (fun x => if decide (x = c) then hist c ++ [id] else hist x) id raws c'.
Proof.
  intros E c'. unfold more, clean_paths. rewrite bind_cons, E. simpl.
  destruct (String.eqb_spec c' c) as [->|Hne]; [rewrite decide_True by done|by rewrite decide_False].
  simpl. by rewrite <- app_assoc.
Qed.

(** A conflict is a claim by a package that the last claimant of this generation does not
    wait for, nor it for that one. *)
Lemma conflict_spec gen hist owner byID c id claim :
  tracks gen hist owner -> owner !! c = Some claim ->
  (pc_gen claim =? gen) && negb (dependencyOrdered byID (pc_id claim) id) = true
  <-> exists x, last (hist c) = Some x /\ ~ sequential byID x id.
Proof.
  intros Ht Hc. destruct (Ht c) as [_ Hl]. rewrite andb_true_iff, Z.eqb_eq, negb_true_iff, <- not_true_iff_false.
  rewrite dependencyOrdered_exact. destruct (last (hist c)) as [x|].
  - destruct Hl as [label Hl]. rewrite Hl in Hc. injection Hc as <-. simpl. split.
    + intros [_ Hn]. by exists x.
    + intros (y & [= <-] & Hn). done.
  - specialize (Hl claim Hc). split; [intros [? _]; lia|]. by intros (? & ? & _).
Qed.

Lemma path_claims_spec label gen byID id raws : forall owner clean hist,
  tracks gen hist owner -> (forall c, Sorted (sequential byID) (hist c)) ->
  let '(ps, owner', clean') := path_claims label gen byID id owner clean raws in
  (ps = [] <-> Forall usable raws /\ forall c, Sorted (sequential byID) (more hist id raws c))
  /\ (ps = [] -> tracks gen (more hist id raws) owner' /\ clean' = clean ++ clean_paths raws).
Proof.
  induction raws as [|raw raws IH]; intros owner clean hist Ht Hs; cbn [path_claims].
  { assert (E : forall c, more hist id [] c = hist c) by (intros c; unfold more; simpl; by rewrite app_nil_r).
    split; [|intros _; split; [by eapply tracks_ext|by rewrite app_nil_r]]. split; [|done].
    intros _. split; [constructor|]. intros c. by rewrite E. }
  destruct (repoRelative raw) as [c|e] eqn:Er.
  2:{ destruct (path_claims _ _ _ _ _ _ raws) as [[ps o] cl]. split; [|done]. split; [done|].
      intros [[(c & ? & _) _]%Forall_cons _]. congruence. }
  destruct (isProtected c) as [prefix|] eqn:Ep.
  { destruct (path_claims _ _ _ _ _ _ raws) as [[ps o] cl]. split; [|done]. split; [done|].
    intros [[(c' & ? & ?) _]%Forall_cons _]. congruence. }
  set (hist1 := fun x => if decide (x = c) then hist c ++ [id] else hist x).
  assert (Hmore : forall c', more hist id (raw :: raws) c' = more hist1 id raws c') by (by apply more_cons).
  assert (Hgo : (forall x, last (hist c) = Some x -> sequential byID x id) ->
    let '(ps, owner', clean') := path_claims label gen byID id (<[c := mkClaim label id gen]> owner) (clean ++ [c]) raws in
    (ps = [] <-> Forall usable (raw :: raws) /\ forall c, Sorted (sequential byID) (more hist id (raw :: raws) c))
    /\ (ps = [] -> tracks gen (more hist id (raw :: raws)) owner' /\ clean' = clean ++ clean_paths (raw :: raws))).
  { intros Hlast. assert (Hs1 : forall c', Sorted (sequential byID) (hist1 c')).
    { intros c'. unfold hist1. case_decide; [|done]. by apply Sorted_snoc. }
    specialize (IH (<[c := mkClaim label id gen]> owner) (clean ++ [c]) hist1 (tracks_claim _ _ _ _ _ _ Ht) Hs1).
    destruct (path_claims _ _ _ _ _ _ raws) as [[ps o] cl]. destruct IH as [IH1 IH2]. split.
    - rewrite IH1, Forall_cons. setoid_rewrite Hmore. split; [intros [? ?]|intros [[_ ?] ?]]; [|done].
      split; [|done]. split; [by exists c|done].
    - intros E. destruct (IH2 E) as [Ht' ->]. split; [by eapply tracks_ext|]. unfold clean_paths.
      rewrite bind_cons, Er, <- app_assoc. done. }
  destruct (owner !! c) as [claim|] eqn:Eo.
  - assert (Hc := conflict_spec gen hist owner byID c id claim Ht Eo).
    destruct ((pc_gen claim =? gen) && _) eqn:Eb.
    + destruct (proj1 Hc eq_refl) as (x & Hl & Hn). clear Hgo. destruct (path_claims _ _ _ _ _ _ raws) as [[ps o] cl].
      split; [|done]. split; [done|]. intros [_ Hall]. exfalso. apply Hn. specialize (Hall c).
      unfold more, clean_paths in Hall. rewrite bind_cons, Er in Hall. simpl in Hall. rewrite String.eqb_refl in Hall.
      by eapply Sorted_last.
    + apply Hgo. intros x Hx. destruct (decide (dependencyOrdered byID x id = true)) as [Ho|Ho];
        [by apply dependencyOrdered_exact|]. exfalso. apply (diff_false_true), Hc. exists x. split; [done|].
      intros Hq. by apply Ho, dependencyOrdered_exact.
  - apply Hgo. intros x Hx. destruct (Ht c) as [_ Hl]. rewrite Hx in Hl. destruct Hl as [? ?]. congruence.
Qed.

(** * Packages *)

(** A criterion a work package may claim. *)
Definition claimable (i : Intent) (c : string) : Prop :=
  c ∈ cr_ID <$> in_Acceptance i /\ forall k, k ∈ in_Acceptance i -> cr_ID k = c -> IsHuman k = false.

Lemma satisfies_problems_spec i label cs : forall satisfied,
  let '(ps, final) := satisfies_problems i label satisfied cs in
  (ps = [] <-> Forall (claimable i) cs) /\ (ps = [] -> final = list_to_set cs ∪ satisfied).
Proof.
  induction cs as [|c cs IH]; intros satisfied; cbn [satisfies_problems].
  { split; [by split; [constructor|]|]. intros _. simpl. by rewrite union_empty_l_L. }
  destruct (bool_decide (c ∈ cr_ID <$> in_Acceptance i)) eqn:Ec; cbn [negb].
  2:{ apply bool_decide_eq_false in Ec. specialize (IH satisfied). destruct (satisfies_problems _ _ _ cs) as [ps f]. split; [|done].
      split; [done|]. by intros [[? _] _]%Forall_cons. }
  apply bool_decide_eq_true in Ec. destruct (existsb _ (in_Acceptance i)) eqn:Eh.
  { specialize (IH satisfied). destruct (satisfies_problems _ _ _ cs) as [ps f]. split; [|done]. split; [done|].
    intros [[_ Hn] _]%Forall_cons. apply existsb_exists in Eh as (k & Hk%list_elem_of_In & Hh).
    apply andb_true_iff in Hh as [Hid%String.eqb_eq Hh]. by rewrite (Hn k Hk Hid) in Hh. }
  specialize (IH ({[c]} ∪ satisfied)). destruct (satisfies_problems _ _ _ cs) as [ps f]. simpl. destruct IH as [IH1 IH2].
  split; [|intros E; rewrite IH2 by done; simpl; set_solver]. rewrite IH1, Forall_cons. split; [|by intros [_ ?]].
  intros Hcs. split; [|done]. split; [done|]. intros k Hk Hid. destruct (IsHuman k) eqn:E; [|done]. exfalso.
  apply not_true_iff_false in Eh. apply Eh, existsb_exists. exists k. split; [by apply list_elem_of_In|].
  by rewrite Hid, String.eqb_refl, E.
Qed.

(** A package that checks may change nothing; one that changes must be able to. *)
Definition role_ok (gen : Z) (wp : WorkPackage) : Prop :=
  match wp_Verifies wp with
  | Some v => wp_AuthorizedPaths wp = [] /\ ShaPattern (vf_MergedSha v) = true /\ wp_Gates wp <> []
              /\ wp_DependsOn wp = [] /\ gen <> 0
  | None => wp_AuthorizedPaths wp <> []
  end.

Lemma verification_problems_nil label gen wp : verification_problems label gen wp = [] <-> role_ok gen wp.
Proof.
  unfold verification_problems, role_ok. destruct (wp_Verifies wp).
  - rewrite !app_nil, !problem_if_nil, !negb_false_iff, !bool_decide_eq_true, !bool_decide_eq_false, Z.eqb_neq. done.
  - by rewrite problem_if_nil, bool_decide_eq_false.
Qed.

(** The artifact is a file of the repository, and one the package may write. *)
Definition artifact_ok (wp : WorkPackage) : Prop :=
  blank (wp_Artifact wp) = false
  /\ exists a, repoRelative (wp_Artifact wp) = inl a
     /\ (IsVerification wp = false -> a ∈ clean_paths (wp_AuthorizedPaths wp)).

Lemma containsPath_spec l x : containsPath l x = true <-> x ∈ l.
Proof.
  unfold containsPath. rewrite existsb_exists. setoid_rewrite <- list_elem_of_In. split.
  - intros (y & Hy & ->%String.eqb_eq). done.
  - intros Hx. exists x. split; [done|apply String.eqb_refl].
Qed.

Lemma artifact_problems_nil label wp :
  artifact_problems label (clean_paths (wp_AuthorizedPaths wp)) wp = [] <-> artifact_ok wp.
Proof.
  unfold artifact_problems, artifact_ok. destruct (blank (wp_Artifact wp)); [by split; [|intros [? _]]|].
  destruct (repoRelative (wp_Artifact wp)) as [a|e].
  - rewrite problem_if_nil, andb_false_iff, !negb_false_iff, containsPath_spec. split.
    + intros Ha. split; [done|]. exists a. split; [done|]. intros E. destruct Ha; [congruence|done].
    + intros (_ & a' & [= <-] & Ha). destruct (IsVerification wp); [by left|right; by apply Ha].
  - split; [done|]. by intros (_ & ? & ? & _).
Qed.

Record package_ok (i : Intent) (gen : Z) (wp : WorkPackage) : Prop := {
  pk_id : IDPattern (wp_ID wp) = true;
  pk_title : blank (wp_Title wp) = false;
  pk_objective : blank (wp_Objective wp) = false;
  pk_phase : wp_Phase wp ∈ in_Lifecycle i;
  pk_few : Z.of_nat (length (wp_Gates wp)) <= MaxGatesPerPackage;
  pk_gates : Forall gate_ok (wp_Gates wp);
  pk_once : NoDup (wp_Gates wp);
  pk_role : role_ok gen wp;
  pk_paths : Forall usable (wp_AuthorizedPaths wp);
  pk_artifact : artifact_ok wp;
  pk_claims : wp_Satisfies wp <> [];
  pk_claimable : Forall (claimable i) (wp_Satisfies wp)
}.

Lemma package_problems_spec i gen byID n ty hist wp :
  tracks gen hist (ty_owner ty) -> (forall c, Sorted (sequential byID) (hist c)) ->
  let '(ps, ty') := package_problems i gen byID n ty wp in
  let hist' := more hist (wp_ID wp) (wp_AuthorizedPaths wp) in
  (ps = [] <-> package_ok i gen wp /\ (wp_ID wp ∉ ty_ids ty) /\ forall c, Sorted (sequential byID) (hist' c))
  /\ (ps = [] -> ty_ids ty' = {[wp_ID wp]} ∪ ty_ids ty /\ tracks gen hist' (ty_owner ty')
      /\ ty_satisfied ty' = list_to_set (wp_Satisfies wp) ∪ ty_satisfied ty).
Proof.
  intros Ht Hs. unfold package_problems.
  set (label := if IDPattern (wp_ID wp) && _ then _ else _). clearbody label.
  assert (Hp := path_claims_spec label gen byID (wp_ID wp) (wp_AuthorizedPaths wp) (ty_owner ty) [] hist Ht Hs).
  destruct (path_claims _ _ _ _ _ _ _) as [[p_paths owner] clean]. destruct Hp as [Hp1 Hp2].
  assert (Hq := satisfies_problems_spec i label (wp_Satisfies wp) (ty_satisfied ty)).
  destruct (satisfies_problems _ _ _ _) as [p_sat satisfied]. destruct Hq as [Hq1 Hq2]. cbv zeta.
  assert (Hid : (if negb (IDPattern (wp_ID wp)) then [label +:+ ".id " +:+ Quote (wp_ID wp) +:+ " is not a valid identifier"]
      else problem_if (bool_decide (wp_ID wp ∈ ty_ids ty)) (label +:+ ".id " +:+ Quote (wp_ID wp) +:+ " is duplicated")) = []
    <-> (IDPattern (wp_ID wp) = true /\ (wp_ID wp ∉ ty_ids ty))).
  { destruct (IDPattern (wp_ID wp)); simpl; [rewrite problem_if_nil, bool_decide_eq_false; intuition|].
    by split; [|intros [? _]]. }
  cbn [ty_ids ty_owner ty_satisfied].
  assert (Hgates : Forall (fun g => ValidateGate g = None) (wp_Gates wp) <-> Forall gate_ok (wp_Gates wp))
    by (apply Forall_iff; intros g; apply ValidateGate_ok).
  rewrite !app_nil, Hid, !problem_if_nil, gate_problems_nil, Hgates, verification_problems_nil, Hp1, Hq1,
    negb_false_iff, bool_decide_eq_true, bool_decide_eq_false, Z.ltb_ge. split.
  - split.
    + intros ((Hi1 & Hi2) & Ht1 & Ho & Hph & Hf & (Hg & Hnd & _) & Hr & (Hu & Hsort) & Ha & Hsat & Hcl).
      split; [|done]. destruct (Hp2 ltac:(by apply Hp1)) as [_ ->]. simpl in Ha.
      split; try done. by apply artifact_problems_nil in Ha.
    + intros ([H1 H2 H3 H4 H5 H6 H7 H8 H9 H10 H11 H12] & Hi & Hsort).
      destruct (Hp2 ltac:(by apply Hp1)) as [_ ->]. simpl.
      assert (Ha : artifact_problems label (clean_paths (wp_AuthorizedPaths wp)) wp = []) by (by apply artifact_problems_nil).
      assert (He : Forall (fun g => g ∉ (∅ : gset string)) (wp_Gates wp)) by (apply Forall_forall; set_solver).
      tauto.
  - intros ((Hi1 & Hi2) & _ & _ & _ & _ & _ & _ & Hps & _ & _ & Hcl). rewrite Hi1, bool_decide_eq_false_2 by done. simpl.
    destruct (Hp2 ltac:(by apply Hp1)) as [Htr _]. split; [done|]. split; [done|]. apply Hq2. by apply Hq1.
Qed.

(** * Generations *)

Lemma claimants_cons wp pkgs c : claimants (wp :: pkgs) c = claims_on c wp ++ claimants pkgs c.
Proof. done. Qed.

Lemma generation_problems_spec i gen byID pkgs : forall n ty hist,
  tracks gen hist (ty_owner ty) -> (forall c, Sorted (sequential byID) (hist c)) ->
  let '(ps, ty') := generation_problems i gen byID n ty pkgs in
  let hist' c := hist c ++ claimants pkgs c in
  (ps = [] <-> Forall (package_ok i gen) pkgs /\ NoDup (wp_ID <$> pkgs) /\ Forall (fun wp => wp_ID wp ∉ ty_ids ty) pkgs
      /\ forall c, Sorted (sequential byID) (hist' c))
  /\ (ps = [] -> ty_ids ty' = list_to_set (wp_ID <$> pkgs) ∪ ty_ids ty /\ tracks gen hist' (ty_owner ty')
      /\ ty_satisfied ty' = list_to_set (pkgs ≫= wp_Satisfies) ∪ ty_satisfied ty).
Proof.
  induction pkgs as [|wp pkgs IH]; intros n ty hist Ht Hs; cbn [generation_problems].
  { cbv zeta. assert (E : forall c, hist c ++ claimants [] c = hist c) by (intros c; apply app_nil_r). split.
    - split; [|done]. intros _. repeat split; try constructor. intros c. by rewrite E.
    - intros _. split; [set_solver|]. split; [by eapply tracks_ext|set_solver]. }
  assert (Hw := package_problems_spec i gen byID n ty hist wp Ht Hs).
  destruct (package_problems i gen byID n ty wp) as [p ty1]. destruct Hw as [Hw1 Hw2].
  set (hist1 := more hist (wp_ID wp) (wp_AuthorizedPaths wp)) in *.
  assert (E : forall c, hist c ++ claimants (wp :: pkgs) c = hist1 c ++ claimants pkgs c).
  { intros c. rewrite claimants_cons. unfold hist1, more, claims_on. by rewrite app_assoc. }
  specialize (IH (n + 1) ty1 hist1).
  destruct (generation_problems i gen byID (n + 1) ty1 pkgs) as [ps final]. cbv zeta.
  assert (Hse : (forall c, Sorted (sequential byID) (hist c ++ claimants (wp :: pkgs) c))
    <-> (forall c, Sorted (sequential byID) (hist1 c ++ claimants pkgs c))).
  { split; intros Hc c; [rewrite <- E|rewrite E]; apply Hc. }
  rewrite app_nil, Hse, fmap_cons, NoDup_cons, !Forall_cons, Hw1.
  assert (Hin : forall l, Forall (fun w => wp_ID w ∉ ({[wp_ID wp]} ∪ ty_ids ty : gset string)) l
    <-> (wp_ID wp ∉ (wp_ID <$> l)) /\ Forall (fun w => wp_ID w ∉ ty_ids ty) l).
  { intros l. rewrite !Forall_forall, list_elem_of_fmap. split.
    - intros Hall. split; [intros (w & Ew & Hw); specialize (Hall w Hw); set_solver|].
      intros w Hw. specialize (Hall w Hw). set_solver.
    - intros [Hn Hall] w Hw [Ew%elem_of_singleton|Hi]%elem_of_union; [|by apply (Hall w)]. apply Hn. by exists w. }
  split.
  - split.
    + intros ((Hok & Hid & Hsort) & Hps). destruct (Hw2 ltac:(by apply Hw1)) as (E1 & Ht1 & _).
      destruct (IH Ht1 Hsort) as [IH1 _]. apply IH1 in Hps as (Hoks & Hnd & Hids & Hsort'). rewrite E1, Hin in Hids.
      tauto.
    + intros ([Hok Hoks] & [Hn Hnd] & [Hid Hids] & Hsort).
      assert (Hsort1 : forall c, Sorted (sequential byID) (hist1 c)) by (intros c; eapply Sorted_app_l, Hsort).
      destruct (Hw2 ltac:(by apply Hw1)) as (E1 & Ht1 & _). split; [done|]. apply (IH Ht1 Hsort1). rewrite E1, Hin. tauto.
  - intros ((Hok & Hid & Hsort) & Hps). destruct (Hw2 ltac:(by apply Hw1)) as (E1 & Ht1 & E3).
    destruct (IH Ht1 Hsort) as [_ IH2]. destruct (IH2 Hps) as (F1 & F2 & F3).
    split; [rewrite F1, E1; set_solver|]. split; [by apply (tracks_ext gen (fun c => hist1 c ++ claimants pkgs c))|].
    rewrite F3, E3, bind_cons, list_to_set_app_L. set_solver.
Qed.

(** What the packages of every generation satisfy, from a number on. *)
Definition generations_ok (i : Intent) (gen : Z) (gens : list (list WorkPackage)) : Prop :=
  forall k pkgs, gens !! k = Some pkgs ->
    Forall (package_ok i (gen + Z.of_nat k)) pkgs /\ forall c, Sorted (sequential (by_id pkgs)) (claimants pkgs c).

Lemma generations_ok_cons i gen pkgs gens :
  generations_ok i gen (pkgs :: gens)
  <-> (Forall (package_ok i gen) pkgs /\ forall c, Sorted (sequential (by_id pkgs)) (claimants pkgs c))
      /\ generations_ok i (gen + 1) gens.
Proof.
  unfold generations_ok. split.
  - intros Hg. split; [specialize (Hg 0%nat pkgs eq_refl); simpl in Hg; by rewrite Z.add_0_r in Hg|].
    intros k pk Hk. specialize (Hg (S k) pk Hk). by replace (gen + 1 + Z.of_nat k) with (gen + Z.of_nat (S k)) by lia.
  - intros [H0 Hg] [|k] pk Hk; [injection Hk as <-; by rewrite Z.add_0_r|].
    replace (gen + Z.of_nat (S k)) with (gen + 1 + Z.of_nat k) by lia. by apply Hg.
Qed.

Lemma plan_generations_spec i gens : forall gen ty,
  (forall c claim, ty_owner ty !! c = Some claim -> pc_gen claim < gen) ->
  let '(ps, ty') := plan_generations i gen ty gens in
  let all := mjoin gens in
  (ps = [] <-> generations_ok i gen gens /\ NoDup (wp_ID <$> all) /\ Forall (fun wp => wp_ID wp ∉ ty_ids ty) all)
  /\ (ps = [] -> ty_ids ty' = list_to_set (wp_ID <$> all) ∪ ty_ids ty
      /\ ty_satisfied ty' = list_to_set (all ≫= wp_Satisfies) ∪ ty_satisfied ty).
Proof.
  induction gens as [|pkgs gens IH]; intros gen ty Hown; cbn [plan_generations].
  { split; [|intros _; simpl; split; set_solver]. split; [|done]. intros _. split; [by intros k pkgs Hk|]. split; constructor. }
  assert (Ht : tracks gen (fun _ => []) (ty_owner ty)).
  { intros c. split; [intros claim Hc; specialize (Hown c claim Hc); lia|]. simpl. apply Hown. }
  assert (Hg := generation_problems_spec i gen (by_id pkgs) pkgs 0 ty (fun _ => []) Ht ltac:(intros; constructor)).
  destruct (generation_problems i gen (by_id pkgs) 0 ty pkgs) as [p ty1]. destruct Hg as [Hg1 Hg2]. simpl in Hg1, Hg2.
  specialize (IH (gen + 1) ty1). destruct (plan_generations i (gen + 1) ty1 gens) as [ps final]. cbv zeta.
  rewrite app_nil, generations_ok_cons. change (mjoin (pkgs :: gens)) with (pkgs ++ mjoin gens).
  rewrite fmap_app, NoDup_app, Forall_app, Hg1.
  assert (Hown1 : p = [] -> forall c claim, ty_owner ty1 !! c = Some claim -> pc_gen claim < gen + 1).
  { intros E c claim Hc. destruct (Hg2 E) as (_ & Htr & _). destruct (Htr c) as [Hle _]. specialize (Hle claim Hc). lia. }
  assert (Hin : forall l, Forall (fun w => wp_ID w ∉ (list_to_set (wp_ID <$> pkgs) ∪ ty_ids ty : gset string)) l
    <-> (forall x, x ∈ (wp_ID <$> pkgs) -> x ∉ (wp_ID <$> l)) /\ Forall (fun w => wp_ID w ∉ ty_ids ty) l).
  { intros l. rewrite !Forall_forall. split.
    - intros Hall. split; [|intros w Hw; specialize (Hall w Hw); set_solver].
      intros x Hx (w & -> & Hw)%list_elem_of_fmap. specialize (Hall w Hw). set_solver.
    - intros [Hn Hall] w Hw [Hi%elem_of_list_to_set|Hi]%elem_of_union; [|by apply (Hall w)].
      apply (Hn _ Hi). by apply list_elem_of_fmap_2. }
  split.
  - split.
    + intros ((Hok & Hnd & Hids & Hsort) & Hps). assert (Ep : p = []) by (by apply Hg1). destruct (Hg2 Ep) as (E1 & _).
      destruct (IH (Hown1 Ep)) as [IH1 _]. apply IH1 in Hps as (Hgo & Hnd' & Hids'). rewrite E1, Hin in Hids'. tauto.
    + intros (([Hok Hsort] & Hgo) & (Hnd & Hdis & Hnd') & Hids & Hids').
      assert (Ep : p = []) by (by apply Hg1). destruct (Hg2 Ep) as (E1 & _). split; [done|].
      apply (IH (Hown1 Ep)). rewrite E1, Hin. tauto.
  - intros ((Hok & Hnd & Hids & Hsort) & Hps). assert (Ep : p = []) by (by apply Hg1). destruct (Hg2 Ep) as (E1 & _ & E3).
    destruct (IH (Hown1 Ep)) as [_ IH2]. destruct (IH2 Hps) as [F1 F2].
    split; [rewrite F1, E1, list_to_set_app_L; set_solver|].
    rewrite F2, E3, bind_app, list_to_set_app_L. set_solver.
Qed.

(** * Supersession *)

Lemma supersede_problems_nil base earlier n ids : forall seen,
  supersede_problems base earlier seen n ids = []
  <-> NoDup ids /\ Forall (fun id => id ∉ seen) ids /\ Forall (fun id => (id ∉ base) /\ id ∈ earlier) ids.
Proof.
  induction ids as [|id ids IH]; intros seen; cbn [supersede_problems].
  { split; [|done]. intros _. repeat split; constructor. }
  rewrite app_nil, IH, NoDup_cons, !Forall_cons.
  assert (Hin : Forall (fun x => x ∉ ({[id]} ∪ seen : gset string)) ids <-> (id ∉ ids) /\ Forall (fun x => x ∉ seen) ids).
  { rewrite !Forall_forall. split.
    - intros Hall. split; [intros Hi; specialize (Hall id Hi); set_solver|]. intros x Hx. specialize (Hall x Hx). set_solver.
    - intros [Hn Hall] x Hx [->%elem_of_singleton|Hi]%elem_of_union; [done|by apply (Hall x)]. }
  rewrite Hin. case_bool_decide as Hs; [by split; [intros [? _]|intros (_ & [? _] & _)]|].
  case_bool_decide as Hb; [by split; [intros [? _]|intros (_ & _ & [[? _] _])]|].
  rewrite problem_if_nil, negb_false_iff, bool_decide_eq_true. tauto.
Qed.

(** A superseded package is corrective work of an earlier remediation, named once. *)
Definition supersedes_ok (base : list WorkPackage) (rms : list Remediation) : Prop :=
  forall k rm, rms !! k = Some rm -> NoDup (rm_Supersedes rm)
    /\ forall id, id ∈ rm_Supersedes rm -> (id ∉ (wp_ID <$> base))
       /\ exists j r, (j < k)%nat /\ rms !! j = Some r /\ id ∈ wp_ID <$> rm_Packages r.

Lemma supersession_problems_nil base rms : forall earlier n,
  supersession_problems base earlier n rms = []
  <-> forall k rm, rms !! k = Some rm -> NoDup (rm_Supersedes rm)
      /\ forall id, id ∈ rm_Supersedes rm -> (id ∉ base)
         /\ (id ∈ earlier \/ exists j r, (j < k)%nat /\ rms !! j = Some r /\ id ∈ wp_ID <$> rm_Packages r).
Proof.
  induction rms as [|rm rms IH]; intros earlier n; cbn [supersession_problems]; [by split|].
  rewrite app_nil, supersede_problems_nil, IH, !Forall_forall. split.
  - intros ((Hnd & _ & Hf) & Hrest) [|k] r Hk.
    + injection Hk as <-. split; [done|]. intros id Hid. destruct (Hf id Hid). auto.
    + destruct (Hrest k r Hk) as [Hn Hi]. split; [done|]. intros id Hid. destruct (Hi id Hid) as [Hb [He|(j & q & Hj & Hq & Hin)]].
      * split; [done|]. apply elem_of_union in He as [He%elem_of_list_to_set|He]; [|by left]. right. exists 0%nat, rm.
        split; [lia|done].
      * split; [done|]. right. exists (S j), q. split; [lia|done].
  - intros Hall. split.
    + destruct (Hall 0%nat rm eq_refl) as [Hn Hi]. split; [done|]. split; [by intros ? _ ?%elem_of_empty|].
      intros id Hid. destruct (Hi id Hid) as [Hb [He|(j & q & Hj & _)]]; [done|lia].
    + intros k r Hk. destruct (Hall (S k) r Hk) as [Hn Hi]. split; [done|]. intros id Hid.
      destruct (Hi id Hid) as [Hb [He|([|j] & q & Hj & Hq & Hin)]]; split; try done.
      * left. apply elem_of_union. by right.
      * injection Hq as <-. left. apply elem_of_union. left. by apply elem_of_list_to_set.
      * right. exists j, q. split; [lia|done].
Qed.

(** * Dependencies, coverage, fidelity *)

(** Every dependency is another package of the plan, and one that merges. *)
Definition needs_ok (all : list WorkPackage) : Prop :=
  forall wp d, wp ∈ all -> d ∈ wp_DependsOn wp ->
    d <> wp_ID wp /\ exists up, up ∈ all /\ wp_ID up = d /\ IsVerification up = false.

Lemma dependency_problems_nil all ids :
  NoDup (wp_ID <$> all) -> (forall x, x ∈ ids <-> x ∈ wp_ID <$> all) ->
  (all ≫= dependency_problems ids all) = [] <-> needs_ok all.
Proof.
  intros Hnd Hids. rewrite bind_nil, Forall_forall. unfold needs_ok, dependency_problems.
  assert (Hv : forall d, d ∈ (wp_ID <$> all) ->
    existsb (fun v => String.eqb (wp_ID v) d && IsVerification v) all = false
    <-> exists up, up ∈ all /\ wp_ID up = d /\ IsVerification up = false).
  { intros d (up & -> & Hup)%list_elem_of_fmap. rewrite <- not_true_iff_false, existsb_exists. split.
    - intros Hn. exists up. split; [done|]. split; [done|]. apply not_true_iff_false. intros Hu. apply Hn. exists up.
      split; [by apply list_elem_of_In|]. by rewrite String.eqb_refl, Hu.
    - intros (u & Hu & Eu & Hf) (v & Hv%list_elem_of_In & Hb). apply andb_true_iff in Hb as [Ev%String.eqb_eq Hb].
      assert (v = u); [|congruence]. apply list_elem_of_lookup in Hv as [a Ha], Hu as [b Hb'].
      assert (a = b); [|congruence]. eapply (NoDup_lookup _ _ _ (wp_ID up) Hnd); rewrite list_lookup_fmap; [rewrite Ha|rewrite Hb']; simpl; congruence. }
  split.
  - intros Hall wp d Hwp Hd. specialize (Hall wp Hwp). rewrite bind_nil, Forall_forall in Hall. specialize (Hall d Hd).
    destruct (String.eqb_spec d (wp_ID wp)); [done|]. case_bool_decide as Hi; [|done]. simpl in Hall.
    apply problem_if_nil in Hall. apply Hids in Hi. split; [done|]. by apply Hv.
  - intros Hall wp Hwp. rewrite bind_nil, Forall_forall. intros d Hd. destruct (Hall wp d Hwp Hd) as [Hne Hup].
    apply String.eqb_neq in Hne. rewrite Hne. assert (Hi : d ∈ (wp_ID <$> all)).
    { destruct Hup as (up & Hin & <- & _). by apply list_elem_of_fmap_2. }
    rewrite bool_decide_eq_true_2 by (by apply Hids). simpl. apply problem_if_nil. by apply Hv.
Qed.

Definition covered_ok (i : Intent) (all : list WorkPackage) : Prop :=
  forall c, c ∈ in_Acceptance i -> IsHuman c = false -> exists wp, wp ∈ all /\ cr_ID c ∈ wp_Satisfies wp.

Lemma uncovered_nil i satisfied all :
  (forall x, x ∈ satisfied <-> x ∈ all ≫= wp_Satisfies) -> uncovered i satisfied = [] <-> covered_ok i all.
Proof.
  intros Hs. unfold uncovered. rewrite sort_Strings_nil, fmap_nil_eq. unfold covered_ok.
  assert (Hw : forall c, c ∈ satisfied <-> exists wp, wp ∈ all /\ c ∈ wp_Satisfies wp).
  { intros c. rewrite Hs, list_elem_of_bind. split; intros (wp & ? & ?); eauto. }
  split.
  - intros Hn c Hc Hh. apply Hw. destruct (decide (cr_ID c ∈ satisfied)) as [|Hns]; [done|]. exfalso.
    assert (Hin : In c (List.filter (fun c => negb (IsHuman c) && negb (bool_decide (cr_ID c ∈ satisfied))) (in_Acceptance i))).
    { apply filter_In. split; [by apply list_elem_of_In|]. by rewrite Hh, bool_decide_eq_false_2. }
    rewrite Hn in Hin. done.
  - intros Hc. destruct (List.filter _ _) as [|c l] eqn:E; [done|]. exfalso.
    assert (Hin : In c (c :: l)) by (by left). rewrite <- E in Hin. apply filter_In in Hin as [Hin Hb].
    apply andb_true_iff in Hb as [Hh%negb_true_iff Hns%negb_true_iff%bool_decide_eq_false]. apply Hns, Hw, Hc; [|done].
    by apply list_elem_of_In.
Qed.

(** The packages that claim a criterion together promise, and declare how to prove, every
    behaviour it requires. *)
Definition faithful (p : DeliveryPlan) (c : Criterion) : Prop :=
  pn_Provisional p = false -> IsHuman c = false -> cr_MustCover c <> [] ->
  coveringPackages (AllPackages p) (cr_ID c) <> [] ->
  gated (coveringPackages (AllPackages p) (cr_ID c)) = true
  /\ missingBehaviours (coveringText (coveringPackages (AllPackages p) (cr_ID c))) (cr_MustCover c) = [].

Lemma fidelity_problems_nil p c : fidelity_problems p (AllPackages p) c = [] <-> faithful p c.
Proof.
  unfold fidelity_problems, faithful. destruct (pn_Provisional p), (IsHuman c); simpl; try (by split; [intros _|]).
  case_bool_decide as Hm; [by split; [intros _ ? ? ?|]|].
  destruct (coveringPackages (AllPackages p) (cr_ID c)) as [|wp wps] eqn:E; [by split; [intros _ ? ? ? ?|]|].
  rewrite app_nil, problem_if_nil, negb_false_iff. destruct (missingBehaviours _ _) as [|m ms]; [|].
  - split; [intros [Hg _] _ _ _ _; done|]. intros Hf. by destruct Hf.
  - split; [by intros [_ ?]|]. intros Hf. by destruct Hf as [_ ?].
Qed.

(** * Remediations *)

(** A repair answers a finding against a criterion of delivery. *)
Definition repairable (i : Intent) (rep : Repair) : Prop :=
  1 <= rr_Invalidation rep /\ exists c, find_criterion i (rr_CriterionID rep) = Some c /\ IsHuman c = false.

Lemma repair_problems_spec i reps : forall n repaired,
  let '(ps, final) := repair_problems i n repaired reps in
  (ps = [] <-> Forall (repairable i) reps /\ NoDup (rr_CriterionID <$> reps) /\ Forall (fun r => rr_CriterionID r ∉ repaired) reps)
  /\ (ps = [] -> final = list_to_set (rr_CriterionID <$> reps) ∪ repaired).
Proof.
  induction reps as [|r reps IH]; intros n repaired; cbn [repair_problems].
  { split; [|intros _; simpl; set_solver]. split; [|done]. intros _. repeat split; constructor. }
  assert (Hno : forall (p rest : list string) (f : gset string), p <> [] -> ~ (repairable i r /\ (rr_CriterionID r ∉ repaired)) ->
    let '(ps, final) := (p ++ rest, f) in
    (ps = [] <-> Forall (repairable i) (r :: reps) /\ NoDup (rr_CriterionID <$> r :: reps)
       /\ Forall (fun r => rr_CriterionID r ∉ repaired) (r :: reps))
    /\ (ps = [] -> final = list_to_set (rr_CriterionID <$> r :: reps) ∪ repaired)).
  { intros [|x p] rest f Hp Hn; [done|]. split; [|done]. split; [done|]. rewrite !Forall_cons. tauto. }
  unfold repairable at 1 in Hno. destruct (find_criterion i (rr_CriterionID r)) as [c|] eqn:Ec.
  2: { destruct (repair_problems i (n + 1) repaired reps) as [ps f]. apply Hno; [done|]. intros [[_ (c & ? & _)] _]. done. }
  destruct (IsHuman c) eqn:Eh.
  { destruct (repair_problems i (n + 1) repaired reps) as [ps f]. apply Hno; [done|]. intros [[_ (c' & [= <-] & ?)] _]. congruence. }
  destruct (Z.ltb_spec (rr_Invalidation r) 1) as [Hl|Hl].
  { destruct (repair_problems i (n + 1) repaired reps) as [ps f]. apply Hno; [done|]. intros [[? _] _]. lia. }
  case_bool_decide as Hd.
  { destruct (repair_problems i (n + 1) repaired reps) as [ps f]. apply Hno; [done|]. by intros [_ ?]. }
  specialize (IH (n + 1) ({[rr_CriterionID r]} ∪ repaired)). destruct (repair_problems i (n + 1) _ reps) as [ps f]. destruct IH as [IH1 IH2].
  cbn [app]. split; [|intros E; rewrite IH2 by done; rewrite fmap_cons; simpl; set_solver].
  rewrite IH1, fmap_cons, NoDup_cons, !Forall_cons, !Forall_forall.
  assert (Hr : repairable i r) by (split; [done|by exists c]). split.
  - intros (H1 & H2 & H3). split_and!; try done; [|intros x Hx; specialize (H3 x Hx); set_solver].
    intros (x & Ex & Hx)%list_elem_of_fmap. specialize (H3 x Hx). set_solver.
  - intros ([_ H1] & [Hn H2] & [_ H3]). split_and!; try done. intros x Hx [E%elem_of_singleton|Hin]%elem_of_union; [|by apply (H3 x)].
    apply Hn. rewrite <- E. by apply list_elem_of_fmap_2.
Qed.

(** The packages of a remediation carry what a repaired criterion requires themselves. *)
Definition repair_faithful (i : Intent) (pkgs : list WorkPackage) (rep : Repair) : Prop :=
  forall c, find_criterion i (rr_CriterionID rep) = Some c -> IsHuman c = false -> cr_MustCover c <> [] ->
    coveringPackages pkgs (cr_ID c) <> [] /\ gated (coveringPackages pkgs (cr_ID c)) = true
    /\ missingBehaviours (coveringText (coveringPackages pkgs (cr_ID c))) (cr_MustCover c) = [].

Lemma repair_fidelity_nil i pkgs rep : repair_fidelity i pkgs rep = [] <-> repair_faithful i pkgs rep.
Proof.
  unfold repair_fidelity, repair_faithful. destruct (find_criterion i (rr_CriterionID rep)) as [c|]; [|by split].
  destruct (IsHuman c) eqn:Eh; [split; [|done]; intros _ c' [= <-]; congruence|]. simpl.
  case_bool_decide as Hm; [split; [|done]; by intros _ c' [= <-] _ ?|].
  destruct (coveringPackages pkgs (cr_ID c)) as [|wp wps] eqn:E.
  { split; [done|]. intros Hf. destruct (Hf c eq_refl Eh Hm) as [Hn _]. by rewrite E in Hn. }
  rewrite app_nil, problem_if_nil, negb_false_iff. split.
  - intros [Hg Hb] c' [= <-] _ _. rewrite E. split; [done|]. split; [done|]. by destruct (missingBehaviours _ _).
  - intros Hf. destruct (Hf c eq_refl Eh Hm) as (_ & Hg & Hb). rewrite E in Hg, Hb. by rewrite Hb.
Qed.

(** Corrective work someone authorized against findings, that claims what it repairs and
    nothing else. *)
Record remediation_ok (i : Intent) (rm : Remediation) : Prop := {
  ro_version : rm_SchemaVersion rm = RemediationSchemaVersion;
  ro_project : rm_ProjectID rm = in_ProjectID i;
  ro_seq : 1 <= rm_Seq rm;
  ro_author : blank (rm_AuthorizedBy rm) = false;
  ro_repairs : rm_Repairs rm <> [];
  ro_packages : rm_Packages rm <> [];
  ro_repairable : Forall (repairable i) (rm_Repairs rm);
  ro_once : NoDup (rr_CriterionID <$> rm_Repairs rm);
  ro_bounded : forall wp c, wp ∈ rm_Packages rm -> c ∈ wp_Satisfies wp -> c ∈ rr_CriterionID <$> rm_Repairs rm;
  ro_faithful : forall rep, rep ∈ rm_Repairs rm -> repair_faithful i (rm_Packages rm) rep
}.

Lemma rm_refusal_ok i rm : rm_refusal i rm = None <-> remediation_ok i rm.
Proof.
  unfold rm_refusal, remediation_problems. destruct (Z.eqb_spec (rm_SchemaVersion rm) RemediationSchemaVersion) as [Ev|Ev]; simpl negb; cbv iota.
  2: { split; [done|]. by intros []. }
  assert (Hr := repair_problems_spec i (rm_Repairs rm) 0 ∅). destruct (repair_problems i 0 ∅ (rm_Repairs rm)) as [ps repaired]. destruct Hr as [H1 H2].
  match goal with |- (match ?l with _ => _ end = None) <-> _ => assert (Hl : l = [] <-> remediation_ok i rm); [|by destruct l; [tauto|split; [done|intros X; by apply Hl in X]]] end.
  rewrite !app_nil, !problem_if_nil, !bind_nil, H1, negb_false_iff, String.eqb_eq, Z.ltb_ge, !bool_decide_eq_false, !Forall_forall.
  setoid_rewrite bind_nil. setoid_rewrite Forall_forall. setoid_rewrite problem_if_nil. setoid_rewrite negb_false_iff.
  setoid_rewrite bool_decide_eq_true. setoid_rewrite repair_fidelity_nil.
  assert (Hin : ps = [] -> forall c, c ∈ repaired <-> c ∈ rr_CriterionID <$> rm_Repairs rm) by (intros E c; rewrite (H2 E); set_solver).
  split.
  - intros (A1 & A2 & A3 & A4 & A5 & (B1 & B2 & B3) & A6 & A7). assert (E : ps = []) by (apply H1; by rewrite !Forall_forall).
    split; try done; [by apply Forall_forall|]. intros wp c Hw Hc. apply (Hin E). by apply (A6 wp).
  - intros [C1 C2 C3 C4 C5 C6 C7 C8 C9 C10]. rewrite Forall_forall in C7.
    assert (E : ps = []) by (apply H1; rewrite !Forall_forall; split_and!; [done|done|set_solver]).
    split_and!; try done. intros wp Hw c Hc. apply (Hin E). by apply (C9 wp).
Qed.

(** * The plan as a whole *)

Record plan_lawful (i : Intent) (p : DeliveryPlan) : Prop := {
  sf_version : pn_SchemaVersion p = PlanSchemaVersion;
  sf_project : pn_ProjectID p = in_ProjectID i;
  sf_packages : pn_Packages p <> [];
  sf_generations : generations_ok i 0 (generations p);
  sf_distinct : NoDup (wp_ID <$> AllPackages p);
  sf_supersedes : supersedes_ok (pn_Packages p) (pn_Remediations p);
  sf_needs : needs_ok (AllPackages p);
  sf_acyclic : forall id, id ∈ wp_ID <$> AllPackages p -> grounded (deps_of (AllPackages p)) id;
  sf_covered : covered_ok i (AllPackages p);
  sf_faithful : forall c, c ∈ in_Acceptance i -> faithful p c;
  sf_repairs : forall rm, rm ∈ pn_Remediations p -> remediation_ok i rm
}.

Lemma generations_join p : mjoin (generations p) = AllPackages p.
Proof.
  unfold generations, AllPackages. change (mjoin (?x :: ?l)) with (x ++ mjoin l). f_equal.
  induction (pn_Remediations p) as [|rm rms IH]; [done|]. rewrite fmap_cons, bind_cons.
  change (mjoin (?x :: ?l)) with (x ++ mjoin l). by rewrite IH.
Qed.

Lemma delivery_problems_nil i p :
  pn_SchemaVersion p = PlanSchemaVersion -> delivery_problems i p = [] <-> plan_lawful i p.
Proof.
  intros Hv. unfold delivery_problems.
  assert (Hg := plan_generations_spec i (generations p) 0 (mkTally ∅ ∅ ∅) ltac:(by intros c claim Hc; simpl in Hc; rewrite lookup_empty in Hc)).
  destruct (plan_generations i 0 (mkTally ∅ ∅ ∅) (generations p)) as [ps ty]. destruct Hg as [Hg1 Hg2].
  rewrite generations_join in Hg1, Hg2. cbn [ty_ids ty_satisfied] in Hg1, Hg2. cbv zeta.
  assert (Hempty : Forall (fun wp => wp_ID wp ∉ (∅ : gset string)) (AllPackages p)) by (apply Forall_forall; set_solver).
  assert (Hsup := supersession_problems_nil (list_to_set (wp_ID <$> pn_Packages p)) (pn_Remediations p) ∅ 1).
  assert (Hsup' : supersession_problems (list_to_set (wp_ID <$> pn_Packages p)) ∅ 1 (pn_Remediations p) = []
    <-> supersedes_ok (pn_Packages p) (pn_Remediations p)).
  { rewrite Hsup. unfold supersedes_ok. split; intros Hall k rm Hk; destruct (Hall k rm Hk) as [Hn Hi];
      (split; [done|]); intros id Hid; destruct (Hi id Hid) as [Hb He]; rewrite elem_of_list_to_set in *; (split; [done|]);
      [by destruct He as [?%elem_of_empty|?]|by right]. }
  assert (Hun : match uncovered i (ty_satisfied ty) with [] => [] | cs =>
      ["no work package addresses acceptance criteria " +:+ join_with ", " cs +:+ " — this plan cannot reach completion"] end = []
    <-> uncovered i (ty_satisfied ty) = []) by (by destruct (uncovered i (ty_satisfied ty))).
  assert (Hrm : (pn_Remediations p ≫= fun rm => match rm_refusal i rm with None => [] | Some text =>
      ["remediation " +:+ Itoa (rm_Seq rm) +:+ ": handoff: delivery plan is invalid: " +:+ text] end) = []
    <-> forall rm, rm ∈ pn_Remediations p -> remediation_ok i rm).
  { setoid_rewrite <- rm_refusal_ok. rewrite bind_nil, Forall_forall. split; intros Hall rm Hin; specialize (Hall rm Hin); by destruct (rm_refusal i rm). }
  rewrite !app_nil, !problem_if_nil, Hsup', Hun, Hrm, negb_false_iff, String.eqb_eq, bool_decide_eq_false, negb_false_iff,
    String.eqb_eq, findCycle_exact, (bind_nil (fidelity_problems p (AllPackages p))), Forall_forall.
  assert (Hids : ps = [] -> forall x, x ∈ ty_ids ty <-> x ∈ wp_ID <$> AllPackages p).
  { intros E x. destruct (Hg2 E) as [-> _]. set_solver. }
  assert (Hsat : ps = [] -> forall x, x ∈ ty_satisfied ty <-> x ∈ AllPackages p ≫= wp_Satisfies).
  { intros E x. destruct (Hg2 E) as [_ ->]. set_solver. }
  setoid_rewrite fidelity_problems_nil. split.
  - intros (Hp & Hk & Hps & Hss & Hd & Hc & Hu & Hf & Hr). destruct (proj1 Hg1 Hps) as (Hgo & Hnd & _).
    apply (dependency_problems_nil _ _ Hnd (Hids Hps)) in Hd. apply (uncovered_nil _ _ _ (Hsat Hps)) in Hu. by split.
  - intros [_ Hp Hk Hgo Hnd Hss Hd Hc Hu Hf Hr]. assert (Hps : ps = []) by (by apply Hg1).
    rewrite (dependency_problems_nil _ _ Hnd (Hids Hps)), (uncovered_nil _ _ _ (Hsat Hps)). tauto.
Qed.

Lemma delivery_Validate_ok i p : delivery_Validate i p = None <-> plan_lawful i p.
Proof.
  unfold delivery_Validate. destruct (Z.eqb_spec (pn_SchemaVersion p) PlanSchemaVersion) as [Hv|Hv]; cbn [negb].
  - rewrite <- (delivery_problems_nil i p Hv). by destruct (delivery_problems i p).
  - split; [done|]. by intros [? _].
Qed.

(** Of two packages that alone claim a path in their generation one waits for the other. *)
Lemma two_claimants i p pkgs c a b :
  plan_lawful i p -> pkgs ∈ generations p -> claimants pkgs c = [a; b] -> sequential (by_id pkgs) a b.
Proof.
  intros Hp [k Hk]%list_elem_of_lookup Hc. destruct (sf_generations _ _ Hp k pkgs Hk) as [_ Hs]. specialize (Hs c).
  rewrite Hc in Hs. by apply (Sorted_neighbours _ [] a b []).
Qed.

Lemma behaviours_promised i p c :
  plan_lawful i p -> pn_Provisional p = false -> c ∈ in_Acceptance i -> IsHuman c = false -> cr_MustCover c <> [] ->
  promised (coveringText (coveringPackages (AllPackages p) (cr_ID c))) (cr_MustCover c).
Proof.
  intros Hp Hv Hc Hh Hm. apply missing_none_promised. apply (sf_faithful _ _ Hp c Hc Hv Hh Hm).
  destruct (sf_covered _ _ Hp c Hc Hh) as (wp & Hw & Hs). intros E.
  assert (Hin : In wp (coveringPackages (AllPackages p) (cr_ID c)))
    by (apply filter_In; split; [by apply list_elem_of_In|by apply containsPath_spec]).
  by rewrite E in Hin.
Qed.

(** (C6) A delivery plan is accepted exactly when it keeps these rules against its intent, all
    its generations together: packages distinct, bounded by usable paths away from what
    judges them and by gates that are single commands of granted runners, verifications
    that change nothing, dependencies on packages that merge and end, every criterion of
    delivery claimed and none of a person's, corrective work authorized against findings
    and replacing only earlier corrective work; and of the packages of a generation that
    may write a path, each ordered with the one declared next, which of three is not yet
    all of them.  What is accepted orders any two packages that alone share a path, and
    gives every required behaviour an occurrence of its own in what is planned. *)
Theorem delivery_Validate_exact i p :
  (delivery_Validate i p = None <-> plan_lawful i p)
  /\ (delivery_Validate i p = None ->
      (forall pkgs c a b, pkgs ∈ generations p -> claimants pkgs c = [a; b] -> sequential (by_id pkgs) a b)
      /\ (forall c, pn_Provisional p = false -> c ∈ in_Acceptance i -> IsHuman c = false -> cr_MustCover c <> [] ->
           promised (coveringText (coveringPackages (AllPackages p) (cr_ID c))) (cr_MustCover c))).
Proof.
  split; [apply delivery_Validate_ok|]. intros Hp%delivery_Validate_ok. split.
  - intros pkgs c a b. by apply (two_claimants i p).
  - intros c. by apply behaviours_promised.
Qed.

End plan.

(** * Behaviours the code does not intend *)

#[local] Existing Instance plain_tables.

Definition one_intent : Intent :=
  mkIntent 1 "proj" (mkRepository "o/n" "git@host:o/n.git" "main") "/work" "an objective" ["build"]
    [mkCriterion "ac-1" "it works" "" []] (mkDeliveryPolicy true true true true "" 0 0) "someone" 0.

Definition a_package (id : string) (deps : list string) : WorkPackage :=
  mkPackage id "a title" "build" "an objective" "src/a.ts" ["src/a.ts"] ["npm test"] deps ["ac-1"] None.

Definition a_delivery (pkgs : list WorkPackage) : DeliveryPlan := mkDeliveryPlan 1 "proj" "planner" 0 pkgs [] false.

Lemma delivery_Validate_exact_witness :
  let p := a_delivery [a_package "aa" []; a_package "bb" ["aa"]] in
  delivery_Validate one_intent p = None /\ sequential (by_id (pn_Packages p)) "aa" "bb".
Proof.
  intros p. assert (E : delivery_Validate one_intent p = None) by (vm_compute; reflexivity). split; [exact E|].
  apply (proj1 (proj2 (delivery_Validate_exact one_intent p) E) (pn_Packages p) "src/a.ts"); [left|vm_compute; reflexivity].
Defined.

(** Only the last claimant of a path is remembered: a package that a second one waits for
    may be declared after it, and then shares the path with a first one it is not ordered
    with.  The same packages declared in another order are refused. *)
Theorem concurrent_writers_accepted :
  let aa := a_package "aa" [] in
  let cc := a_package "cc" [] in
  let bb := a_package "bb" ["aa"; "cc"] in
  let p := a_delivery [aa; bb; cc] in
  delivery_Validate one_intent p = None
  /\ dependencyOrdered (by_id (AllPackages p)) "aa" "cc" = false
  /\ wp_AuthorizedPaths aa = wp_AuthorizedPaths cc
  /\ delivery_Validate one_intent (a_delivery [aa; cc; bb]) <> None.
Proof. repeat split; try (vm_compute; reflexivity). vm_compute. discriminate. Qed.

(** The runners granted include some that fetch and run code the plan never declared. *)
Theorem fetching_gates_granted :
  Forall (fun g => ValidateGate g = None) ["npm exec cowsay"; "pnpm dlx cowsay"; "yarn dlx cowsay"; "go run example.com/tool@latest"]
  /\ ValidateGate "npx cowsay" <> None.
Proof. split; [repeat constructor; vm_compute; reflexivity|]. vm_compute. discriminate. Qed.
