(* ===== verification/HandRecord.v ===== *)
(** The delivery record (internal/handoff/record.go) and the journal of remediations
    (LoadRemediations and verifyRemediationJournal of reconcile.go).  The documents of a
    delivery directory are opaque: a class has their type, their decoding and their
    SHA-256 digests.  The remediation files of a directory are the numbers in their names
    with their documents, in the order of the names. *)
From stdpp Require Import sorting.
From S2P Require Import Prelude GoStd RunFailure RunQA RunSpec HandIntent HandPlan.

(** * The record *)

Record RemediationRef : Type := mkRef {
  rf_Seq : Z; rf_Digest : string; rf_AuthorizedBy : string; rf_AuthorizedAt : Z
}.

Record Acceptance : Type := mkAcceptance {
  ac_CriterionID : string; ac_By : string; ac_Note : string; ac_At : Z
}.

Record Invalidation : Type := mkFinding {
  iv_Seq : Z; iv_CriterionID : string; iv_By : string; iv_Reason : string; iv_Evidence : string;
  iv_PreviousState : string; iv_At : Z
}.

Record RunRef : Type := mkRunRef { rn_RunID : string; rn_StartedAt : Z; rn_Reason : string }.

Record Record_ : Type := mkRecord {
  rc_SchemaVersion : Z;
  rc_ProjectID : string;
  rc_Intent : Intent;
  rc_IntentDigest : string;
  rc_StateDir : string;
  rc_Worktree : string;
  rc_CreatedAt : Z;
  rc_UpdatedAt : Z;
  rc_Runs : list RunRef;
  rc_Acceptances : list Acceptance;
  rc_Invalidations : list Invalidation;
  rc_Remediations : list RemediationRef
}.

Definition RecordSchemaVersion : Z := 1.
Definition ReasonInitial : string := "initial".
Definition ReasonResumed : string := "resumed".

Definition ErrRecordConflict : error := errmsg "handoff: delivery record conflicts with this request" [].
Definition ErrRecordCorrupt : error := errmsg "handoff: delivery record is unreadable" [].

Definition with_runs (runs : list RunRef) (now : Z) (r : Record_) : Record_ :=
  mkRecord (rc_SchemaVersion r) (rc_ProjectID r) (rc_Intent r) (rc_IntentDigest r) (rc_StateDir r) (rc_Worktree r)
    (rc_CreatedAt r) now runs (rc_Acceptances r) (rc_Invalidations r) (rc_Remediations r).

Definition with_acceptances (l : list Acceptance) (now : Z) (r : Record_) : Record_ :=
  mkRecord (rc_SchemaVersion r) (rc_ProjectID r) (rc_Intent r) (rc_IntentDigest r) (rc_StateDir r) (rc_Worktree r)
    (rc_CreatedAt r) now (rc_Runs r) l (rc_Invalidations r) (rc_Remediations r).

Definition with_invalidations (l : list Invalidation) (now : Z) (r : Record_) : Record_ :=
  mkRecord (rc_SchemaVersion r) (rc_ProjectID r) (rc_Intent r) (rc_IntentDigest r) (rc_StateDir r) (rc_Worktree r)
    (rc_CreatedAt r) now (rc_Runs r) (rc_Acceptances r) l (rc_Remediations r).

Definition with_journal (l : list RemediationRef) (now : Z) (r : Record_) : Record_ :=
  mkRecord (rc_SchemaVersion r) (rc_ProjectID r) (rc_Intent r) (rc_IntentDigest r) (rc_StateDir r) (rc_Worktree r)
    (rc_CreatedAt r) now (rc_Runs r) (rc_Acceptances r) (rc_Invalidations r) l.

(** The first criterion of a name. *)
Definition declared (i : Intent) (id : string) : option Criterion :=
  List.find (fun c => String.eqb (cr_ID c) id) (in_Acceptance i).

(** Record.Accept; the first answer is kept. *)
Definition Accept (r : Record_) (criterionID by_ note : string) (now : Z) : Record_ * option error :=
  match declared (rc_Intent r) criterionID with
  | None => (r, Some (Errorf "%w: %s declares no acceptance criterion %q" [rc_ProjectID r; criterionID] [ErrRecordConflict]))
  | Some c =>
      if negb (IsHuman c) then
        (r, Some (Errorf "%w: %s is delivery's to satisfy and prove — accepting it by hand would forge the evidence the completion gate reads"
                    [criterionID] [ErrRecordConflict]))
      else if blank by_ then
        (r, Some (Errorf "%w: accepting %s requires the name of the person accepting it" [criterionID] [ErrRecordConflict]))
      else if existsb (fun a => String.eqb (ac_CriterionID a) criterionID) (rc_Acceptances r) then (r, None)
      else (with_acceptances (rc_Acceptances r ++ [mkAcceptance criterionID (TrimSpace by_) (TrimSpace note) now]) now r, None)
  end.

Definition AppendRun (r : Record_) (runID reason : string) (now : Z) : Record_ :=
  with_runs (rc_Runs r ++ [mkRunRef runID now reason]) now r.

Definition LatestRun (r : Record_) : option RunRef := last (rc_Runs r).

(** Record.LatestInvalidation: the last finding against a criterion. *)
Definition LatestInvalidation (r : Record_) (criterionID : string) : option Invalidation :=
  List.find (fun inv => String.eqb (iv_CriterionID inv) criterionID) (rev (rc_Invalidations r)).

(** * Digests *)

(** The delivery terms of an intent: everything but who asked and when, the criteria in
    order of name. *)
Record Terms : Type := mkTerms {
  tm_SchemaVersion : Z; tm_ProjectID : string; tm_Repository : Repository; tm_Checkout : string;
  tm_Objective : string; tm_Lifecycle : list string; tm_Acceptance : list Criterion; tm_Policy : Policy
}.

Fixpoint insert_criterion (c : Criterion) (l : list Criterion) : list Criterion :=
  match l with
  | [] => [c]
  | d :: l' => if String.leb (cr_ID c) (cr_ID d) then c :: l else d :: insert_criterion c l'
  end.

Definition sortedCriteria (l : list Criterion) : list Criterion := fold_right insert_criterion [] l.

Definition terms (i : Intent) : Terms :=
  mkTerms (in_SchemaVersion i) (in_ProjectID i) (in_Repository i) (in_Checkout i) (in_Objective i) (in_Lifecycle i)
    (sortedCriteria (in_Acceptance i)) (in_Policy i).

(** Documents of a delivery directory: encoding/json with SHA-256. *)
Class Docs : Type := {
  doc : Type;
  decode_rm : doc -> Remediation + string;
  encode_rm : Remediation -> doc;
  doc_digest : doc -> string;
  terms_digest : Terms -> string
}.

Section docs.
Context `{GoTables} `{Docs}.

Definition Digest (i : Intent) : string := terms_digest (terms i).

(** LoadRecord on what the file decodes to; [None] is no file. *)
Definition checked_record (projectID : string) (r : Record_) : option error :=
  if negb (rc_SchemaVersion r =? RecordSchemaVersion) then
    Some (Errorf "%w: %s: schemaVersion %d, this engine writes %d"
            [Itoa (rc_SchemaVersion r); Itoa RecordSchemaVersion] [ErrRecordCorrupt])
  else if negb (String.eqb (rc_ProjectID r) projectID) then
    Some (Errorf "%w: %s holds a record for project %q" [rc_ProjectID r] [ErrRecordConflict])
  else if negb (String.eqb (rc_IntentDigest r) (Digest (rc_Intent r))) then
    Some (Errorf "%w: %s: the recorded intent does not match its own digest" [] [ErrRecordCorrupt])
  else None.

Definition LoadRecord (projectID : string) (file : option Record_) : res (option Record_) :=
  match file with
  | None => Ok None
  | Some r => match checked_record projectID r with Some e => Err e | None => Ok (Some r) end
  end.

(** * Admission *)

Definition short (digest : string) : string :=
  if (12 <? String.length digest)%nat then String.substring 0 12 digest else digest.

Record Admission : Type := mkAdmission { ad_Record : Record_; ad_Created : bool; ad_AlreadyStarted : bool }.

Definition Admit `{UrlParser} (file : option Record_) (i : Intent) (now : Z) : res Admission :=
  match intent_Validate i with
  | Some e => Err e
  | None =>
      match LoadRecord (in_ProjectID i) file with
      | Err e => Err e
      | Ok None =>
          Ok (mkAdmission (mkRecord RecordSchemaVersion (in_ProjectID i) i (Digest i) "" "" now now [] [] [] []) true false)
      | Ok (Some existing) =>
          if negb (String.eqb (rc_IntentDigest existing) (Digest i)) then
            Err (Errorf "%w: delivery for %q already started under different terms (recorded digest %s, this request %s) — stop the existing delivery and archive its record before starting different work"
                   [in_ProjectID i; short (rc_IntentDigest existing); short (Digest i)] [ErrRecordConflict])
          else Ok (mkAdmission existing false true)
      end
  end.

(** * The journal of remediations *)

(** The documents read, the first that cannot be refused: each with its digest. *)
Fixpoint read_remediations (projectID : string) (files : list (Z * doc)) : res (list (Remediation * string)) :=
  match files with
  | [] => Ok []
  | (seq, data) :: files' =>
      match decode_rm data with
      | inr e => Err (Errorf "%s: %w" [e] [ErrPlanInvalid])
      | inl rm =>
          if negb (rm_Seq rm =? seq) then
            Err (Errorf "%w: %s holds remediation seq %d — a remediation's file name is its sequence" [Itoa (rm_Seq rm)] [ErrPlanInvalid])
          else if negb (String.eqb (rm_ProjectID rm) projectID) then
            Err (Errorf "%w: %s holds a remediation for project %q" [rm_ProjectID rm] [ErrRecordConflict])
          else match read_remediations projectID files' with
               | Err e => Err e
               | Ok rest => Ok ((rm, doc_digest data) :: rest)
               end
      end
  end.

Fixpoint insert_rm (x : Remediation * string) (l : list (Remediation * string)) : list (Remediation * string) :=
  match l with
  | [] => [x]
  | y :: l' => if rm_Seq x.1 <=? rm_Seq y.1 then x :: l else y :: insert_rm x l'
  end.

Definition by_seq (l : list (Remediation * string)) : list (Remediation * string) := fold_right insert_rm [] l.

(** The maps the loops of verifyRemediationJournal index: the journal by sequence and the
    digests by sequence, the last entry of a number kept. *)
Definition refs_of (journal : list RemediationRef) : gmap Z RemediationRef :=
  fold_left (fun m ref => <[rf_Seq ref := ref]> m) journal ∅.

Definition digests_of (read : list (Remediation * string)) : gmap Z string :=
  fold_left (fun m x => <[rm_Seq x.1 := x.2]> m) read ∅.

Fixpoint journal_problems (digests : gmap Z string) (refs : gmap Z RemediationRef) (loaded : list Remediation)
  : list string * gmap Z RemediationRef :=
  match loaded with
  | [] => ([], refs)
  | rm :: loaded' =>
      match refs !! rm_Seq rm with
      | None =>
          let '(ps, rest) := journal_problems digests refs loaded' in
          (("remediation " +:+ Itoa (rm_Seq rm) +:+ " exists on disk but the record's journal never authorized it — a remediation is authorized through the engine, and a document the journal does not name is not corrective work")
           :: ps, rest)
      | Some ref =>
          let '(ps, rest) := journal_problems digests (delete (rm_Seq rm) refs) loaded' in
          (problem_if (negb (String.eqb (default "" (digests !! rm_Seq rm)) (rf_Digest ref)))
             ("remediation " +:+ Itoa (rm_Seq rm) +:+ " no longer matches the digest journaled when it was authorized — the document was altered after authorization, and an authorization does not cover what was written into it later")
           ++ ps, rest)
      end
  end.

Definition verifyRemediationJournal (journal : list RemediationRef) (loaded : list Remediation) (digests : gmap Z string)
  : option error :=
  if bool_decide (journal = []) then None
  else
    let '(ps, rest) := journal_problems digests (refs_of journal) loaded in
    let gone := (fun seq =>
      "the record journals remediation " +:+ Itoa seq +:+ " but its document is gone — an authorized remediation may already have merged work against it, and is never deleted")
      <$> merge_sort Z.le (map_to_list rest).*1 in
    match ps ++ gone with
    | [] => None
    | problems => Some (Errorf "%w: %s" [join_with "; " problems] [ErrRecordConflict])
    end.

(** LoadRemediations over the files of the directory and the record beside them. *)
Definition LoadRemediations (projectID : string) (files : list (Z * doc)) (file : option Record_) : res (list Remediation) :=
  match read_remediations projectID files with
  | Err e => Err e
  | Ok read =>
      let out := (by_seq read).*1 in
      match LoadRecord projectID file with
      | Err e => Err e
      | Ok None => Ok out
      | Ok (Some r) =>
          match verifyRemediationJournal (rc_Remediations r) out (digests_of read) with
          | Some e => Err e
          | None => Ok out
          end
      end
  end.

End docs.
