(* ===== verification/HandState.v ===== *)
(** Where a delivery stands (internal/handoff/state.go): the completion evidence assessed
    from the plan, the published projection and the record, and the state derived from
    it.  The projection is what the YAML decoder read; the rendering of times in messages
    is a parameter. *)
From Stdlib Require Import Ascii.
From S2P Require Import Prelude GoStd RunFailure RunQA RunSpec HandIntent HandPlan HandRecord.

(** * Data *)

Definition StateNotStarted : string := "not-started".
Definition StatePlanning : string := "planning".
Definition StateQueued : string := "queued".
Definition StateRunning : string := "running".
Definition StateBlocked : string := "blocked".
Definition StateCompleted : string := "completed".
Definition StateFailed : string := "failed".

Record InvalidatedCriterion : Type := mkInvalidated {
  ic_CriterionID : string; ic_Invalidation : Z; ic_By : string; ic_Reason : string; ic_Evidence : string;
  ic_At : Z; ic_PreviousState : string; ic_RemedialPackages : list string
}.

Record Evidence : Type := mkEvidence {
  ed_Met : bool;
  ed_RequiredPackages : list string;
  ed_CompletePackages : list string;
  ed_OutstandingPackages : list string;
  ed_GateNotMet : list string;
  ed_AcceptanceMet : list string;
  ed_AcceptanceOutstanding : list string;
  ed_AwaitingHuman : list string;
  ed_Invalidated : list InvalidatedCriterion;
  ed_BlockingTasks : list string;
  ed_MergedMainSha : string;
  ed_Reasons : list string
}.

Record ProjectionRow : Type := mkRow { pw_TaskID : string; pw_Status : string; pw_CompletionGateStatus : string }.

Record projection : Type := mkProjection {
  pj_SchemaVersion : Z; pj_ProjectID : string; pj_LatestAcceptedMainSha : string; pj_ActiveTasks : list ProjectionRow
}.

(** What the file of the projection holds: nothing, a text that cannot be read, or a
    document. *)
Inductive ProjectionFile : Type :=
| NoProjection
| BadProjection (e : string)
| Projected (p : projection).

Definition ErrProjectionUnreadable : error := errmsg "handoff: delivery projection is unreadable" [].

Definition readProjection (f : ProjectionFile) : res (option projection) :=
  match f with
  | NoProjection => Ok None
  | BadProjection e => Err (Errorf "%w: %s: %w" [e] [ErrProjectionUnreadable])
  | Projected p =>
      if negb (pj_SchemaVersion p =? 1) then
        Err (Errorf "%w: %s: schemaVersion %d, this engine reads 1" [Itoa (pj_SchemaVersion p)] [ErrProjectionUnreadable])
      else Ok (Some p)
  end.

Definition acceptedStatuses : list string := ["merged"; "verified"; "complete"].

(** * Packages *)

Definition rows_of (p : projection) : gmap string (string * string) :=
  fold_left (fun m r => <[pw_TaskID r := (pw_Status r, pw_CompletionGateStatus r)]> m) (pj_ActiveTasks p) ∅.

(** The branch of the switch a package takes. *)
Inductive PackageState : Type := Unseen | Blocked | Unfinished | Unproven | Complete.

#[export] Instance PackageState_eq_dec : EqDecision PackageState.
Proof. solve_decision. Defined.

Definition package_state (rows : gmap string (string * string)) (wp : WorkPackage) : PackageState :=
  match rows !! wp_ID wp with
  | None => Unseen
  | Some (status, gate) =>
      if String.eqb status "blocked" then Blocked
      else if negb (bool_decide (status ∈ acceptedStatuses)) then Unfinished
      else if negb (String.eqb gate "met") then Unproven
      else Complete
  end.

Definition ids_in (rows : gmap string (string * string)) (f : PackageState -> bool) (all : list WorkPackage) : list string :=
  sort_Strings (wp_ID <$> List.filter (fun wp => f (package_state rows wp)) all).

Definition is_state (s t : PackageState) : bool := bool_decide (s = t).

(** * Criteria *)

Definition latest (invalidations : list Invalidation) (id : string) : option Invalidation :=
  List.find (fun inv => String.eqb (iv_CriterionID inv) id) (rev invalidations).

Definition answered (accepted : list Acceptance) (id : string) : bool :=
  existsb (fun a => String.eqb (ac_CriterionID a) id) accepted.

(** Remediation.RepairsInvalidation and PackagesFor. *)
Definition RepairsInvalidation (rm : Remediation) (criterionID : string) (seq : Z) : bool :=
  existsb (fun r => String.eqb (rr_CriterionID r) criterionID && (rr_Invalidation r =? seq)) (rm_Repairs rm).

Definition PackagesFor (rm : Remediation) (criterionID : string) : list string :=
  wp_ID <$> List.filter (fun wp => containsPath (wp_Satisfies wp) criterionID) (rm_Packages rm).

Definition repairedBy (plan : DeliveryPlan) (criterionID : string) (seq : Z) : list string :=
  sort_Strings (pn_Remediations plan ≫= fun rm =>
    if RepairsInvalidation rm criterionID seq
    then List.filter (fun id => negb (bool_decide (id ∈ Superseded plan))) (PackagesFor rm criterionID)
    else []).

(** The counters claimed and done of the loop over what the packages claim. *)
Definition claims_of (id : string) (all : list WorkPackage) : nat :=
  length (all ≫= fun wp => List.filter (String.eqb id) (wp_Satisfies wp)).

Definition carried_out (rows : gmap string (string * string)) (all : list WorkPackage) (id : string) : bool :=
  let claimed := claims_of id all in
  let finished := claims_of id (List.filter (fun wp => is_state (package_state rows wp) Complete) all) in
  (0 <? claimed)%nat && (claimed =? finished)%nat.

(** A criterion of delivery: the standing finding against it, if any. *)
Definition standing (rows : gmap string (string * string)) (plan : DeliveryPlan) (invalidations : list Invalidation)
    (c : Criterion) : option InvalidatedCriterion :=
  match latest invalidations (cr_ID c) with
  | None => None
  | Some inv =>
      let repaired := repairedBy plan (cr_ID c) (iv_Seq inv) in
      if bool_decide (repaired = []) || negb (carried_out rows (AllPackages plan) (cr_ID c))
      then Some (mkInvalidated (cr_ID c) (iv_Seq inv) (iv_By inv) (iv_Reason inv) (iv_Evidence inv) (iv_At inv)
                   (iv_PreviousState inv) repaired)
      else None
  end.

Definition delivered (rows : gmap string (string * string)) (plan : DeliveryPlan) (invalidations : list Invalidation)
    (c : Criterion) : bool :=
  carried_out rows (AllPackages plan) (cr_ID c)
  && match standing rows plan invalidations c with Some _ => false | None => true end.

Definition criterion_met (rows : gmap string (string * string)) (plan : DeliveryPlan) (accepted : list Acceptance)
    (invalidations : list Invalidation) (c : Criterion) : bool :=
  if IsHuman c then answered accepted (cr_ID c) else delivered rows plan invalidations c.

Definition ids_where (f : Criterion -> bool) (cs : list Criterion) : list string :=
  sort_Strings (cr_ID <$> List.filter f cs).

Fixpoint insert_invalidated (x : InvalidatedCriterion) (l : list InvalidatedCriterion) : list InvalidatedCriterion :=
  match l with
  | [] => [x]
  | y :: l' => if String.leb (ic_CriterionID x) (ic_CriterionID y) then x :: l else y :: insert_invalidated x l'
  end.

Definition by_criterion (l : list InvalidatedCriterion) : list InvalidatedCriterion := fold_right insert_invalidated [] l.

(** * Assess *)

Section assess.
Context (rfc3339 : Z -> string).

Definition list_reason (l : list string) (msg : string) : list string :=
  match l with [] => [] | _ => [msg] end.

Definition invalidated_reason (inv : InvalidatedCriterion) : string :=
  ic_CriterionID inv +:+ " was " +:+ ic_PreviousState inv +:+ " and is no longer: " +:+ ic_Reason inv
  +:+ " (evidence: " +:+ ic_Evidence inv +:+ "; invalidation " +:+ Itoa (ic_Invalidation inv) +:+ " recorded by "
  +:+ ic_By inv +:+ " at " +:+ rfc3339 (ic_At inv) +:+ ")"
  +:+ match ic_RemedialPackages inv with
      | [] => " — no remediation has been authorized for it"
      | ps => " — remediation authorized: " +:+ join_with ", " ps
      end.

Definition Assess (plan : DeliveryPlan) (i : Intent) (file : ProjectionFile) (accepted : list Acceptance)
    (invalidations : list Invalidation) : res Evidence :=
  let all := AllPackages plan in
  let required := sort_Strings (wp_ID <$> all) in
  match readProjection file with
  | Err e => Err e
  | Ok None =>
      Ok (mkEvidence false required [] required []
            (ids_where (fun c => IsHuman c && answered accepted (cr_ID c)) (in_Acceptance i))
            (ids_where (fun c => negb (IsHuman c)) (in_Acceptance i))
            (ids_where (fun c => IsHuman c && negb (answered accepted (cr_ID c))) (in_Acceptance i))
            [] [] "" ["no delivery projection has been published yet"])
  | Ok (Some proj) =>
      if negb (String.eqb (pj_ProjectID proj) "") && negb (String.eqb (pj_ProjectID proj) (in_ProjectID i)) then
        Err (Errorf "%w: %s projects project %q, not %q" [pj_ProjectID proj; in_ProjectID i] [ErrProjectionUnreadable])
      else
        let rows := rows_of proj in
        let complete := ids_in rows (fun s => is_state s Complete) all in
        let outstanding := ids_in rows (fun s => negb (is_state s Complete)) all in
        let gateNotMet := ids_in rows (fun s => is_state s Unproven) all in
        let blocking := ids_in rows (fun s => is_state s Blocked) all in
        let met := criterion_met rows plan accepted invalidations in
        let acceptanceMet := ids_where met (in_Acceptance i) in
        let acceptanceOutstanding := ids_where (fun c => negb (IsHuman c) && negb (met c)) (in_Acceptance i) in
        let awaiting := ids_where (fun c => IsHuman c && negb (met c)) (in_Acceptance i) in
        let invalidated := by_criterion
          (omap (fun c => if IsHuman c then None else standing rows plan invalidations c) (in_Acceptance i)) in
        let sha := pj_LatestAcceptedMainSha proj in
        let reasons :=
          list_reason outstanding
            (Itoa (Z.of_nat (length outstanding)) +:+ " of " +:+ Itoa (Z.of_nat (length required))
             +:+ " work packages are not complete: " +:+ join_with ", " outstanding)
          ++ list_reason gateNotMet
               (Itoa (Z.of_nat (length gateNotMet)) +:+ " package(s) reached the forge without a met completion gate: "
                +:+ join_with ", " gateNotMet)
          ++ list_reason acceptanceOutstanding
               ("acceptance criteria not met: " +:+ join_with ", " acceptanceOutstanding)
          ++ (invalidated_reason <$> invalidated)
          ++ list_reason awaiting ("awaiting human acceptance: " +:+ join_with ", " awaiting)
          ++ list_reason blocking ("blocking work remains: " +:+ join_with ", " blocking)
          ++ problem_if (dp_NeedMerge (in_Policy i) && blank sha)
               "no accepted commit is recorded on the authoritative branch" in
        Ok (mkEvidence (bool_decide (reasons = [])) required complete outstanding gateNotMet acceptanceMet
              acceptanceOutstanding awaiting invalidated blocking sha reasons)
  end.

End assess.

(** * Derive *)

Record RunObservation : Type := mkObservation {
  ob_Live : bool; ob_RunID : string; ob_Stage : string; ob_Boundaries : list string;
  ob_Finished : bool; ob_Outcome : string
}.

Record Status : Type := mkStatus {
  ss_ProjectID : string; ss_State : string; ss_Detail : string; ss_RunID : string; ss_Live : bool;
  ss_PackagesTotal : Z; ss_PackagesComplete : Z; ss_CriteriaTotal : Z; ss_CriteriaMet : Z;
  ss_Boundaries : list string; ss_Evidence : Evidence; ss_ObservedAt : Z
}.

Definition outcomeCompleted : string := "completed".
Definition outcomeBlockedHuman : string := "blocked-human".
Definition outcomeAwaitingAuth : string := "awaiting-auth".
Definition outcomeFailed : string := "failed".

Definition len (l : list string) : Z := Z.of_nat (length l).

Definition joinOr (items : list string) (fallback : string) : string :=
  match items with [] => fallback | _ => join_with "; " items end.

Definition describeRunning (obs : RunObservation) (total complete : Z) : string :=
  let stage := if blank (ob_Stage obs) then "working" else ob_Stage obs in
  if 0 <? total
  then "Delivery is running (" +:+ stage +:+ "); " +:+ Itoa complete +:+ " of " +:+ Itoa total +:+ " work packages complete."
  else "Delivery is running (" +:+ stage +:+ ").".

(** The state and the sentence that explains it. *)
Definition state_of (admitted : bool) (plan : DeliveryPlan) (planFound : bool) (obs : RunObservation) (ev : Evidence)
    (total complete : Z) : string * string :=
  let waiting :=
    if negb planFound then (StatePlanning, "Delivery has started and is planning the work.")
    else (StateQueued, "A plan of " +:+ Itoa (Z.of_nat (length (pn_Packages plan)))
            +:+ " work package(s) is ready and no run is currently executing it.") in
  if negb admitted then (StateNotStarted, "No managed delivery has been started for this project.")
  else if ed_Met ev then
    (StateCompleted, "Delivery is complete: every work package is merged with a met completion gate and every acceptance criterion is satisfied.")
  else if ob_Live obs then
    match ob_Boundaries obs with
    | [] => (StateRunning, describeRunning obs total complete)
    | bs => (StateBlocked, "Delivery is running but waiting on a person: " +:+ join_with "; " bs)
    end
  else if ob_Finished obs then
    if String.eqb (ob_Outcome obs) outcomeFailed
    then (StateFailed, "The delivery run stopped on something it could not work around.")
    else if String.eqb (ob_Outcome obs) outcomeBlockedHuman || String.eqb (ob_Outcome obs) outcomeAwaitingAuth
    then (StateBlocked, "Delivery has done everything it can without a person: "
            +:+ joinOr (ob_Boundaries obs) "see the run's evidence for what is needed")
    else if String.eqb (ob_Outcome obs) outcomeCompleted
    then (StateBlocked, "The run finished, but delivery is not yet accepted: "
            +:+ joinOr (ed_Reasons ev) "the evidence gate is not met")
    else waiting
  else waiting.

Definition Derive (projectID : string) (admitted : bool) (plan : DeliveryPlan) (planFound : bool)
    (obs : RunObservation) (ev : Evidence) (now : Z) : Status :=
  let total := if planFound then Z.of_nat (length (AllPackages plan)) else 0 in
  let complete := if planFound then len (ed_CompletePackages ev) else 0 in
  let '(state, detail) := state_of admitted plan planFound obs ev total complete in
  mkStatus projectID state detail (ob_RunID obs) (ob_Live obs) total complete
    (len (ed_AcceptanceMet ev) + len (ed_AcceptanceOutstanding ev) + len (ed_AwaitingHuman ev))
    (len (ed_AcceptanceMet ev)) (ob_Boundaries obs) ev now.
