(* ===== verification/HandStateProps.v ===== *)
(** A delivery is reported completed exactly when the evidence is there: every live work
    package finished through its gate, every criterion reserved to a person answered, and
    every other criterion carried by finished work and, once disproved, by work authorized
    against that very finding. *)
From stdpp Require Import sorting.
From S2P Require Import Prelude GoStd RunFailure RunQA RunPlan RunController RunSpec HandIntent HandPlan HandRecord.
From S2P Require Import HandPlanProps HandState.

(** * The last entry of a key *)

Definition last_with {A K} (key : A -> K) (k : K) (l : list A) (x : A) : Prop :=
  exists l1 l2, l = l1 ++ x :: l2 /\ key x = k /\ Forall (fun y => key y <> k) l2.

Lemma last_with_snoc {A K} (key : A -> K) k l x y :
  last_with key k (l ++ [y]) x <-> (x = y /\ key y = k) \/ (key y <> k /\ last_with key k l x).
Proof.
  split.
  - intros (l1 & l2 & E & Hk & Hf). destruct l2 as [|z l2 _] using rev_ind.
    + apply app_inj_tail in E as [_ ->]. by left.
    + rewrite app_comm_cons, app_assoc in E. apply app_inj_tail in E as [-> ->].
      rewrite Forall_app, Forall_singleton in Hf. destruct Hf as [Hf Hz]. right. split; [done|].
      by exists l1, l2.
  - intros [[-> Hk]|[Hk (l1 & l2 & -> & Hx & Hf)]]; [by exists l, []|].
    exists l1, (l2 ++ [y]). rewrite <- app_assoc. repeat split; [done|].
    rewrite Forall_app, Forall_singleton. done.
Qed.

Lemma last_with_nil {A K} (key : A -> K) k x : ~ last_with key k [] x.
Proof. intros (l1 & l2 & E & _). by destruct l1. Qed.

Lemma last_with_elem {A K} (key : A -> K) k l x : last_with key k l x -> x ∈ l /\ key x = k.
Proof. intros (l1 & l2 & -> & Hk & _). split; [set_solver|done]. Qed.

Lemma last_with_fun {A K} (key : A -> K) k l x y : last_with key k l x -> last_with key k l y -> x = y.
Proof.
  induction l as [|z l IH] using rev_ind; [by intros ?%last_with_nil|]. rewrite !last_with_snoc.
  intros [[-> ?]|[? ?]] [[-> ?]|[? ?]]; [done|done|done|by apply IH].
Qed.

Lemma rows_of_spec p id s g :
  rows_of p !! id = Some (s, g)
  <-> exists r, last_with pw_TaskID id (pj_ActiveTasks p) r /\ pw_Status r = s /\ pw_CompletionGateStatus r = g.
Proof.
  unfold rows_of. generalize (pj_ActiveTasks p) as l. intros l. induction l as [|r l IH] using rev_ind.
  { split; [done|]. intros (r & []%last_with_nil & _). }
  rewrite fold_left_app. cbn [fold_left]. rewrite lookup_insert_Some, IH. setoid_rewrite last_with_snoc. split.
  - intros [[Hk [= <- <-]]|[Hk (r' & Hr' & Hs)]]; [exists r|exists r']; auto.
  - intros (r' & [[-> Hk]|[Hk Hr']] & <- & <-); [left; done|right; split; [done|by exists r']].
Qed.

Lemma latest_spec invs id inv : latest invs id = Some inv <-> last_with iv_CriterionID id invs inv.
Proof.
  unfold latest. induction invs as [|x invs IH] using rev_ind; [split; [done|intros []%last_with_nil]|].
  rewrite rev_app_distr. cbn [rev app List.find]. rewrite last_with_snoc, <- IH.
  destruct (String.eqb_spec (iv_CriterionID x) id) as [Hk|Hk].
  - split; [intros [= ->]; by left|]. intros [[-> _]|[? _]]; done.
  - split; [intros E; by right|]. intros [[_ ?]|[_ ?]]; done.
Qed.

(** * Packages and what they claim *)

Lemma package_state_complete proj wp :
  package_state (rows_of proj) wp = Complete
  <-> exists r, last_with pw_TaskID (wp_ID wp) (pj_ActiveTasks proj) r
                /\ pw_Status r ∈ acceptedStatuses /\ pw_CompletionGateStatus r = "met".
Proof.
  unfold package_state. destruct (rows_of proj !! wp_ID wp) as [[s g]|] eqn:E.
  - apply rows_of_spec in E as (r & Hr & <- & <-). split.
    + intros Hs. exists r. repeat split; [done| |]; repeat (split_match_in Hs; try done);
        rewrite negb_false_iff in *; [by eapply bool_decide_eq_true|by apply String.eqb_eq].
    + intros (r' & Hr' & Hs & Hg). assert (r' = r) as -> by by eapply last_with_fun.
      destruct (String.eqb_spec (pw_Status r) "blocked") as [Eb|_];
        [rewrite Eb in Hs; unfold acceptedStatuses in Hs; set_solver|].
      rewrite bool_decide_true by done. by rewrite Hg.
  - split; [done|]. intros (r & Hr & _). assert (rows_of proj !! wp_ID wp = Some (pw_Status r, pw_CompletionGateStatus r)) as E'
      by (apply rows_of_spec; by exists r). congruence.
Qed.

Lemma claims_of_cons id wp all :
  claims_of id (wp :: all) = (length (List.filter (String.eqb id) (wp_Satisfies wp)) + claims_of id all)%nat.
Proof. unfold claims_of. cbn. by rewrite length_app. Qed.

Lemma filter_eqb_pos id l : (0 < length (List.filter (String.eqb id) l))%nat <-> id ∈ l.
Proof.
  induction l as [|x l IH]; cbn; [split; [lia|set_solver]|]. rewrite elem_of_cons, <- IH.
  destruct (String.eqb_spec id x) as [->|]; cbn; [split; [auto|lia]|split; [auto|intros [?|?]; done]].
Qed.

Lemma claims_of_pos id all : (0 < claims_of id all)%nat <-> exists wp, wp ∈ all /\ id ∈ wp_Satisfies wp.
Proof.
  induction all as [|wp all IH]; [split; [cbn; lia|intros (? & ?%elem_of_nil & _); done]|].
  rewrite claims_of_cons. setoid_rewrite elem_of_cons. split.
  - intros Hp. destruct (decide (id ∈ wp_Satisfies wp)) as [?|Hn]; [exists wp; auto|].
    rewrite <- filter_eqb_pos in Hn. assert (0 < claims_of id all)%nat as (w & Hw & Hs)%IH by lia. exists w. auto.
  - intros (w & [->|Hw] & Hs); [apply filter_eqb_pos in Hs; lia|].
    assert (0 < claims_of id all)%nat by (apply IH; by exists w). lia.
Qed.

Lemma claims_of_filter id (f : WorkPackage -> bool) all :
  Forall (fun wp => f wp = true) all -> claims_of id (List.filter f all) = claims_of id all.
Proof.
  induction 1 as [|wp all Hf _ IH]; [done|]. cbn [List.filter]. by rewrite Hf, !claims_of_cons, IH.
Qed.

Lemma carried_out_all rows all id :
  Forall (fun wp => package_state rows wp = Complete) all ->
  carried_out rows all id = true <-> exists wp, wp ∈ all /\ id ∈ wp_Satisfies wp.
Proof.
  intros Hall. unfold carried_out. rewrite claims_of_filter.
  - rewrite Nat.eqb_refl, andb_true_r, Nat.ltb_lt. apply claims_of_pos.
  - eapply Forall_impl; [exact Hall|]. intros wp E. unfold is_state. by rewrite E, bool_decide_true.
Qed.

(** * Repairs *)

Lemma sort_Strings_ne l : sort_Strings l <> [] <-> exists x, x ∈ l.
Proof.
  split.
  - intros Hne. destruct l as [|x l]; [done|]. exists x. set_solver.
  - intros [x Hx] E. apply elem_of_sort_Strings in Hx. rewrite E in Hx. set_solver.
Qed.

(** Live work of a remediation that names the finding. *)
Definition answers (plan : DeliveryPlan) (inv : Invalidation) (id : string) : Prop :=
  exists rm r wp, rm ∈ pn_Remediations plan /\ r ∈ rm_Repairs rm /\ rr_CriterionID r = id
    /\ rr_Invalidation r = iv_Seq inv /\ wp ∈ rm_Packages rm /\ id ∈ wp_Satisfies wp
    /\ (wp_ID wp ∉ Superseded plan).

Lemma containsPath_elem l x : containsPath l x = true <-> x ∈ l.
Proof.
  unfold containsPath. rewrite existsb_exists. split.
  - intros (y & Hy & ->%String.eqb_eq). by apply list_elem_of_In.
  - intros Hx. exists x. split; [by apply list_elem_of_In|apply String.eqb_refl].
Qed.

Lemma RepairsInvalidation_spec rm id seq :
  RepairsInvalidation rm id seq = true
  <-> exists r, r ∈ rm_Repairs rm /\ rr_CriterionID r = id /\ rr_Invalidation r = seq.
Proof.
  unfold RepairsInvalidation. rewrite existsb_exists. split.
  - intros (r & Hr%list_elem_of_In & [?%String.eqb_eq ?%Z.eqb_eq]%andb_prop). by exists r.
  - intros (r & Hr%list_elem_of_In & ? & ?). exists r. split; [done|]. apply andb_true_intro.
    by rewrite String.eqb_eq, Z.eqb_eq.
Qed.

Lemma elem_of_PackagesFor rm id x :
  x ∈ PackagesFor rm id <-> exists wp, x = wp_ID wp /\ wp ∈ rm_Packages rm /\ id ∈ wp_Satisfies wp.
Proof.
  unfold PackagesFor. rewrite list_elem_of_fmap. apply exist_proper. intros wp.
  by rewrite (list_elem_of_In (List.filter _ _)), filter_In, containsPath_elem, <- list_elem_of_In.
Qed.

Lemma repairedBy_spec plan id inv : repairedBy plan id (iv_Seq inv) <> [] <-> answers plan inv id.
Proof.
  unfold repairedBy. rewrite sort_Strings_ne. setoid_rewrite list_elem_of_bind. split.
  - intros (x & rm & Hx & Hrm). destruct (RepairsInvalidation rm id (iv_Seq inv)) eqn:E; [|set_solver].
    apply RepairsInvalidation_spec in E as (r & Hr & Hid & Hseq).
    apply list_elem_of_In, filter_In in Hx as [Hx Hg%negb_true_iff%bool_decide_eq_false].
    apply list_elem_of_In, elem_of_PackagesFor in Hx as (wp & -> & Hwp & Hs). by exists rm, r, wp.
  - intros (rm & r & wp & Hrm & Hr & Hid & Hseq & Hwp & Hs & Hg). exists (wp_ID wp), rm. split; [|done].
    rewrite (proj2 (RepairsInvalidation_spec _ _ _)) by by exists r.
    rewrite list_elem_of_In, filter_In, <- list_elem_of_In, elem_of_PackagesFor. split; [by exists wp|].
    apply negb_true_iff, bool_decide_eq_false. done.
Qed.

(** * Reasons *)

Lemma list_reason_nil l msg : list_reason l msg = [] <-> l = [].
Proof. by destruct l. Qed.

Lemma filter_nil_iff {A} (f : A -> bool) l : List.filter f l = [] <-> Forall (fun x => f x = false) l.
Proof.
  induction l as [|x l IH]; cbn; [by split|]. rewrite Forall_cons, <- IH. destruct (f x); by split; [|intros [? ?]].
Qed.

Lemma ids_in_nil rows f all : ids_in rows f all = [] <-> Forall (fun wp => f (package_state rows wp) = false) all.
Proof. unfold ids_in. by rewrite sort_Strings_nil, fmap_nil_eq, filter_nil_iff. Qed.

Lemma ids_where_nil f cs : ids_where f cs = [] <-> Forall (fun c => f c = false) cs.
Proof. unfold ids_where. by rewrite sort_Strings_nil, fmap_nil_eq, filter_nil_iff. Qed.

Lemma by_criterion_nil l : by_criterion l = [] <-> l = [].
Proof.
  destruct l as [|x l]; [done|]. split; [|done]. unfold by_criterion. cbn [fold_right].
  destruct (fold_right insert_invalidated [] l) as [|y k]; cbn [insert_invalidated]; [done|]. by destruct (String.leb _ _).
Qed.

Lemma omap_nil_iff {A B} (f : A -> option B) l : omap f l = [] <-> Forall (fun x => f x = None) l.
Proof.
  induction l as [|x l IH]; [by split|]. rewrite Forall_cons, <- IH. cbn. destruct (f x); by split; [|intros [? ?]].
Qed.

Lemma Forall_iff_in {A} (P Q : A -> Prop) l : (forall x, x ∈ l -> P x <-> Q x) -> Forall P l <-> Forall Q l.
Proof. rewrite !Forall_forall. intros E. split; intros Hf x Hx; apply (E x Hx), Hf, Hx. Qed.

(** * The specification *)

Definition package_done (proj : projection) (wp : WorkPackage) : Prop :=
  exists r, last_with pw_TaskID (wp_ID wp) (pj_ActiveTasks proj) r
            /\ pw_Status r ∈ acceptedStatuses /\ pw_CompletionGateStatus r = "met".

Definition criterion_done (plan : DeliveryPlan) (accepted : list Acceptance) (invs : list Invalidation) (c : Criterion)
  : Prop :=
  if IsHuman c then exists a, a ∈ accepted /\ ac_CriterionID a = cr_ID c
  else (exists wp, wp ∈ AllPackages plan /\ cr_ID c ∈ wp_Satisfies wp)
       /\ (forall inv, last_with iv_CriterionID (cr_ID c) invs inv -> answers plan inv (cr_ID c)).

Record delivery_done (plan : DeliveryPlan) (i : Intent) (file : ProjectionFile) (accepted : list Acceptance)
    (invs : list Invalidation) (proj : projection) : Prop := {
  dd_published : file = Projected proj;
  dd_schema : pj_SchemaVersion proj = 1;
  dd_project : pj_ProjectID proj = "" \/ pj_ProjectID proj = in_ProjectID i;
  dd_packages : Forall (package_done proj) (AllPackages plan);
  dd_criteria : Forall (criterion_done plan accepted invs) (in_Acceptance i);
  dd_merged : dp_NeedMerge (in_Policy i) = true -> blank (pj_LatestAcceptedMainSha proj) = false
}.

Section assess.
Context (rfc3339 : Z -> string).

Lemma answered_spec accepted id : answered accepted id = true <-> exists a, a ∈ accepted /\ ac_CriterionID a = id.
Proof.
  unfold answered. rewrite existsb_exists. apply exist_proper. intros a. by rewrite String.eqb_eq, list_elem_of_In.
Qed.

Lemma standing_none rows plan invs c :
  carried_out rows (AllPackages plan) (cr_ID c) = true ->
  standing rows plan invs c = None
  <-> (forall inv, last_with iv_CriterionID (cr_ID c) invs inv -> answers plan inv (cr_ID c)).
Proof.
  intros Hc. unfold standing. rewrite Hc. destruct (latest invs (cr_ID c)) as [inv|] eqn:E.
  - apply latest_spec in E. cbn [negb]. rewrite orb_false_r. split.
    + intros Hs inv' Hl. assert (inv' = inv) as -> by by eapply last_with_fun. apply repairedBy_spec.
      by destruct (bool_decide_reflect (repairedBy plan (cr_ID c) (iv_Seq inv) = [])).
    + intros Ha. rewrite bool_decide_false; [done|]. by apply repairedBy_spec, Ha.
  - split; [|done]. intros _ inv Hl. apply latest_spec in Hl. congruence.
Qed.

Lemma criterion_met_exact rows plan accepted invs c :
  Forall (fun wp => package_state rows wp = Complete) (AllPackages plan) ->
  criterion_met rows plan accepted invs c = true <-> criterion_done plan accepted invs c.
Proof.
  intros Hall. unfold criterion_met, criterion_done. destruct (IsHuman c); [apply answered_spec|].
  unfold delivered. rewrite andb_true_iff, (carried_out_all rows (AllPackages plan) (cr_ID c)) by done. split.
  - intros [Hw Hs]. split; [done|]. apply (standing_none rows); [by apply carried_out_all|].
    by destruct (standing rows plan invs c).
  - intros [Hw Ha]. split; [done|]. by rewrite (proj2 (standing_none rows plan invs c (proj2 (carried_out_all _ _ _ Hall) Hw))).
Qed.

(** What the reasons of a published projection leave out. *)
Lemma standing_met rows plan accepted invs c :
  IsHuman c = false -> criterion_met rows plan accepted invs c = true -> standing rows plan invs c = None.
Proof.
  unfold criterion_met, delivered. intros -> [_ Hs]%andb_prop. by destruct (standing rows plan invs c).
Qed.

Lemma not_complete_false s : negb (is_state s Complete) = false <-> s = Complete.
Proof. unfold is_state. rewrite negb_false_iff. apply bool_decide_eq_true. Qed.

Lemma met_split (f : Criterion -> bool) cs :
  Forall (fun c => negb (IsHuman c) && negb (f c) = false) cs /\ Forall (fun c => IsHuman c && negb (f c) = false) cs
  <-> Forall (fun c => f c = true) cs.
Proof.
  rewrite <- Forall_and. apply Forall_iff_in. intros c _. destruct (IsHuman c), (f c); cbn; split; try done; by intros [].
Qed.

Lemma Assess_met plan i file accepted invs ev :
  Assess rfc3339 plan i file accepted invs = Ok ev ->
  ed_Met ev = true <-> exists proj, delivery_done plan i file accepted invs proj.
Proof.
  unfold Assess. destruct file as [|e|proj]; cbn [readProjection]; [intros [= <-]|done|].
  { split; [done|]. intros [proj [? _ _ _ _ _]]. done. }
  destruct (Z.eqb_spec (pj_SchemaVersion proj) 1) as [Hv|Hv]; cbn [negb]; [|done].
  destruct (negb (String.eqb (pj_ProjectID proj) "") && negb (String.eqb (pj_ProjectID proj) (in_ProjectID i))) eqn:Hp; [done|].
  intros [= <-]. cbn [ed_Met]. rewrite bool_decide_eq_true.
  rewrite !app_nil, !list_reason_nil, problem_if_nil, !ids_in_nil, !ids_where_nil, fmap_nil_eq, by_criterion_nil, omap_nil_iff.
  assert (pj_ProjectID proj = "" \/ pj_ProjectID proj = in_ProjectID i) as Hproj.
  { rewrite andb_false_iff, !negb_false_iff, !String.eqb_eq in Hp. tauto. }
  split.
  - intros (Hout & _ & Hdel & _ & Hhum & _ & Hsha). exists proj. split; [done|done|done| | |].
    + eapply Forall_impl; [exact Hout|]. intros wp Hw%not_complete_false. by apply package_state_complete.
    + assert (Forall (fun wp => package_state (rows_of proj) wp = Complete) (AllPackages plan)) as Hall
        by (eapply Forall_impl; [exact Hout|]; intros wp; apply not_complete_false).
      eapply Forall_impl; [exact (proj1 (met_split _ _) (conj Hdel Hhum))|]. intros c. by apply criterion_met_exact.
    + intros Hm. rewrite Hm in Hsha. done.
  - intros [proj' [[= <-] _ _ Hpk Hcr Hsha]].
    assert (Forall (fun wp => package_state (rows_of proj) wp = Complete) (AllPackages plan)) as Hall
      by (eapply Forall_impl; [exact Hpk|]; intros wp; apply package_state_complete).
    assert (Forall (fun c => criterion_met (rows_of proj) plan accepted invs c = true) (in_Acceptance i)) as Hmet
      by (eapply Forall_impl; [exact Hcr|]; intros c; by apply criterion_met_exact).
    destruct (proj2 (met_split _ _) Hmet) as [Hd Hh].
    repeat split; try done.
    + eapply Forall_impl; [exact Hall|]. intros wp Hw. by apply not_complete_false.
    + eapply Forall_impl; [exact Hall|]. intros wp ->. done.
    + eapply Forall_impl; [exact Hmet|]. intros c Hc. destruct (IsHuman c) eqn:Ec; [done|]. by apply (standing_met _ _ accepted).
    + eapply Forall_impl; [exact Hall|]. intros wp ->. done.
    + destruct (dp_NeedMerge (in_Policy i)); [|done]. by rewrite Hsha.
Qed.

Lemma state_of_completed admitted plan planFound obs ev total complete :
  (state_of admitted plan planFound obs ev total complete).1 = StateCompleted <-> admitted = true /\ ed_Met ev = true.
Proof.
  unfold state_of. destruct admitted; cbn [negb]; [|by split; [|intros [? _]]].
  destruct (ed_Met ev); [done|]. split; [|by intros [_ ?]]. repeat (split_match; try done).
Qed.

(** (C3) A delivery is reported completed exactly when it was admitted, its projection is
    published in the schema the engine reads and for this project, the last row of every
    live work package of the plan and of its remediations says it was accepted with its
    completion gate met, every criterion reserved to a person has been answered by one,
    every other criterion is claimed by a live package and, if it was ever disproved, the
    last finding against it is answered by live work of a remediation that names that very
    finding, and a commit is accepted on the main branch where merging was granted.
    Neither the outcome of a run nor what it is doing can make a delivery complete. *)
Theorem delivery_completed_exact plan i file accepted invs pid admitted planFound obs now :
  (exists ev, Assess rfc3339 plan i file accepted invs = Ok ev
     /\ ss_State (Derive pid admitted plan planFound obs ev now) = StateCompleted)
  <-> admitted = true /\ exists proj, delivery_done plan i file accepted invs proj.
Proof.
  assert (forall ev, ss_State (Derive pid admitted plan planFound obs ev now) = StateCompleted
            <-> admitted = true /\ ed_Met ev = true) as Hd.
  { intros ev. unfold Derive.
    match goal with |- context [state_of ?a ?p ?f ?o ?e ?t ?c] => pose proof (state_of_completed a p f o e t c) as Hs;
      destruct (state_of a p f o e t c) end. exact Hs. }
  split.
  - intros (ev & Ha & [Hadm Hm]%Hd). split; [done|]. by apply (Assess_met _ _ _ _ _ _ Ha).
  - intros [Hadm [proj Hdone]]. assert (exists ev, Assess rfc3339 plan i file accepted invs = Ok ev) as [ev Hev].
    { destruct Hdone as [-> Hv Hp _ _ _]. unfold Assess. cbn [readProjection]. rewrite Hv. cbn.
      destruct Hp as [-> | ->]; cbn; [by eexists|]. rewrite String.eqb_refl, andb_false_r. by eexists. }
    exists ev. split; [done|]. apply Hd. split; [done|]. apply (Assess_met _ _ _ _ _ _ Hev). by exists proj.
Qed.

End assess.
