(* ===== verification/HandReconcile.v ===== *)
(** Withdrawing a result and repairing it (internal/handoff/reconcile.go), and replacing a
    plan (SavePlan and LoadPlan of record.go, plan_supersede.go, plan_amend.go).  A
    delivery directory holds the record, the remediation documents in the order of their
    names, the plan and the archived plans.  Reading and writing a document succeed, except
    that the last write of AuthorizeRemediation may not happen.  The commands of
    corsolv/delivery are processes that read the record, and write it back later. *)
From S2P Require Import Prelude GoStd RunFailure RunQA RunSpec HandIntent HandPlan HandRecord HandState.

#[export] Instance Verification_eq_dec : EqDecision Verification.
Proof. solve_decision. Defined.
#[export] Instance WorkPackage_eq_dec : EqDecision WorkPackage.
Proof. solve_decision. Defined.
#[export] Instance Repair_eq_dec : EqDecision Repair.
Proof. solve_decision. Defined.
#[export] Instance Remediation_eq_dec : EqDecision Remediation.
Proof. solve_decision. Defined.
#[export] Instance DeliveryPlan_eq_dec : EqDecision DeliveryPlan.
Proof. solve_decision. Defined.

(** * The directory *)

Record Delivery `{Docs} : Type := mkDelivery {
  dl_Record : option Record_;
  dl_Files : list (Z * doc);
  dl_Plan : option DeliveryPlan;
  dl_Archive : list DeliveryPlan
}.

Arguments mkDelivery {_} _ _ _ _.

Section reconcile.
Context `{GoTables} `{Docs} (rfc3339 : Z -> string).

Definition CriterionMet : string := "met".

(** * Findings *)

Definition Invalidate (r : Record_) (criterionID : string) (prior : Evidence) (by_ reason evidence : string) (now : Z)
  : Record_ * option error :=
  let refuse fmt args := (r, Some (Errorf fmt args [ErrRecordConflict])) in
  match declared (rc_Intent r) criterionID with
  | None => refuse "%w: %s declares no acceptance criterion %q" [rc_ProjectID r; criterionID]
  | Some c =>
      if IsHuman c then
        refuse "%w: %s is a person's to accept — this operation withdraws a result delivery proved, and a person's answer is theirs to give and theirs to revise" [criterionID]
      else if blank by_ then
        refuse "%w: invalidating %s requires the name of the actor invalidating it — an unattributed invalidation is an invisible mutation of a finished project" [criterionID]
      else if blank reason then
        refuse "%w: invalidating %s requires a reason — what a later reader needs is why the earlier conclusion was wrong, not that somebody decided it was" [criterionID]
      else if blank evidence then
        refuse "%w: invalidating %s requires evidence — an assertion with nothing behind it is an opinion, and an opinion may not un-complete a project" [criterionID]
      else
        let met := containsPath (ed_AcceptanceMet prior) criterionID in
        match LatestInvalidation r criterionID, met with
        | Some inv, false =>
            refuse "%w: %s is already invalidated — invalidation %d, raised by %s on %s: %s (evidence: %s). Authorize remediation for it rather than raising a second finding"
              [criterionID; Itoa (iv_Seq inv); iv_By inv; rfc3339 (iv_At inv); iv_Reason inv; iv_Evidence inv]
        | None, false =>
            refuse "%w: %s is not currently met, so there is no result to withdraw: %s"
              [criterionID; joinOr (ed_Reasons prior) "the assessment reports it outstanding"]
        | _, true =>
            (with_invalidations
               (rc_Invalidations r
                ++ [mkFinding (Z.of_nat (length (rc_Invalidations r)) + 1) criterionID (TrimSpace by_) (TrimSpace reason)
                      (TrimSpace evidence) CriterionMet now]) now r, None)
        end
  end.

Definition StandingInvalidations (r : Record_) (prior : Evidence) : gmap string Invalidation :=
  fold_left (fun out c =>
      match LatestInvalidation r (cr_ID c) with
      | None => out
      | Some inv => if containsPath (ed_AcceptanceMet prior) (cr_ID c) then out else <[cr_ID c := inv]> out
      end) (in_Acceptance (rc_Intent r)) ∅.

(** * Remediation documents *)

Definition pad3 (s : string) : string :=
  match String.length s with 0%nat => "000" | 1%nat => "00" +:+ s | 2%nat => "0" +:+ s | _ => s end.

(** The name RemediationPath gives a document. *)
Definition RemediationName (seq : Z) : string := "remediation-" +:+ pad3 (Itoa seq) +:+ ".json".

(** A directory lists its entries in the order of their names. *)
Fixpoint add_file (x : Z * doc) (files : list (Z * doc)) : list (Z * doc) :=
  match files with
  | [] => [x]
  | y :: files' =>
      if String.leb (RemediationName x.1) (RemediationName y.1) then x :: files else y :: add_file x files'
  end.

Definition file_at (files : list (Z * doc)) (seq : Z) : option doc :=
  snd <$> List.find (fun x => x.1 =? seq) files.

Definition SaveRemediation (files : list (Z * doc)) (rm : Remediation) : res (list (Z * doc)) :=
  if String.eqb (rm_ProjectID rm) "" then
    Err (Errorf "%w: refusing to write a remediation with no project id" [] [ErrRecordConflict])
  else match file_at files (rm_Seq rm) with
       | Some _ =>
           Err (Errorf "%w: remediation %d for %q already exists at %s — a remediation is the durable authorization for work that may already have merged, and is never rewritten"
                  [Itoa (rm_Seq rm); rm_ProjectID rm] [ErrRecordConflict])
       | None => Ok (add_file (rm_Seq rm, encode_rm rm) files)
       end.

Definition with_authority (seq : Z) (by_ : string) (now : Z) (rm : Remediation) : Remediation :=
  mkRemediation (rm_SchemaVersion rm) (rm_ProjectID rm) seq (rm_Repairs rm) by_ now (rm_Packages rm) (rm_Supersedes rm).

Definition with_remediations (rms : list Remediation) (p : DeliveryPlan) : DeliveryPlan :=
  mkDeliveryPlan (pn_SchemaVersion p) (pn_ProjectID p) (pn_PlannedBy p) (pn_PlannedAt p) (pn_Packages p) rms (pn_Provisional p).

(** What a document may not say about its own authorization; the zero time is 0. *)
Definition provenance_problems (r : Record_) (rm : Remediation) (by_ : string) : list string :=
  problem_if (negb (String.eqb (rm_ProjectID rm) (rc_ProjectID r)))
    ("remediation projectId " +:+ Quote (rm_ProjectID rm) +:+ " does not match the delivery's " +:+ Quote (rc_ProjectID r))
  ++ problem_if (negb (rm_Seq rm =? 0))
       "a remediation does not declare its own seq — the engine assigns it from how many findings this project has already had remediated"
  ++ problem_if (negb (rm_AuthorizedAt rm =? 0))
       "a remediation does not declare its own authorizedAt — a timestamp the authorized document chose is not evidence of when it was authorized"
  ++ problem_if (negb (blank (rm_AuthorizedBy rm)))
       "a remediation does not declare its own authorizedBy — who authorizes corrective work is stated by the person doing it, not by the document asking for it"
  ++ problem_if (blank by_) "authorizing remediation requires the name of the actor authorizing it".

Definition standing_problems (standing : gmap string Invalidation) (rm : Remediation) : list string :=
  rm_Repairs rm ≫= fun rep =>
    match standing !! rr_CriterionID rep with
    | None =>
        [rr_CriterionID rep +:+ " has no standing invalidation — remediation repairs a recorded finding, and there is none to repair"]
    | Some inv =>
        problem_if (negb (iv_Seq inv =? rr_Invalidation rep))
          (rr_CriterionID rep +:+ " names invalidation " +:+ Itoa (rr_Invalidation rep)
           +:+ ", but the standing finding against it is invalidation " +:+ Itoa (iv_Seq inv))
    end.

Definition ref_of (data : doc) (rm : Remediation) : RemediationRef :=
  mkRef (rm_Seq rm) (doc_digest data) (rm_AuthorizedBy rm) (rm_AuthorizedAt rm).

(** The journal after an authorization: an empty one adopts the documents before it. *)
Definition journal_after (files : list (Z * doc)) (journal : list RemediationRef) (existing : list Remediation)
    (rm : Remediation) : list RemediationRef :=
  let ref x := ref_of (default (encode_rm x) (file_at files (rm_Seq x))) x in
  (if bool_decide (journal = []) then ref <$> existing else journal) ++ [ref rm].

(** [saved] is whether SaveRecord, the last write, happens. *)
Definition AuthorizeRemediation (saved : bool) (d : Delivery) (r : Record_) (plan : DeliveryPlan) (prior : Evidence)
    (rm : Remediation) (by_ : string) (now : Z) : Delivery * res Remediation :=
  let invalid text := Errorf "%w: %s" [text] [ErrPlanInvalid] in
  if negb (rm_SchemaVersion rm =? RemediationSchemaVersion) then
    (d, Err (Errorf "%w: remediation schemaVersion %d, this engine speaks %d"
               [Itoa (rm_SchemaVersion rm); Itoa RemediationSchemaVersion] [ErrPlanInvalid]))
  else match provenance_problems r rm by_ with
  | _ :: _ as ps => (d, Err (invalid (join_with "; " ps)))
  | [] =>
  match LoadRemediations (rc_ProjectID r) (dl_Files d) (dl_Record d) with
  | Err e => (d, Err e)
  | Ok existing =>
      let rm := with_authority (Z.of_nat (length existing) + 1) (TrimSpace by_) now rm in
      match standing_problems (StandingInvalidations r prior) rm with
      | _ :: _ as ps => (d, Err (invalid (join_with "; " ps)))
      | [] =>
      match rm_Validate (rc_Intent r) rm with
      | Some e => (d, Err e)
      | None =>
      match delivery_Validate (rc_Intent r) (with_remediations (existing ++ [rm]) plan) with
      | Some e => (d, Err e)
      | None =>
      match SaveRemediation (dl_Files d) rm with
      | Err e => (d, Err e)
      | Ok files =>
          let r' := with_journal (journal_after files (rc_Remediations r) existing rm) now r in
          if negb saved || String.eqb (rc_ProjectID r) "" then
            (mkDelivery (dl_Record d) files (dl_Plan d) (dl_Archive d),
             Err (Errorf "remediation %d is authorized and durable, but journaling it into the record failed — until the journal names it, LoadRemediations will refuse it as unauthorized: %w"
                    [Itoa (rm_Seq rm)] []))
          else (mkDelivery (Some r') files (dl_Plan d) (dl_Archive d), Ok rm)
      end end end end
  end end.

(** * Plans *)

(** What plan.json holds of a plan: remediations and the provisional mark are not written. *)
Definition written (p : DeliveryPlan) : DeliveryPlan :=
  mkDeliveryPlan (pn_SchemaVersion p) (pn_ProjectID p) (pn_PlannedBy p) (pn_PlannedAt p) (pn_Packages p) [] false.

Definition with_plan (p : DeliveryPlan) (archive : list DeliveryPlan) (d : Delivery) : Delivery :=
  mkDelivery (dl_Record d) (dl_Files d) (Some (written p)) archive.

Definition SavePlan (d : Delivery) (p : DeliveryPlan) : Delivery * option error :=
  match dl_Plan d with
  | Some existing =>
      if bool_decide (existing = written p) then (d, None)
      else (d, Some (Errorf "%w: %q already has a plan, and a plan is not rewritten — the merged work of this delivery was measured against it. Authorize corrective work as a remediation instead"
                       [pn_ProjectID p] [ErrRecordConflict]))
  | None => (with_plan p (dl_Archive d) d, None)
  end.

Definition LoadPlan (d : Delivery) (i : Intent) : res (option DeliveryPlan) :=
  match dl_Plan d with
  | None => Ok None
  | Some p =>
      match LoadRemediations (in_ProjectID i) (dl_Files d) (dl_Record d) with
      | Err e => Err e
      | Ok rms =>
          let p := with_remediations rms p in
          match delivery_Validate i p with Some e => Err (Errorf "%s: %w" [] [e]) | None => Ok (Some p) end
      end
  end.

Definition SupersedeUnexecutedPlan (d : Delivery) (next : DeliveryPlan) (st : Status) : Delivery * option error :=
  let refuse fmt args := (d, Some (Errorf fmt args [ErrRecordConflict])) in
  if negb (String.eqb (ss_ProjectID st) (pn_ProjectID next)) then
    refuse "%w: the status observed %q but the plan is for %q" [ss_ProjectID st; pn_ProjectID next]
  else if ss_Live st then
    refuse "%w: a run currently holds %q — a live run may be mid-dispatch against the standing plan, and swapping it now would leave the run reconciling two"
      [pn_ProjectID next]
  else if negb (String.eqb (ss_State st) StateFailed) && negb (String.eqb (ss_State st) StatePlanning) then
    refuse "%w: delivery for %q is %q — a delivery whose run finished executed its packages against the standing plan, and that plan is never replaced. Authorize corrective work as a remediation instead"
      [pn_ProjectID next; ss_State st]
  else if 0 <? len (ed_CompletePackages (ss_Evidence st)) then
    refuse "%w: %d package(s) of %q completed against the standing plan — it measured real work and is never replaced. Authorize corrective work as a remediation instead"
      [Itoa (len (ed_CompletePackages (ss_Evidence st))); pn_ProjectID next]
  else if 0 <? len (ed_GateNotMet (ss_Evidence st)) then
    refuse "%w: %d package(s) of %q merged without their completion gate — work was measured against the standing plan and the plan is never replaced"
      [Itoa (len (ed_GateNotMet (ss_Evidence st))); pn_ProjectID next]
  else match dl_Plan d with
       | None => SavePlan d next
       | Some existing => (with_plan next (dl_Archive d ++ [existing]) d, None)
       end.

Definition packagesIdentical (a b : WorkPackage) : bool := bool_decide (a = b).

(** The first standing package the amendment drops or changes after it merged. *)
Fixpoint amend_refusal (merged : gset string) (nextByID : gmap string WorkPackage) (standing : list WorkPackage)
  : option error :=
  match standing with
  | [] => None
  | wp :: standing' =>
      match nextByID !! wp_ID wp with
      | None =>
          Some (Errorf "%w: the amendment drops package %q — its beads may already exist, and work no plan describes is work nobody governs"
                  [wp_ID wp] [ErrRecordConflict])
      | Some replacement =>
          if bool_decide (wp_ID wp ∈ merged) && negb (packagesIdentical wp replacement) then
            Some (Errorf "%w: package %q has merged against the standing plan and the amendment changes it — the merged work's record does not move; only packages with no merge evidence may change"
                    [wp_ID wp] [ErrRecordConflict])
          else amend_refusal merged nextByID standing'
      end
  end.

Definition AmendUnmergedPackages (d : Delivery) (standing next : DeliveryPlan) (st : Status) : Delivery * option error :=
  if negb (String.eqb (ss_ProjectID st) (pn_ProjectID next)) then
    (d, Some (Errorf "%w: the status observed %q but the amendment is for %q" [ss_ProjectID st; pn_ProjectID next]
                [ErrRecordConflict]))
  else if ss_Live st then
    (d, Some (Errorf "%w: a run currently holds %q — an amendment lands between runs, not under one" [pn_ProjectID next]
                [ErrRecordConflict]))
  else
    let merged := list_to_set (ed_CompletePackages (ss_Evidence st) ++ ed_GateNotMet (ss_Evidence st)) in
    match amend_refusal merged (by_id (pn_Packages next)) (pn_Packages standing) with
    | Some e => (d, Some e)
    | None =>
        match dl_Plan d with
        | None => (d, Some (errmsg "reading the standing plan %q: no such file" []))
        | Some existing => (with_plan next (dl_Archive d ++ [existing]) d, None)
        end
    end.

(** * Commands *)

Definition with_record (r : Record_) (d : Delivery) : Delivery :=
  mkDelivery (Some r) (dl_Files d) (dl_Plan d) (dl_Archive d).

(** The writes of the commands of corsolv/delivery.  [r] is the record the command read
    when it started, [d] the directory as it is now; a refusal writes nothing. *)
Definition cmdAccept (d : Delivery) (r : Record_) (c by_ note : string) (now : Z) : Delivery :=
  match Accept r c by_ note now with (r', None) => with_record r' d | (_, Some _) => d end.

Definition cmdInvalidate (d : Delivery) (r : Record_) (c : string) (prior : Evidence) (by_ reason evidence : string) (now : Z)
  : Delivery :=
  match Invalidate r c prior by_ reason evidence now with (r', None) => with_record r' d | (_, Some _) => d end.

Definition cmdRemediate (d : Delivery) (r : Record_) (plan : DeliveryPlan) (prior : Evidence) (rm : Remediation)
    (by_ : string) (now : Z) : Delivery :=
  (AuthorizeRemediation true d r plan prior rm by_ now).1.

(** The record a run writes before it begins: the copy read before planning, with the run and
    where it works. *)
Definition run_record (r : Record_) (runID : string) (now : Z) (stateDir worktree : string) : Record_ :=
  let r' := AppendRun r runID (if bool_decide (rc_Runs r = []) then ReasonInitial else ReasonResumed) now in
  mkRecord (rc_SchemaVersion r') (rc_ProjectID r') (rc_Intent r') (rc_IntentDigest r') stateDir worktree
    (rc_CreatedAt r') (rc_UpdatedAt r') (rc_Runs r') (rc_Acceptances r') (rc_Invalidations r') (rc_Remediations r').

Definition write_run (d : Delivery) (r : Record_) (runID : string) (now : Z) (stateDir worktree : string) : Delivery :=
  with_record (run_record r runID now stateDir worktree) d.

(** What a command does to the directory of a project.  The assessments, and the plan an
    authorization is checked beside, are what the command observed. *)
Inductive Op : Type :=
| OpRun (runID : string) (now : Z) (stateDir worktree : string)
| OpAccept (criterionID by_ note : string) (now : Z)
| OpInvalidate (criterionID : string) (prior : Evidence) (by_ reason evidence : string) (now : Z)
| OpAuthorize (plan : DeliveryPlan) (prior : Evidence) (rm : Remediation) (by_ : string) (now : Z)
| OpSavePlan (p : DeliveryPlan)
| OpSupersede (next : DeliveryPlan) (st : Status)
| OpAmend (standing next : DeliveryPlan) (st : Status).

Definition perform (d : Delivery) (r : Record_) (op : Op) : Delivery :=
  match op with
  | OpRun runID now stateDir worktree => write_run d r runID now stateDir worktree
  | OpAccept c by_ note now => cmdAccept d r c by_ note now
  | OpInvalidate c prior by_ reason evidence now => cmdInvalidate d r c prior by_ reason evidence now
  | OpAuthorize plan prior rm by_ now => cmdRemediate d r plan prior rm by_ now
  | OpSavePlan p => (SavePlan d p).1
  | OpSupersede next st => (SupersedeUnexecutedPlan d next st).1
  | OpAmend standing next st => (AmendUnmergedPackages d standing next st).1
  end.

(** Whether an operation writes the record back. *)
Definition writes_record (op : Op) : bool :=
  match op with OpRun _ _ _ _ | OpAccept _ _ _ _ | OpInvalidate _ _ _ _ _ _ | OpAuthorize _ _ _ _ _ => true | _ => false end.

(** * Processes

    Every command is a process of its own: it reads the record first and writes later, and
    what happens in between it does not see.  A run plans in between, for minutes. *)
Record Desk : Type := mkDesk { ds_dir : Delivery; ds_held : gmap nat Record_ }.

Inductive Event : Type :=
| Reads (process : nat)
| Acts (process : nat) (op : Op).

Definition step (projectID : string) (s : Desk) (e : Event) : Desk :=
  match e with
  | Reads c =>
      match LoadRecord projectID (dl_Record (ds_dir s)) with
      | Ok (Some r) => mkDesk (ds_dir s) (<[c := r]> (ds_held s))
      | _ => mkDesk (ds_dir s) (delete c (ds_held s))
      end
  | Acts c op =>
      match ds_held s !! c with
      | Some r => mkDesk (perform (ds_dir s) r op) (ds_held s)
      | None => s
      end
  end.

Definition run_events (projectID : string) (s : Desk) (es : list Event) : Desk := fold_left (step projectID) es s.

(** No process wrote the record between another's reading it and writing it back. *)
Fixpoint undisturbed (projectID : string) (s : Desk) (es : list Event) : Prop :=
  match es with
  | [] => True
  | e :: es' =>
      match e with
      | Acts c op => writes_record op = true -> forall r, ds_held s !! c = Some r -> dl_Record (ds_dir s) = Some r
      | Reads _ => True
      end /\ undisturbed projectID (step projectID s e) es'
  end.

(** A command alone: it reads and acts at once. *)
Definition command (projectID : string) (d : Delivery) (op : Op) : Delivery :=
  match LoadRecord projectID (dl_Record d) with Ok (Some r) => perform d r op | _ => d end.

Definition run_ops (projectID : string) (d : Delivery) (ops : list Op) : Delivery := fold_left (command projectID) ops d.

(** The directory an admission creates. *)
Definition admitted (r : Record_) : Delivery := mkDelivery (Some r) [] None [].

End reconcile.
