(* ===== verification/HandReconcileProps.v ===== *)
(** What a delivery directory admits as corrective work, and that nothing it recorded is
    ever rewritten. *)
From stdpp Require Import sorting.
From S2P Require Import Prelude GoStd RunFailure RunQA RunPlan RunController RunSpec HandIntent HandPlan HandRecord.
From S2P Require Import HandPlanProps HandState HandStateProps HandReconcile.

(** * Documents in the order of their numbers *)

Definition seq_of (x : Remediation * string) : Z := rm_Seq x.1.

Lemma insert_rm_perm x l : insert_rm x l ≡ₚ x :: l.
Proof.
  induction l as [|y l IH]; cbn; [done|]. destruct (_ <=? _); [done|]. rewrite IH. by constructor.
Qed.

Lemma by_seq_perm l : by_seq l ≡ₚ l.
Proof. induction l as [|x l IH]; cbn; [done|]. by rewrite insert_rm_perm, IH. Qed.

Lemma insert_rm_swap x y l : seq_of x <> seq_of y -> insert_rm x (insert_rm y l) = insert_rm y (insert_rm x l).
Proof.
  unfold seq_of. intros Hne. induction l as [|z l IH]; cbn.
  - destruct (Z.leb_spec (rm_Seq x.1) (rm_Seq y.1)), (Z.leb_spec (rm_Seq y.1) (rm_Seq x.1)); try done; lia.
  - destruct (Z.leb_spec (rm_Seq y.1) (rm_Seq z.1)), (Z.leb_spec (rm_Seq x.1) (rm_Seq z.1)); cbn;
      repeat match goal with |- context [?a <=? ?b] => destruct (Z.leb_spec a b) end; try done; try lia; by rewrite IH.
Qed.

Lemma by_seq_unique l k : l ≡ₚ k -> NoDup (seq_of <$> l) -> by_seq l = by_seq k.
Proof.
  induction 1 as [|x l k Hp IH|x y l|l k m Hp IH Hp' IH']; intros Hnd.
  - done.
  - rewrite fmap_cons, NoDup_cons in Hnd. destruct Hnd as [_ Hnd]. change (insert_rm x (by_seq l) = insert_rm x (by_seq k)).
    by rewrite IH.
  - cbn. apply insert_rm_swap. rewrite !fmap_cons, NoDup_cons in Hnd. destruct Hnd as [Hy _]. intros E. apply Hy.
    rewrite E. left.
  - rewrite IH by done. apply IH'. by rewrite <- Hp.
Qed.

Lemma by_seq_sorted l : StronglySorted (fun x y => seq_of x <= seq_of y) l -> by_seq l = l.
Proof.
  induction 1 as [|x l Hs IH Hx]; [done|]. change (insert_rm x (by_seq l) = x :: l). rewrite IH. destruct l as [|y l]; cbn; [done|].
  rewrite Forall_cons in Hx. destruct Hx as [Hx _]. unfold seq_of in Hx. by destruct (Z.leb_spec (rm_Seq x.1) (rm_Seq y.1)); [|lia].
Qed.

(** * The journal and the documents *)

Section load.
Context `{GoTables} `{Docs}.

(** What a document reads as. *)
Definition reads (projectID : string) (f : Z * doc) (x : Remediation * string) : Prop :=
  decode_rm f.2 = inl x.1 /\ rm_Seq x.1 = f.1 /\ rm_ProjectID x.1 = projectID /\ x.2 = doc_digest f.2.

Lemma read_remediations_ok projectID files : forall read,
  read_remediations projectID files = Ok read <-> Forall2 (reads projectID) files read.
Proof.
  induction files as [|[seq data] files IH]; intros read; cbn.
  - split; [intros [= <-]; constructor|intros Hf; by inversion Hf].
  - split.
    + destruct (decode_rm data) as [rm|e] eqn:Ed; [|done].
      destruct (Z.eqb_spec (rm_Seq rm) seq) as [Hs|]; cbn; [|done].
      destruct (String.eqb_spec (rm_ProjectID rm) projectID) as [Hp|]; cbn; [|done].
      destruct (read_remediations projectID files) as [rest|] eqn:Er; [|done]. intros [= <-].
      constructor; [done|]. by apply IH.
    + intros Hf. inversion Hf as [|? [rm dg] ? rest (Hd & Hs & Hp & Hg) Hr]; subst. cbn in *. rewrite Hd. subst.
      rewrite Z.eqb_refl, String.eqb_refl. cbn. by rewrite (proj2 (IH rest) Hr).
Qed.

Definition journaled (digests : gmap Z string) (refs : gmap Z RemediationRef) (rm : Remediation) : Prop :=
  exists ref, refs !! rm_Seq rm = Some ref /\ default "" (digests !! rm_Seq rm) = rf_Digest ref.

Lemma journaled_delete digests refs rm seq :
  rm_Seq rm <> seq -> journaled digests (delete seq refs) rm <-> journaled digests refs rm.
Proof. intros Hne. unfold journaled. by rewrite lookup_delete_ne. Qed.

Lemma journal_problems_nil digests loaded : forall refs,
  (journal_problems digests refs loaded).1 = []
  <-> NoDup (rm_Seq <$> loaded) /\ Forall (journaled digests refs) loaded.
Proof.
  induction loaded as [|rm loaded IH]; intros refs; cbn [journal_problems].
  { split; [|done]. intros _. split; constructor. }
  rewrite fmap_cons, NoDup_cons, Forall_cons. destruct (refs !! rm_Seq rm) as [ref|] eqn:E.
  - specialize (IH (delete (rm_Seq rm) refs)). destruct (journal_problems digests (delete (rm_Seq rm) refs) loaded) as [ps rest].
    cbn in *. rewrite app_nil, problem_if_nil, negb_false_iff, String.eqb_eq, IH.
    assert (Forall (journaled digests (delete (rm_Seq rm) refs)) loaded
            <-> (rm_Seq rm ∉ rm_Seq <$> loaded) /\ Forall (journaled digests refs) loaded) as ->.
    { rewrite !Forall_forall. split.
      - intros Hj. assert (rm_Seq rm ∉ rm_Seq <$> loaded) as Hn.
        { intros (x & Hx & Hin)%list_elem_of_fmap. destruct (Hj x Hin) as (ref' & Hl & _).
          by rewrite <- Hx, lookup_delete_eq in Hl. }
        split; [done|]. intros x Hin. specialize (Hj x Hin). rewrite journaled_delete in Hj; [done|].
        intros Hx. apply Hn. rewrite <- Hx. by apply list_elem_of_fmap_2.
      - intros [Hn Hj] x Hin. apply journaled_delete; [|by apply Hj]. intros Hx. apply Hn. rewrite <- Hx.
        by apply list_elem_of_fmap_2. }
    split; [intros (Hd & Hnd & Hn & Hj)|intros ([Hn Hnd] & (ref' & Hl & Hd) & Hj)].
    + repeat split; try done. by exists ref.
    + repeat split; try done. congruence.
  - destruct (journal_problems digests refs loaded) as [ps rest]. cbn. split; [done|].
    intros (_ & (ref & Hl & _) & _). congruence.
Qed.

Lemma journal_rest digests loaded : forall refs k,
  (journal_problems digests refs loaded).2 !! k = None
  <-> refs !! k = None \/ k ∈ rm_Seq <$> loaded.
Proof.
  induction loaded as [|rm loaded IH]; intros refs k; cbn [journal_problems].
  { rewrite fmap_nil, elem_of_nil. cbn. tauto. }
  rewrite fmap_cons, elem_of_cons. destruct (refs !! rm_Seq rm) as [ref|] eqn:E.
  - specialize (IH (delete (rm_Seq rm) refs) k).
    destruct (journal_problems digests (delete (rm_Seq rm) refs) loaded) as [ps rest]. cbn in *.
    rewrite IH, lookup_delete_None. split; [intros [[->|?]|?]|intros [?|[->|?]]]; auto.
  - specialize (IH refs k). destruct (journal_problems digests refs loaded) as [ps rest]. cbn in *.
    rewrite IH. split; [tauto|]. intros [?|[->|?]]; auto.
Qed.

Lemma verify_exact journal loaded digests :
  verifyRemediationJournal journal loaded digests = None
  <-> journal = [] \/ (NoDup (rm_Seq <$> loaded) /\ Forall (journaled digests (refs_of journal)) loaded
                       /\ (forall k, is_Some (refs_of journal !! k) -> k ∈ rm_Seq <$> loaded)).
Proof.
  unfold verifyRemediationJournal. case_bool_decide as Ej; [by split; [left|]|].
  pose proof (journal_problems_nil digests loaded (refs_of journal)) as Hn.
  pose proof (journal_rest digests loaded (refs_of journal)) as Hr.
  destruct (journal_problems digests (refs_of journal) loaded) as [ps rest]. cbn in *.
  assert ((fun seq => "the record journals remediation " +:+ Itoa seq +:+ " but its document is gone — an authorized remediation may already have merged work against it, and is never deleted")
      <$> merge_sort Z.le (map_to_list rest).*1 = []
    <-> (forall k, is_Some (refs_of journal !! k) -> k ∈ rm_Seq <$> loaded)) as Hg.
  { rewrite fmap_nil_eq. rewrite <- Permutation_nil_r at 1. rewrite merge_sort_Permutation, Permutation_nil_r, fmap_nil_eq.
    rewrite map_to_list_empty_iff. split.
    - intros -> k [x Hx]. specialize (Hr k). rewrite lookup_empty in Hr. destruct (proj1 Hr eq_refl); [congruence|done].
    - intros Hk. apply map_empty. intros k. apply Hr. destruct (refs_of journal !! k) eqn:E; [|by left].
      right. apply Hk. by rewrite E. }
  match goal with |- context [ps ++ ?g] => set (gone := g) in * end.
  destruct (ps ++ gone) as [|p q] eqn:E.
  - apply app_nil in E as [Ep Eg]. split; [|done]. intros _. right. apply Hn in Ep as [? ?]. by rewrite Eg in Hg; apply proj1 in Hg as ?; auto.
  - split; [done|]. intros [?|(Hnd & Hf & Hk)]; [done|]. rewrite (proj2 Hn (conj Hnd Hf)), (proj2 Hg Hk) in E. done.
Qed.

Lemma refs_of_spec journal seq ref : refs_of journal !! seq = Some ref <-> last_with rf_Seq seq journal ref.
Proof.
  unfold refs_of. induction journal as [|x l IH] using rev_ind; [split; [done|intros []%last_with_nil]|].
  rewrite fold_left_app. cbn [fold_left]. rewrite lookup_insert_Some, last_with_snoc, IH.
  split; [intros [[? ->]|?]|intros [[-> ?]|?]]; auto.
Qed.

Lemma digests_of_spec read seq dg :
  NoDup (seq_of <$> read) -> digests_of read !! seq = Some dg <-> exists rm, (rm, dg) ∈ read /\ rm_Seq rm = seq.
Proof.
  unfold digests_of. induction read as [|x l IH] using rev_ind; intros Hnd.
  { split; [done|]. intros (rm & ?%elem_of_nil & _). done. }
  rewrite fmap_app, NoDup_app in Hnd. destruct Hnd as (Hnd & Hd & _).
  rewrite fold_left_app. cbn [fold_left]. rewrite lookup_insert_Some, IH by done. split.
  - intros [[<- <-]|[Hne (rm & Hin & Hs)]]; [|exists rm; set_solver]. exists x.1. destruct x. set_solver.
  - intros (rm & [Hin| <-%list_elem_of_singleton]%elem_of_app & Hs); [|by left]. right. split; [|by exists rm].
    intros Hx. apply (Hd seq); [|rewrite <- Hx; set_solver]. rewrite <- Hs. by apply (list_elem_of_fmap_2 seq_of l (rm, dg)).
Qed.

Lemma reads_numbers projectID files read : Forall2 (reads projectID) files read -> seq_of <$> read = files.*1.
Proof.
  induction 1 as [|f x files read (_ & Hs & _) _ IH]; [done|]. rewrite !fmap_cons, IH. by unfold seq_of; rewrite Hs.
Qed.

Lemma reads_digests projectID files read seq dg :
  Forall2 (reads projectID) files read ->
  (exists rm, (rm, dg) ∈ read /\ rm_Seq rm = seq) <-> (exists data, (seq, data) ∈ files /\ doc_digest data = dg).
Proof.
  induction 1 as [|[n d] [rm0 dg0] files read (_ & Hs & _ & Hg) _ IH]; cbn in *.
  { split; intros (? & ?%elem_of_nil & _); done. }
  setoid_rewrite elem_of_cons. split.
  - intros (rm & [[= -> ->]|Hin] & Hseq); [exists d; split; [left; congruence|done]|].
    destruct (proj1 IH) as (data & ? & ?); [by exists rm|]. exists data. auto.
  - intros (data & [[= -> ->]|Hin] & Hd); [exists rm0; split; [left; congruence|done]|].
    destruct (proj2 IH) as (rm & ? & ?); [by exists data|]. exists rm. auto.
Qed.

Definition record_agrees (files : list (Z * doc)) (journal : list RemediationRef) : Prop :=
  NoDup files.*1
  /\ (forall seq dg, (exists data, (seq, data) ∈ files /\ doc_digest data = dg)
                     <-> (exists ref, last_with rf_Seq seq journal ref /\ rf_Digest ref = dg)).

Lemma by_seq_numbers read : rm_Seq <$> (by_seq read).*1 ≡ₚ seq_of <$> read.
Proof. rewrite by_seq_perm. by rewrite <- list_fmap_compose. Qed.

Lemma agrees_iff projectID files read journal :
  Forall2 (reads projectID) files read ->
  record_agrees files journal
  <-> NoDup (rm_Seq <$> (by_seq read).*1) /\ Forall (journaled (digests_of read) (refs_of journal)) (by_seq read).*1
      /\ (forall k, is_Some (refs_of journal !! k) -> k ∈ rm_Seq <$> (by_seq read).*1).
Proof.
  intros Hr. pose proof (reads_numbers _ _ _ Hr) as Hnum. unfold record_agrees.
  rewrite by_seq_numbers, <- Hnum. setoid_rewrite by_seq_numbers.
  assert (forall rm, rm ∈ (by_seq read).*1 <-> exists dg, (rm, dg) ∈ read) as Hin.
  { intros rm. rewrite by_seq_perm. rewrite list_elem_of_fmap. split; [intros ([? dg] & -> & ?); by exists dg|].
    intros [dg ?]. by exists (rm, dg). }
  rewrite Forall_forall. split; intros [Hnd Hag]; (split; [done|]).
  - split.
    + intros rm [dg Hrm]%Hin. assert (exists rm', (rm', dg) ∈ read /\ rm_Seq rm' = rm_Seq rm) as Hex by by exists rm.
      pose proof (proj2 (digests_of_spec read _ dg Hnd) Hex) as Hl.
      apply (reads_digests _ _ _ _ _ Hr), Hag in Hex as (ref & Href & Hd). exists ref. rewrite Hl.
      split; [by apply refs_of_spec|done].
    + intros k [ref Href%refs_of_spec]. destruct (proj2 (Hag k (rf_Digest ref))) as (data & Hf & Hd); [by exists ref|].
      destruct (proj2 (reads_digests _ _ _ k (rf_Digest ref) Hr)) as (rm & Hrm & <-); [by exists data|].
      by apply (list_elem_of_fmap_2 seq_of read (rm, rf_Digest ref)).
  - destruct Hag as [Hj Hk]. intros seq dg. rewrite <- (reads_digests _ _ _ _ _ Hr). split.
    + intros Hex. pose proof (proj2 (digests_of_spec read _ dg Hnd) Hex) as Hl. destruct Hex as (rm & Hrm & <-).
      destruct (Hj rm) as (ref & Href & Hd); [apply Hin; by exists dg|]. exists ref. rewrite Hl in Hd.
      split; [by apply refs_of_spec|done].
    + intros (ref & Href%refs_of_spec & <-). assert (seq ∈ seq_of <$> read) as ([rm dg] & -> & Hrm)%list_elem_of_fmap
        by (apply Hk; by rewrite Href). unfold seq_of in *. cbn in *.
      destruct (Hj rm) as (ref' & Href' & Hd); [apply Hin; by exists dg|]. assert (ref' = ref) as -> by congruence.
      rewrite (proj2 (digests_of_spec read (rm_Seq rm) dg Hnd)) in Hd by by exists rm. cbn in Hd. subst dg. by exists rm.
Qed.

Lemma LoadRemediations_ok projectID files file rms :
  LoadRemediations projectID files file = Ok rms
  <-> exists read, Forall2 (reads projectID) files read /\ rms = (by_seq read).*1
      /\ match file with
         | None => True
         | Some r => checked_record projectID r = None
                     /\ (rc_Remediations r = [] \/ record_agrees files (rc_Remediations r))
         end.
Proof.
  unfold LoadRemediations. destruct (read_remediations projectID files) as [read|e] eqn:Er.
  - apply read_remediations_ok in Er. assert (forall read', Forall2 (reads projectID) files read' -> read' = read) as Hu.
    { intros read' Hr'. apply read_remediations_ok in Er, Hr'. congruence. }
    unfold LoadRecord. destruct file as [r|].
    + destruct (checked_record projectID r) as [e|] eqn:Ec.
      { split; [done|]. intros (read' & _ & _ & ? & _). done. }
      pose proof (verify_exact (rc_Remediations r) (by_seq read).*1 (digests_of read)) as Hv.
      destruct (verifyRemediationJournal _ _ _) as [e|].
      * split; [done|]. intros (read' & Hr' & -> & _ & Ha). rewrite (Hu _ Hr') in Hr'.
        rewrite <- (agrees_iff _ _ _ _ Hr') in Hv. by apply Hv in Ha.
      * rewrite <- (agrees_iff _ _ _ _ Er) in Hv. split.
        -- intros [= <-]. exists read. repeat split; try done. by apply Hv.
        -- intros (read' & Hr' & -> & _). by rewrite (Hu _ Hr').
    + split; [intros [= <-]; by exists read|]. intros (read' & Hr' & -> & _). by rewrite (Hu _ Hr').
  - split; [done|]. intros (read & Hr%read_remediations_ok & _). congruence.
Qed.

(** What a delivery loads as corrective work.  The documents of the directory are read
    in the order of their numbers; one that does not decode, is not numbered as its name
    says or is for another project is refused.  Once the record journals authorizations,
    they load only when documents and journal agree: no number twice, every document
    journaled under its number with the digest of its very bytes, every journaled number
    with its document. *)
Theorem LoadRemediations_exact projectID files file rms :
  LoadRemediations projectID files file = Ok rms
  <-> exists read, Forall2 (reads projectID) files read /\ rms = (by_seq read).*1
      /\ match file with
         | None => True
         | Some r => checked_record projectID r = None
                     /\ (rc_Remediations r = [] \/ record_agrees files (rc_Remediations r))
         end.
Proof. apply LoadRemediations_ok. Qed.

End load.
