(* ===== verification/HandHistory.v ===== *)
(** The history of a delivery directory: whatever commands are given that do not overlap,
    findings, authorizations and plans are only ever added, and the corrective work that
    loads is the work that was authorized; and what a run that overlaps them forgets. *)
From stdpp Require Import sorting.
From S2P Require Import Prelude GoStd RunFailure RunQA RunPlan RunController RunSpec HandIntent HandPlan HandRecord.
From S2P Require Import HandPlanProps HandState HandStateProps HandReconcile HandReconcileProps.

(** Encoding a remediation and decoding the bytes gives it back. *)
Class DocLaws `{Docs} : Prop := decode_encode : forall rm, decode_rm (encode_rm rm) = inl rm.

Section history.
Context `{GoTables} `{Docs} `{!DocLaws} (rfc3339 : Z -> string).

Definition file_of (rm : Remediation) : Z * doc := (rm_Seq rm, encode_rm rm).
Definition journal_of (rms : list Remediation) : list RemediationRef := (fun rm => ref_of (encode_rm rm) rm) <$> rms.

(** A remediation was authorized by someone, is valid by itself and names recorded findings
    against the criteria it repairs. *)
Definition authorized (i : Intent) (invs : list Invalidation) (rm : Remediation) : Prop :=
  rm_Validate i rm = None
  /\ (forall rep, rep ∈ rm_Repairs rm -> exists inv, inv ∈ invs /\ iv_CriterionID inv = rr_CriterionID rep
                                                 /\ iv_Seq inv = rr_Invalidation rep).

Record Inv (pid : string) (i : Intent) (d : Delivery) (r : Record_) (rms : list Remediation) : Prop := {
  inv_record : dl_Record d = Some r;
  inv_checked : checked_record pid r = None;
  inv_intent : rc_Intent r = i;
  inv_files : dl_Files d ≡ₚ file_of <$> rms;
  inv_numbers : rm_Seq <$> rms = seqZ 1 (Z.of_nat (length rms));
  inv_project : Forall (fun rm => rm_ProjectID rm = pid) rms;
  inv_journal : rc_Remediations r = journal_of rms;
  inv_findings : iv_Seq <$> rc_Invalidations r = seqZ 1 (Z.of_nat (length (rc_Invalidations r)));
  inv_authorized : Forall (authorized i (rc_Invalidations r)) rms
}.

(** * Loading *)

Lemma last_with_nodup {A K} (key : A -> K) l x k :
  NoDup (key <$> l) -> last_with key k l x <-> x ∈ l /\ key x = k.
Proof.
  intros Hnd. split; [apply last_with_elem|]. intros [(l1 & l2 & ->)%list_elem_of_split <-]. exists l1, l2.
  split_and!; [done|done|]. rewrite fmap_app, fmap_cons, NoDup_app, NoDup_cons in Hnd.
  destruct Hnd as (_ & _ & Hx & _). apply Forall_forall. intros y Hy E. apply Hx. rewrite <- E.
  by apply list_elem_of_fmap_2.
Qed.

Lemma numbers_nodup rms : rm_Seq <$> rms = seqZ 1 (Z.of_nat (length rms)) -> NoDup (rm_Seq <$> rms).
Proof. intros ->. apply NoDup_seqZ. Qed.

Lemma numbers_sorted (rms : list Remediation) : forall m (f : Remediation -> string),
  rm_Seq <$> rms = seqZ m (Z.of_nat (length rms)) ->
  StronglySorted (fun x y => seq_of x <= seq_of y) ((fun rm => (rm, f rm)) <$> rms).
Proof.
  induction rms as [|rm rms IH]; intros m f; [constructor|].
  rewrite !fmap_cons. cbn [length]. rewrite Nat2Z.inj_succ, seqZ_cons by lia. intros [= Hm E].
  rewrite Z.pred_succ in E. constructor; [by apply (IH (Z.succ m))|]. apply Forall_forall.
  intros x (y & -> & Hy)%list_elem_of_fmap. unfold seq_of. cbn.
  assert (rm_Seq y ∈ seqZ (Z.succ m) (Z.of_nat (length rms))) as Hs%elem_of_seqZ by (rewrite <- E; by apply list_elem_of_fmap_2).
  lia.
Qed.

Lemma Permutation_fmap_inv {A B} (f : A -> B) l k : l ≡ₚ f <$> k -> exists k', l = f <$> k' /\ k' ≡ₚ k.
Proof. intros Hp. destruct (Permutation_map_inv f k Hp) as (k' & -> & Hk). by exists k'. Qed.

Lemma journal_numbers rms : rf_Seq <$> journal_of rms = rm_Seq <$> rms.
Proof. unfold journal_of. by rewrite <- list_fmap_compose. Qed.

Lemma journal_agrees files rms :
  files ≡ₚ file_of <$> rms -> NoDup (rm_Seq <$> rms) -> record_agrees files (journal_of rms).
Proof.
  intros Hf Hnd. split.
  - rewrite Hf, <- list_fmap_compose. exact Hnd.
  - intros seq dg. setoid_rewrite Hf. setoid_rewrite last_with_nodup; [|by rewrite journal_numbers].
    unfold journal_of. setoid_rewrite list_elem_of_fmap. split.
    + intros (data & (rm & [= -> ->] & Hin) & Hd). exists (ref_of (encode_rm rm) rm). split_and!; [by exists rm|done|done].
    + intros (ref & ((rm & -> & Hin) & Hs) & Hd). exists (encode_rm rm). split; [|done]. exists rm. split; [|done].
      unfold file_of. cbn in Hs. by rewrite Hs.
Qed.

Lemma Inv_load pid i d r rms : Inv pid i d r rms -> LoadRemediations pid (dl_Files d) (dl_Record d) = Ok rms.
Proof.
  intros [Hrec Hch _ Hf Hn Hp Hj _ _]. rewrite Hrec. apply LoadRemediations_ok.
  pose proof (numbers_nodup _ Hn) as Hnd. destruct (Permutation_fmap_inv _ _ _ Hf) as (k & Hk & Hperm).
  set (g := fun rm => (rm, doc_digest (encode_rm rm))). exists (g <$> k). split_and!.
  - rewrite Hk. apply Forall2_fmap_2, Forall_Forall2_diag. rewrite Hperm. eapply Forall_impl; [exact Hp|]. intros rm Hrm.
    split_and!; [apply decode_encode|done|done|done].
  - rewrite (by_seq_unique (g <$> k) (g <$> rms)).
    + rewrite by_seq_sorted by by apply (numbers_sorted rms 1). unfold g. rewrite <- list_fmap_compose. symmetry. apply list_fmap_id.
    + by rewrite Hperm.
    + rewrite <- list_fmap_compose. change (NoDup (rm_Seq <$> k)). by rewrite Hperm.
  - done.
  - right. rewrite Hj. by apply journal_agrees.
Qed.

(** * What only grows *)

Definition plans (d : Delivery) : list DeliveryPlan := dl_Archive d ++ option_list (dl_Plan d).

Record grown (r r' : Record_) : Prop := {
  gr_intent : rc_Intent r' = rc_Intent r;
  gr_digest : rc_IntentDigest r' = rc_IntentDigest r;
  gr_created : rc_CreatedAt r' = rc_CreatedAt r;
  gr_runs : rc_Runs r `prefix_of` rc_Runs r';
  gr_acceptances : rc_Acceptances r `prefix_of` rc_Acceptances r';
  gr_findings : rc_Invalidations r `prefix_of` rc_Invalidations r';
  gr_journal : rc_Remediations r `prefix_of` rc_Remediations r'
}.

#[local] Instance grown_po : PreOrder grown.
Proof.
  split; [intros r; by split|]. intros r1 r2 r3 [] []. split; try congruence; by etransitivity.
Qed.

Lemma authorized_mono i invs invs' rm : invs `prefix_of` invs' -> authorized i invs rm -> authorized i invs' rm.
Proof.
  intros [k ->] [Hv Hr]. split; [done|]. intros rep Hin. destruct (Hr rep Hin) as (inv & Hi & ?). exists inv.
  split; [set_solver|done].
Qed.

(** A step of the record alone. *)
Lemma Inv_record pid i d r r' rms :
  Inv pid i d r rms -> grown r r' -> checked_record pid r' = None -> rc_Remediations r' = rc_Remediations r ->
  iv_Seq <$> rc_Invalidations r' = seqZ 1 (Z.of_nat (length (rc_Invalidations r'))) ->
  Inv pid i (with_record r' d) r' rms.
Proof.
  intros [Hrec Hch Hi Hf Hn Hp Hj _ Ha] [Hgi _ _ _ _ Hgf _] Hch' Hj' Hfi. split; try done.
  - by rewrite Hgi.
  - by rewrite Hj'.
  - eapply Forall_impl; [exact Ha|]. intros rm. by apply authorized_mono.
Qed.

Lemma Invalidate_grows r c prior by_ reason evidence now r' :
  Invalidate rfc3339 r c prior by_ reason evidence now = (r', None) ->
  exists inv, rc_Invalidations r' = rc_Invalidations r ++ [inv]
    /\ iv_Seq inv = Z.of_nat (length (rc_Invalidations r)) + 1
    /\ r' = with_invalidations (rc_Invalidations r ++ [inv]) now r.
Proof.
  unfold Invalidate. intros E. repeat (split_match_in E; try done); injection E as <-; by eexists.
Qed.

Lemma Accept_grows r c by_ note now r' :
  Accept r c by_ note now = (r', None) ->
  r' = r \/ exists a, r' = with_acceptances (rc_Acceptances r ++ [a]) now r.
Proof.
  unfold Accept. intros E. repeat (split_match_in E; try done); injection E as <-; eauto.
Qed.

Lemma checked_with pid r :
  (forall l now, checked_record pid (with_runs l now r) = checked_record pid r)
  /\ (forall l now, checked_record pid (with_acceptances l now r) = checked_record pid r)
  /\ (forall l now, checked_record pid (with_invalidations l now r) = checked_record pid r)
  /\ (forall l now, checked_record pid (with_journal l now r) = checked_record pid r).
Proof. by split_and!. Qed.

(** * Authorization *)

Lemma add_file_perm x files : add_file x files ≡ₚ x :: files.
Proof.
  induction files as [|y files IH]; cbn; [done|]. destruct (String.leb _ _); [done|]. rewrite IH. by constructor.
Qed.

Lemma LatestInvalidation_in r c inv : LatestInvalidation r c = Some inv -> inv ∈ rc_Invalidations r /\ iv_CriterionID inv = c.
Proof. intros E. by apply (latest_spec (rc_Invalidations r)), last_with_elem in E. Qed.

Lemma StandingInvalidations_in r prior c inv :
  StandingInvalidations r prior !! c = Some inv -> inv ∈ rc_Invalidations r /\ iv_CriterionID inv = c.
Proof.
  unfold StandingInvalidations. generalize (in_Acceptance (rc_Intent r)) as cs. intros cs.
  induction cs as [|k cs IH] using rev_ind; [done|]. rewrite fold_left_app. cbn [fold_left].
  destruct (LatestInvalidation r (cr_ID k)) as [inv'|] eqn:E; [|done]. destruct (containsPath _ _); [done|].
  intros [[<- <-]|[_ Hl]]%lookup_insert_Some; [by apply LatestInvalidation_in|by apply IH].
Qed.

Lemma standing_problems_nil r prior rm :
  standing_problems (StandingInvalidations r prior) rm = [] ->
  forall rep, rep ∈ rm_Repairs rm -> exists inv, inv ∈ rc_Invalidations r /\ iv_CriterionID inv = rr_CriterionID rep
                                              /\ iv_Seq inv = rr_Invalidation rep.
Proof.
  unfold standing_problems. intros Hs rep Hin. apply list_elem_of_split in Hin as (l1 & l2 & El).
  rewrite El, bind_app, bind_cons, !app_nil in Hs. destruct Hs as (_ & Hs & _).
  destruct (StandingInvalidations r prior !! rr_CriterionID rep) as [inv|] eqn:E; [|done].
  apply problem_if_nil, negb_false_iff, Z.eqb_eq in Hs. apply StandingInvalidations_in in E as [? ?]. by exists inv.
Qed.

Lemma file_at_add files s x : file_at files s = None -> file_at (add_file (s, x) files) s = Some x.
Proof.
  unfold file_at. induction files as [|[k y] files IH]; cbn; [by rewrite Z.eqb_refl|].
  destruct (String.leb _ _); cbn; [by rewrite Z.eqb_refl|]. destruct (Z.eqb_spec k s); [done|]. exact IH.
Qed.

Lemma journal_after_of files rms rm :
  file_at files (rm_Seq rm) = None ->
  journal_after (add_file (file_of rm) files) (journal_of rms) rms rm = journal_of (rms ++ [rm]).
Proof.
  intros Hf. unfold journal_after, file_of. rewrite file_at_add by done. unfold journal_of. rewrite fmap_app. cbn.
  case_bool_decide as E; [|done]. apply fmap_nil_eq in E as ->. done.
Qed.

Lemma provenance_project r rm by_ : provenance_problems r rm by_ = [] -> rm_ProjectID rm = rc_ProjectID r.
Proof.
  unfold provenance_problems. rewrite app_nil, problem_if_nil, negb_false_iff, String.eqb_eq. by intros [? _].
Qed.

(** An authorization either leaves the directory as it was or adds one document, numbered
    next, and its journal entry. *)
Lemma Authorize_cases d r plan prior rm by_ now existing :
  LoadRemediations (rc_ProjectID r) (dl_Files d) (dl_Record d) = Ok existing ->
  let d' := (AuthorizeRemediation true d r plan prior rm by_ now).1 in
  d' = d \/ exists new,
    rm_Seq new = Z.of_nat (length existing) + 1 /\ rm_ProjectID new = rc_ProjectID r
    /\ authorized (rc_Intent r) (rc_Invalidations r) new /\ file_at (dl_Files d) (rm_Seq new) = None
    /\ d' = mkDelivery (Some (with_journal (journal_after (add_file (file_of new) (dl_Files d)) (rc_Remediations r) existing new) now r))
              (add_file (file_of new) (dl_Files d)) (dl_Plan d) (dl_Archive d).
Proof.
  intros Hl. unfold AuthorizeRemediation. destruct (negb _); [by left|].
  destruct (provenance_problems r rm by_) eqn:Ep; [|by left]. apply provenance_project in Ep. rewrite Hl.
  set (new := with_authority _ _ _ rm). destruct (standing_problems _ new) eqn:Es; [|by left].
  destruct (rm_Validate (rc_Intent r) new) eqn:Ev; [by left|]. destruct (delivery_Validate _ _); [by left|].
  unfold SaveRemediation. change (rm_ProjectID new) with (rm_ProjectID rm).
  destruct (String.eqb_spec (rm_ProjectID rm) "") as [|Hne]; [by left|].
  destruct (file_at (dl_Files d) (rm_Seq new)) eqn:Ef; [by left|]. rewrite <- Ep.
  destruct (String.eqb_spec (rm_ProjectID rm) "") as [|_]; [done|]. cbn [negb orb fst]. right. exists new.
  split_and!; try done. split; [done|]. by apply (standing_problems_nil r prior).
Qed.

Lemma checked_project pid r : checked_record pid r = None -> rc_ProjectID r = pid.
Proof.
  unfold checked_record. destruct (negb (rc_SchemaVersion r =? _)); [done|].
  by destruct (String.eqb_spec (rc_ProjectID r) pid).
Qed.

Lemma Authorize_step pid i d r rms plan prior rm by_ now :
  Inv pid i d r rms ->
  exists r' new, Inv pid i (AuthorizeRemediation true d r plan prior rm by_ now).1 r' (rms ++ new) /\ grown r r'
    /\ plans (AuthorizeRemediation true d r plan prior rm by_ now).1 = plans d.
Proof.
  intros HI. pose proof (Inv_load _ _ _ _ _ HI) as Hl. pose proof HI as [Hrec Hch Hi Hf Hn Hp Hj Hfi Ha].
  pose proof (checked_project _ _ Hch) as Epid. rewrite <- Epid in Hl.
  destruct (Authorize_cases d r plan prior rm by_ now rms Hl) as [E|(new & Hseq & Hproj & Hauth & Hfile & E)]; rewrite E.
  { exists r, []. rewrite app_nil_r. by split_and!. }
  rewrite Hj, journal_after_of by done. eexists _, [new]. split_and!.
  - split; cbn.
    + done.
    + exact Hch.
    + done.
    + rewrite add_file_perm, Hf, fmap_app. cbn. apply Permutation_cons_append.
    + rewrite fmap_app, length_app, Hn. cbn [length fmap list_fmap]. rewrite Nat.add_1_r, seqZ_S, Hseq. do 2 f_equal. lia.
    + apply Forall_app. split; [done|]. apply Forall_singleton. congruence.
    + done.
    + done.
    + apply Forall_app. split; [done|]. apply Forall_singleton. by rewrite <- Hi.
  - split; try done. cbn. rewrite Hj. unfold journal_of. rewrite fmap_app. by apply prefix_app_r.
  - done.
Qed.

(** * A step and a history *)

Lemma Inv_plan pid i d r rms p archive : Inv pid i d r rms -> Inv pid i (with_plan p archive d) r rms.
Proof. by intros []. Qed.

Lemma step_record pid i d r r' rms :
  Inv pid i d r rms -> grown r r' -> checked_record pid r' = checked_record pid r ->
  rc_Remediations r' = rc_Remediations r ->
  iv_Seq <$> rc_Invalidations r' = seqZ 1 (Z.of_nat (length (rc_Invalidations r'))) ->
  exists r'' new, Inv pid i (with_record r' d) r'' (rms ++ new) /\ grown r r''
    /\ plans d `prefix_of` plans (with_record r' d).
Proof.
  intros HI Hg Hch Hj Hfi. exists r', []. rewrite app_nil_r. split_and!; [|done|done].
  apply (Inv_record _ _ _ r); try done. rewrite Hch. by destruct HI.
Qed.

(** The three commands on plans keep every plan the directory held. *)
Lemma plan_step pid i d r rms d' :
  Inv pid i d r rms ->
  d' = d \/ (exists p, d' = with_plan p (plans d) d) ->
  exists r' new, Inv pid i d' r' (rms ++ new) /\ grown r r' /\ plans d `prefix_of` plans d'.
Proof.
  intros HI [-> | [p ->]]; exists r, []; rewrite app_nil_r; split_and!; try done.
  - by apply Inv_plan.
  - unfold plans at 2. cbn. by apply prefix_app_r.
Qed.

Lemma SavePlan_cases d p : (SavePlan d p).1 = d \/ (SavePlan d p).1 = with_plan p (plans d) d.
Proof.
  unfold SavePlan, plans. destruct (dl_Plan d); [left; by case_bool_decide|right]. cbn. by rewrite app_nil_r.
Qed.

Lemma Supersede_cases d next st :
  (SupersedeUnexecutedPlan d next st).1 = d \/ (SupersedeUnexecutedPlan d next st).1 = with_plan next (plans d) d.
Proof.
  unfold SupersedeUnexecutedPlan. repeat (split_match; [by left|]). destruct (dl_Plan d) eqn:E; [|apply SavePlan_cases].
  right. unfold plans. by rewrite E.
Qed.

Lemma Amend_cases d standing next st :
  (AmendUnmergedPackages d standing next st).1 = d
  \/ (AmendUnmergedPackages d standing next st).1 = with_plan next (plans d) d.
Proof.
  unfold AmendUnmergedPackages. destruct (negb _); [by left|]. destruct (ss_Live st); [by left|].
  destruct (amend_refusal _ _ _); [by left|]. destruct (dl_Plan d) eqn:E; [|by left]. right. unfold plans. by rewrite E.
Qed.

Lemma perform_keeps pid i d r rms op :
  Inv pid i d r rms ->
  exists r' new, Inv pid i (perform rfc3339 d r op) r' (rms ++ new) /\ grown r r'
    /\ plans d `prefix_of` plans (perform rfc3339 d r op).
Proof.
  intros HI. pose proof HI as [Hrec Hch Hi Hf Hn Hp Hj Hfi Ha].
  assert (exists r' new, Inv pid i d r' (rms ++ new) /\ grown r r' /\ plans d `prefix_of` plans d) as Hsame
    by (exists r, []; rewrite app_nil_r; by split_and!).
  destruct op as [run now sd wt|c by_ note now|c prior by_ reason ev now|plan prior rm by_ now|p|next st|standing next st]; cbn [perform].
  - apply (step_record _ _ _ r); try done. split; try done. by apply prefix_app_r.
  - unfold cmdAccept. destruct (Accept r c by_ note now) as [r' [e|]] eqn:E; [done|]. apply Accept_grows in E as [-> | [a ->]].
    + by apply (step_record _ _ _ r).
    + apply (step_record _ _ _ r); try done. split; try done. by apply prefix_app_r.
  - unfold cmdInvalidate. destruct (Invalidate rfc3339 r c prior by_ reason ev now) as [r' [e|]] eqn:E; [done|].
    apply Invalidate_grows in E as (inv & _ & Hseq & ->). apply (step_record _ _ _ r); try done.
    + split; try done. by apply prefix_app_r.
    + cbn. rewrite fmap_app, length_app, Hfi. cbn [length fmap list_fmap]. rewrite Nat.add_1_r, seqZ_S, Hseq.
      do 2 f_equal. lia.
  - unfold cmdRemediate. destruct (Authorize_step pid i d r rms plan prior rm by_ now HI) as (r' & new & HI' & Hg & ->). by exists r', new.
  - eapply plan_step; [done|]. destruct (SavePlan_cases d p) as [-> | ->]; eauto.
  - eapply plan_step; [done|]. destruct (Supersede_cases d next st) as [-> | ->]; eauto.
  - eapply plan_step; [done|]. destruct (Amend_cases d standing next st) as [-> | ->]; eauto.
Qed.

(** What does not write the record does not read it either. *)
Lemma perform_plan d r r' op : writes_record op = false -> perform rfc3339 d r op = perform rfc3339 d r' op.
Proof. by destruct op. Qed.

Lemma step_keeps pid i s r rms e :
  Inv pid i (ds_dir s) r rms ->
  (match e with
   | Acts c op => writes_record op = true -> forall r, ds_held s !! c = Some r -> dl_Record (ds_dir s) = Some r
   | Reads _ => True
   end) ->
  exists r' new, Inv pid i (ds_dir (step rfc3339 pid s e)) r' (rms ++ new) /\ grown r r'
    /\ plans (ds_dir s) `prefix_of` plans (ds_dir (step rfc3339 pid s e)).
Proof.
  intros HI Ht. assert (exists r' new, Inv pid i (ds_dir s) r' (rms ++ new) /\ grown r r' /\ plans (ds_dir s) `prefix_of` plans (ds_dir s)) as Hsame
    by (exists r, []; rewrite app_nil_r; by split_and!).
  destruct e as [c|c op]; cbn [step].
  - by destruct (LoadRecord pid (dl_Record (ds_dir s))) as [[r'|]|].
  - destruct (ds_held s !! c) as [r'|] eqn:E; [|done]. cbn [ds_dir].
    assert (perform rfc3339 (ds_dir s) r' op = perform rfc3339 (ds_dir s) r op) as ->; [|by apply perform_keeps].
    destruct (writes_record op) eqn:Ew; [|by apply perform_plan].
    specialize (Ht eq_refl r' eq_refl). destruct HI. congruence.
Qed.

Lemma events_keep pid i es : forall s r rms,
  Inv pid i (ds_dir s) r rms -> undisturbed rfc3339 pid s es ->
  exists r' new, Inv pid i (ds_dir (run_events rfc3339 pid s es)) r' (rms ++ new) /\ grown r r'
    /\ plans (ds_dir s) `prefix_of` plans (ds_dir (run_events rfc3339 pid s es)).
Proof.
  induction es as [|e es IH]; intros s r rms HI Hu.
  { exists r, []. rewrite app_nil_r. by split_and!. }
  destruct Hu as [Ht Hu]. destruct (step_keeps pid i s r rms e HI Ht) as (r1 & new1 & HI1 & Hg1 & Hp1).
  destruct (IH _ _ _ HI1 Hu) as (r2 & new2 & HI2 & Hg2 & Hp2). exists r2, (new1 ++ new2). rewrite app_assoc.
  split_and!; [done|by etransitivity|by etransitivity].
Qed.

Lemma command_keeps pid i d r rms op :
  Inv pid i d r rms ->
  exists r' new, Inv pid i (command rfc3339 pid d op) r' (rms ++ new) /\ grown r r'
    /\ plans d `prefix_of` plans (command rfc3339 pid d op).
Proof.
  intros HI. unfold command, LoadRecord. rewrite (inv_record _ _ _ _ _ HI), (inv_checked _ _ _ _ _ HI). by apply perform_keeps.
Qed.

Lemma run_keeps pid i ops : forall d r rms,
  Inv pid i d r rms ->
  exists r' new, Inv pid i (run_ops rfc3339 pid d ops) r' (rms ++ new) /\ grown r r'
    /\ plans d `prefix_of` plans (run_ops rfc3339 pid d ops).
Proof.
  induction ops as [|op ops IH]; intros d r rms HI.
  { exists r, []. rewrite app_nil_r. by split_and!. }
  destruct (command_keeps pid i d r rms op HI) as (r1 & new1 & HI1 & Hg1 & Hp1).
  destruct (IH _ _ _ HI1) as (r2 & new2 & HI2 & Hg2 & Hp2). exists r2, (new1 ++ new2). rewrite app_assoc.
  split_and!; [done|by etransitivity|by etransitivity].
Qed.

Lemma run_events_app pid s es es' : run_events rfc3339 pid s (es ++ es') = run_events rfc3339 pid (run_events rfc3339 pid s es) es'.
Proof. apply fold_left_app. Qed.

Lemma undisturbed_app pid es es' : forall s,
  undisturbed rfc3339 pid s (es ++ es') -> undisturbed rfc3339 pid s es /\ undisturbed rfc3339 pid (run_events rfc3339 pid s es) es'.
Proof.
  induction es as [|e es IH]; intros s Hu; [done|]. destruct Hu as [Ht Hu]. destruct (IH _ Hu). by split; [split|].
Qed.

Lemma Admit_Inv `{UrlParser} i now adm :
  Admit None i now = Ok adm -> Inv (in_ProjectID i) i (admitted (ad_Record adm)) (ad_Record adm) [].
Proof.
  unfold Admit. destruct (intent_Validate i); [done|]. cbn. intros [= <-]. split; try done. cbn.
  unfold checked_record. cbn. by rewrite !String.eqb_refl.
Qed.

(** (C4) Nothing a delivery recorded is rewritten by commands that do not overlap, and the
    corrective work it loads is the work that was authorized.  Take the directory of an
    admitted delivery and any events of any number of processes on it, runs among them,
    and any more after those, such that between a process reading the record and writing it
    back no other wrote it, and every write happens.  The record's intent stays, its runs,
    acceptances, findings and journal are only extended; every plan the directory held is
    still there, archived or standing; the remediations that load are those that loaded
    before and the ones authorized since, numbered from one without a gap, each valid by
    itself and answering findings the record holds against the very criteria it repairs;
    and findings are numbered by their position, so a repair names one finding only. *)
Theorem history_append_only `{UrlParser} i now adm es es' :
  Admit None i now = Ok adm ->
  let pid := in_ProjectID i in
  let s0 := mkDesk (admitted (ad_Record adm)) ∅ in
  undisturbed rfc3339 pid s0 (es ++ es') ->
  let d := ds_dir (run_events rfc3339 pid s0 es) in
  let d' := ds_dir (run_events rfc3339 pid s0 (es ++ es')) in
  exists r r' rms new,
    dl_Record d = Some r /\ dl_Record d' = Some r' /\ grown r r' /\ plans d `prefix_of` plans d'
    /\ LoadRemediations pid (dl_Files d) (dl_Record d) = Ok rms
    /\ LoadRemediations pid (dl_Files d') (dl_Record d') = Ok (rms ++ new)
    /\ rm_Seq <$> rms ++ new = seqZ 1 (Z.of_nat (length (rms ++ new)))
    /\ Forall (authorized i (rc_Invalidations r')) (rms ++ new)
    /\ iv_Seq <$> rc_Invalidations r' = seqZ 1 (Z.of_nat (length (rc_Invalidations r'))).
Proof.
  intros Hadm pid s0 Hu d d'. apply Admit_Inv in Hadm. apply undisturbed_app in Hu as [Hu Hu'].
  destruct (events_keep pid i es s0 _ _ Hadm Hu) as (r & rms & HI & _ & _). cbn [app] in HI.
  destruct (events_keep pid i es' _ _ _ HI Hu') as (r' & new & HI' & Hg & Hp).
  rewrite <- run_events_app in HI', Hp. exists r, r', rms, new.
  split_and!; try done; try (by eapply Inv_load); by destruct HI, HI'.
Qed.

(** * A lost journal entry *)

(** The directory holds a document its journal, which is not empty, does not name. *)
Definition unjournaled (d : Delivery) : Prop :=
  exists r f, dl_Record d = Some r /\ rc_Remediations r <> [] /\ f ∈ dl_Files d /\ (f.1 ∉ rf_Seq <$> rc_Remediations r).

Lemma unjournaled_load pid d : unjournaled d -> exists e, LoadRemediations pid (dl_Files d) (dl_Record d) = Err e.
Proof.
  intros (r & [seq data] & Hr & Hj & Hf & Hn). destruct (LoadRemediations pid (dl_Files d) (dl_Record d)) as [rms|e] eqn:E;
    [|by exists e].
  apply LoadRemediations_ok in E as (read & _ & _ & E). rewrite Hr in E. destruct E as [_ [?|[_ Hag]]]; [done|].
  destruct (proj1 (Hag seq (doc_digest data))) as (ref & [Hin Hs]%last_with_elem & _); [by exists data|].
  destruct Hn. cbn. rewrite <- Hs. by apply list_elem_of_fmap_2.
Qed.

Lemma unjournaled_record d r r' :
  dl_Record d = Some r -> rc_Remediations r' = rc_Remediations r -> unjournaled d -> unjournaled (with_record r' d).
Proof.
  intros Hr Hj (r0 & f & Hr0 & Hne & Hf & Hn). assert (r0 = r) as -> by congruence. exists r', f. by rewrite Hj.
Qed.

Lemma unjournaled_plan p archive d : unjournaled d -> unjournaled (with_plan p archive d).
Proof. done. Qed.

Lemma Authorize_refused saved d r plan prior rm by_ now e :
  LoadRemediations (rc_ProjectID r) (dl_Files d) (dl_Record d) = Err e ->
  (AuthorizeRemediation saved d r plan prior rm by_ now).1 = d.
Proof.
  intros Hl. unfold AuthorizeRemediation. destruct (negb _); [done|]. destruct (provenance_problems r rm by_); [|done].
  by rewrite Hl.
Qed.

Lemma unjournaled_step pid d op : unjournaled d -> unjournaled (command rfc3339 pid d op).
Proof.
  intros Hu. pose proof Hu as (r & f & Hr & _). unfold command, LoadRecord. rewrite Hr.
  destruct (checked_record pid r); [done|].
  destruct op as [run now sd wt|c by_ note now|c prior by_ reason ev now|plan prior rm by_ now|p|next st|standing next st]; cbn [perform].
  - by apply (unjournaled_record d r).
  - unfold cmdAccept. destruct (Accept r c by_ note now) as [r' [e|]] eqn:E; [done|].
    apply Accept_grows in E as [-> | [a ->]]; by apply (unjournaled_record d r).
  - unfold cmdInvalidate. destruct (Invalidate rfc3339 r c prior by_ reason ev now) as [r' [e|]] eqn:E; [done|].
    apply Invalidate_grows in E as (inv & _ & _ & ->). by apply (unjournaled_record d r).
  - unfold cmdRemediate. destruct (unjournaled_load (rc_ProjectID r) d Hu) as [e He]. by rewrite (Authorize_refused _ _ _ _ _ _ _ _ e).
  - destruct (SavePlan_cases d p) as [-> | ->]; [done|by apply unjournaled_plan].
  - destruct (Supersede_cases d next st) as [-> | ->]; [done|by apply unjournaled_plan].
  - destruct (Amend_cases d standing next st) as [-> | ->]; [done|by apply unjournaled_plan].
Qed.

Lemma unjournaled_run pid ops : forall d, unjournaled d -> unjournaled (run_ops rfc3339 pid d ops).
Proof. induction ops as [|op ops IH]; intros d Hu; [done|]. by apply IH, unjournaled_step. Qed.

(** An authorization whose last write is lost leaves the directory as it was or with an
    unjournaled document. *)
Lemma Authorize_lost pid i d r rms plan prior rm by_ now :
  Inv pid i d r rms -> rms <> [] ->
  let d' := (AuthorizeRemediation false d r plan prior rm by_ now).1 in d' = d \/ unjournaled d'.
Proof.
  intros HI Hne. pose proof (Inv_load _ _ _ _ _ HI) as Hl. pose proof HI as [Hrec Hch Hi Hf Hn Hp Hj Hfi Ha].
  rewrite <- (checked_project _ _ Hch) in Hl. unfold AuthorizeRemediation. destruct (negb _); [by left|].
  destruct (provenance_problems r rm by_); [|by left]. rewrite Hl. set (new := with_authority _ _ _ rm).
  destruct (standing_problems _ new); [|by left]. destruct (rm_Validate _ new); [by left|].
  destruct (delivery_Validate _ _); [by left|]. unfold SaveRemediation. destruct (String.eqb _ _); [by left|].
  destruct (file_at _ _) eqn:Ef; [by left|]. cbn [negb orb fst]. right. exists r, (file_of new). split_and!.
  - done.
  - rewrite Hj. unfold journal_of. by rewrite fmap_nil_eq.
  - cbn. rewrite add_file_perm. left.
  - rewrite Hj, journal_numbers, Hn, elem_of_seqZ. cbn. lia.
Qed.

(** When the write of the record that ends an authorization is lost, and it was not
    the first authorization of the delivery, the delivery cannot be loaded any more:
    whatever commands follow, the document that was installed is not in the journal,
    reading the remediations fails, and with it every authorization that could name it. *)
Theorem lost_journal_wedges `{UrlParser} i now adm ops r plan prior rm by_ at_ ops' :
  Admit None i now = Ok adm ->
  let pid := in_ProjectID i in
  let d := run_ops rfc3339 pid (admitted (ad_Record adm)) ops in
  let d' := (AuthorizeRemediation false d r plan prior rm by_ at_).1 in
  dl_Record d = Some r -> rc_Remediations r <> [] -> d' <> d ->
  exists e, LoadRemediations pid (dl_Files (run_ops rfc3339 pid d' ops')) (dl_Record (run_ops rfc3339 pid d' ops')) = Err e.
Proof.
  intros Hadm pid d d' Hr Hj Hd. apply Admit_Inv in Hadm.
  destruct (run_keeps pid i ops _ _ _ Hadm) as (r0 & rms & HI & _ & _). cbn in HI. fold d in HI.
  assert (r0 = r) as -> by (destruct HI; congruence).
  assert (rms <> []) as Hne by (intros ->; apply Hj; by destruct HI).
  destruct (Authorize_lost _ _ _ _ _ plan prior rm by_ at_ HI Hne) as [?|Hu]; [done|].
  by apply unjournaled_load, unjournaled_run.
Qed.

End history.

(** * A history *)

#[local] Existing Instance plain_tables.

(** Documents that are their own encoding, and no URL parses. *)
#[local] Instance plain_docs : Docs :=
  {| doc := Remediation; decode_rm := inl; encode_rm := fun rm => rm;
     doc_digest := fun rm => Itoa (rm_Seq rm) +:+ join_with "," (wp_ID <$> rm_Packages rm); terms_digest := tm_ProjectID |}.
#[local] Instance plain_docs_laws : DocLaws.
Proof. done. Qed.
#[local] Instance plain_urls : UrlParser := {| url_Parse := fun _ => inr "" |}.

Definition met_evidence : Evidence := mkEvidence true [] [] [] [] ["ac-1"] [] [] [] [] "" [].
Definition unmet_evidence : Evidence := mkEvidence false [] [] [] [] [] ["ac-1"] [] [] [] "" [].

Definition a_fix (id : string) (seq : Z) : Remediation :=
  mkRemediation 1 "proj" 0 [mkRepair "ac-1" seq] "" 0 [a_package id []] [].

Definition first_record : Record_ :=
  mkRecord 1 "proj" one_intent "proj" "" "" 5 5 [] [] [] [].

Definition one_history : list Op :=
  [OpSavePlan (a_delivery [a_package "aa" []]); OpInvalidate "ac-1" met_evidence "someone" "it does not" "issue 1" 6;
   OpAuthorize (a_delivery [a_package "aa" []]) unmet_evidence (a_fix "bb" 1) "someone" 7].

(** The same, each command a process; and a run that reads before them and writes after. *)
Definition one_by_one : list Event :=
  one_history ≫= fun op => [Reads 1; Acts 1 op].

Definition a_run : Op := OpRun "proj-1" 9 "/state" "/worktree".

Lemma history_append_only_witness :
  let s0 := mkDesk (admitted first_record) ∅ in
  let d := ds_dir (run_events (fun _ => "") "proj" s0 []) in
  let d' := ds_dir (run_events (fun _ => "") "proj" s0 ([] ++ one_by_one ++ [Reads 2; Acts 2 a_run])) in
  exists r r' rms new,
    dl_Record d = Some r /\ dl_Record d' = Some r' /\ grown r r' /\ plans d `prefix_of` plans d'
    /\ LoadRemediations "proj" (dl_Files d) (dl_Record d) = Ok rms
    /\ LoadRemediations "proj" (dl_Files d') (dl_Record d') = Ok (rms ++ new)
    /\ rm_Seq <$> rms ++ new = seqZ 1 (Z.of_nat (length (rms ++ new)))
    /\ Forall (authorized one_intent (rc_Invalidations r')) (rms ++ new)
    /\ iv_Seq <$> rc_Invalidations r' = seqZ 1 (Z.of_nat (length (rc_Invalidations r'))).
Proof.
  apply (history_append_only (fun _ => "") one_intent 5 (mkAdmission first_record true false) [] (one_by_one ++ [Reads 2; Acts 2 a_run])).
  - vm_compute. reflexivity.
  - repeat split; cbn [writes_record]; try done; intros _ r Hr; vm_compute in Hr |- *; exact Hr.
Defined.

(** A run writes back the record it read before it planned: the finding and the authorization
    recorded in between are gone from the record, while the document of the authorized work
    stays. *)
Theorem stale_run_forgets :
  let s0 := mkDesk (admitted first_record) ∅ in
  let before := ds_dir (run_events (fun _ => "") "proj" s0 (Reads 2 :: one_by_one)) in
  let after := ds_dir (run_events (fun _ => "") "proj" s0 (Reads 2 :: one_by_one ++ [Acts 2 a_run])) in
  (length ∘ rc_Invalidations <$> dl_Record before) = Some 1%nat
  /\ (length ∘ rc_Remediations <$> dl_Record before) = Some 1%nat
  /\ (rc_Invalidations <$> dl_Record after) = Some [] /\ (rc_Remediations <$> dl_Record after) = Some []
  /\ length (dl_Files after) = 1%nat.
Proof. repeat split; vm_compute; reflexivity. Qed.

(** The authorization of that history loads. *)
Lemma one_history_loads :
  let d := run_ops (fun _ => "") "proj" (admitted first_record) one_history in
  match LoadRemediations "proj" (dl_Files d) (dl_Record d) with
  | Ok [rm] => rm_Seq rm = 1 /\ rm_AuthorizedBy rm = "someone" /\ (wp_ID <$> rm_Packages rm) = ["bb"]
  | _ => False
  end.
Proof. vm_compute. done. Qed.

Definition disproved_again : list Op :=
  one_history ++ [OpInvalidate "ac-1" met_evidence "someone" "still not" "issue 2" 8].

Definition second_record : Record_ :=
  default first_record (dl_Record (run_ops (fun _ => "") "proj" (admitted first_record) disproved_again)).

Lemma lost_journal_wedges_witness :
  let d := run_ops (fun _ => "") "proj" (admitted first_record) disproved_again in
  let d' := (AuthorizeRemediation false d second_record (a_delivery [a_package "aa" []]) unmet_evidence (a_fix "cc" 2) "someone" 9).1 in
  let again := run_ops (fun _ => "") "proj" d'
    [OpAuthorize (a_delivery [a_package "aa" []]) unmet_evidence (a_fix "cc" 2) "someone" 10] in
  exists e, LoadRemediations "proj" (dl_Files again) (dl_Record again) = Err e.
Proof.
  apply (lost_journal_wedges (fun _ => "") one_intent 5 (mkAdmission first_record true false) disproved_again second_record).
  - vm_compute. reflexivity.
  - vm_compute. reflexivity.
  - vm_compute. discriminate.
  - vm_compute. discriminate.
Defined.

(** An amendment is judged beside the standing packages only.  One that takes the name of a
    package a remediation added is accepted, being valid by itself, and from then on the
    plan of the delivery no longer loads. *)
Theorem amended_plan_unloadable :
  let d := run_ops (fun _ => "") "proj" (admitted first_record) one_history in
  let standing := a_delivery [a_package "aa" []] in
  let next := a_delivery [a_package "aa" []; a_package "bb" ["aa"]] in
  let st := mkStatus "proj" StateBlocked "" "" false 2 1 1 0 [] unmet_evidence 8 in
  is_ok (LoadPlan d one_intent) = true
  /\ delivery_Validate one_intent next = None
  /\ (AmendUnmergedPackages d standing next st).2 = None
  /\ is_ok (LoadPlan (AmendUnmergedPackages d standing next st).1 one_intent) = false.
Proof. repeat split; vm_compute; reflexivity. Qed.
