(* ===== verification/HandCompile.v ===== *)
(** Compiling a delivery into an unattended run (internal/handoff/compile.go): the host
    profile, the order of the packages, the specification and the tasks of the run.
    Writing the two files is left out. *)
From Stdlib Require Import Ascii.
From S2P Require Import Prelude GoStd RunFailure RunQA RunPlan RunSpec HandIntent HandPlan.

(** * The host *)

Record HostProfile : Type := mkHost {
  hp_DeliveryRoot : string;
  hp_Driver : string;
  hp_GitHubCommand : string;
  hp_GasCityCommand : string;
  hp_BeadsCommand : string;
  hp_Provider : string;
  hp_ProviderCommand : string;
  hp_ProjectToolPath : list string;
  hp_WindowsMountPrefix : string
}.

Definition ErrHostProfileInvalid : error := errmsg "handoff: host profile is invalid" [].

Definition host_missing (h : HostProfile) : list string :=
  problem_if (blank (hp_DeliveryRoot h)) "deliveryRoot"
  ++ problem_if (blank (hp_Driver h)) "driver"
  ++ problem_if (blank (hp_Provider h)) "provider".

(** HostProfile.Validate *)
Definition host_Validate (h : HostProfile) : option error :=
  match host_missing h with
  | [] => None
  | missing => Some (Errorf "%w: missing %s" [join_with ", " missing] [ErrHostProfileInvalid])
  end.

(** The match of windowsDrive: the letter and what follows the separator. *)
Definition windowsDrive (p : string) : option (ascii * string) :=
  match p with
  | String c (String d (String e rest)) =>
      if is_letter c && Ascii.eqb d ":" && (Ascii.eqb e (ascii_of_N 92) || Ascii.eqb e "/") then Some (c, rest) else None
  | _ => None
  end.

Definition path_Join (parts : list string) : string := "/" +:+ join_with "/" (trim_slashes <$> parts).

Section host.
Context `{GoTables}.

Definition ResolveCheckout (h : HostProfile) (p : string) : string :=
  match windowsDrive p with
  | None => p
  | Some (drive, rest) =>
      if String.eqb (hp_WindowsMountPrefix h) "" then p
      else path_Join [hp_WindowsMountPrefix h; ToLower (String drive ""); map_bytes slashed rest]
  end.

Definition ProjectDir (h : HostProfile) (projectID : string) : string := filepath_Join [hp_DeliveryRoot h; projectID].
Definition StateDir (h : HostProfile) (projectID : string) : string := filepath_Join [ProjectDir h projectID; "run"].
Definition ProjectionPath (h : HostProfile) (projectID : string) : string :=
  filepath_Join [StateDir h projectID; "PROJECT-STATE.yml"].
Definition DeliveryProjectionPath (h : HostProfile) (projectID : string) : string :=
  filepath_Join [ProjectDir h projectID; "PROJECT-STATE.yml"].

Definition command_or (declared fallback : string) : string := if blank declared then fallback else declared.

Definition forgeCLI (h : HostProfile) : string := command_or (hp_GitHubCommand h) "gh".
Definition gasCityCLI (h : HostProfile) : string := command_or (hp_GasCityCommand h) "gc".
Definition beadsCLI (h : HostProfile) : string := command_or (hp_BeadsCommand h) "bd".
Definition providerCLI (h : HostProfile) : string := command_or (hp_ProviderCommand h) (hp_Provider h).

(** The declared directories, trimmed, the empty ones left out. *)
Definition tool_dirs (h : HostProfile) : list string :=
  List.filter (fun d => negb (String.eqb d "")) (TrimSpace <$> hp_ProjectToolPath h).

Definition projectToolPath (h : HostProfile) : string := join_with ":" (tool_dirs h).

(** * The order of the packages *)

Definition ready (remaining : gmap string WorkPackage) (finished : gset string) (wp : WorkPackage) : bool :=
  forallb (fun dep => match remaining !! dep with Some _ => bool_decide (dep ∈ finished) | None => true end) (wp_DependsOn wp).

Definition zero_package : WorkPackage := mkPackage "" "" "" "" "" [] [] [] [] None.

(** One pass over the names: [all] takes the ones that are not ready too. *)
Fixpoint order_pass (all : bool) (remaining : gmap string WorkPackage) (ids : list string) (finished : gset string)
    (out : list WorkPackage) : gset string * list WorkPackage :=
  match ids with
  | [] => (finished, out)
  | id :: ids' =>
      let wp := default zero_package (remaining !! id) in
      if bool_decide (id ∈ finished) || negb (all || ready remaining finished wp)
      then order_pass all remaining ids' finished out
      else order_pass all remaining ids' ({[id]} ∪ finished) (out ++ [wp])
  end.

(** The loop; a pass that adds nothing is followed by one that adds the rest. *)
Fixpoint order_loop (fuel : nat) (n : nat) (remaining : gmap string WorkPackage) (ids : list string)
    (finished : gset string) (out : list WorkPackage) : option (list WorkPackage) :=
  if (n <=? length out)%nat then Some out
  else match fuel with
       | O => None
       | S f =>
           let '(done1, out1) := order_pass false remaining ids finished out in
           let '(done2, out2) :=
             if (length out1 =? length out)%nat then order_pass true remaining ids done1 out1 else (done1, out1) in
           order_loop f n remaining ids done2 out2
       end.

(** orderPackages: a pass adds a package at least. *)
Definition orderPackages (plan : DeliveryPlan) : option (list WorkPackage) :=
  let packages := AllPackages plan in
  order_loop (length packages) (length packages) (by_id packages) (sort_Strings (wp_ID <$> packages)) ∅ [].

(** * Stages *)

Definition StageCityUp : string := "city-up".
Definition StageDispatch : string := "dispatch".
Definition StageAwait : string := "await".
Definition StagePublish : string := "publish".
Definition StageVerify : string := "verify".
Definition StageProject : string := "project".
Definition StagePublishProjection : string := "publish-projection".

Definition driverResultMargin : Z := 300.
Definition publishCIBudget : Z := 2700.
Definition driverMaxResumes : Z := 1.

Definition driverResultPath (taskID : string) : string := "results/" +:+ taskID +:+ ".json".

Definition publishedStatus (p : Policy) : string := if dp_NeedMerge p then "merged" else "pr-open".

Definition acceptanceBoundaryPrefix : string := "acceptance.".

Definition acceptanceBoundaries (i : Intent) : list KnownBoundary :=
  (fun c => mkBoundary (acceptanceBoundaryPrefix +:+ cr_ID c)
              ("acceptance criterion " +:+ cr_ID c +:+ " is a person's to answer") (cr_Statement c)
              ("a person accepts " +:+ cr_ID c
               +:+ " — delivery may prepare what they read and may never claim their answer"))
  <$> List.filter IsHuman (in_Acceptance i).

(** The closure stage of Compile. *)
Definition stage (h : HostProfile) (id title band : string) (needs : list string) (mutates : bool) (timeout : Z)
    (args : list string) : Task :=
  mkTask id title band (hp_Driver h :: args) "" needs [] mutates timeout 0 (driverResultPath id) 0 "" "" "" "".

Definition concluding (maxResumes : Z) (status gate phase : string) (t : Task) : Task :=
  mkTask (tk_ID t) (tk_Title t) (tk_Band t) (tk_Argv t) (tk_Dir t) (tk_Needs t) (tk_RequiresChecks t) (tk_Mutates t)
    (tk_TimeoutSeconds t) (tk_MaxAttempts t) (tk_ResultPath t) maxResumes status gate phase (tk_QAGate t).

Definition flag_if (name value : string) : list string :=
  if blank value then [] else [name; TrimSpace value].

(** The arguments every stage of the driver receives. *)
Definition project_args (i : Intent) (h : HostProfile) : list string :=
  ["-project"; in_ProjectID i; "-state"; ProjectDir h (in_ProjectID i)]
  ++ flag_if "-gh" (hp_GitHubCommand h)
  ++ flag_if "-gc" (hp_GasCityCommand h)
  ++ flag_if "-bd" (hp_BeadsCommand h)
  ++ ["-provider"; hp_Provider h]
  ++ flag_if "-provider-bin" (hp_ProviderCommand h)
  ++ (if String.eqb (projectToolPath h) "" then [] else ["-project-path"; projectToolPath h]).

Definition await_timeout (i : Intent) : Z :=
  let d := dp_WorkDeadlineSeconds (in_Policy i) in if d <=? 0 then 5400 else d.

Definition deadline_args (i : Intent) (h : HostProfile) (name : string) (wp : WorkPackage) : list string :=
  [name; "-package"; wp_ID wp; "-deadline"; Itoa (await_timeout i)] ++ project_args i h.

(** The tasks of one package. *)
Definition package_tasks (i : Intent) (h : HostProfile) (wp : WorkPackage) : list Task :=
  let budget := await_timeout i in
  if IsVerification wp then
    [concluding driverMaxResumes "verified"
       "declared verification gates passed against the authoritative merged commit + required evidence present at that commit"
       (wp_Phase wp)
       (stage h (StageVerify +:+ "-" +:+ wp_ID wp) ("verify " +:+ wp_ID wp +:+ ": " +:+ wp_Title wp) BandPrimary [StageDispatch]
          false (wrap64 (budget + driverResultMargin)) (deadline_args i h StageVerify wp))]
  else
    let upstream := (fun dep => StagePublish +:+ "-" +:+ dep) <$> wp_DependsOn wp in
    let awaitID := StageAwait +:+ "-" +:+ wp_ID wp in
    [concluding driverMaxResumes "" "" ""
       (stage h awaitID ("wait for " +:+ wp_ID wp +:+ ": " +:+ wp_Title wp) BandPrimary (StageDispatch :: upstream) false
          (wrap64 (budget + driverResultMargin)) (deadline_args i h StageAwait wp));
     concluding driverMaxResumes (publishedStatus (in_Policy i))
       "required CI passed + independent assurance passed + merged through repository governance" (wp_Phase wp)
       (stage h (StagePublish +:+ "-" +:+ wp_ID wp) ("publish " +:+ wp_ID wp +:+ ": " +:+ wp_Title wp) BandPrimary
          (awaitID :: upstream) true (wrap64 (wrap64 (budget + publishCIBudget) + driverResultMargin))
          (deadline_args i h StagePublish wp))].

(** The task that finishes a package. *)
Definition finishing (wp : WorkPackage) : string :=
  if IsVerification wp then StageVerify +:+ "-" +:+ wp_ID wp else StagePublish +:+ "-" +:+ wp_ID wp.

Definition run_plan (i : Intent) (plan : DeliveryPlan) (h : HostProfile) (runID : string) (ordered : list WorkPackage) : Plan :=
  let project := project_args i h in
  mkPlan runID RiskQ0
    ([stage h StageCityUp "build the city, clone the working rig and declare the workers" BandPrimary [] false 1800
        (StageCityUp :: project);
      stage h StageDispatch "create the work beads, wire their dependencies and route them" BandPrimary [StageCityUp] false 900
        (StageDispatch :: project)]
     ++ (ordered ≫= package_tasks i h)
     ++ [stage h StageProject "render the delivery projection from the run's evidence" BandEvidence
           (finishing <$> AllPackages plan) false 600 (StageProject :: project);
         stage h StagePublishProjection "publish the projection into the project's repository" BandEvidence [StageProject] true
           900 (StagePublishProjection :: project)]).

Definition run_spec (i : Intent) (h : HostProfile) : Spec :=
  let pid := in_ProjectID i in
  let worktree := ResolveCheckout h (in_Checkout i) in
  let stateDir := StateDir h pid in
  mkSpec pid
    (mkOwnership pid worktree (rg_Origin (in_Repository i)) (rg_DefaultBranch (in_Repository i)) RoleController
       ("managed-delivery-" +:+ pid) true)
    [mkTool "git" "2.30" ["--version"] "every repository operation delivery performs" "";
     mkTool "tmux" "3.0" ["-V"] "the runtime provider worker sessions run under" "";
     mkTool (forgeCLI h) "2.40" ["--version"] "pull requests, checks and merges" "";
     mkTool (gasCityCLI h) "" [] "building the city, cloning the rig and every bead operation delivery performs" "";
     mkTool (beadsCLI h) "" [] "the bead store Gas City creates in the rig; Gas City resolves it by PATH lookup" "";
     mkTool (providerCLI h) "" [] "the agent runtime the city's provider readiness and every worker session resolve by name" ""]
    ([mkPath worktree PathDir "the registered checkout this delivery is for" false false;
      mkPath (ProjectDir h pid) PathDir "durable delivery state: record, plan, journal, projection" true true;
      mkPath stateDir PathDir "the run's journal, heartbeat and completion record" true true]
     ++ ((fun dir => mkPath dir PathDir "the project's own toolchain, which the controller runs a package's declared gates with"
                       false false) <$> tool_dirs h))
    [mkEnv "HOME" "resolves the agent runtime's configuration" false; mkEnv "PATH" "resolves every declared tool" false]
    [] [] []
    (Some (mkGitHub (rg_Slug (in_Repository i)) (hp_GitHubCommand h) "" (rg_DefaultBranch (in_Repository i))
             (dp_NeedPush (in_Policy i)) (dp_NeedPR (in_Policy i)) (dp_NeedChecks (in_Policy i)) (dp_NeedMerge (in_Policy i))
             (dp_MergeHumanAction (in_Policy i))))
    [mkRule "supervisor cannot be asked to reconcile" FailureHumanDecision
       "the machine-wide supervisor is not answering, and restarting a shared process is its owner's decision"]
    (mkQAPolicy []) stateDir (ProjectionPath h pid) (acceptanceBoundaries i).

(** Compile; [None] is that it does not return. *)
Definition Compile `{UrlParser} (i : Intent) (plan : DeliveryPlan) (h : HostProfile) (runID : string)
  : option (res (Spec * Plan)) :=
  match intent_Validate i, delivery_Validate i plan, host_Validate h with
  | Some e, _, _ => Some (Err e)
  | None, Some e, _ => Some (Err e)
  | None, None, Some e => Some (Err e)
  | None, None, None =>
      if blank runID then Some (Err (Errorf "%w: a run needs an id" [] [ErrHostProfileInvalid]))
      else
        match orderPackages plan with
        | None => None
        | Some ordered =>
            let spec := run_spec i h in
            let work := run_plan i plan h runID ordered in
            match plan_Validate work with
            | Some e => Some (Err (wrap "compiling the delivery run: %w" e))
            | None =>
                match spec_Validate spec with
                | Some e => Some (Err (wrap "compiling the delivery run: %w" e))
                | None => Some (Ok (spec, work))
                end
            end
        end
  end.

End host.
