(* ===== verification/HandText.v ===== *)
(** Facts of text the compiler relies on: what is not blank, trimming twice, the names
    filepath.Join ends in. *)
From Stdlib Require Import Ascii.
From S2P Require Import Prelude GoStd RunQA HandIntent.

(** * Text that is not blank *)

(** A byte between ! and ~ is in no encoding of a space. *)
Fixpoint visible (s : string) : bool :=
  match s with
  | EmptyString => false
  | String c s' => ((33 <=? byte_of c) && (byte_of c <=? 126)) || visible s'
  end.

Lemma visible_app a b : visible (a +:+ b) = visible a || visible b.
Proof.
  induction a as [|c a IH]; [done|]. rewrite string_app_cons. cbn [visible]. by rewrite IH, orb_assoc.
Qed.

Lemma rev_app_string s : forall acc, rev_app s acc = string_rev s +:+ acc.
Proof.
  unfold string_rev. induction s as [|c s IH]; intros acc; [done|]. cbn [rev_app].
  by rewrite IH, (IH (String c "")), <- string_app_assoc.
Qed.

Lemma string_rev_app a b : string_rev (a +:+ b) = string_rev b +:+ string_rev a.
Proof.
  induction a as [|c a IH]; [by rewrite string_app_nil_r|]. rewrite string_app_cons. unfold string_rev at 1 3. cbn [rev_app].
  by rewrite !rev_app_string, IH, string_app_assoc.
Qed.

Lemma string_rev_involutive s : string_rev (string_rev s) = s.
Proof.
  induction s as [|c s IH]; [done|]. change (String c s) with (String c "" +:+ s). by rewrite !string_rev_app, IH.
Qed.

Lemma visible_rev s : visible (string_rev s) = visible s.
Proof.
  induction s as [|c s IH]; [done|]. change (String c s) with (String c "" +:+ s).
  rewrite string_rev_app, !visible_app, IH. apply orb_comm.
Qed.

Lemma string_rev_length s : String.length (string_rev s) = String.length s.
Proof.
  induction s as [|c s IH]; [done|]. change (String c s) with (String c "" +:+ s).
  rewrite string_rev_app, !string_length_app, IH. cbn. lia.
Qed.

Lemma strip_space_some runes s t : strip_space runes s = Some t -> exists r, r ∈ runes /\ s = r +:+ t.
Proof.
  induction runes as [|r runes IH]; cbn; [done|]. destruct (strip_prefix r s) as [u|] eqn:E.
  - intros [= ->]. exists r. split; [left|]. by apply strip_prefix_spec.
  - intros (r' & Hr & ->)%IH. exists r'. split; [by right|done].
Qed.

Lemma strip_space_none runes s : strip_space runes s = None <-> Forall (fun r => strip_prefix r s = None) runes.
Proof.
  induction runes as [|r runes IH]; cbn; [done|]. rewrite Forall_cons, <- IH.
  destruct (strip_prefix r s); [by split; [|intros [? _]]|tauto].
Qed.

Lemma trim_left_visible runes fuel : forall s,
  Forall (fun r => visible r = false) runes -> visible s = true -> visible (trim_left fuel runes s) = true.
Proof.
  induction fuel as [|fuel IH]; intros s Hr Hs; cbn; [done|]. destruct (strip_space runes s) as [t|] eqn:E; [|done].
  apply IH; [done|]. apply strip_space_some in E as (r & Hin & ->). rewrite Forall_forall in Hr.
  by rewrite visible_app, (Hr r Hin) in Hs.
Qed.

Lemma visible_not_blank s : visible s = true -> blank s = false.
Proof.
  intros Hs. unfold blank, TrimSpace. apply String.eqb_neq. intros E.
  assert (visible "" = true) as He; [|done]. rewrite <- E, visible_rev.
  apply trim_left_visible; [by apply (bool_decide_unpack _)|]. rewrite visible_rev.
  apply trim_left_visible; [by apply (bool_decide_unpack _)|done].
Qed.

(** TrimSpace leaves trimmed text alone. *)
Lemma trim_left_fixed runes fuel : forall s,
  Forall (fun r => r <> "") runes -> (String.length s <= fuel)%nat -> strip_space runes (trim_left fuel runes s) = None.
Proof.
  induction fuel as [|fuel IH]; intros s Hr Hl; cbn.
  - destruct s; [|cbn in Hl; lia]. apply strip_space_none. eapply Forall_impl; [exact Hr|]. intros [|c r] Hne; done.
  - destruct (strip_space runes s) as [t|] eqn:E; [|done]. apply IH; [done|].
    apply strip_space_some in E as (r & Hin & ->). rewrite Forall_forall in Hr. specialize (Hr r Hin).
    rewrite string_length_app in Hl. destruct r; [done|]. cbn in Hl. lia.
Qed.

Lemma trim_left_suffix runes fuel : forall s, exists r, s = r +:+ trim_left fuel runes s.
Proof.
  induction fuel as [|fuel IH]; intros s; cbn; [by exists ""|]. destruct (strip_space runes s) as [t|] eqn:E; [|by exists ""].
  apply strip_space_some in E as (r & _ & ->). destruct (IH t) as [u Hu]. exists (r +:+ u). rewrite <- string_app_assoc, <- Hu. done.
Qed.

Lemma trim_left_none runes fuel s : strip_space runes s = None -> trim_left fuel runes s = s.
Proof. intros E. destruct fuel; cbn; [done|]. by rewrite E. Qed.

Lemma strip_prefix_app_none r a b : strip_prefix r (a +:+ b) = None -> strip_prefix r a = None.
Proof.
  destruct (strip_prefix r a) as [t|] eqn:E; [|done]. apply strip_prefix_spec in E as ->. rewrite <- string_app_assoc.
  by rewrite strip_prefix_app.
Qed.

Lemma TrimSpace_idempotent s : TrimSpace (TrimSpace s) = TrimSpace s.
Proof.
  unfold TrimSpace at 2 3. set (l := trim_left (String.length s) space_runes s).
  set (b := trim_left (String.length l) (map string_rev space_runes) (string_rev l)).
  assert (strip_space space_runes l = None) as Hl by (apply trim_left_fixed; [by apply (bool_decide_unpack _)|done]).
  assert (strip_space (map string_rev space_runes) b = None) as Hb.
  { apply trim_left_fixed; [by apply (bool_decide_unpack _)|]. rewrite string_rev_length. done. }
  assert (strip_space space_runes (string_rev b) = None) as Hf.
  { destruct (trim_left_suffix (map string_rev space_runes) (String.length l) (string_rev l)) as [r Hr]. fold b in Hr.
    apply (f_equal string_rev) in Hr. rewrite string_rev_involutive, string_rev_app in Hr. rewrite Hr in Hl.
    rewrite strip_space_none in *. eapply Forall_impl; [exact Hl|]. intros x. apply strip_prefix_app_none. }
  unfold TrimSpace. rewrite (trim_left_none space_runes) by done. rewrite string_rev_involutive.
  by rewrite (trim_left_none (map string_rev space_runes)).
Qed.

Lemma trimmed_not_blank s : TrimSpace s <> "" -> blank (TrimSpace s) = false.
Proof. intros Hs. unfold blank. rewrite TrimSpace_idempotent. by apply String.eqb_neq. Qed.

(** * filepath.Join *)

Fixpoint has_byte (c : ascii) (s : string) : bool :=
  match s with EmptyString => false | String d s' => Ascii.eqb d c || has_byte c s' end.

Lemma split_on_single sep w : has_byte sep w = false -> split_on sep w = [w].
Proof.
  induction w as [|c w IH]; cbn; [done|]. intros [Hc Hw]%orb_false_iff. by rewrite Hc, IH.
Qed.

Lemma split_on_app sep a w : has_byte sep w = false -> split_on sep (a +:+ String sep w) = split_on sep a ++ [w].
Proof.
  intros Hw. induction a as [|c a IH].
  - rewrite string_app_nil_l. cbn [split_on app]. by rewrite Ascii.eqb_refl, split_on_single.
  - rewrite string_app_cons. cbn [split_on]. destruct (Ascii.eqb c sep); [by rewrite IH|]. rewrite IH.
    destruct (split_on sep a) as [|x l] eqn:E; [|done]. exfalso. destruct a; cbn in E; [done|].
    destruct (Ascii.eqb a sep); [done|]. by destruct (split_on sep a0).
Qed.

Lemma join_with_snoc sep l w : exists pre, join_with sep (l ++ [w]) = pre +:+ w.
Proof.
  induction l as [|x l [pre IH]]; [by exists ""|]. cbn. destruct (l ++ [w]) eqn:E; [by destruct l|].
  exists (x +:+ sep +:+ pre). rewrite IH, !string_app_assoc. done.
Qed.

(** A path element that is not a dot name. *)
Definition plain_name (w : string) : Prop := has_byte "/" w = false /\ w <> "" /\ w <> "." /\ w <> "..".

Lemma clean_step_plain rooted st w : plain_name w -> clean_step rooted st w = w :: st.
Proof.
  intros (_ & H1 & H2 & H3). unfold clean_step. apply String.eqb_neq in H1, H2, H3. by rewrite H1, H2, H3.
Qed.

Lemma filepath_Clean_ends a w : plain_name w -> exists pre, filepath_Clean (a +:+ String "/" w) = pre +:+ w.
Proof.
  intros Hw. unfold filepath_Clean. destruct (a +:+ String "/" w) as [|c s] eqn:E; [by destruct a|]. rewrite <- E.
  rewrite split_on_app, fold_left_app by apply Hw. cbn [fold_left]. rewrite clean_step_plain by done. cbn [rev].
  destruct (join_with_snoc "/" (rev (fold_left (clean_step (HasPrefix (a +:+ String "/" w) "/")) (split_on "/" a) [])) w) as [pre ->].
  destruct (HasPrefix _ _); [by exists ("/" +:+ pre); rewrite string_app_assoc|].
  destruct (String.eqb_spec (pre +:+ w) "") as [Ee|_]; [|by exists pre].
  destruct Hw as (_ & Hne & _). apply (f_equal String.length) in Ee. rewrite string_length_app in Ee.
  destruct w; [done|cbn in Ee; lia].
Qed.

Lemma filepath_Join_ends a w : plain_name w -> exists pre, filepath_Join [a; w] = pre +:+ w.
Proof.
  intros Hw. unfold filepath_Join. pose proof Hw as (Hs & Hne & H1 & H2).
  rewrite filter_cons, filter_cons, filter_nil, (decide_True (P := String.eqb w "" = false)) by by apply String.eqb_neq.
  destruct (decide (String.eqb a "" = false)); [by apply filepath_Clean_ends|]. exists "". cbn [join_with].
  unfold filepath_Clean. destruct w as [|c w]; [done|]. rewrite split_on_single by done. cbn [fold_left].
  rewrite clean_step_plain by done. cbn [rev app join_with]. destruct (HasPrefix (String c w) "/") eqn:E; [|done].
  exfalso. apply HasPrefix_spec in E as [r E]. injection E as -> ->. cbn in Hs. done.
Qed.

Lemma has_byte_app c a b : has_byte c (a +:+ b) = has_byte c a || has_byte c b.
Proof. induction a as [|d a IH]; [done|]. rewrite string_app_cons. cbn [has_byte]. by rewrite IH, orb_assoc. Qed.

Lemma has_byte_rev c s : has_byte c (string_rev s) = has_byte c s.
Proof.
  induction s as [|d s IH]; [done|]. change (String d s) with (String d "" +:+ s).
  rewrite string_rev_app, !has_byte_app, IH. apply orb_comm.
Qed.

Lemma trim_left_byte c runes fuel s : has_byte c (trim_left fuel runes s) = true -> has_byte c s = true.
Proof.
  intros Hb. destruct (trim_left_suffix runes fuel s) as [r ->]. by rewrite has_byte_app, Hb, orb_true_r.
Qed.

Lemma TrimSpace_byte c s : has_byte c (TrimSpace s) = true -> has_byte c s = true.
Proof.
  unfold TrimSpace. rewrite has_byte_rev. intros Hb%trim_left_byte. rewrite has_byte_rev in Hb. by apply trim_left_byte in Hb.
Qed.

Lemma Contains_byte c s : has_byte c s = true -> Contains s (String c "") = true.
Proof.
  induction s as [|d s IH]; cbn [has_byte Contains]; [done|]. intros [->%Ascii.eqb_eq|Hs]%orb_true_iff; apply orb_true_iff.
  - left. apply (HasPrefix_app (String c "") s).
  - right. by apply IH.
Qed.

Lemma splitSlug_slash slug owner name : splitSlug slug = Some (owner, name) -> Contains slug "/" = true.
Proof.
  intros Hs. apply Contains_byte, TrimSpace_byte. unfold splitSlug in Hs.
  destruct (has_byte "/" (TrimSpace slug)) eqn:E; [done|]. by rewrite split_on_single in Hs.
Qed.
