(* ===== verification/HandOrder.v ===== *)
(** The order the compiler gives the packages of a plan: every package once, after the
    packages it waits for, the same for any order of declaration. *)
From stdpp Require Import sorting.
From S2P Require Import Prelude GoStd RunFailure RunQA RunPlan RunController RunSpec HandIntent HandPlan HandReach.
From S2P Require Import HandPlanProps HandCompile.

(** Every package comes after the packages of the list it depends on. *)
Definition after_upstream (pkgs out : list WorkPackage) : Prop :=
  forall l1 wp l2 dep, out = l1 ++ wp :: l2 -> dep ∈ wp_DependsOn wp -> dep ∈ wp_ID <$> pkgs -> dep ∈ wp_ID <$> l1.

Lemma after_upstream_snoc pkgs out wp :
  after_upstream pkgs out ->
  (forall dep, dep ∈ wp_DependsOn wp -> dep ∈ wp_ID <$> pkgs -> dep ∈ wp_ID <$> out) ->
  after_upstream pkgs (out ++ [wp]).
Proof.
  intros Ho Hw l1 w l2 dep E. destruct l2 as [|z l2 _] using rev_ind.
  - apply app_inj_tail in E as [-> ->]. apply Hw.
  - rewrite app_comm_cons, app_assoc in E. apply app_inj_tail in E as [-> ->]. by apply (Ho l1 w l2).
Qed.

Section order.
Context (pkgs : list WorkPackage) (Hnd : NoDup (wp_ID <$> pkgs))
  (Hacyclic : forall id, id ∈ wp_ID <$> pkgs -> grounded (deps_of pkgs) id).

#[local] Abbreviation remaining := (by_id pkgs).

Lemma by_id_spec id wp : remaining !! id = Some wp <-> wp ∈ pkgs /\ wp_ID wp = id.
Proof.
  clear Hacyclic. unfold by_id. revert Hnd. induction pkgs as [|x l IH] using rev_ind; intros Hnd.
  { split; [done|]. intros [?%elem_of_nil _]. done. }
  rewrite fmap_app, NoDup_app in Hnd. destruct Hnd as (Hl & Hx & _). rewrite fold_left_app. cbn [fold_left].
  rewrite lookup_insert_Some, IH by done. rewrite elem_of_app, list_elem_of_singleton. split.
  - intros [[? ->]|(? & ? & ?)]; auto.
  - intros [[Hin| ->] <-]; [|by left]. right. split; [|done]. intros E. apply (Hx (wp_ID wp));
      [by apply list_elem_of_fmap_2|]. rewrite <- E. set_solver.
Qed.

Lemma by_id_known id : is_Some (remaining !! id) <-> id ∈ wp_ID <$> pkgs.
Proof.
  rewrite list_elem_of_fmap. split.
  - intros [wp [? ?]%by_id_spec]. by exists wp.
  - intros (wp & -> & Hin). exists wp. by apply by_id_spec.
Qed.

Record Placed (finished : gset string) (out : list WorkPackage) : Prop := {
  pd_done : finished = list_to_set (wp_ID <$> out);
  pd_sub : out ⊆ pkgs;
  pd_once : NoDup (wp_ID <$> out);
  pd_after : after_upstream pkgs out
}.

Lemma ready_spec finished wp :
  ready remaining finished wp = true
  <-> forall dep, dep ∈ wp_DependsOn wp -> dep ∈ wp_ID <$> pkgs -> dep ∈ finished.
Proof.
  unfold ready. rewrite forallb_forall. split.
  - intros Hf dep Hd%list_elem_of_In [w Hk]%by_id_known. specialize (Hf dep Hd). rewrite Hk in Hf.
    by apply bool_decide_eq_true in Hf.
  - intros Hf dep Hd%list_elem_of_In. destruct (remaining !! dep) eqn:E; [|done]. apply bool_decide_eq_true, Hf; [done|].
    apply by_id_known. by rewrite E.
Qed.

Lemma place finished out id wp :
  Placed finished out -> id ∉ finished -> remaining !! id = Some wp -> ready remaining finished wp = true ->
  Placed ({[id]} ∪ finished) (out ++ [wp]).
Proof.
  intros [-> Hs Ho Ha] Hn [Hin <-]%by_id_spec Hr. rewrite elem_of_list_to_set in Hn. split.
  - rewrite fmap_app, list_to_set_app_L. cbn. set_solver.
  - set_solver.
  - rewrite fmap_app. apply NoDup_app. split_and!; [done|set_solver|apply NoDup_singleton].
  - apply after_upstream_snoc; [done|]. intros dep Hd Hk. rewrite ready_spec in Hr.
    specialize (Hr dep Hd Hk). by rewrite elem_of_list_to_set in Hr.
Qed.

Lemma order_pass_spec ids : forall finished out,
  Placed finished out -> ids ⊆ (wp_ID <$> pkgs) ->
  let '(finished', out') := order_pass false remaining ids finished out in
  Placed finished' out' /\ finished ⊆ finished' /\ (length out <= length out')%nat
  /\ (forall id wp, id ∈ ids -> remaining !! id = Some wp -> ready remaining finished wp = true -> id ∈ finished').
Proof.
  induction ids as [|id ids IH]; intros finished out HP Hsub; cbn [order_pass].
  { split_and!; [done|done|lia|]. intros id wp ?%elem_of_nil. done. }
  assert (Hsub' : ids ⊆ (wp_ID <$> pkgs)) by set_solver.
  destruct (proj2 (by_id_known id)) as [wp Hwp]; [set_solver|]. rewrite Hwp. cbn [from_option orb]. unfold Datatypes.id.
  assert (Hmono : forall f w, finished ⊆ f -> ready remaining finished w = true -> ready remaining f w = true).
  { intros f w Hf. rewrite !ready_spec. intros Hr dep Hd Hk. apply Hf. by apply Hr. }
  destruct (bool_decide (id ∈ finished)) eqn:Eb; [|destruct (ready remaining finished wp) eqn:Er]; cbn [orb negb].
  - apply bool_decide_eq_true in Eb. specialize (IH finished out HP Hsub').
    destruct (order_pass false remaining ids finished out) as [f' o']. destruct IH as (? & Hf & ? & Hall).
    split_and!; try done. intros x w [->|Hx]%elem_of_cons Hw Hr; [by apply Hf|by apply (Hall x w)].
  - apply bool_decide_eq_false in Eb. specialize (IH _ _ (place _ _ _ _ HP Eb Hwp Er) Hsub').
    destruct (order_pass false remaining ids ({[id]} ∪ finished) (out ++ [wp])) as [f' o']. destruct IH as (? & Hf & Hlen & Hall).
    rewrite length_app in Hlen. split_and!; [done|set_solver|lia|].
    intros x w [->|Hx]%elem_of_cons Hw Hr; [set_solver|]. apply (Hall x w); [done|done|]. apply Hmono; [set_solver|done].
  - apply bool_decide_eq_false in Eb. specialize (IH finished out HP Hsub').
    destruct (order_pass false remaining ids finished out) as [f' o']. destruct IH as (? & Hf & ? & Hall).
    split_and!; try done. intros x w [->|Hx]%elem_of_cons Hw Hr; [congruence|by apply (Hall x w)].
Qed.

(** While a package is missing, one is ready. *)
Lemma some_ready finished id :
  id ∈ wp_ID <$> pkgs -> id ∉ finished ->
  exists x wp, (x ∉ finished) /\ remaining !! x = Some wp /\ ready remaining finished wp = true.
Proof.
  intros Hin. pose proof (Hacyclic id Hin) as Hg. induction Hg as [id _ IH]. intros Hn.
  destruct (proj2 (by_id_known id) Hin) as [wp Hwp]. destruct (ready remaining finished wp) eqn:Er; [by exists id, wp|].
  destruct (decide (Exists (fun dep => dep ∈ wp_ID <$> pkgs /\ dep ∉ finished) (wp_DependsOn wp))) as [He|He].
  - apply Exists_exists in He as (dep & Hd & Hk & Hf). apply (IH dep); [|done|done]. exists (wp_DependsOn wp).
    apply by_id_spec in Hwp as [Hwp <-]. split_and!; [by apply deps_of_package|done|by apply deps_of_known].
  - exfalso. apply not_true_iff_false in Er. apply Er, ready_spec. intros dep Hd Hk. apply dec_stable. intros Hf. apply He.
    apply Exists_exists. by exists dep.
Qed.

Lemma placed_length finished out : Placed finished out -> (length out <= length pkgs)%nat.
Proof.
  intros [_ Hs Ho _]. rewrite <- (length_fmap wp_ID out), <- (length_fmap wp_ID pkgs). apply submseteq_length.
  apply NoDup_submseteq; [done|]. set_solver.
Qed.

Lemma placed_all finished out : Placed finished out -> (length pkgs <= length out)%nat -> out ≡ₚ pkgs.
Proof.
  intros [_ Hs Ho _] Hl. apply submseteq_length_Permutation; [|done]. apply NoDup_submseteq; [|done].
  by apply (NoDup_fmap_1 wp_ID).
Qed.

Lemma order_loop_spec fuel ids : forall finished out,
  ids ≡ₚ wp_ID <$> pkgs -> Placed finished out -> (length pkgs <= fuel + length out)%nat ->
  exists res, order_loop fuel (length pkgs) remaining ids finished out = Some res /\ res ≡ₚ pkgs /\ after_upstream pkgs res.
Proof.
  induction fuel as [|fuel IH]; intros finished out Hids HP Hfuel; cbn [order_loop];
    destruct (Nat.leb_spec (length pkgs) (length out)) as [Hl|Hl].
  1,3: exists out; split_and!; [done|by eapply placed_all|by destruct HP].
  { lia. }
  pose proof (order_pass_spec ids finished out HP) as Hp.
  destruct (order_pass false remaining ids finished out) as [f1 o1].
  destruct Hp as (HP1 & Hf & Hlen & Hall); [rewrite Hids; done|].
  assert (length out < length o1)%nat as Hlt.
  { assert (exists id, id ∈ wp_ID <$> pkgs /\ id ∉ finished) as (id & Hin & Hn).
    { destruct (decide (Exists (fun id => id ∉ finished) (wp_ID <$> pkgs))) as [He|He]; [by apply Exists_exists in He|].
      exfalso. assert (length pkgs <= length out)%nat; [|lia]. destruct HP as [-> _ Ho _].
      rewrite <- (length_fmap wp_ID out), <- (length_fmap wp_ID pkgs). apply submseteq_length, NoDup_submseteq; [done|].
      intros x Hx. apply dec_stable. intros Hn. apply He, Exists_exists. exists x. by rewrite elem_of_list_to_set. }
    destruct (some_ready finished id Hin Hn) as (x & wp & Hx & Hwp & Hr).
    assert (x ∈ f1) as Hx1. { apply (Hall x wp); [|done|done]. rewrite Hids. apply by_id_known. by rewrite Hwp. }
    destruct HP as [-> _ Ho _], HP1 as [-> _ Ho1 _]. rewrite elem_of_list_to_set in Hx, Hx1.
    rewrite <- (length_fmap wp_ID out), <- (length_fmap wp_ID o1).
    assert (x :: (wp_ID <$> out) ⊆+ (wp_ID <$> o1)) as Hsub%submseteq_length; [|cbn in Hsub; lia].
    apply NoDup_submseteq; [by apply NoDup_cons|]. intros y [->|Hy]%elem_of_cons; [done|].
    specialize (Hf y). rewrite !elem_of_list_to_set in Hf. by apply Hf. }
  replace (length o1 =? length out)%nat with false by (symmetry; apply Nat.eqb_neq; lia).
  apply IH; [done|done|lia].
Qed.

End order.

(** Two plans with the same packages are ordered alike. *)
Lemma by_id_perm pkgs pkgs' : NoDup (wp_ID <$> pkgs) -> pkgs ≡ₚ pkgs' -> by_id pkgs = by_id pkgs'.
Proof.
  intros Hnd Hp. apply map_eq. intros id. apply option_eq. intros wp. rewrite by_id_spec by done.
  rewrite by_id_spec by by rewrite <- Hp. by rewrite Hp.
Qed.

Lemma sort_Strings_unique l l' : l ≡ₚ l' -> sort_Strings l = sort_Strings l'.
Proof.
  intros Hp. apply (Sorted_unique String.le); [apply sort_Strings_sorted..|]. by rewrite !sort_Strings_perm.
Qed.

Lemma orderPackages_spec p :
  NoDup (wp_ID <$> AllPackages p) -> (forall id, id ∈ wp_ID <$> AllPackages p -> grounded (deps_of (AllPackages p)) id) ->
  exists out, orderPackages p = Some out /\ out ≡ₚ AllPackages p /\ after_upstream (AllPackages p) out.
Proof.
  intros Hnd Hac. unfold orderPackages. apply order_loop_spec; [done|done|by rewrite sort_Strings_perm| |cbn; lia].
  split; [done|set_solver|constructor|]. intros [|??] ? ? ? E; done.
Qed.

Section theorem.
Context `{GoTables}.

(** (C18) A plan the engine accepts is compiled in an order its packages can run in: the
    loop ends within one pass per package, lists every live package exactly once, each
    after all the packages it depends on, and gives two plans with the same live packages
    the same order however they declare them. *)
Theorem orderPackages_topological i p :
  delivery_Validate i p = None ->
  exists out, orderPackages p = Some out /\ out ≡ₚ AllPackages p
    /\ (forall l1 wp l2 dep, out = l1 ++ wp :: l2 -> dep ∈ wp_DependsOn wp -> dep ∈ wp_ID <$> l1)
    /\ (forall p', AllPackages p' ≡ₚ AllPackages p -> orderPackages p' = Some out).
Proof.
  intros [_ _ _ _ Hnd _ Hneeds Hac _ _ _]%delivery_Validate_ok. destruct (orderPackages_spec p Hnd Hac) as (out & Ho & Hp & Ha).
  exists out. split_and!; [done|done| |].
  - intros l1 wp l2 dep E Hd. apply (Ha l1 wp l2); [done|done|]. destruct (Hneeds wp dep) as (_ & up & Hin & <- & _); [|done|].
    + rewrite <- Hp, E. set_solver.
    + by apply list_elem_of_fmap_2.
  - intros p' Hperm. rewrite <- Ho. unfold orderPackages.
    rewrite (Permutation_length Hperm), (by_id_perm (AllPackages p) (AllPackages p')) by done.
    by rewrite (sort_Strings_unique (wp_ID <$> AllPackages p') (wp_ID <$> AllPackages p)) by by rewrite Hperm.
Qed.

End theorem.

#[local] Existing Instance plain_tables.

Lemma orderPackages_topological_witness :
  let p := a_delivery [a_package "bb" ["aa"]; a_package "cc" ["bb"]; a_package "aa" []] in
  orderPackages p = Some [a_package "aa" []; a_package "bb" ["aa"]; a_package "cc" ["bb"]]
  /\ exists out, orderPackages p = Some out /\ out ≡ₚ AllPackages p
    /\ (forall l1 wp l2 dep, out = l1 ++ wp :: l2 -> dep ∈ wp_DependsOn wp -> dep ∈ wp_ID <$> l1)
    /\ (forall p', AllPackages p' ≡ₚ AllPackages p -> orderPackages p' = Some out).
Proof.
  split; [vm_compute; reflexivity|]. apply (orderPackages_topological one_intent). vm_compute. reflexivity.
Defined.
