(* ===== verification/HandCompileProps.v ===== *)
(** What Compile accepts: every validated delivery on a valid host, but for one name of a
    package, and what it compiles passes the validation of the unattended run. *)
From Stdlib Require Import Ascii.
From S2P Require Import Prelude GoStd RunFailure RunQA RunPlan RunController RunSpec HandIntent HandPlan.
From S2P Require Import HandReach HandPlanProps HandText HandCompile HandOrder.

(** * Tasks in an order they can run in *)

Fixpoint in_order (seen : list string) (tasks : list Task) : Prop :=
  match tasks with
  | [] => True
  | t :: tasks' => Forall (fun n => n ∈ seen) (tk_Needs t) /\ in_order (seen ++ [tk_ID t]) tasks'
  end.

Lemma in_order_app tasks : forall seen tasks',
  in_order seen (tasks ++ tasks') <-> in_order seen tasks /\ in_order (seen ++ (tk_ID <$> tasks)) tasks'.
Proof.
  induction tasks as [|t tasks IH]; intros seen tasks'; cbn.
  - rewrite app_nil_r. tauto.
  - rewrite IH, <- app_assoc. cbn. tauto.
Qed.

Lemma in_order_grounded all tasks : forall seen,
  NoDup (tk_ID <$> all) -> tasks ⊆ all ->
  Forall (grounded (needs_of all)) seen -> in_order seen tasks -> Forall (grounded (needs_of all)) (tk_ID <$> tasks).
Proof.
  induction tasks as [|t tasks IH]; intros seen Hnd Hsub Hs; cbn; [constructor|]. intros [Hn Ho].
  assert (grounded (needs_of all) (tk_ID t)) as Ht.
  { constructor. intros y (ns & Hl & Hy & _). rewrite needs_of_task in Hl; [|done|set_solver]. injection Hl as <-.
    rewrite Forall_forall in Hn, Hs. by apply Hs, Hn. }
  constructor; [done|]. apply (IH (seen ++ [tk_ID t])); [done|set_solver| |done].
  apply Forall_app. by rewrite Forall_singleton.
Qed.

Lemma in_order_needs tasks : forall seen t need,
  in_order seen tasks -> t ∈ tasks -> need ∈ tk_Needs t ->
  exists l1 l2, tasks = l1 ++ t :: l2 /\ (need ∈ seen \/ need ∈ tk_ID <$> l1).
Proof.
  induction tasks as [|u tasks IH]; intros seen t need; cbn; [by intros _ ?%elem_of_nil|].
  intros [Hn Ho] [->|Ht]%elem_of_cons Hneed.
  - exists [], tasks. split; [done|]. left. rewrite Forall_forall in Hn. by apply Hn.
  - destruct (IH _ _ _ Ho Ht Hneed) as (l1 & l2 & -> & Hor). exists (u :: l1), l2. split; [done|].
    rewrite fmap_cons, elem_of_cons. rewrite elem_of_app, list_elem_of_singleton in Hor. tauto.
Qed.

(** A run whose tasks are distinct and only need earlier ones is a plan. *)
Lemma in_order_ok p :
  risk_Valid (pl_Risk p) = true ->
  Forall (fun t => blank (tk_ID t) = false /\ tk_Argv t <> [] /\ band_Valid (tk_Band t) = true) (pl_Tasks p) ->
  in_order [] (pl_Tasks p) ->
  NoDup (tk_ID <$> pl_Tasks p) -> plan_ok p.
Proof.
  intros Hr Hf Ho Hnd. split; [done| |done| | | |].
  1-3: eapply Forall_impl; [exact Hf|]; by intros t (? & ? & ?).
  - intros t need Ht Hn. destruct (in_order_needs _ _ _ _ Ho Ht Hn) as (l1 & l2 & E & [?%elem_of_nil|Hin]); [done|].
    rewrite E, fmap_app, fmap_cons in *. rewrite NoDup_app, NoDup_cons in Hnd. destruct Hnd as (_ & Hd & _).
    split; [|set_solver]. intros ->. apply (Hd (tk_ID t) Hin). left.
  - intros id Hc. pose proof (in_order_grounded (pl_Tasks p) (pl_Tasks p) [] Hnd ltac:(done) ltac:(constructor) Ho) as Hg.
    rewrite Forall_forall in Hg. apply (grounded_not_circular (needs_of (pl_Tasks p)) id); [|done].
    apply Hg, needs_of_known. by apply circular_known.
Qed.

(** * The names of the tasks *)

Definition names (wp : WorkPackage) : list string :=
  if IsVerification wp then ["verify-" +:+ wp_ID wp] else ["await-" +:+ wp_ID wp; "publish-" +:+ wp_ID wp].

Section compile.
Context `{GoTables} `{UrlParser} (i : Intent) (h : HostProfile).

Lemma package_tasks_names wp : tk_ID <$> package_tasks i h wp = names wp.
Proof. unfold package_tasks, names. by destruct (IsVerification wp). Qed.

Lemma packages_names l : tk_ID <$> (l ≫= package_tasks i h) = l ≫= names.
Proof. induction l as [|wp l IH]; [done|]. by rewrite !bind_cons, fmap_app, package_tasks_names, IH. Qed.

Lemma elem_of_names x wp :
  x ∈ names wp <-> (IsVerification wp = true /\ x = "verify-" +:+ wp_ID wp)
                   \/ (IsVerification wp = false /\ (x = "await-" +:+ wp_ID wp \/ x = "publish-" +:+ wp_ID wp)).
Proof.
  unfold names. destruct (IsVerification wp); rewrite ?elem_of_cons, elem_of_nil; intuition congruence.
Qed.

Lemma finishing_in wp : finishing wp ∈ names wp.
Proof. apply elem_of_names. unfold finishing. destruct (IsVerification wp); auto. Qed.

Lemma names_ids wp wp' x : x ∈ names wp -> x ∈ names wp' -> wp_ID wp = wp_ID wp'.
Proof.
  rewrite !elem_of_names. intros [[_ ->]|[_ [-> | ->]]] [[_ E]|[_ [E|E]]]; try done; by injection E.
Qed.

Lemma names_nodup l : NoDup (wp_ID <$> l) -> NoDup (l ≫= names).
Proof.
  induction l as [|wp l IH]; [constructor|]. rewrite fmap_cons, NoDup_cons, bind_cons, NoDup_app. intros [Hn Hnd].
  split_and!; [|intros x Hx (wp' & Hx' & Hin)%list_elem_of_bind|by apply IH].
  - unfold names. destruct (IsVerification wp); [apply NoDup_singleton|]. apply NoDup_cons. split; [|apply NoDup_singleton].
    by intros E%list_elem_of_singleton.
  - apply Hn. rewrite (names_ids wp wp' x) by done. by apply list_elem_of_fmap_2.
Qed.

Definition no_collision (l : list WorkPackage) : Prop :=
  forall wp, wp ∈ l -> IsVerification wp = false -> wp_ID wp <> "projection".

Lemma run_names_nodup l :
  NoDup (wp_ID <$> l) ->
  NoDup (["city-up"; "dispatch"] ++ (l ≫= names) ++ ["project"; "publish-projection"]) <-> no_collision l.
Proof.
  intros Hnd. rewrite !NoDup_app. split.
  - intros (_ & _ & _ & Hd & _) wp Hin Hv E. apply (Hd "publish-projection"); [|set_solver].
    apply list_elem_of_bind. exists wp. split; [|done]. apply elem_of_names. right. rewrite E. auto.
  - intros Hc. split_and!.
    + by apply (bool_decide_unpack _).
    + intros x Hx [(wp & Hn & _)%list_elem_of_bind|Ht]%elem_of_app.
      * rewrite elem_of_names in Hn. rewrite !elem_of_cons, elem_of_nil in Hx.
        destruct Hx as [->|[->|[]]], Hn as [[_ E]|[_ [E|E]]]; done.
      * rewrite !elem_of_cons, elem_of_nil in *. destruct Hx as [->|[->|[]]], Ht as [E|[E|[]]]; done.
    + by apply names_nodup.
    + intros x (wp & Hn & Hin)%list_elem_of_bind Ht. rewrite elem_of_names in Hn. rewrite !elem_of_cons, elem_of_nil in Ht.
      destruct Ht as [->|[->|[]]], Hn as [[Hv E]|[Hv [E|E]]]; try done. injection E as E. by apply (Hc wp).
    + by apply (bool_decide_unpack _).
Qed.

(** * The tasks *)

Lemma package_in_order seen wp :
  "dispatch" ∈ seen -> (IsVerification wp = false -> Forall (fun dep => "publish-" +:+ dep ∈ seen) (wp_DependsOn wp)) ->
  in_order seen (package_tasks i h wp).
Proof.
  intros Hd Hdeps. unfold package_tasks. destruct (IsVerification wp); cbn.
  - by rewrite Forall_singleton.
  - specialize (Hdeps eq_refl). split_and!; [|constructor|]; [constructor; [done|]|set_solver| |done];
      apply Forall_fmap; (eapply Forall_impl; [exact Hdeps|]); intros dep Hdep; cbn; [done|apply elem_of_app; by left].
Qed.

Lemma packages_in_order l seen :
  "dispatch" ∈ seen ->
  (forall l1 wp l2 dep, l = l1 ++ wp :: l2 -> IsVerification wp = false -> dep ∈ wp_DependsOn wp ->
     "publish-" +:+ dep ∈ l1 ≫= names) ->
  in_order seen (l ≫= package_tasks i h).
Proof.
  intros Hd. induction l as [|wp l IH] using rev_ind; intros Hup; [done|]. rewrite bind_app, in_order_app. split.
  - apply IH. intros l1 w l2 dep ->. apply (Hup l1 w (l2 ++ [wp])). by rewrite <- app_assoc.
  - rewrite bind_cons, packages_names. cbn. rewrite app_nil_r. apply package_in_order; [set_solver|]. intros Hv.
    apply Forall_forall. intros dep Hdep. apply elem_of_app. right. by apply (Hup l wp []).
Qed.

(** A dependency is published by the tasks of an earlier package. *)
Lemma upstream_published all out l1 wp l2 dep :
  out ≡ₚ all -> NoDup (wp_ID <$> all) -> needs_ok all -> after_upstream all out ->
  out = l1 ++ wp :: l2 -> dep ∈ wp_DependsOn wp -> "publish-" +:+ dep ∈ l1 ≫= names.
Proof.
  intros Hp Hnd Hneeds Ha E Hd. assert (wp ∈ all) as Hin by (rewrite <- Hp, E; set_solver).
  destruct (Hneeds wp dep Hin Hd) as (_ & up & Hup & <- & Hv).
  destruct (proj1 (list_elem_of_fmap _ _ _) (Ha l1 wp l2 _ E Hd (list_elem_of_fmap_2 _ _ _ Hup))) as (w & Ew & Hw).
  apply list_elem_of_bind. exists w. split; [|done]. apply elem_of_names. right. rewrite Ew. split; [|by right].
  assert (w = up) as ->; [|done]. assert (w ∈ all) as Hwa by (rewrite <- Hp, E; set_solver).
  pose proof (proj2 (by_id_spec all Hnd (wp_ID up) up) (conj Hup eq_refl)).
  pose proof (proj2 (by_id_spec all Hnd (wp_ID up) w) (conj Hwa (eq_sym Ew))). congruence.
Qed.

Lemma run_plan_names p runID out :
  tk_ID <$> pl_Tasks (run_plan i p h runID out) = ["city-up"; "dispatch"] ++ (out ≫= names) ++ ["project"; "publish-projection"].
Proof. unfold run_plan. cbn [pl_Tasks]. by rewrite !fmap_app, packages_names. Qed.

Lemma run_plan_in_order p runID out :
  out ≡ₚ AllPackages p -> NoDup (wp_ID <$> AllPackages p) -> needs_ok (AllPackages p) -> after_upstream (AllPackages p) out ->
  in_order [] (pl_Tasks (run_plan i p h runID out)).
Proof.
  intros Hp Hnd Hneeds Ha. unfold run_plan. cbn [pl_Tasks]. rewrite !in_order_app, packages_names. split_and!.
  - cbn. split_and!; [constructor|apply Forall_singleton; set_solver|done].
  - apply packages_in_order; [set_solver|]. intros l1 wp l2 dep E _ Hd. by eapply upstream_published.
  - cbn. split_and!; [|apply Forall_singleton; set_solver|done]. apply Forall_fmap, Forall_forall. intros wp Hin. cbn.
    do 2 right. apply list_elem_of_bind. exists wp. split; [apply finishing_in|by rewrite Hp].
Qed.

Lemma run_plan_tasks p runID out :
  Forall (fun t => blank (tk_ID t) = false /\ tk_Argv t <> [] /\ band_Valid (tk_Band t) = true)
    (pl_Tasks (run_plan i p h runID out)).
Proof.
  unfold run_plan. cbn [pl_Tasks]. rewrite !Forall_app. split_and!.
  1,3: repeat constructor; by vm_compute.
  apply Forall_bind, Forall_forall. intros wp _. unfold compose, package_tasks.
  destruct (IsVerification wp);
    repeat first [apply List.Forall_nil | apply List.Forall_cons; [split_and!; [by apply visible_not_blank|done|done]|]].
Qed.

Lemma run_plan_ok p runID out :
  out ≡ₚ AllPackages p -> NoDup (wp_ID <$> AllPackages p) -> needs_ok (AllPackages p) -> after_upstream (AllPackages p) out ->
  plan_ok (run_plan i p h runID out) <-> no_collision (AllPackages p).
Proof.
  intros Hp Hnd Hneeds Ha. assert (NoDup (wp_ID <$> out)) as Hout by by rewrite Hp.
  assert (no_collision (AllPackages p) <-> no_collision out) as -> by (unfold no_collision; by setoid_rewrite Hp).
  rewrite <- (run_names_nodup out Hout), <- (run_plan_names p runID out). split; [by intros []|].
  intros Hn. apply in_order_ok; [done|apply run_plan_tasks|by apply run_plan_in_order|done].
Qed.

(** * The specification *)

Record host_ok : Prop := {
  ho_root : blank (hp_DeliveryRoot h) = false;
  ho_driver : blank (hp_Driver h) = false;
  ho_provider : blank (hp_Provider h) = false
}.

Lemma host_Validate_ok : host_Validate h = None <-> host_ok.
Proof.
  transitivity (host_missing h = []); [unfold host_Validate; by destruct (host_missing h)|].
  unfold host_missing. rewrite !app_nil, !problem_if_nil. split; [by intros (? & ? & ?)|by intros []].
Qed.

Lemma id_char_plain s : all_bytes id_char s = true -> has_byte "/" s = false.
Proof.
  induction s as [|c s IH]; cbn; [done|]. intros [Hc Hs]%andb_prop. rewrite (IH Hs), orb_false_r.
  apply Ascii.eqb_neq. intros ->. by vm_compute in Hc.
Qed.

Lemma IDPattern_name s : IDPattern s = true -> plain_name s /\ visible s = true.
Proof.
  unfold IDPattern. destruct s as [|c s]; [done|]. intros [[[Hc Hs]%andb_prop Hl]%andb_prop _]%andb_prop.
  assert (has_byte "/" (String c s) = false /\ c <> "."%char) as [Hb Hd].
  { split; [|intros ->; by vm_compute in Hc]. cbn. rewrite (id_char_plain s Hs), orb_false_r. apply Ascii.eqb_neq.
    intros ->. by vm_compute in Hc. }
  split; [split_and!; [done|done|congruence|congruence]|]. cbn [visible]. apply orb_true_iff. left.
  unfold id_start, is_lower, is_digit in Hc. lia.
Qed.

Lemma Join_not_blank a w : plain_name w -> visible w = true -> blank (filepath_Join [a; w]) = false.
Proof.
  intros Hw Hv. destruct (filepath_Join_ends a w Hw) as [pre ->]. apply visible_not_blank. by rewrite visible_app, Hv, orb_true_r.
Qed.

Lemma command_or_not_blank a b : blank b = false -> blank (command_or a b) = false.
Proof. intros Hb. unfold command_or. by destruct (blank a) eqn:E. Qed.

Lemma boundary_problems_ok l : forall n seen,
  Forall (fun b => blank (kb_ID b) = false /\ blank (kb_Action b) = false /\ kb_ID b ∉ seen) l -> NoDup (kb_ID <$> l) ->
  boundary_problems n seen l = [].
Proof.
  induction l as [|b l IH]; intros n seen; cbn [boundary_problems]; [done|].
  rewrite Forall_cons, fmap_cons, NoDup_cons. intros [(Hb & Ha & Hs) Hl] [Hn Hnd]. rewrite Hb, Ha, bool_decide_false by done. cbn.
  apply IH; [|done]. rewrite Forall_forall in *. intros x Hx. destruct (Hl x Hx) as (? & ? & ?). split_and!; [done|done|].
  intros [E%elem_of_singleton|?]%elem_of_union; [|done]. apply Hn. rewrite <- E. by apply list_elem_of_fmap_2.
Qed.

Lemma acceptanceBoundaries_ok n : NoDup (cr_ID <$> in_Acceptance i) -> boundary_problems n ∅ (acceptanceBoundaries i) = [].
Proof.
  intros Hnd. unfold acceptanceBoundaries. apply boundary_problems_ok.
  - apply Forall_fmap, Forall_forall. intros c _. split_and!; [by apply visible_not_blank..|apply not_elem_of_empty].
  - rewrite <- list_fmap_compose.
    assert (NoDup (cr_ID <$> List.filter IsHuman (in_Acceptance i))) as Hf.
    { clear -Hnd. induction (in_Acceptance i) as [|c l IH]; [done|]. rewrite fmap_cons, NoDup_cons in Hnd.
      destruct Hnd as [Hc Hl]. cbn. destruct (IsHuman c); [|by apply IH]. rewrite fmap_cons, NoDup_cons. split; [|by apply IH].
      intros (d & E & [Hd _]%list_elem_of_In%filter_In)%list_elem_of_fmap. apply Hc. rewrite E.
      by apply list_elem_of_fmap_2, list_elem_of_In. }
    change (kb_ID ∘ _) with (fun c => acceptanceBoundaryPrefix +:+ cr_ID c).
    rewrite (list_fmap_compose cr_ID (fun x => acceptanceBoundaryPrefix +:+ x)). apply NoDup_fmap_2; [|done].
    intros x y. apply string_app_inj_l.
Qed.

Lemma ResolveCheckout_not_blank p : blank p = false -> blank (ResolveCheckout h p) = false.
Proof.
  intros Hp. unfold ResolveCheckout. destruct (windowsDrive p) as [[c rest]|]; [|done]. destruct (String.eqb _ _); [done|].
  by apply visible_not_blank.
Qed.

Lemma each_path_ok l : forall n,
  Forall (fun q => blank (pr_Path q) = false /\ pr_Kind q = PathDir) l -> each_problem path_problems n l = [].
Proof.
  induction l as [|q l IH]; intros n; cbn [each_problem]; [done|]. rewrite Forall_cons. intros [[Hb Hk] Hl].
  rewrite IH by done. unfold path_problems. rewrite Hb, Hk, andb_comm. done.
Qed.

Lemma tool_dirs_not_blank dir : dir ∈ tool_dirs h -> blank dir = false.
Proof.
  intros [(raw & -> & _)%list_elem_of_In%list_elem_of_fmap Hne]%list_elem_of_In%filter_In. apply trimmed_not_blank.
  by apply negb_true_iff, String.eqb_neq in Hne.
Qed.

Lemma run_spec_ok : intent_ok i -> host_ok -> spec_Validate (run_spec i h) = None.
Proof.
  intros Hi Hh. destruct (IDPattern_name _ (io_project i Hi)) as [Hpid Hvis].
  assert (blank (in_ProjectID i) = false) as Hb by by apply visible_not_blank.
  assert (blank (ProjectDir h (in_ProjectID i)) = false) as Hd by by apply Join_not_blank.
  assert (blank (StateDir h (in_ProjectID i)) = false) as Hs by (apply Join_not_blank; [by split_and!|done]).
  assert (blank (ResolveCheckout h (in_Checkout i)) = false) as Hw by by apply ResolveCheckout_not_blank, Hi.
  assert (blank ("managed-delivery-" +:+ in_ProjectID i) = false) as Hm by by apply visible_not_blank.
  assert (Contains (rg_Slug (in_Repository i)) "/" = true) as Hslug.
  { destruct (io_agrees i Hi) as (owner & name & ? & Hsl & _). by eapply splitSlug_slash. }
  destruct Hh as [Hr Hdr Hp].
  assert (spec_problems (run_spec i h) = []) as E; [|unfold spec_Validate; by rewrite E].
  unfold spec_problems, run_spec. cbn [sp_ProjectID sp_StateDir sp_Ownership sp_Tools sp_Paths sp_Env sp_Ports sp_Commands
    sp_Credentials sp_QA sp_GitHub sp_Boundaries sp_Classification os_ProjectID gh_Repo RequireGates].
  rewrite !app_nil. split_and!.
  - by rewrite Hb.
  - by rewrite Hs.
  - unfold ownership_problem. cbn [os_ProjectID os_Worktree os_Session os_Role os_ExpectedBranch]. by rewrite Hb, Hw, Hm, (io_branch i Hi).
  - by rewrite String.eqb_refl, !andb_false_r.
  - apply (each_problem_nil _ (fun t => blank (tr_Name t) = false)); [intros; apply problem_if_nil|].
    repeat (apply List.Forall_cons; [cbn; try apply command_or_not_blank; done|]). constructor.
  - apply each_path_ok. apply Forall_app. split; [by repeat constructor|]. apply Forall_fmap, Forall_forall.
    intros dir Hdir. split; [|done]. by apply tool_dirs_not_blank.
  - done.
  - done.
  - done.
  - done.
  - done.
  - by rewrite Hslug.
  - apply acceptanceBoundaries_ok, Hi.
  - done.
Qed.

(** (C7) Compile always returns.  It produces a run exactly when the intent can govern one,
    the plan is safe against it, the host names its root, driver and provider, the run has
    an id, and no live package that publishes is named projection, whose publication would
    share the name of the task that publishes the projection.  Nothing else can make the
    unattended layer refuse what was compiled: its plan and its specification are valid. *)
Theorem Compile_exact p runID :
  Compile i p h runID <> None
  /\ ((exists s w, Compile i p h runID = Some (Ok (s, w)))
      <-> intent_ok i /\ plan_lawful i p /\ host_ok /\ blank runID = false /\ no_collision (AllPackages p)).
Proof.
  unfold Compile. pose proof (intent_Validate_ok i) as Hi. pose proof (delivery_Validate_ok i p) as Hp.
  pose proof host_Validate_ok as Hh. destruct (intent_Validate i) as [e|].
  { split; [done|]. split; [by intros (? & ? & ?)|]. intros (?%Hi & _). done. }
  destruct (delivery_Validate i p) as [e|].
  { split; [done|]. split; [by intros (? & ? & ?)|]. intros (_ & ?%Hp & _). done. }
  destruct (host_Validate h) as [e|].
  { split; [done|]. split; [by intros (? & ? & ?)|]. intros (_ & _ & ?%Hh & _). done. }
  destruct (blank runID).
  { split; [done|]. split; [by intros (? & ? & ?)|]. by intros (_ & _ & _ & ? & _). }
  apply proj1 in Hi, Hp, Hh. specialize (Hi eq_refl). specialize (Hp eq_refl). specialize (Hh eq_refl).
  destruct (orderPackages_spec p (sf_distinct _ _ Hp) (sf_acyclic _ _ Hp)) as (out & -> & Hperm & Ha).
  pose proof (run_plan_ok p runID out Hperm (sf_distinct _ _ Hp) (sf_needs _ _ Hp) Ha) as Hok.
  rewrite <- plan_Validate_ok in Hok. rewrite run_spec_ok by done.
  destruct (plan_Validate (run_plan i p h runID out)) as [e|].
  - split; [done|]. split; [by intros (? & ? & ?)|]. intros (_ & _ & _ & _ & ?%Hok). done.
  - split; [done|]. split; [intros _; split_and!; try done; by apply Hok|]. intros _. by eexists _, _.
Qed.

End compile.

#[local] Existing Instance plain_tables.
#[local] Instance no_urls : UrlParser := {| url_Parse := fun _ => inr "" |}.

Definition a_host : HostProfile := mkHost "/srv/delivery" "/opt/driver" "" "" "" "claude" "" [] "/mnt".

(** A package that may be called projection by the rules for plans, and that Compile
    refuses. *)
Theorem projection_package_refused :
  let p := a_delivery [a_package "projection" []] in
  delivery_Validate one_intent p = None
  /\ match Compile one_intent p a_host "run-1" with Some (Err _) => True | _ => False end
  /\ match Compile one_intent (a_delivery [a_package "projector" []]) a_host "run-1" with Some (Ok _) => True | _ => False end.
Proof. split; [vm_compute; reflexivity|]. split; vm_compute; exact I. Qed.
