(* ===== verification/HandPlanner.v ===== *)
(** Planning a delivery (internal/handoff/planner.go): the prompt, the extraction of a plan
    from the reply of a planning agent, the attempts, and the plan made once and kept.  The
    agent is a process that answers each attempt; decoding a plan from JSON and the text
    of an error are parameters.  A plan is recovered from the prose or the fence
    of a reply and never repaired, and a delivery plans once and keeps what it planned. *)
From Stdlib Require Import Ascii.
From S2P Require Import Prelude GoStd RunFailure RunQA RunController RunSpec HandIntent HandPlan.
From S2P Require Import HandCover HandPlanProps HandRecord HandState HandReconcile HandReconcileProps HandText.

Definition ErrPlannerFailed : error := errmsg "handoff: planning failed" [].

(** * The prompt *)

(** A quotation mark is written @ in the constants below. *)
Definition quoted (s : string) : string :=
  map_bytes (fun c => if Ascii.eqb c "@" then ascii_of_N 34 else c) s.

Definition eol : string := bytes [10].

(** strings.ReplaceAll of a newline by one that indents. *)
Fixpoint indent_lines (s : string) : string :=
  match s with
  | EmptyString => ""
  | String c s' => (if Ascii.eqb c (ascii_of_N 10) then eol +:+ "  " else String c "") +:+ indent_lines s'
  end.

Definition required_behavior : string := quoted "
REQUIRED BEHAVIOR

  A criterion with a MUST COVER line states behaviors the plan is measured
  against, not suggestions. For each one, the packages that claim that
  criterion must TOGETHER name every listed behavior in their title,
  objective, artifact or gates, and at least one of them must declare a gate
  that proves it. A behavior written as @a|b@ is satisfied by either spelling;
  write whichever you mean.

  You may split the criterion across packages, reorder them and choose your own
  words for everything else. You may not drop a behavior: a plan missing one is
  rejected and names exactly which.
".

Definition output_shape : string := quoted "
OUTPUT SHAPE

{
  @schemaVersion@: 1,
  @projectId@: @<exactly the project id above>@,
  @plannedBy@: @planner@,
  @plannedAt@: @<RFC3339 UTC timestamp>@,
  @packages@: [
    {
      @id@: @wp-<short-kebab-name>@,
      @title@: @<one line>@,
      @phase@: @<one of the lifecycle phases above, verbatim>@,
      @objective@: @<what a coding agent must do, in full sentences>@,
      @artifact@: @<the one repository-relative file this package must produce>@,
      @authorizedPaths@: [@<every repository-relative path this package may create or change>@],
      @gates@: [@<the exact commands the worker must run to verify this package>@],
      @dependsOn@: [@<ids of packages that must be MERGED first>@],
      @satisfies@: [@<acceptance criterion ids this package delivers>@]
    }
  ]
}

RULES — a plan breaking any of these is rejected and you will be asked again.

 1. Every acceptance criterion above must be satisfied by at least one package,
    EXCEPT one marked @ACCEPTED BY A PERSON@. A criterion nothing addresses
    means the project can never complete.
 1a. A criterion marked @ACCEPTED BY A PERSON@ must appear in NO package's
    satisfies list. A package may produce the record that person reads - a
    release note, a sample output, a sign-off sheet left blank - and may
    never claim their answer. Listing one is rejected.
 2. authorizedPaths must list EVERY file the package will create or change,
    including its tests. A worker may not touch anything outside its list, so a
    missing path means the work is thrown away at publication.
 3. artifact must be one of that package's own authorizedPaths.
 4. No two packages may authorize the same path. Two workers writing one file is
    a collision, not a plan. Split the work so each file has one owner.
 5. Paths are repository-relative. No leading slash, no @..@, no drive letters.
 6. You may not authorize anything under .git/, .github/workflows/ or
    delivery/gascity/. A package that could edit the workflow judging it could
    make its own gate pass.
 7. dependsOn is for work that genuinely cannot start until another package has
    MERGED — for example, code that imports a module another package creates.
    Do not serialize work that could run in parallel. There must be no cycles.
 8. Prefer few, genuinely independent packages. Each one costs a worker, a
    branch, a pull request and a CI run.
 9. objective is read by a coding agent with no other context. State what to
    create, what it must export or contain, and how it will be verified.
10. Every id matches ^[a-z0-9][a-z0-9-]{1,63}$.
11. gates are the ONLY commands the worker will be permitted to run, so any
    verification you state in the objective must appear here or the worker
    cannot perform it. List the real commands, one per entry, exactly as they
    would be typed — for example @npm install@ then @npm run verify@. Each must
    begin with a project build or test runner (npm, pnpm, yarn, node, go, make,
    cargo, mvn, gradle, python, python3, pytest, ruff, tsc, eslint, vitest,
    jest, dotnet). No shell syntax: no &&, |, ;, quotes, redirects or
    substitutions, and no paths — one command per entry. git, gh, npx, curl,
    bash and sudo are refused: publication is the controller's authority, never
    the worker's. At most 8 per package.
".

Definition criterion_line (c : Criterion) : string :=
  if IsHuman c then "  " +:+ cr_ID c +:+ ": " +:+ cr_Statement c +:+ " [ACCEPTED BY A PERSON - do not claim it]" +:+ eol
  else "  " +:+ cr_ID c +:+ ": " +:+ cr_Statement c +:+ eol
       +:+ match cr_MustCover c with
           | [] => ""
           | bs => "      MUST COVER: " +:+ join_with " | " bs +:+ eol
           end.

Definition any_must_cover (cs : list Criterion) : bool :=
  existsb (fun c => negb (IsHuman c) && negb (bool_decide (cr_MustCover c = []))) cs.

Definition PlanPrompt (i : Intent) : string :=
  "You are planning the delivery of a software project." +:+ eol +:+ eol
  +:+ "Return ONE JSON object and nothing else. No prose, no markdown fence." +:+ eol +:+ eol
  +:+ "PROJECT" +:+ eol
  +:+ "  id:         " +:+ in_ProjectID i +:+ eol
  +:+ "  repository: " +:+ rg_Slug (in_Repository i) +:+ " (default branch " +:+ rg_DefaultBranch (in_Repository i) +:+ ")" +:+ eol
  +:+ "  lifecycle:  " +:+ join_with ", " (in_Lifecycle i) +:+ eol
  +:+ eol +:+ "OBJECTIVE" +:+ eol +:+ "  " +:+ indent_lines (in_Objective i)
  +:+ eol +:+ eol +:+ "ACCEPTANCE CRITERIA" +:+ eol
  +:+ join_with "" (criterion_line <$> in_Acceptance i)
  +:+ (if any_must_cover (in_Acceptance i) then required_behavior else "")
  +:+ output_shape.

(** * The plan in a reply *)

Definition fence_mark : string := "```".

(** What stands between the first fence, the rest of its line left out, and the next. *)
Definition unfenced (s : string) : string :=
  match Index s fence_mark with
  | None => s
  | Some n =>
      let rest := drop_bytes (n + 3) s in
      let rest := match Index rest eol with Some nl => drop_bytes (nl + 1) rest | None => rest end in
      match Index rest fence_mark with
      | Some fin => TrimSpace (String.substring 0 fin rest)
      | None => s
      end
  end.

(** The scan from the opening brace: the bytes of the object so far, last first. *)
Fixpoint scan (depth : Z) (inString escaped : bool) (acc : string) (s : string) : option string :=
  match s with
  | EmptyString => None
  | String c s' =>
      let acc := String c acc in
      if escaped then scan depth inString false acc s'
      else if Ascii.eqb c (ascii_of_N 92) && inString then scan depth inString true acc s'
      else if Ascii.eqb c (ascii_of_N 34) then scan depth (negb inString) false acc s'
      else if inString then scan depth inString false acc s'
      else if Ascii.eqb c "{" then scan (depth + 1) inString false acc s'
      else if Ascii.eqb c "}" then
        if depth - 1 =? 0 then Some (string_rev acc) else scan (depth - 1) inString false acc s'
      else scan depth inString false acc s'
  end.

Definition ExtractPlanJSON (reply : string) : res string :=
  let s := TrimSpace reply in
  if String.eqb s "" then Err (Errorf "%w: the planner returned nothing" [] [ErrPlannerFailed])
  else
    let s := unfenced s in
    match Index s "{" with
    | None => Err (Errorf "%w: the planner's reply contains no JSON object" [] [ErrPlannerFailed])
    | Some start =>
        match scan 0 false false "" (drop_bytes start s) with
        | Some raw => Ok raw
        | None => Err (Errorf "%w: the planner's JSON object is not balanced" [] [ErrPlannerFailed])
        end
    end.

(** * The agent *)

Definition firstMeaningfulLine (stdout stderr : string) : string :=
  match List.filter (fun l => negb (String.eqb l ""))
          (TrimSpace <$> split_on (ascii_of_N 10) stderr ++ split_on (ascii_of_N 10) stdout) with
  | l :: _ => l
  | [] => "it produced no output at all"
  end.

(** How the process of one attempt ended. *)
Inductive Reply : Type :=
| Answered (stdout : string)
| Exited (code : Z) (stdout stderr : string)
| NotRun (e : error).

Definition ask (r : Reply) : res string :=
  match r with
  | Answered out => Ok out
  | Exited code out err =>
      Err (Errorf "%w: the planning agent exited %d: %s" [Itoa code; firstMeaningfulLine out err] [ErrPlannerFailed])
  | NotRun e => Err (Errorf "%w: running the planning agent: %w" [] [ErrPlannerFailed; e])
  end.

Record AgentPlanner : Type := mkPlanner { ap_Command : string; ap_Attempts : Z }.

Section planner.
Context `{GoTables} (decode_plan : string -> DeliveryPlan + string) (error_text : error -> string).

Definition DecodePlan (raw : string) (i : Intent) : res DeliveryPlan :=
  match decode_plan raw with
  | inr e => Err (Errorf "%w: %w" [e] [ErrPlanInvalid])
  | inl p =>
      let p := with_remediations [] p in
      match delivery_Validate i p with Some e => Err e | None => Ok p end
  end.

Definition stamped_plan (command : string) (now : Z) (p : DeliveryPlan) : DeliveryPlan :=
  mkDeliveryPlan (pn_SchemaVersion p) (pn_ProjectID p)
    (if blank (pn_PlannedBy p) then "agent:" +:+ command else pn_PlannedBy p)
    (if IsZero (pn_PlannedAt p) then now else pn_PlannedAt p) (pn_Packages p) (pn_Remediations p) (pn_Provisional p).

(** The loop over the attempts left: what the agent answers to the prompt of an attempt,
    the last error, and the prompts asked so far. *)
Fixpoint plan_attempts (agent : nat -> string -> Reply) (i : Intent) (command : string) (now : Z) (left : nat) (attempt : nat)
    (prompt : string) (lastErr : list error) : res DeliveryPlan + list error :=
  match left with
  | O => inr lastErr
  | S left' =>
      match ask (agent attempt prompt) with
      | Err e => plan_attempts agent i command now left' (S attempt) prompt [e]
      | Ok reply =>
          match ExtractPlanJSON reply with
          | Err e =>
              plan_attempts agent i command now left' (S attempt)
                (PlanPrompt i +:+ eol +:+ "Your previous reply was rejected: " +:+ error_text e +:+ eol
                 +:+ "Return ONE JSON object and nothing else." +:+ eol) [e]
          | Ok raw =>
              match DecodePlan raw i with
              | Err e =>
                  plan_attempts agent i command now left' (S attempt)
                    (PlanPrompt i +:+ eol +:+ "Your previous plan was rejected by the validator:" +:+ eol +:+ "  " +:+ error_text e
                     +:+ eol +:+ "Correct exactly that and return the whole JSON object again." +:+ eol) [e]
              | Ok plan => inl (Ok (stamped_plan command now plan))
              end
          end
      end
  end.

Definition planner_attempts (p : AgentPlanner) : Z := if ap_Attempts p <=? 0 then 2 else ap_Attempts p.

(** AgentPlanner.Plan; the time limit of a call is in what the agent answers. *)
Definition agent_Plan (p : AgentPlanner) (agent : nat -> string -> Reply) (i : Intent) (now : Z) : res DeliveryPlan :=
  if blank (ap_Command p) then Err (Errorf "%w: no planning agent is configured" [] [ErrPlannerFailed])
  else
    match plan_attempts agent i (ap_Command p) now (Z.to_nat (planner_attempts p)) 1 (PlanPrompt i) [] with
    | inl r => r
    | inr lastErr =>
        Err (Errorf "%w after %d attempt(s): %w" [Itoa (planner_attempts p)] (ErrPlannerFailed :: lastErr))
    end.

(** StaticPlanner.Plan *)
Definition static_Plan (raw : string) (i : Intent) : res DeliveryPlan :=
  match DecodePlan raw i with
  | Err e => Err (Errorf "%w: %w" [] [ErrPlannerFailed; e])
  | Ok p => Ok p
  end.

(** EnsurePlan with the planner's answer, which is only asked for when there is no plan. *)
Definition EnsurePlan `{Docs} (d : Delivery) (i : Intent) (planner : unit -> res DeliveryPlan)
  : Delivery * res (DeliveryPlan * bool) :=
  match LoadPlan d i with
  | Err e => (d, Err e)
  | Ok (Some existing) => (d, Ok (existing, false))
  | Ok None =>
      match planner tt with
      | Err e => (d, Err e)
      | Ok plan =>
          match SavePlan d plan with
          | (d', Some e) => (d', Err e)
          | (d', None) => (d', Ok (plan, true))
          end
      end
  end.

End planner.

(** * JSON text *)

(** Bytes that neither open nor close anything. *)
Definition neutral (c : ascii) : bool :=
  negb (Ascii.eqb c (ascii_of_N 34)) && negb (Ascii.eqb c "{") && negb (Ascii.eqb c "}").

(** The inside of a JSON string: a backslash takes the byte after it along. *)
Inductive chars : string -> Prop :=
| chars_nil : chars ""
| chars_plain c s : c <> ascii_of_N 34 -> c <> ascii_of_N 92 -> chars s -> chars (String c s)
| chars_escape c s : chars s -> chars (String (ascii_of_N 92) (String c s)).

(** What can stand inside an object: bytes that are neutral, strings, and objects. *)
Inductive text : string -> Prop :=
| text_nil : text ""
| text_byte c s : neutral c = true -> text s -> text (String c s)
| text_string s t : chars s -> text t -> text (String (ascii_of_N 34) (s +:+ String (ascii_of_N 34) t))
| text_object s t : text s -> text t -> text (String "{" (s +:+ String "}" t)).

Lemma scan_chars depth s : chars s -> forall acc rest,
  scan depth true false acc (s +:+ String (ascii_of_N 34) rest)
  = scan depth false false (String (ascii_of_N 34) (string_rev s +:+ acc)) rest.
Proof.
  induction 1 as [|c s Hq Hb _ IH|c s _ IH]; intros acc rest.
  - done.
  - rewrite string_app_cons. cbn [scan]. apply Ascii.eqb_neq in Hq, Hb. rewrite Hb, Hq. cbn [andb negb]. rewrite IH.
    by rewrite <- !rev_app_string.
  - rewrite !string_app_cons. cbn [scan]. rewrite Ascii.eqb_refl. cbn [andb]. rewrite IH. by rewrite <- !rev_app_string.
Qed.

Lemma string_rev_mid a s b t acc :
  string_rev (String a (s +:+ String b t)) +:+ acc = string_rev t +:+ String b (string_rev s +:+ String a acc).
Proof.
  change (String a (s +:+ String b t)) with (String a "" +:+ (s +:+ (String b "" +:+ t))).
  rewrite !string_rev_app, <- !string_app_assoc. done.
Qed.

Lemma scan_text s : text s -> forall depth acc rest, 0 < depth ->
  scan depth false false acc (s +:+ rest) = scan depth false false (string_rev s +:+ acc) rest.
Proof.
  induction 1 as [|c s Hc _ IH|s t Hs _ IH|s t _ IHs _ IHt]; intros depth acc rest Hd.
  - done.
  - rewrite string_app_cons. cbn [scan]. unfold neutral in Hc. rewrite andb_false_r.
    apply andb_prop in Hc as [[Hq%negb_true_iff Ho%negb_true_iff]%andb_prop Hcl%negb_true_iff].
    rewrite Hq, Ho, Hcl, IH by done. by rewrite <- !rev_app_string.
  - rewrite string_app_cons, <- string_app_assoc, string_app_cons, string_rev_mid. cbn [scan]. rewrite andb_false_r, Ascii.eqb_refl.
    cbn [negb]. rewrite scan_chars by done. by apply IH.
  - rewrite string_app_cons, <- string_app_assoc, string_app_cons, string_rev_mid.
    change (scan depth false false acc (String "{" (s +:+ String "}" (t +:+ rest))))
      with (scan (depth + 1) false false (String "{" acc) (s +:+ String "}" (t +:+ rest))).
    rewrite IHs by lia. change (scan (depth + 1) false false ?a (String "}" ?r)) with
      (if depth + 1 - 1 =? 0 then Some (string_rev (String "}" a)) else scan (depth + 1 - 1) false false (String "}" a) r).
    rewrite Z.add_simpl_r. destruct (Z.eqb_spec depth 0); [lia|]. by apply IHt.
Qed.

(** An object. *)
Definition object (s : string) : string := String "{" (s +:+ "}").

Lemma scan_object s rest : text s -> scan 0 false false "" (object s +:+ rest) = Some (object s).
Proof.
  intros Hs. unfold object. rewrite string_app_cons, <- string_app_assoc.
  change (scan 0 false false "" (String "{" (s +:+ "}" +:+ rest))) with (scan 1 false false "{" (s +:+ "}" +:+ rest)).
  rewrite scan_text by done. change (scan 1 false false ?a ("}" +:+ rest)) with (Some (string_rev (String "}" a))).
  f_equal. rewrite <- (string_rev_involutive (String "{" (s +:+ "}"))). f_equal.
  change (String "{" (s +:+ "}")) with ("{" +:+ (s +:+ "}")). rewrite !string_rev_app. done.
Qed.

(** * Finding the object *)

Lemma Index_first c m pre rest :
  has_byte c pre = false -> Index (pre +:+ String c m +:+ rest) (String c m) = Some (String.length pre).
Proof.
  induction pre as [|d pre IH]; cbn [has_byte].
  - intros _. rewrite string_app_nil_l. pose proof (HasPrefix_app (String c m) rest) as E.
    rewrite string_app_cons in *. cbn [Index]. by rewrite E.
  - intros [Hd Hp]%orb_false_iff. rewrite string_app_cons. cbn [Index String.length]. rewrite IH by done.
    destruct (HasPrefix (String d (pre +:+ String c m +:+ rest)) (String c m)) eqn:E; [|done].
    apply HasPrefix_spec in E as [r E]. rewrite string_app_cons in E. injection E as -> _. by rewrite Ascii.eqb_refl in Hd.
Qed.

Lemma drop_bytes_app a b : drop_bytes (String.length a) (a +:+ b) = b.
Proof. induction a as [|c a IH]; [by destruct b|done]. Qed.

(** Trimming stops at a byte that is no space. *)
Lemma no_visible_prefix r pre c rest :
  visible r = false -> visible (String c "") = true -> (exists t, pre +:+ String c rest = r +:+ t) -> exists pre', pre = r +:+ pre'.
Proof.
  intros Hr Hc. revert pre. induction r as [|d r IH]; intros pre [t E]; [by exists pre|].
  cbn [visible] in Hr. apply orb_false_iff in Hr as [Hd Hr]. destruct pre as [|e pre].
  - injection E as -> _. cbn [visible] in Hc. rewrite Hd in Hc. done.
  - rewrite !string_app_cons in E. injection E as -> E. destruct (IH Hr pre) as [pre' ->]; [by exists t|]. by exists pre'.
Qed.

Lemma trim_left_keeps runes fuel c rest : forall pre,
  Forall (fun r => visible r = false) runes -> visible (String c "") = true ->
  exists pre', trim_left fuel runes (pre +:+ String c rest) = pre' +:+ String c rest /\ exists cut, pre = cut +:+ pre'.
Proof.
  induction fuel as [|fuel IH]; intros pre Hr Hc; cbn; [exists pre; split; [done|by exists ""]|].
  destruct (strip_space runes (pre +:+ String c rest)) as [t|] eqn:E; [|exists pre; split; [done|by exists ""]].
  apply strip_space_some in E as (r & Hin & E). rewrite Forall_forall in Hr.
  destruct (no_visible_prefix r pre c rest (Hr r Hin) Hc) as [pre' ->]; [by exists t|].
  rewrite <- string_app_assoc in E. apply string_app_inj_l in E as <-.
  destruct (IH pre') as (pre'' & -> & cut & ->); [by apply Forall_forall|done|]. exists pre''. split; [done|].
  exists (r +:+ cut). apply string_app_assoc.
Qed.

Lemma TrimSpace_between c d pre m post :
  visible (String c "") = true -> visible (String d "") = true ->
  exists pre' post', TrimSpace (pre +:+ String c (m +:+ String d post)) = pre' +:+ String c (m +:+ String d post')
    /\ (exists cut, pre = cut +:+ pre') /\ (exists cut, post = post' +:+ cut).
Proof.
  intros Hc Hd. unfold TrimSpace.
  destruct (trim_left_keeps space_runes (String.length (pre +:+ String c (m +:+ String d post))) c (m +:+ String d post) pre)
    as (pre' & -> & Hpre); [by apply (bool_decide_unpack _)|done|].
  set (l := pre' +:+ String c (m +:+ String d post)).
  assert (string_rev l = string_rev post +:+ String d (string_rev (pre' +:+ String c m))) as El.
  { unfold l. change (String c (m +:+ String d post)) with (String c "" +:+ (m +:+ (String d "" +:+ post))).
    change (String c m) with (String c "" +:+ m). rewrite !string_rev_app, <- !string_app_assoc. done. }
  rewrite El. destruct (trim_left_keeps (map string_rev space_runes) (String.length l) d (string_rev (pre' +:+ String c m)) (string_rev post))
    as (rpost & -> & cut & Ecut); [by apply (bool_decide_unpack _)|done|].
  exists pre', (string_rev rpost). split; [|split; [done|]].
  - change (String d (string_rev (pre' +:+ String c m))) with (String d "" +:+ string_rev (pre' +:+ String c m)).
    rewrite !string_rev_app, !string_rev_involutive, <- !string_app_assoc, !string_app_cons. done.
  - exists (string_rev cut). apply (f_equal string_rev) in Ecut. by rewrite string_rev_involutive, string_rev_app in Ecut.
Qed.

Lemma TrimSpace_keeps pre s post :
  exists pre' post', TrimSpace (pre +:+ object s +:+ post) = pre' +:+ object s +:+ post'
    /\ (exists cut, pre = cut +:+ pre') /\ (exists cut, post = post' +:+ cut).
Proof.
  destruct (TrimSpace_between "{" "}" pre s post) as (pre' & post' & E & Hp); [done|done|]. exists pre', post'. split; [|done].
  unfold object. rewrite !string_app_cons, <- !string_app_assoc. exact E.
Qed.

(** * Fences *)

Lemma has_byte_suffix c cut s : has_byte c (cut +:+ s) = false -> has_byte c s = false.
Proof. rewrite has_byte_app, orb_false_iff. by intros [_ ?]. Qed.

(** A text without the byte of a fence has no fence. *)
Lemma Index_fence s : has_byte "`" s = false -> Index s fence_mark = None.
Proof.
  induction s as [|c s IH]; cbn [has_byte Index]; [done|]. intros [Hc Hs]%orb_false_iff. rewrite IH by done.
  destruct (HasPrefix (String c s) fence_mark) eqn:E; [|done]. apply HasPrefix_spec in E as [r E]. injection E as -> _. done.
Qed.

Lemma visible_nonempty a s b : a +:+ object s +:+ b <> "".
Proof. by destruct a. Qed.

Lemma extract_found pre s post :
  text s -> has_byte "{" pre = false ->
  match Index (pre +:+ object s +:+ post) "{" with
  | Some start => scan 0 false false "" (drop_bytes start (pre +:+ object s +:+ post))
  | None => None
  end = Some (object s).
Proof.
  intros Hs Hp. assert (Index (pre +:+ object s +:+ post) "{" = Some (String.length pre)) as ->
    by exact (Index_first "{" "" pre ((s +:+ "}") +:+ post) Hp).
  rewrite drop_bytes_app. by apply scan_object.
Qed.

Lemma extract_ok s' pre s post reply :
  TrimSpace reply = s' -> s' <> "" -> unfenced s' = pre +:+ object s +:+ post -> text s -> has_byte "{" pre = false ->
  ExtractPlanJSON reply = Ok (object s).
Proof.
  intros Ht Hne Hu Hs Hp. unfold ExtractPlanJSON. rewrite Ht. apply String.eqb_neq in Hne. rewrite Hne, Hu.
  pose proof (extract_found pre s post Hs Hp) as Hf. destruct (Index _ _) as [start|]; [|done]. by rewrite Hf.
Qed.

Lemma substring_app a b : String.substring 0 (String.length a) (a +:+ b) = a.
Proof. induction a as [|c a IH]; [by destruct b|]. rewrite string_app_cons. cbn. by rewrite IH. Qed.

Lemma unfenced_fence intro lang body outro :
  has_byte "`" intro = false -> has_byte (ascii_of_N 10) lang = false -> has_byte "`" body = false ->
  unfenced (intro +:+ fence_mark +:+ lang +:+ eol +:+ body +:+ fence_mark +:+ outro) = TrimSpace body.
Proof.
  intros Hi Hl Hb. set (r2 := body +:+ fence_mark +:+ outro). set (r1 := lang +:+ eol +:+ r2).
  assert (Index (intro +:+ fence_mark +:+ r1) fence_mark = Some (String.length intro)) as E1 by by apply (Index_first "`" "``").
  assert (drop_bytes (String.length intro + 3) (intro +:+ fence_mark +:+ r1) = r1) as D1.
  { rewrite string_app_assoc. replace (String.length intro + 3)%nat with (String.length (intro +:+ fence_mark))
      by by rewrite string_length_app. apply drop_bytes_app. }
  assert (Index r1 eol = Some (String.length lang)) as E2 by by apply (Index_first (ascii_of_N 10) "").
  assert (drop_bytes (String.length lang + 1) r1 = r2) as D2.
  { unfold r1. rewrite string_app_assoc. replace (String.length lang + 1)%nat with (String.length (lang +:+ eol))
      by by rewrite string_length_app. apply drop_bytes_app. }
  assert (Index r2 fence_mark = Some (String.length body)) as E3 by by apply (Index_first "`" "``").
  unfold unfenced. rewrite E1. cbv zeta. rewrite D1, E2, D2, E3. unfold r2. by rewrite substring_app.
Qed.

(** * What is extracted *)

Definition within (raw reply : string) : Prop := exists a b, reply = a +:+ raw +:+ b.

Lemma within_trans a b c : within a b -> within b c -> within a c.
Proof. intros (x & y & ->) (u & v & ->). exists (u +:+ x), (y +:+ v). by rewrite !string_app_assoc. Qed.

Lemma TrimSpace_within s : within (TrimSpace s) s.
Proof.
  unfold TrimSpace. destruct (trim_left_suffix space_runes (String.length s) s) as [a Ea]. set (l := trim_left _ space_runes s) in *.
  destruct (trim_left_suffix (map string_rev space_runes) (String.length l) (string_rev l)) as [b Eb]. set (t := trim_left _ _ (string_rev l)) in *.
  exists a, (string_rev b). rewrite <- string_rev_app, <- Eb, string_rev_involutive. done.
Qed.

Lemma drop_within n s : within (drop_bytes n s) s.
Proof.
  revert s. induction n as [|n IH]; intros [|c s]; cbn; try (exists "", ""; by rewrite string_app_nil_r).
  destruct (IH s) as (a & b & E). exists (String c a), b. by rewrite string_app_cons, <- E.
Qed.

Lemma substring_within n s : within (String.substring 0 n s) s.
Proof.
  revert s. induction n as [|n IH]; intros [|c s]; cbn; [by exists "", ""|by exists "", (String c s)|by exists "", ""|].
  assert (exists b, s = String.substring 0 n s +:+ b) as [b E].
  { clear IH. revert s. induction n as [|n IH]; intros [|d s]; cbn; [by exists ""|by exists (String d s)|by exists ""|].
    destruct (IH s) as [b E]. exists b. by rewrite string_app_cons, <- E. }
  exists "", b. by rewrite string_app_nil_l, string_app_cons, <- E.
Qed.

Lemma unfenced_within s : within (unfenced s) s.
Proof.
  unfold unfenced. assert (within s s) as Hs by (exists "", ""; by rewrite string_app_nil_r). destruct (Index s fence_mark) as [n|]; [|done].
  cbv zeta. match goal with |- context [Index ?r fence_mark] => assert (within r s) as Hr; [|set (rest := r) in *] end.
  { destruct (Index (drop_bytes (n + 3) s) eol); [eapply within_trans; [apply drop_within|]|]; apply drop_within. }
  destruct (Index rest fence_mark) as [e|]; [|done]. eapply within_trans; [apply TrimSpace_within|].
  eapply within_trans; [apply substring_within|done].
Qed.

(** Text that closes as many objects as are open. *)
Fixpoint closes (depth : nat) (u : string) : Prop :=
  match depth with
  | O => u = ""
  | S d => exists t u', text t /\ u = t +:+ String "}" u' /\ closes d u'
  end.

(** The same from inside a string, and from a backslash in it. *)
Definition closes_from (depth : nat) (inString escaped : bool) (u : string) : Prop :=
  let quoting u := exists cs u', chars cs /\ u = cs +:+ String (ascii_of_N 34) u' /\ closes depth u' in
  if inString then if escaped then exists c v, u = String c v /\ quoting v else quoting u else closes depth u.

Lemma closes_byte c d u : neutral c = true -> closes (S d) u -> closes (S d) (String c u).
Proof. intros Hc (t & u' & Ht & -> & Hu). exists (String c t), u'. split; [by apply text_byte|done]. Qed.

Lemma closes_quote cs d u : chars cs -> closes (S d) u -> closes (S d) (String (ascii_of_N 34) (cs +:+ String (ascii_of_N 34) u)).
Proof.
  intros Hc (t & u' & Ht & -> & Hu). exists (String (ascii_of_N 34) (cs +:+ String (ascii_of_N 34) t)), u'. split; [by apply text_string|].
  split; [|done]. by rewrite !string_app_cons, <- string_app_assoc, string_app_cons.
Qed.

Lemma closes_open d u : closes (S (S d)) u -> closes (S d) (String "{" u).
Proof.
  intros (t & u' & Ht & -> & t' & u'' & Ht' & -> & Hu). exists (String "{" (t +:+ String "}" t')), u''. split; [by apply text_object|].
  split; [|done]. by rewrite !string_app_cons, <- string_app_assoc, string_app_cons.
Qed.

Lemma scan_closes s : forall d inString escaped acc r,
  (escaped = true -> inString = true) -> scan (Z.of_nat (S d)) inString escaped acc s = Some r ->
  exists u rest, s = u +:+ rest /\ r = string_rev acc +:+ u /\ closes_from (S d) inString escaped u.
Proof.
  induction s as [|c s IH]; intros d inString escaped acc r Hesc; [done|]. cbn [scan].
  assert (forall d' i e, (e = true -> i = true) -> scan (Z.of_nat (S d')) i e (String c acc) s = Some r ->
    (forall u, closes_from (S d') i e u -> closes_from (S d) inString escaped (String c u)) ->
    exists u rest, String c s = u +:+ rest /\ r = string_rev acc +:+ u /\ closes_from (S d) inString escaped u) as Hgo.
  { intros d' i e He Hr Hc. destruct (IH d' i e (String c acc) r He Hr) as (u & rest & -> & -> & Hu).
    exists (String c u), rest. split; [done|]. split; [|by apply Hc].
    change (String c acc) with (String c "" +:+ acc). rewrite string_rev_app, <- string_app_assoc. done. }
  destruct escaped.
  { rewrite (Hesc eq_refl) in *. intros Hr. apply (Hgo d true false); [done|done|]. intros u Hu. by exists c, u. }
  destruct (Ascii.eqb_spec c (ascii_of_N 92)) as [->|Hb]; destruct inString; cbn [andb].
  1: { intros Hr. apply (Hgo d true true); [done|done|]. intros u (x & v & -> & cs & u' & Hcs & -> & Hu).
       exists (String (ascii_of_N 92) (String x cs)), u'. split; [by apply chars_escape|]. by rewrite !string_app_cons. }
  1: { intros Hr. apply (Hgo d false false); [done|done|]. intros u. by apply closes_byte. }
  all: destruct (Ascii.eqb_spec c (ascii_of_N 34)) as [->|Hq]; cbn [negb].
  - intros Hr. apply (Hgo d false false); [done|done|]. intros u Hu. exists "", u. split; [apply chars_nil|done].
  - intros Hr. apply (Hgo d true false); [done|done|]. intros u (cs & u' & Hcs & -> & Hu). exists (String c cs), u'.
    split; [by apply chars_plain|]. by rewrite string_app_cons.
  - intros Hr. apply (Hgo d true false); [done|done|]. intros u (cs & u' & Hcs & -> & Hu). by apply closes_quote.
  - destruct (Ascii.eqb_spec c "{") as [->|Ho].
    { intros Hr. apply (Hgo (S d) false false); [done|by replace (Z.of_nat (S (S d))) with (Z.of_nat (S d) + 1) by lia|]. intros u. apply closes_open. }
    destruct (Ascii.eqb_spec c "}") as [->|Hcl].
    + destruct (Z.eqb_spec (Z.of_nat (S d) - 1) 0) as [E|E].
      * intros [= <-]. exists "}", s. split; [done|]. split; [change (String "}" acc) with ("}" +:+ acc); by rewrite string_rev_app|].
        assert (d = 0%nat) as -> by lia. exists "", "". split; [apply text_nil|done].
      * intros Hr. destruct d as [|d]; [lia|]. apply (Hgo d false false); [done|by replace (Z.of_nat (S d)) with (Z.of_nat (S (S d)) - 1) by lia|].
        intros u Hu. exists "", u. split; [apply text_nil|done].
    + intros Hr. apply (Hgo d false false); [done|done|]. intros u. apply closes_byte. unfold neutral.
      by rewrite (proj2 (Ascii.eqb_neq _ _) Hq), (proj2 (Ascii.eqb_neq _ _) Ho), (proj2 (Ascii.eqb_neq _ _) Hcl).
Qed.

Lemma scan_sound s rest raw : scan 0 false false "" (String "{" s) = Some raw -> rest = String "{" s -> exists t, text t /\ raw = object t /\ within raw rest.
Proof.
  intros Hr ->. change (scan 0 false false "" (String "{" s)) with (scan (Z.of_nat 1) false false "{" s) in Hr.
  apply scan_closes in Hr as (u & r & -> & -> & t & u' & Ht & -> & ->); [|done]. exists t. split; [done|]. split; [done|]. by exists "", r.
Qed.

Lemma extract_sound reply raw : ExtractPlanJSON reply = Ok raw -> exists t, text t /\ raw = object t /\ within raw reply.
Proof.
  unfold ExtractPlanJSON. destruct (String.eqb _ _); [done|]. cbv zeta. set (s := unfenced (TrimSpace reply)).
  destruct (Index s "{") as [n|] eqn:En; [|done]. destruct (scan 0 false false "" (drop_bytes n s)) as [r|] eqn:Er; [|done]. intros [= <-].
  pose proof (Index_spec s "{") as Hi. rewrite En in Hi. destruct Hi as [[s' Es]%HasPrefix_spec _]. change ("{" +:+ s') with (String "{" s') in Es.
  rewrite Es in Er. destruct (scan_sound s' (drop_bytes n s) r Er Es) as (t & Ht & Ero & Hw). exists t. split; [done|]. split; [done|].
  eapply within_trans; [exact Hw|]. eapply within_trans; [apply drop_within|]. eapply within_trans; [apply unfenced_within|apply TrimSpace_within].
Qed.

Lemma extract_complete s pre post :
  text s -> has_byte "{" pre = false -> has_byte "`" (pre +:+ s +:+ post) = false ->
  ExtractPlanJSON (pre +:+ object s +:+ post) = Ok (object s)
  /\ (forall intro lang outro, has_byte "`" intro = false -> has_byte (ascii_of_N 10) lang = false ->
        ExtractPlanJSON (intro +:+ fence_mark +:+ lang +:+ eol +:+ (pre +:+ object s +:+ post) +:+ fence_mark +:+ outro) = Ok (object s)).
Proof.
  intros Hs Hp Hb. rewrite !has_byte_app, !orb_false_iff in Hb. destruct Hb as (Hb1 & Hb2 & Hb3).
  assert (has_byte "`" (object s) = false) as Ho by (unfold object; cbn [has_byte]; by rewrite has_byte_app, Hb2).
  assert (has_byte "`" (pre +:+ object s +:+ post) = false) as Hbody by by rewrite !has_byte_app, Hb1, Ho, Hb3.
  destruct (TrimSpace_keeps pre s post) as (pre' & post' & Et & [cut ->] & [cut' ->]).
  rewrite has_byte_app, orb_false_iff in Hb1, Hb3, Hp. destruct Hb1 as [_ Hb1], Hb3 as [Hb3 _], Hp as [_ Hp]. split.
  - apply (extract_ok _ pre' s post' _ Et); [apply visible_nonempty| |done|done].
    unfold unfenced. rewrite Index_fence; [done|]. by rewrite !has_byte_app, Hb1, Ho.
  - intros intro lang outro Hi Hl.
    set (body := (cut +:+ pre') +:+ object s +:+ post' +:+ cut').
    destruct (TrimSpace_between "`" "`" intro ("``" +:+ lang +:+ eol +:+ body +:+ "``") outro) as (intro' & outro' & E & [icut ->] & _);
      [done|done|].
    assert (TrimSpace ((icut +:+ intro') +:+ fence_mark +:+ lang +:+ eol +:+ body +:+ fence_mark +:+ outro)
            = intro' +:+ fence_mark +:+ lang +:+ eol +:+ body +:+ fence_mark +:+ outro') as E'.
    { assert (forall o, String "`" (("``" +:+ lang +:+ eol +:+ body +:+ "``") +:+ String "`" o)
                = fence_mark +:+ lang +:+ eol +:+ body +:+ fence_mark +:+ o) as Ef.
      { intros o. change fence_mark with ("`" +:+ "``") at 1. change (String "`" ?x) with ("`" +:+ x) at 1.
        rewrite <- !string_app_assoc. done. }
      by rewrite !Ef in E. }
    rewrite has_byte_app, orb_false_iff in Hi. destruct Hi as [_ Hi].
    apply (extract_ok _ pre' s post' _ E'); [by destruct intro'| |done|done].
    by rewrite unfenced_fence.
Qed.

(** (C30) Extraction recovers a plan and repairs none.  An object of JSON text, with any
    strings and any objects nested in it, is extracted exactly from a reply in which no
    brace comes before it and no backtick stands anywhere, and likewise from between the
    first fences of a reply, where the prose after the closing fence may be anything, that
    before the opening one anything without a backtick, and the opening one may name a
    language.  And whatever is extracted from any reply stands in it, byte for byte, and is
    one object whose braces balance outside its strings. *)
Theorem ExtractPlanJSON_object s pre post :
  (text s -> has_byte "{" pre = false -> has_byte "`" (pre +:+ s +:+ post) = false ->
   ExtractPlanJSON (pre +:+ object s +:+ post) = Ok (object s)
   /\ (forall intro lang outro, has_byte "`" intro = false -> has_byte (ascii_of_N 10) lang = false ->
         ExtractPlanJSON (intro +:+ fence_mark +:+ lang +:+ eol +:+ (pre +:+ object s +:+ post) +:+ fence_mark +:+ outro) = Ok (object s)))
  /\ (forall reply raw, ExtractPlanJSON reply = Ok raw -> exists t, text t /\ raw = object t /\ within raw reply).
Proof. split; [apply extract_complete|apply extract_sound]. Qed.

(** A reply with a brace and an escaped quotation mark inside a string. *)
Definition sample_text : string := quoted "@a@: {@b@: @brace } and \@@}".

#[local] Ltac read_chars :=
  repeat first [apply chars_nil | apply chars_escape | apply chars_plain; [discriminate|discriminate|]].

Lemma sample_is_text : text sample_text.
Proof.
  refine (text_string "a" (quoted ": {@b@: @brace } and \@@}") _ _); [read_chars|].
  do 2 (apply text_byte; [reflexivity|]). refine (text_object (quoted "@b@: @brace } and \@@") "" _ text_nil).
  refine (text_string "b" (quoted ": @brace } and \@@") _ _); [read_chars|].
  do 2 (apply text_byte; [reflexivity|]). refine (text_string (quoted "brace } and \@") "" _ text_nil). read_chars.
Qed.

Lemma ExtractPlanJSON_object_witness :
  ExtractPlanJSON ("Here you go: " +:+ object sample_text +:+ " enjoy") = Ok (object sample_text)
  /\ (forall intro lang outro, has_byte "`" intro = false -> has_byte (ascii_of_N 10) lang = false ->
        ExtractPlanJSON (intro +:+ fence_mark +:+ lang +:+ eol +:+ ("Here you go: " +:+ object sample_text +:+ " enjoy") +:+ fence_mark +:+ outro)
        = Ok (object sample_text)).
Proof. apply (proj1 (ExtractPlanJSON_object sample_text "Here you go: " " enjoy")); [exact sample_is_text|reflexivity|reflexivity]. Defined.

(** A reply that is one JSON object and nothing else is refused when a string in it shows
    fenced code. *)
Theorem fenced_value_lost :
  let s := quoted "@objective@: @print ```x``` at the start@" in
  text s /\ match ExtractPlanJSON (object s) with Err _ => True | Ok _ => False end.
Proof.
  split; [|vm_compute; exact I]. refine (text_string "objective" (quoted ": @print ```x``` at the start@") _ _); [read_chars|].
  do 2 (apply text_byte; [reflexivity|]). refine (text_string "print ```x``` at the start" "" _ text_nil). read_chars.
Qed.
