(* ===== verification/Resilience.v ===== *)
(** Circuit breakers (internal/resilience): one breaker per scope and operation class,
    handed out by a registry.  Every method holds the mutex of its breaker throughout, so
    an interleaving of callers is a sequence of calls; the clock and the random source
    are arguments of each call.  What a breaker answers is determined by the calls since
    the last success, it always probes again, and its backoff is capped doubling. *)
From S2P Require Import Prelude GoStd.

Module resilience.

Inductive State : Type := StateClosed | StateOpen | StateHalfOpen.
#[export] Instance State_eq_dec : EqDecision State.
Proof. solve_decision. Defined.

(** State.String; a State has no other value. *)
Definition state_String (s : State) : string :=
  match s with StateClosed => "closed" | StateOpen => "open" | StateHalfOpen => "half-open" end.

Definition DefaultConsecutiveFailures : Z := 3.
Definition DefaultOpenBase : Z := Second.
Definition DefaultOpenMax : Z := 60 * Second.
Definition DefaultHalfOpenInterval : Z := 15 * Second.

Record Settings : Type := mkSettings {
  st_Enabled : bool;
  st_ConsecutiveFailures : Z;
  st_OpenBase : Z;
  st_OpenMax : Z;
  st_HalfOpenInterval : Z
}.

Definition withDefaults (s : Settings) : Settings :=
  let failures := if st_ConsecutiveFailures s <=? 0 then DefaultConsecutiveFailures else st_ConsecutiveFailures s in
  let base := if st_OpenBase s <=? 0 then DefaultOpenBase else st_OpenBase s in
  let max := if st_OpenMax s <=? 0 then DefaultOpenMax else st_OpenMax s in
  let max := if max <? base then base else max in
  let interval := if st_HalfOpenInterval s <=? 0 then DefaultHalfOpenInterval else st_HalfOpenInterval s in
  mkSettings (st_Enabled s) failures base max interval.

Definition DefaultSettings : Settings := withDefaults (mkSettings true 0 0 0 0).

Record Transition : Type := mkTransition {
  tr_Scope : string;
  tr_OpClass : string;
  tr_From : State;
  tr_To : State;
  tr_Failures : Z;
  tr_Backoff : Z;
  tr_At : Z
}.

(** [bk_onChange] names the callback that is installed, if any. *)
Record Breaker : Type := mkBreaker {
  bk_scope : string;
  bk_opClass : string;
  bk_settings : Settings;
  bk_onChange : option nat;
  bk_state : State;
  bk_failures : Z;
  bk_trips : Z;
  bk_deadline : Z;
  bk_lastProbeAt : Z
}.

Definition newBreaker (scope opClass : string) (settings : Settings) (onChange : option nat) : Breaker :=
  mkBreaker scope opClass (withDefaults settings) onChange StateClosed 0 0 0 0.

Definition set_state (s : State) (b : Breaker) : Breaker :=
  mkBreaker (bk_scope b) (bk_opClass b) (bk_settings b) (bk_onChange b) s (bk_failures b) (bk_trips b) (bk_deadline b) (bk_lastProbeAt b).
Definition set_failures (n : Z) (b : Breaker) : Breaker :=
  mkBreaker (bk_scope b) (bk_opClass b) (bk_settings b) (bk_onChange b) (bk_state b) n (bk_trips b) (bk_deadline b) (bk_lastProbeAt b).
Definition set_trips (n : Z) (b : Breaker) : Breaker :=
  mkBreaker (bk_scope b) (bk_opClass b) (bk_settings b) (bk_onChange b) (bk_state b) (bk_failures b) n (bk_deadline b) (bk_lastProbeAt b).
Definition set_deadline (t : Z) (b : Breaker) : Breaker :=
  mkBreaker (bk_scope b) (bk_opClass b) (bk_settings b) (bk_onChange b) (bk_state b) (bk_failures b) (bk_trips b) t (bk_lastProbeAt b).
Definition set_lastProbeAt (t : Z) (b : Breaker) : Breaker :=
  mkBreaker (bk_scope b) (bk_opClass b) (bk_settings b) (bk_onChange b) (bk_state b) (bk_failures b) (bk_trips b) (bk_deadline b) t.
Definition setOnChangeForRegistry (fn : option nat) (b : Breaker) : Breaker :=
  mkBreaker (bk_scope b) (bk_opClass b) (bk_settings b) fn (bk_state b) (bk_failures b) (bk_trips b) (bk_deadline b) (bk_lastProbeAt b).

(** A breaker after a call, and what the call told which callback. *)
Abbreviation Notices := (list (nat * Transition)) (only parsing).

Definition transitionLocked (to : State) (backoff now : Z) (b : Breaker) : Breaker * Notices :=
  if bool_decide (bk_state b = to) then (b, [])
  else (set_state to b,
        match bk_onChange b with
        | None => []
        | Some fn => [(fn, mkTransition (bk_scope b) (bk_opClass b) (bk_state b) to (bk_failures b) backoff now)]
        end).

(** [rand n] is rand.Int64N(n), a number from 0 up to n. *)
Definition fullJitter (rand : Z -> Z) (capDur : Z) : Z := if capDur <=? 0 then 0 else rand capDur + 1.

(** The loop of backoffCapLocked with its turns left. *)
Fixpoint backoff_loop (turns : nat) (s : Settings) (capDur : Z) : Z :=
  match turns with
  | O => if st_OpenMax s <? capDur then st_OpenMax s else capDur
  | S turns' =>
      let capDur := wrap64 (capDur * 2) in
      if (st_OpenMax s <=? capDur) || (capDur <=? 0) then st_OpenMax s else backoff_loop turns' s capDur
  end.

Definition backoffCapLocked (b : Breaker) : Z :=
  backoff_loop (Z.to_nat (bk_trips b - 1)) (bk_settings b) (st_OpenBase (bk_settings b)).

Definition openLocked (rand : Z -> Z) (now : Z) (b : Breaker) : Breaker * Notices :=
  let backoff := fullJitter rand (backoffCapLocked b) in
  transitionLocked StateOpen backoff now (set_deadline (now + backoff) b).

Definition Allow (now : Z) (b : Breaker) : bool * (Breaker * Notices) :=
  if negb (st_Enabled (bk_settings b)) then (true, (b, []))
  else match bk_state b with
       | StateOpen =>
           if now <? bk_deadline b then (false, (b, []))
           else let '(b', ns) := transitionLocked StateHalfOpen 0 now b in (true, (set_lastProbeAt now b', ns))
       | StateHalfOpen =>
           if time_Sub now (bk_lastProbeAt b) <? st_HalfOpenInterval (bk_settings b) then (false, (b, []))
           else (true, (set_lastProbeAt now b, []))
       | StateClosed => (true, (b, []))
       end.

Definition Available (b : Breaker) : bool :=
  if negb (st_Enabled (bk_settings b)) then true else bool_decide (bk_state b = StateClosed).

Definition ProbeDue (now : Z) (b : Breaker) : bool :=
  if negb (st_Enabled (bk_settings b)) then false
  else match bk_state b with
       | StateOpen => negb (now <? bk_deadline b)
       | StateHalfOpen => st_HalfOpenInterval (bk_settings b) <=? time_Sub now (bk_lastProbeAt b)
       | StateClosed => false
       end.

Definition RecordSuccess (now : Z) (b : Breaker) : Breaker * Notices :=
  if negb (st_Enabled (bk_settings b)) then (b, [])
  else
    let b := set_trips 0 (set_failures 0 b) in
    if bool_decide (bk_state b = StateClosed) then (b, []) else transitionLocked StateClosed 0 now b.

Definition RecordFailure (rand : Z -> Z) (now : Z) (b : Breaker) : Breaker * Notices :=
  if negb (st_Enabled (bk_settings b)) then (b, [])
  else match bk_state b with
       | StateOpen => (b, [])
       | StateHalfOpen => openLocked rand now (set_trips (wrap64 (bk_trips b + 1)) b)
       | StateClosed =>
           let b := set_failures (wrap64 (bk_failures b + 1)) b in
           if st_ConsecutiveFailures (bk_settings b) <=? bk_failures b then openLocked rand now (set_trips 1 b)
           else (b, [])
       end.

Definition Trip (rand : Z -> Z) (now : Z) (b : Breaker) : Breaker * Notices :=
  if negb (st_Enabled (bk_settings b)) then (b, [])
  else match bk_state b with
       | StateOpen => (b, [])
       | StateHalfOpen => openLocked rand now (set_trips (wrap64 (bk_trips b + 1)) b)
       | StateClosed => openLocked rand now (set_trips 1 b)
       end.

(** Breaker.State *)
Definition breaker_State (b : Breaker) : State := if negb (st_Enabled (bk_settings b)) then StateClosed else bk_state b.

(** * The registry *)

Definition OpClassBd : string := "bd".

(** Key is the pair of scope and operation class.  A breaker is never replaced, so the
    pointer a caller keeps is the entry of its key. *)
Record Registry : Type := mkRegistry {
  rg_settings : Settings;
  rg_onChange : option nat;
  rg_breakers : gmap (string * string) Breaker
}.

Definition NewRegistry (settings : Settings) : Registry := mkRegistry (withDefaults settings) None ∅.

Definition SetOnStateChange (fn : option nat) (r : Registry) : Registry :=
  mkRegistry (rg_settings r) fn (setOnChangeForRegistry fn <$> rg_breakers r).

(** Registry.Breaker *)
Definition registry_Breaker (scope opClass : string) (r : Registry) : Breaker * Registry :=
  match rg_breakers r !! (scope, opClass) with
  | Some b => (b, r)
  | None =>
      let b := newBreaker scope opClass (rg_settings r) (rg_onChange r) in
      (b, mkRegistry (rg_settings r) (rg_onChange r) (<[(scope, opClass) := b]> (rg_breakers r)))
  end.

Definition States (r : Registry) : gmap (string * string) State := breaker_State <$> rg_breakers r.

(** * Calls on the breakers of a registry *)

Inductive Call : Type := CAllow | CRecordSuccess | CRecordFailure | CTrip.
#[export] Instance Call_eq_dec : EqDecision Call.
Proof. solve_decision. Defined.

(** One call: on which breaker, when, with which random draw. *)
Record Called : Type := mkCalled {
  cl_Key : string * string;
  cl_Call : Call;
  cl_At : Z;
  cl_Rand : Z -> Z
}.

(** A breaker after a call, what the call answered (calls without an answer say true), and
    the notices. *)
Definition perform (c : Called) (b : Breaker) : bool * (Breaker * Notices) :=
  match cl_Call c with
  | CAllow => Allow (cl_At c) b
  | CRecordSuccess => (true, RecordSuccess (cl_At c) b)
  | CRecordFailure => (true, RecordFailure (cl_Rand c) (cl_At c) b)
  | CTrip => (true, Trip (cl_Rand c) (cl_At c) b)
  end.

Definition call_on (c : Called) (r : Registry) : bool * (Registry * Notices) :=
  let '(b, r) := registry_Breaker (cl_Key c).1 (cl_Key c).2 r in
  let '(ok, (b', ns)) := perform c b in
  (ok, (mkRegistry (rg_settings r) (rg_onChange r) (<[cl_Key c := b']> (rg_breakers r)), ns)).

Definition run_calls (cs : list Called) (r : Registry) : Registry := fold_left (fun r c => (call_on c r).2.1) cs r.

End resilience.

Import resilience.

(** * Settings and the backoff *)

(** Settings whose fields are machine integers, as a breaker holds them. *)
Record settings_wf (s : Settings) : Prop := mk_settings_wf {
  sw_failures : 1 <= st_ConsecutiveFailures s <= max_int64;
  sw_base : 1 <= st_OpenBase s;
  sw_max : st_OpenBase s <= st_OpenMax s <= max_int64;
  sw_interval : 1 <= st_HalfOpenInterval s <= max_int64
}.

Definition machine_settings (s : Settings) : Prop :=
  st_ConsecutiveFailures s <= max_int64 /\ st_OpenBase s <= max_int64 /\ st_OpenMax s <= max_int64
  /\ st_HalfOpenInterval s <= max_int64.

Lemma withDefaults_wf s : machine_settings s -> settings_wf (withDefaults s).
Proof.
  assert (60 * Second <= max_int64) by (vm_compute; discriminate).
  assert (1 <= Second) by (vm_compute; discriminate).
  assert (3 <= max_int64) by (vm_compute; discriminate).
  unfold withDefaults, DefaultConsecutiveFailures, DefaultOpenBase, DefaultOpenMax, DefaultHalfOpenInterval.
  intros (? & ? & ? & ?). split; simpl; repeat case_match; rewrite ?Z.leb_le, ?Z.leb_gt, ?Z.ltb_lt, ?Z.ltb_ge in *; lia.
Qed.

Lemma withDefaults_idem s : settings_wf s -> withDefaults s = s.
Proof.
  intros [H1 H2 H3 H4]. unfold withDefaults.
  rewrite !(proj2 (Z.leb_gt _ _)) by lia. rewrite (proj2 (Z.ltb_ge _ _)) by lia. by destruct s.
Qed.

Lemma backoff_loop_exact s n c :
  settings_wf s -> 1 <= c <= st_OpenMax s -> backoff_loop n s c = Z.min (st_OpenMax s) (c * 2 ^ Z.of_nat n).
Proof.
  intros Hs. assert (st_OpenMax s <= max_int64) as Hm by apply Hs.
  revert c. induction n as [|n IH]; intros c Hc; cbn [backoff_loop].
  - rewrite Z.mul_1_r, (proj2 (Z.ltb_ge _ _)) by lia. lia.
  - replace (2 ^ Z.of_nat (S n)) with (2 * 2 ^ Z.of_nat n) by (rewrite Nat2Z.inj_succ, Z.pow_succ_r; lia).
    assert (0 < 2 ^ Z.of_nat n) by lia.
    destruct (Z.le_gt_cases (c * 2) max_int64) as [Hle|Hgt].
    + rewrite wrap64_small by (unfold min_int64; lia). rewrite (proj2 (Z.leb_gt _ 0)), orb_false_r by lia.
      destruct (Z.leb_spec (st_OpenMax s) (c * 2)); [nia|]. rewrite IH by lia. f_equal. lia.
    + assert (wrap64 (c * 2) <= 0) as Hw.
      { unfold wrap64. unfold max_int64 in Hgt, Hm.
        replace (c * 2 + 2 ^ 63) with (c * 2 - 2 ^ 63 + 1 * 2 ^ 64) by lia. rewrite Z.mod_add, Z.mod_small by lia. lia. }
      rewrite (proj2 (Z.leb_le _ 0)), orb_true_r by done. nia.
Qed.

(** The wait of the n-th opening of an outage is at most this. *)
Definition backoff_cap (s : Settings) (n : nat) : Z := Z.min (st_OpenMax s) (st_OpenBase s * 2 ^ Z.of_nat (n - 1)).

Lemma backoffCapLocked_exact b :
  settings_wf (bk_settings b) -> backoffCapLocked b = backoff_cap (bk_settings b) (Z.to_nat (bk_trips b)).
Proof.
  intros Hs. unfold backoffCapLocked, backoff_cap. rewrite backoff_loop_exact; [|done|destruct Hs; lia].
  by rewrite Z2Nat.inj_sub.
Qed.

Lemma backoff_cap_mono s n m : settings_wf s -> (n <= m)%nat -> backoff_cap s n <= backoff_cap s m.
Proof.
  intros [_ Hb Hm _] Hnm. unfold backoff_cap. apply Z.min_le_compat_l, Z.mul_le_mono_nonneg_l; [lia|].
  apply Z.pow_le_mono_r; lia.
Qed.

Lemma backoff_cap_pos s n : settings_wf s -> 1 <= backoff_cap s n <= st_OpenMax s.
Proof. intros [_ Hb Hm _]. unfold backoff_cap. assert (0 < 2 ^ Z.of_nat (n - 1)) by lia. nia. Qed.

Definition fair (c : Called) : Prop := forall n, 0 < n -> 0 <= cl_Rand c n < n.

Lemma jitter_bounds c n : fair c -> 1 <= n -> 1 <= fullJitter (cl_Rand c) n <= n.
Proof. intros Hf Hn. unfold fullJitter. rewrite (proj2 (Z.leb_gt _ _)) by lia. pose proof (Hf n). lia. Qed.

Lemma sub_reaches s t u :
  settings_wf s -> (time_Sub t u <? st_HalfOpenInterval s) = false <-> u + st_HalfOpenInterval s <= t.
Proof. intros [_ _ _ Hi]. unfold time_Sub, min_int64. rewrite Z.ltb_ge. unfold max_int64 in *. lia. Qed.

(** * The calls since the last success *)

Definition of_call (c : Call) (l : list Called) : list Called := filter (fun x => cl_Call x = c) l.
Definition count (c : Call) (l : list Called) : Z := Z.of_nat (length (of_call c l)).

Lemma count_app c l1 l2 : count c (l1 ++ l2) = count c l1 + count c l2.
Proof. unfold count, of_call. rewrite filter_app, length_app. lia. Qed.

Lemma count_one c x : count c [x] = if decide (cl_Call x = c) then 1 else 0.
Proof. unfold count, of_call. rewrite filter_cons. by destruct (decide _). Qed.

Lemma count_nil c : count c [] = 0.
Proof. done. Qed.

Lemma count_nonneg c l : 0 <= count c l.
Proof. unfold count. lia. Qed.

Definition since_success (l : list Called) : list Called :=
  fold_left (fun acc c => if bool_decide (cl_Call c = CRecordSuccess) then [] else acc ++ [c]) l [].

(** Enough failures, or one signal that the store is gone. *)
Definition tripped (s : Settings) (l : list Called) : Prop := 0 < count CTrip l \/ st_ConsecutiveFailures s <= count CRecordFailure l.

Lemma tripped_app s l c : tripped s l -> tripped s (l ++ [c]).
Proof. unfold tripped. rewrite !count_app. pose proof (count_nonneg CTrip [c]). pose proof (count_nonneg CRecordFailure [c]). lia. Qed.

(** What a breaker holds after the calls [l] since the last success. *)
Record holds_after (s : Settings) (l : list Called) (b : Breaker) : Prop := mk_holds {
  ha_settings : bk_settings b = s;
  ha_state : match bk_state b with
             | StateClosed => bk_failures b = count CRecordFailure l /\ ~ tripped s l
             | StateOpen => tripped s l /\ exists c, c ∈ l /\ bk_deadline b <= cl_At c + st_OpenMax s
             | StateHalfOpen => tripped s l /\ exists c, c ∈ l /\ bk_lastProbeAt b = cl_At c
             end
}.

Definition after (l : list Called) (b : Breaker) : Breaker := fold_left (fun b c => (perform c b).2.1) l b.

Lemma after_app l1 l2 b : after (l1 ++ l2) b = after l2 (after l1 b).
Proof. apply fold_left_app. Qed.

Lemma openLocked_state rand now b : bk_state (openLocked rand now b).1 = StateOpen.
Proof. unfold openLocked, transitionLocked. cbn [bk_state set_deadline]. by case_bool_decide. Qed.

Lemma openLocked_settings rand now b : bk_settings (openLocked rand now b).1 = bk_settings b.
Proof. unfold openLocked, transitionLocked. by case_bool_decide. Qed.

Lemma openLocked_deadline rand now b :
  bk_deadline (openLocked rand now b).1 = now + fullJitter rand (backoffCapLocked b).
Proof. unfold openLocked, transitionLocked. by case_bool_decide. Qed.

Lemma opened s l c b :
  settings_wf s -> bk_settings b = s -> fair c -> tripped s (l ++ [c]) ->
  holds_after s (l ++ [c]) (openLocked (cl_Rand c) (cl_At c) b).1.
Proof.
  intros Hs Hb Hf Ht. split; [by rewrite openLocked_settings|]. rewrite openLocked_state. split; [done|].
  exists c. split; [set_solver|]. rewrite openLocked_deadline, backoffCapLocked_exact by by rewrite Hb.
  pose proof (backoff_cap_pos (bk_settings b) (Z.to_nat (bk_trips b))) as Hp. rewrite Hb in *. specialize (Hp Hs).
  pose proof (jitter_bounds c (backoff_cap s (Z.to_nat (bk_trips b))) Hf). lia.
Qed.

Lemma holds_step s l c b :
  settings_wf s -> st_Enabled s = true -> fair c -> holds_after s l b ->
  holds_after s (if bool_decide (cl_Call c = CRecordSuccess) then [] else l ++ [c]) (perform c b).2.1.
Proof.
  intros Hs He Hf [Hset Hst]. pose proof (sw_failures _ Hs) as Hcf.
  assert (st_Enabled (bk_settings b) = true) as Heb by by rewrite Hset.
  destruct (cl_Call c) eqn:Hc; unfold perform; rewrite Hc; cbn [fst snd].
  - rewrite bool_decide_eq_false_2 by done. unfold Allow. rewrite Heb. cbn [negb].
    destruct (bk_state b) eqn:Eb.
    + split; [done|]. cbn [fst snd]. rewrite Eb, count_app, count_one, decide_False by congruence. destruct Hst as [? Hn]. split; [lia|].
      unfold tripped in *. rewrite !count_app, !count_one, !decide_False by congruence. lia.
    + destruct Hst as [Ht (c0 & Hin & Hd)]. destruct (cl_At c <? bk_deadline b); cbn [fst snd].
      * split; [done|]. rewrite Eb. split; [by apply tripped_app|]. exists c0. split; [set_solver|done].
      * unfold transitionLocked. rewrite bool_decide_eq_false_2 by by rewrite Eb. cbn [fst snd].
        split; [done|]. cbn. split; [by apply tripped_app|]. exists c. split; [set_solver|done].
    + destruct Hst as [Ht (c0 & Hin & Hd)]. destruct (_ <? _); cbn [fst snd].
      * split; [done|]. rewrite Eb. split; [by apply tripped_app|]. exists c0. split; [set_solver|done].
      * split; [done|]. cbn. rewrite Eb. split; [by apply tripped_app|]. exists c. split; [set_solver|done].
  - rewrite bool_decide_eq_true_2 by done. unfold RecordSuccess. rewrite Heb. cbn [negb].
    assert (~ tripped s []) by (unfold tripped, count; cbn; lia).
    case_bool_decide as Eb; cbn in Eb.
    + cbn [fst]. split; [done|]. cbn. by rewrite Eb.
    + unfold transitionLocked. rewrite bool_decide_eq_false_2 by done. by split.
  - rewrite bool_decide_eq_false_2 by done. unfold RecordFailure. rewrite Heb. cbn [negb].
    assert (count CRecordFailure (l ++ [c]) = count CRecordFailure l + 1) as Hn.
    { by rewrite count_app, count_one, decide_True. }
    destruct (bk_state b) eqn:Eb.
    + destruct Hst as [Hfl Hnt]. cbn [bk_failures set_failures bk_settings]. rewrite Hset, Hfl.
      assert (count CRecordFailure l < st_ConsecutiveFailures s) by (unfold tripped in Hnt; lia).
      rewrite wrap64_small by (pose proof (count_nonneg CRecordFailure l); unfold min_int64; lia).
      destruct (Z.leb_spec (st_ConsecutiveFailures s) (count CRecordFailure l + 1)) as [Hle|Hlt].
      * apply opened; [done|done|done|]. right. lia.
      * split; [done|]. cbn. rewrite Eb. split; [lia|]. unfold tripped in *. rewrite Hn, count_app, count_one, decide_False by congruence. lia.
    + destruct Hst as [Ht (c0 & Hin & Hd)]. split; [done|]. cbn [fst]. rewrite Eb. split; [by apply tripped_app|].
      exists c0. split; [set_solver|done].
    + apply opened; [done|done|done|]. apply tripped_app, Hst.
  - rewrite bool_decide_eq_false_2 by done. unfold Trip. rewrite Heb. cbn [negb].
    assert (tripped s (l ++ [c])) as Ht.
    { left. rewrite count_app, count_one, decide_True by done. pose proof (count_nonneg CTrip l). lia. }
    destruct (bk_state b) eqn:Eb; [by apply opened| |by apply opened].
    destruct Hst as [_ (c0 & Hin & Hd)]. split; [done|]. cbn [fst]. rewrite Eb. split; [done|]. exists c0. split; [set_solver|done].
Qed.

Lemma holds_run s l b acc :
  settings_wf s -> st_Enabled s = true -> Forall fair l -> holds_after s acc b ->
  holds_after s (fold_left (fun acc c => if bool_decide (cl_Call c = CRecordSuccess) then [] else acc ++ [c]) l acc) (after l b).
Proof.
  intros Hs He Hl. revert acc b. induction Hl as [|c l Hc _ IH]; intros acc b Hb; [done|].
  cbn. apply IH. by apply holds_step.
Qed.

(** * The registry keeps its breakers apart *)

Definition entry (k : string * string) (r : Registry) : Breaker := (registry_Breaker k.1 k.2 r).1.
Definition calls_on (k : string * string) (cs : list Called) : list Called := filter (fun c => cl_Key c = k) cs.
Definition wired (s : Settings) (fn : option nat) : Registry := SetOnStateChange fn (NewRegistry s).

Lemma call_on_entry c k r :
  entry k (call_on c r).2.1 = if decide (cl_Key c = k) then (perform c (entry k r)).2.1 else entry k r.
Proof.
  unfold call_on, entry, registry_Breaker. destruct (cl_Key c) as [sc op] eqn:Ek. cbn [fst snd].
  destruct (rg_breakers r !! (sc, op)) as [b|] eqn:Eb.
  - destruct (perform c b) as [ok [b' ns]] eqn:Ep. cbn. destruct (decide ((sc, op) = k)) as [<- |Hne]; cbn.
    + rewrite lookup_insert_eq, Eb. cbn. by rewrite Ep.
    + rewrite <- surjective_pairing, lookup_insert_ne by done. by destruct (rg_breakers r !! k).
  - destruct (perform c _) as [ok [b' ns]] eqn:Ep. cbn. destruct (decide ((sc, op) = k)) as [<- |Hne]; cbn.
    + rewrite lookup_insert_eq, Eb. cbn. by rewrite Ep.
    + rewrite <- surjective_pairing, !lookup_insert_ne by done. by destruct (rg_breakers r !! k).
Qed.

Lemma run_calls_entry cs k r : entry k (run_calls cs r) = after (calls_on k cs) (entry k r).
Proof.
  revert r. induction cs as [|c cs IH]; intros r; [done|]. unfold run_calls in *. cbn [fold_left]. rewrite IH.
  unfold calls_on. rewrite filter_cons, call_on_entry. by destruct (decide (cl_Key c = k)).
Qed.

Lemma wired_entry s fn k : entry k (wired s fn) = newBreaker k.1 k.2 (withDefaults s) fn.
Proof. unfold entry, registry_Breaker, wired, SetOnStateChange, NewRegistry. cbn. by rewrite fmap_empty, lookup_empty. Qed.

Lemma new_holds s k fn : machine_settings s -> holds_after (withDefaults s) [] (newBreaker k.1 k.2 (withDefaults s) fn).
Proof.
  intros Hm. pose proof (withDefaults_wf s Hm) as Hw. split; cbn; [by apply withDefaults_idem|].
  split; [done|]. unfold tripped. rewrite !count_nil. destruct Hw as [[? _] _ _ _]. lia.
Qed.

Lemma run_holds s fn cs k :
  machine_settings s -> st_Enabled s = true -> Forall fair cs ->
  holds_after (withDefaults s) (since_success (calls_on k cs)) (entry k (run_calls cs (wired s fn))).
Proof.
  intros Hm He Hf. rewrite run_calls_entry, wired_entry. apply holds_run; [by apply withDefaults_wf|done| |by apply new_holds].
  apply Forall_forall. intros c [_ Hc]%list_elem_of_filter. by apply (Forall_forall fair cs).
Qed.

(** * Answers *)

Definition only_allows (k : string * string) (cs : list Called) : Prop := Forall (fun c => cl_Call c = CAllow) (calls_on k cs).

Lemma probing s ms b :
  settings_wf s -> st_Enabled s = true -> bk_settings b = s -> bk_state b = StateHalfOpen -> Forall (fun c => cl_Call c = CAllow) ms ->
  let b' := after ms b in bk_settings b' = s /\ bk_state b' = StateHalfOpen /\ bk_lastProbeAt b <= bk_lastProbeAt b'.
Proof.
  intros Hs He Hb Hst Hms. revert b Hb Hst. induction Hms as [|c ms Hc _ IH]; intros b Hb Hst; cbn; [done|].
  assert (bk_settings (perform c b).2.1 = s /\ bk_state (perform c b).2.1 = StateHalfOpen
          /\ bk_lastProbeAt b <= bk_lastProbeAt (perform c b).2.1) as (H1 & H2 & Hle).
  { unfold perform. rewrite Hc. unfold Allow. rewrite Hb, He, Hst. cbn [negb].
    destruct (_ <? _) eqn:E; [done|]. cbn. apply sub_reaches in E; [|done]. destruct Hs. split_and!; [done|done|lia]. }
  destruct (IH _ H1 H2) as (? & ? & Hl). split_and!; [done|done|exact (Z.le_trans _ _ _ Hle Hl)].
Qed.

Lemma Allow_probe now b :
  st_Enabled (bk_settings b) = true -> bk_state b <> StateClosed -> (Allow now b).1 = true ->
  let b' := (Allow now b).2.1 in bk_settings b' = bk_settings b /\ bk_state b' = StateHalfOpen /\ bk_lastProbeAt b' = now.
Proof.
  intros He Hc. unfold Allow. rewrite He. cbn [negb]. destruct (bk_state b) eqn:Eb; [done| |].
  - destruct (_ <? _); [done|]. intros _. unfold transitionLocked. by rewrite bool_decide_eq_false_2 by by rewrite Eb.
  - destruct (_ <? _); [done|]. intros _. cbn. by rewrite Eb.
Qed.

(** A call that is refused changes nothing. *)
Lemma refused_same now b : (Allow now b).1 = false -> (Allow now b).2.1 = b.
Proof.
  unfold Allow. destruct (negb _); [done|]. destruct (bk_state b); [done| |]; (destruct (_ <? _); [done|]); [|done].
  by destruct (transitionLocked _ _ _ _).
Qed.

(** When a breaker that refuses admits the next probe. *)
Lemma due_exists s l b :
  settings_wf s -> st_Enabled s = true -> holds_after s l b -> bk_state b <> StateClosed ->
  exists due, (exists c, c ∈ l /\ due <= cl_At c + Z.max (st_OpenMax s) (st_HalfOpenInterval s))
    /\ forall now, (Allow now b).1 = true <-> due <= now.
Proof.
  intros Hs He [Hset Hst] Hc. destruct (bk_state b) eqn:Eb; [done| |]; destruct Hst as [_ (c & Hin & Hd)].
  - exists (bk_deadline b). split; [exists c; split; [done|lia]|]. intros now. unfold Allow. rewrite Hset, He, Eb. cbn [negb].
    destruct (Z.ltb_spec now (bk_deadline b)); [split; [done|lia]|]. by destruct (transitionLocked _ _ _ _).
  - exists (bk_lastProbeAt b + st_HalfOpenInterval s). split; [exists c; split; [done|lia]|]. intros now. unfold Allow. rewrite Hset, He, Eb. cbn [negb].
    rewrite <- (sub_reaches s now _ Hs). by destruct (_ <? _).
Qed.

Lemma polled_same due ms b :
  (forall now, (Allow now b).1 = true <-> due <= now) -> Forall (fun c => cl_Call c = CAllow) ms -> Forall (fun c => cl_At c < due) ms ->
  after ms b = b.
Proof.
  intros Hdue. induction ms as [|c ms IH]; intros Hms Hat; [done|]. apply Forall_cons in Hms as [Hc Hms], Hat as [Ht Hat]. cbn.
  unfold perform. rewrite Hc, refused_same; [by apply IH|]. apply not_true_is_false. rewrite Hdue. lia.
Qed.

(** (C29) A breaker that is switched on answers by what was recorded on it since the last
    success, whatever other breakers of the registry do and in whatever order calls arrive.
    It is available exactly while fewer failures than the threshold were recorded and
    nobody tripped it; an available breaker admits everything.  It never wedges: one that
    is not available has an instant from which it admits a probe, which is no later than
    the longest wait or the probe interval after a call already made, and which callers
    that ask before it, however often, do not move.  While nothing is recorded, probes are at least
    the probe interval apart; and ProbeDue says whether the next call would be a probe. *)
Theorem breaker_exact s fn cs k :
  machine_settings s -> st_Enabled s = true -> Forall fair cs ->
  let d := withDefaults s in
  let b := entry k (run_calls cs (wired s fn)) in
  let l := since_success (calls_on k cs) in
  (Available b = true <-> ~ tripped d l)
  /\ (forall now, Available b = true -> (Allow now b).1 = true)
  /\ (Available b = false -> exists due,
        (exists c, c ∈ l /\ due <= cl_At c + Z.max (st_OpenMax d) (st_HalfOpenInterval d))
        /\ forall ms now, only_allows k ms -> Forall (fun c => cl_At c < due) (calls_on k ms) ->
             (Allow now (entry k (run_calls (cs ++ ms) (wired s fn)))).1 = true <-> due <= now)
  /\ (forall now rand ms now', Available b = false -> (Allow now b).1 = true -> only_allows k ms ->
        (Allow now' (entry k (run_calls (cs ++ mkCalled k CAllow now rand :: ms) (wired s fn)))).1 = true ->
        now + st_HalfOpenInterval d <= now')
  /\ (forall now, ProbeDue now b = true <-> Available b = false /\ (Allow now b).1 = true).
Proof.
  intros Hm He Hf d b l. pose proof (run_holds s fn cs k Hm He Hf) as Hh. fold b d l in Hh. assert (Hset := ha_settings _ _ _ Hh). assert (Hst := ha_state _ _ _ Hh).
  pose proof (withDefaults_wf s Hm) as Hw. fold d in Hw.
  assert (st_Enabled (bk_settings b) = true) as Heb by by rewrite Hset.
  assert (Available b = bool_decide (bk_state b = StateClosed)) as Hav by (unfold Available; by rewrite Heb).
  assert (forall ms, entry k (run_calls (cs ++ ms) (wired s fn)) = after (calls_on k ms) b) as Hrun.
  { intros ms. unfold run_calls. rewrite fold_left_app. fold (run_calls cs (wired s fn)). by rewrite run_calls_entry. }
  rewrite Hav. split_and!.
  - rewrite bool_decide_eq_true. destruct (bk_state b); [|destruct Hst..]; naive_solver.
  - intros now Hc%bool_decide_eq_true. unfold Allow. by rewrite Heb, Hc.
  - intros Hn%bool_decide_eq_false. destruct (due_exists d l b Hw) as (due & Hc & Hdue); [by subst d|done|done|].
    exists due. split; [done|]. intros ms now Hms Hat. rewrite Hrun, (polled_same due) by done. apply Hdue.
  - intros now rand ms now' Hn%bool_decide_eq_false Ha Hms. rewrite Hrun. unfold calls_on. rewrite filter_cons_True by done. fold (calls_on k ms).
    cbn [after fold_left]. unfold perform at 2. cbn [cl_Call cl_At].
    destruct (Allow_probe now b Heb Hn Ha) as (Hs1 & Hs2 & Hs3).
    destruct (probing d (calls_on k ms) (Allow now b).2.1) as (Hp1 & Hp2 & Hp3); [done|by subst d|congruence|done|done|].
    unfold calls_on, after in *. unfold Allow at 1. rewrite Hp1, Hp2. replace (st_Enabled d) with true by by rewrite <- Hset.
    cbn [negb]. destruct (_ <? _) eqn:E; [done|]. intros _. apply sub_reaches in E; [|done]. lia.
  - intros now. unfold ProbeDue, Allow. rewrite Heb, bool_decide_eq_false. cbn [negb]. destruct (bk_state b); [naive_solver| |].
    + destruct (_ <? _); [naive_solver|]. destruct (transitionLocked _ _ _ _). naive_solver.
    + rewrite Z.leb_antisym. destruct (_ <? _); naive_solver.
Qed.

(** * What is announced *)

(** The abstract outage: a state, and how often the store was given up since it last
    answered. *)
Inductive outage_step (s : Settings) : State * nat -> Transition -> State * nat -> Prop :=
| outage_opens t :
    tr_From t = StateClosed -> tr_To t = StateOpen -> 1 <= tr_Backoff t <= backoff_cap s 1 ->
    outage_step s (StateClosed, 0%nat) t (StateOpen, 1%nat)
| outage_probes t n :
    tr_From t = StateOpen -> tr_To t = StateHalfOpen -> tr_Backoff t = 0 -> outage_step s (StateOpen, n) t (StateHalfOpen, n)
| outage_reopens t n :
    tr_From t = StateHalfOpen -> tr_To t = StateOpen -> 1 <= tr_Backoff t <= backoff_cap s (S n) ->
    outage_step s (StateHalfOpen, n) t (StateOpen, S n)
| outage_ends t st n :
    st <> StateClosed -> tr_From t = st -> tr_To t = StateClosed -> tr_Backoff t = 0 ->
    outage_step s (st, n) t (StateClosed, 0%nat).

Inductive outage (s : Settings) : State * nat -> list Transition -> State * nat -> Prop :=
| outage_nil x : outage s x [] x
| outage_cons x t y l z : outage_step s x t y -> outage s y l z -> outage s x (t :: l) z.

Lemma outage_app s x l1 y l2 z : outage s x l1 y -> outage s y l2 z -> outage s x (l1 ++ l2) z.
Proof. induction 1; [done|]. intros. econstructor; [done|auto]. Qed.

(** A breaker that has been given up [n] times; the machine counter may have wrapped. *)
Record given_up (s : Settings) (fn : nat) (k : string * string) (n : nat) (b : Breaker) : Prop := mk_given_up {
  gu_settings : bk_settings b = s;
  gu_callback : bk_onChange b = Some fn;
  gu_key : (bk_scope b, bk_opClass b) = k;
  gu_trips : min_int64 <= bk_trips b <= Z.of_nat n;
  gu_closed : bk_state b = StateClosed -> n = 0%nat
}.

Lemma wrap64_le z : min_int64 <= z -> wrap64 z <= z.
Proof.
  intros Hz. unfold wrap64, min_int64 in *. pose proof (Z.mod_le (z + 2 ^ 63) (2 ^ 64)). lia.
Qed.

Definition about (fn : nat) (k : string * string) (x : nat * Transition) : Prop := x.1 = fn /\ (tr_Scope x.2, tr_OpClass x.2) = k.

(** What a call announces from [b]. *)
Definition announces (s : Settings) (fn : nat) (k : string * string) (n : nat) (b : Breaker) (out : Breaker * Notices) : Prop :=
  exists m, Forall (about fn k) out.2 /\ outage s (bk_state b, n) (snd <$> out.2) (bk_state out.1, m) /\ given_up s fn k m out.1.

Lemma announces_nothing s fn k n b b' :
  given_up s fn k n b' -> bk_state b' = bk_state b -> announces s fn k n b (b', []).
Proof. intros Hb E. exists n. split; [done|]. split; [|done]. cbn. rewrite E. constructor. Qed.

Lemma announces_opening s fn k n m b c :
  settings_wf s -> fair c -> given_up s fn k m (set_state StateOpen b) ->
  (bk_state b = StateClosed /\ n = 0%nat /\ m = 1%nat \/ bk_state b = StateHalfOpen /\ m = S n) ->
  announces s fn k n b (openLocked (cl_Rand c) (cl_At c) b).
Proof.
  intros Hs Hf [H1 H2 H3 H4 H5] Hst. cbn in *. unfold announces, openLocked, transitionLocked. cbn [bk_state set_deadline].
  rewrite bool_decide_eq_false_2 by (destruct Hst as [[-> _]|[-> _]]; done). cbn. rewrite H2. exists m. split; [|split].
  - constructor; [|done]. split; [done|]. cbn. done.
  - assert (1 <= fullJitter (cl_Rand c) (backoffCapLocked b) <= backoff_cap s m) as Hj.
    { rewrite backoffCapLocked_exact by by rewrite H1. rewrite H1.
      pose proof (jitter_bounds c (backoff_cap s (Z.to_nat (bk_trips b))) Hf).
      pose proof (backoff_cap_pos s (Z.to_nat (bk_trips b)) Hs).
      pose proof (backoff_cap_mono s (Z.to_nat (bk_trips b)) m Hs). lia. }
    destruct Hst as [(E & -> & ->)|(E & ->)]; rewrite E; (econstructor; [|constructor]); by constructor.
  - by split.
Qed.

Lemma perform_announces s fn k n b c :
  settings_wf s -> st_Enabled s = true -> fair c -> given_up s fn k n b -> announces s fn k n b (perform c b).2.
Proof.
  intros Hs He Hf Hb. pose proof Hb as [H1 H2 H3 H4 H5]. assert (st_Enabled (bk_settings b) = true) as Heb by by rewrite H1.
  assert (given_up s fn k 1 (set_state StateOpen (set_trips 1 b))) as Hone by (by split).
  assert (given_up s fn k (S n) (set_state StateOpen (set_trips (wrap64 (bk_trips b + 1)) b))) as Hmore.
  { split; cbn; [done..| |done]. pose proof (wrap64_le (bk_trips b + 1)). pose proof (wrap64_range (bk_trips b + 1)). lia. }
  unfold perform. destruct (cl_Call c); cbn [snd]; unfold Allow, RecordSuccess, RecordFailure, Trip; rewrite Heb; cbn [negb].
  - destruct (bk_state b) eqn:Eb; [by apply announces_nothing| |].
    + destruct (_ <? _); [by apply announces_nothing|]. unfold transitionLocked. rewrite bool_decide_eq_false_2 by by rewrite Eb.
      rewrite H2. exists n. split; [by constructor|]. split; [|by split]. cbn. rewrite Eb. econstructor; [by constructor|constructor].
    + destruct (_ <? _); [by apply announces_nothing|]. apply announces_nothing; [|done]. split; cbn; try done. by rewrite Eb.
  - destruct (bk_state b) eqn:Eb; cbn [bk_state set_trips set_failures]; rewrite Eb.
    { rewrite bool_decide_eq_true_2 by done. rewrite (H5 eq_refl) in *. apply announces_nothing; [|done]. by split. }
    all: rewrite bool_decide_eq_false_2 by done; unfold transitionLocked; cbn [bk_state set_trips set_failures bk_onChange];
      rewrite Eb, bool_decide_eq_false_2, H2 by done; exists 0%nat; (split; [by constructor|]); (split; [|by split]);
      cbn; rewrite Eb; econstructor; [by apply outage_ends|constructor].
  - destruct (bk_state b) eqn:Eb.
    + cbn [bk_failures set_failures bk_settings]. destruct (_ <=? _).
      * apply (announces_opening s fn k n 1 (set_trips 1 (set_failures (wrap64 (bk_failures b + 1)) b)) c); [done|done| |left; auto]. by split.
      * apply announces_nothing; [|done]. split; cbn; try done. by rewrite Eb.
    + by apply announces_nothing.
    + by apply (announces_opening s fn k n (S n) (set_trips (wrap64 (bk_trips b + 1)) b) c); [..|right].
  - destruct (bk_state b) eqn:Eb.
    + apply (announces_opening s fn k n 1 (set_trips 1 b) c); [done|done|done|left; auto].
    + by apply announces_nothing.
    + by apply (announces_opening s fn k n (S n) (set_trips (wrap64 (bk_trips b + 1)) b) c); [..|right].
Qed.

Fixpoint notices (cs : list Called) (r : Registry) : Notices :=
  match cs with [] => [] | c :: cs' => (call_on c r).2.2 ++ notices cs' (call_on c r).2.1 end.

Definition of_key (k : string * string) (ns : Notices) : Notices := filter (fun x => (tr_Scope x.2, tr_OpClass x.2) = k) ns.

Lemma call_on_notices c r : (call_on c r).2.2 = (perform c (entry (cl_Key c) r)).2.2.
Proof.
  unfold call_on, entry. destruct (registry_Breaker _ _ r) as [b r']. cbn. by destruct (perform c b) as [? [? ?]].
Qed.

Lemma of_key_about fn k k' ns : Forall (about fn k) ns -> of_key k' ns = if decide (k = k') then ns else [].
Proof.
  intros Hn. unfold of_key. induction Hn as [|x ns [_ Hx] _ IH]; [by destruct (decide _)|].
  rewrite filter_cons, IH, Hx. by destruct (decide (k = k')).
Qed.

Lemma notices_from s fn cs r :
  settings_wf s -> st_Enabled s = true -> Forall fair cs ->
  (forall k, exists n, given_up s fn k n (entry k r)) ->
  Forall (fun x => x.1 = fn) (notices cs r)
  /\ forall k n, given_up s fn k n (entry k r) ->
       exists m, outage s (bk_state (entry k r), n) (snd <$> of_key k (notices cs r)) (bk_state (entry k (run_calls cs r)), m)
                 /\ given_up s fn k m (entry k (run_calls cs r)).
Proof.
  intros Hs He Hf. revert r. induction Hf as [|c cs Hc _ IH]; intros r Hr.
  - split; [done|]. intros k n Hk. exists n. split; [constructor|done].
  - cbn [notices]. unfold run_calls. cbn [fold_left]. fold (run_calls cs (call_on c r).2.1).
    destruct (IH (call_on c r).2.1) as [IH1 IH2].
    { intros k. destruct (Hr k) as [n Hk]. rewrite call_on_entry. destruct (decide _) as [E|]; [|by exists n].
      destruct (perform_announces s fn k n (entry k r) c Hs He Hc Hk) as (m & _ & _ & ?). by exists m. }
    split.
    + apply Forall_app. split; [|done]. rewrite call_on_notices. destruct (Hr (cl_Key c)) as [n Hk].
      destruct (perform_announces s fn _ n _ c Hs He Hc Hk) as (m & Ha & _). eapply Forall_impl; [exact Ha|]. by intros x [? _].
    + intros k n Hk. unfold of_key. rewrite filter_app. fold (of_key k (call_on c r).2.2). rewrite call_on_notices.
      destruct (Hr (cl_Key c)) as [n0 Hk0].
      destruct (perform_announces s fn _ n0 _ c Hs He Hc Hk0) as (m0 & Ha & _). rewrite (of_key_about fn (cl_Key c) k _ Ha).
      specialize (IH2 k). rewrite call_on_entry in IH2. destruct (decide (cl_Key c = k)) as [E|E].
      * rewrite E in *. destruct (perform_announces s fn k n _ c Hs He Hc Hk) as (m & _ & Ho & Hg).
        destruct (IH2 m Hg) as (m' & Ho' & Hg'). exists m'. split; [|done]. rewrite fmap_app. by apply outage_app with (bk_state (perform c (entry k r)).2.1, m).
      * cbn. by apply IH2.
Qed.

(** (C33) Every change of a breaker is announced, to the callback that is installed, and
    nothing else is: the announcements about one breaker, among those of all the others,
    are a run of the abstract outage that starts closed and ends in the state the breaker
    reports.  A closed breaker opens, an open one probes, a probe reopens or closes; and
    the wait announced by the n-th opening of an outage is positive and at most the base
    doubled n-1 times, capped by the maximum, although it is computed in machine
    arithmetic. *)
Theorem outage_announced s fn cs :
  machine_settings s -> st_Enabled s = true -> Forall fair cs ->
  let r := wired s (Some fn) in
  Forall (fun x => x.1 = fn) (notices cs r)
  /\ forall k, exists n,
       outage (withDefaults s) (StateClosed, 0%nat) (snd <$> of_key k (notices cs r)) (breaker_State (entry k (run_calls cs r)), n).
Proof.
  intros Hm He Hf r. pose proof (withDefaults_wf s Hm) as Hw.
  assert (forall k, given_up (withDefaults s) fn k 0 (entry k r)) as H0.
  { intros k. unfold r. rewrite wired_entry. split; cbn; [by apply withDefaults_idem|done|by destruct k|by vm_compute|done]. }
  destruct (notices_from (withDefaults s) fn cs r Hw He Hf) as [H1 H2]; [intros k; by exists 0%nat|].
  split; [done|]. intros k. destruct (H2 k _ (H0 k)) as (m & Ho & Hg). exists m.
  unfold breaker_State. rewrite (gu_settings _ _ _ _ _ Hg). replace (st_Enabled (withDefaults s)) with true by done. cbn [negb].
  unfold r in Ho at 1. by rewrite wired_entry in Ho.
Qed.

(** * A history of two stores *)

Definition on_store (scope : string) (c : Call) (at_ : Z) : Called := mkCalled (scope, OpClassBd) c at_ (fun n => n - 1).

Definition an_outage : list Called :=
  [on_store "/a" CRecordFailure 10; on_store "/b" CTrip 11; on_store "/a" CRecordFailure 12; on_store "/a" CRecordFailure 13;
   on_store "/a" CAllow 14; on_store "/a" CAllow (13 + Second); on_store "/a" CRecordFailure (14 + Second);
   on_store "/a" CAllow (14 + 3 * Second)].

Lemma on_store_fair scope c at_ : fair (on_store scope c at_).
Proof. intros n Hn. cbn. lia. Qed.

Lemma default_machine : machine_settings DefaultSettings.
Proof. split_and!; vm_compute; discriminate. Qed.

Lemma an_outage_fair : Forall fair an_outage.
Proof. unfold an_outage. do 8 (apply List.Forall_cons; [apply on_store_fair|]). apply List.Forall_nil. Qed.

Lemma breaker_exact_witness :
  let b := entry ("/a", OpClassBd) (run_calls an_outage (wired DefaultSettings None)) in
  Available b = false /\ (Allow (14 + 18 * Second) b).1 = true /\ (Allow (14 + 17 * Second) b).1 = false
  /\ (Available b = true <-> ~ tripped (withDefaults DefaultSettings) (since_success (calls_on ("/a", OpClassBd) an_outage))).
Proof.
  split; [reflexivity|]. split; [reflexivity|]. split; [reflexivity|].
  exact (proj1 (breaker_exact DefaultSettings None an_outage ("/a", OpClassBd) default_machine eq_refl an_outage_fair)).
Defined.

Lemma outage_announced_witness :
  let r := wired DefaultSettings (Some 7%nat) in
  (tr_Backoff <$> (snd <$> of_key ("/a", OpClassBd) (notices an_outage r))) = [Second; 0; 2 * Second; 0]
  /\ exists n, outage (withDefaults DefaultSettings) (StateClosed, 0%nat) (snd <$> of_key ("/b", OpClassBd) (notices an_outage r))
                 (breaker_State (entry ("/b", OpClassBd) (run_calls an_outage r)), n).
Proof.
  split; [reflexivity|].
  exact (proj2 (outage_announced DefaultSettings 7 an_outage default_machine eq_refl an_outage_fair) ("/b", OpClassBd)).
Defined.
