(* ===== verification/PoolPlan.v ===== *)
(** Sharing the session creates of a planning cycle between agent pools
    (internal/poolplan/create_budget.go), and what a template is guaranteed whatever the
    others claim.  A budget's methods hold its mutex, so concurrent creates are a sequence
    of claims and releases. *)
From S2P Require Import Prelude GoStd.

Module poolplan.

Record Demand : Type := mkDemand {
  dm_Template : string;
  dm_FreshCreates : Z;
  dm_HasFloor : bool
}.

(** The nil budget, which limits nothing, is None where a budget is expected; a nil map of
    shares is None too. *)
Record CreateBudget : Type := mkBudget {
  cb_remaining : Z;
  cb_templateRemaining : option (gmap string Z);
  cb_spare : Z
}.

Definition NewCreateBudget (limit : Z) : option CreateBudget :=
  if limit <=? 0 then None else Some (mkBudget limit None 0).

(** * Fair shares *)

Definition share (shares : gmap string Z) (d : Demand) : Z := default 0 (shares !! dm_Template d).

(** shares[demand.Template]++ *)
Definition give (d : Demand) (shares : gmap string Z) : gmap string Z :=
  <[dm_Template d := share shares d + 1]> shares.

(** active[(start+offset)%len(active)] for every offset in turn. *)
Definition rotated (active : list Demand) (start : nat) : list Demand := rotate start active.

Fixpoint floor_loop (floorBudget : Z) (ds : list Demand) (shares : gmap string Z) (remaining floorUsed : Z) : gmap string Z * Z :=
  match ds with
  | [] => (shares, remaining)
  | d :: ds' =>
      if floorBudget <=? floorUsed then (shares, remaining)
      else if dm_HasFloor d then floor_loop floorBudget ds' (give d shares) (remaining - 1) (floorUsed + 1)
      else floor_loop floorBudget ds' shares remaining floorUsed
  end.

(** What a round leaves: the shares, the tokens left, those given to elastic demand, and
    whether any was given. *)
Record Round : Type := mkRound {
  rd_shares : gmap string Z;
  rd_remaining : Z;
  rd_given : Z;
  rd_progressed : bool
}.

Definition gave (d : Demand) (r : Round) : Round :=
  mkRound (give d (rd_shares r)) (rd_remaining r - 1) (rd_given r + 1) true.

Fixpoint elastic_round (elasticReserve : Z) (ds : list Demand) (r : Round) : Round :=
  match ds with
  | [] => r
  | d :: ds' =>
      if (0 <? rd_remaining r) && (rd_given r <? elasticReserve) then
        if dm_HasFloor d || (dm_FreshCreates d <=? share (rd_shares r) d) then elastic_round elasticReserve ds' r
        else elastic_round elasticReserve ds' (gave d r)
      else r
  end.

Fixpoint elastic_loop (fuel : nat) (elasticReserve : Z) (ds : list Demand) (shares : gmap string Z) (remaining given : Z)
  : option (gmap string Z * Z) :=
  match fuel with
  | O => None
  | S fuel' =>
      if (given <? elasticReserve) && (0 <? remaining) then
        let r := elastic_round elasticReserve ds (mkRound shares remaining given false) in
        if rd_progressed r then elastic_loop fuel' elasticReserve ds (rd_shares r) (rd_remaining r) (rd_given r)
        else Some (rd_shares r, rd_remaining r)
      else Some (shares, remaining)
  end.

(** The general round counts what it gave too, which the code does not need to. *)
Fixpoint general_round (ds : list Demand) (r : Round) : Round :=
  match ds with
  | [] => r
  | d :: ds' =>
      if 0 <? rd_remaining r then
        if dm_FreshCreates d <=? share (rd_shares r) d then general_round ds' r else general_round ds' (gave d r)
      else r
  end.

Fixpoint general_loop (fuel : nat) (ds : list Demand) (shares : gmap string Z) (remaining : Z) : option (gmap string Z * Z) :=
  match fuel with
  | O => None
  | S fuel' =>
      if 0 <? remaining then
        let r := general_round ds (mkRound shares remaining 0 false) in
        if rd_progressed r then general_loop fuel' ds (rd_shares r) (rd_remaining r)
        else Some (rd_shares r, rd_remaining r)
      else Some (shares, remaining)
  end.

Definition elastic_demand (active : list Demand) : Z :=
  fold_left (fun sum d => if dm_HasFloor d then sum else wrap64 (sum + dm_FreshCreates d)) active 0.

Definition active_demands (demands : list Demand) : list Demand := List.filter (fun d => 0 <? dm_FreshCreates d) demands.

Definition elastic_reserve (active : list Demand) (limit : Z) : Z :=
  let reserve := Z.quot limit 4 in
  if elastic_demand active <? reserve then elastic_demand active else reserve.

(** None only when a loop runs out of its turns: one more than the tokens. *)
Definition fairShares (demands : list Demand) (limit : Z) (seed : N) : option (option (gmap string Z) * Z) :=
  if limit <=? 0 then Some (None, 0)
  else
    let active := active_demands demands in
    if (length active <=? 1)%nat then Some (None, 0)
    else
      let ds := rotated active (N.to_nat (seed mod N.of_nat (length active))) in
      let reserve := elastic_reserve active limit in
      let '(shares, remaining) := floor_loop (limit - reserve) ds ∅ limit 0 in
      match elastic_loop (S (Z.to_nat limit)) reserve ds shares remaining 0 with
      | None => None
      | Some (shares, remaining) =>
          match general_loop (S (Z.to_nat limit)) ds shares remaining with
          | None => None
          | Some (shares, remaining) => Some (Some shares, remaining)
          end
      end.

(** * The budget *)

Definition ConfigureFairShare (demands : list Demand) (seed : N) (b : option CreateBudget) : option (option CreateBudget) :=
  match b with
  | None => Some None
  | Some b =>
      match fairShares demands (cb_remaining b) seed with
      | None => None
      | Some (shares, spare) => Some (Some (mkBudget (cb_remaining b) shares spare))
      end
  end.

Definition TryClaim (template : string) (b : option CreateBudget) : bool * option CreateBudget :=
  match b with
  | None => (true, None)
  | Some b =>
      if cb_remaining b <=? 0 then (false, Some b)
      else match cb_templateRemaining b with
           | None => (true, Some (mkBudget (cb_remaining b - 1) None (cb_spare b)))
           | Some shares =>
               let mine := default 0 (shares !! template) in
               if 0 <? mine then (true, Some (mkBudget (cb_remaining b - 1) (Some (<[template := mine - 1]> shares)) (cb_spare b)))
               else if 0 <? cb_spare b then (true, Some (mkBudget (cb_remaining b - 1) (Some shares) (cb_spare b - 1)))
               else (false, Some b)
           end
  end.

Definition Release (b : option CreateBudget) : option CreateBudget :=
  match b with
  | None => None
  | Some b =>
      Some (mkBudget (wrap64 (cb_remaining b + 1)) (cb_templateRemaining b)
              (match cb_templateRemaining b with Some _ => wrap64 (cb_spare b + 1) | None => cb_spare b end))
  end.

End poolplan.

Import poolplan.

(** * Sums of shares *)

Fixpoint total (f : Demand -> Z) (l : list Demand) : Z :=
  match l with [] => 0 | d :: l' => f d + total f l' end.

Lemma total_ext f g l : (forall d, d ∈ l -> f d = g d) -> total f l = total g l.
Proof.
  induction l as [|d l IH]; intros Hl; [done|]. cbn [total].
  rewrite (Hl d), IH; [done| |set_solver]. intros x Hx. apply Hl. set_solver.
Qed.

Lemma total_le f g l : (forall d, d ∈ l -> f d <= g d) -> total f l <= total g l.
Proof.
  induction l as [|d l IH]; intros Hl; [done|]. cbn. assert (f d <= g d) by (apply Hl; set_solver).
  assert (total f l <= total g l) by (apply IH; intros x Hx; apply Hl; set_solver). lia.
Qed.

Lemma total_nonneg f l : (forall d, d ∈ l -> 0 <= f d) -> 0 <= total f l.
Proof.
  intros Hl. assert (total (fun _ => 0) l <= total f l) as H by by apply total_le.
  assert (total (fun _ => 0) l = 0) as E by (clear; induction l; cbn in *; lia). lia.
Qed.

Lemma total_member f l d : (forall x, x ∈ l -> 0 <= f x) -> d ∈ l -> f d <= total f l.
Proof.
  induction l as [|x l IH]; intros Hl Hd; [set_solver|]. cbn [total].
  assert (forall y, y ∈ l -> 0 <= f y) as Hl' by (intros y Hy; apply Hl; set_solver).
  assert (0 <= f x) by (apply Hl; set_solver). pose proof (total_nonneg f l Hl').
  apply elem_of_cons in Hd as [->|Hd]; [lia|]. specialize (IH Hl' Hd). lia.
Qed.

Lemma total_perm f l l' : l ≡ₚ l' -> total f l = total f l'.
Proof. induction 1; cbn in *; lia. Qed.

Lemma total_eq_le f g l :
  (forall d, d ∈ l -> f d <= g d) -> total g l <= total f l -> forall d, d ∈ l -> f d = g d.
Proof.
  induction l as [|x l IH]; intros Hl Ht d Hd; [set_solver|]. cbn in Ht.
  assert (f x <= g x) by (apply Hl; set_solver).
  assert (total f l <= total g l) by (apply total_le; intros y Hy; apply Hl; set_solver).
  apply elem_of_cons in Hd as [->|Hd]; [lia|]. apply IH; [intros y Hy; apply Hl; set_solver|lia|done].
Qed.

Lemma share_give d d' sh :
  share (give d sh) d' = if decide (dm_Template d = dm_Template d') then share sh d' + 1 else share sh d'.
Proof.
  unfold give, share. destruct (decide _) as [->|Hne]; [by rewrite lookup_insert_eq|by rewrite lookup_insert_ne].
Qed.

Definition distinct (l : list Demand) : Prop := NoDup (dm_Template <$> l).

Lemma distinct_inj l x y : distinct l -> x ∈ l -> y ∈ l -> dm_Template x = dm_Template y -> x = y.
Proof.
  unfold distinct. intros Hnd [i Hi]%list_elem_of_lookup [j Hj]%list_elem_of_lookup E.
  assert (i = j) as ->; [|congruence].
  apply (NoDup_lookup _ _ _ (dm_Template x) Hnd); rewrite list_lookup_fmap; [by rewrite Hi|rewrite Hj; cbn; by rewrite E].
Qed.

Lemma total_give_other d sh l : dm_Template d ∉ dm_Template <$> l -> total (share (give d sh)) l = total (share sh) l.
Proof.
  intros Hd. apply total_ext. intros x Hx. rewrite share_give, decide_False; [done|].
  intros E. apply Hd. rewrite E. by apply list_elem_of_fmap_2.
Qed.

Lemma total_give d sh l : distinct l -> d ∈ l -> total (share (give d sh)) l = total (share sh) l + 1.
Proof.
  unfold distinct. induction l as [|x l IH]; intros Hnd Hd; [set_solver|]. cbn in *. apply NoDup_cons in Hnd as [Hx Hnd].
  rewrite share_give. apply elem_of_cons in Hd as [->|Hd].
  - rewrite decide_True, total_give_other by done. lia.
  - rewrite decide_False, IH by (try done; intros E; apply Hx; rewrite <- E; by apply list_elem_of_fmap_2). lia.
Qed.

Definition elastic (l : list Demand) : list Demand := filter (fun d => dm_HasFloor d = false) l.

Lemma distinct_elastic l : distinct l -> distinct (elastic l).
Proof. unfold distinct, elastic. intros Hl. apply (sublist_NoDup _ _ Hl). apply fmap_sublist, sublist_filter. Qed.

(** * The rotation *)

Lemma rotated_perm active start : rotated active start ≡ₚ active.
Proof. unfold rotated, rotate. rewrite Permutation_app_comm. by rewrite take_drop. Qed.

Lemma rotated_first active start d :
  active !! start = Some d -> exists ds, rotated active start = d :: ds.
Proof.
  intros Hd. pose proof (lookup_lt_Some _ _ _ Hd) as Hlt. unfold rotated, rotate. rewrite Nat.mod_small by done.
  rewrite (drop_S _ _ _ Hd). by eexists.
Qed.

(** * Giving tokens *)

Section shares.
Context (active : list Demand) (limit : Z) (Hactive : distinct active) (Hpos : forall d, d ∈ active -> 1 <= dm_FreshCreates d).

Record allocated (sh : gmap string Z) (rem : Z) : Prop := mk_allocated {
  al_range : forall d, d ∈ active -> 0 <= share sh d <= dm_FreshCreates d;
  al_sum : total (share sh) active + rem = limit;
  al_rem : 0 <= rem;
  al_dom : forall t, is_Some (sh !! t) -> t ∈ dm_Template <$> active
}.

Lemma allocated_le sh rem : allocated sh rem -> rem <= limit.
Proof. intros [Hr Hs _ _]. pose proof (total_nonneg (share sh) active (fun d Hd => proj1 (Hr d Hd))). lia. Qed.

Lemma allocated_give d sh rem :
  allocated sh rem -> d ∈ active -> 0 < rem -> share sh d < dm_FreshCreates d -> allocated (give d sh) (rem - 1).
Proof.
  intros [Hr Hs Hn Hd] Hin Hrem Hlt. split.
  - intros x Hx. rewrite share_give. specialize (Hr x Hx). destruct (decide _) as [E|]; [|lia].
    assert (x = d) as ->; [|lia]. by apply (distinct_inj active).
  - rewrite total_give by done. lia.
  - lia.
  - intros t. unfold give. rewrite lookup_insert_is_Some. intros [<- |[_ ?]]; [by apply list_elem_of_fmap_2|by apply Hd].
Qed.

(** ** Floors *)

Record floored (fb : Z) (ds : list Demand) (sh : gmap string Z) (rem used : Z) (out : gmap string Z * Z) : Prop := mk_floored {
  fl_alloc : allocated out.1 out.2;
  fl_spent : rem - out.2 <= fb - used;
  fl_frame : forall d, (dm_Template d ∉ dm_Template <$> ds) \/ dm_HasFloor d = false /\ d ∈ active -> share out.1 d = share sh d;
  fl_served : forall d, d ∈ ds -> dm_HasFloor d = true -> share out.1 d = 1 \/ share out.1 d = 0 /\ rem - out.2 = fb - used;
  fl_first : forall d, head ds = Some d -> dm_HasFloor d = true -> used < fb -> share out.1 d = 1
}.

Lemma floor_loop_spec fb ds sh rem used :
  distinct ds -> (forall d, d ∈ ds -> d ∈ active /\ share sh d = 0) -> allocated sh rem -> used <= fb -> fb - used <= rem ->
  floored fb ds sh rem used (floor_loop fb ds sh rem used).
Proof.
  revert sh rem used. induction ds as [|d ds IH]; intros sh rem used Hnd Hds Hal Hu Hf; cbn [floor_loop].
  - split; cbn; [done|lia|done|set_solver|done].
  - destruct (Z.leb_spec fb used) as [Hle|Hlt].
    + split; cbn; [done|lia|done| |lia]. intros x Hx _. right. split; [by apply Hds|lia].
    + destruct (Hds d) as [Hin Hz]; [set_solver|]. unfold distinct in Hnd. cbn in Hnd. apply NoDup_cons in Hnd as [Hnd1 Hnd2].
      destruct (dm_HasFloor d) eqn:Ef.
      * destruct (IH (give d sh) (rem - 1) (used + 1)) as [H1 H2 H3 H4 _]; [done| |apply allocated_give; [done|done|lia|pose proof (Hpos d Hin); lia]|lia|lia|].
        { intros x Hx. destruct (Hds x) as [Hxa Hxz]; [set_solver|]. split; [done|].
          rewrite share_give, decide_False; [done|]. intros E. apply Hnd1. rewrite E. by apply list_elem_of_fmap_2. }
        assert (share (floor_loop fb ds (give d sh) (rem - 1) (used + 1)).1 d = 1) as Hone.
        { rewrite H3 by by left. rewrite share_give, decide_True by done. lia. }
        split; [done|lia| | |by intros ? [= ->]].
        -- intros x Hx. rewrite H3 by (destruct Hx as [Hx|Hx]; [left; set_solver|by right]). rewrite share_give, decide_False; [done|].
           intros E. destruct Hx as [Hx|[Hx Hxa]]; [apply Hx; rewrite <- E; set_solver|].
           assert (x = d) as ->; [|congruence]. by apply (distinct_inj active).
        -- intros x Hx Hxf. apply elem_of_cons in Hx as [->|Hx].
           ++ by left.
           ++ destruct (H4 x Hx Hxf) as [?|[? ?]]; [by left|right; split; [done|lia]].
      * destruct (IH sh rem used) as [H1 H2 H3 H4 _]; [done|intros x Hx; apply Hds; set_solver|done|lia|lia|].
        split; [done|done| | |by intros ? [= <-] ?; congruence].
        -- intros x Hx. apply H3. destruct Hx as [Hx|Hx]; [left; set_solver|by right].
        -- intros x Hx Hxf. apply elem_of_cons in Hx as [->|Hx]; [congruence|by apply H4].
Qed.

(** ** Rounds *)

Definition gives (P : Demand -> Prop) (r r' : Round) : Prop :=
  exists d, d ∈ active /\ P d /\ 0 < rd_remaining r /\ share (rd_shares r) d < dm_FreshCreates d /\ r' = gave d r.

(** The invariant of giving tokens from [r0] on. *)
Record given_from (P : Demand -> Prop) (r0 r : Round) : Prop := mk_given_from {
  gf_alloc : allocated (rd_shares r) (rd_remaining r);
  gf_count : rd_given r + rd_remaining r = rd_given r0 + rd_remaining r0;
  gf_more : rd_given r0 <= rd_given r;
  gf_mono : forall d, share (rd_shares r0) d <= share (rd_shares r) d;
  gf_frame : forall d, d ∈ active -> ~ P d -> share (rd_shares r) d = share (rd_shares r0) d;
  gf_total : forall l, distinct l -> l ⊆ active -> (forall d, d ∈ active -> P d -> d ∈ l) ->
               total (share (rd_shares r)) l - rd_given r = total (share (rd_shares r0)) l - rd_given r0;
  gf_prog : r = r0 \/ rd_progressed r = true /\ rd_given r0 < rd_given r
}.

Lemma gives_given P r0 r : allocated (rd_shares r0) (rd_remaining r0) -> rtc (gives P) r0 r -> given_from P r0 r.
Proof.
  intros Hal. revert r. apply rtc_ind_r; [split; try done; by left|].
  intros r r' Hr [d (Hin & HP & Hrem & Hlt & ->)] [H1 H2 H3 H4 H5 H6 H7].
  split; cbn.
  - by apply allocated_give.
  - lia.
  - lia.
  - intros x. specialize (H4 x). rewrite share_give. destruct (decide _); lia.
  - intros x Hx HnP. rewrite share_give, decide_False; [by apply H5|]. intros E. apply HnP.
    assert (x = d) as ->; [|done]. by apply (distinct_inj active).
  - intros l Hl Hsub HPl. rewrite total_give by auto. specialize (H6 l Hl Hsub HPl). lia.
  - right. split; [done|]. lia.
Qed.

Lemma elastic_round_gives reserve ds r :
  ds ⊆ active -> rtc (gives (fun d => dm_HasFloor d = false)) r (elastic_round reserve ds r).
Proof.
  revert r. induction ds as [|d ds IH]; intros r Hds; cbn [elastic_round]; [done|].
  destruct (_ && _) eqn:E; [|done]. apply andb_prop in E as [Hr%Z.ltb_lt Hg%Z.ltb_lt].
  destruct (_ || _) eqn:E; [apply IH; set_solver|]. apply orb_false_elim in E as [Hf Hs%Z.leb_gt].
  apply rtc_l with (gave d r); [|apply IH; set_solver]. exists d. split_and!; [set_solver|done..].
Qed.

Lemma elastic_round_quota reserve ds r : rd_given r <= reserve -> rd_given (elastic_round reserve ds r) <= reserve.
Proof.
  revert r. induction ds as [|d ds IH]; intros r Hr; cbn [elastic_round]; [done|].
  destruct (_ && _) eqn:E; [|done]. apply andb_prop in E as [_ Hg%Z.ltb_lt].
  destruct (_ || _); [by apply IH|]. apply IH. cbn. lia.
Qed.

Lemma elastic_round_more reserve ds r : rd_given r <= rd_given (elastic_round reserve ds r).
Proof.
  revert r. induction ds as [|d ds IH]; intros r; cbn [elastic_round]; [done|]. destruct (_ && _); [|done].
  destruct (_ || _); [done|]. specialize (IH (gave d r)). cbn [rd_given gave] in IH. lia.
Qed.

(** A round that gave nothing found nobody to give to. *)
Lemma elastic_round_stuck reserve ds r d :
  0 < rd_remaining r -> rd_given r < reserve -> elastic_round reserve ds r = r -> d ∈ ds -> dm_HasFloor d = false ->
  dm_FreshCreates d <= share (rd_shares r) d.
Proof.
  intros Hrem Hg. induction ds as [|x ds IH]; intros E Hd Hf; [set_solver|]. revert E. cbn [elastic_round].
  rewrite (proj2 (Z.ltb_lt _ _) Hrem), (proj2 (Z.ltb_lt _ _) Hg). cbn [andb].
  destruct (_ || _) eqn:Es; intros E.
  - apply elem_of_cons in Hd as [->|Hd]; [|by apply IH]. rewrite Hf in Es. by apply Z.leb_le in Es.
  - pose proof (elastic_round_more reserve ds (gave x r)) as Hm. rewrite E in Hm. cbn in Hm. lia.
Qed.

Lemma general_round_gives ds r : ds ⊆ active -> rtc (gives (fun _ => True)) r (general_round ds r).
Proof.
  revert r. induction ds as [|d ds IH]; intros r Hds; cbn [general_round]; [done|].
  destruct (Z.ltb_spec 0 (rd_remaining r)); [|done].
  destruct (Z.leb_spec (dm_FreshCreates d) (share (rd_shares r) d)); [apply IH; set_solver|].
  apply rtc_l with (gave d r); [|apply IH; set_solver]. exists d. split_and!; [set_solver|done..].
Qed.

Lemma general_round_more ds r : rd_given r <= rd_given (general_round ds r).
Proof.
  revert r. induction ds as [|d ds IH]; intros r; cbn [general_round]; [done|]. destruct (_ <? _); [|done].
  destruct (_ <=? _); [done|]. specialize (IH (gave d r)). cbn [rd_given gave] in IH. lia.
Qed.

Lemma general_round_stuck ds r d :
  0 < rd_remaining r -> general_round ds r = r -> d ∈ ds -> dm_FreshCreates d <= share (rd_shares r) d.
Proof.
  intros Hrem. induction ds as [|x ds IH]; intros E Hd; [set_solver|]. revert E. cbn [general_round].
  rewrite (proj2 (Z.ltb_lt _ _) Hrem). destruct (Z.leb_spec (dm_FreshCreates x) (share (rd_shares r) x)); intros E.
  - apply elem_of_cons in Hd as [->|Hd]; [done|by apply IH].
  - pose proof (general_round_more ds (gave x r)) as Hm. rewrite E in Hm. cbn in Hm. lia.
Qed.

(** ** Loops *)

(** The first who can take a token of a round takes one. *)
Lemma elastic_round_first reserve d ds r :
  allocated (rd_shares r) (rd_remaining r) -> d :: ds ⊆ active -> 0 < rd_remaining r -> rd_given r < reserve -> dm_HasFloor d = false ->
  share (rd_shares r) d < dm_FreshCreates d -> share (rd_shares r) d < share (rd_shares (elastic_round reserve (d :: ds) r)) d.
Proof.
  intros Hal Hds Hrem Hg Hf Hs. cbn [elastic_round].
  rewrite (proj2 (Z.ltb_lt _ _) Hrem), (proj2 (Z.ltb_lt _ _) Hg), Hf, (proj2 (Z.leb_gt _ _) Hs). cbn [andb orb].
  pose proof (elastic_round_gives reserve ds (gave d r)) as Hgv. apply (gives_given _ (gave d r)) in Hgv.
  - pose proof (gf_mono _ _ _ Hgv d) as Hm. cbn [rd_shares gave] in Hm. rewrite share_give, decide_True in Hm by done. lia.
  - cbn. apply allocated_give; [done|set_solver|done|done].
  - set_solver.
Qed.

Lemma elastic_loop_spec fuel reserve ds sh rem given :
  ds ≡ₚ active -> allocated sh rem -> given <= reserve -> reserve - given <= rem ->
  total (share sh) (elastic active) = given -> reserve <= total dm_FreshCreates (elastic active) ->
  reserve - given < Z.of_nat fuel ->
  exists sh' rem', elastic_loop fuel reserve ds sh rem given = Some (sh', rem')
    /\ allocated sh' rem' /\ rem - rem' = reserve - given
    /\ (forall d, share sh d <= share sh' d) /\ (forall d, d ∈ active -> dm_HasFloor d = true -> share sh' d = share sh d)
    /\ total (share sh') (elastic active) = reserve
    /\ (forall d, head ds = Some d -> dm_HasFloor d = false -> given < reserve -> share sh d < dm_FreshCreates d -> share sh d < share sh' d).
Proof.
  intros Hds. revert sh rem given. induction fuel as [|fuel IH]; intros sh rem given Hal Hg Hr He Htot Hf; [lia|].
  cbn [elastic_loop]. destruct (Z.ltb_spec given reserve) as [Hlt|Hge]; cbn [andb].
  2: { exists sh, rem. assert (given = reserve) as -> by lia. split_and!; [done|done|lia|done|done|done|lia]. }
  rewrite (proj2 (Z.ltb_lt 0 rem)) by lia. set (r0 := mkRound sh rem given false).
  assert (ds ⊆ active) as Hsub by (intros x; by rewrite Hds).
  pose proof (elastic_round_gives reserve ds r0 Hsub) as Hgv. apply (gives_given _ r0) in Hgv; [|done].
  destruct Hgv as [H1 H2 H3 H4 H5 H6 H7]. cbn [rd_given rd_remaining rd_shares r0] in *.
  assert (total (share (rd_shares (elastic_round reserve ds r0))) (elastic active) = rd_given (elastic_round reserve ds r0)) as Ht.
  { specialize (H6 (elastic active)). rewrite He in H6. cbn [rd_given rd_shares r0] in H6.
    assert (total (share (rd_shares (elastic_round reserve ds r0))) (elastic active) - rd_given (elastic_round reserve ds r0) = given - given); [|lia].
    apply H6; [by apply distinct_elastic|intros x; apply list_elem_of_filter|]. intros d Hd Hfl. by apply list_elem_of_filter. }
  pose proof (elastic_round_quota reserve ds r0) as Hq. cbn [rd_given r0] in Hq. specialize (Hq ltac:(lia)).
  destruct H7 as [Hstuck|[Hp Hlt']].
  - exfalso. assert (total dm_FreshCreates (elastic active) <= total (share sh) (elastic active)); [|lia].
    apply total_le. intros d [Hd1 Hd2]%list_elem_of_filter.
    apply (elastic_round_stuck reserve ds r0); cbn; [lia|lia|done|by rewrite Hds|done].
  - rewrite Hp. destruct (IH (rd_shares (elastic_round reserve ds r0)) (rd_remaining (elastic_round reserve ds r0))
      (rd_given (elastic_round reserve ds r0))) as (sh' & rem' & E & Ha & Hd & Hm & Hfr & Hto & _); [done|lia|lia|done|done|lia|].
    exists sh', rem'. split_and!; [done|done|lia| | |done|].
    + intros d. etrans; [apply H4|apply Hm].
    + intros d Hd1 Hd2. rewrite Hfr, H5; [done|done|congruence|done|done].
    + intros d Hd1 Hd2 _ Hd3. destruct ds as [|x ds]; [done|]. injection Hd1 as ->.
      pose proof (elastic_round_first reserve d ds r0 Hal Hsub) as Hfst. specialize (Hm d). cbn [rd_shares rd_remaining rd_given r0] in Hfst.
      specialize (Hfst ltac:(lia) Hlt Hd2 Hd3). lia.
Qed.

Lemma general_loop_spec fuel ds sh rem :
  ds ≡ₚ active -> allocated sh rem -> rem < Z.of_nat fuel ->
  exists sh' rem', general_loop fuel ds sh rem = Some (sh', rem')
    /\ allocated sh' rem' /\ (forall d, share sh d <= share sh' d)
    /\ (rem' = 0 \/ forall d, d ∈ active -> share sh' d = dm_FreshCreates d).
Proof.
  intros Hds. revert sh rem. induction fuel as [|fuel IH]; intros sh rem Hal Hf; [destruct Hal; lia|].
  cbn [general_loop]. destruct (Z.ltb_spec 0 rem) as [Hlt|Hge].
  2: { exists sh, rem. split_and!; [done|done|done|]. left. destruct Hal; lia. }
  set (r0 := mkRound sh rem 0 false). assert (ds ⊆ active) as Hsub by (intros x; by rewrite Hds).
  pose proof (general_round_gives ds r0 Hsub) as Hgv. apply (gives_given _ r0) in Hgv; [|done].
  destruct Hgv as [H1 H2 H3 H4 H5 H6 H7]. cbn [rd_given rd_remaining rd_shares r0] in *.
  destruct H7 as [Hstuck|[Hp Hlt']].
  - rewrite Hstuck. cbn. exists sh, rem. split_and!; [done|done|done|]. right. intros d Hd.
    assert (dm_FreshCreates d <= share sh d) by (apply (general_round_stuck ds r0); cbn; [lia|done|by rewrite Hds]).
    pose proof (al_range _ _ Hal d Hd). lia.
  - rewrite Hp. destruct (IH (rd_shares (general_round ds r0)) (rd_remaining (general_round ds r0))) as (sh' & rem' & E & Ha & Hm & Hor); [done|lia|].
    exists sh', rem'. split_and!; [done|done| |done]. intros d. etrans; [apply H4|apply Hm].
Qed.

End shares.

(** * Dealing in turn *)

(** Tokens dealt one by one to each demand in [order] that has not yet got its cap, round
    after round: some rounds are complete, the last one served a part of the order. *)
Definition level (order : list Demand) (cap : Demand -> Z) (part : Demand -> Z) : Prop :=
  exists rounds served, 0 <= rounds /\ forall i d, order !! i = Some d ->
    part d = Z.min (cap d) (if (i <? served)%nat then rounds + 1 else rounds).

Record dealt (order : list Demand) (cap : Demand -> Z) (tokens : Z) (part : Demand -> Z) : Prop := mk_dealt {
  de_level : level order cap part;
  de_sum : total part order = Z.min tokens (total cap order)
}.

(** The loops over the demands are rounds of dealing with a guard and a skip of their own. *)
Section round.
Context (open : Round -> bool) (full : Round -> Demand -> bool).

Fixpoint round_by (ds : list Demand) (r : Round) : Round :=
  match ds with
  | [] => r
  | d :: ds' => if open r then if full r d then round_by ds' r else round_by ds' (gave d r) else r
  end.

Context (base cap : Demand -> Z) (k : Z) (P : Demand -> Prop).
Hypothesis full_at : forall r d, P d -> share (rd_shares r) d = base d + Z.min (cap d) k -> full r d = (cap d <=? k).

Lemma round_level pre ds r :
  distinct (pre ++ ds) -> (forall d, d ∈ pre -> share (rd_shares r) d = base d + Z.min (cap d) (k + 1)) ->
  (forall d, d ∈ ds -> P d /\ share (rd_shares r) d = base d + Z.min (cap d) k) ->
  exists served, (forall i d, (pre ++ ds) !! i = Some d ->
      share (rd_shares (round_by ds r)) d = base d + Z.min (cap d) (if (i <? served)%nat then k + 1 else k))
    /\ (served = length (pre ++ ds) \/ open (round_by ds r) = false).
Proof.
  revert pre r. induction ds as [|d ds IH]; intros pre r Hnd Hpre Hds; cbn [round_by].
  - rewrite app_nil_r. exists (length pre). split; [|by left]. intros i x Hx. pose proof (lookup_lt_Some _ _ _ Hx).
    rewrite (proj2 (Nat.ltb_lt _ _)) by done. apply Hpre. by apply list_elem_of_lookup_2 in Hx.
  - destruct (open r) eqn:Eo.
    2: { exists (length pre). split; [|by right]. intros i x Hx. destruct (Nat.ltb_spec i (length pre)) as [Hi|Hi].
         - rewrite lookup_app_l in Hx by done. apply Hpre. by apply list_elem_of_lookup_2 in Hx.
         - rewrite lookup_app_r in Hx by done. apply Hds. by apply list_elem_of_lookup_2 in Hx. }
    destruct (Hds d) as [HP Hd]; [set_solver|]. rewrite (full_at r d HP Hd). replace (pre ++ d :: ds) with ((pre ++ [d]) ++ ds) in * by by rewrite <- app_assoc.
    destruct (Z.leb_spec (cap d) k) as [Hc|Hc].
    + apply IH; [done| |intros x Hx; apply Hds; set_solver]. intros x [Hx|Hx%list_elem_of_singleton]%elem_of_app; [by apply Hpre|]. rewrite Hx, Hd. lia.
    + assert (forall x, x ∈ pre -> dm_Template d <> dm_Template x) as Hnpre.
      { intros x Hx E. unfold distinct in Hnd. rewrite !fmap_app, <- app_assoc, NoDup_app in Hnd. destruct Hnd as (_ & Hcross & _).
        apply (Hcross (dm_Template x)); [by apply list_elem_of_fmap_2|]. rewrite <- E. set_solver. }
      assert (forall x, x ∈ ds -> dm_Template d <> dm_Template x) as Hnds.
      { intros x Hx E. unfold distinct in Hnd. rewrite !fmap_app, NoDup_app in Hnd. destruct Hnd as (_ & Hcross & _).
        apply (Hcross (dm_Template d)); [set_solver|]. rewrite E. by apply list_elem_of_fmap_2. }
      apply IH; [done| |].
      * intros x [Hx|Hx%list_elem_of_singleton]%elem_of_app; cbn [rd_shares gave]; rewrite share_give.
        -- rewrite decide_False by by apply Hnpre. by apply Hpre.
        -- rewrite Hx, decide_True, Hd by done. lia.
      * intros x Hx. cbn [rd_shares gave]. rewrite share_give, decide_False by by apply Hnds. apply Hds. set_solver.
Qed.

Lemma round_served ds r :
  distinct ds -> (forall d, d ∈ ds -> P d /\ share (rd_shares r) d = base d + Z.min (cap d) k) ->
  exists served, (forall i d, ds !! i = Some d ->
      share (rd_shares (round_by ds r)) d = base d + Z.min (cap d) (if (i <? served)%nat then k + 1 else k))
    /\ (served = length ds \/ open (round_by ds r) = false).
Proof. intros Hnd Hds. apply (round_level [] ds r); [done|set_solver|done]. Qed.

Lemma round_complete ds (sh : gmap string Z) served :
  served = length ds ->
  (forall i d, ds !! i = Some d -> share sh d = base d + Z.min (cap d) (if (i <? served)%nat then k + 1 else k)) ->
  forall d, d ∈ ds -> share sh d = base d + Z.min (cap d) (k + 1).
Proof.
  intros -> Hl d [i Hi]%list_elem_of_lookup. pose proof (lookup_lt_Some _ _ _ Hi). specialize (Hl i d Hi). by rewrite (proj2 (Nat.ltb_lt _ _)) in Hl.
Qed.
End round.

Lemma level_of base (share' : Demand -> Z) cap k served ds :
  0 <= k -> (forall i d, ds !! i = Some d -> share' d = base d + Z.min (cap d) (if (i <? served)%nat then k + 1 else k)) ->
  level ds cap (fun d => share' d - base d).
Proof. intros Hk Hl. exists k, served. split; [done|]. intros i d Hd. rewrite (Hl i d Hd). lia. Qed.

Lemma level_now base (share' : Demand -> Z) cap k ds :
  0 <= k -> (forall d, d ∈ ds -> share' d = base d + Z.min (cap d) k) -> level ds cap (fun d => share' d - base d).
Proof. intros Hk Hl. apply (level_of base share' cap k 0); [done|]. intros i d Hd. apply Hl. by apply list_elem_of_lookup_2 in Hd. Qed.

Lemma floor_loop_round fb ds sh rem used p :
  let r := round_by (fun r => rd_given r <? fb) (fun _ d => negb (dm_HasFloor d)) ds (mkRound sh rem used p) in
  floor_loop fb ds sh rem used = (rd_shares r, rd_remaining r).
Proof.
  revert sh rem used p. induction ds as [|d ds IH]; intros sh rem used p; cbn [floor_loop round_by rd_given]; [done|].
  rewrite Z.leb_antisym. destruct (used <? fb); cbn [negb]; [|done]. destruct (dm_HasFloor d); cbn [negb]; apply IH.
Qed.

Definition floor_cap (d : Demand) : Z := if dm_HasFloor d then 1 else 0.
Definition elastic_cap (d : Demand) : Z := if dm_HasFloor d then 0 else dm_FreshCreates d.

Lemma floor_loop_level fb ds rem : distinct ds -> level ds floor_cap (share (floor_loop fb ds ∅ rem 0).1).
Proof.
  intros Hnd. rewrite (floor_loop_round fb ds ∅ rem 0 false). cbn [fst].
  destruct (round_served (fun r => rd_given r <? fb) (fun _ d => negb (dm_HasFloor d)) (fun _ => 0) floor_cap 0 (fun _ => True))
    with (ds := ds) (r := mkRound ∅ rem 0 false) as (served & Hl & _).
  - intros r d _ _. unfold floor_cap. by destruct (dm_HasFloor d).
  - done.
  - intros d Hd. cbn [rd_shares]. unfold share, floor_cap. rewrite lookup_empty. by destruct (dm_HasFloor d).
  - exists 0, served. split; [done|]. intros i d Hd. by rewrite (Hl i d Hd).
Qed.

Lemma elastic_round_by reserve ds r :
  elastic_round reserve ds r
  = round_by (fun r => (0 <? rd_remaining r) && (rd_given r <? reserve))
      (fun r d => dm_HasFloor d || (dm_FreshCreates d <=? share (rd_shares r) d)) ds r.
Proof. revert r. induction ds as [|d ds IH]; intros r; cbn; [done|]. destruct (_ && _); [|done]. destruct (_ || _); apply IH. Qed.

Lemma elastic_loop_level fuel reserve ds base sh rem given k sh' rem' :
  distinct ds -> 0 <= k -> (forall d, d ∈ ds -> dm_HasFloor d = false -> base d = 0) ->
  (forall d, d ∈ ds -> share sh d = base d + Z.min (elastic_cap d) k) ->
  elastic_loop fuel reserve ds sh rem given = Some (sh', rem') -> level ds elastic_cap (fun d => share sh' d - base d).
Proof.
  intros Hnd Hk Hb. revert sh rem given k Hk. induction fuel as [|fuel IH]; intros sh rem given k Hk Hsh; [done|]. cbn [elastic_loop].
  destruct ((given <? reserve) && (0 <? rem)); [|intros [= <- <-]; by apply (level_now base (share sh) elastic_cap k)].
  rewrite elastic_round_by. set (open := fun r => (0 <? rd_remaining r) && (rd_given r <? reserve)). set (full := fun r d => _).
  destruct (round_served open full base elastic_cap k (fun d => dm_HasFloor d = false -> base d = 0))
    with (ds := ds) (r := mkRound sh rem given false) as (served & Hl & Hor).
  { intros r d HP Hd. unfold full, elastic_cap in *. rewrite Hd. destruct (dm_HasFloor d); cbn [orb]; [symmetry; by apply Z.leb_le|].
    rewrite HP by done. destruct (Z.leb_spec (dm_FreshCreates d) k); [apply Z.leb_le|apply Z.leb_gt]; lia. }
  { done. }
  { intros d Hd. split; [by apply Hb|by apply Hsh]. }
  set (r := round_by open full ds (mkRound sh rem given false)) in *. destruct (rd_progressed r).
  2: { intros [= <- <-]. by apply (level_of base (share (rd_shares r)) elastic_cap k served). }
  destruct Hor as [Hs|Ho].
  - apply (IH _ _ _ (k + 1)); [lia|]. by apply (round_complete base elastic_cap k ds (rd_shares r) served).
  - destruct fuel as [|fuel]; [done|]. cbn [elastic_loop]. unfold open in Ho. rewrite andb_comm, Ho. intros [= <- <-].
    by apply (level_of base (share (rd_shares r)) elastic_cap k served).
Qed.

Lemma general_round_by ds r :
  general_round ds r = round_by (fun r => 0 <? rd_remaining r) (fun r d => dm_FreshCreates d <=? share (rd_shares r) d) ds r.
Proof. revert r. induction ds as [|d ds IH]; intros r; cbn; [done|]. destruct (0 <? _); [|done]. destruct (_ <=? _); apply IH. Qed.

Lemma general_loop_level fuel ds base sh rem k sh' rem' :
  distinct ds -> 0 <= k ->
  let cap d := dm_FreshCreates d - base d in
  (forall d, d ∈ ds -> share sh d = base d + Z.min (cap d) k) ->
  general_loop fuel ds sh rem = Some (sh', rem') -> level ds cap (fun d => share sh' d - base d).
Proof.
  intros Hnd Hk cap. revert sh rem k Hk. induction fuel as [|fuel IH]; intros sh rem k Hk Hsh; [done|]. cbn [general_loop].
  destruct (0 <? rem); [|intros [= <- <-]; by apply (level_now base (share sh) cap k)].
  rewrite general_round_by. set (open := fun r => 0 <? rd_remaining r). set (full := fun r d => _).
  destruct (round_served open full base cap k (fun _ => True)) with (ds := ds) (r := mkRound sh rem 0 false) as (served & Hl & Hor).
  { intros r d _ Hd. unfold full. rewrite Hd. unfold cap. destruct (Z.leb_spec (dm_FreshCreates d - base d) k); [apply Z.leb_le|apply Z.leb_gt]; lia. }
  { done. }
  { intros d Hd. split; [done|by apply Hsh]. }
  set (r := round_by open full ds (mkRound sh rem 0 false)) in *. destruct (rd_progressed r).
  2: { intros [= <- <-]. by apply (level_of base (share (rd_shares r)) cap k served). }
  destruct Hor as [Hs|Ho].
  - apply (IH _ _ (k + 1)); [lia|]. by apply (round_complete base cap k ds (rd_shares r) served).
  - destruct fuel as [|fuel]; [done|]. cbn [general_loop]. unfold open in Ho. rewrite Ho. intros [= <- <-].
    by apply (level_of base (share (rd_shares r)) cap k served).
Qed.

(** * Fair shares *)

Lemma active_demands_spec demands d : d ∈ active_demands demands <-> d ∈ demands /\ 1 <= dm_FreshCreates d.
Proof. unfold active_demands. rewrite list_elem_of_In, filter_In, <- list_elem_of_In, Z.ltb_lt. split; intros [? ?]; (split; [done|lia]). Qed.

Lemma active_distinct demands : distinct demands -> distinct (active_demands demands).
Proof.
  unfold distinct, active_demands. induction demands as [|d ds IH]; [done|]. cbn. intros [Hd Hds]%NoDup_cons.
  destruct (0 <? dm_FreshCreates d); [|by apply IH]. cbn. apply NoDup_cons. split; [|by apply IH].
  intros (x & E & Hx)%list_elem_of_fmap. apply Hd. rewrite E. apply list_elem_of_fmap_2.
  by apply active_demands_spec in Hx as [? _].
Qed.

Lemma elastic_demand_total active sum :
  (forall d, d ∈ active -> 1 <= dm_FreshCreates d) -> 0 <= sum -> sum + total dm_FreshCreates active <= max_int64 ->
  fold_left (fun sum d => if dm_HasFloor d then sum else wrap64 (sum + dm_FreshCreates d)) active sum
  = sum + total dm_FreshCreates (elastic active).
Proof.
  revert sum. induction active as [|d l IH]; intros sum Hp Hs Hm; [cbn; lia|]. cbn [fold_left total] in *.
  assert (1 <= dm_FreshCreates d) by (apply Hp; set_solver).
  assert (forall x, x ∈ l -> 1 <= dm_FreshCreates x) as Hl by (intros x Hx; apply Hp; set_solver).
  assert (0 <= total dm_FreshCreates l) by (apply total_nonneg; intros x Hx; specialize (Hl x Hx); lia).
  unfold elastic. rewrite filter_cons. fold (elastic l). destruct (dm_HasFloor d) eqn:Ef.
  - rewrite decide_False by done. apply IH; [done|done|lia].
  - rewrite decide_True by done. cbn [total]. rewrite wrap64_small by (unfold min_int64; lia). rewrite IH; [lia|done|lia|lia].
Qed.

Definition floors (l : list Demand) : list Demand := filter (fun d => dm_HasFloor d = true) l.

Lemma total_floors sh active :
  (forall d, d ∈ active -> 0 <= share sh d) ->
  total (share sh) active = total (share sh) (elastic active) + total (share sh) (floors active).
Proof.
  induction active as [|d l IH]; intros Hp; [done|]. unfold elastic, floors. rewrite !filter_cons. fold (elastic l) (floors l).
  cbn [total]. rewrite IH by (intros x Hx; apply Hp; set_solver). destruct (dm_HasFloor d).
  - rewrite decide_False, decide_True by done. cbn [total]. lia.
  - rewrite decide_True, decide_False by done. cbn [total]. lia.
Qed.

Lemma total_one l : total (fun _ => 1) l = Z.of_nat (length l).
Proof. induction l as [|d l IH]; [done|]. cbn [total length]. lia. Qed.

Lemma total_minus f g l : total (fun d => f d - g d) l = total f l - total g l.
Proof. induction l as [|d l IH]; cbn [total]; lia. Qed.

Lemma total_elastic_cap l : total elastic_cap l = total dm_FreshCreates (elastic l).
Proof.
  induction l as [|d l IH]; [done|]. unfold elastic. rewrite filter_cons. fold (elastic l). cbn [total]. unfold elastic_cap at 1.
  destruct (dm_HasFloor d); [by rewrite decide_False by done|]. rewrite decide_True by done. cbn [total]. lia.
Qed.

Lemma level_le order cap part : level order cap part -> forall d, d ∈ order -> part d <= cap d.
Proof. intros (k & served & _ & Hl) d [i Hi]%list_elem_of_lookup. rewrite (Hl i d Hi). lia. Qed.

(** The elastic part of a budget. *)
Definition reserved (active : list Demand) (limit : Z) : Z := Z.min (limit `quot` 4) (total dm_FreshCreates (elastic active)).

Lemma dealt_floors active limit order fb :
  distinct active -> (forall d, d ∈ active -> 1 <= dm_FreshCreates d) -> order ≡ₚ active -> 0 <= fb <= limit -> allocated active limit ∅ limit ->
  dealt order floor_cap fb (share (floor_loop fb order ∅ limit 0).1).
Proof.
  intros Ha Hp Ho Hfb Hal. assert (distinct order) as Hnd by (unfold distinct; by rewrite Ho).
  pose proof (floor_loop_level fb order limit Hnd) as Hlv. split; [done|].
  destruct (floor_loop_spec active limit Ha Hp fb order ∅ limit 0) as [H1 H2 H3 H4 _];
    [done|intros d Hd; split; [by rewrite <- Ho|unfold share; by rewrite lookup_empty]|done|lia|lia|].
  destruct (floor_loop fb order ∅ limit 0) as [sh rem]. cbn [fst snd] in *. pose proof (al_sum _ _ _ _ H1) as Hsum. rewrite <- (total_perm _ _ _ Ho) in Hsum.
  pose proof (total_le (share sh) floor_cap order (level_le _ _ _ Hlv)) as Hle.
  destruct (decide (Forall (fun d => share sh d = floor_cap d) order)) as [Hall|Hnot].
  - rewrite (total_ext (share sh) floor_cap) by (by apply Forall_forall). pose proof (total_ext (share sh) floor_cap order (proj1 (Forall_forall _ _) Hall)). lia.
  - apply not_Forall_Exists in Hnot; [|intros d; apply _]. apply Exists_exists in Hnot as (d & Hd & Hne). unfold compose, floor_cap in Hne. cbv beta in Hne.
    destruct (dm_HasFloor d) eqn:Ef; [destruct (H4 d Hd Ef) as [?|[_ ?]]; [done|lia]|]. exfalso. apply Hne.
    rewrite H3 by (right; split; [done|by rewrite <- Ho]). unfold share. by rewrite lookup_empty.
Qed.

Lemma rotated_turn active start : (start < length active)%nat -> rotated active start = drop start active ++ take start active.
Proof. intros Hs. unfold rotated, rotate. by rewrite Nat.mod_small. Qed.

Lemma dealt_ext order cap cap' t part : (forall d, d ∈ order -> cap d = cap' d) -> dealt order cap t part -> dealt order cap' t part.
Proof.
  intros Hc [(k & served & Hk & Hl) Hs]. split; [|by rewrite <- (total_ext cap cap')]. exists k, served. split; [done|]. intros i d Hd.
  rewrite (Hl i d Hd), Hc; [done|]. by apply list_elem_of_lookup_2 in Hd.
Qed.

Lemma dealt_elastic active limit order reserve fuel sh1 rem1 sh2 rem2 :
  distinct active -> (forall d, d ∈ active -> 1 <= dm_FreshCreates d) -> order ≡ₚ active -> (forall d, d ∈ active -> dm_HasFloor d = false -> share sh1 d = 0) ->
  allocated active limit sh1 rem1 -> allocated active limit sh2 rem2 -> elastic_loop fuel reserve order sh1 rem1 0 = Some (sh2, rem2) ->
  rem1 - rem2 = reserve -> reserve <= total dm_FreshCreates (elastic active) ->
  dealt order elastic_cap reserve (fun d => share sh2 d - share sh1 d).
Proof.
  intros Ha Hp Ho Hz [_ S1 _ _] [_ S2 _ _] E Hr Hw. split.
  - apply (elastic_loop_level fuel reserve order (share sh1) sh1 rem1 0 0 sh2 rem2); [unfold distinct; by rewrite Ho|done| | |done].
    + intros d Hd. apply Hz. by rewrite <- Ho.
    + intros d Hd. rewrite Ho in Hd. specialize (Hp d Hd). unfold elastic_cap. destruct (dm_HasFloor d); lia.
  - rewrite total_minus, !(total_perm _ _ _ Ho), total_elastic_cap. lia.
Qed.

Lemma dealt_general active limit order fuel sh2 rem2 sh3 rem3 :
  distinct active -> order ≡ₚ active -> allocated active limit sh2 rem2 -> allocated active limit sh3 rem3 ->
  general_loop fuel order sh2 rem2 = Some (sh3, rem3) -> rem3 = 0 \/ (forall d, d ∈ active -> share sh3 d = dm_FreshCreates d) ->
  dealt order (fun d => dm_FreshCreates d - share sh2 d) rem2 (fun d => share sh3 d - share sh2 d).
Proof.
  intros Ha Ho [R2 S2 _ _] [R3 S3 N3 _] E Hor.
  assert (level order (fun d => dm_FreshCreates d - share sh2 d) (fun d => share sh3 d - share sh2 d)) as Hlv.
  { apply (general_loop_level fuel order (share sh2) sh2 rem2 0 sh3 rem3); [unfold distinct; by rewrite Ho|done| |done].
    intros d Hd. rewrite Ho in Hd. specialize (R2 d Hd). lia. }
  split; [done|]. rewrite !total_minus, !(total_perm _ _ _ Ho).
  assert (total (share sh3) active <= total dm_FreshCreates active) by (apply total_le; intros d Hd; apply R3, Hd).
  destruct Hor as [->|Hall]; [lia|]. rewrite (total_ext (share sh3) dm_FreshCreates) by done. pose proof (total_ext (share sh3) dm_FreshCreates active Hall). lia.
Qed.

(** How the tokens of a cycle are to be divided between [active] demands. *)
Record fair_division (active : list Demand) (limit : Z) (first : nat) (sh : gmap string Z) (spare : Z) : Prop := mk_fair {
  fd_range : forall d, d ∈ active -> 0 <= share sh d <= dm_FreshCreates d;
  fd_only : forall t, is_Some (sh !! t) -> t ∈ dm_Template <$> active;
  fd_sum : total (share sh) active + spare = limit /\ 0 <= spare;
  fd_busy : 0 < spare -> forall d, d ∈ active -> share sh d = dm_FreshCreates d;
  fd_elastic : Z.min (limit `quot` 4) (total dm_FreshCreates (elastic active)) <= total (share sh) (elastic active);
  fd_floors : Z.of_nat (length (floors active)) <= limit - Z.min (limit `quot` 4) (total dm_FreshCreates (elastic active)) ->
              forall d, d ∈ active -> dm_HasFloor d = true -> 1 <= share sh d;
  fd_first : forall d, active !! first = Some d -> dm_HasFloor d = true \/ 4 <= limit -> 1 <= share sh d;
  fd_in_turn : exists fl el gn, let order := drop first active ++ take first active in
    dealt order floor_cap (limit - reserved active limit) fl
    /\ dealt order elastic_cap (reserved active limit) el
    /\ dealt order (fun d => dm_FreshCreates d - (fl d + el d)) (limit - (total fl order + total el order)) gn
    /\ forall d, d ∈ active -> share sh d = fl d + el d + gn d
}.

Lemma empty_allocated active limit : 0 <= limit -> (forall d, d ∈ active -> 1 <= dm_FreshCreates d) -> allocated active limit ∅ limit.
Proof.
  intros Hl Hp. split; [|rewrite (total_ext _ (fun _ => 0))| |].
  - intros d Hd. unfold share. rewrite lookup_empty. cbn. specialize (Hp d Hd). lia.
  - clear. induction active; cbn in *; lia.
  - intros d _. unfold share. by rewrite lookup_empty.
  - done.
  - intros t [? Ht]. by rewrite lookup_empty in Ht.
Qed.

Lemma share_empty d : share ∅ d = 0.
Proof. unfold share. by rewrite lookup_empty. Qed.

Lemma fairShares_divides demands limit seed :
  distinct demands -> total dm_FreshCreates (active_demands demands) <= max_int64 -> 0 < limit ->
  let active := active_demands demands in
  (1 < length active)%nat ->
  exists sh spare, fairShares demands limit seed = Some (Some sh, spare)
    /\ fair_division active limit (N.to_nat (seed `mod` N.of_nat (length active))) sh spare.
Proof.
  intros Hnd Hm Hl active Hlen. set (start := N.to_nat (seed `mod` N.of_nat (length active))).
  assert (forall d, d ∈ active -> 1 <= dm_FreshCreates d) as Hp by (intros d Hd; by apply active_demands_spec in Hd as [_ ?]).
  pose proof (active_distinct demands Hnd) as Ha. fold active in Ha, Hm.
  set (want := total dm_FreshCreates (elastic active)).
  assert (0 <= want) as Hw.
  { apply total_nonneg. intros d [_ Hd]%list_elem_of_filter. specialize (Hp d Hd). lia. }
  assert (elastic_reserve active limit = Z.min (limit `quot` 4) want) as Hres.
  { unfold elastic_reserve, elastic_demand. rewrite elastic_demand_total by (try done; lia). fold want.
    destruct (Z.ltb_spec (0 + want) (limit `quot` 4)); lia. }
  set (reserve := Z.min (limit `quot` 4) want) in *.
  assert (0 <= reserve <= limit `quot` 4) as Hr by (pose proof (Z.quot_pos limit 4); lia).
  assert (4 * (limit `quot` 4) <= limit) as Hq by (pose proof (Z.mul_quot_le limit 4); lia).
  assert (start < length active)%nat as Hstart by (unfold start; pose proof (N.mod_lt seed (N.of_nat (length active))); lia).
  pose proof (rotated_perm active start) as Hperm. unfold fairShares. rewrite (proj2 (Z.leb_gt _ _)) by lia. fold active.
  rewrite (proj2 (Nat.leb_gt _ _) Hlen). fold start. rewrite Hres.
  destruct (floor_loop_spec active limit Ha Hp (limit - reserve) (rotated active start) ∅ limit 0) as [H1 H2 H3 H4 H5].
  { unfold distinct. by rewrite Hperm. }
  { intros d Hd. split; [by rewrite <- Hperm|apply share_empty]. }
  { by apply empty_allocated; [lia|]. }
  { lia. }
  { lia. }
  pose proof (dealt_floors active limit (rotated active start) (limit - reserve) Ha Hp Hperm ltac:(lia) (empty_allocated active limit ltac:(lia) Hp)) as Hfloors.
  destruct (floor_loop (limit - reserve) (rotated active start) ∅ limit 0) as [sh1 rem1]. cbn [fst snd] in *.
  assert (total (share sh1) (elastic active) = 0) as Hz.
  { rewrite (total_ext _ (fun _ => 0)); [clear; induction (elastic active); cbn in *; lia|].
    intros d [Hf Hd]%list_elem_of_filter. rewrite H3 by by right. apply share_empty. }
  destruct (elastic_loop_spec active limit Ha Hp (S (Z.to_nat limit)) reserve (rotated active start) sh1 rem1 0)
    as (sh2 & rem2 & E2 & Hal2 & Hd2 & Hm2 & Hf2 & Ht2 & Hfst2); [done|done|lia|lia|done|fold want; lia|lia|].
  rewrite E2.
  destruct (general_loop_spec active limit Ha Hp (S (Z.to_nat limit)) (rotated active start) sh2 rem2) as (sh3 & rem3 & E3 & Hal3 & Hm3 & Hor);
    [done|done|pose proof (allocated_le _ _ _ _ Hal2); lia|].
  rewrite E3. exists sh3, rem3. split; [done|].
  assert (exists fl el gn, let order := drop start active ++ take start active in
    dealt order floor_cap (limit - reserve) fl /\ dealt order elastic_cap reserve el
    /\ dealt order (fun d => dm_FreshCreates d - (fl d + el d)) (limit - (total fl order + total el order)) gn
    /\ forall d, d ∈ active -> share sh3 d = fl d + el d + gn d) as Hturn.
  { exists (share sh1), (fun d => share sh2 d - share sh1 d), (fun d => share sh3 d - share sh2 d). cbv zeta. rewrite <- (rotated_turn active start Hstart).
    split; [done|]. split; [|split; [|intros; lia]].
    - apply (dealt_elastic active limit _ reserve (S (Z.to_nat limit)) sh1 rem1 sh2 rem2); try done; [|lia|fold want; lia].
      intros d Hd Hdf. rewrite H3 by by right. apply share_empty.
    - apply (dealt_ext _ (fun d => dm_FreshCreates d - share sh2 d)); [intros; lia|].
      replace (limit - _) with rem2; [by apply (dealt_general active limit _ (S (Z.to_nat limit)) sh2 rem2 sh3 rem3)|].
      rewrite total_minus, !(total_perm _ _ _ Hperm). destruct Hal2. lia. }
  destruct Hal3 as [R3 S3 N3 D3]. split; [done|done|done| | | | |exact Hturn].
  - intros Hs. destruct Hor as [?|?]; [lia|done].
  - fold want reserve. rewrite <- Ht2. apply total_le. intros d _. apply Hm3.
  - fold want reserve. intros Hfl d Hd Hdf. assert (share sh1 d = 1) as Hone.
    { destruct (H4 d) as [?|[Hd0 Hsp]]; [by rewrite Hperm|done|done|]. exfalso.
      pose proof (total_floors sh1 active) as Htf. rewrite Hz in Htf. pose proof (al_sum _ _ _ _ H1) as Hsum.
      rewrite Htf in Hsum by (intros x Hx; by apply (al_range _ _ _ _ H1)).
      assert (share sh1 d = 1); [|lia]. apply (total_eq_le (share sh1) (fun _ => 1) (floors active)).
      - intros x [Hxf Hx]%list_elem_of_filter. destruct (H4 x) as [?|[? _]]; [by rewrite Hperm|done|lia|lia].
      - rewrite total_one. lia.
      - by apply list_elem_of_filter. }
    specialize (Hm2 d). specialize (Hm3 d). lia.
  - intros d Hd Hor'. destruct (rotated_first active start d Hd) as [ds Eds]. rewrite Eds in *. cbn [head] in *.
    assert (d ∈ active) as Hin by by apply list_elem_of_lookup_2 in Hd.
    specialize (Hm2 d). specialize (Hm3 d). destruct (dm_HasFloor d) eqn:Ef.
    + rewrite (H5 d eq_refl Ef) in Hm2 by lia. lia.
    + destruct Hor' as [?|H4l]; [done|]. assert (1 <= limit `quot` 4) by (apply Z.quot_le_lower_bound; lia).
      assert (dm_FreshCreates d <= want).
      { apply total_member; [intros x [_ Hx]%list_elem_of_filter; specialize (Hp x Hx); lia|by apply list_elem_of_filter]. }
      pose proof (Hp d Hin). assert (share sh1 d = 0) as E0 by (rewrite H3; [apply share_empty|by right]).
      specialize (Hfst2 d eq_refl Ef). rewrite E0 in Hfst2. lia.
Qed.

(** * Claims *)

Inductive Use : Type := Claim (template : string) | Refund.

Definition use (u : Use) (b : option CreateBudget) : option CreateBudget :=
  match u with Claim t => (TryClaim t b).2 | Refund => Release b end.

Definition uses (us : list Use) (b : option CreateBudget) : option CreateBudget := fold_left (fun b u => use u b) us b.

(** The tokens out after [us], and whether some release gave back a token nobody held. *)
Fixpoint outstanding (us : list Use) (b : option CreateBudget) (out : Z) : Z :=
  match us with
  | [] => out
  | u :: us' =>
      outstanding us' (use u b)
        (match u with Claim t => if (TryClaim t b).1 then out + 1 else out | Refund => out - 1 end)
  end.

Fixpoint owed (us : list Use) (b : option CreateBudget) (out : Z) : Prop :=
  match us with
  | [] => True
  | Claim t :: us' => owed us' (use (Claim t) b) (if (TryClaim t b).1 then out + 1 else out)
  | Refund :: us' => 0 < out /\ owed us' (use Refund b) (out - 1)
  end.

Lemma outstanding_nonneg us b out : 0 <= out -> owed us b out -> 0 <= outstanding us b out.
Proof.
  revert b out. induction us as [|[t|] us IH]; intros b out H0 Ho; cbn in *; [done| |].
  - apply IH; [|done]. destruct (TryClaim t b).1; lia.
  - destruct Ho as [? ?]. apply IH; [lia|done].
Qed.

Definition claims_of_template (t : string) (us : list Use) : Z :=
  Z.of_nat (length (List.filter (fun u => match u with Claim t' => String.eqb t' t | Refund => false end) us)).

(** The shares still held, summed over the templates [ts]. *)
Fixpoint held (shares : gmap string Z) (ts : list string) : Z :=
  match ts with [] => 0 | t :: ts' => default 0 (shares !! t) + held shares ts' end.

Lemma held_other shares ts t v : (t ∉ ts) -> held (<[t := v]> shares) ts = held shares ts.
Proof.
  induction ts as [|x ts IH]; intros Hn; [done|]. cbn [held]. rewrite lookup_insert_ne, IH by set_solver. done.
Qed.

Lemma held_one shares ts t v :
  NoDup ts -> t ∈ ts -> held (<[t := v]> shares) ts = held shares ts + v - default 0 (shares !! t).
Proof.
  induction ts as [|x ts IH]; intros Hnd Ht; [set_solver|]. apply NoDup_cons in Hnd as [Hx Hnd]. cbn [held].
  apply elem_of_cons in Ht as [->|Ht].
  - rewrite lookup_insert_eq, held_other by done. cbn. lia.
  - rewrite lookup_insert_ne by set_solver. rewrite IH by done. lia.
Qed.

Lemma held_nonneg shares ts : (forall t, 0 <= default 0 (shares !! t)) -> 0 <= held shares ts.
Proof. intros Hs. induction ts as [|t ts IH]; cbn [held]; [done|]. specialize (Hs t). lia. Qed.

Lemma held_member shares ts t : (forall t, 0 <= default 0 (shares !! t)) -> t ∈ ts -> default 0 (shares !! t) <= held shares ts.
Proof.
  intros Hs. induction ts as [|x ts IH]; intros Ht; [set_solver|]. cbn [held]. pose proof (Hs x). pose proof (held_nonneg shares ts Hs).
  apply elem_of_cons in Ht as [->|Ht]; [lia|]. specialize (IH Ht). lia.
Qed.

(** A budget divided between the templates [ts] of which [out] tokens are claimed. *)
Record divided (ts : list string) (limit out : Z) (b : CreateBudget) (shares : gmap string Z) : Prop := mk_divided {
  dv_shares : cb_templateRemaining b = Some shares;
  dv_out : cb_remaining b + out = limit;
  dv_sum : cb_remaining b = held shares ts + cb_spare b;
  dv_spare : 0 <= cb_spare b;
  dv_nonneg : forall t, 0 <= default 0 (shares !! t);
  dv_only : forall t, is_Some (shares !! t) -> t ∈ ts
}.

Lemma divided_claim ts limit out b shares t :
  NoDup ts -> divided ts limit out b shares ->
  exists b' shares', (TryClaim t (Some b)).2 = Some b'
    /\ divided ts limit (if (TryClaim t (Some b)).1 then out + 1 else out) b' shares'
    /\ (forall t', t' <> t -> default 0 (shares' !! t') = default 0 (shares !! t'))
    /\ (default 0 (shares !! t) <= default 0 (shares' !! t) + 1)
    /\ (0 < default 0 (shares !! t) -> (TryClaim t (Some b)).1 = true).
Proof.
  intros Hnd [H1 H2 H3 H4 H5 H6]. unfold TryClaim. rewrite H1. pose proof (held_nonneg shares ts H5) as Hh.
  destruct (Z.ltb_spec 0 (default 0 (shares !! t))) as [Ht|Ht].
  - assert (t ∈ ts) as Hin by (apply H6; destruct (shares !! t); [done|cbn in Ht; lia]).
    pose proof (held_member shares ts t H5 Hin). rewrite (proj2 (Z.leb_gt (cb_remaining b) 0)) by lia. cbn [fst snd].
    eexists _, _. split; [done|]. split; [|split_and!].
    + split; cbn; [done|lia| |done| |].
      * rewrite held_one by done. lia.
      * intros t'. destruct (decide (t = t')) as [<- |Hne]; [rewrite lookup_insert_eq; cbn; lia|by rewrite lookup_insert_ne].
      * intros t'. rewrite lookup_insert_is_Some. intros [<- |[_ ?]]; [done|by apply H6].
    + intros t' Hne. by rewrite lookup_insert_ne.
    + rewrite lookup_insert_eq. cbn. lia.
    + done.
  - destruct (Z.leb_spec (cb_remaining b) 0); cbn [fst snd].
    { exists b, shares. split_and!; [done|by split|done|lia|lia]. }
    destruct (Z.ltb_spec 0 (cb_spare b)); cbn [fst snd].
    + eexists _, shares. split; [done|]. split; [split; cbn; [done|lia|lia|lia|done|done]|]. split_and!; [done|lia|lia].
    + exists b, shares. split_and!; [done|by split|done|lia|lia].
Qed.

Lemma divided_release ts limit out b shares :
  limit <= max_int64 -> 0 < out -> divided ts limit out b shares ->
  exists b', Release (Some b) = Some b' /\ divided ts limit (out - 1) b' shares.
Proof.
  intros Hl Ho [H1 H2 H3 H4 H5 H6]. pose proof (held_nonneg shares ts H5). unfold Release. rewrite H1.
  eexists. split; [done|]. rewrite !wrap64_small by (unfold min_int64; lia). split; cbn; [done|lia|lia|lia|done|done].
Qed.

Lemma divided_uses ts limit us out b shares :
  NoDup ts -> limit <= max_int64 -> divided ts limit out b shares -> owed us (Some b) out ->
  exists b' shares', uses us (Some b) = Some b' /\ divided ts limit (outstanding us (Some b) out) b' shares'
    /\ forall t, default 0 (shares !! t) - claims_of_template t us <= default 0 (shares' !! t).
Proof.
  intros Hnd Hl. revert out b shares. induction us as [|u us IH]; intros out b shares Hd Ho.
  { exists b, shares. split_and!; [done|done|]. intros t. assert (claims_of_template t [] = 0) as -> by done. lia. }
  destruct u as [t|]; cbn [uses fold_left outstanding owed use] in *.
  - destruct (divided_claim ts limit out b shares t Hnd Hd) as (b1 & sh1 & E & Hd1 & Hoth & Hmine & _). rewrite E in *.
    destruct (IH _ b1 sh1 Hd1 Ho) as (b' & sh' & E' & Hd' & Hc). exists b', sh'. split_and!; [done|done|].
    intros t'. specialize (Hc t'). unfold claims_of_template in *. cbn [List.filter].
    destruct (String.eqb_spec t t') as [<- |Hne]; cbn [length]; [lia|]. rewrite <- Hoth by done. lia.
  - destruct Ho as [Hpos Ho]. destruct (divided_release ts limit out b shares Hl Hpos Hd) as (b1 & E & Hd1). rewrite E in *.
    destruct (IH _ b1 shares Hd1 Ho) as (b' & sh' & E' & Hd' & Hc). by exists b', sh'.
Qed.

Lemma held_total sh l : held sh (dm_Template <$> l) = total (share sh) l.
Proof. induction l as [|d l IH]; [done|]. cbn. by rewrite IH. Qed.

Lemma share_of_division active limit first sh spare t :
  fair_division active limit first sh spare -> 0 <= default 0 (sh !! t).
Proof.
  intros Hf. destruct (sh !! t) as [v|] eqn:E; [|done].
  assert (t ∈ dm_Template <$> active) as (d & -> & Hd)%list_elem_of_fmap by (apply (fd_only _ _ _ _ _ Hf); by rewrite E).
  destruct (fd_range _ _ _ _ _ Hf d Hd) as [Hr _]. unfold share in Hr. by rewrite E in Hr.
Qed.

(** (C31) The tokens of a cycle are divided in turn and the division is kept.  From the
    template the seed points at on, each of three parts is dealt one token at a time, round
    after round, to the templates that have not had their fill: a token to each template
    with a floor, within three quarters of the budget or more; then a quarter, or the whole
    elastic demand if that is less, to the templates without one; then the rest to all.  So
    every share is within its demand, shares and spare are the whole budget, and tokens stay
    spare only when every demand is met; every template with a floor gets a token when there
    are enough, and the template the seed points at is never left out, one without a floor
    from four tokens on.  Whatever claims and refunds follow, no more tokens are out than
    the budget has, and a template that claims within its share is served, whatever the
    others claimed. *)
Theorem shares_guaranteed demands limit seed :
  distinct demands -> total dm_FreshCreates (active_demands demands) <= max_int64 -> 0 < limit <= max_int64 ->
  let active := active_demands demands in
  (1 < length active)%nat ->
  exists b sh,
    ConfigureFairShare demands seed (NewCreateBudget limit) = Some (Some b)
    /\ cb_templateRemaining b = Some sh /\ cb_remaining b = limit
    /\ fair_division active limit (N.to_nat (seed `mod` N.of_nat (length active))) sh (cb_spare b)
    /\ forall us, owed us (Some b) 0 ->
         0 <= outstanding us (Some b) 0 <= limit
         /\ forall t, claims_of_template t us < default 0 (sh !! t) -> (TryClaim t (uses us (Some b))).1 = true.
Proof.
  intros Hnd Hm Hl active Hlen. destruct (fairShares_divides demands limit seed Hnd Hm (proj1 Hl) Hlen) as (sh & spare & E & Hf).
  fold active in Hf. exists (mkBudget limit (Some sh) spare), sh. unfold NewCreateBudget.
  rewrite (proj2 (Z.leb_gt _ _)) by lia. cbn [ConfigureFairShare cb_remaining]. rewrite E. do 4 (split; [done|]).
  assert (NoDup (dm_Template <$> active)) as Hts by by apply active_distinct.
  assert (divided (dm_Template <$> active) limit 0 (mkBudget limit (Some sh) spare) sh) as Hd.
  { destruct (fd_sum _ _ _ _ _ Hf). split; cbn; [done|lia|rewrite held_total; lia|done| |apply Hf].
    intros t. eapply share_of_division, Hf. }
  intros us Ho. destruct (divided_uses _ limit us 0 _ sh Hts (proj2 Hl) Hd Ho) as (b' & sh' & E' & Hd' & Hc).
  pose proof Hd' as [_ Ho' Hs' Hp' Hn' _]. split.
  - pose proof (held_nonneg sh' (dm_Template <$> active) Hn'). split; [|lia].
    by apply outstanding_nonneg.
  - intros t Ht. rewrite E'. destruct (divided_claim _ _ _ _ _ t Hts Hd') as (_ & _ & _ & _ & _ & _ & Hyes). apply Hyes.
    specialize (Hc t). lia.
Qed.

Definition three_pools : list Demand := [mkDemand "a" 5 true; mkDemand "b" 2 false; mkDemand "c" 4 false].

Lemma shares_guaranteed_witness :
  fairShares three_pools 8 1 = Some (Some (<["a" := 3]> (<["b" := 2]> (<["c" := 3]> ∅))), 0)
  /\ exists b sh,
    ConfigureFairShare three_pools 1 (NewCreateBudget 8) = Some (Some b)
    /\ cb_templateRemaining b = Some sh /\ cb_remaining b = 8
    /\ fair_division three_pools 8 1 sh (cb_spare b)
    /\ forall us, owed us (Some b) 0 ->
         0 <= outstanding us (Some b) 0 <= 8
         /\ forall t, claims_of_template t us < default 0 (sh !! t) -> (TryClaim t (uses us (Some b))).1 = true.
Proof.
  split; [vm_compute; reflexivity|].
  apply (shares_guaranteed three_pools 8 1).
  - unfold distinct. cbn. repeat (apply NoDup_cons_2; [set_solver|]). constructor.
  - vm_compute. discriminate.
  - split; [lia|vm_compute; discriminate].
  - vm_compute. lia.
Defined.
