(* ===== verification/CloseOrder.v ===== *)
(** Blocker-first close batches (internal/beads/closeorder/closeorder.go): the order in
    which a set of beads is closed, over the dependencies a store lists, with its theorem
    and its use over the in-memory store. *)
From S2P Require Import Prelude GoStd BeadQuery BeadMem.
Import beads.

Module closeorder.

(** priority[id] = i for the positions from [i] on; a repeated id keeps its last one. *)
Fixpoint priorities (i : Z) (ids : list string) (m : gmap string Z) : gmap string Z :=
  match ids with [] => m | id :: ids' => priorities (i + 1) ids' (<[id := i]> m) end.

Definition blocker_of (inSet : gset string) (id : string) (d : Dep) : bool :=
  String.eqb (dp_IssueID d) id && String.eqb (dp_Type d) "blocks"
  && bool_decide (dp_DependsOnID d ∈ inSet) && negb (String.eqb (dp_DependsOnID d) id).

Definition blockers (blockedBy : gmap string (gset string)) (id : string) : gset string := default ∅ (blockedBy !! id).

Definition add_blocker (inSet : gset string) (id : string) (blockedBy : gmap string (gset string)) (d : Dep) : gmap string (gset string) :=
  if blocker_of inSet id d then <[id := {[dp_DependsOnID d]} ∪ blockers blockedBy id]> blockedBy else blockedBy.

Fixpoint list_blockers (DepList : string -> string -> res (list Dep)) (inSet : gset string) (ids : list string)
    (blockedBy : gmap string (gset string)) : res (gmap string (gset string)) :=
  match ids with
  | [] => Ok blockedBy
  | id :: ids' =>
      match DepList id "down" with
      | Err e => Err (Errorf "listing close dependencies for %q: %w" [id] [e])
      | Ok deps =>
          list_blockers DepList inSet ids' (fold_left (add_blocker inSet id) deps blockedBy)
      end
  end.

Definition candidate (blockedBy : gmap string (gset string)) (emitted : gset string) (id : string) : bool :=
  negb (bool_decide (id ∈ emitted)) && bool_decide (blockers blockedBy id ⊆ emitted).

(** The search for the next id; the empty text stands for none. *)
Definition pick (priority : gmap string Z) (blockedBy : gmap string (gset string)) (emitted : gset string) (ids : list string)
  : string * Z :=
  fold_left (fun '(best, prio) id =>
      if negb (candidate blockedBy emitted id) then (best, prio)
      else if String.eqb best "" || (default 0 (priority !! id) <? prio) then (id, default 0 (priority !! id)) else (best, prio))
    ids ("", -1).

(** [left] is how many ids out still lacks. *)
Fixpoint emit_next (left : nat) (priority : gmap string Z) (blockedBy : gmap string (gset string)) (ids : list string)
    (emitted : gset string) (out : list string) : list string :=
  match left with
  | O => out
  | S left' =>
      let id := (pick priority blockedBy emitted ids).1 in
      if String.eqb id "" then
        (fold_left (fun '(emitted, out) id => if bool_decide (id ∈ emitted) then (emitted, out) else ({[id]} ∪ emitted, out ++ [id]))
           ids (emitted, out)).2
      else emit_next left' priority blockedBy ids ({[id]} ∪ emitted) (out ++ [id])
  end.

(** Order over what the store lists; a nil store is None. *)
Definition Order (store : option (string -> string -> res (list Dep))) (ids : list string) : res (list string) :=
  match store with
  | None => Ok ids
  | Some DepList =>
      if (length ids <=? 1)%nat then Ok ids
      else match list_blockers DepList (list_to_set ids) ids ∅ with
           | Err e => Err e
           | Ok blockedBy => Ok (emit_next (length ids) (priorities 0 ids ∅) blockedBy ids ∅ [])
           end
  end.

(** * What a batch is *)

Section order.
Context (DepList : string -> string -> res (list Dep)) (ids : list string).

(** b blocks a, both of them in the batch. *)
Definition blocks (b a : string) : Prop :=
  a ∈ ids /\ b ∈ ids /\ b <> a /\ exists deps, DepList a "down" = Ok deps /\ mkDep a b "blocks" ∈ deps.

Lemma blocker_of_spec id d :
  blocker_of (list_to_set ids) id d = true <-> d = mkDep id (dp_DependsOnID d) "blocks" /\ dp_DependsOnID d ∈ ids /\ dp_DependsOnID d <> id.
Proof.
  unfold blocker_of. rewrite !andb_true_iff, !String.eqb_eq, bool_decide_eq_true, elem_of_list_to_set, negb_true_iff, String.eqb_neq.
  destruct d. cbn. naive_solver.
Qed.

Lemma add_blockers id deps m a b :
  b ∈ blockers (fold_left (add_blocker (list_to_set ids) id) deps m) a
  <-> b ∈ blockers m a \/ a = id /\ mkDep id b "blocks" ∈ deps /\ b ∈ ids /\ b <> id.
Proof.
  revert m. induction deps as [|d deps IH]; intros m; cbn [fold_left]; [set_solver|]. rewrite IH, elem_of_cons. clear IH.
  unfold add_blocker. destruct (blocker_of _ id d) eqn:E.
  - apply blocker_of_spec in E as (Ed & Hin & Hne). unfold blockers at 1. destruct (decide (a = id)) as [->|Ha].
    + rewrite lookup_insert_eq. cbn. rewrite elem_of_union, elem_of_singleton. destruct d as [i j t]. cbn in *. naive_solver.
    + rewrite lookup_insert_ne by done. fold (blockers m a). naive_solver.
  - split; [naive_solver|]. intros [?|(-> & [Ed|?] & Hin & Hne)]; [by left| |naive_solver].
    exfalso. assert (blocker_of (list_to_set ids) id d = true); [|congruence]. subst d. by apply blocker_of_spec.
Qed.

Lemma list_blockers_ok l m :
  (forall a, a ∈ l -> exists deps, DepList a "down" = Ok deps) ->
  exists m', list_blockers DepList (list_to_set ids) l m = Ok m'
    /\ forall a b, b ∈ blockers m' a
         <-> b ∈ blockers m a
             \/ a ∈ l /\ (exists deps, DepList a "down" = Ok deps /\ mkDep a b "blocks" ∈ deps) /\ b ∈ ids /\ b <> a.
Proof.
  revert m. induction l as [|id l IH]; intros m Hl; cbn [list_blockers]; [exists m; set_solver|].
  destruct (Hl id) as [deps E]; [set_solver|]. rewrite E.
  destruct (IH (fold_left (add_blocker (list_to_set ids) id) deps m)) as (m' & Em & Hm'); [set_solver|].
  exists m'. split; [done|]. intros a b. rewrite Hm', add_blockers, elem_of_cons. split.
  - intros [[?|(-> & ? & ? & ?)]|?]; [by left| |naive_solver]. right. eauto 10.
  - intros [?|([->|Ha] & (deps' & E' & Hd) & Hin & Hne)]; [by left; left| |right; eauto 10].
    rewrite E in E'. injection E' as ->. left. right. done.
Qed.

End order.

(** ** The next id *)

Section emitted.
Context (ids : list string) (blockedBy : gmap string (gset string)) (Hids : NoDup ids) (Hnames : "" ∉ ids)
  (Hblocks : forall a b, a ∈ ids -> b ∈ blockers blockedBy a -> b ∈ ids).

Lemma priorities_other i l m x : (x ∉ l) -> priorities i l m !! x = m !! x.
Proof.
  revert i m. induction l as [|y l IH]; intros i m Hx; [done|]. cbn. rewrite IH by set_solver. apply lookup_insert_ne. set_solver.
Qed.

Lemma priorities_at i l m n x : NoDup l -> l !! n = Some x -> priorities i l m !! x = Some (i + Z.of_nat n).
Proof.
  revert i m n. induction l as [|y l IH]; intros i m n Hl Hx; [done|]. apply NoDup_cons in Hl as [Hy Hl]. cbn.
  destruct n as [|n]; cbn in Hx.
  - injection Hx as ->. rewrite priorities_other, lookup_insert_eq by done. f_equal. lia.
  - rewrite (IH _ _ n) by done. f_equal. lia.
Qed.

Lemma priorities_lt l1 x l2 y :
  ids = l1 ++ x :: l2 -> y ∈ l2 -> default 0 (priorities 0 ids ∅ !! x) < default 0 (priorities 0 ids ∅ !! y).
Proof.
  intros E [n Hn]%list_elem_of_lookup.
  rewrite (priorities_at 0 ids ∅ (length l1) x), (priorities_at 0 ids ∅ (length l1 + S n) y); [cbn; lia|done| |done|].
  - by rewrite E, lookup_app_r, Nat.add_sub_swap, Nat.sub_diag by lia.
  - by rewrite E, list_lookup_middle.
Qed.

Definition first_ready (emitted : gset string) : option string := List.find (candidate blockedBy emitted) ids.

Lemma pick_first emitted : (pick (priorities 0 ids ∅) blockedBy emitted ids).1 = default "" (first_ready emitted).
Proof.
  unfold first_ready, pick. set (pr := priorities 0 ids ∅).
  set (f := fun '(best, prio) id => if negb (candidate blockedBy emitted id) then (best, prio)
      else if String.eqb best "" || (default 0 (pr !! id) <? prio) then (id, default 0 (pr !! id)) else (best, prio) : string * Z).
  assert (forall l x, (forall y, y ∈ l -> default 0 (pr !! x) < default 0 (pr !! y)) -> x <> "" ->
            fold_left f l (x, default 0 (pr !! x)) = (x, default 0 (pr !! x))) as Hkeep.
  { induction l as [|y l IH]; intros x Hl Hx; [done|]. cbn [fold_left]. unfold f at 2.
    rewrite (proj2 (String.eqb_neq _ _) Hx), (proj2 (Z.ltb_ge _ _)) by (assert (y ∈ y :: l) as Hy by set_solver; specialize (Hl y Hy); lia).
    cbn [orb]. rewrite (fun b => match b return (if negb b then (x, default 0 (pr !! x)) else (x, default 0 (pr !! x))) = (x, default 0 (pr !! x)) with true => eq_refl | false => eq_refl end).
    apply IH; [|done]. intros z Hz. apply Hl. set_solver. }
  assert (forall l1 l2, ids = l1 ++ l2 -> (fold_left f l2 ("", -1)).1 = default "" (List.find (candidate blockedBy emitted) l2)) as H.
  { intros l1 l2. revert l1. induction l2 as [|x l2 IH]; intros l1 E; [done|]. cbn [fold_left List.find]. unfold f at 2.
    destruct (candidate blockedBy emitted x) eqn:Ec; cbn [negb].
    - rewrite String.eqb_refl. cbn [orb]. rewrite Hkeep; [done| |].
      + intros y Hy. by apply (priorities_lt l1 x l2).
      + intros ->. apply Hnames. rewrite E. set_solver.
    - apply (IH (l1 ++ [x])). by rewrite <- app_assoc. }
  by apply (H []).
Qed.

Lemma first_ready_spec emitted x :
  first_ready emitted = Some x <->
  exists l1 l2, ids = l1 ++ x :: l2 /\ candidate blockedBy emitted x = true /\ forall y, y ∈ l1 -> candidate blockedBy emitted y = false.
Proof.
  unfold first_ready. clear. induction ids as [|z l IH]; cbn [List.find]; [split; [done|]; by intros ([|] & ? & ? & _)|].
  destruct (candidate blockedBy emitted z) eqn:E.
  - split.
    + intros [= ->]. exists [], l. split_and!; [done|done|set_solver].
    + intros ([|y l1] & l2 & Hl & Hx & Hn); cbn in Hl; injection Hl as -> ->; [done|]. rewrite (Hn y) in E by set_solver. done.
  - rewrite IH. split; intros (l1 & l2 & Hl & Hx & Hn).
    + exists (z :: l1), l2. split_and!; [by rewrite Hl|done|]. intros y [->|Hy]%elem_of_cons; [done|by apply Hn].
    + destruct l1 as [|y l1]; cbn in Hl; injection Hl as -> ->; [congruence|]. exists l1, l2. split_and!; [done|done|]. intros w Hw. apply Hn. set_solver.
Qed.

Lemma candidate_spec out x :
  candidate blockedBy (list_to_set out) x = true <-> (x ∉ out) /\ forall b, b ∈ blockers blockedBy x -> b ∈ out.
Proof.
  unfold candidate. rewrite andb_true_iff, negb_true_iff, bool_decide_eq_false, bool_decide_eq_true, elem_of_list_to_set.
  split; intros [? Hs]; (split; [done|]); intros b Hb; [by apply (elem_of_list_to_set (C := gset string)), Hs|by apply elem_of_list_to_set, Hs].
Qed.

(** Every id was the first of the input that could go next. *)
Definition greedy (out : list string) : Prop :=
  forall p x s, out = p ++ x :: s -> first_ready (list_to_set p) = Some x.

Lemma greedy_snoc out x : greedy out -> first_ready (list_to_set out) = Some x -> greedy (out ++ [x]).
Proof.
  intros Hg Hx p y s E. destruct s as [|z s _] using rev_ind.
  - apply app_inj_tail in E as [<- <-]. done.
  - rewrite app_comm_cons, app_assoc in E. apply app_inj_tail in E as [E _]. by apply (Hg p y s).
Qed.

Lemma rest_appended l emitted out :
  NoDup l ->
  (fold_left (fun '(emitted, out) id => if bool_decide (id ∈ emitted) then (emitted, out) else ({[id]} ∪ emitted, out ++ [id]) : gset string * list string)
     l (emitted, out)).2 = out ++ List.filter (fun id => negb (bool_decide (id ∈ emitted))) l.
Proof.
  revert emitted out. induction l as [|x l IH]; intros emitted out Hl; [by rewrite app_nil_r|].
  apply NoDup_cons in Hl as [Hx Hl]. cbn [fold_left List.filter]. case_bool_decide as E; rewrite IH by done; cbn [negb]; [done|].
  rewrite <- app_assoc. f_equal. cbn. f_equal. apply filter_ext_in. intros y Hy%list_elem_of_In. f_equal. apply bool_decide_ext. set_solver.
Qed.

Lemma none_kept {A} (l : list A) : List.filter (fun _ => false) l = [].
Proof. by induction l. Qed.

Lemma emit_spec left out :
  NoDup out -> out ⊆ ids -> length ids = (left + length out)%nat -> greedy out ->
  exists l1, emit_next left (priorities 0 ids ∅) blockedBy ids (list_to_set out) out
             = l1 ++ List.filter (fun id => negb (bool_decide (id ∈ l1))) ids
    /\ NoDup l1 /\ l1 ⊆ ids /\ greedy l1 /\ first_ready (list_to_set l1) = None.
Proof.
  revert out. induction left as [|left IH]; intros out Hnd Hsub Hlen Hg; cbn [emit_next].
  - assert (forall x, x ∈ ids -> x ∈ out) as Hall.
    { intros x Hx. assert (out ≡ₚ ids) as Hp; [|by rewrite Hp]. apply submseteq_length_Permutation; [by apply NoDup_submseteq|lia]. }
    exists out. split_and!; [|done|done|done|].
    + rewrite (filter_ext_in _ (fun _ => false)); [by rewrite none_kept, app_nil_r|].
      intros x Hx%list_elem_of_In%Hall. by rewrite bool_decide_eq_true_2.
    + destruct (first_ready _) as [x|] eqn:E; [|done]. apply first_ready_spec in E as (l1 & l2 & E & [Hn _]%candidate_spec & _).
      exfalso. apply Hn, Hall. rewrite E. set_solver.
  - rewrite pick_first. destruct (first_ready (list_to_set out)) as [x|] eqn:E.
    + change (default "" (Some x)) with x. pose proof E as (l1 & l2 & El & [Hn Hb]%candidate_spec & _)%first_ready_spec.
      assert (x ∈ ids) as Hx by (rewrite El; set_solver).
      rewrite (proj2 (String.eqb_neq _ _)) by (by intros ->).
      assert ({[x]} ∪ list_to_set out =@{gset string} list_to_set (out ++ [x])) as -> by set_solver.
      apply IH; [|set_solver|rewrite length_app; cbn; lia|by apply greedy_snoc].
      apply NoDup_app. split_and!; [done|set_solver|apply NoDup_singleton].
    + change (default "" (@None string)) with (EmptyString). rewrite String.eqb_refl, rest_appended by done. exists out. split_and!; [|done|done|done|done].
      f_equal. apply filter_ext. intros y. f_equal. apply bool_decide_ext. set_solver.
Qed.

(** What is emitted is what no cycle holds back. *)
Definition holds_back (b a : string) : Prop := a ∈ ids /\ b ∈ blockers blockedBy a.

Lemma greedy_acc l1 x : greedy l1 -> x ∈ l1 -> Acc holds_back x.
Proof.
  revert x. induction l1 as [|y l1 IH] using rev_ind; intros x Hg Hx; [set_solver|].
  assert (greedy l1) as Hg1 by (intros p z s E; apply (Hg p z (s ++ [y])); by rewrite E, <- app_assoc).
  apply elem_of_app in Hx as [Hx|Hx]; [by apply IH|]. apply list_elem_of_singleton in Hx as ->.
  constructor. intros b [_ Hb]. apply IH; [done|].
  pose proof (Hg l1 y [] eq_refl) as (? & ? & _ & [_ Hc]%candidate_spec & _)%first_ready_spec. by apply Hc.
Qed.

Lemma stuck_not_acc l1 x : first_ready (list_to_set l1) = None -> x ∈ ids -> (x ∉ l1) -> ~ Acc holds_back x.
Proof.
  intros Hst Hx Hn Hacc. induction Hacc as [x _ IH]. 
  assert (candidate blockedBy (list_to_set l1) x = false) as Hc.
  { apply (find_none _ _ Hst). by apply list_elem_of_In. }
  assert (~ (forall b, b ∈ blockers blockedBy x -> b ∈ l1)) as Hnb.
  { intros Hall. assert (candidate blockedBy (list_to_set l1) x = true); [by apply candidate_spec|congruence]. }
  apply Hnb. intros b Hb. destruct (decide (b ∈ l1)) as [|Hbn]; [done|]. exfalso. apply (IH b); [done|by apply (Hblocks x)|done].
Qed.

End emitted.

Lemma list_blockers_err DepList inSet l m e :
  list_blockers DepList inSet l m = Err e -> exists a e', a ∈ l /\ DepList a "down" = Err e'.
Proof.
  revert m. induction l as [|x l IH]; intros m; cbn [list_blockers]; [done|]. destruct (DepList x "down") as [deps|e'] eqn:E.
  - intros (a & e' & Ha & He)%IH. exists a, e'. split; [set_solver|done].
  - intros _. exists x, e'. split; [set_solver|done].
Qed.

Lemma Acc_iff (R S : string -> string -> Prop) x : (forall a b, R b a <-> S b a) -> Acc R x -> Acc S x.
Proof. intros Hrs. induction 1 as [x _ IH]. constructor. intros y Hy. apply IH. by apply Hrs. Qed.

Lemma batch_perm (l1 ids : list string) :
  NoDup l1 -> NoDup ids -> l1 ⊆ ids -> l1 ++ List.filter (fun id => negb (bool_decide (id ∈ l1))) ids ≡ₚ ids.
Proof.
  intros H1 H2 Hs. assert (forall x, x ∈ List.filter (fun id => negb (bool_decide (id ∈ l1))) ids <-> x ∈ ids /\ (x ∉ l1)) as Hf.
  { intros x. by rewrite list_elem_of_In, filter_In, <- list_elem_of_In, negb_true_iff, bool_decide_eq_false. }
  apply NoDup_Permutation; [|done|].
  - apply NoDup_app. split_and!; [done| |].
    + intros x Hx [_ Hn]%Hf. done.
    + apply NoDup_ListNoDup. apply List.NoDup_filter. by apply NoDup_ListNoDup.
  - intros x. rewrite elem_of_app, Hf. destruct (decide (x ∈ l1)); [|tauto]. split; [intros _; by apply Hs|by left].
Qed.

Lemma split_unique {A} (t t' u u' : list A) x ids :
  NoDup ids -> ids = t ++ x :: u -> ids = t' ++ x :: u' -> t = t'.
Proof.
  intros Hnd E E'. assert (length t = length t') as Hlen.
  { apply (NoDup_lookup ids _ _ x Hnd); [rewrite E|rewrite E']; by apply list_lookup_middle. }
  rewrite E in E'. by apply app_inj_1 in E' as [? _].
Qed.

Lemma short_batch DepList (ids : list string) :
  (length ids <= 1)%nat ->
  exists l1 l2, Ok ids = Ok (l1 ++ l2) /\ l1 ++ l2 ≡ₚ ids
    /\ (forall x, x ∈ l1 <-> x ∈ ids /\ Acc (blocks DepList ids) x)
    /\ l2 = List.filter (fun id => negb (bool_decide (id ∈ l1))) ids
    /\ (forall p x s, l1 = p ++ x :: s ->
          (forall b, blocks DepList ids b x -> b ∈ p)
          /\ (forall t y u, ids = t ++ x :: u -> y ∈ t -> (y ∉ p) -> exists b, blocks DepList ids b y /\ (b ∉ p))).
Proof.
  intros Hlen. assert (forall a b, ~ blocks DepList ids b a) as Hno.
  { intros a b (Ha & Hb & Hne & _). destruct ids as [|x [|]]; cbn in Hlen; [set_solver| |lia]. set_solver. }
  exists ids, []. rewrite app_nil_r. split_and!; [done|done| | |].
  - intros x. split; [|by intros [? _]]. intros Hx. split; [done|]. constructor. by intros b ?%Hno.
  - rewrite (filter_ext_in _ (fun _ => false)); [by rewrite none_kept|]. intros x Hx%list_elem_of_In. by rewrite bool_decide_eq_true_2.
  - intros p x s E. split; [by intros b ?%Hno|]. intros t y u E' Hy. exfalso.
    apply (f_equal length) in E'. rewrite length_app in E'. destruct t; [set_solver|]. cbn in E'. lia.
Qed.

(** (C34) The close batch of distinct beads is what it promises.  It is a permutation of the
    ids: first the ones no cycle of blockers holds back, then the others in input order.
    Among the first, every id comes after all its blockers, and is the first of the input
    that could come there: any id before it in the input has a blocker that is not yet
    closed.  A batch fails only when the store cannot list the dependencies of one. *)
Theorem Order_exact DepList ids :
  NoDup ids -> ("" ∉ ids) ->
  (forall e, Order (Some DepList) ids = Err e -> exists a e', a ∈ ids /\ DepList a "down" = Err e')
  /\ ((forall a, a ∈ ids -> exists deps, DepList a "down" = Ok deps) ->
      exists l1 l2, Order (Some DepList) ids = Ok (l1 ++ l2) /\ l1 ++ l2 ≡ₚ ids
        /\ (forall x, x ∈ l1 <-> x ∈ ids /\ Acc (blocks DepList ids) x)
        /\ l2 = List.filter (fun id => negb (bool_decide (id ∈ l1))) ids
        /\ (forall p x s, l1 = p ++ x :: s ->
              (forall b, blocks DepList ids b x -> b ∈ p)
              /\ (forall t y u, ids = t ++ x :: u -> y ∈ t -> (y ∉ p) -> exists b, blocks DepList ids b y /\ (b ∉ p)))).
Proof.
  intros Hnd Hne. unfold Order. destruct (Nat.leb_spec (length ids) 1) as [Hs|Hl].
  { split; [done|]. intros _. by apply short_batch. }
  split.
  - destruct (list_blockers DepList (list_to_set ids) ids ∅) as [m|e'] eqn:E; [done|]. intros e [= <-]. by apply list_blockers_err in E.
  - intros Hok. destruct (list_blockers_ok DepList ids ids ∅ Hok) as (m & -> & Hm).
    assert (forall a b, holds_back ids m b a <-> blocks DepList ids b a) as Hhb.
    { intros a b. unfold holds_back, blocks. rewrite Hm. unfold blockers. rewrite lookup_empty. cbn. set_solver. }
    assert (forall a b, a ∈ ids -> b ∈ blockers m a -> b ∈ ids) as Hsub by (intros a b Ha Hb; destruct (proj1 (Hhb a b)) as (_ & ? & _); done).
    destruct (emit_spec ids m Hnd Hne Hsub (length ids) []) as (l1 & E & Hnd1 & Hsub1 & Hg & Hst); [constructor|set_solver|cbn; lia|by intros [|]|].
    exists l1, (List.filter (fun id => negb (bool_decide (id ∈ l1))) ids). split; [by rewrite <- E|].
    split_and!; [by apply batch_perm| |done|].
    + intros x. split.
      * intros Hx. split; [by apply Hsub1|]. eapply Acc_iff; [intros; apply Hhb|]. by eapply greedy_acc.
      * intros [Hx Hacc]. destruct (decide (x ∈ l1)) as [|Hn]; [done|]. exfalso.
        eapply stuck_not_acc; [done..|]. eapply Acc_iff; [intros; symmetry; apply Hhb|done].
    + intros p x s El. pose proof (Hg p x s El) as (t & u & Et & [Hn Hc]%candidate_spec & Hbefore)%first_ready_spec. split.
      * intros b [_ Hb]%Hhb. by apply Hc.
      * intros t' y u' Et' Hy Hyn. assert (t = t') as <- by (by apply (split_unique t t' u u' x ids)).
        pose proof (Hbefore y Hy) as Hcf.
        destruct (decide (Forall (fun b => b ∈ p) (elements (blockers m y)))) as [Hall|Hnall].
        -- exfalso. assert (candidate m (list_to_set p) y = true); [|congruence]. apply candidate_spec. split; [done|].
           intros b Hb. rewrite Forall_forall in Hall. apply Hall. by apply elem_of_elements.
        -- apply not_Forall_Exists in Hnall; [|intros b; apply _]. apply Exists_exists in Hnall as (b & Hb%elem_of_elements & Hbn).
           exists b. split; [|done]. apply Hhb. split; [|done]. rewrite Et. set_solver.
Qed.

(** * Over the in-memory store *)

Definition over_memory (m : MemStore.MemStore) : string -> string -> res (list Dep) := fun id direction => MemStore.DepList id direction m.

Definition a_store : MemStore.MemStore :=
  MemStore.set_deps [mkDep "c" "a" "blocks"; mkDep "b" "c" "related"; mkDep "x" "y" "blocks"; mkDep "y" "x" "blocks"; mkDep "d" "x" "blocks"]
    MemStore.NewMemStore.

Definition a_batch : list string := ["d"; "c"; "b"; "y"; "a"; "x"].

Lemma Order_exact_witness :
  Order (Some (over_memory a_store)) a_batch = Ok ["b"; "a"; "c"; "d"; "y"; "x"]
  /\ exists l1 l2, Order (Some (over_memory a_store)) a_batch = Ok (l1 ++ l2) /\ l1 ++ l2 ≡ₚ a_batch
        /\ (forall x, x ∈ l1 <-> x ∈ a_batch /\ Acc (blocks (over_memory a_store) a_batch) x).
Proof.
  split; [vm_compute; reflexivity|].
  destruct (proj2 (Order_exact (over_memory a_store) a_batch ltac:(repeat (apply NoDup_cons_2; [set_solver|]); constructor) ltac:(set_solver)))
    as (l1 & l2 & H1 & H2 & H3 & _); [by intros a _; eexists|].
  exists l1, l2. split_and!; [exact H1|exact H2|exact H3].
Defined.

End closeorder.
