(* ===== verification/ShellQuote.v ===== *)
(** Shell quoting (internal/shellquote): Quote and Join render an argument vector as one
    command line, Split reads one back.  A string is bytes, as Go has it: ranging over it
    decodes UTF-8, and every byte that starts no encoding becomes the replacement rune. *)
From Stdlib Require Import Ascii.
From S2P Require Import Prelude GoStd.

Definition RuneError : Z := 65533.

(** A Unicode scalar value: no surrogate. *)
Definition scalar (r : Z) : bool := ((0 <=? r) && (r <? 55296)) || ((57344 <=? r) && (r <? 1114112)).

(** utf8.AppendRune *)
Definition encode_scalar (r : Z) : list Z :=
  if r <? 128 then [r]
  else if r <? 2048 then [192 + r / 64; 128 + r mod 64]
  else if r <? 65536 then [224 + r / 4096; 128 + (r / 64) mod 64; 128 + r mod 64]
  else [240 + r / 262144; 128 + (r / 4096) mod 64; 128 + (r / 64) mod 64; 128 + r mod 64].

Definition encode_rune (r : Z) : string := bytes (encode_scalar (if scalar r then r else RuneError)).

Fixpoint encode (rs : list Z) : string := match rs with [] => "" | r :: rs' => encode_rune r +:+ encode rs' end.

Definition cont (lo hi : Z) (c : ascii) : bool := (lo <=? byte_of c) && (byte_of c <=? hi).
Definition low6 (c : ascii) : Z := byte_of c - 128.

(** utf8.DecodeRuneInString: a rune and what follows it. *)
Definition decode_rune (c : ascii) (s : string) : Z * string :=
  let b := byte_of c in
  if b <? 128 then (b, s)
  else if (194 <=? b) && (b <=? 223) then
    match s with
    | String c1 s' => if cont 128 191 c1 then ((b - 192) * 64 + low6 c1, s') else (RuneError, s)
    | _ => (RuneError, s)
    end
  else if (224 <=? b) && (b <=? 239) then
    match s with
    | String c1 (String c2 s') =>
        if cont (if b =? 224 then 160 else 128) (if b =? 237 then 159 else 191) c1 && cont 128 191 c2
        then ((b - 224) * 4096 + low6 c1 * 64 + low6 c2, s') else (RuneError, s)
    | _ => (RuneError, s)
    end
  else if (240 <=? b) && (b <=? 244) then
    match s with
    | String c1 (String c2 (String c3 s')) =>
        if cont (if b =? 240 then 144 else 128) (if b =? 244 then 143 else 191) c1 && cont 128 191 c2 && cont 128 191 c3
        then ((b - 240) * 262144 + low6 c1 * 4096 + low6 c2 * 64 + low6 c3, s') else (RuneError, s)
    | _ => (RuneError, s)
    end
  else (RuneError, s).

(** for _, r := range s.  Every turn drops a byte, so the length is enough. *)
Fixpoint decode_runes (fuel : nat) (s : string) : list Z :=
  match fuel, s with
  | S fuel', String c s' => let '(r, rest) := decode_rune c s' in r :: decode_runes fuel' rest
  | _, _ => []
  end.

Definition runes (s : string) : list Z := decode_runes (String.length s) s.

(** * The round trip *)

#[local] Ltac Zify.zify_post_hook ::= Z.div_mod_to_equations.

Lemma byte_of_bytes z : 0 <= z < 256 -> byte_of (ascii_of_N (Z.to_N z)) = z.
Proof. intros Hz. unfold byte_of. rewrite N_ascii_embedding by lia. lia. Qed.

Lemma bytes_cons z l : bytes (z :: l) = String (ascii_of_N (Z.to_N z)) (bytes l).
Proof. done. Qed.

Ltac decide_tests :=
  repeat match goal with
  | |- context [?a <? ?b] => first [rewrite (proj2 (Z.ltb_lt a b)) by lia | rewrite (proj2 (Z.ltb_ge a b)) by lia]
  | |- context [?a <=? ?b] => first [rewrite (proj2 (Z.leb_le a b)) by lia | rewrite (proj2 (Z.leb_gt a b)) by lia]
  end.

Lemma decode_rest_length c s : (String.length (decode_rune c s).2 <= String.length s)%nat.
Proof. unfold decode_rune. repeat (case_match; cbn; try lia). Qed.

Lemma decode_runes_enough n m s : (String.length s <= n)%nat -> (String.length s <= m)%nat -> decode_runes n s = decode_runes m s.
Proof.
  revert m s. induction n as [|n IH]; intros m s Hn Hm.
  - destruct s; [by destruct m|cbn in Hn; lia].
  - destruct s as [|c s]; [by destruct m|]. destruct m as [|m]; [cbn in Hm; lia|]. cbn [decode_runes].
    pose proof (decode_rest_length c s) as Hl. destruct (decode_rune c s) as [r rest]. cbn in *. f_equal. apply IH; lia.
Qed.

Lemma runes_cons c s : runes (String c s) = (decode_rune c s).1 :: runes (decode_rune c s).2.
Proof.
  unfold runes. cbn [String.length decode_runes]. pose proof (decode_rest_length c s) as Hl.
  destruct (decode_rune c s) as [r rest]. cbn in *. f_equal. by apply decode_runes_enough.
Qed.

Lemma scalar_spec r : scalar r = true <-> 0 <= r < 55296 \/ 57344 <= r < 1114112.
Proof. unfold scalar. rewrite orb_true_iff, !andb_true_iff, !Z.leb_le, !Z.ltb_lt. done. Qed.

Lemma runes_encode_rune r s : scalar r = true -> runes (encode_rune r +:+ s) = r :: runes s.
Proof.
  intros Hr. unfold encode_rune. rewrite Hr. apply scalar_spec in Hr. unfold encode_scalar.
  destruct (Z.ltb_spec r 128); [|destruct (Z.ltb_spec r 2048); [|destruct (Z.ltb_spec r 65536)]].
  - rewrite bytes_cons. cbn [bytes fold_right]. rewrite string_app_cons, runes_cons. unfold decode_rune.
    rewrite byte_of_bytes by lia. decide_tests. done.
  - rewrite !bytes_cons, !string_app_cons, runes_cons. unfold decode_rune, cont, low6.
    rewrite !byte_of_bytes by lia. decide_tests. cbn [andb fst snd]. f_equal. lia.
  - rewrite !bytes_cons, !string_app_cons, runes_cons. unfold decode_rune, cont, low6.
    rewrite !byte_of_bytes by lia. decide_tests. cbn [andb].
    destruct (Z.eqb_spec (224 + r / 4096) 224), (Z.eqb_spec (224 + r / 4096) 237); decide_tests; cbn [andb fst snd]; f_equal; lia.
  - rewrite !bytes_cons, !string_app_cons, runes_cons. unfold decode_rune, cont, low6.
    rewrite !byte_of_bytes by lia. decide_tests. cbn [andb].
    destruct (Z.eqb_spec (240 + r / 262144) 240), (Z.eqb_spec (240 + r / 262144) 244); decide_tests; cbn [andb fst snd]; f_equal; lia.
Qed.

Lemma runes_encode rs s : Forall (fun r => scalar r = true) rs -> runes (encode rs +:+ s) = rs ++ runes s.
Proof.
  induction 1 as [|r rs Hr _ IH]; [done|]. cbn [encode]. rewrite <- string_app_assoc, runes_encode_rune, IH by done. done.
Qed.

Module shellquote.

(** The bytes of metacharacters: blanks, quotes, backslash and the punctuation of a shell. *)
Definition metacharacters : list Z :=
  [32; 9; 13; 10; 34; 39; 92; 124; 38; 59; 36; 33; 40; 41; 123; 125; 91; 93; 60; 62; 63; 42; 126; 35; 96].

Fixpoint any_byte (f : Z -> bool) (s : string) : bool :=
  match s with "" => false | String c s' => f (byte_of c) || any_byte f s' end.

(** strings.ContainsAny with a set of single bytes. *)
Definition contains_meta (s : string) : bool := any_byte (fun b => existsb (Z.eqb b) metacharacters) s.

(** strings.ReplaceAll(s, "'", "'\\''") *)
Fixpoint escape_single (s : string) : string :=
  match s with
  | "" => ""
  | String c s' => (if byte_of c =? 39 then "'\''" else String c "") +:+ escape_single s'
  end.

Definition Quote (s : string) : string := "'" +:+ escape_single s +:+ "'".

Definition join_part (arg : string) : string :=
  if String.eqb arg "" then "''" else if contains_meta arg then Quote arg else arg.

Definition Join (args : list string) : string := join_with " " (join_part <$> args).

(** The variables of Split; [sp_current] is what the builder holds. *)
Record Splitter : Type := mkSplitter {
  sp_args : list string;
  sp_current : string;
  sp_inSingle : bool;
  sp_inDouble : bool;
  sp_escaped : bool;
  sp_tokenActive : bool
}.

Definition flush (s : Splitter) : Splitter :=
  if sp_tokenActive s || negb (String.eqb (sp_current s) "") then
    mkSplitter (sp_args s ++ [sp_current s]) "" (sp_inSingle s) (sp_inDouble s) (sp_escaped s) false
  else s.

(** current.WriteRune(r) with tokenActive = true, and the modes after it. *)
Definition write (r : Z) (inSingle inDouble : bool) (s : Splitter) : Splitter :=
  mkSplitter (sp_args s) (sp_current s +:+ encode_rune r) inSingle inDouble false true.

Definition mode (inSingle inDouble escaped active : bool) (s : Splitter) : Splitter :=
  mkSplitter (sp_args s) (sp_current s) inSingle inDouble escaped active.

Definition split_rune (s : Splitter) (r : Z) : Splitter :=
  if sp_escaped s then write r (sp_inSingle s) (sp_inDouble s) s
  else if sp_inSingle s then
    if r =? 39 then mode false (sp_inDouble s) false (sp_tokenActive s) s else write r true (sp_inDouble s) s
  else if sp_inDouble s then
    if r =? 34 then mode false false false (sp_tokenActive s) s
    else if r =? 92 then mode false true true true s
    else write r false true s
  else if r =? 39 then mode true false false true s
  else if r =? 34 then mode false true false true s
  else if r =? 92 then mode false false true true s
  else if existsb (Z.eqb r) [32; 9; 10; 13] then flush s
  else write r false false s.

Definition Split (command : string) : list string :=
  let s := fold_left split_rune (runes command) (mkSplitter [] "" false false false false) in
  let s := if sp_escaped s then mkSplitter (sp_args s) (sp_current s +:+ encode_rune 92) (sp_inSingle s) (sp_inDouble s) true (sp_tokenActive s) else s in
  sp_args (flush s).

(** * The round trip *)

Definition scalars : list Z -> Prop := Forall (fun r => scalar r = true).

(** Valid UTF-8. *)
Definition valid (s : string) : Prop := exists rs, scalars rs /\ s = encode rs.

Lemma encode_app a b : encode (a ++ b) = encode a +:+ encode b.
Proof. induction a as [|r a IH]; [done|]. cbn [encode app]. by rewrite IH, string_app_assoc. Qed.

Definition low_byte (f : Z -> bool) : Prop := forall b, 128 <= b < 256 -> f b = false.

#[local] Ltac Zify.zify_post_hook ::= Z.div_mod_to_equations.

(** A rune is one byte, or bytes of which none is a byte of ASCII. *)
Lemma encode_scalar_bytes r :
  scalar r = true -> 0 <= r < 128 /\ encode_scalar r = [r] \/ 128 <= r /\ Forall (fun b => 128 <= b < 256) (encode_scalar r).
Proof.
  intros Hr%scalar_spec. unfold encode_scalar.
  destruct (Z.ltb_spec r 128); [left; by split; [lia|]|]. right. split; [lia|].
  destruct (Z.ltb_spec r 2048); [|destruct (Z.ltb_spec r 65536)]; repeat constructor; lia.
Qed.

Lemma any_byte_app f a b : any_byte f (a +:+ b) = any_byte f a || any_byte f b.
Proof. induction a as [|c a IH]; [done|]. rewrite string_app_cons. cbn [any_byte]. by rewrite IH, orb_assoc. Qed.

Lemma any_byte_high f l : low_byte f -> Forall (fun b => 128 <= b < 256) l -> any_byte f (bytes l) = false.
Proof.
  intros Hf. induction 1 as [|b l Hb _ IH]; [done|]. rewrite bytes_cons. cbn [any_byte].
  by rewrite byte_of_bytes, Hf, IH by lia.
Qed.

Lemma any_byte_encode f rs :
  low_byte f -> scalars rs -> any_byte f (encode rs) = existsb (fun r => (r <? 128) && f r) rs.
Proof.
  intros Hf. induction 1 as [|r rs Hr _ IH]; [done|]. cbn [encode existsb]. rewrite any_byte_app, IH. f_equal.
  unfold encode_rune. rewrite Hr. destruct (encode_scalar_bytes r Hr) as [[Hlt ->]|[Hge Hb]].
  - rewrite bytes_cons. cbn [any_byte bytes fold_right]. rewrite byte_of_bytes, orb_false_r, (proj2 (Z.ltb_lt _ _)) by lia. done.
  - by rewrite any_byte_high, (proj2 (Z.ltb_ge _ _)) by done.
Qed.

Lemma escape_single_app a b : escape_single (a +:+ b) = escape_single a +:+ escape_single b.
Proof. induction a as [|c a IH]; [done|]. rewrite string_app_cons. cbn [escape_single]. by rewrite IH, string_app_assoc. Qed.

Lemma escape_single_high l : Forall (fun b => 128 <= b < 256) l -> escape_single (bytes l) = bytes l.
Proof.
  induction 1 as [|b l Hb _ IH]; [done|]. rewrite bytes_cons. cbn [escape_single].
  rewrite byte_of_bytes, (proj2 (Z.eqb_neq _ _)), IH by lia. done.
Qed.

Definition escaped_runes (rs : list Z) : list Z := rs ≫= fun r => if r =? 39 then [39; 92; 39; 39] else [r].

Lemma escape_single_encode rs : scalars rs -> escape_single (encode rs) = encode (escaped_runes rs).
Proof.
  induction 1 as [|r rs Hr _ IH]; [done|]. cbn [encode]. rewrite escape_single_app, IH. unfold escaped_runes. cbn [mbind list_bind].
  rewrite encode_app. f_equal. destruct (Z.eqb_spec r 39) as [->|Hne]; [done|]. cbn [encode]. rewrite string_app_nil_r.
  unfold encode_rune. rewrite Hr. destruct (encode_scalar_bytes r Hr) as [[Hlt ->]|[Hge Hb]]; [|by apply escape_single_high].
  rewrite bytes_cons. cbn [bytes fold_right escape_single]. rewrite byte_of_bytes, (proj2 (Z.eqb_neq _ _)) by lia. done.
Qed.

Lemma scalars_escaped rs : scalars rs -> scalars (escaped_runes rs).
Proof.
  intros Hrs. apply Forall_bind. eapply Forall_impl; [exact Hrs|]. intros r Hr. cbn. destruct (r =? 39); [by repeat constructor|by constructor].
Qed.

(** The runes of one argument of a command line. *)
Definition part_runes (rs : list Z) : list Z :=
  if bool_decide (rs = []) then [39; 39]
  else if existsb (fun r => (r <? 128) && existsb (Z.eqb r) metacharacters) rs then [39] ++ escaped_runes rs ++ [39]
  else rs.

Lemma encode_nonempty r rs : scalar r = true -> encode (r :: rs) <> "".
Proof.
  intros Hr. cbn [encode]. unfold encode_rune. rewrite Hr. destruct (encode_scalar_bytes r Hr) as [[_ ->]|[_ Hb]]; [done|].
  destruct (encode_scalar r) as [|b l] eqn:E; [|done]. unfold encode_scalar in E. repeat (case_match; [done|]). done.
Qed.

Lemma meta_low : low_byte (fun b => existsb (Z.eqb b) metacharacters).
Proof.
  intros b Hb. apply existsb_false_Forall. unfold metacharacters. repeat constructor; apply Z.eqb_neq; lia.
Qed.

Lemma join_part_encode rs : scalars rs -> join_part (encode rs) = encode (part_runes rs) /\ scalars (part_runes rs).
Proof.
  intros Hrs. unfold join_part, part_runes, contains_meta. rewrite any_byte_encode by (done || apply meta_low).
  case_bool_decide as E; [subst rs; split; [done|by repeat constructor]|].
  destruct rs as [|r rs]; [done|]. rewrite (proj2 (String.eqb_neq _ _)) by (apply encode_nonempty; by inversion Hrs).
  destruct (existsb _ (r :: rs)); [|done]. split.
  - unfold Quote. rewrite escape_single_encode, !encode_app by done. done.
  - apply Forall_app. split; [by repeat constructor|]. apply Forall_app. split; [by apply scalars_escaped|by repeat constructor].
Qed.

(** ** Reading the runes *)

Definition between (args : list string) : Splitter := mkSplitter args "" false false false false.
Definition inside (args : list string) (cur : string) (quote : bool) : Splitter := mkSplitter args cur quote false false true.

Lemma read_escaped args cur rs :
  fold_left split_rune (escaped_runes rs) (inside args cur true) = inside args (cur +:+ encode rs) true.
Proof.
  revert cur. induction rs as [|r rs IH]; intros cur; [cbn; by rewrite string_app_nil_r|].
  unfold escaped_runes. cbn [mbind list_bind]. rewrite fold_left_app. fold (escaped_runes rs).
  destruct (Z.eqb_spec r 39) as [->|Hne].
  - change (fold_left split_rune [39; 92; 39; 39] (inside args cur true)) with (inside args (cur +:+ encode_rune 39) true).
    rewrite IH. cbn [encode]. by rewrite string_app_assoc.
  - cbn [fold_left]. unfold split_rune at 2. cbn [sp_escaped sp_inSingle inside]. rewrite (proj2 (Z.eqb_neq _ _) Hne).
    change (write r true _ _) with (inside args (cur +:+ encode_rune r) true). rewrite IH. cbn [encode]. by rewrite string_app_assoc.
Qed.

Lemma read_plain args cur rs active :
  existsb (fun r => (r <? 128) && existsb (Z.eqb r) metacharacters) rs = false -> rs <> [] ->
  fold_left split_rune rs (mkSplitter args cur false false false active) = inside args (cur +:+ encode rs) false.
Proof.
  revert cur active. induction rs as [|r rs IH]; intros cur active Hm Hne; [done|].
  cbn [existsb] in Hm. apply orb_false_elim in Hm as [Hr Hm]. cbn [fold_left].
  assert (split_rune (mkSplitter args cur false false false active) r = inside args (cur +:+ encode_rune r) false) as ->.
  { assert (forall c, In c metacharacters -> c < 128 -> (r =? c) = false) as Hno.
    { intros c Hc Hlt. apply Z.eqb_neq. intros ->. rewrite (proj2 (Z.ltb_lt _ _) Hlt) in Hr. cbn [andb] in Hr.
      rewrite existsb_false_Forall in Hr. rewrite List.Forall_forall in Hr. specialize (Hr c Hc). by rewrite Z.eqb_refl in Hr. }
    unfold split_rune. cbn [sp_escaped sp_inSingle sp_inDouble existsb]. rewrite !Hno by (cbn; lia || tauto). done. }
  destruct rs as [|r' rs].
  - cbn. by rewrite string_app_nil_r.
  - unfold inside at 1. rewrite (IH _ true) by done. cbn [encode]. by rewrite !string_app_assoc.
Qed.

Lemma read_part args rs :
  fold_left split_rune (part_runes rs) (between args) = inside args (encode rs) false.
Proof.
  unfold part_runes. case_bool_decide as E; [by subst|]. destruct (existsb _ rs) eqn:Em.
  - rewrite !fold_left_app. change (fold_left split_rune [39] (between args)) with (inside args "" true). rewrite read_escaped. done.
  - unfold between. by rewrite read_plain.
Qed.

Fixpoint line_runes (args : list (list Z)) : list Z :=
  match args with [] => [] | [rs] => part_runes rs | rs :: args' => part_runes rs ++ [32] ++ line_runes args' end.

Lemma Join_runes args :
  Forall scalars args -> Join (encode <$> args) = encode (line_runes args) /\ scalars (line_runes args).
Proof.
  unfold Join. induction 1 as [|rs args Hrs _ [IH1 IH2]]; [split; [done|constructor]|].
  destruct (join_part_encode rs Hrs) as [E Hs]. destruct args as [|rs' args].
  - cbn. done.
  - cbn [fmap list_fmap join_with] in *. split.
    + change (line_runes (rs :: rs' :: args)) with (part_runes rs ++ [32] ++ line_runes (rs' :: args)).
      rewrite !encode_app, <- IH1, E. done.
    + apply Forall_app. split; [done|]. by apply Forall_app; split; [by repeat constructor|].
Qed.

Lemma read_line done_ args :
  args <> [] ->
  exists cur, fold_left split_rune (line_runes args) (between done_) = inside cur.1 cur.2 false /\ cur.1 ++ [cur.2] = done_ ++ (encode <$> args).
Proof.
  revert done_. induction args as [|rs args IH]; intros done_ Hne; [done|]. destruct args as [|rs' args].
  - exists (done_, encode rs). split; [apply read_part|done].
  - change (line_runes (rs :: rs' :: args)) with (part_runes rs ++ [32] ++ line_runes (rs' :: args)).
    rewrite !fold_left_app, read_part.
    change (fold_left split_rune [32] (inside done_ (encode rs) false)) with (between (done_ ++ [encode rs])).
    destruct (IH (done_ ++ [encode rs])) as (cur & E & Hc); [done|]. exists cur. split; [done|]. rewrite Hc, <- app_assoc. done.
Qed.

(** (C40) A command line made of an argument vector is read back as that vector, whatever
    blanks, quotes, backslashes or punctuation of a shell the arguments hold and however
    empty they are, as long as they are valid UTF-8. *)
Theorem Split_Join args : Forall valid args -> Split (Join args) = args.
Proof.
  intros Hv. assert (exists rss, Forall scalars rss /\ args = encode <$> rss) as (rss & Hs & ->).
  { induction Hv as [|a args (rs & Hrs & ->) _ (rss & Hrss & ->)]; [by exists []|]. exists (rs :: rss). split; [by constructor|done]. }
  destruct (Join_runes rss Hs) as [-> Hl]. unfold Split.
  rewrite <- (string_app_nil_r (encode _)), runes_encode by done. change (runes "") with (@nil Z). rewrite app_nil_r.
  destruct rss as [|rs rss]; [done|]. destruct (read_line [] (rs :: rss)) as (cur & E & Hc); [done|]. unfold between in E. rewrite E. exact Hc.
Qed.

Lemma Split_Join_witness : Split (Join ["it's"; ""; "a b\c"; bytes [195; 169]]) = ["it's"; ""; "a b\c"; bytes [195; 169]].
Proof.
  apply (Split_Join ["it's"; ""; "a b\c"; bytes [195; 169]]).
  repeat apply List.Forall_cons; try apply List.Forall_nil.
  - exists [105; 116; 39; 115]. split; [by repeat constructor|reflexivity].
  - exists []. split; [constructor|reflexivity].
  - exists [97; 32; 98; 92; 99]. split; [by repeat constructor|reflexivity].
  - exists [233]. split; [by repeat constructor|reflexivity].
Defined.

(** A byte that is no UTF-8 comes back as the replacement rune. *)
Theorem Split_replaces_bytes : Split (Join [bytes [255]]) = [bytes [239; 191; 189]].
Proof. reflexivity. Qed.

End shellquote.
