(* ===== verification/SessionInfo.v ===== *)
(** The typed projection of a session bead (internal/session): Info, the codec table that
    reads it from metadata (info_codec.go), the projection of a bead (info_store.go), and
    the folding of a metadata patch into a projected Info (info_apply_patch.go), with the
    theorem that folding is projecting again: the setters of the codec write apart from
    one another, or agree. *)
From Stdlib Require Import Ascii.
From S2P Require Import Prelude GoStd BeadQuery.

Import beads.

(** time.Parse and Format of RFC 3339. *)
Class TimeText : Type := { parse_time : string -> option Z; format_time : Z -> string; format_nano : Z -> string }.

Module sessioninfo.

(** * Info *)

(** The fields of the struct: those of type string and bool under their names, the others
    as they are.  LastActive and Attached are the overlay of a live runtime. *)
Record Info : Type := mkInfo {
  if_ID : string;
  if_Type : string;
  if_Title : string;
  if_Labels : list string;
  if_CreatedAt : Z;
  if_Closed : bool;
  if_text : gmap string string;
  if_flags : gmap string bool;
  if_WakeAttempts : Z;
  if_AliasHistory : list string;
  if_LastNudgeDeliveredAt : Z;
  if_LastActive : Z;
  if_Attached : bool
}.

Definition field (i : Info) (name : string) : string := default "" (if_text i !! name).
Definition flag (i : Info) (name : string) : bool := default false (if_flags i !! name).

Definition with_text (t : gmap string string) (i : Info) : Info :=
  mkInfo (if_ID i) (if_Type i) (if_Title i) (if_Labels i) (if_CreatedAt i) (if_Closed i) t (if_flags i) (if_WakeAttempts i)
    (if_AliasHistory i) (if_LastNudgeDeliveredAt i) (if_LastActive i) (if_Attached i).
Definition with_flags (f : gmap string bool) (i : Info) : Info :=
  mkInfo (if_ID i) (if_Type i) (if_Title i) (if_Labels i) (if_CreatedAt i) (if_Closed i) (if_text i) f (if_WakeAttempts i)
    (if_AliasHistory i) (if_LastNudgeDeliveredAt i) (if_LastActive i) (if_Attached i).
Definition with_WakeAttempts (n : Z) (i : Info) : Info :=
  mkInfo (if_ID i) (if_Type i) (if_Title i) (if_Labels i) (if_CreatedAt i) (if_Closed i) (if_text i) (if_flags i) n
    (if_AliasHistory i) (if_LastNudgeDeliveredAt i) (if_LastActive i) (if_Attached i).
Definition with_AliasHistory (l : list string) (i : Info) : Info :=
  mkInfo (if_ID i) (if_Type i) (if_Title i) (if_Labels i) (if_CreatedAt i) (if_Closed i) (if_text i) (if_flags i) (if_WakeAttempts i)
    l (if_LastNudgeDeliveredAt i) (if_LastActive i) (if_Attached i).
Definition with_LastNudge (t : Z) (i : Info) : Info :=
  mkInfo (if_ID i) (if_Type i) (if_Title i) (if_Labels i) (if_CreatedAt i) (if_Closed i) (if_text i) (if_flags i) (if_WakeAttempts i)
    (if_AliasHistory i) t (if_LastActive i) (if_Attached i).
Definition put (name v : string) (i : Info) : Info := with_text (<[name := v]> (if_text i)) i.
Definition put_flag (name : string) (v : bool) (i : Info) : Info := with_flags (<[name := v]> (if_flags i)) i.

(** * Values *)

Fixpoint replace_slashes (s : string) : string :=
  match s with
  | EmptyString => EmptyString
  | String c s' => (if Ascii.eqb c "/" then "--" else String c EmptyString) +:+ replace_slashes s'
  end.

Definition sessionNameFor (beadID : string) : string := "s-" +:+ replace_slashes beadID.

Definition normalizeInfoState (state : string) : string :=
  if String.eqb state "awake" then "active" else if String.eqb state "drained" then "asleep" else state.

Definition normalizeTransport (provider transport : string) : string :=
  if negb (String.eqb transport "") then transport else if String.eqb provider "acp" then "acp" else "".

Definition normalizeAliasList (values : list string) (exclude : string) : list string :=
  (fold_left (fun '(seen, out) value =>
      let value := TrimSpace value in
      if String.eqb value "" || String.eqb value (TrimSpace exclude) || bool_decide (value ∈ (seen : gset string)) then (seen, out)
      else ({[value]} ∪ seen, out ++ [value])) values (∅, [])).2.

Definition is_true (v : string) : bool := String.eqb (TrimSpace v) "true".

(** * The codec *)

(** What the setter of a key does: keep the raw value, read a flag, or both, or one of the
    setters that derive more. *)
Inductive Setter : Type :=
| Verbatim (name : string)
| Flag (name : string)
| FlagAndRaw (name raw : string)
| SetSessionName | SetState | SetProvider | SetTransport | SetAliasHistory | SetWakeAttempts | SetLastNudge.
#[export] Instance Setter_eq_dec : EqDecision Setter.
Proof. solve_decision. Defined.

Definition set `{TimeText} (s : Setter) (v : string) (i : Info) : Info :=
  match s with
  | Verbatim name => put name v i
  | Flag name => put_flag name (is_true v) i
  | FlagAndRaw name raw => put raw v (put_flag name (is_true v) i)
  | SetSessionName =>
      put "SessionName" (if String.eqb v "" then sessionNameFor (if_ID i) else v) (put "SessionNameMetadata" v i)
  | SetState => put "State" (if if_Closed i then "" else normalizeInfoState v) (put "MetadataState" v i)
  | SetProvider => put "Transport" (normalizeTransport v (field i "TransportMetadata")) (put "Provider" v i)
  | SetTransport => put "Transport" (normalizeTransport (field i "Provider") v) (put "TransportMetadata" v i)
  | SetAliasHistory => with_AliasHistory (normalizeAliasList (split_on "," v) "") i
  | SetWakeAttempts => with_WakeAttempts (default 0 (Atoi v)) (put "WakeAttemptsMetadata" v i)
  | SetLastNudge =>
      with_LastNudge (if String.eqb (TrimSpace v) "" then 0 else default 0 (parse_time (TrimSpace v))) i
  end.

Definition infoKeyCodec : list (string * Setter) :=
  [ ("template", Verbatim "Template"); ("alias", Verbatim "Alias"); ("agent_name", Verbatim "AgentName");
    ("command", Verbatim "Command"); ("work_dir", Verbatim "WorkDir"); ("session_key", Verbatim "SessionKey");
    ("resume_flag", Verbatim "ResumeFlag"); ("resume_style", Verbatim "ResumeStyle");
    ("resume_command", Verbatim "ResumeCommand"); ("continuation_epoch", Verbatim "ContinuationEpoch");
    ("sleep_reason", Verbatim "SleepReason"); ("session_name", SetSessionName); ("state", SetState);
    ("provider", SetProvider); ("transport", SetTransport);
    ("configured_named_identity", Verbatim "ConfiguredNamedIdentity");
    ("configured_named_session", Flag "ConfiguredNamedSession"); ("configured_named_mode", Verbatim "ConfiguredNamedMode");
    ("common_name", Verbatim "CommonName"); ("pool_slot", Verbatim "PoolSlot"); ("pool_managed", Flag "PoolManaged");
    ("session_origin", Verbatim "SessionOrigin"); ("dependency_only", FlagAndRaw "DependencyOnly" "DependencyOnlyMetadata");
    ("manual_session", FlagAndRaw "ManualSession" "ManualSessionMetadata");
    ("pool_alias_conflict", Verbatim "PoolAliasConflict"); ("pool_alias_conflict_count", Verbatim "PoolAliasConflictCount");
    ("pool_alias_conflict_at", Verbatim "PoolAliasConflictAt");
    ("canonical_instance_name", Verbatim "CanonicalInstanceNameMetadata");
    ("canonical_pool_slot", Verbatim "CanonicalPoolSlotMetadata"); ("primed_at", Verbatim "PrimedAtMetadata");
    ("priming_attempted_at", Verbatim "PrimingAttemptedAtMetadata"); ("prompt_hash", Verbatim "PromptHashMetadata");
    ("mcp_identity", Verbatim "MCPIdentity"); ("mcp_servers_snapshot", Verbatim "MCPServersSnapshot");
    ("provider_terminal_error", Verbatim "ProviderTerminalError"); ("session_health", Verbatim "HealthState");
    ("session_health_reason", Verbatim "HealthReason"); ("session_drainable", Flag "Drainable");
    ("gc.trigger_bead_id", Verbatim "TriggerBeadID"); ("gc.trigger_bead_store_ref", Verbatim "TriggerBeadStoreRef");
    ("gc.brain_parent_sid", Verbatim "BrainParentSID"); ("gc.pack", Verbatim "Pack");
    ("gc.pack_workspace", Verbatim "PackWorkspace"); ("gc.work_dir", Verbatim "WorkDirCanonical");
    ("worker_dir", Verbatim "WorkerDir");
    ("pending_create_claim", FlagAndRaw "PendingCreateClaim" "PendingCreateClaimMetadata");
    ("pending_create_started_at", Verbatim "PendingCreateStartedAt"); ("quarantined_until", Verbatim "QuarantinedUntil");
    ("alias_history", SetAliasHistory); ("continuity_eligible", Verbatim "ContinuityEligible");
    ("last_woke_at", Verbatim "LastWokeAt"); ("awake_started_at", Verbatim "AwakeStartedAt");
    ("usage_compute_emitted_at", Verbatim "UsageComputeEmittedAt"); ("state_reason", Verbatim "StateReason");
    ("creation_complete_at", Verbatim "CreationCompleteAt");
    ("continuation_reset_pending", Verbatim "ContinuationResetPending");
    ("session_circuit_state", Verbatim "SessionCircuitState"); ("reset_committed_at", Verbatim "ResetCommittedAt");
    ("generation", Verbatim "Generation"); ("started_config_hash", Verbatim "StartedConfigHash");
    ("pin_awake", Verbatim "PinAwake"); ("held_until", Verbatim "HeldUntil"); ("wait_hold", Verbatim "WaitHold");
    ("churn_count", Verbatim "ChurnCount"); ("wake_mode", Verbatim "WakeMode"); ("sleep_intent", Verbatim "SleepIntent");
    ("instance_token", Verbatim "InstanceToken"); ("detached_at", Verbatim "DetachedAt");
    ("currently_processing_bead_id", Verbatim "CurrentlyProcessingBeadID");
    ("core_hash_breakdown", Verbatim "CoreHashBreakdown"); ("started_provision_hash", Verbatim "StartedProvisionHash");
    ("started_launch_hash", Verbatim "StartedLaunchHash"); ("started_live_hash", Verbatim "StartedLiveHash");
    ("live_hash", Verbatim "LiveHash"); ("startup_dialog_verified", Verbatim "StartupDialogVerified");
    ("config_drift_deferred_at", Verbatim "ConfigDriftDeferredAt");
    ("config_drift_deferred_key", Verbatim "ConfigDriftDeferredKey");
    ("attached_config_drift_deferred_at", Verbatim "AttachedConfigDriftDeferredAt");
    ("attached_config_drift_deferred_key", Verbatim "AttachedConfigDriftDeferredKey");
    ("stranded_event_emitted_at", Verbatim "StrandedEventEmittedAt");
    ("unknown_state_first_seen", Verbatim "UnknownStateFirstSeen"); ("unknown_state_value", Verbatim "UnknownStateValue");
    ("unknown_state_escalated_at", Verbatim "UnknownStateEscalatedAt");
    ("session_name_explicit", Verbatim "SessionNameExplicit"); ("wake_request", Verbatim "WakeRequest");
    ("restart_requested", Verbatim "RestartRequested"); ("session_id_flag", Verbatim "SessionIDFlag");
    ("template_overrides", Verbatim "TemplateOverrides"); ("provider_kind", Verbatim "ProviderKind");
    ("builtin_ancestor", Verbatim "BuiltinAncestor"); ("sleep_policy_fingerprint", Verbatim "SleepPolicyFingerprint");
    ("requested_sleep_after_idle", Verbatim "RequestedSleepAfterIdle");
    ("effective_sleep_after_idle", Verbatim "EffectiveSleepAfterIdle");
    ("sleep_policy_source", Verbatim "SleepPolicySource"); ("sleep_capability", Verbatim "SleepCapability");
    ("sleep_policy_adjustment_reason", Verbatim "SleepPolicyAdjustmentReason");
    ("config_wake_suppressed", Verbatim "ConfigWakeSuppressedMetadata"); ("wake_attempts", SetWakeAttempts);
    ("last_nudge_delivered_at", SetLastNudge) ].

Definition zero_info (b : Bead) : Info :=
  mkInfo (bd_ID b) (bd_Type b) (bd_Title b) (bd_Labels b) (bd_CreatedAt b) (String.eqb (bd_Status b) "closed") ∅ ∅ 0 [] 0 0 false.

Definition infoFromPersistedBead `{TimeText} (b : Bead) : Info :=
  fold_left (fun i '(key, s) => set s (mget (bd_Metadata b) key) i) infoKeyCodec (zero_info b).

(** * Patches *)

(** MetadataPatch.Apply *)
Definition patch_Apply (p meta : gmap string string) : gmap string string := p ∪ meta.

Definition infoKeyIndex (key : string) : option Setter := snd <$> List.find (fun x => String.eqb x.1 key) infoKeyCodec.

(** Info.ApplyPatch, the entries of the patch in the order they are iterated. *)
Definition info_ApplyPatch `{TimeText} (entries : list (string * string)) (i : Info) : Info :=
  fold_left (fun i '(key, v) => match infoKeyIndex key with Some s => set s v i | None => i end) entries i.

Definition MarkClosed (i : Info) : Info :=
  put "State" "" (mkInfo (if_ID i) (if_Type i) (if_Title i) (if_Labels i) (if_CreatedAt i) true (if_text i) (if_flags i) (if_WakeAttempts i)
    (if_AliasHistory i) (if_LastNudgeDeliveredAt i) (if_LastActive i) (if_Attached i)).

(** * Canonical identity *)

Record CanonicalIdentity : Type := mkCanonical { ci_QualifiedInstanceName : string; ci_PoolSlot : Z; ci_Present : bool }.

Definition parseCanonicalSlot (raw : string) : Z :=
  let v := TrimSpace raw in
  if String.eqb v "" then 0 else match Atoi v with Some n => if 0 <? n then n else 0 | None => 0 end.

Definition canonicalIdentityFrom (rawName rawSlot : string) : CanonicalIdentity :=
  let name := TrimSpace rawName in
  if String.eqb name "" then mkCanonical "" 0 false else mkCanonical name (parseCanonicalSlot rawSlot) true.

Definition CanonicalIdentityFromMetadata (meta : gmap string string) : CanonicalIdentity :=
  canonicalIdentityFrom (mget meta "canonical_instance_name") (mget meta "canonical_pool_slot").

(** Info.CanonicalIdentity *)
Definition info_CanonicalIdentity (i : Info) : CanonicalIdentity :=
  canonicalIdentityFrom (field i "CanonicalInstanceNameMetadata") (field i "CanonicalPoolSlotMetadata").

(** * Aliases *)

Definition AliasHistory (meta : gmap string string) : list string := normalizeAliasList (split_on "," (mget meta "alias_history")) "".

Definition updated_alias (alias : string) (history : list string) (nextAlias : string) : gmap string string :=
  let currentAlias := TrimSpace alias in
  let history := if negb (String.eqb currentAlias "") && negb (String.eqb currentAlias nextAlias) then currentAlias :: history else history in
  <["alias" := TrimSpace nextAlias]> {["alias_history" := join_with "," (normalizeAliasList history nextAlias)]}.

Definition UpdatedAliasMetadata (meta : gmap string string) (nextAlias : string) : gmap string string :=
  updated_alias (mget meta "alias") (AliasHistory meta) nextAlias.

Definition UpdatedAliasMetadataFromInfo (i : Info) (nextAlias : string) : gmap string string :=
  updated_alias (field i "Alias") (if_AliasHistory i) nextAlias.

End sessioninfo.

Import beads sessioninfo.

Section codec.
Context `{TimeText}.

(** * What a setter writes *)

Definition texts (s : Setter) (v : string) (i : Info) : gmap string string :=
  match s with
  | Verbatim name => {[name := v]}
  | FlagAndRaw _ raw => {[raw := v]}
  | SetSessionName => <["SessionName" := if String.eqb v "" then sessionNameFor (if_ID i) else v]> {["SessionNameMetadata" := v]}
  | SetState => <["State" := if if_Closed i then "" else normalizeInfoState v]> {["MetadataState" := v]}
  | SetProvider => <["Transport" := normalizeTransport v (field i "TransportMetadata")]> {["Provider" := v]}
  | SetTransport => <["Transport" := normalizeTransport (field i "Provider") v]> {["TransportMetadata" := v]}
  | SetWakeAttempts => {["WakeAttemptsMetadata" := v]}
  | _ => ∅
  end.

Definition flags (s : Setter) (v : string) : gmap string bool :=
  match s with Flag name | FlagAndRaw name _ => {[name := is_true v]} | _ => ∅ end.

Lemma set_parts s v i :
  set s v i = mkInfo (if_ID i) (if_Type i) (if_Title i) (if_Labels i) (if_CreatedAt i) (if_Closed i) (texts s v i ∪ if_text i)
    (flags s v ∪ if_flags i)
    (if_WakeAttempts (set s v i)) (if_AliasHistory (set s v i)) (if_LastNudgeDeliveredAt (set s v i)) (if_LastActive i) (if_Attached i).
Proof.
  destruct i, s; unfold set, put, put_flag, with_text, with_flags, with_AliasHistory, with_WakeAttempts, with_LastNudge, texts, flags, field; cbn;
    f_equal; rewrite ?map_empty_union, ?insert_union_l, ?insert_union_singleton_l, ?map_union_assoc; try done; by rewrite <- ?insert_union_singleton_l.
Qed.

(** The text fields and flags it writes, a number for each other field, and what it reads. *)
Definition text_names (s : Setter) : list string :=
  match s with
  | Verbatim name => [name]
  | FlagAndRaw _ raw => [raw]
  | SetSessionName => ["SessionName"; "SessionNameMetadata"]
  | SetState => ["State"; "MetadataState"]
  | SetProvider => ["Transport"; "Provider"]
  | SetTransport => ["Transport"; "TransportMetadata"]
  | SetWakeAttempts => ["WakeAttemptsMetadata"]
  | _ => []
  end.
Definition flag_names (s : Setter) : list string := match s with Flag name | FlagAndRaw name _ => [name] | _ => [] end.
Definition other (s : Setter) : nat := match s with SetAliasHistory => 1 | SetWakeAttempts => 2 | SetLastNudge => 3 | _ => 0 end.
Definition reads (s : Setter) : list string :=
  match s with SetProvider => ["TransportMetadata"] | SetTransport => ["Provider"] | _ => [] end.

Definition disjoint_names (a b : list string) : bool := forallb (fun x => negb (existsb (String.eqb x) b)) a.

Definition apart (s1 s2 : Setter) : bool :=
  disjoint_names (text_names s1) (text_names s2) && disjoint_names (flag_names s1) (flag_names s2)
  && ((other s1 =? 0)%nat || (other s2 =? 0)%nat || negb (other s1 =? other s2)%nat)
  && disjoint_names (reads s1) (text_names s2) && disjoint_names (reads s2) (text_names s1).

Lemma disjoint_names_spec a b : disjoint_names a b = true <-> forall x, x ∈ a -> x ∈ b -> False.
Proof.
  unfold disjoint_names. rewrite forallb_forall. split.
  - intros Hd x Ha Hb. specialize (Hd x (proj1 (list_elem_of_In _ _) Ha)). apply negb_true_iff in Hd.
    rewrite existsb_false_Forall in Hd. rewrite Forall_forall in Hd. specialize (Hd x Hb). by rewrite String.eqb_refl in Hd.
  - intros Hd x Ha%list_elem_of_In. apply negb_true_iff, existsb_false_Forall, Forall_forall. intros y Hy.
    apply String.eqb_neq. intros <-. by apply (Hd x).
Qed.

Lemma texts_dom s v i x : is_Some (texts s v i !! x) -> x ∈ text_names s.
Proof.
  destruct s; cbn; rewrite ?lookup_insert_is_Some', ?lookup_singleton_is_Some, ?lookup_empty; intros Hx;
    repeat match goal with Hx : _ \/ _ |- _ => destruct Hx as [Hx|Hx] end; try (subst; set_solver); by destruct Hx.
Qed.

Lemma flags_dom s v x : is_Some (flags s v !! x) -> x ∈ flag_names s.
Proof. destruct s; cbn; rewrite ?lookup_singleton_is_Some, ?lookup_empty; intros Hx; try (subst; set_solver); by destruct Hx. Qed.

Lemma texts_disjoint s1 s2 v1 v2 i1 i2 :
  disjoint_names (text_names s1) (text_names s2) = true -> texts s1 v1 i1 ##ₘ texts s2 v2 i2.
Proof.
  rewrite disjoint_names_spec. intros Hd. apply map_disjoint_spec. intros x a b Ha Hb.
  apply (Hd x); [apply (texts_dom s1 v1 i1)|apply (texts_dom s2 v2 i2)]; by eexists.
Qed.

Lemma flags_disjoint s1 s2 v1 v2 : disjoint_names (flag_names s1) (flag_names s2) = true -> flags s1 v1 ##ₘ flags s2 v2.
Proof.
  rewrite disjoint_names_spec. intros Hd. apply map_disjoint_spec. intros x a b Ha Hb.
  apply (Hd x); [apply (flags_dom s1 v1)|apply (flags_dom s2 v2)]; by eexists.
Qed.

Lemma field_set s v i name : (name ∉ text_names s) -> field (set s v i) name = field i name.
Proof.
  intros Hn. rewrite set_parts. unfold field. cbn. rewrite lookup_union_r; [done|].
  destruct (texts s v i !! name) eqn:E; [|done]. exfalso. apply Hn, (texts_dom s v i). by eexists.
Qed.

Lemma texts_set s s' v v' i : disjoint_names (reads s) (text_names s') = true -> texts s v (set s' v' i) = texts s v i.
Proof.
  rewrite disjoint_names_spec. intros Hd.
  assert (if_ID (set s' v' i) = if_ID i /\ if_Closed (set s' v' i) = if_Closed i) as [E1 E2] by (by rewrite set_parts).
  destruct s; cbn; rewrite ?E1, ?E2; try done.
  - rewrite field_set; [done|]. intros Hx. apply (Hd "TransportMetadata"); [set_solver|done].
  - rewrite field_set; [done|]. intros Hx. apply (Hd "Provider"); [set_solver|done].
Qed.

Lemma others_commute s1 s2 v1 v2 i :
  ((other s1 =? 0)%nat || (other s2 =? 0)%nat || negb (other s1 =? other s2)%nat) = true ->
  if_WakeAttempts (set s1 v1 (set s2 v2 i)) = if_WakeAttempts (set s2 v2 (set s1 v1 i))
  /\ if_AliasHistory (set s1 v1 (set s2 v2 i)) = if_AliasHistory (set s2 v2 (set s1 v1 i))
  /\ if_LastNudgeDeliveredAt (set s1 v1 (set s2 v2 i)) = if_LastNudgeDeliveredAt (set s2 v2 (set s1 v1 i)).
Proof. destruct s1, s2; done. Qed.

Lemma set_commute s1 s2 v1 v2 i : apart s1 s2 = true -> set s1 v1 (set s2 v2 i) = set s2 v2 (set s1 v1 i).
Proof.
  unfold apart. rewrite !andb_true_iff. intros ((((Ht & Hf) & Ho) & Hr1) & Hr2).
  destruct (others_commute s1 s2 v1 v2 i Ho) as (E1 & E2 & E3).
  rewrite (set_parts s1 v1 (set s2 v2 i)), (set_parts s2 v2 (set s1 v1 i)), E1, E2, E3.
  rewrite !texts_set by done. rewrite (set_parts s1 v1 i), (set_parts s2 v2 i). cbn [if_ID if_Type if_Title if_Labels if_CreatedAt if_Closed if_text if_flags if_LastActive if_Attached].
  f_equal.
  - rewrite !map_union_assoc. f_equal. apply map_union_comm. by apply texts_disjoint.
  - rewrite !map_union_assoc. f_equal. apply map_union_comm. by apply flags_disjoint.
Qed.

Lemma provider_transport v1 v2 i :
  set SetProvider v1 (set SetTransport v2 i) = set SetTransport v2 (set SetProvider v1 i).
Proof.
  unfold set, put, with_text, field. destruct i. cbn. f_equal. apply map_eq. intros x.
  rewrite !lookup_insert. repeat (case_decide; subst; try done). 
Qed.

Lemma set_overwrite s v v' i : set s v (set s v' i) = set s v i.
Proof.
  destruct i, s; unfold set, put, put_flag, with_text, with_flags, with_AliasHistory, with_WakeAttempts, with_LastNudge, field; cbn; f_equal;
    apply map_eq; intros x; rewrite !lookup_insert; repeat (case_decide; subst; try done).
Qed.

(** * Setters that agree *)

Definition agree (s1 s2 : Setter) : bool :=
  apart s1 s2 || match s1, s2 with SetProvider, SetTransport | SetTransport, SetProvider => true | _, _ => false end.

Lemma agree_commute s1 s2 v1 v2 i : agree s1 s2 = true -> set s1 v1 (set s2 v2 i) = set s2 v2 (set s1 v1 i).
Proof.
  unfold agree. rewrite orb_true_iff. intros [Ha|Ha]; [by apply set_commute|].
  destruct s1, s2; try done; [apply provider_transport|symmetry; apply provider_transport].
Qed.

Fixpoint all_agree (l : list (string * Setter)) : bool :=
  match l with
  | [] => true
  | (k, s) :: l' => forallb (fun x => agree s x.2 && negb (String.eqb k x.1)) l' && all_agree l'
  end.

Lemma codec_agrees : all_agree infoKeyCodec = true.
Proof. vm_compute. reflexivity. Qed.

Definition project (l : list (string * Setter)) (m : gmap string string) (i : Info) : Info :=
  fold_left (fun i '(key, s) => set s (mget m key) i) l i.

Lemma project_cons k s l m i : project ((k, s) :: l) m i = project l m (set s (mget m k) i).
Proof. done. Qed.

Lemma set_project l m s v i : forallb (fun x => agree s x.2) l = true -> set s v (project l m i) = project l m (set s v i).
Proof.
  revert i. induction l as [|[k s'] l IH]; intros i Hl; [done|]. cbn [forallb snd] in Hl. apply andb_prop in Hl as [Ha Hl].
  rewrite !project_cons, IH by done. by rewrite agree_commute.
Qed.

Lemma project_other l m k v i : forallb (fun x => negb (String.eqb k x.1)) l = true -> project l (<[k := v]> m) i = project l m i.
Proof.
  revert i. induction l as [|[k' s] l IH]; intros i Hl; [done|]. cbn [forallb fst] in Hl. apply andb_prop in Hl as [Ha Hl].
  rewrite !project_cons, IH by done. rewrite mget_insert_ne; [done|]. intros ->. by rewrite String.eqb_refl in Ha.
Qed.

Lemma forallb_split {A} (f g : A -> bool) l : forallb (fun x => f x && g x) l = forallb f l && forallb g l.
Proof. induction l as [|x l IH]; [done|]. cbn. rewrite IH. destruct (f x), (g x), (forallb f l); done. Qed.

Lemma project_key l m k s v i : all_agree l = true -> (k, s) ∈ l -> project l (<[k := v]> m) i = set s v (project l m i).
Proof.
  revert i. induction l as [|[k' s'] l IH]; intros i Hl Hin; [set_solver|]. cbn [all_agree] in Hl. rewrite forallb_split in Hl.
  apply andb_prop in Hl as [[Ha Hk]%andb_prop Hl]. rewrite !project_cons. apply elem_of_cons in Hin as [[= -> ->]|Hin].
  - rewrite mget_insert, project_other, set_project by done. by rewrite set_overwrite.
  - rewrite IH by done. rewrite mget_insert_ne; [done|]. intros ->. rewrite forallb_forall in Hk.
    specialize (Hk _ (proj1 (list_elem_of_In _ _) Hin)). cbn in Hk. by rewrite String.eqb_refl in Hk.
Qed.

Lemma infoKeyIndex_Some k s : infoKeyIndex k = Some s -> (k, s) ∈ infoKeyCodec.
Proof.
  unfold infoKeyIndex. destruct (List.find _ _) as [[k' s']|] eqn:E; [|done]. cbn. intros [= ->].
  apply find_some in E as [Hin He%String.eqb_eq]. cbn in He. subst. by apply list_elem_of_In.
Qed.

Lemma infoKeyIndex_None k : infoKeyIndex k = None -> forallb (fun x => negb (String.eqb k x.1)) infoKeyCodec = true.
Proof.
  unfold infoKeyIndex. destruct (List.find _ _) as [[k' s']|] eqn:E; [done|]. intros _. apply forallb_forall. intros x Hx.
  pose proof (find_none _ _ E x Hx) as Hn. cbn in Hn. by rewrite String.eqb_sym, Hn.
Qed.

Lemma project_insert m k v i :
  project infoKeyCodec (<[k := v]> m) i = match infoKeyIndex k with Some s => set s v (project infoKeyCodec m i) | None => project infoKeyCodec m i end.
Proof.
  destruct (infoKeyIndex k) eqn:E.
  - by apply project_key; [apply codec_agrees|apply infoKeyIndex_Some].
  - by apply project_other, infoKeyIndex_None.
Qed.

Lemma fold_inserts (entries : list (string * string)) (m : gmap string string) :
  NoDup entries.*1 -> fold_left (fun m '(k, v) => <[k := v]> m) entries m = list_to_map entries ∪ m.
Proof.
  revert m. induction entries as [|[k v] l IH]; intros m Hnd; [cbn; by rewrite map_empty_union|]. cbn in Hnd. apply NoDup_cons in Hnd as [Hk Hnd].
  cbn. rewrite IH by done. rewrite <- insert_union_l, insert_union_r; [done|]. by apply not_elem_of_list_to_map_1.
Qed.

Lemma ApplyPatch_projects entries m i :
  info_ApplyPatch entries (project infoKeyCodec m i) = project infoKeyCodec (fold_left (fun m '(k, v) => <[k := v]> m) entries m) i.
Proof.
  revert m. induction entries as [|[k v] l IH]; intros m; [done|]. unfold info_ApplyPatch in *. cbn [fold_left].
  rewrite <- IH, project_insert. done.
Qed.

(** ** Closing *)

Definition closed_info (i : Info) : Info :=
  mkInfo (if_ID i) (if_Type i) (if_Title i) (if_Labels i) (if_CreatedAt i) true (if_text i) (if_flags i) (if_WakeAttempts i)
    (if_AliasHistory i) (if_LastNudgeDeliveredAt i) (if_LastActive i) (if_Attached i).

Definition state_apart (s : Setter) : bool :=
  match s with SetState => true | _ => disjoint_names (text_names s) ["State"] end.

Lemma codec_state_apart : forallb (fun x => state_apart x.2) infoKeyCodec = true.
Proof. vm_compute. reflexivity. Qed.

Lemma MarkClosed_set s v i : state_apart s = true -> MarkClosed (set s v i) = set s v (MarkClosed i).
Proof.
  intros Ha. assert (s = SetState \/ s <> SetState /\ ("State" ∉ text_names s)) as [->|[Hne Hn]].
  { destruct s; first [by left|right; (split; [done|]); intros Hx; unfold state_apart in Ha;
      eapply (proj1 (disjoint_names_spec _ _) Ha); [exact Hx|set_solver]]. }
  - unfold MarkClosed, set, put, with_text. destruct i. cbn. f_equal. apply map_eq. intros x. rewrite !lookup_insert. repeat (case_decide; subst; try done).
  - destruct i, s; try done; unfold MarkClosed, set, put, put_flag, with_text, with_flags, with_AliasHistory, with_WakeAttempts, with_LastNudge, field;
      cbn in *; f_equal; rewrite ?lookup_insert_ne by set_solver; try done; apply map_eq; intros x; rewrite !lookup_insert;
      repeat (case_decide; subst; try done); set_solver.
Qed.

Lemma MarkClosed_project l m i : forallb (fun x => state_apart x.2) l = true -> MarkClosed (project l m i) = project l m (MarkClosed i).
Proof.
  revert i. induction l as [|[k s] l IH]; intros i Hl; [done|]. cbn [forallb snd] in Hl. apply andb_prop in Hl as [Ha Hl].
  by rewrite !project_cons, IH, MarkClosed_set.
Qed.

(** The state is written again, so what it was does not matter. *)
Lemma put_state_set s v i w : s <> SetState -> state_apart s = true -> set s v (put "State" w i) = put "State" w (set s v i).
Proof.
  intros Hne Ha. assert (agree s (Verbatim "State") = true) as Hag.
  { destruct s; try done; unfold agree, apart, state_apart in *; cbn [text_names flag_names other reads] in *; rewrite Ha; done. }
  exact (agree_commute s (Verbatim "State") v w i Hag).
Qed.

Lemma project_forgets_state l m i w :
  forallb (fun x => state_apart x.2) l = true -> SetState ∈ l.*2 -> project l m (put "State" w i) = project l m i.
Proof.
  revert i. induction l as [|[k s] l IH]; intros i Hl Hin; [set_solver|]. cbn [forallb snd] in Hl. apply andb_prop in Hl as [Ha Hl].
  rewrite !project_cons. destruct (decide (s = SetState)) as [->|Hne].
  - f_equal. unfold set, put, with_text. destruct i. cbn. f_equal. apply map_eq. intros x. rewrite !lookup_insert. repeat (case_decide; subst; try done).
  - rewrite put_state_set by done. apply IH; [done|]. cbn in Hin. apply elem_of_cons in Hin as [?|?]; [congruence|done].
Qed.

(** ** Reading the projection *)

(** Whichever key is asked for may as well have been set last. *)
Lemma project_last l m i k s : all_agree l = true -> (k, s) ∈ l -> exists j, project l m i = set s (mget m k) j.
Proof.
  intros Hl Hin. revert i. induction l as [|[k' s'] l IH]; intros i; [set_solver|]. cbn [all_agree] in Hl. rewrite forallb_split in Hl.
  apply andb_prop in Hl as [[Ha Hk]%andb_prop Hl]. apply elem_of_cons in Hin as [[= <- <-]|Hin]; [|by apply IH].
  rewrite project_cons. exists (project l m i). by rewrite set_project.
Qed.

Lemma info_field b k name : (k, Verbatim name) ∈ infoKeyCodec -> field (infoFromPersistedBead b) name = mget (bd_Metadata b) k.
Proof.
  intros Hin. destruct (project_last infoKeyCodec (bd_Metadata b) (zero_info b) k _ codec_agrees Hin) as [j E].
  unfold project in E. unfold infoFromPersistedBead. rewrite E. unfold field. cbn. by rewrite lookup_insert_eq.
Qed.

Lemma info_flag b k name raw :
  (k, FlagAndRaw name raw) ∈ infoKeyCodec -> flag (infoFromPersistedBead b) name = is_true (mget (bd_Metadata b) k).
Proof.
  intros Hin. destruct (project_last infoKeyCodec (bd_Metadata b) (zero_info b) k _ codec_agrees Hin) as [j E].
  unfold project in E. unfold infoFromPersistedBead. rewrite E. unfold flag. cbn. by rewrite lookup_insert_eq.
Qed.

Lemma info_closed b : if_Closed (infoFromPersistedBead b) = String.eqb (bd_Status b) "closed".
Proof.
  change (String.eqb (bd_Status b) "closed") with (if_Closed (zero_info b)). unfold infoFromPersistedBead. generalize (zero_info b).
  induction infoKeyCodec as [|[k s] l IH]; intros i; [done|]. cbn [fold_left]. rewrite IH. by rewrite set_parts.
Qed.

Lemma fold_coherent b p entries :
  entries ≡ₚ map_to_list p ->
  info_ApplyPatch entries (infoFromPersistedBead b) = infoFromPersistedBead (set_Metadata (patch_Apply p (bd_Metadata b)) b).
Proof.
  intros Hp. unfold infoFromPersistedBead.
  change (fold_left (fun i '(key, s) => set s (mget ?m key) i) infoKeyCodec ?i) with (project infoKeyCodec m i).
  rewrite ApplyPatch_projects, fold_inserts by (rewrite Hp; apply NoDup_fst_map_to_list).
  assert (list_to_map entries = p) as ->; [|done].
  rewrite <- (list_to_map_to_list p). apply list_to_map_proper; [rewrite Hp; apply NoDup_fst_map_to_list|done].
Qed.

Lemma MarkClosed_coherent b : MarkClosed (infoFromPersistedBead b) = infoFromPersistedBead (set_Status "closed" b).
Proof.
  unfold infoFromPersistedBead.
  change (fold_left (fun i '(key, s) => set s (mget ?m key) i) infoKeyCodec ?i) with (project infoKeyCodec m i).
  rewrite MarkClosed_project by apply codec_state_apart.
  change (MarkClosed (zero_info b)) with (put "State" "" (zero_info (set_Status "closed" b))).
  apply project_forgets_state; [apply codec_state_apart|]. by vm_compute; repeat (left || right).
Qed.

(** (C24) A session's snapshot never drifts from its bead.  Folding a metadata patch into the
    Info projected from a bead gives the Info projected from the patched bead, every field
    of it, whatever order the patch is iterated in; and marking an Info closed gives the
    Info of the closed bead. *)
Theorem snapshot_coherent b p entries :
  entries ≡ₚ map_to_list p ->
  info_ApplyPatch entries (infoFromPersistedBead b) = infoFromPersistedBead (set_Metadata (patch_Apply p (bd_Metadata b)) b)
  /\ MarkClosed (infoFromPersistedBead b) = infoFromPersistedBead (set_Status "closed" b).
Proof. intros Hp. split; [by apply fold_coherent|apply MarkClosed_coherent]. Qed.

End codec.

(** * A notation for times *)

(** Seconds and nanoseconds in decimal. *)
Definition digit_time : TimeText := {|
  parse_time s := match Atoi s with Some n => Some (1000000000 * n) | None => None end;
  format_time t := Itoa (Z.max 0 (t / 1000000000) mod 2 ^ 63);
  format_nano t := Itoa t
|}.

Definition example_bead : Bead :=
  mkBead "gc-1" "a session" "open" "session" None 1000000000 1000000000 "" "" "" "" [] "" []
    (<["state" := "awake"]> {["session_name" := "s"]}) [] false false None None 1 0.

Definition example_patch : gmap string string := <["provider" := "acp"]> (<["state" := "drained"]> {["unknown" := "kept"]}).

Lemma snapshot_coherent_witness :
  @info_ApplyPatch digit_time (rev (map_to_list example_patch)) (@infoFromPersistedBead digit_time example_bead)
  = @infoFromPersistedBead digit_time (set_Metadata (patch_Apply example_patch (bd_Metadata example_bead)) example_bead)
  /\ field (@info_ApplyPatch digit_time (rev (map_to_list example_patch)) (@infoFromPersistedBead digit_time example_bead)) "Transport" = "acp"
  /\ field (@info_ApplyPatch digit_time (rev (map_to_list example_patch)) (@infoFromPersistedBead digit_time example_bead)) "State" = "asleep".
Proof.
  split; [|split; vm_compute; reflexivity].
  exact (proj1 (@snapshot_coherent digit_time example_bead example_patch (rev (map_to_list example_patch))
    (Permutation_sym (Permutation_rev (map_to_list example_patch))))).
Defined.
