(* ===== verification/SessionLifecycle.v ===== *)
(** The lifecycle of a session read off its metadata (internal/session/lifecycle_projection.go
    and sleep_reason.go): what state a bead stands for, whether the identity is owned,
    what blocks it and what wakes it, and what an observed runtime makes of it. *)
From S2P Require Import Prelude GoStd BeadQuery SessionMachine SessionInfo.
Import beads session sessioninfo.

Module lifecycle.

Definition StateFailedCreate : string := "failed-create".
Definition StateDrained : string := "drained".
Definition StateAwake : string := "awake".

(** * Sleep reasons *)

Definition SleepReasonIdle : string := "idle".
Definition SleepReasonIdleTimeout : string := "idle-timeout".
Definition SleepReasonNoWakeReason : string := "no-wake-reason".
Definition SleepReasonConfigDrift : string := "config-drift".
Definition SleepReasonDrained : string := "drained".
Definition SleepReasonCityStop : string := "city-stop".
Definition SleepReasonUserHold : string := "user-hold".
Definition SleepReasonWaitHold : string := "wait-hold".
Definition SleepReasonRateLimit : string := "rate_limit".
Definition SleepReasonFailedCreate : string := "failed-create".
Definition SleepReasonProviderTerminalError : string := "provider-terminal-error".
Definition SleepReasonRuntimeMissing : string := "runtime-missing".
Definition SleepReasonQuarantine : string := "quarantine".
Definition SleepReasonContextChurn : string := "context-churn".
Definition SleepReasonMaxSessionAge : string := "max-session-age".
Definition SleepReasonAssignedWorkExhausted : string := "assigned-work-exhausted".

Definition one_of (s : string) (l : list string) : bool := existsb (String.eqb s) l.

Definition IsDeliberateSleepReason (reason : string) : bool :=
  one_of (TrimSpace reason)
    [SleepReasonIdle; SleepReasonIdleTimeout; SleepReasonNoWakeReason; SleepReasonConfigDrift; SleepReasonDrained; SleepReasonCityStop;
     SleepReasonUserHold; SleepReasonWaitHold; SleepReasonRateLimit; SleepReasonFailedCreate; SleepReasonProviderTerminalError].

(** * Vocabulary *)

Definition BaseStateNone : string := "".
Definition BaseStateCreating : string := "creating".
Definition BaseStateStartPending : string := "start-pending".
Definition BaseStateActive : string := "active".
Definition BaseStateAsleep : string := "asleep".
Definition BaseStateSuspended : string := "suspended".
Definition BaseStateFailedCreate : string := "failed-create".
Definition BaseStateDraining : string := "draining".
Definition BaseStateDrained : string := "drained".
Definition BaseStateArchived : string := "archived".
Definition BaseStateOrphaned : string := "orphaned".
Definition BaseStateClosed : string := "closed".
Definition BaseStateClosing : string := "closing".
Definition BaseStateQuarantined : string := "quarantined".
Definition BaseStateStopped : string := "stopped".

Inductive DesiredState : Type := DesiredStateUndesired | DesiredStateAsleep | DesiredStateRunning | DesiredStateBlocked.

Inductive RuntimeProjection : Type :=
| RuntimeProjectionUnknown | RuntimeProjectionAlive | RuntimeProjectionMissing | RuntimeProjectionFreshCreating
| RuntimeProjectionStaleCreating | RuntimeProjectionStartRequested.

Inductive IdentityProjection : Type :=
| IdentityNone | IdentityConcrete | IdentityCanonical | IdentityHistorical | IdentityReservedUnmaterialized | IdentityConflict.

Inductive LifecycleBlocker : Type :=
| BlockerHeld | BlockerQuarantined | BlockerMissingConfig | BlockerIdentityConflict | BlockerDuplicateCanonical.
#[export] Instance LifecycleBlocker_eq_dec : EqDecision LifecycleBlocker.
Proof. solve_decision. Defined.

Definition WakeCausePendingCreate : string := "pending-create".
Definition WakeCausePinned : string := "pin".
Definition WakeCauseAttached : string := "attached".
Definition WakeCausePending : string := "pending".
Definition WakeCauseExplicit : string := "explicit".

Record RuntimeFacts : Type := mkRuntimeFacts { rf_Observed : bool; rf_Alive : bool; rf_Attached : bool; rf_Pending : bool }.

Record NamedIdentityInput : Type := mkNamedIdentity {
  ni_Identity : string;
  ni_Configured : bool;
  ni_HasCanonicalBead : bool;
  ni_Conflict : bool;
  ni_DuplicateCanonical : bool
}.

(** The facts read from the bead. *)
Record Persisted : Type := mkPersisted {
  pf_Status : string;
  pf_StoredState : string;
  pf_SleepReason : string;
  pf_ContinuityEligible : string;
  pf_ConfiguredNamedIdentity : string;
  pf_HeldUntil : string;
  pf_QuarantinedUntil : string;
  pf_PendingCreateClaim : bool;
  pf_LastWokeAt : string;
  pf_SessionKey : string;
  pf_StartedConfigHash : string;
  pf_PendingCreateStartedAt : string;
  pf_PinAwake : string;
  pf_WakeRequest : string
}.

(** The facts a caller adds. *)
Record External : Type := mkExternal {
  xf_Runtime : RuntimeFacts;
  xf_NamedIdentity : NamedIdentityInput;
  xf_WakeCauses : list string;
  xf_PreserveIdentity : bool;
  xf_ConfigMissing : bool;
  xf_CreatedAt : Z;
  xf_StaleCreatingAfter : Z;
  xf_Now : Z
}.

(** What a caller that adds only the time has. *)
Definition at_time (now : Z) : External :=
  mkExternal (mkRuntimeFacts false false false false) (mkNamedIdentity "" false false false false) [] false false 0 0 now.

(** The struct of the code holds both halves. *)
Record LifecycleInput : Type := mkLifecycleInput { li_p : Persisted; li_x : External }.

Definition LifecycleInputFromMetadata (status : string) (meta : gmap string string) : Persisted :=
  mkPersisted status (mget meta "state") (mget meta "sleep_reason") (mget meta "continuity_eligible") (mget meta "configured_named_identity")
    (mget meta "held_until") (mget meta "quarantined_until") (is_true (mget meta "pending_create_claim")) (mget meta "last_woke_at")
    (mget meta "session_key") (mget meta "started_config_hash") (mget meta "pending_create_started_at") (mget meta "pin_awake") (mget meta "wake_request").

Definition LifecycleInputFromInfo (i : Info) : Persisted :=
  mkPersisted (if if_Closed i then "closed" else "") (field i "MetadataState") (field i "SleepReason") (field i "ContinuityEligible")
    (field i "ConfiguredNamedIdentity") (field i "HeldUntil") (field i "QuarantinedUntil") (flag i "PendingCreateClaim") (field i "LastWokeAt")
    (field i "SessionKey") (field i "StartedConfigHash") (field i "PendingCreateStartedAt") (field i "PinAwake") (field i "WakeRequest").

Record LifecycleView : Type := mkView {
  lv_BaseState : string;
  lv_CompatState : string;
  lv_StoredState : string;
  lv_DesiredState : DesiredState;
  lv_RuntimeProjection : RuntimeProjection;
  lv_Identity : IdentityProjection;
  lv_NamedIdentity : string;
  lv_Blockers : list LifecycleBlocker;
  lv_WakeCauses : list string;
  lv_HeldUntil : Z;
  lv_QuarantinedUntil : Z;
  lv_ContinuityEligible : bool;
  lv_Terminal : bool;
  lv_CountsAgainstCap : bool;
  lv_RuntimeAlive : bool;
  lv_RuntimeAttached : bool;
  lv_ReconciledState : string;
  lv_ResetContinuation : bool
}.

Definition HasBlocker (v : LifecycleView) (b : LifecycleBlocker) : bool := bool_decide (b ∈ lv_Blockers v).
Definition HasWakeCause (v : LifecycleView) (cause : string) : bool := one_of cause (lv_WakeCauses v).

(** * The projection *)

Definition projectBaseState (status storedState sleepReason : string) : string :=
  if String.eqb (TrimSpace status) "closed" then BaseStateClosed
  else
    let s := TrimSpace storedState in
    if String.eqb s "" then BaseStateNone
    else if String.eqb s StateStartPending then BaseStateStartPending
    else if String.eqb s StateCreating then BaseStateCreating
    else if String.eqb s StateActive || String.eqb s StateAwake then BaseStateActive
    else if String.eqb s StateAsleep then (if String.eqb sleepReason "drained" then BaseStateDrained else BaseStateAsleep)
    else if String.eqb s StateSuspended then BaseStateSuspended
    else if String.eqb s StateFailedCreate then BaseStateFailedCreate
    else if String.eqb s StateDraining then BaseStateDraining
    else if String.eqb s "drained" then BaseStateDrained
    else if String.eqb s StateArchived then BaseStateArchived
    else if String.eqb s "orphaned" then BaseStateOrphaned
    else if String.eqb s "closed" then BaseStateClosed
    else if String.eqb s "closing" then BaseStateClosing
    else if String.eqb s StateQuarantined then BaseStateQuarantined
    else if String.eqb s "stopped" then BaseStateStopped
    else s.

Definition compatStateForBase (base : string) : string :=
  if String.eqb base BaseStateStartPending then StateStartPending
  else if String.eqb base BaseStateCreating then StateCreating
  else if String.eqb base BaseStateActive then StateActive
  else if one_of base [BaseStateAsleep; BaseStateDrained; BaseStateStopped] then StateAsleep
  else if String.eqb base BaseStateSuspended then StateSuspended
  else if String.eqb base BaseStateFailedCreate then StateFailedCreate
  else if String.eqb base BaseStateDraining then StateDraining
  else if String.eqb base BaseStateArchived then StateArchived
  else if String.eqb base BaseStateQuarantined then StateQuarantined
  else if String.eqb base BaseStateClosed then "closed"
  else if String.eqb base BaseStateClosing then "closing"
  else if String.eqb base BaseStateOrphaned then "orphaned"
  else base.

Definition projectContinuityEligibility (base raw : string) : bool :=
  if one_of base [BaseStateNone; BaseStateClosed; BaseStateClosing] then false
  else if String.eqb raw "false" then false
  else if String.eqb base BaseStateArchived then String.eqb raw "true"
  else true.

Definition projectIdentity (x : External) (namedIdentity base : string) (continuityEligible : bool) : IdentityProjection :=
  let hasBead := negb (String.eqb base BaseStateNone) in
  let ni := xf_NamedIdentity x in
  if negb (String.eqb namedIdentity "") && hasBead then (if continuityEligible then IdentityCanonical else IdentityHistorical)
  else if ni_Configured ni && ni_Conflict ni && negb (ni_HasCanonicalBead ni) then IdentityConflict
  else if ni_Configured ni && negb (ni_HasCanonicalBead ni) then IdentityReservedUnmaterialized
  else if hasBead then IdentityConcrete
  else IdentityNone.

Definition appendUniqueBlocker (b : LifecycleBlocker) (l : list LifecycleBlocker) : list LifecycleBlocker :=
  if bool_decide (b ∈ l) then l else l ++ [b].

Definition appendUniqueWakeCause (cause : string) (l : list string) : list string :=
  if String.eqb cause "" || one_of cause l then l else l ++ [cause].

Definition add_if (c : bool) {A} (f : A -> A) (x : A) : A := if c then f x else x.

Section projection.
Context `{TimeText}.

(** A persisted deadline: none when the text is no time or the zero time. *)
Definition deadline (raw : string) : option Z :=
  match parse_time (TrimSpace raw) with Some t => if IsZero t then None else Some t | None => None end.

Definition blocking (now : Z) (t : option Z) : bool := match t with Some t => now <? t | None => false end.

Definition projectBlockers (p : Persisted) (x : External) (now : Z) (base : string) (identity : IdentityProjection)
  : list LifecycleBlocker * Z * Z :=
  let ni := xf_NamedIdentity x in
  let conflict := match identity with IdentityConflict => true | _ => false end in
  let bs := add_if (xf_ConfigMissing x || String.eqb base BaseStateOrphaned) (appendUniqueBlocker BlockerMissingConfig) [] in
  let bs := add_if (conflict || (ni_Configured ni && ni_Conflict ni)) (appendUniqueBlocker BlockerIdentityConflict) bs in
  let bs := add_if (ni_DuplicateCanonical ni) (appendUniqueBlocker BlockerDuplicateCanonical) bs in
  let held := deadline (pf_HeldUntil p) in
  let bs := add_if (blocking now held) (appendUniqueBlocker BlockerHeld) bs in
  let quarantined := deadline (pf_QuarantinedUntil p) in
  let bs := add_if (blocking now quarantined) (appendUniqueBlocker BlockerQuarantined) bs in
  (bs, default 0 held, default 0 quarantined).

Definition projectWakeCauses (p : Persisted) (x : External) : list string :=
  let cs := fold_left (fun cs c => appendUniqueWakeCause c cs) (xf_WakeCauses x) [] in
  let cs := add_if (pf_PendingCreateClaim p) (appendUniqueWakeCause WakeCausePendingCreate) cs in
  let cs := add_if (String.eqb (TrimSpace (pf_WakeRequest p)) WakeCauseExplicit) (appendUniqueWakeCause WakeCauseExplicit) cs in
  let cs := add_if (String.eqb (TrimSpace (pf_PinAwake p)) "true") (appendUniqueWakeCause WakeCausePinned) cs in
  let cs := add_if (rf_Attached (xf_Runtime x)) (appendUniqueWakeCause WakeCauseAttached) cs in
  add_if (rf_Pending (xf_Runtime x)) (appendUniqueWakeCause WakeCausePending) cs.

Definition shouldResetContinuation (base : string) (p : Persisted) (sleepReason : string) : bool :=
  if String.eqb (TrimSpace (pf_SessionKey p)) "" && String.eqb (TrimSpace (pf_StartedConfigHash p)) "" then false
  else if one_of (TrimSpace sleepReason)
            [SleepReasonIdle; SleepReasonIdleTimeout; SleepReasonNoWakeReason; SleepReasonConfigDrift; SleepReasonDrained; SleepReasonCityStop;
             SleepReasonUserHold; SleepReasonWaitHold; SleepReasonRateLimit; SleepReasonRuntimeMissing] then false
  else String.eqb base BaseStateActive || String.eqb base BaseStateCreating.

(** The clock reading the code makes when it is given no time. *)
Definition or_now (wall now : Z) : Z := if IsZero now then wall else now.

Definition creatingStateIsStale (wall : Z) (p : Persisted) (x : External) : bool :=
  if xf_StaleCreatingAfter x <=? 0 then false
  else
    let startedAt := match deadline (pf_PendingCreateStartedAt p) with
                     | Some t => if String.eqb (TrimSpace (pf_PendingCreateStartedAt p)) "" then xf_CreatedAt x else t
                     | None => xf_CreatedAt x
                     end in
    if IsZero startedAt then true else negb (or_now wall (xf_Now x) <? startedAt + xf_StaleCreatingAfter x).

Definition projectRuntimeProjection (wall : Z) (p : Persisted) (x : External) (base compat sleepReason : string) (wakeCauses : list string)
  : RuntimeProjection * string * bool :=
  if negb (rf_Observed (xf_Runtime x)) then (RuntimeProjectionUnknown, compat, false)
  else if rf_Alive (xf_Runtime x) then (RuntimeProjectionAlive, StateAwake, false)
  else if one_of base [BaseStateNone; BaseStateClosed; BaseStateClosing] then (RuntimeProjectionMissing, compat, false)
  else if String.eqb base BaseStateStartPending then (RuntimeProjectionStartRequested, StateStartPending, false)
  else if String.eqb base BaseStateCreating then
    if pf_PendingCreateClaim p && String.eqb (TrimSpace (pf_LastWokeAt p)) "" then (RuntimeProjectionStartRequested, StateStartPending, false)
    else if negb (creatingStateIsStale wall p x) then
      if one_of WakeCausePendingCreate wakeCauses then (RuntimeProjectionStartRequested, StateCreating, false)
      else (RuntimeProjectionFreshCreating, StateCreating, false)
    else (RuntimeProjectionStaleCreating, StateAsleep, shouldResetContinuation base p sleepReason)
  else if String.eqb base BaseStateFailedCreate then (RuntimeProjectionMissing, StateFailedCreate, false)
  else if one_of WakeCausePendingCreate wakeCauses then (RuntimeProjectionStartRequested, StateStartPending, false)
  else (RuntimeProjectionMissing, StateAsleep, shouldResetContinuation base p sleepReason).

Definition projectDesiredState (x : External) (terminal : bool) (blockers : list LifecycleBlocker) (wakeCauses : list string) : DesiredState :=
  if terminal then DesiredStateUndesired
  else match wakeCauses with
       | _ :: _ => match blockers with _ :: _ => DesiredStateBlocked | [] => DesiredStateRunning end
       | [] => if xf_PreserveIdentity x then DesiredStateAsleep else DesiredStateUndesired
       end.

Definition countsAgainstCapacity (base : string) : bool :=
  one_of base [BaseStateStartPending; BaseStateCreating; BaseStateActive; BaseStateDraining; BaseStateQuarantined].

Definition ProjectLifecycle (wall : Z) (input : LifecycleInput) : LifecycleView :=
  let p := li_p input in
  let x := li_x input in
  let now := or_now wall (xf_Now x) in
  let storedState := TrimSpace (pf_StoredState p) in
  let sleepReason := TrimSpace (pf_SleepReason p) in
  let base := projectBaseState (pf_Status p) storedState sleepReason in
  let compat := compatStateForBase base in
  let terminal := String.eqb base BaseStateClosed || String.eqb base BaseStateClosing in
  let eligible := projectContinuityEligibility base (TrimSpace (pf_ContinuityEligible p)) in
  let named := TrimSpace (ni_Identity (xf_NamedIdentity x)) in
  let named := if String.eqb named "" then TrimSpace (pf_ConfiguredNamedIdentity p) else named in
  let identity := projectIdentity x named base eligible in
  let causes := projectWakeCauses p x in
  let '(runtime, reconciled, reset) := projectRuntimeProjection wall p x base compat sleepReason causes in
  let '(blockers, held, quarantined) := projectBlockers p x now base identity in
  mkView base compat storedState (projectDesiredState x terminal blockers causes) runtime identity named blockers causes held quarantined
    eligible terminal (countsAgainstCapacity base) (rf_Alive (xf_Runtime x)) (rf_Attached (xf_Runtime x)) reconciled reset.

(** * Readings of a view *)

Definition LifecycleReasonResetPending : string := "reset-pending".
Definition LifecycleReasonCircuitOpen : string := "circuit-open".
Definition SessionCircuitStateOpen : string := "CIRCUIT_OPEN".

(** A view at a time, from metadata and from an Info. *)
Definition view_of (wall now : Z) (p : Persisted) : LifecycleView := ProjectLifecycle wall (mkLifecycleInput p (at_time now)).

Definition hidden (v : LifecycleView) : bool :=
  lv_Terminal v || (String.eqb (lv_BaseState v) BaseStateArchived && negb (lv_ContinuityEligible v)).

Definition lifecycleDisplayReasonFromView (v : LifecycleView) (meta : gmap string string) : string :=
  if lv_Terminal v then ""
  else if String.eqb (lv_BaseState v) BaseStateArchived && negb (lv_ContinuityEligible v) then ""
  else if String.eqb (TrimSpace (mget meta "session_circuit_state")) SessionCircuitStateOpen then LifecycleReasonCircuitOpen
  else
    let raw := TrimSpace (mget meta "sleep_reason") in
    let staleTimedQuarantine := one_of raw [SleepReasonQuarantine; SleepReasonContextChurn; SleepReasonRateLimit]
      && negb (String.eqb (TrimSpace (mget meta "quarantined_until")) "") && negb (HasBlocker v BlockerQuarantined) in
    let staleTimedHold := String.eqb raw SleepReasonUserHold && negb (String.eqb (TrimSpace (mget meta "held_until")) "")
      && negb (HasBlocker v BlockerHeld) in
    if negb (String.eqb raw "") && negb staleTimedQuarantine && negb staleTimedHold then raw
    else if HasBlocker v BlockerQuarantined then SleepReasonQuarantine
    else if negb (String.eqb (TrimSpace (mget meta "wait_hold")) "") then SleepReasonWaitHold
    else if HasBlocker v BlockerHeld then SleepReasonUserHold
    else "".

Definition lifecycleDisplayReasonFromViewInfo (v : LifecycleView) (i : Info) : string :=
  if lv_Terminal v then ""
  else if String.eqb (lv_BaseState v) BaseStateArchived && negb (lv_ContinuityEligible v) then ""
  else if String.eqb (TrimSpace (field i "SessionCircuitState")) SessionCircuitStateOpen then LifecycleReasonCircuitOpen
  else
    let raw := TrimSpace (field i "SleepReason") in
    let staleTimedQuarantine := one_of raw [SleepReasonQuarantine; SleepReasonContextChurn; SleepReasonRateLimit]
      && negb (String.eqb (TrimSpace (field i "QuarantinedUntil")) "") && negb (HasBlocker v BlockerQuarantined) in
    let staleTimedHold := String.eqb raw SleepReasonUserHold && negb (String.eqb (TrimSpace (field i "HeldUntil")) "")
      && negb (HasBlocker v BlockerHeld) in
    if negb (String.eqb raw "") && negb staleTimedQuarantine && negb staleTimedHold then raw
    else if HasBlocker v BlockerQuarantined then SleepReasonQuarantine
    else if negb (String.eqb (TrimSpace (field i "WaitHold")) "") then SleepReasonWaitHold
    else if HasBlocker v BlockerHeld then SleepReasonUserHold
    else "".

Definition lifecycleResetPendingReasonVisible (v : LifecycleView) (meta : gmap string string) (sessionName : string)
    (isRunning : option (string -> bool)) : bool :=
  if hidden v then false
  else match isRunning with
       | None => false
       | Some running =>
           if negb (is_true (mget meta "restart_requested")) && negb (is_true (mget meta "continuation_reset_pending")) then false
           else
             let name := TrimSpace sessionName in
             let name := if String.eqb name "" then TrimSpace (mget meta "session_name") else name in
             negb (String.eqb name "") && running name
       end.

Definition lifecycleResetPendingReasonVisibleInfo (v : LifecycleView) (i : Info) (isRunning : option (string -> bool)) : bool :=
  if hidden v then false
  else match isRunning with
       | None => false
       | Some running =>
           if negb (is_true (field i "RestartRequested")) && negb (is_true (field i "ContinuationResetPending")) then false
           else
             let name := TrimSpace (field i "SessionName") in
             let name := if String.eqb name "" then TrimSpace (field i "SessionNameMetadata") else name in
             negb (String.eqb name "") && running name
       end.

(** A nil metadata map is the empty one: its display reason is empty too. *)
Definition LifecycleDisplayReason (wall : Z) (status : string) (meta : gmap string string) (now : Z) : string :=
  lifecycleDisplayReasonFromView (view_of wall now (LifecycleInputFromMetadata status meta)) meta.

Definition LifecycleDisplayReasonWithLiveness (wall : Z) (status : string) (meta : gmap string string) (now : Z) (sessionName : string)
    (isRunning : option (string -> bool)) : string :=
  let v := view_of wall now (LifecycleInputFromMetadata status meta) in
  if lifecycleResetPendingReasonVisible v meta sessionName isRunning then LifecycleReasonResetPending
  else lifecycleDisplayReasonFromView v meta.

Definition LifecycleDisplayReasonWithLivenessInfo (wall : Z) (i : Info) (now : Z) (isRunning : option (string -> bool)) : string :=
  let v := view_of wall now (LifecycleInputFromInfo i) in
  if lifecycleResetPendingReasonVisibleInfo v i isRunning then LifecycleReasonResetPending
  else lifecycleDisplayReasonFromViewInfo v i.

Definition LifecycleResetPendingReasonVisible (wall : Z) (status : string) (meta : gmap string string) (now : Z) (sessionName : string)
    (isRunning : option (string -> bool)) : bool :=
  lifecycleResetPendingReasonVisible (view_of wall now (LifecycleInputFromMetadata status meta)) meta sessionName isRunning.

Definition lifecycleWakeConflictState (v : LifecycleView) : option string :=
  if String.eqb (lv_BaseState v) BaseStateClosed then Some BaseStateClosed
  else if String.eqb (lv_BaseState v) BaseStateClosing then
    Some (if negb (String.eqb (lv_StoredState v) "") then lv_StoredState v else lv_BaseState v)
  else if String.eqb (lv_BaseState v) BaseStateArchived then
    (if negb (lv_ContinuityEligible v) then Some BaseStateArchived else None)
  else None.

Definition LifecycleWakeConflictState (wall : Z) (status : string) (meta : gmap string string) : option string :=
  lifecycleWakeConflictState (view_of wall 0 (LifecycleInputFromMetadata status meta)).

Definition LifecycleIdentifiersReleased (meta : gmap string string) : bool :=
  String.eqb (TrimSpace (mget meta "alias")) "" && String.eqb (TrimSpace (mget meta "session_name")) ""
  && String.eqb (TrimSpace (mget meta "session_name_explicit")) "".

Definition LifecycleIdentityReleased (wall : Z) (status : string) (meta : gmap string string) : bool :=
  negb (lv_ContinuityEligible (view_of wall 0 (LifecycleInputFromMetadata status meta))) && LifecycleIdentifiersReleased meta.

Definition LifecycleIdentifiersReleasedInfo (i : Info) : bool :=
  String.eqb (TrimSpace (field i "Alias")) "" && String.eqb (TrimSpace (field i "SessionNameMetadata")) ""
  && String.eqb (TrimSpace (field i "SessionNameExplicit")) "".

Definition LifecycleIdentityReleasedInfo (wall : Z) (i : Info) : bool :=
  negb (lv_ContinuityEligible (view_of wall 0 (LifecycleInputFromInfo i))) && LifecycleIdentifiersReleasedInfo i.

End projection.

End lifecycle.
