(* ===== verification/SessionPatch.v ===== *)
(** The transitions of a session (internal/session): the metadata patches each lifecycle
    step writes (lifecycle_transition.go), the classification of exits and the patches it
    accrues (lifecycle_exits.go), the timer ladders (lifecycle_timers.go) and the lease
    around an asynchronous start (pending_create_lease.go). *)
From S2P Require Import Prelude GoStd BeadQuery SessionMachine SessionInfo SessionLifecycle.
Import beads session sessioninfo lifecycle.

(** crypto/sha256, as the hexadecimal digest of a string. *)
Class Sha256 : Type := { sha256_hex : string -> string }.

Module transition.

(** A batch of metadata writes: the keys it sets, with their values. *)
Definition MetadataPatch : Type := gmap string string.

(** A map literal: the keys of a literal are distinct. *)
Definition literal (l : list (string * string)) : MetadataPatch := list_to_map l.

(** The assignments of a list of keys to one value. *)
Definition assign_all (keys : list string) (v : string) (p : MetadataPatch) : MetadataPatch := fold_left (fun p k => <[k := v]> p) keys p.

(** * Keys *)

Definition PrimedAtMetadataKey : string := "primed_at".
Definition PrimingAttemptedAtMetadataKey : string := "priming_attempted_at".
Definition PromptHashMetadataKey : string := "prompt_hash".
Definition CurrentBeadIDKey : string := "currently_processing_bead_id".
Definition ResetCommittedAtKey : string := "reset_committed_at".
Definition startupDialogVerifiedKey : string := "startup_dialog_verified".
Definition CanonicalInstanceNameMetadata : string := "canonical_instance_name".
Definition CanonicalPoolSlotMetadata : string := "canonical_pool_slot".
Definition DrainAckStopPendingReason : string := "drain-ack-stop-pending".

Definition primingResetKeys : list string := [PrimedAtMetadataKey; PrimingAttemptedAtMetadataKey; PromptHashMetadataKey].

Definition clearPrimingMarkers (p : MetadataPatch) : MetadataPatch := assign_all primingResetKeys "" p.

Definition PromptHash `{Sha256} (prompt : string) : string := if String.eqb prompt "" then "" else sha256_hex prompt.

Definition freshWakeConversationResetKeys : list string :=
  ["session_key"; "started_config_hash"; "started_live_hash"; "live_hash"; startupDialogVerifiedKey;
   PrimedAtMetadataKey; PrimingAttemptedAtMetadataKey; PromptHashMetadataKey].

Definition applyFreshWakeConversationReset (p : MetadataPatch) : MetadataPatch :=
  clearPrimingMarkers
    (<[startupDialogVerifiedKey := ""]> (<["live_hash" := ""]> (<["started_live_hash" := ""]> (<["started_config_hash" := ""]> p)))).

Definition freeCanonicalIdentityMetadata (p : MetadataPatch) : MetadataPatch :=
  <[CanonicalPoolSlotMetadata := ""]> (<[CanonicalInstanceNameMetadata := ""]> p).

Definition CanonicalCloseReason (stateCode : string) : string :=
  if String.eqb stateCode "" then "session terminated: unknown state"
  else if String.eqb stateCode "gc_swept" then "session swept: no assigned work in any rig"
  else if String.eqb stateCode "orphaned" then "session orphaned: configured agent removed"
  else if String.eqb stateCode "drained" then "session drained: pool slot retired by reconciler"
  else if String.eqb stateCode "failed-create" then "session create failed: aborted before creation_complete"
  else if String.eqb stateCode "stale-session" then "session stale: no liveness signal beyond threshold"
  else if String.eqb stateCode "duplicate" then "session retired: duplicate of canonical bead"
  else if String.eqb stateCode "duplicate-repair" then "session retired: duplicate-repair canonicalization"
  else if String.eqb stateCode "reconfigured" then "session reconfigured: superseded by new agent config"
  else if String.eqb stateCode "suspended" then "session suspended: agent disabled in city config"
  else if (20 <=? String.length stateCode)%nat then stateCode
  else "session terminated: " +:+ stateCode.

(** * Transition patches *)

(** The wall clock is read where the code is given no time: it is the argument wall. *)
Section patches.
Context `{TimeText}.

Definition pendingCreateStartedAt (wall now : Z) : string := format_time (or_now wall now).
Definition awakeIntervalStartedAt (wall now : Z) : string := format_nano (or_now wall now).

Definition RequestExplicitWakePatch (wall : Z) (reason : string) (now : Z) : MetadataPatch :=
  literal [("wake_request", reason); ("wake_requested_at", format_time (or_now wall now))].

Definition RequestWakePatch (wall : Z) (reason : string) (now : Z) : MetadataPatch :=
  literal [("state", StateStartPending); ("state_reason", reason); ("pending_create_claim", "true");
    ("pending_create_started_at", pendingCreateStartedAt wall now); ("held_until", ""); ("quarantined_until", ""); ("sleep_reason", "");
    ("wait_hold", ""); ("sleep_intent", ""); ("wake_attempts", "0"); ("churn_count", "0")].

Record PreWakePatchInput : Type := mkPreWake {
  pw_Generation : Z;
  pw_InstanceToken : string;
  pw_ContinuationEpoch : Z;
  pw_Now : Z;
  pw_SleepReason : string;
  pw_FreshWake : bool
}.

Definition PreWakePatch (wall : Z) (input : PreWakePatchInput) : MetadataPatch :=
  let p := literal [("instance_token", pw_InstanceToken input); ("continuation_epoch", Itoa (pw_ContinuationEpoch input));
    ("continuation_reset_pending", ""); ("detached_at", ""); ("state", StateCreating);
    ("pending_create_started_at", pendingCreateStartedAt wall (pw_Now input)); ("last_woke_at", format_time (pw_Now input));
    ("sleep_reason", pw_SleepReason input); ("sleep_intent", ""); ("generation", Itoa (pw_Generation input)); ("wake_request", "");
    ("wake_requested_at", "")] in
  if pw_FreshWake input then applyFreshWakeConversationReset (<["session_key" := ""]> p) else p.

Definition ContinuationResetWakePatch (wall now : Z) : MetadataPatch :=
  <["continuation_reset_pending" := "true"]>
    (applyFreshWakeConversationReset (<["session_key" := ""]> (RequestWakePatch wall "continuation-reset" now))).

Definition ClearWakeBlockersPatch (state sleepReason : string) : MetadataPatch :=
  let p := literal [("held_until", ""); ("quarantined_until", ""); ("wait_hold", ""); ("sleep_intent", ""); ("wake_attempts", "0");
    ("churn_count", "0")] in
  let p := if one_of state [StateSuspended; StateDrained] then <["state" := StateAsleep]> p else p in
  if one_of sleepReason [SleepReasonUserHold; SleepReasonWaitHold; SleepReasonQuarantine; SleepReasonContextChurn; SleepReasonRateLimit;
                         SleepReasonDrained] then <["sleep_reason" := ""]> p else p.

Definition ClearExpiredHoldPatch (sleepReason : string) : MetadataPatch :=
  let p := literal [("held_until", "")] in
  if String.eqb sleepReason SleepReasonUserHold then <["sleep_reason" := ""]> p else p.

Definition ClearExpiredQuarantinePatch (sleepReason : string) : MetadataPatch :=
  let p := literal [("quarantined_until", ""); ("wake_attempts", "0"); ("churn_count", "0")] in
  if one_of sleepReason [SleepReasonQuarantine; SleepReasonContextChurn; SleepReasonRateLimit] then <["sleep_reason" := ""]> p else p.

Definition ConfirmStartedPatch (wall now : Z) : MetadataPatch :=
  literal [("state", StateActive); ("state_reason", "creation_complete"); ("creation_complete_at", format_time now);
    ("awake_started_at", awakeIntervalStartedAt wall now); ("pending_create_claim", ""); ("pending_create_started_at", "");
    ("sleep_reason", "")].

Record CommitStartedPatchInput : Type := mkCommit {
  cs_CoreHash : string;
  cs_LiveHash : string;
  cs_ProvisionHash : string;
  cs_LaunchHash : string;
  cs_CoreBreakdown : string;
  cs_ConfirmState : bool;
  cs_ClearSleepReason : bool;
  cs_ClearPendingCreateClaim : bool;
  cs_StartsAwakeInterval : bool;
  cs_Now : Z;
  cs_PrimedAt : Z;
  cs_PromptHash : string
}.

Definition CommitStartedPatch (wall : Z) (input : CommitStartedPatchInput) : MetadataPatch :=
  let p := literal [("started_config_hash", cs_CoreHash input); ("live_hash", cs_LiveHash input); ("started_live_hash", cs_LiveHash input);
    ("started_provision_hash", cs_ProvisionHash input); ("started_launch_hash", cs_LaunchHash input); ("continuation_reset_pending", "");
    (ResetCommittedAtKey, "")] in
  let p := add_if (negb (String.eqb (cs_CoreBreakdown input) "")) <["core_hash_breakdown" := cs_CoreBreakdown input]> p in
  let p := add_if (cs_ConfirmState input)
             (fun p => <["pending_create_started_at" := ""]> (<["state_reason" := "creation_complete"]> (<["state" := StateActive]> p))) p in
  let p := add_if (negb (IsZero (cs_Now input))) <["creation_complete_at" := format_time (cs_Now input)]> p in
  let p := add_if (cs_ClearSleepReason input) <["sleep_reason" := ""]> p in
  let p := add_if (cs_ClearPendingCreateClaim input)
             (fun p => <["pending_create_started_at" := ""]> (<["pending_create_claim" := ""]> p)) p in
  let p := add_if (cs_StartsAwakeInterval input) <["awake_started_at" := awakeIntervalStartedAt wall (cs_Now input)]> p in
  add_if (negb (IsZero (cs_PrimedAt input)) && negb (String.eqb (cs_PromptHash input) ""))
    (fun p => <[PromptHashMetadataKey := cs_PromptHash input]> (<[PrimedAtMetadataKey := format_time (cs_PrimedAt input)]> p)) p.

Definition BeginDrainPatch (now : Z) (reason : string) : MetadataPatch :=
  literal [("state", StateDraining); ("state_reason", reason); ("drain_at", format_time now)].

Definition DrainAckStopPendingPatch (now : Z) : MetadataPatch :=
  <["pending_create_started_at" := ""]> (<["pending_create_claim" := ""]> (BeginDrainPatch now DrainAckStopPendingReason)).

Definition SleepPatch (now : Z) (reason : string) : MetadataPatch :=
  literal [("state", StateAsleep); ("state_reason", ""); ("sleep_reason", reason); ("last_woke_at", ""); ("pending_create_claim", "");
    ("pending_create_started_at", ""); ("sleep_intent", ""); ("slept_at", format_time now)].

(** What a fresh wake adds to the end of a drain. *)
Definition fresh_wake (freshWake : bool) (p : MetadataPatch) : MetadataPatch :=
  if freshWake then <["continuation_reset_pending" := "true"]> (applyFreshWakeConversationReset (<["session_key" := ""]> p)) else p.

Definition AcknowledgeDrainPatch (freshWake : bool) : MetadataPatch :=
  fresh_wake freshWake (literal [("state", StateDrained); ("state_reason", ""); ("last_woke_at", ""); ("pending_create_claim", "");
    ("pending_create_started_at", "")]).

Definition CompleteDrainPatch (now : Z) (reason : string) (freshWake : bool) : MetadataPatch :=
  fresh_wake freshWake (<["state_reason" := ""]> (SleepPatch now reason)).

Definition RestartRequestPatch (wall : Z) (sessionKey : string) (now : Z) : MetadataPatch :=
  let p := literal [("restart_requested", ""); ("started_config_hash", ""); ("continuation_reset_pending", "true");
    (ResetCommittedAtKey, format_time (or_now wall now)); ("last_woke_at", ""); ("pending_create_claim", "");
    ("pending_create_started_at", "")] in
  add_if (negb (String.eqb sessionKey "")) <["session_key" := sessionKey]> (clearPrimingMarkers p).

Definition ConfigDriftResetPatch (wall : Z) (nextState sessionKey : string) (now : Z) : MetadataPatch :=
  let p := literal [("state", nextState); ("last_woke_at", ""); ("restart_requested", ""); ("continuation_reset_pending", "true");
    ("pending_create_claim", ""); ("pending_create_started_at", "")] in
  let p := applyFreshWakeConversationReset p in
  let p := add_if (String.eqb nextState StateCreating || String.eqb nextState StateStartPending)
             (fun p => <["pending_create_started_at" := pendingCreateStartedAt wall now]> (<["pending_create_claim" := "true"]> p)) p in
  add_if (negb (String.eqb sessionKey "")) <["session_key" := sessionKey]> p.

Definition bool_text (b : bool) : string := if b then "true" else "false".

Definition ArchivePatch (now : Z) (reason : string) (continuityEligible : bool) : MetadataPatch :=
  literal [("state", StateArchived); ("state_reason", reason); ("archived_at", format_time now);
    ("continuity_eligible", bool_text continuityEligible); ("pending_create_claim", ""); ("pending_create_started_at", "")].

Definition ClosePatch (now : Z) (stateCode : string) : MetadataPatch :=
  literal [("state", stateCode); ("close_reason", CanonicalCloseReason stateCode); ("closed_at", format_time now);
    ("synced_at", format_time now)].

Definition RetireNamedSessionPatch (now : Z) (reason identity : string) : MetadataPatch :=
  let p := ArchivePatch now reason false in
  let p := <["session_name_explicit" := ""]> (<["session_name" := ""]> (<["alias" := ""]> p)) in
  let p := <["synced_at" := format_time now]> (freeCanonicalIdentityMetadata p) in
  let p := assign_all ["held_until"; "quarantined_until"; "wait_hold"; "sleep_intent"; "sleep_reason"] "" p in
  add_if (negb (String.eqb identity "")) <["retired_named_identity" := identity]> p.

Definition QuarantinePatch (until cycle : Z) : MetadataPatch :=
  literal [("state", StateQuarantined); ("state_reason", "crash-loop"); ("quarantined_until", format_time until);
    ("quarantine_cycle", Itoa cycle); ("last_woke_at", "")].

Definition ReactivatePatch (continuityEligible : bool) : MetadataPatch :=
  literal [("state", StateAsleep); ("state_reason", "reactivated"); ("pending_create_claim", ""); ("pending_create_started_at", "");
    ("continuity_eligible", bool_text continuityEligible); ("quarantined_until", ""); ("crash_count", "0"); ("archived_at", "")].

(** * Exits *)

Inductive ScreenFact : Type := ScreenUnknown | ScreenRateLimit | ScreenOther.
Inductive ExitOutcome : Type := ExitNone | ExitGatherScreen | ExitRateLimitQuarantine | ExitRapidCrash | ExitChurn | ExitProductiveDeath.
#[export] Instance ExitOutcome_eq_dec : EqDecision ExitOutcome.
Proof. solve_decision. Defined.

Record ExitFacts : Type := mkExitFacts {
  ef_Alive : bool;
  ef_SubprocessProvider : bool;
  ef_DrainPending : bool;
  ef_PendingCreateClaim : bool;
  ef_PendingCreateStartInFlight : bool;
  ef_SleepReason : string;
  ef_LastWokeAt : string;
  ef_Now : Z;
  ef_StabilityThreshold : Z;
  ef_ProductivityThreshold : Z;
  ef_ScreenAvailable : bool;
  ef_Screen : ScreenFact
}.

Definition parseWakeStamp (raw : string) : option Z := if String.eqb raw "" then None else parse_time raw.

Definition DecideSessionExit (f : ExitFacts) : ExitOutcome :=
  if ef_Alive f then ExitNone
  else
    let wokeValid := match parseWakeStamp (ef_LastWokeAt f) with Some _ => true | None => false end in
    let woke := default 0 (parseWakeStamp (ef_LastWokeAt f)) in
    let crashCandidate := negb (ef_SubprocessProvider f) && negb (ef_DrainPending f) && wokeValid && negb (ef_PendingCreateStartInFlight f) in
    let elapsed := ef_Now f - woke in
    let after_screen :=
      if crashCandidate && (elapsed <? ef_StabilityThreshold f) then ExitRapidCrash
      else if ef_PendingCreateClaim f || ef_SubprocessProvider f || ef_DrainPending f || IsDeliberateSleepReason (ef_SleepReason f)
              || negb wokeValid then ExitNone
      else if elapsed <? ef_StabilityThreshold f then ExitNone
      else if ef_ProductivityThreshold f <=? elapsed then ExitProductiveDeath
      else ExitChurn in
    if crashCandidate && ef_ScreenAvailable f then
      match ef_Screen f with
      | ScreenUnknown => ExitGatherScreen
      | ScreenRateLimit => ExitRateLimitQuarantine
      | ScreenOther => after_screen
      end
    else after_screen.

Record ExitAccrual : Type := mkAccrual { ea_Patch : MetadataPatch; ea_Quarantined : bool }.

Definition exitAccrual (counterKey : string) (next threshold : Z) (sleepReason : string) (until : Z) : ExitAccrual :=
  let count := Itoa next in
  if threshold <=? next then
    mkAccrual (literal [(counterKey, count); ("quarantined_until", format_time until); ("sleep_reason", sleepReason)]) true
  else mkAccrual (literal [(counterKey, count)]) false.

(** The counters are ints: one more than the largest is the smallest. *)
Definition WakeFailureAccrualPatch (priorAttempts maxAttempts until : Z) : ExitAccrual :=
  exitAccrual "wake_attempts" (wrap64 (priorAttempts + 1)) maxAttempts SleepReasonQuarantine until.

Definition ChurnAccrualPatch (priorCycles maxCycles until : Z) : ExitAccrual :=
  exitAccrual "churn_count" (wrap64 (priorCycles + 1)) maxCycles SleepReasonContextChurn until.

Definition ConversationResetPatch (clearStartedConfigHash : bool) : MetadataPatch :=
  let p := literal [("session_key", ""); ("continuation_reset_pending", "true")] in
  if clearStartedConfigHash then clearPrimingMarkers (<["started_config_hash" := ""]> p) else p.

Definition RateLimitQuarantinePatch (until : Z) : MetadataPatch :=
  literal [("state", StateAsleep); ("quarantined_until", format_time until); ("sleep_reason", SleepReasonRateLimit); ("last_woke_at", "");
    ("pending_create_claim", ""); ("pending_create_started_at", "")].

End patches.

(** * Timers *)

Inductive PendingFact : Type := PendingUnknown | PendingNo | PendingYes.
Inductive AssignedWorkFact : Type := AssignedWorkUnknown | AssignedWorkNone | AssignedWorkHas.
Inductive TimerAction : Type :=
| TimerActionNone | TimerActionGatherPending | TimerActionGatherAssignedWork | TimerActionDefer | TimerActionStop.

Record TimerFacts : Type := mkTimerFacts {
  tf_Triggered : bool;
  tf_Blocker : string;
  tf_Pending : PendingFact;
  tf_AssignedWork : AssignedWorkFact
}.

Record TimerDecision : Type := mkTimerDecision {
  td_Action : TimerAction;
  td_TraceReason : string;
  td_TraceOutcome : string;
  td_SleepReason : string;
  td_CancelDrain : bool;
  td_SkipWakePass : bool
}.

Definition action_only (a : TimerAction) : TimerDecision := mkTimerDecision a "" "" "" false false.
Definition deferDecision (reason outcome : string) : TimerDecision := mkTimerDecision TimerActionDefer reason outcome "" false false.

Definition DecideMaxSessionAge (f : TimerFacts) : TimerDecision :=
  if negb (tf_Triggered f) then action_only TimerActionNone
  else if negb (String.eqb (tf_Blocker f) "") then deferDecision (tf_Blocker f) ("deferred_" +:+ tf_Blocker f)
  else match tf_Pending f with
       | PendingUnknown => action_only TimerActionGatherPending
       | PendingYes => deferDecision "pending" "deferred_pending"
       | PendingNo =>
           match tf_AssignedWork f with
           | AssignedWorkUnknown => action_only TimerActionGatherAssignedWork
           | AssignedWorkHas => deferDecision "assigned_work" "deferred_busy"
           | AssignedWorkNone => mkTimerDecision TimerActionStop "max_session_age" "stop" SleepReasonMaxSessionAge false false
           end
       end.

Definition DecideIdleTimeout (f : TimerFacts) : TimerDecision :=
  if negb (tf_Triggered f) then action_only TimerActionNone
  else if negb (String.eqb (tf_Blocker f) "") then deferDecision (tf_Blocker f) ("deferred_" +:+ tf_Blocker f)
  else match tf_Pending f with
       | PendingUnknown => action_only TimerActionGatherPending
       | PendingYes => mkTimerDecision TimerActionDefer "pending" "deferred_pending" "" true true
       | PendingNo =>
           match tf_AssignedWork f with
           | AssignedWorkUnknown => action_only TimerActionGatherAssignedWork
           | AssignedWorkHas => deferDecision "assigned_work" "deferred_busy"
           | AssignedWorkNone => mkTimerDecision TimerActionStop "idle_timeout" "stop" SleepReasonIdleTimeout false false
           end
       end.

Definition DecideAssignedWorkExhausted : TimerDecision :=
  mkTimerDecision TimerActionStop "assigned_work_exhausted" "stop_defer_exhausted" SleepReasonAssignedWorkExhausted false false.

(** * The lease of a pending create *)

Record PendingCreateLease : Type := mkLease {
  pl_Closed : bool;
  pl_InstanceToken : string;
  pl_Generation : string;
  pl_Claim : bool;
  pl_State : string
}.

Definition LeaseFromInfo (i : Info) : PendingCreateLease :=
  mkLease (if_Closed i) (TrimSpace (field i "InstanceToken")) (TrimSpace (field i "Generation")) (flag i "PendingCreateClaim")
    (TrimSpace (field i "MetadataState")).

Inductive LeaseCommitVerdict : Type := LeaseCommit | LeaseDiscardStopRuntime.

Definition StateConfirmsPendingStart (s : string) : bool := one_of s [""; StateStartPending; StateCreating; StateAsleep; StateDrained].

Definition SameIdentity (l current : PendingCreateLease) : bool :=
  if negb (String.eqb (pl_InstanceToken l) "") then String.eqb (pl_InstanceToken current) (pl_InstanceToken l)
  else if String.eqb (pl_Generation l) "" then true
  else String.eqb (pl_Generation current) (pl_Generation l).

Definition CommitVerdict (l current : PendingCreateLease) : LeaseCommitVerdict :=
  if pl_Closed current then LeaseDiscardStopRuntime
  else if negb (SameIdentity l current) then LeaseDiscardStopRuntime
  else if String.eqb (pl_State current) StateAwake || String.eqb (pl_State current) StateActive then LeaseCommit
  else if pl_Claim l && negb (pl_Claim current) then LeaseDiscardStopRuntime
  else if StateConfirmsPendingStart (pl_State current) then LeaseCommit
  else LeaseDiscardStopRuntime.

End transition.
