(* ===== verification/SessionLifeProps.v ===== *)
(** What the transitions of a session mean to its lifecycle: the projection reads the same
    off a bead and off its Info, every patch lands on the state it names, and the priming
    markers live and die with the hash of the started configuration. *)
From Stdlib Require Import Ascii.
From S2P Require Import Prelude GoStd BeadQuery SessionMachine SessionInfo SessionLifecycle SessionPatch HandText.
Import beads session sessioninfo lifecycle transition.

(** * What is relied on of time.Time *)

(** The nanoseconds of a second, and the last instant a four-digit year can write. *)
Definition ns_second : Z := 1000000000.
Definition year_10000 : Z := 315537897600 * ns_second.

(** A formatted time is not empty and has no space around it, and it parses back to the
    second it falls in. *)
Class TimeLaws `{TimeText} : Prop := {
  format_trimmed t : TrimSpace (format_time t) = format_time t;
  format_nonempty t : format_time t <> "";
  parse_format t : 0 <= t < year_10000 -> parse_time (format_time t) = Some (ns_second * (t / ns_second));
  parse_empty : parse_time "" = None
}.

(** * Reading a patched bead *)

Lemma mget_over k v p m k' : mget (<[k := v]> p ∪ m) k' = if String.eqb k k' then v else mget (p ∪ m) k'.
Proof.
  unfold mget. rewrite <- insert_union_l. destruct (String.eqb_spec k k') as [->|Hne]; [by rewrite lookup_insert_eq|by rewrite lookup_insert_ne].
Qed.

Lemma mget_over_empty (m : gmap string string) k : mget (∅ ∪ m) k = mget m k.
Proof. by rewrite map_empty_union. Qed.

Lemma literal_cons k v l : literal ((k, v) :: l) = <[k := v]> (literal l).
Proof. done. Qed.

Lemma literal_nil : literal [] = ∅.
Proof. done. Qed.

Lemma assign_all_cons k ks v p : assign_all (k :: ks) v p = assign_all ks v (<[k := v]> p).
Proof. done. Qed.

Lemma assign_all_nil v p : assign_all [] v p = p.
Proof. done. Qed.

(** The value a patched bead has under a key that is spelled out. *)
Ltac read_patch :=
  unfold patch_Apply, fresh_wake, applyFreshWakeConversationReset, clearPrimingMarkers, freeCanonicalIdentityMetadata, primingResetKeys,
    PrimedAtMetadataKey, PrimingAttemptedAtMetadataKey, PromptHashMetadataKey, startupDialogVerifiedKey, ResetCommittedAtKey,
    CanonicalInstanceNameMetadata, CanonicalPoolSlotMetadata, add_if in *;
  cbv iota in *;
  rewrite ?assign_all_cons, ?assign_all_nil, ?literal_cons, ?literal_nil in *;
  rewrite ?mget_over, ?mget_over_empty in *;
  cbn [String.eqb Ascii.eqb Bool.eqb] in *.

(** * The projection of a bead and of its Info *)

Section twins.
Context `{TimeText}.

Lemma info_flag_only b k name : (k, Flag name) ∈ infoKeyCodec -> flag (infoFromPersistedBead b) name = is_true (mget (bd_Metadata b) k).
Proof.
  intros Hin. destruct (project_last infoKeyCodec (bd_Metadata b) (zero_info b) k _ codec_agrees Hin) as [j E].
  unfold project in E. unfold infoFromPersistedBead. rewrite E. unfold flag. cbn. by rewrite lookup_insert_eq.
Qed.

Lemma info_session_name b : field (infoFromPersistedBead b) "SessionNameMetadata" = mget (bd_Metadata b) "session_name".
Proof.
  destruct (project_last infoKeyCodec (bd_Metadata b) (zero_info b) "session_name" SetSessionName codec_agrees) as [j E];
    [by vm_compute; repeat (left || right)|].
  unfold project in E. unfold infoFromPersistedBead. rewrite E. unfold field. cbn. rewrite lookup_insert_ne, lookup_insert_eq by done. done.
Qed.

Lemma info_state b : field (infoFromPersistedBead b) "MetadataState" = mget (bd_Metadata b) "state".
Proof.
  destruct (project_last infoKeyCodec (bd_Metadata b) (zero_info b) "state" SetState codec_agrees) as [j E];
    [by vm_compute; repeat (left || right)|].
  unfold project in E. unfold infoFromPersistedBead. rewrite E. unfold field. cbn. rewrite lookup_insert_ne, lookup_insert_eq by done. done.
Qed.

Lemma info_attempts b : field (infoFromPersistedBead b) "WakeAttemptsMetadata" = mget (bd_Metadata b) "wake_attempts".
Proof.
  destruct (project_last infoKeyCodec (bd_Metadata b) (zero_info b) "wake_attempts" SetWakeAttempts codec_agrees) as [j E];
    [by vm_compute; repeat (left || right)|].
  unfold project in E. unfold infoFromPersistedBead. rewrite E. unfold field. cbn. rewrite lookup_insert_eq. done.
Qed.

Lemma info_created b : if_CreatedAt (infoFromPersistedBead b) = bd_CreatedAt b.
Proof.
  change (bd_CreatedAt b) with (if_CreatedAt (zero_info b)). unfold infoFromPersistedBead. generalize (zero_info b).
  induction infoKeyCodec as [|[k s] l IH]; intros i; [done|]. cbn [fold_left]. rewrite IH. by rewrite set_parts.
Qed.

End twins.

(** The key a field keeps verbatim, and the flag a key sets. *)
Definition verbatim_key (name : string) : option string :=
  fst <$> List.find (fun x => match x.2 with Verbatim n => String.eqb n name | _ => false end) infoKeyCodec.
Definition flag_key (name : string) : option (string * Setter) :=
  List.find (fun x => match x.2 with Flag n | FlagAndRaw n _ => String.eqb n name | _ => false end) infoKeyCodec.

Section readings.
Context `{TimeText}.

Lemma info_verbatim b name k : verbatim_key name = Some k -> field (infoFromPersistedBead b) name = mget (bd_Metadata b) k.
Proof.
  unfold verbatim_key. destruct (List.find _ _) as [[k' s]|] eqn:E; [|discriminate 1]. intros Hk. injection Hk as ->.
  apply find_some in E as [Hin%list_elem_of_In He]. cbn [snd] in He. destruct s; try discriminate He.
  apply String.eqb_eq in He as ->. exact (info_field b k name Hin).
Qed.

Lemma info_flagged b name k s : flag_key name = Some (k, s) -> flag (infoFromPersistedBead b) name = is_true (mget (bd_Metadata b) k).
Proof.
  unfold flag_key. intros E. apply find_some in E as [Hin%list_elem_of_In He]. cbn [snd] in He. destruct s; try discriminate He; apply String.eqb_eq in He as ->.
  - exact (info_flag_only b k name Hin).
  - exact (info_flag b k name _ Hin).
Qed.

End readings.

(** A term replaced by what an equation says it is, wherever it is spelled the same. *)
Ltac replace_by E :=
  let Eq := fresh "Eq" in
  pose proof E as Eq; match type of Eq with ?t = _ => revert Eq; generalize t; intros ? -> end.

(** Every field and flag of a projected bead that the goal mentions, read as metadata. *)
Ltac read_info :=
  repeat match goal with
  | |- context [field (infoFromPersistedBead ?b) "MetadataState"] => replace_by (info_state b)
  | |- context [field (infoFromPersistedBead ?b) "SessionNameMetadata"] => replace_by (info_session_name b)
  | |- context [field (infoFromPersistedBead ?b) "WakeAttemptsMetadata"] => replace_by (info_attempts b)
  | |- context [field (infoFromPersistedBead ?b) ?name] =>
      let k := eval vm_compute in (default "" (verbatim_key name)) in replace_by (info_verbatim b name k eq_refl)
  | |- context [flag (infoFromPersistedBead ?b) ?name] =>
      let x := eval vm_compute in (default ("", SetState) (flag_key name)) in
      match x with (?k, ?s) => replace_by (info_flagged b name k s eq_refl) end
  | |- context [if_Closed (infoFromPersistedBead ?b)] => replace_by (info_closed b)
  | |- context [if_CreatedAt (infoFromPersistedBead ?b)] => replace_by (info_created b)
  end.

#[local] Opaque infoFromPersistedBead field flag.

Section projection_twins.
Context `{TimeText}.

(** The input read off an Info is the one read off the bead, but for how a status is
    spelled. *)
Lemma input_twin b :
  LifecycleInputFromInfo (infoFromPersistedBead b)
  = LifecycleInputFromMetadata (if String.eqb (bd_Status b) "closed" then "closed" else "") (bd_Metadata b).
Proof. unfold LifecycleInputFromInfo, LifecycleInputFromMetadata. read_info. done. Qed.

(** Of a status, only whether it is closed is read. *)
Lemma closed_only wall now status status' m :
  String.eqb (TrimSpace status) "closed" = String.eqb (TrimSpace status') "closed" ->
  view_of wall now (LifecycleInputFromMetadata status m) = view_of wall now (LifecycleInputFromMetadata status' m).
Proof.
  intros E. unfold view_of, ProjectLifecycle, LifecycleInputFromMetadata. cbn [li_p li_x pf_Status pf_StoredState pf_SleepReason pf_ContinuityEligible
    pf_ConfiguredNamedIdentity pf_HeldUntil pf_QuarantinedUntil pf_PendingCreateClaim pf_LastWokeAt pf_SessionKey pf_StartedConfigHash
    pf_PendingCreateStartedAt pf_PinAwake pf_WakeRequest].
  assert (forall a b, projectBaseState status a b = projectBaseState status' a b) as ->; [|done].
  intros a b'. unfold projectBaseState. by rewrite E.
Qed.

Lemma view_twin wall now b :
  TrimSpace (bd_Status b) = bd_Status b ->
  view_of wall now (LifecycleInputFromInfo (infoFromPersistedBead b)) = view_of wall now (LifecycleInputFromMetadata (bd_Status b) (bd_Metadata b)).
Proof.
  intros Ht. rewrite input_twin. apply closed_only. rewrite Ht. by destruct (String.eqb (bd_Status b) "closed").
Qed.

(** The two readers of a session agree.  Whatever a bead holds, and whichever way its
    status is closed or not, what is displayed of its state, whether its identity is free,
    and which lease it holds are the same read off the bead's metadata and off the Info the
    codec projects from it. *)
Theorem readers_agree wall now b running :
  TrimSpace (bd_Status b) = bd_Status b ->
  let i := infoFromPersistedBead b in
  let m := bd_Metadata b in
  LifecycleDisplayReasonWithLivenessInfo wall i now running
    = LifecycleDisplayReasonWithLiveness wall (bd_Status b) m now (field i "SessionName") running
  /\ LifecycleIdentityReleasedInfo wall i = LifecycleIdentityReleased wall (bd_Status b) m
  /\ LeaseFromInfo i = mkLease (String.eqb (bd_Status b) "closed") (TrimSpace (mget m "instance_token")) (TrimSpace (mget m "generation"))
       (is_true (mget m "pending_create_claim")) (TrimSpace (mget m "state"))
  /\ info_CanonicalIdentity i = CanonicalIdentityFromMetadata m.
Proof.
  intros Ht. cbn zeta.
  unfold LifecycleDisplayReasonWithLivenessInfo, LifecycleDisplayReasonWithLiveness, LifecycleIdentityReleasedInfo, LifecycleIdentityReleased,
    LifecycleIdentifiersReleasedInfo, LifecycleIdentifiersReleased, LeaseFromInfo, info_CanonicalIdentity, CanonicalIdentityFromMetadata.
  rewrite !view_twin by done.
  unfold lifecycleResetPendingReasonVisibleInfo, lifecycleResetPendingReasonVisible, lifecycleDisplayReasonFromViewInfo, lifecycleDisplayReasonFromView.
  generalize (field (infoFromPersistedBead b) "SessionName"). intros name. read_info. done.
Qed.

End projection_twins.

(** * What a transition lands on *)

Section landing.
Context `{TimeLaws}.
Implicit Type m : gmap string string.

Definition metadata_view (wall now : Z) m : LifecycleView := view_of wall now (LifecycleInputFromMetadata "open" m).

(** The projection taken apart, its runtime and its blockers named. *)
Local Ltac open_view :=
  unfold metadata_view, view_of, ProjectLifecycle; cbv zeta; cbn [li_p li_x];
  match goal with |- context [projectRuntimeProjection ?a ?b ?c ?d ?e ?f ?g] =>
    destruct (projectRuntimeProjection a b c d e f g) as [[? ?] ?] end;
  match goal with |- context [projectBlockers ?a ?b ?c ?d ?e] =>
    let B := fresh "B" in destruct (projectBlockers a b c d e) as [[? ?] ?] eqn:B end;
  cbn [lv_BaseState lv_ContinuityEligible lv_CountsAgainstCap lv_Blockers lv_WakeCauses lv_DesiredState lv_Terminal].

Lemma view_base wall now m :
  lv_BaseState (metadata_view wall now m) = projectBaseState "open" (TrimSpace (mget m "state")) (TrimSpace (mget m "sleep_reason")).
Proof. open_view. done. Qed.

Definition eligible_of m : bool :=
  projectContinuityEligibility (projectBaseState "open" (TrimSpace (mget m "state")) (TrimSpace (mget m "sleep_reason")))
    (TrimSpace (mget m "continuity_eligible")).

Lemma view_eligible wall now m : lv_ContinuityEligible (metadata_view wall now m) = eligible_of m.
Proof. open_view. done. Qed.

Lemma view_capacity wall now m :
  lv_CountsAgainstCap (metadata_view wall now m) = countsAgainstCapacity (lv_BaseState (metadata_view wall now m)).
Proof. open_view. done. Qed.

Lemma view_causes wall now m : lv_WakeCauses (metadata_view wall now m) = projectWakeCauses (LifecycleInputFromMetadata "open" m) (at_time now).
Proof. open_view. done. Qed.

Lemma view_deadlines wall now m :
  lv_HeldUntil (metadata_view wall now m) = default 0 (deadline (mget m "held_until"))
  /\ lv_QuarantinedUntil (metadata_view wall now m) = default 0 (deadline (mget m "quarantined_until")).
Proof. open_view. unfold projectBlockers in B. by injection B as _ <- <-. Qed.

Definition same_blocker (b b' : LifecycleBlocker) : bool :=
  match b, b' with
  | BlockerHeld, BlockerHeld | BlockerQuarantined, BlockerQuarantined | BlockerMissingConfig, BlockerMissingConfig
  | BlockerIdentityConflict, BlockerIdentityConflict | BlockerDuplicateCanonical, BlockerDuplicateCanonical => true
  | _, _ => false
  end.

Lemma has_appended b b' l : bool_decide (b ∈ appendUniqueBlocker b' l) = same_blocker b b' || bool_decide (b ∈ l).
Proof.
  assert (same_blocker b b' = bool_decide (b = b')) as -> by (by destruct b, b').
  unfold appendUniqueBlocker. repeat case_bool_decide; set_solver.
Qed.

Lemma has_added c b b' l : bool_decide (b ∈ add_if c (appendUniqueBlocker b') l) = c && same_blocker b b' || bool_decide (b ∈ l).
Proof. destruct c; cbn; [apply has_appended|done]. Qed.

(** The blockers of a session with no more than metadata. *)
Lemma view_blockers wall now m b :
  HasBlocker (metadata_view wall now m) b
  = match b with
    | BlockerHeld => blocking (or_now wall now) (deadline (mget m "held_until"))
    | BlockerQuarantined => blocking (or_now wall now) (deadline (mget m "quarantined_until"))
    | BlockerMissingConfig => String.eqb (lv_BaseState (metadata_view wall now m)) BaseStateOrphaned
    | _ => false
    end.
Proof.
  rewrite view_base. unfold HasBlocker. open_view. unfold projectBlockers in B. injection B as <- _ _.
  rewrite !has_added. unfold projectIdentity, at_time. cbn [xf_NamedIdentity ni_Configured ni_Conflict ni_HasCanonicalBead ni_DuplicateCanonical andb orb
    xf_ConfigMissing xf_Now LifecycleInputFromMetadata pf_HeldUntil pf_QuarantinedUntil pf_Status pf_StoredState pf_SleepReason].
  rewrite (bool_decide_eq_false_2 (b ∈ [])) by set_solver.
  destruct b; cbn [same_blocker]; rewrite ?andb_true_r, ?andb_false_r, ?orb_false_r; cbn [orb]; try reflexivity.
  repeat match goal with |- context [if ?c then _ else _] => destruct c end; reflexivity.
Qed.

Lemma view_desired wall now m :
  lv_DesiredState (metadata_view wall now m)
  = projectDesiredState (at_time now) (String.eqb (lv_BaseState (metadata_view wall now m)) BaseStateClosed
      || String.eqb (lv_BaseState (metadata_view wall now m)) BaseStateClosing)
      (lv_Blockers (metadata_view wall now m)) (lv_WakeCauses (metadata_view wall now m)).
Proof. open_view. done. Qed.

Lemma unblocked v : (forall b, HasBlocker v b = false) -> lv_Blockers v = [].
Proof.
  intros Hb. destruct (lv_Blockers v) as [|b l] eqn:E; [done|]. specialize (Hb b). unfold HasBlocker in Hb. rewrite E in Hb.
  apply bool_decide_eq_false in Hb. set_solver.
Qed.

Lemma deadline_empty : deadline "" = None.
Proof. unfold deadline. change (TrimSpace "") with "". by rewrite parse_empty. Qed.

Lemma deadline_format t : ns_second <= t < year_10000 -> deadline (format_time t) = Some (ns_second * (t / ns_second)).
Proof.
  intros Ht. unfold deadline. rewrite format_trimmed, parse_format by (unfold ns_second in *; lia). unfold IsZero.
  destruct (Z.eqb_spec (ns_second * (t / ns_second)) 0); [|done]. unfold ns_second in *. pose proof (Z.div_le_mono 1000000000 t 1000000000 ltac:(lia) ltac:(lia)) as Hd.
  rewrite Z.div_same in Hd by lia. lia.
Qed.

(** A stored state and reason, projected. *)
Ltac base_state := rewrite view_base; read_patch; try (vm_compute; reflexivity).

(** What a patch lands on: the state projected and whether it holds a slot. *)
Definition lands (wall now : Z) m (p : gmap string string) (base : string) (holds : bool) : Prop :=
  lv_BaseState (metadata_view wall now (patch_Apply p m)) = base
  /\ lv_CountsAgainstCap (metadata_view wall now (patch_Apply p m)) = holds.

Lemma lands_base wall now m p base :
  lv_BaseState (metadata_view wall now (patch_Apply p m)) = base -> lands wall now m p base (countsAgainstCapacity base).
Proof. intros E. split; [done|]. by rewrite view_capacity, E. Qed.

Lemma RequestWake_lands wall now m reason t :
  let v := metadata_view wall now (patch_Apply (RequestWakePatch wall reason t) m) in
  lands wall now m (RequestWakePatch wall reason t) BaseStateStartPending true
  /\ lv_Blockers v = [] /\ HasWakeCause v WakeCausePendingCreate = true /\ lv_DesiredState v = DesiredStateRunning.
Proof.
  assert (Hb : lands wall now m (RequestWakePatch wall reason t) BaseStateStartPending true).
  { apply lands_base. unfold RequestWakePatch. base_state. }
  cbn zeta. split; [done|]. destruct Hb as [Hb _].
  assert (Hn : lv_Blockers (metadata_view wall now (patch_Apply (RequestWakePatch wall reason t) m)) = []).
  { apply unblocked. intros b. rewrite view_blockers, Hb. unfold RequestWakePatch. read_patch. rewrite deadline_empty. by destruct b. }
  split; [done|].
  assert (Hc : HasWakeCause (metadata_view wall now (patch_Apply (RequestWakePatch wall reason t) m)) WakeCausePendingCreate = true
               /\ lv_WakeCauses (metadata_view wall now (patch_Apply (RequestWakePatch wall reason t) m)) <> []).
  { unfold HasWakeCause. rewrite view_causes. unfold projectWakeCauses, LifecycleInputFromMetadata, RequestWakePatch.
    cbn [pf_PendingCreateClaim pf_WakeRequest pf_PinAwake xf_WakeCauses at_time fold_left xf_Runtime rf_Attached rf_Pending]. read_patch.
    change (is_true "true") with true. cbn iota.
    destruct (String.eqb (TrimSpace (mget m "wake_request")) _), (String.eqb (TrimSpace (mget m "pin_awake")) _); done. }
  destruct Hc as [Hc Hne]. split; [exact Hc|]. rewrite view_desired, Hb, Hn. unfold projectDesiredState.
  change (String.eqb _ _ || String.eqb _ _) with false. cbn iota. by destruct (lv_WakeCauses _).
Qed.

Lemma asleep_lands wall now m p r :
  mget (patch_Apply p m) "state" = StateAsleep -> mget (patch_Apply p m) "sleep_reason" = r ->
  lands wall now m p (if String.eqb (TrimSpace r) "drained" then BaseStateDrained else BaseStateAsleep) false.
Proof.
  intros E Er. assert (Hb : lv_BaseState (metadata_view wall now (patch_Apply p m))
    = if String.eqb (TrimSpace r) "drained" then BaseStateDrained else BaseStateAsleep).
  { rewrite view_base, E, Er. generalize (TrimSpace r). intros r'. vm_compute. done. }
  split; [exact Hb|]. rewrite view_capacity, Hb. by destruct (String.eqb _ _).
Qed.

Lemma quarantined_until wall now m p until :
  0 < now -> ns_second <= until < year_10000 -> mget (patch_Apply p m) "quarantined_until" = format_time until ->
  HasBlocker (metadata_view wall now (patch_Apply p m)) BlockerQuarantined = (now <? ns_second * (until / ns_second)).
Proof.
  intros Hn Hu E. rewrite view_blockers, E, deadline_format by done. unfold blocking, or_now, IsZero.
  by rewrite (proj2 (Z.eqb_neq now 0)) by lia.
Qed.

Lemma AcknowledgeDrain_lands wall now m fresh : lands wall now m (AcknowledgeDrainPatch fresh) BaseStateDrained false.
Proof.
  assert (E : mget (patch_Apply (AcknowledgeDrainPatch fresh) m) "state" = StateDrained).
  { unfold AcknowledgeDrainPatch. destruct fresh; read_patch; done. }
  apply (lands_base wall now m (AcknowledgeDrainPatch fresh) BaseStateDrained). rewrite view_base, E.
  generalize (TrimSpace (mget (patch_Apply (AcknowledgeDrainPatch fresh) m) "sleep_reason")). intros r. vm_compute. done.
Qed.

Lemma PreWake_lands wall now m input : lands wall now m (PreWakePatch wall input) BaseStateCreating true.
Proof.
  assert (E : mget (patch_Apply (PreWakePatch wall input) m) "state" = StateCreating).
  { unfold PreWakePatch. destruct (pw_FreshWake input); read_patch; done. }
  apply (lands_base wall now m (PreWakePatch wall input) BaseStateCreating). rewrite view_base, E.
  generalize (TrimSpace (mget (patch_Apply (PreWakePatch wall input) m) "sleep_reason")). intros r. vm_compute. done.
Qed.

Lemma retired_released wall now t m reason identity :
  let m' := patch_Apply (RetireNamedSessionPatch t reason identity) m in
  lands wall now m (RetireNamedSessionPatch t reason identity) BaseStateArchived false /\ eligible_of m' = false
  /\ LifecycleIdentityReleased wall "open" m' = true /\ ci_Present (CanonicalIdentityFromMetadata m') = false.
Proof.
  cbn zeta. set (m' := patch_Apply _ m).
  assert (mget m' "state" = StateArchived /\ mget m' "continuity_eligible" = "false" /\ mget m' "alias" = "" /\ mget m' "session_name" = ""
    /\ mget m' "session_name_explicit" = "" /\ mget m' "canonical_instance_name" = "") as (E1 & E2 & E3 & E4 & E5 & E6).
  { subst m'. unfold RetireNamedSessionPatch, ArchivePatch. read_patch. destruct (String.eqb identity ""); cbn [negb]; read_patch; done. }
  assert (He : eligible_of m' = false).
  { unfold eligible_of. rewrite E1, E2. generalize (TrimSpace (mget m' "sleep_reason")). intros r. vm_compute. done. }
  split; [|split; [done|split]].
  - apply (lands_base wall now m (RetireNamedSessionPatch t reason identity) BaseStateArchived). rewrite view_base. fold m'. rewrite E1.
    generalize (TrimSpace (mget m' "sleep_reason")). intros r. vm_compute. done.
  - unfold LifecycleIdentityReleased. change (view_of wall 0 _) with (metadata_view wall 0 m'). rewrite view_eligible, He.
    unfold LifecycleIdentifiersReleased. by rewrite E3, E4, E5.
  - unfold CanonicalIdentityFromMetadata. by rewrite E6.
Qed.

Lemma CanonicalCloseReason_long code : (20 <= String.length (CanonicalCloseReason code))%nat.
Proof.
  unfold CanonicalCloseReason. repeat (destruct (String.eqb code _); [vm_compute; lia|]). destruct (Nat.leb_spec 20 (String.length code)); [done|].
  rewrite string_length_app. cbn. lia.
Qed.

Lemma closed_conflict wall m : LifecycleWakeConflictState wall "closed" m = Some BaseStateClosed.
Proof.
  unfold LifecycleWakeConflictState, lifecycleWakeConflictState.
  assert (lv_BaseState (view_of wall 0 (LifecycleInputFromMetadata "closed" m)) = BaseStateClosed) as ->; [|done].
  unfold view_of, ProjectLifecycle. cbv zeta. cbn [li_p li_x].
  destruct (projectRuntimeProjection _ _ _ _ _ _ _) as [[? ?] ?], (projectBlockers _ _ _ _ _) as [[? ?] ?]. reflexivity.
Qed.

(** (C21) The transitions that wake, start, drain, put to sleep, archive, retire, quarantine,
    reactivate and close a session land where they say.  Whatever the metadata was, the bead
    such a patch leaves projects to the state the patch is named for: a requested wake is
    start-pending, has nothing blocking it and is wanted running; a started wake, a
    confirmed start and a drain hold their slot in the capacity; a session that is put to
    sleep, drained, archived or quarantined off a rate limit gives it back; a retired named
    session has let its identity go, the names and the canonical record both; a
    quarantined one is blocked until the very second it was quarantined to; and a closed
    one has a reason of the twenty characters the validation of closes asks for, and is not
    to be woken. *)
Theorem transitions_land wall now m t :
  0 < now ->
  (forall reason, let v := metadata_view wall now (patch_Apply (RequestWakePatch wall reason t) m) in
     lands wall now m (RequestWakePatch wall reason t) BaseStateStartPending true
     /\ lv_Blockers v = [] /\ HasWakeCause v WakeCausePendingCreate = true /\ lv_DesiredState v = DesiredStateRunning)
  /\ (forall input, lands wall now m (PreWakePatch wall input) BaseStateCreating true)
  /\ lands wall now m (ConfirmStartedPatch wall t) BaseStateActive true
  /\ (forall reason, lands wall now m (BeginDrainPatch t reason) BaseStateDraining true)
  /\ lands wall now m (DrainAckStopPendingPatch t) BaseStateDraining true
  /\ (forall reason fresh, let base := if String.eqb (TrimSpace reason) "drained" then BaseStateDrained else BaseStateAsleep in
        lands wall now m (SleepPatch t reason) base false /\ lands wall now m (CompleteDrainPatch t reason fresh) base false)
  /\ (forall fresh, lands wall now m (AcknowledgeDrainPatch fresh) BaseStateDrained false)
  /\ (forall reason keep, lands wall now m (ArchivePatch t reason keep) BaseStateArchived false
        /\ eligible_of (patch_Apply (ArchivePatch t reason keep) m) = keep)
  /\ (forall reason identity, let m' := patch_Apply (RetireNamedSessionPatch t reason identity) m in
        lands wall now m (RetireNamedSessionPatch t reason identity) BaseStateArchived false /\ eligible_of m' = false
        /\ LifecycleIdentityReleased wall "open" m' = true /\ ci_Present (CanonicalIdentityFromMetadata m') = false)
  /\ (forall cycle, ns_second <= t < year_10000 ->
        lands wall now m (QuarantinePatch t cycle) BaseStateQuarantined true
        /\ HasBlocker (metadata_view wall now (patch_Apply (QuarantinePatch t cycle) m)) BlockerQuarantined = (now <? ns_second * (t / ns_second)))
  /\ (ns_second <= t < year_10000 ->
        lands wall now m (RateLimitQuarantinePatch t) BaseStateAsleep false
        /\ HasBlocker (metadata_view wall now (patch_Apply (RateLimitQuarantinePatch t) m)) BlockerQuarantined = (now <? ns_second * (t / ns_second)))
  /\ (forall keep, eligible_of (patch_Apply (ReactivatePatch keep) m) = keep
        /\ HasBlocker (metadata_view wall now (patch_Apply (ReactivatePatch keep) m)) BlockerQuarantined = false)
  /\ (forall code, (20 <= String.length (mget (patch_Apply (ClosePatch t code) m) "close_reason"))%nat
        /\ LifecycleWakeConflictState wall "closed" (patch_Apply (ClosePatch t code) m) = Some BaseStateClosed).
Proof.
  intros Hn. split; [intros reason; apply RequestWake_lands|].
  split; [intros input; apply PreWake_lands|].
  split; [apply lands_base; unfold ConfirmStartedPatch; base_state|].
  split; [intros reason; apply lands_base; unfold BeginDrainPatch; base_state|].
  split; [apply lands_base; unfold DrainAckStopPendingPatch, BeginDrainPatch; base_state|].
  split.
  { intros reason fresh. split.
    - apply asleep_lands; unfold SleepPatch; read_patch; done.
    - apply asleep_lands; unfold CompleteDrainPatch, SleepPatch; destruct fresh; read_patch; done. }
  split; [intros fresh; apply AcknowledgeDrain_lands|].
  split; [intros reason []; (split; [apply (lands_base wall now m _ BaseStateArchived); unfold ArchivePatch; base_state|
    unfold eligible_of, ArchivePatch; read_patch; vm_compute; reflexivity])|].
  split; [intros reason identity; apply retired_released|].
  split.
  { intros cycle Ht. split; [apply lands_base; unfold QuarantinePatch; base_state|]. apply quarantined_until; [done..|].
    unfold QuarantinePatch. read_patch. done. }
  split.
  { intros Ht. split; [|apply quarantined_until; [done..|]; unfold RateLimitQuarantinePatch; read_patch; done].
    apply (asleep_lands wall now m (RateLimitQuarantinePatch t) SleepReasonRateLimit); unfold RateLimitQuarantinePatch; read_patch; done. }
  split; [|intros code; split; [unfold ClosePatch; read_patch; apply CanonicalCloseReason_long|apply closed_conflict]].
  intros keep. split.
  - unfold eligible_of, ReactivatePatch. read_patch. generalize (TrimSpace (mget m "sleep_reason")). intros r.
    change (projectBaseState "open" (TrimSpace StateAsleep) r) with (if String.eqb r "drained" then BaseStateDrained else BaseStateAsleep).
    by destruct (String.eqb r "drained"), keep.
  - rewrite view_blockers. unfold ReactivatePatch. read_patch. by rewrite deadline_empty.
Qed.

End landing.

(** * The laws hold of the decimal notation *)

Lemma all_digits_app a b : all_digits (a +:+ b) = all_digits a && all_digits b.
Proof. induction a as [|c a IH]; [done|]. change (String c a +:+ b) with (String c (a +:+ b)). cbn [all_digits]. by rewrite IH, andb_assoc. Qed.

Lemma all_digits_rev s : all_digits (string_rev s) = all_digits s.
Proof.
  induction s as [|c s IH]; [done|]. change (String c s) with (String c "" +:+ s). rewrite string_rev_app, !all_digits_app, IH.
  rewrite andb_comm. cbn. by rewrite andb_true_r.
Qed.

Definition starts_spaced (r : string) : bool := match r with EmptyString => false | String c _ => negb (is_digit c) end.

Lemma strip_digits runes s : forallb starts_spaced runes = true -> all_digits s = true -> strip_space runes s = None.
Proof.
  intros Hr Hs. apply strip_space_none, Forall_forall. intros r Hin. rewrite forallb_forall in Hr.
  specialize (Hr r (proj1 (list_elem_of_In _ _) Hin)). destruct r as [|c r]; [done|]. cbn in Hr. destruct s as [|d s]; [done|]. cbn in Hs |- *.
  destruct (Ascii.eqb_spec c d) as [->|Hne]; [|done]. apply andb_prop in Hs as [Hd _]. by rewrite Hd in Hr.
Qed.

Lemma TrimSpace_digits s : all_digits s = true -> TrimSpace s = s.
Proof.
  intros Hs. unfold TrimSpace. rewrite (trim_left_none space_runes) by (by apply strip_digits).
  rewrite (trim_left_none (map string_rev space_runes)); [apply string_rev_involutive|]. apply strip_digits; [done|]. by rewrite all_digits_rev.
Qed.

#[export] Instance digit_time_laws : @TimeLaws digit_time.
Proof.
  split; cbn.
  - intros t. apply TrimSpace_digits, Itoa_digits. pose proof (Z.mod_pos_bound (Z.max 0 (t / 1000000000)) (2 ^ 63)). lia.
  - intros t. apply Itoa_nonempty.
  - intros t Ht. unfold year_10000, ns_second in *.
    assert (0 <= t / 1000000000 < 315537897600).
    { split; [apply Z.div_pos; lia|apply Z.div_lt_upper_bound; lia]. }
    rewrite Z.max_r, Z.mod_small, Atoi_Itoa by (unfold min_int64, max_int64; lia). done.
  - done.
Qed.

Lemma readers_agree_witness :
  let i := @infoFromPersistedBead digit_time example_bead in
  TrimSpace (bd_Status example_bead) = bd_Status example_bead
  /\ @LifecycleDisplayReasonWithLivenessInfo digit_time 5 i 7 None
     = @LifecycleDisplayReasonWithLiveness digit_time 5 "open" (bd_Metadata example_bead) 7 (field i "SessionName") None.
Proof. split; [reflexivity|]. exact (proj1 (@readers_agree digit_time 5 7 example_bead None eq_refl)). Defined.

Lemma transitions_land_witness :
  let v := @metadata_view digit_time 5 7 (patch_Apply (@RequestWakePatch digit_time 5 "work" 6) (bd_Metadata example_bead)) in
  0 < 7 /\ lv_Blockers v = [] /\ lv_DesiredState v = DesiredStateRunning.
Proof.
  split; [lia|]. destruct (proj1 (@transitions_land digit_time digit_time_laws 5 7 (bd_Metadata example_bead) 6 ltac:(lia)) "work") as (_ & Hb & _ & Hd).
  exact (conj Hb Hd).
Defined.
