(* ===== verification/SessionReap.v ===== *)
(** What the reconciler makes of a session's runtime (cmd/gc/session_reconcile.go and the
    pending-create leases of session_reconciler.go): the healing of the advisory state, the
    expiry of timers, and the counting of crashes and of churn, each a write to the session's
    bead and the fold of that write onto the snapshot the tick reads. *)
From Stdlib Require Import Ascii.
From S2P Require Import Prelude GoStd BeadQuery SessionMachine SessionInfo SessionLifecycle SessionPatch.
Import beads session sessioninfo lifecycle transition.

Module reap.

(** * The session store *)

(** The bead's metadata and how the next writes end: a write past the list succeeds. *)
Record Front : Type := mkFront { fr_meta : gmap string string; fr_writes : list bool }.

(** A batch write of the store, atomic. *)
Definition write_batch (p : gmap string string) (w : Front) : Front * bool :=
  match fr_writes w with
  | false :: ws => (mkFront (fr_meta w) ws, false)
  | true :: ws => (mkFront (p ∪ fr_meta w) ws, true)
  | [] => (mkFront (p ∪ fr_meta w) [], true)
  end.

Definition empty_patch (p : gmap string string) : bool := bool_decide (p = ∅).

(** Store.ApplyPatch and Store.SetMarker *)
Definition front_ApplyPatch (p : gmap string string) (w : Front) : Front * bool :=
  if empty_patch p then (w, true) else write_batch p w.
Definition front_SetMarker (key value : string) (w : Front) : Front * bool := write_batch {[key := value]} w.

Section reap.
Context `{TimeText} `{UnicodeTables}.

(** Info.ApplyPatch of a map: whatever order it is iterated in (snapshot_coherent). *)
Definition fold_patch (p : gmap string string) (i : Info) : Info := info_ApplyPatch (map_to_list p) i.

(** Store.ApplyPatchInfo: the Info moves only with the store. *)
Definition front_ApplyPatchInfo (i : Info) (p : gmap string string) (w : Front) : Front * Info * bool :=
  if empty_patch p then (w, i, true)
  else let '(w, ok) := front_ApplyPatch p w in if ok then (w, fold_patch p i, true) else (w, i, false).

(** A write whose error is dropped, folded whether or not it persisted. *)
Definition write_and_fold (p : gmap string string) (s : Front * Info) : Front * Info :=
  ((front_ApplyPatch p s.1).1, fold_patch p s.2).
Definition mark_and_fold (key value : string) (s : Front * Info) : Front * Info :=
  ((front_SetMarker key value s.1).1, fold_patch {[key := value]} s.2).

(** * Times and counters *)

Definition Second : Z := 1000000000.
Definition Minute : Z := 60 * Second.

Definition stabilityThreshold : Z := 30 * Second.
Definition defaultQuarantineDuration : Z := 5 * Minute.
Definition defaultRateLimitQuarantineDuration : Z := 30 * Minute.
Definition defaultMaxWakeAttempts : Z := 5.
Definition churnProductivityThreshold : Z := 5 * Minute.
Definition defaultMaxChurnCycles : Z := 3.
Definition staleCreatingStateTimeout : Z := Minute.
Definition pendingCreateNeverStartedTimeout : Z := 10 * Minute.
Definition staleKeyDetectDelay : Z := 2 * Second.

Definition parseRFC3339Metadata (v : string) : option Z :=
  let v := TrimSpace v in
  if String.eqb v "" then None
  else match parse_time v with Some t => if IsZero t then None else Some t | None => None end.

(** What strconv.Atoi returns beside its error: the nearest int out of range, zero of what
    is no number. *)
Definition Atoi_value (s : string) : Z :=
  let clamp n := Z.max min_int64 (Z.min n max_int64) in
  let signed :=
    match s with
    | String c s' => if Ascii.eqb c "-" then Z.opp <$> parse_digits s' else if Ascii.eqb c "+" then parse_digits s' else parse_digits s
    | EmptyString => None
    end in
  match signed with Some n => clamp n | None => 0 end.

(** * Pending-create leases *)

(** The clock of a caller, and the wall clock the code falls back to. *)
Definition clock_now (wall : Z) (clk : option Z) : Z := default wall clk.

Definition pendingCreateStartInFlightInfo (wall : Z) (i : Info) (clk : option Z) (startupTimeout : Z) : bool :=
  if negb (flag i "PendingCreateClaim") && negb (String.eqb (TrimSpace (field i "MetadataState")) StateCreating) then false
  else
    let lastWoke := TrimSpace (field i "LastWokeAt") in
    if String.eqb lastWoke "" then false
    else match parse_time lastWoke with
         | None => false
         | Some started =>
             let startupTimeout := if startupTimeout <=? 0 then Minute else startupTimeout in
             clock_now wall clk <? started + (startupTimeout + staleKeyDetectDelay + 5 * Second)
         end.

Definition pendingCreateAttemptStaleInfo (i : Info) (clk : option Z) : bool :=
  match clk with
  | None => false
  | Some now =>
      match parseRFC3339Metadata (field i "PendingCreateStartedAt") with
      | Some started => negb (now <? started + staleCreatingStateTimeout)
      | None => if IsZero (if_CreatedAt i) then true else negb (now <? if_CreatedAt i + staleCreatingStateTimeout)
      end
  end.

Definition staleCreatingStateInfo (i : Info) (clk : option Z) : bool :=
  match clk with
  | None => false
  | Some _ => if negb (String.eqb (TrimSpace (field i "MetadataState")) StateCreating) then false else pendingCreateAttemptStaleInfo i clk
  end.

Definition sessionStartRequestedInfo (i : Info) (clk : option Z) : bool :=
  if String.eqb (TrimSpace (field i "MetadataState")) StateStartPending then true
  else if flag i "PendingCreateClaim" then true
  else if negb (String.eqb (TrimSpace (field i "MetadataState")) "creating") then false
  else negb (staleCreatingStateInfo i clk).

Definition pendingCreateQueuedOrCreatingState (state : string) : bool := one_of (TrimSpace state) [StateStartPending; StateCreating].

Definition pendingCreateRollbackState (state : string) : bool :=
  if pendingCreateQueuedOrCreatingState state then true else String.eqb (TrimSpace state) StateAsleep.

Definition pendingCreateNeverStartedLeaseExpiredInfo (wall : Z) (i : Info) (clk : option Z) : bool :=
  if negb (flag i "PendingCreateClaim") then false
  else if negb (String.eqb (TrimSpace (field i "LastWokeAt")) "") then false
  else
    let anchor := default (if_CreatedAt i) (parseRFC3339Metadata (field i "PendingCreateStartedAt")) in
    if IsZero anchor then true else anchor + pendingCreateNeverStartedTimeout <? clock_now wall clk.

Definition pendingCreateNeverStartedExpiredInfo (wall : Z) (i : Info) (clk : option Z) : bool :=
  if negb (flag i "PendingCreateClaim") then false
  else if negb (pendingCreateRollbackState (field i "MetadataState")) then false
  else pendingCreateNeverStartedLeaseExpiredInfo wall i clk.

Definition pendingCreateLeaseActiveInfo (wall : Z) (i : Info) (clk : option Z) (startupTimeout : Z) : bool :=
  if negb (flag i "PendingCreateClaim") then false
  else if pendingCreateStartInFlightInfo wall i clk startupTimeout then true
  else if String.eqb (TrimSpace (field i "LastWokeAt")) "" then negb (pendingCreateNeverStartedLeaseExpiredInfo wall i clk)
  else negb (pendingCreateAttemptStaleInfo i clk).

Definition pendingCreateLeaseExpiredForRollbackInfo (wall : Z) (i : Info) (clk : option Z) (startupTimeout : Z) : bool :=
  if negb (flag i "PendingCreateClaim") then false
  else
    let state := TrimSpace (field i "MetadataState") in
    if negb (pendingCreateRollbackState state) then false
    else if String.eqb state StateAsleep then
      if String.eqb (TrimSpace (field i "LastWokeAt")) "" then pendingCreateNeverStartedExpiredInfo wall i clk else pendingCreateAttemptStaleInfo i clk
    else if pendingCreateStartInFlightInfo wall i clk startupTimeout then false
    else if String.eqb (TrimSpace (field i "LastWokeAt")) "" then pendingCreateNeverStartedExpiredInfo wall i clk
    else pendingCreateAttemptStaleInfo i clk.

(** * Healing the advisory state *)

(** A session in a state the reconciler does not know is left alone by the tick. *)
Definition knownSessionStates : list string :=
  ["active"; "asleep"; "awake"; "stopped"; "suspended"; "orphaned"; "closed"; "quarantined"; StateStartPending; "creating"; "drained";
   StateFailedCreate; ""].
Definition isKnownStateInfo (i : Info) : bool := one_of (field i "MetadataState") knownSessionStates.

Definition clearPendingCreateLeaseInfo (pendingClaim : bool) (batch : gmap string string) : gmap string string :=
  if pendingClaim then <["pending_create_started_at" := ""]> (<["pending_create_claim" := ""]> batch) else batch.

Definition isNamedSessionInfo (i : Info) : bool := flag i "ConfiguredNamedSession".
Definition namedSessionModeInfo (i : Info) : string := TrimSpace (field i "ConfiguredNamedMode").

Definition heal_external (i : Info) (alive : bool) (clk : option Z) : External :=
  mkExternal (mkRuntimeFacts true alive false false) (mkNamedIdentity "" false false false false) [] false false (if_CreatedAt i)
    (match clk with Some _ => staleCreatingStateTimeout | None => 0 end) (default 0 clk).

Definition heal_view (wall : Z) (i : Info) (alive : bool) (clk : option Z) : LifecycleView :=
  ProjectLifecycle wall (mkLifecycleInput (LifecycleInputFromInfo i) (heal_external i alive clk)).

(** The batch of a state to move to: the tail of the function, past the early returns. *)
Definition heal_to (i : Info) (resetContinuation rollback : bool) (target : string) (batch : gmap string string) : gmap string string :=
  let asleep := String.eqb target StateAsleep in
  let reset := resetContinuation || rollback in
  let noReason := String.eqb (TrimSpace (field i "SleepReason")) "" in
  let batch := if negb (String.eqb (field i "MetadataState") target) then
                 let batch := <["state" := target]> batch in
                 if asleep && reset && noReason then <["sleep_reason" := SleepReasonRuntimeMissing]> batch else batch
               else batch in
  if asleep then
    let batch := if noReason && String.eqb (TrimSpace (field i "MetadataState")) "failed-create"
                 then <["sleep_reason" := SleepReasonFailedCreate]> batch else batch in
    if reset && (negb (isNamedSessionInfo i) || negb (String.eqb (namedSessionModeInfo i) "always")) then
      <[PromptHashMetadataKey := ""]> (<[PrimingAttemptedAtMetadataKey := ""]> (<[PrimedAtMetadataKey := ""]>
        (<["continuation_reset_pending" := "true"]> (<["started_config_hash" := ""]> (<["session_key" := ""]> batch)))))
    else batch
  else batch.

(** A nil batch is the empty one. *)
Definition healStatePatchWithRollbackInfo (wall : Z) (i : Info) (alive : bool) (clk : option Z) (startupTimeout : Z) (rollbackAvailable : bool)
  : gmap string string :=
  let view := heal_view wall i alive clk in
  let state := TrimSpace (field i "MetadataState") in
  if negb alive && String.eqb (lv_BaseState view) BaseStateDrained then
    let batch := if negb (String.eqb state StateAsleep) then {["state" := StateAsleep]} else ∅ in
    if String.eqb (TrimSpace (field i "SleepReason")) "" then <["sleep_reason" := SleepReasonDrained]> batch else batch
  else
    let target := lv_ReconciledState view in
    let target := if String.eqb target "" && String.eqb (lv_BaseState view) BaseStateNone then
                    if alive then StateAwake else if sessionStartRequestedInfo i clk then StateStartPending else StateAsleep
                  else target in
    let failed := negb alive && String.eqb state "failed-create" in
    if failed && flag i "PendingCreateClaim" && pendingCreateLeaseActiveInfo wall i clk 0 then ∅
    else
      let batch := if failed then clearPendingCreateLeaseInfo (flag i "PendingCreateClaim") ∅ else ∅ in
      let target := if failed then StateAsleep else target in
      let rollback := rollbackAvailable && negb alive && String.eqb state "creating" && pendingCreateLeaseExpiredForRollbackInfo wall i clk startupTimeout in
      let batch := if rollback then clearPendingCreateLeaseInfo (flag i "PendingCreateClaim") batch else batch in
      let target := if rollback then StateAsleep else target in
      if String.eqb target "" then ∅ else heal_to i (lv_ResetContinuation view) rollback target batch.

(** The batch applied, and none on an error. *)
Definition healStateWithRollbackInfo (wall : Z) (i : Info) (alive : bool) (clk : option Z) (startupTimeout : Z) (rollbackAvailable : bool) (w : Front)
  : Front * option (gmap string string) :=
  if if_Closed i then (w, Some ∅)
  else
    let batch := healStatePatchWithRollbackInfo wall i alive clk startupTimeout rollbackAvailable in
    let '(w, ok) := front_ApplyPatch batch w in
    (w, if ok then Some batch else None).

(** * Expired timers *)

Definition expired (now : Z) (raw : string) : bool :=
  if String.eqb raw "" then false
  else match parse_time raw with Some t => negb (IsZero t) && (t <? now) | None => false end.

Definition healExpiredTimersInfo (now : Z) (i : Info) (w : Front) : Front * Info :=
  let clear patch (s : Front * Info) := (front_ApplyPatchInfo s.2 (patch (field s.2 "SleepReason")) s.1).1 in
  let s := if expired now (field i "HeldUntil") then clear ClearExpiredHoldPatch (w, i) else (w, i) in
  if expired now (field s.2 "QuarantinedUntil") then clear ClearExpiredQuarantinePatch s else s.

(** * Provider screens *)

Definition lineContainsAll (content : string) (subs : list string) : bool :=
  existsb (fun line => forallb (Contains line) subs) (split_on "010" content).

Fixpoint windows (maxSpan : nat) (lines : list string) : list (list string) :=
  match lines with [] => [] | _ :: rest => firstn maxSpan lines :: windows maxSpan rest end.

Definition linesContainAllWithin (content : string) (maxSpan : nat) (subs : list string) : bool :=
  if (maxSpan <? 1)%nat || bool_decide (subs = []) then false
  else existsb (fun window => forallb (Contains (join_with (String "010" "") window)) subs) (windows maxSpan (split_on "010" content)).

Definition spendLimitModalWindowLines : nat := 6.

Definition containsClaudeSpendLimitModal (content : string) : bool :=
  linesContainAllWithin content spendLimitModalWindowLines ["Usage credit balance"; "Adjust monthly spend limit"; "Wait for limit to reset"].

Definition ContainsProviderRateLimitScreen (content : string) : bool :=
  if Contains content "Usage limit reached" || Contains content "You've hit your limit" || Contains content "/rate-limit-options" then true
  else if containsClaudeSpendLimitModal content then true
  else Contains (ToLower content) "rate limit" && Contains content "Keep trying" && Contains content "Stop".

Definition ProviderTerminalErrorReason (content : string) : string :=
  let lower := ToLower content in
  if Contains lower "model_not_found" then "model_not_found"
  else if lineContainsAll lower ["model"; "not found"] then "model_not_found"
  else if Contains lower "insufficient_quota" then "quota_exceeded"
  else if Contains lower "quota_exceeded" then "quota_exceeded"
  else if Contains lower "quota exceeded" && negb (Contains lower "disk quota") then "quota_exceeded"
  else "".

(** * Crashes and churn *)

(** What the exits read of the city's configuration. *)
Record CitySession : Type := mkCity { ct_StartupTimeout : Z; ct_Provider : string }.

Definition sessionExitFactsInfo (i : Info) (cfg : option CitySession) (alive draining : bool) (now : Z) : ExitFacts :=
  let startupTimeout := match cfg with Some c => ct_StartupTimeout c | None => 0 end in
  let subprocess := match cfg with Some c => String.eqb (ct_Provider c) "subprocess" | None => false end in
  mkExitFacts alive subprocess draining (flag i "PendingCreateClaim") (pendingCreateStartInFlightInfo now i (Some now) startupTimeout)
    (field i "SleepReason") (field i "LastWokeAt") now stabilityThreshold churnProductivityThreshold false ScreenUnknown.

Definition with_screen (available : bool) (s : ScreenFact) (f : ExitFacts) : ExitFacts :=
  mkExitFacts (ef_Alive f) (ef_SubprocessProvider f) (ef_DrainPending f) (ef_PendingCreateClaim f) (ef_PendingCreateStartInFlight f)
    (ef_SleepReason f) (ef_LastWokeAt f) (ef_Now f) (ef_StabilityThreshold f) (ef_ProductivityThreshold f) available s.

Definition clearLastWokeAt (s : Front * Info) : Front * Info := mark_and_fold "last_woke_at" "" s.

Definition recordRateLimitQuarantine (now : Z) (s : Front * Info) : Front * Info * bool :=
  front_ApplyPatchInfo s.2 (RateLimitQuarantinePatch (now + defaultRateLimitQuarantineDuration)) s.1.

Definition terminal_error_batch (now : Z) (reason : string) : gmap string string :=
  literal [("state", StateAsleep); ("sleep_reason", SleepReasonProviderTerminalError); ("last_woke_at", ""); ("pending_create_claim", "");
    ("pending_create_started_at", ""); ("session_health", "unhealthy"); ("session_health_reason", reason); ("session_drainable", "true");
    ("provider_terminal_error", reason); ("provider_terminal_error_at", format_time now)].

Definition markProviderTerminalError (now : Z) (reason : string) (s : Front * Info) : Front * Info * bool :=
  let reason := TrimSpace reason in
  if String.eqb reason "" then (s, true) else front_ApplyPatchInfo s.2 (terminal_error_batch now reason) s.1.

(** A step of the loop: either the lane is done, or the screen is known. *)
Inductive Peeked : Type := Terminal (reason : string) | Screen (s : ScreenFact).

Definition peeked (content : option string) : Peeked :=
  match content with
  | None => Screen ScreenOther
  | Some c =>
      let reason := ProviderTerminalErrorReason c in
      if negb (String.eqb reason "") then Terminal reason
      else if ContainsProviderRateLimitScreen c then Screen ScreenRateLimit else Screen ScreenOther
  end.

(** The gathering loop: each turn peeks again, until the decider asks no more. *)
Fixpoint gather_screen (fuel : nat) (peek : option (nat -> option string)) (turn : nat) (f : ExitFacts) : option (ExitOutcome + string) :=
  match fuel with
  | O => None
  | S fuel =>
      match DecideSessionExit f, peek with
      | ExitGatherScreen, Some peek =>
          match peeked (peek turn) with
          | Terminal reason => Some (inr reason)
          | Screen s => gather_screen fuel (Some peek) (S turn) (with_screen (ef_ScreenAvailable f) s f)
          end
      | dec, _ => Some (inl dec)
      end
  end.

(** The snapshot, whether the lane handled the session, and whether a write failed. *)
Definition checkRateLimitStability (cfg : option CitySession) (alive draining : bool) (now : Z) (peek : option (nat -> option string)) (s : Front * Info)
  : Front * Info * bool * bool :=
  let facts := with_screen (match peek with Some _ => true | None => false end) ScreenUnknown (sessionExitFactsInfo s.2 cfg alive draining now) in
  match gather_screen 2 peek 0 facts with
  | Some (inr reason) =>
      let '(w, i, ok) := markProviderTerminalError now reason s in
      if ok then (w, i, true, false) else (w, s.2, false, true)
  | Some (inl ExitRateLimitQuarantine) =>
      let '(w, i, ok) := recordRateLimitQuarantine now s in
      if ok then (w, i, true, false) else (w, s.2, false, true)
  | _ => (s, false, false)
  end.

Definition recordWakeFailure (now : Z) (s : Front * Info) : Front * Info :=
  let attempts := Atoi_value (field s.2 "WakeAttemptsMetadata") in
  let s := if negb (String.eqb (field s.2 "SessionKey") "") || negb (String.eqb (field s.2 "StartedConfigHash") "")
           then write_and_fold (ConversationResetPatch true) s else s in
  let accrual := WakeFailureAccrualPatch attempts defaultMaxWakeAttempts (now + defaultQuarantineDuration) in
  if ea_Quarantined accrual then (front_ApplyPatchInfo s.2 (ea_Patch accrual) s.1).1
  else mark_and_fold "wake_attempts" (mget (ea_Patch accrual) "wake_attempts") s.

Definition checkStability (cfg : option CitySession) (alive draining : bool) (now : Z) (peek : option (nat -> option string)) (s : Front * Info)
  : Front * Info * bool :=
  let '(s', handled, failed) := checkRateLimitStability cfg alive draining now peek s in
  if handled || failed then (s', true)
  else if bool_decide (DecideSessionExit (sessionExitFactsInfo s'.2 cfg alive draining now) = ExitRapidCrash)
       then (clearLastWokeAt (recordWakeFailure now s'), true)
       else (s', false).

Definition clearWakeFailures (s : Front * Info) : Front * Info :=
  let raw := field s.2 "WakeAttemptsMetadata" in
  let batch : gmap string string := if negb (String.eqb raw "") && negb (String.eqb raw "0") then {["wake_attempts" := "0"]} else ∅ in
  let batch := if negb (String.eqb (field s.2 "QuarantinedUntil") "") then <["quarantined_until" := ""]> batch else batch in
  if empty_patch batch then s else (front_ApplyPatchInfo s.2 batch s.1).1.

Definition recordChurn (now : Z) (s : Front * Info) : Front * Info :=
  let count := Atoi_value (field s.2 "ChurnCount") in
  let s := if negb (String.eqb (field s.2 "SessionKey") "") then write_and_fold (ConversationResetPatch false) s else s in
  let accrual := ChurnAccrualPatch count defaultMaxChurnCycles (now + defaultQuarantineDuration) in
  if ea_Quarantined accrual then (front_ApplyPatchInfo s.2 (ea_Patch accrual) s.1).1
  else mark_and_fold "churn_count" (mget (ea_Patch accrual) "churn_count") s.

Definition clearChurn (s : Front * Info) : Front * Info :=
  let raw := field s.2 "ChurnCount" in
  if String.eqb raw "" || String.eqb raw "0" then s else mark_and_fold "churn_count" "0" s.

Definition checkChurn (cfg : option CitySession) (alive draining : bool) (now : Z) (s : Front * Info) : Front * Info * bool :=
  match DecideSessionExit (sessionExitFactsInfo s.2 cfg alive draining now) with
  | ExitChurn => (clearLastWokeAt (recordChurn now s), true)
  | ExitProductiveDeath => (clearChurn s, false)
  | _ => (s, false)
  end.

Definition long_enough (threshold now : Z) (i : Info) : bool :=
  match parseWakeStamp (field i "LastWokeAt") with Some t => threshold <=? now - t | None => false end.
Definition stableLongEnoughInfo (i : Info) (now : Z) : bool := long_enough stabilityThreshold now i.
Definition productiveLongEnoughInfo (i : Info) (now : Z) : bool := long_enough churnProductivityThreshold now i.

Definition sessionWakeAttemptsInfo (i : Info) : Z := Atoi_value (field i "WakeAttemptsMetadata").

Definition sessionIsQuarantinedInfo (i : Info) (now : Z) : bool :=
  let q := field i "QuarantinedUntil" in
  if String.eqb q "" then false else match parse_time q with Some t => now <? t | None => false end.

(** * Resets of the conversation *)

(** resetConfiguredNamedSessionForConfigDriftInfo, once the runtime has been told to stop:
    generated is the new session key, none when generating one failed. *)
Definition config_drift_batch (wall : Z) (i : Info) (nextState : string) (generated : option string) (now : Z) : gmap string string :=
  let nextState := if String.eqb nextState "" then "asleep" else nextState in
  let priorSessionKey := TrimSpace (field i "SessionKey") in
  let priorStartedConfigHash := TrimSpace (field i "StartedConfigHash") in
  let preserveResume := one_of nextState [StateStartPending; StateCreating] && negb (String.eqb priorSessionKey "")
                        && negb (String.eqb priorStartedConfigHash "") in
  let rotatedSessionKey := if preserveResume then priorSessionKey else default "" generated in
  let batch := ConfigDriftResetPatch wall nextState rotatedSessionKey now in
  let batch := if preserveResume then <["started_config_hash" := priorStartedConfigHash]> batch else batch in
  assign_all ["config_drift_deferred_at"; "config_drift_deferred_key"; "attached_config_drift_deferred_at"; "attached_config_drift_deferred_key"] "" batch.

Definition resetConfiguredNamedSessionForConfigDriftInfo (wall : Z) (i : Info) (nextState : string) (generated : option string) (now : Z) (w : Front)
  : Front * option (gmap string string) :=
  let batch := config_drift_batch wall i nextState generated now in
  let '(w, ok) := front_ApplyPatch batch w in (w, if ok then Some batch else None).

Definition clearStaleResumeKeyMetadata : gmap string string :=
  literal [("session_key", ""); ("started_config_hash", ""); ("continuation_reset_pending", "true"); (PrimedAtMetadataKey, "");
    (PrimingAttemptedAtMetadataKey, ""); (PromptHashMetadataKey, "")].

(** Manager.clearStaleResumeMetadata: a write for each key, up to the first that fails. *)
Fixpoint set_each (kvs : list (string * string)) (w : Front) : Front * bool :=
  match kvs with
  | [] => (w, true)
  | (k, v) :: kvs => let '(w, ok) := front_SetMarker k v w in if ok then set_each kvs w else (w, false)
  end.

Definition clearStaleResumeMetadata (w : Front) : Front * bool :=
  set_each ([("session_key", ""); ("started_config_hash", ""); ("continuation_reset_pending", "true")] ++ map (fun k => (k, "")) primingResetKeys) w.

End reap.
End reap.
