(* ===== verification/SessionReapProps.v ===== *)
(** The reconciler's care of a session: healing settles, a death is counted once and the
    fifth rapid one quarantines, and the priming markers never outlive the hash of the
    configuration they were written with. *)
From Stdlib Require Import Ascii.
From S2P Require Import Prelude GoStd BeadQuery SessionMachine SessionInfo SessionLifecycle SessionPatch SessionLifeProps SessionReap HandText.
Import beads session sessioninfo lifecycle transition reap.

#[local] Opaque infoFromPersistedBead field flag.

Section heal.
Context `{TimeText} `{UnicodeTables}.
Implicit Type b : Bead.

(** * The view of the healer *)

(** A bead with its metadata patched. *)
Definition patched (p : gmap string string) b : Bead := set_Metadata (patch_Apply p (bd_Metadata b)) b.
Local Abbreviation meta b k := (mget (bd_Metadata b) k).
Local Abbreviation tmeta b k := (TrimSpace (mget (bd_Metadata b) k)).

Lemma metadata_set m b : bd_Metadata (set_Metadata m b) = m.
Proof. done. Qed.

Lemma metadata_patched p b : bd_Metadata (patched p b) = p ∪ bd_Metadata b.
Proof. done. Qed.

Lemma meta_patched p b k : meta (patched p b) k = mget (p ∪ bd_Metadata b) k.
Proof. done. Qed.

Definition open_base b : string := projectBaseState "" (tmeta b "state") (tmeta b "sleep_reason").

Lemma pending_cause p x : xf_WakeCauses x = [] -> one_of WakeCausePendingCreate (projectWakeCauses p x) = pf_PendingCreateClaim p.
Proof.
  intros Hx. unfold projectWakeCauses. rewrite Hx. cbn [fold_left].
  destruct (pf_PendingCreateClaim p), (String.eqb (TrimSpace (pf_WakeRequest p)) WakeCauseExplicit), (String.eqb (TrimSpace (pf_PinAwake p)) "true"),
    (rf_Attached (xf_Runtime x)), (rf_Pending (xf_Runtime x)); reflexivity.
Qed.

Definition healed_input b : Persisted := LifecycleInputFromMetadata "" (bd_Metadata b).

Lemma heal_input b : bd_Status b <> "closed" -> LifecycleInputFromInfo (infoFromPersistedBead b) = healed_input b.
Proof. intros Ho. rewrite input_twin. by rewrite (proj2 (String.eqb_neq _ _) Ho). Qed.

(** What the healer reads of the projection of an open bead. *)
Definition dead_runtime (wall : Z) b (clk : option Z) : string * bool :=
  let base := open_base b in
  let claim := is_true (meta b "pending_create_claim") in
  let reset := shouldResetContinuation base (healed_input b) (tmeta b "sleep_reason") in
  if one_of base [BaseStateNone; BaseStateClosed; BaseStateClosing] then (compatStateForBase base, false)
  else if String.eqb base BaseStateStartPending then (StateStartPending, false)
  else if String.eqb base BaseStateCreating then
    if claim && String.eqb (tmeta b "last_woke_at") "" then (StateStartPending, false)
    else if negb (creatingStateIsStale wall (healed_input b) (heal_external (infoFromPersistedBead b) false clk)) then (StateCreating, false)
    else (StateAsleep, reset)
  else if String.eqb base BaseStateFailedCreate then (StateFailedCreate, false)
  else if claim then (StateStartPending, false)
  else (StateAsleep, reset).

Lemma heal_view_parts wall b alive clk :
  bd_Status b <> "closed" ->
  let v := heal_view wall (infoFromPersistedBead b) alive clk in
  lv_BaseState v = open_base b
  /\ (lv_ReconciledState v, lv_ResetContinuation v) = if alive then (StateAwake, false) else dead_runtime wall b clk.
Proof.
  intros Ho. cbn zeta. unfold heal_view, ProjectLifecycle. cbv zeta. cbn [li_p li_x]. rewrite heal_input by done.
  destruct (projectRuntimeProjection _ _ _ _ _ _ _) as [[rt st] rs] eqn:R.
  destruct (projectBlockers _ _ _ _ _) as [[? ?] ?]. cbn [lv_BaseState lv_ReconciledState lv_ResetContinuation].
  unfold healed_input, LifecycleInputFromMetadata in R. cbn [pf_Status pf_StoredState pf_SleepReason] in R.
  split; [unfold open_base, healed_input, LifecycleInputFromMetadata; cbn [pf_Status pf_StoredState pf_SleepReason]; reflexivity|].
  unfold projectRuntimeProjection in R. rewrite pending_cause in R by reflexivity.
  cbn [heal_external xf_Runtime rf_Observed rf_Alive negb] in R.
  destruct alive; [by simplify_eq|]. unfold dead_runtime. cbv zeta. change (healed_input b) with (LifecycleInputFromMetadata "" (bd_Metadata b)).
  unfold open_base. revert R. unfold LifecycleInputFromMetadata. cbn [pf_PendingCreateClaim pf_LastWokeAt].
  repeat match goal with |- context [if ?c then _ else _] => destruct c end; by intros [= <- <- <-].
Qed.

(** * One heal *)

(** The state a heal decides on stands afterwards, written or already there. *)
Lemma heal_to_state b reset rollback target batch :
  mget (batch ∪ bd_Metadata b) "state" = meta b "state" ->
  mget (heal_to (infoFromPersistedBead b) reset rollback target batch ∪ bd_Metadata b) "state" = target.
Proof.
  intros Hb. unfold heal_to. cbv zeta. read_info. destruct (String.eqb_spec (meta b "state") target) as [E|Hne]; cbn [negb].
  - destruct (String.eqb target StateAsleep); [|by rewrite Hb].
    repeat match goal with |- context [if ?c then _ else _] => destruct c end; read_patch; by rewrite ?Hb.
  - repeat match goal with |- context [if ?c then _ else _] => destruct c end; read_patch; done.
Qed.

Lemma heal_to_same b reset rollback target :
  meta b "state" = target -> target <> StateAsleep -> heal_to (infoFromPersistedBead b) reset rollback target ∅ = ∅.
Proof.
  intros <- Hne. unfold heal_to. cbv zeta. read_info. rewrite String.eqb_refl. by rewrite (proj2 (String.eqb_neq _ _) Hne).
Qed.

Lemma heal_to_asleep b : meta b "state" = StateAsleep -> heal_to (infoFromPersistedBead b) false false StateAsleep ∅ = ∅.
Proof.
  intros E. unfold heal_to. cbv zeta. read_info. rewrite E. change (String.eqb (TrimSpace StateAsleep) "failed-create") with false.
  rewrite andb_false_r. done.
Qed.

Lemma cleared_state c p b : mget (clearPendingCreateLeaseInfo c p ∪ bd_Metadata b) "state" = mget (p ∪ bd_Metadata b) "state".
Proof. unfold clearPendingCreateLeaseInfo. destruct c; read_patch; done. Qed.

Context (wall : Z) (clk : option Z) (startup : Z) (available : bool).

Definition heal_batch (alive : bool) b : gmap string string :=
  healStatePatchWithRollbackInfo wall (infoFromPersistedBead b) alive clk startup available.

(** The healing of a live session. *)
Lemma heal_alive b : bd_Status b <> "closed" ->
  heal_batch true b = if String.eqb (meta b "state") StateAwake then ∅ else {["state" := StateAwake]}.
Proof.
  intros Ho. destruct (heal_view_parts wall b true clk Ho) as [_ E].
  pose proof (f_equal fst E : lv_ReconciledState (heal_view wall (infoFromPersistedBead b) true clk) = StateAwake) as Et.
  unfold heal_batch, healStatePatchWithRollbackInfo. cbv zeta.
  rewrite Et. cbn [negb andb]. change (String.eqb StateAwake "" && _) with false. cbv iota.
  rewrite !andb_false_r. cbn [andb]. change (String.eqb StateAwake "") with false. cbv iota.
  unfold heal_to. cbv zeta. read_info. destruct (String.eqb (meta b "state") StateAwake); reflexivity.
Qed.

(** ** A session whose runtime is gone *)

(** Which state the healer decides on, past the early returns. *)
Definition dead_target b : string :=
  let target := (dead_runtime wall b clk).1 in
  if String.eqb target "" && String.eqb (open_base b) BaseStateNone
  then (if sessionStartRequestedInfo (infoFromPersistedBead b) clk then StateStartPending else StateAsleep) else target.

Definition drained_batch b : gmap string string :=
  let batch := if negb (String.eqb (tmeta b "state") StateAsleep) then {["state" := StateAsleep]} else ∅ in
  if String.eqb (tmeta b "sleep_reason") "" then <["sleep_reason" := SleepReasonDrained]> batch else batch.

Definition rolls_back b : bool :=
  available && String.eqb (tmeta b "state") "creating"
  && pendingCreateLeaseExpiredForRollbackInfo wall (infoFromPersistedBead b) clk startup.

(** The claim of a failed create whose lease is still active. *)
Definition lease_active b : bool :=
  is_true (meta b "pending_create_claim") && pendingCreateLeaseActiveInfo wall (infoFromPersistedBead b) clk 0.

Lemma heal_dead b : bd_Status b <> "closed" ->
  heal_batch false b =
  if String.eqb (open_base b) BaseStateDrained then drained_batch b
  else
    let claim := is_true (meta b "pending_create_claim") in
    let failed := String.eqb (tmeta b "state") "failed-create" in
    if failed && lease_active b then ∅
    else
      let batch := if failed then clearPendingCreateLeaseInfo claim ∅ else ∅ in
      let batch := if rolls_back b then clearPendingCreateLeaseInfo claim batch else batch in
      let target := if rolls_back b then StateAsleep else if failed then StateAsleep else dead_target b in
      if String.eqb target "" then ∅
      else heal_to (infoFromPersistedBead b) (dead_runtime wall b clk).2 (rolls_back b) target batch.
Proof.
  intros Ho. destruct (heal_view_parts wall b false clk Ho) as [Eb E].
  pose proof (f_equal fst E : lv_ReconciledState (heal_view wall (infoFromPersistedBead b) false clk) = (dead_runtime wall b clk).1) as Et.
  pose proof (f_equal snd E : lv_ResetContinuation (heal_view wall (infoFromPersistedBead b) false clk) = (dead_runtime wall b clk).2) as Er.
  unfold heal_batch, healStatePatchWithRollbackInfo, drained_batch, rolls_back, dead_target, lease_active. cbv zeta. rewrite Eb, Et, Er. cbn [negb andb].
  read_info. rewrite !andb_true_r. rewrite !andb_assoc. reflexivity.
Qed.

(** Of the stored states only two project to another's name. *)
Lemma base_spec s r :
  projectBaseState "" s r = TrimSpace s \/ TrimSpace s = StateAwake \/ (TrimSpace s = StateAsleep /\ projectBaseState "" s r = BaseStateDrained).
Proof.
  unfold projectBaseState. change (String.eqb (TrimSpace "") "closed") with false. cbv iota zeta.
  generalize (TrimSpace s). intros t.
  repeat match goal with |- context [if String.eqb t ?x then _ else _] => destruct (String.eqb_spec t x) as [->|_]; [by left|] end.
  destruct (String.eqb_spec t StateActive) as [->|_]; [by left|]. destruct (String.eqb_spec t StateAwake) as [->|_]; [by right; left|]. cbn [orb].
  destruct (String.eqb_spec t StateAsleep) as [->|_]; [destruct (String.eqb r "drained"); [by right; right|by left]|].
  repeat match goal with |- context [if String.eqb t ?x then _ else _] => destruct (String.eqb_spec t x) as [->|_]; [by left|] end.
  by left.
Qed.

Lemma asleep_base r : projectBaseState "" (TrimSpace StateAsleep) r = if String.eqb r "drained" then BaseStateDrained else BaseStateAsleep.
Proof. vm_compute. done. Qed.

Lemma settled_pending b : bd_Status b <> "closed" -> meta b "state" = StateStartPending -> heal_batch false b = ∅.
Proof.
  intros Ho E. assert (Eb : open_base b = BaseStateStartPending) by (unfold open_base; by rewrite E).
  rewrite heal_dead by done. rewrite Eb. unfold rolls_back, dead_target, dead_runtime. rewrite Eb, E.
  change (String.eqb (TrimSpace StateStartPending) "failed-create") with false.
  change (String.eqb (TrimSpace StateStartPending) "creating") with false. rewrite andb_false_r. cbn [andb].
  by apply heal_to_same.
Qed.

Lemma settled_asleep b : bd_Status b <> "closed" -> meta b "state" = StateAsleep ->
  heal_batch false b = ∅ \/ heal_batch false b = {["state" := StateStartPending]}.
Proof.
  intros Ho E. rewrite heal_dead by done. destruct (String.eqb_spec (tmeta b "sleep_reason") "drained") as [Er|Er].
  - assert (Eb : open_base b = BaseStateDrained) by (unfold open_base; rewrite E, asleep_base; by rewrite Er). rewrite Eb. left.
    change (String.eqb BaseStateDrained BaseStateDrained) with true. unfold drained_batch. rewrite E, Er. reflexivity.
  - assert (Eb : open_base b = BaseStateAsleep).
    { unfold open_base. rewrite E, asleep_base. by rewrite (proj2 (String.eqb_neq _ _) Er). }
    rewrite Eb. unfold rolls_back, dead_target, dead_runtime. rewrite Eb, E.
    change (String.eqb (TrimSpace StateAsleep) "failed-create") with false. change (String.eqb (TrimSpace StateAsleep) "creating") with false.
    rewrite andb_false_r. cbn [andb]. destruct (is_true (meta b "pending_create_claim")).
    + right. unfold heal_to. cbv zeta. read_info. rewrite E. reflexivity.
    + left. assert (forall p r, shouldResetContinuation BaseStateAsleep p r = false) as Hr.
      { intros p r. unfold shouldResetContinuation. repeat match goal with |- context [if ?c then _ else _] => destruct c end; done. }
      cbv zeta. rewrite Hr. exact (heal_to_asleep b E).
Qed.

(** The stored states the healer leaves as they are or turns into another's. *)
Lemma dead_target_spec b :
  tmeta b "state" = meta b "state" -> dead_target b ∈ [StateStartPending; StateAsleep] \/ dead_target b = meta b "state".
Proof.
  intros Ht. unfold dead_target, dead_runtime. cbv zeta. pose proof (base_spec (tmeta b "state") (tmeta b "sleep_reason")) as Hs. fold (open_base b) in Hs.
  rewrite TrimSpace_idempotent, Ht in Hs.
  destruct (one_of (open_base b) _) eqn:E1.
  - unfold one_of in E1. cbn [existsb] in E1. rewrite orb_false_r, !orb_true_iff, !String.eqb_eq in E1. cbn [fst].
    assert (open_base b = meta b "state") as Ho.
    { destruct Hs as [Hs|[Hs|[_ Hs]]]; [done|exfalso|exfalso]; [unfold open_base in E1; rewrite Ht, Hs in E1|rewrite Hs in E1];
        destruct E1 as [E1|[E1|E1]]; discriminate E1. }
    destruct E1 as [E1|[E1|E1]]; rewrite E1.
    + left. change (String.eqb (compatStateForBase BaseStateNone) "" && String.eqb BaseStateNone BaseStateNone) with true. cbv iota.
      destruct (sessionStartRequestedInfo _ _); [left|right; left].
    + right. by rewrite <- Ho, E1.
    + right. by rewrite <- Ho, E1.
  - destruct (String.eqb_spec (open_base b) BaseStateStartPending) as [E2|E2]; [left; set_solver|].
    destruct (String.eqb_spec (open_base b) BaseStateCreating) as [E3|E3].
    { assert (meta b "state" = StateCreating) as ->
        by (destruct Hs as [Hs|[Hs|[_ Hs]]]; [by rewrite <- Hs|exfalso; unfold open_base in E3; rewrite Ht, Hs in E3; discriminate E3
          |rewrite Hs in E3; discriminate E3]).
      rewrite E3. rewrite andb_false_r.
      destruct (_ && String.eqb (tmeta b "last_woke_at") ""); [left; left|]. destruct (negb _); [by right|left; right; left]. }
    assert (String.eqb (open_base b) BaseStateNone = false) as En.
    { unfold one_of in E1. cbn [existsb] in E1. by apply orb_false_iff in E1 as [? _]. }
    rewrite En, andb_false_r. destruct (String.eqb_spec (open_base b) BaseStateFailedCreate) as [E4|E4].
    { right. destruct Hs as [Hs|[Hs|[_ Hs]]]; [by rewrite <- Hs, E4|exfalso; unfold open_base in E4; rewrite Ht, Hs in E4; discriminate E4
        |rewrite Hs in E4; discriminate E4]. }
    left. destruct (is_true _); [left|right; left].
Qed.

Lemma healed_asleep x : x = StateAsleep -> x ∈ [StateStartPending; StateAsleep].
Proof. intros ->. right. left. Qed.

(** A heal of a session whose runtime is gone leaves it as it was, asleep, or waiting for a
    start. *)
Lemma dead_first b :
  bd_Status b <> "closed" -> tmeta b "state" = meta b "state" ->
  heal_batch false b = ∅ \/ meta (patched (heal_batch false b) b) "state" ∈ [StateStartPending; StateAsleep].
Proof.
  intros Ho Ht. rewrite heal_dead by done. destruct (String.eqb (open_base b) BaseStateDrained).
  { right. apply healed_asleep. rewrite meta_patched. unfold drained_batch. rewrite Ht. destruct (String.eqb_spec (meta b "state") StateAsleep) as [E|E];
      cbn [negb]; destruct (String.eqb _ ""); read_patch; rewrite ?mget_over_empty; try done;
      change ({["state" := StateAsleep]} : gmap string string) with (<["state" := StateAsleep]> (∅ : gmap string string)); read_patch; done. }
  cbv zeta. destruct (String.eqb (tmeta b "state") "failed-create" && lease_active b); [by left|].
  destruct (rolls_back b) eqn:Er.
  { right. apply healed_asleep. rewrite meta_patched. change (String.eqb StateAsleep "") with false. cbv iota.
    rewrite heal_to_state; [done|]. rewrite cleared_state. destruct (String.eqb (tmeta b "state") "failed-create");
      rewrite ?cleared_state; by rewrite mget_over_empty. }
  destruct (String.eqb (tmeta b "state") "failed-create").
  { right. apply healed_asleep. rewrite meta_patched. change (String.eqb StateAsleep "") with false. cbv iota.
    rewrite heal_to_state; [done|]. by rewrite cleared_state, mget_over_empty. }
  destruct (String.eqb (dead_target b) ""); [by left|].
  destruct (dead_target_spec b Ht) as [Hd|Hd].
  - right. rewrite meta_patched, heal_to_state; [done|]. by rewrite mget_over_empty.
  - destruct (String.eqb_spec (meta b "state") StateAsleep) as [Ea|Ea].
    + right. apply healed_asleep. rewrite meta_patched, heal_to_state by (by rewrite mget_over_empty). by rewrite Hd.
    + left. rewrite Hd. by apply heal_to_same.
Qed.


Lemma patched_empty b : patched ∅ b = b.
Proof. unfold patched, patch_Apply. rewrite map_empty_union. by destruct b. Qed.

Lemma patched_status p b : bd_Status (patched p b) = bd_Status b.
Proof. done. Qed.

Lemma singleton_state v b : meta (patched {["state" := v]} b) "state" = v.
Proof. rewrite meta_patched. change ({["state" := v]} : gmap string string) with (<["state" := v]> (∅ : gmap string string)). by rewrite mget_over. Qed.

(** The states the reconciler knows have no space around them. *)
Lemma known_trimmed b : isKnownStateInfo (infoFromPersistedBead b) = true -> tmeta b "state" = meta b "state".
Proof.
  unfold isKnownStateInfo. read_info. unfold one_of. rewrite existsb_exists. intros (s & Hs & E%String.eqb_eq). rewrite E.
  assert (forallb (fun s => String.eqb (TrimSpace s) s) knownSessionStates = true) as Hf by (vm_compute; reflexivity).
  rewrite forallb_forall in Hf. by apply String.eqb_eq, Hf.
Qed.

(** (C20) Healing settles.  The healer's write to a session whose runtime is alive leaves it
    awake and nothing to heal.  To one whose runtime is gone it takes at most two: the first
    leaves the session as it was, asleep, or waiting for a start, and a second is made only
    of a session the first put to sleep with its create still claimed, which it queues to
    start; after that, at the same clock, there is nothing to heal.  (The session is open
    and in a state the reconciler knows: it passes the others by.) *)
Theorem heal_settles b :
  bd_Status b <> "closed" -> isKnownStateInfo (infoFromPersistedBead b) = true ->
  (let b' := patched (heal_batch true b) b in mget (bd_Metadata b') "state" = StateAwake /\ heal_batch true b' = ∅)
  /\ (let b1 := patched (heal_batch false b) b in
      let b2 := patched (heal_batch false b1) b1 in
      heal_batch false b2 = ∅
      /\ (heal_batch false b1 = ∅ \/ (mget (bd_Metadata b1) "state" = StateAsleep /\ mget (bd_Metadata b2) "state" = StateStartPending))).
Proof.
  intros Ho Hk. pose proof (known_trimmed b Hk) as Ht. cbn zeta. split.
  - assert (meta (patched (heal_batch true b) b) "state" = StateAwake) as E.
    { rewrite heal_alive by done. destruct (String.eqb_spec (meta b "state") StateAwake); [by rewrite patched_empty|apply singleton_state]. }
    split; [done|]. rewrite heal_alive by done. by rewrite E.
  - destruct (dead_first b Ho Ht) as [E|E].
    { rewrite E, !patched_empty, !E, !patched_empty. auto. }
    set (b1 := patched (heal_batch false b) b) in *. assert (Ho1 : bd_Status b1 <> "closed") by done.
    apply elem_of_cons in E as [E|E%list_elem_of_singleton].
    { rewrite (settled_pending b1 Ho1 E), patched_empty, (settled_pending b1 Ho1 E). auto. }
    destruct (settled_asleep b1 Ho1 E) as [E2|E2]; rewrite E2; [rewrite patched_empty, E2; auto|].
    pose proof (singleton_state StateStartPending b1) as E3. split; [by apply settled_pending|]. auto.
Qed.

(** ** What a heal leaves alone *)

Definition healed_keys : list string :=
  ["state"; "sleep_reason"; "session_key"; "started_config_hash"; "continuation_reset_pending"; "primed_at"; "priming_attempted_at"; "prompt_hash";
   "pending_create_claim"; "pending_create_started_at"].

Lemma heal_to_keeps k b reset rollback target batch :
  one_of k healed_keys = false ->
  mget (heal_to (infoFromPersistedBead b) reset rollback target batch ∪ bd_Metadata b) k = mget (batch ∪ bd_Metadata b) k.
Proof.
  intros Hk. unfold one_of, healed_keys in Hk. cbn [existsb] in Hk. rewrite !orb_false_iff in Hk. destruct_and!.
  unfold heal_to. cbv zeta. repeat match goal with |- context [if ?c then _ else _] => destruct c end;
    unfold PrimedAtMetadataKey, PrimingAttemptedAtMetadataKey, PromptHashMetadataKey; rewrite ?mget_over;
    repeat match goal with H : String.eqb k ?x = false |- _ => rewrite (String.eqb_sym k x) in H; rewrite ?H; clear H end; done.
Qed.

Lemma cleared_keeps k c p b : one_of k healed_keys = false -> mget (clearPendingCreateLeaseInfo c p ∪ bd_Metadata b) k = mget (p ∪ bd_Metadata b) k.
Proof.
  intros Hk. unfold one_of, healed_keys in Hk. cbn [existsb] in Hk. rewrite !orb_false_iff in Hk. destruct_and!.
  unfold clearPendingCreateLeaseInfo. destruct c; [|done]. rewrite !mget_over.
  repeat match goal with H : String.eqb k ?x = false |- _ => rewrite (String.eqb_sym k x) in H; rewrite ?H; clear H end; done.
Qed.

Lemma heal_keeps k b : bd_Status b <> "closed" -> one_of k healed_keys = false -> meta (patched (heal_batch false b) b) k = meta b k.
Proof.
  intros Ho Hk. rewrite meta_patched, heal_dead by done. destruct (String.eqb (open_base b) BaseStateDrained).
  - unfold one_of, healed_keys in Hk. cbn [existsb] in Hk. rewrite !orb_false_iff in Hk. destruct_and!. unfold drained_batch.
    change ({["state" := StateAsleep]} : gmap string string) with (<["state" := StateAsleep]> (∅ : gmap string string)).
    repeat match goal with |- context [if ?c then _ else _] => destruct c end; rewrite ?mget_over;
      repeat match goal with H : String.eqb k ?x = false |- _ => rewrite (String.eqb_sym k x) in H; rewrite ?H; clear H end; apply mget_over_empty.
  - cbv zeta. destruct (_ && lease_active b); [apply mget_over_empty|].
    match goal with |- context [if String.eqb ?t "" then _ else _] => destruct (String.eqb t "") end; [apply mget_over_empty|].
    rewrite heal_to_keeps by done. repeat match goal with |- context [if ?c then _ else _] => destruct c end;
      rewrite ?cleared_keeps by done; apply mget_over_empty.
Qed.

Lemma heal_claim b : bd_Status b <> "closed" ->
  meta (patched (heal_batch false b) b) "pending_create_claim" = meta b "pending_create_claim"
  \/ meta (patched (heal_batch false b) b) "pending_create_claim" = "".
Proof.
  intros Ho. rewrite meta_patched, heal_dead by done. destruct (String.eqb (open_base b) BaseStateDrained).
  - left. unfold drained_batch. change ({["state" := StateAsleep]} : gmap string string) with (<["state" := StateAsleep]> (∅ : gmap string string)).
    repeat match goal with |- context [if ?c then _ else _] => destruct c end; read_patch; done.
  - cbv zeta. destruct (_ && lease_active b); [left; apply mget_over_empty|].
    match goal with |- context [if String.eqb ?t "" then _ else _] => destruct (String.eqb t "") end; [left; apply mget_over_empty|].
    assert (forall r rb t p, mget (heal_to (infoFromPersistedBead b) r rb t p ∪ bd_Metadata b) "pending_create_claim"
      = mget (p ∪ bd_Metadata b) "pending_create_claim") as ->.
    { intros r rb t p. unfold heal_to. cbv zeta. repeat match goal with |- context [if ?c then _ else _] => destruct c end; read_patch; done. }
    unfold clearPendingCreateLeaseInfo. repeat match goal with |- context [if ?c then _ else _] => destruct c end; read_patch; auto.
Qed.

(** The marks of a started configuration are cleared together or left together. *)
Definition marks (m : gmap string string) : list string := map (mget m) ["started_config_hash"; "primed_at"; "priming_attempted_at"; "prompt_hash"].

Lemma heal_marks alive b : bd_Status b <> "closed" ->
  marks (bd_Metadata (patched (heal_batch alive b) b)) = marks (bd_Metadata b) \/ marks (bd_Metadata (patched (heal_batch alive b) b)) = [""; ""; ""; ""].
Proof.
  intros Ho. change (bd_Metadata (patched (heal_batch alive b) b)) with (heal_batch alive b ∪ bd_Metadata b). unfold marks. cbn [map].
  destruct alive.
  { left. rewrite heal_alive by done. change ({["state" := StateAwake]} : gmap string string) with (<["state" := StateAwake]> (∅ : gmap string string)).
    destruct (String.eqb _ _); read_patch; done. }
  rewrite heal_dead by done. destruct (String.eqb (open_base b) BaseStateDrained).
  - left. unfold drained_batch. change ({["state" := StateAsleep]} : gmap string string) with (<["state" := StateAsleep]> (∅ : gmap string string)).
    repeat match goal with |- context [if ?c then _ else _] => destruct c end; read_patch; done.
  - cbv zeta. destruct (_ && lease_active b); [left; by rewrite !mget_over_empty|].
    match goal with |- context [if String.eqb ?t "" then _ else _] => destruct (String.eqb t "") end; [left; by rewrite !mget_over_empty|].
    assert (forall r rb t p, marks (p ∪ bd_Metadata b) = marks (bd_Metadata b) ->
      marks (heal_to (infoFromPersistedBead b) r rb t p ∪ bd_Metadata b) = marks (bd_Metadata b)
      \/ marks (heal_to (infoFromPersistedBead b) r rb t p ∪ bd_Metadata b) = [""; ""; ""; ""]) as Hto.
    { intros r rb t p Hp. unfold marks in *. cbn [map] in *. unfold heal_to. cbv zeta.
      repeat match goal with |- context [if ?c then _ else _] => destruct c end; read_patch; auto. }
    apply Hto. unfold marks, clearPendingCreateLeaseInfo. cbn [map].
    repeat match goal with |- context [if ?c then _ else _] => destruct c end; read_patch; auto.
Qed.
End heal.

(** * Counting deaths *)

Lemma Atoi_value_Atoi s n : Atoi s = Some n -> Atoi_value s = n.
Proof.
  unfold Atoi, Atoi_value. match goal with |- context [match ?x with Some _ => _ | None => _ end] => destruct x as [k|] end; [|done].
  destruct (in_int64 k) eqn:E; [|done]. apply in_int64_spec in E. intros [= <-]. lia.
Qed.

Lemma Atoi_value_Itoa n : min_int64 <= n <= max_int64 -> Atoi_value (Itoa n) = n.
Proof. intros Hn. by apply Atoi_value_Atoi, Atoi_Itoa. Qed.

Section counting.
Context `{TimeLaws} `{UnicodeTables}.
Implicit Type b : Bead.
Local Abbreviation meta b k := (mget (bd_Metadata b) k).
Local Abbreviation tmeta b k := (TrimSpace (mget (bd_Metadata b) k)).

(** A bead whose store takes every write, and the snapshot of it. *)
Definition rest b : Front * Info := (mkFront (bd_Metadata b) [], infoFromPersistedBead b).

Lemma fold_patched p b : fold_patch p (infoFromPersistedBead b) = infoFromPersistedBead (patched p b).
Proof. by apply fold_coherent. Qed.

Lemma front_apply p m : front_ApplyPatch p (mkFront m []) = (mkFront (p ∪ m) [], true).
Proof.
  unfold front_ApplyPatch, empty_patch. case_bool_decide as E; [|done]. by rewrite E, map_empty_union.
Qed.

Lemma rest_write p b : write_and_fold p (rest b) = rest (patched p b).
Proof. unfold write_and_fold, rest. cbn [fst snd]. by rewrite front_apply, fold_patched. Qed.

Lemma rest_mark k v b : mark_and_fold k v (rest b) = rest (patched {[k := v]} b).
Proof. unfold mark_and_fold, rest. cbn [fst snd]. by rewrite fold_patched. Qed.

Lemma rest_apply p b : front_ApplyPatchInfo (rest b).2 p (rest b).1 = (rest (patched p b), true).
Proof.
  unfold front_ApplyPatchInfo, rest. cbn [fst snd]. destruct (empty_patch p) eqn:E.
  - apply bool_decide_eq_true in E as ->. by rewrite patched_empty.
  - by rewrite front_apply, fold_patched.
Qed.

(** ** How a death is classed *)

Definition not_subprocess (cfg : option CitySession) : Prop := match cfg with Some c => ct_Provider c <> "subprocess" | None => True end.

Lemma not_in_flight wall b clk startup :
  is_true (meta b "pending_create_claim") = false -> tmeta b "state" <> StateCreating ->
  pendingCreateStartInFlightInfo wall (infoFromPersistedBead b) clk startup = false.
Proof.
  intros Hc Hs. unfold pendingCreateStartInFlightInfo. read_info. by rewrite Hc, (proj2 (String.eqb_neq _ _) Hs).
Qed.

(** A dead session that is neither draining nor starting. *)
Definition crash_candidate (cfg : option CitySession) b : Prop :=
  not_subprocess cfg /\ is_true (meta b "pending_create_claim") = false /\ tmeta b "state" <> StateCreating.

(** The band a death falls in. *)
Definition band (elapsed : Z) (deliberate : bool) : ExitOutcome :=
  if elapsed <? stabilityThreshold then ExitRapidCrash
  else if deliberate then ExitNone
  else if churnProductivityThreshold <=? elapsed then ExitProductiveDeath else ExitChurn.

Lemma exit_banded cfg b now woke :
  crash_candidate cfg b -> parseWakeStamp (meta b "last_woke_at") = Some woke ->
  DecideSessionExit (sessionExitFactsInfo (infoFromPersistedBead b) cfg false false now)
  = band (now - woke) (IsDeliberateSleepReason (meta b "sleep_reason")).
Proof.
  intros (Hp & Hc & Hs) Hw. unfold DecideSessionExit, sessionExitFactsInfo. cbn [ef_Alive ef_LastWokeAt ef_SubprocessProvider ef_DrainPending
    ef_PendingCreateStartInFlight ef_Now ef_StabilityThreshold ef_PendingCreateClaim ef_SleepReason ef_ProductivityThreshold ef_ScreenAvailable].
  assert (match cfg with Some c => String.eqb (ct_Provider c) "subprocess" | None => false end = false) as ->.
  { destruct cfg; [|done]. by apply String.eqb_neq. }
  rewrite not_in_flight by done. read_info. rewrite Hw, Hc. cbn [default negb andb orb]. change (id woke) with woke. unfold band.
  destruct (now - woke <? stabilityThreshold); [done|]. by destruct (IsDeliberateSleepReason _).
Qed.

Lemma exit_unstamped cfg b now :
  meta b "last_woke_at" = "" -> DecideSessionExit (sessionExitFactsInfo (infoFromPersistedBead b) cfg false false now) = ExitNone.
Proof.
  intros Hw. unfold DecideSessionExit, sessionExitFactsInfo. cbn [ef_Alive ef_LastWokeAt ef_SubprocessProvider ef_DrainPending
    ef_PendingCreateStartInFlight ef_Now ef_StabilityThreshold ef_PendingCreateClaim ef_SleepReason ef_ProductivityThreshold ef_ScreenAvailable].
  read_info. rewrite Hw. cbn [parseWakeStamp String.eqb negb]. rewrite !andb_false_r, !orb_true_r. done.
Qed.

(** ** What a counted crash writes *)

Definition conversation b : bool := negb (String.eqb (meta b "session_key") "") || negb (String.eqb (meta b "started_config_hash") "").

Definition crashed (now : Z) b : Bead :=
  let accrual := WakeFailureAccrualPatch (Atoi_value (meta b "wake_attempts")) defaultMaxWakeAttempts (now + defaultQuarantineDuration) in
  patched {["last_woke_at" := ""]} (patched (ea_Patch accrual) (if conversation b then patched (ConversationResetPatch true) b else b)).

Lemma recordWakeFailure_rest now b : clearLastWokeAt (recordWakeFailure now (rest b)) = rest (crashed now b).
Proof.
  unfold clearLastWokeAt, recordWakeFailure, crashed. cbv zeta. change (rest b).2 with (infoFromPersistedBead b). read_info. fold (conversation b).
  rewrite <- rest_mark. f_equal. set (b1 := if conversation b then patched (ConversationResetPatch true) b else b).
  assert ((if conversation b then write_and_fold (ConversationResetPatch true) (rest b) else rest b) = rest b1) as ->.
  { subst b1. destruct (conversation b); [apply rest_write|done]. }
  unfold WakeFailureAccrualPatch, exitAccrual. destruct (_ <=? _); cbn [ea_Quarantined ea_Patch].
  - by rewrite rest_apply.
  - by rewrite rest_mark.
Qed.

(** With no screen to peek at, the rate-limit lane passes the session on. *)
Lemma unpeeked cfg alive draining now s : checkRateLimitStability cfg alive draining now None s = (s, false, false).
Proof.
  unfold checkRateLimitStability, gather_screen. cbv zeta. set (f := with_screen _ _ _).
  assert (ef_ScreenAvailable f = false) as Ha by done. clearbody f.
  assert (DecideSessionExit f <> ExitRateLimitQuarantine) as Hne.
  { unfold DecideSessionExit. rewrite Ha, andb_false_r. cbv zeta. repeat match goal with |- context [if ?c then _ else _] => destruct c end; discriminate. }
  by destruct (DecideSessionExit f).
Qed.

(** The crash of a candidate, as checkStability takes it once the screen lane has run. *)
Lemma stability_rest cfg b now woke :
  crash_candidate cfg b -> parseWakeStamp (meta b "last_woke_at") = Some woke -> now - woke < stabilityThreshold ->
  checkStability cfg false false now None (rest b) = (rest (crashed now b), true).
Proof.
  intros Hc Hw Hn. unfold checkStability. rewrite unpeeked. cbn [orb].
  pose proof (exit_banded cfg b now woke Hc Hw) as E. unfold band in E. rewrite (proj2 (Z.ltb_lt _ _) Hn) in E.
  rewrite bool_decide_eq_true_2 by exact E. by rewrite recordWakeFailure_rest.
Qed.

(** What a counted crash leaves. *)
Lemma crashed_reads now b n :
  Atoi_value (meta b "wake_attempts") = n -> 0 <= n < max_int64 ->
  let b' := crashed now b in
  meta b' "wake_attempts" = Itoa (n + 1) /\ meta b' "last_woke_at" = ""
  /\ meta b' "quarantined_until" = (if n + 1 <? 5 then meta b "quarantined_until" else format_time (now + defaultQuarantineDuration))
  /\ meta b' "sleep_reason" = (if n + 1 <? 5 then meta b "sleep_reason" else SleepReasonQuarantine)
  /\ (conversation b = true -> meta b' "session_key" = "" /\ marks (bd_Metadata b') = [""; ""; ""; ""]).
Proof.
  intros En Hn. cbn zeta. unfold crashed, WakeFailureAccrualPatch, exitAccrual. rewrite En.
  assert (wrap64 (n + 1) = n + 1) as -> by (apply wrap64_small; unfold min_int64 in *; lia). unfold defaultMaxWakeAttempts.
  change ({["last_woke_at" := ""]} : gmap string string) with (<["last_woke_at" := ""]> (∅ : gmap string string)).
  destruct (Z.ltb_spec (n + 1) 5); destruct (Z.leb_spec 5 (n + 1)); try lia; cbn [ea_Patch]; unfold marks; cbn [map];
    destruct (conversation b); unfold ConversationResetPatch; rewrite !metadata_patched; do 3 read_patch; naive_solver.
Qed.

(** ** A crash loop *)

Lemma mget_add_if c f p m k : mget (add_if c f p ∪ m) k = if c then mget (f p ∪ m) k else mget (p ∪ m) k.
Proof. by destruct c. Qed.

Lemma if_same {A} (c : bool) (x : A) : (if c then x else x) = x.
Proof. by destruct c. Qed.

(** The value under a key of a patch built by conditional assignments. *)
Local Ltac read_adds :=
  repeat (rewrite mget_add_if; unfold PrimedAtMetadataKey, PromptHashMetadataKey; cbv beta; rewrite ?mget_over;
    cbn [String.eqb Ascii.eqb Bool.eqb]; rewrite ?if_same).

(** A wake that starts, is committed and dies. *)
Record Cycle : Type := mkCycle { cy_wake : PreWakePatchInput; cy_commit : CommitStartedPatchInput; cy_now : Z }.

Definition woken (wall : Z) (c : Cycle) b : Bead := patched (CommitStartedPatch wall (cy_commit c)) (patched (PreWakePatch wall (cy_wake c)) b).

(** The tick that finds it dead: the healer first, then the count. *)
Definition found_dead (wall : Z) (cfg : option CitySession) (startup : Z) (c : Cycle) b : Bead * bool :=
  let b := woken wall c b in
  let b := patched (heal_batch wall (Some (cy_now c)) startup true false b) b in
  let '(w, _, counted) := checkStability cfg false false (cy_now c) None (rest b) in (set_Metadata (fr_meta w) b, counted).

(** It died within the stability window of its wake. *)
Definition rapid (c : Cycle) : Prop :=
  ns_second <= pw_Now (cy_wake c) < year_10000 /\ cy_now c - ns_second * (pw_Now (cy_wake c) / ns_second) < stabilityThreshold
  /\ cs_ConfirmState (cy_commit c) = true /\ cs_ClearPendingCreateClaim (cy_commit c) = true.

Lemma woken_reads wall c b : rapid c ->
  let b' := woken wall c b in
  meta b' "state" = StateActive /\ meta b' "pending_create_claim" = "" /\ meta b' "last_woke_at" = format_time (pw_Now (cy_wake c))
  /\ meta b' "wake_attempts" = meta b "wake_attempts" /\ meta b' "quarantined_until" = meta b "quarantined_until".
Proof.
  intros (_ & _ & Hc & Hp). cbn zeta. unfold woken. rewrite !metadata_patched. unfold CommitStartedPatch. cbv zeta. rewrite Hc, Hp.
  unfold PreWakePatch. split_and!; (destruct (pw_FreshWake (cy_wake c)); read_adds; do 2 read_patch; done).
Qed.

Lemma woken_dead wall cfg startup c b :
  rapid c -> not_subprocess cfg -> bd_Status b <> "closed" ->
  let bh := patched (heal_batch wall (Some (cy_now c)) startup true false (woken wall c b)) (woken wall c b) in
  crash_candidate cfg bh /\ parseWakeStamp (meta bh "last_woke_at") = Some (ns_second * (pw_Now (cy_wake c) / ns_second))
  /\ meta bh "wake_attempts" = meta b "wake_attempts" /\ meta bh "quarantined_until" = meta b "quarantined_until".
Proof.
  intros Hr Hp Ho. destruct (woken_reads wall c b Hr) as (Es & Ec & Ew & Ea & Eq). cbn zeta. set (bw := woken wall c b) in *.
  assert (Hob : bd_Status bw <> "closed") by done.
  split; [split; [done|split]|].
  - destruct (heal_claim wall (Some (cy_now c)) startup true bw Hob) as [->| ->]; [by rewrite Ec|done].
  - destruct (dead_first wall (Some (cy_now c)) startup true bw Hob) as [E|E]; [by rewrite Es|by rewrite E, patched_empty, Es|].
    apply elem_of_cons in E as [->|E%list_elem_of_singleton]; [done|by rewrite E].
  - rewrite !heal_keeps by done. rewrite Ew, Ea, Eq. split_and!; [|done..]. unfold parseWakeStamp.
    rewrite (proj2 (String.eqb_neq _ _) (format_nonempty _)). destruct Hr as [Ht _]. apply parse_format. unfold ns_second in *. lia.
Qed.

Lemma found_dead_step wall cfg startup c b n :
  rapid c -> not_subprocess cfg -> bd_Status b <> "closed" -> Atoi_value (meta b "wake_attempts") = n -> 0 <= n < max_int64 ->
  exists b', found_dead wall cfg startup c b = (b', true) /\ bd_Status b' = bd_Status b
  /\ meta b' "wake_attempts" = Itoa (n + 1) /\ meta b' "last_woke_at" = ""
  /\ meta b' "quarantined_until" = (if n + 1 <? 5 then meta b "quarantined_until" else format_time (cy_now c + defaultQuarantineDuration))
  /\ (5 <= n + 1 -> meta b' "sleep_reason" = SleepReasonQuarantine).
Proof.
  intros Hr Hp Ho En Hn. destruct (woken_dead wall cfg startup c b Hr Hp Ho) as (Hc & Hw & Ea & Eq). unfold found_dead. cbv zeta.
  set (bh := patched _ (woken wall c b)) in *.
  assert (cy_now c - ns_second * (pw_Now (cy_wake c) / ns_second) < stabilityThreshold) as Hlt by apply Hr.
  rewrite (stability_rest cfg bh (cy_now c) _ Hc Hw Hlt). cbn [rest].
  destruct (crashed_reads (cy_now c) bh n) as (R1 & R2 & R3 & R4 & _); [by rewrite Ea|done|].
  eexists. split; [reflexivity|]. cbn [fr_meta]. split; [done|].
  rewrite metadata_set. rewrite R1, R2, R3, R4, Eq. split_and!; try done. intros Hge. by rewrite (proj2 (Z.ltb_ge _ _)) by lia.
Qed.

(** A run of such wakes, and whether every death was counted. *)
Definition crash_loop (wall : Z) (cfg : option CitySession) (startup : Z) (cs : list Cycle) b : Bead * bool :=
  fold_left (fun '(b, all) c => let '(b', counted) := found_dead wall cfg startup c b in (b', all && counted)) cs (b, true).

Lemma crash_loop_snoc wall cfg startup cs c b :
  crash_loop wall cfg startup (cs ++ [c]) b
  = let '(b1, all) := crash_loop wall cfg startup cs b in let '(b2, counted) := found_dead wall cfg startup c b1 in (b2, all && counted).
Proof. unfold crash_loop. rewrite fold_left_app. cbn [fold_left]. by destruct (fold_left _ cs (b, true)). Qed.

Lemma crash_loop_counts wall cfg startup cs b :
  Forall rapid cs -> not_subprocess cfg -> bd_Status b <> "closed" -> Atoi_value (meta b "wake_attempts") = 0 -> (length cs <= 5)%nat ->
  exists b', crash_loop wall cfg startup cs b = (b', true) /\ bd_Status b' = bd_Status b
  /\ (cs <> [] -> meta b' "wake_attempts" = Itoa (Z.of_nat (length cs)) /\ meta b' "last_woke_at" = "")
  /\ Atoi_value (meta b' "wake_attempts") = Z.of_nat (length cs)
  /\ ((length cs < 5)%nat -> meta b' "quarantined_until" = meta b "quarantined_until")
  /\ (forall c, length cs = 5%nat -> last cs = Some c ->
       meta b' "quarantined_until" = format_time (cy_now c + defaultQuarantineDuration) /\ meta b' "sleep_reason" = SleepReasonQuarantine).
Proof.
  intros Hr Hp Ho E0 Hl. induction cs as [|c cs IH] using rev_ind.
  { exists b. cbn. split_and!; done. }
  apply Forall_app in Hr as [Hr Hc]. apply (proj1 (Forall_singleton rapid c)) in Hc. rewrite length_app in Hl. cbn in Hl.
  destruct IH as (b1 & E1 & S1 & _ & A1 & Q1 & _); [done|lia|]. rewrite crash_loop_snoc, E1.
  destruct (found_dead_step wall cfg startup c b1 (Z.of_nat (length cs)) Hc Hp) as (b2 & E2 & S2 & A2 & W2 & Q2 & R2);
    [by rewrite S1|done|unfold max_int64; lia|].
  rewrite E2. exists b2. rewrite length_app. cbn [length].
  replace (Z.of_nat (length cs + 1)) with (Z.of_nat (length cs) + 1) by lia.
  split; [done|]. split; [by rewrite S2, S1|]. split; [done|]. split; [by rewrite A2, Atoi_value_Itoa by (unfold min_int64, max_int64; lia)|]. split.
  - intros Hlt. rewrite Q2, (proj2 (Z.ltb_lt _ _)) by lia. apply Q1. lia.
  - intros c' Hlen Hlast. rewrite last_snoc in Hlast. injection Hlast as <-. rewrite Q2, (proj2 (Z.ltb_ge _ _)) by lia. split; [done|]. apply R2. lia.
Qed.

(** ** The end of a quarantine *)

Lemma quarantine_lifted now b until :
  ns_second <= until < year_10000 -> meta b "quarantined_until" = format_time until -> meta b "sleep_reason" = SleepReasonQuarantine ->
  ns_second * (until / ns_second) < now ->
  exists b', healExpiredTimersInfo now (infoFromPersistedBead b) (rest b).1 = rest b'
  /\ meta b' "wake_attempts" = "0" /\ meta b' "churn_count" = "0" /\ meta b' "quarantined_until" = "" /\ meta b' "sleep_reason" = "".
Proof.
  intros Hu Eq Er Hlt. unfold healExpiredTimersInfo. cbv zeta. cbn [fst snd].
  assert (Hh : exists b1, (if expired now (field (infoFromPersistedBead b) "HeldUntil")
    then (front_ApplyPatchInfo (infoFromPersistedBead b) (ClearExpiredHoldPatch (field (infoFromPersistedBead b) "SleepReason")) (rest b).1).1
    else ((rest b).1, infoFromPersistedBead b)) = rest b1 /\ meta b1 "quarantined_until" = format_time until /\ meta b1 "sleep_reason" = SleepReasonQuarantine).
  { read_info. rewrite Er. destruct (expired now (meta b "held_until")); [|by exists b].
    rewrite (rest_apply _ b : front_ApplyPatchInfo (infoFromPersistedBead b) _ (rest b).1 = _). eexists. split; [reflexivity|].
    rewrite !meta_patched. unfold ClearExpiredHoldPatch. change (String.eqb SleepReasonQuarantine SleepReasonUserHold) with false. cbv zeta iota.
    read_patch. done. }
  destruct Hh as (b1 & -> & Q1 & R1). change (rest b1).2 with (infoFromPersistedBead b1). read_info. rewrite Q1, R1.
  assert (expired now (format_time until) = true) as ->.
  { unfold expired. rewrite (proj2 (String.eqb_neq _ _) (format_nonempty _)), parse_format by (unfold ns_second in *; lia).
    unfold IsZero. rewrite (proj2 (Z.ltb_lt _ _) Hlt), andb_true_r. apply negb_true_iff, Z.eqb_neq.
    pose proof (Z.div_le_mono ns_second until ns_second ltac:(by unfold ns_second) ltac:(lia)) as Hd. rewrite Z.div_same in Hd by done.
    unfold ns_second in *. lia. }
  rewrite (rest_apply _ b1 : front_ApplyPatchInfo (infoFromPersistedBead b1) _ (rest b1).1 = _). eexists. split; [reflexivity|].
  rewrite !meta_patched. unfold ClearExpiredQuarantinePatch. change (one_of SleepReasonQuarantine _) with true. cbv zeta iota. read_patch. done.
Qed.

(** (C19) A session that keeps dying is quarantined at its fifth death, and not before.
    Whatever the bead held, a run of wakes that each start, are committed and die within
    half a minute is counted death by death, the healer having its turn first; a death is
    counted once, since the wake stamp is cleared with it.  Up to four leave the quarantine
    as it was; the fifth sets it for five minutes from that death: until that second the
    projection holds the session blocked and the reconciler finds it quarantined, and once
    it has passed the timers are healed: the counters at zero, and neither the quarantine
    nor its reason left. *)
Theorem crash_loop_quarantined wall cfg startup cs b :
  Forall rapid cs -> not_subprocess cfg -> bd_Status b <> "closed" -> Atoi_value (mget (bd_Metadata b) "wake_attempts") = 0 -> (length cs <= 5)%nat ->
  exists b', crash_loop wall cfg startup cs b = (b', true)
  /\ (cs <> [] -> mget (bd_Metadata b') "wake_attempts" = Itoa (Z.of_nat (length cs))
       /\ forall now, checkStability cfg false false now None (rest b') = (rest b', false))
  /\ ((length cs < 5)%nat -> mget (bd_Metadata b') "quarantined_until" = mget (bd_Metadata b) "quarantined_until")
  /\ (forall c now, length cs = 5%nat -> last cs = Some c -> 0 < now ->
       let until := cy_now c + defaultQuarantineDuration in
       let second := ns_second * (until / ns_second) in
       ns_second <= until < year_10000 ->
       HasBlocker (metadata_view wall now (bd_Metadata b')) BlockerQuarantined = (now <? second)
       /\ sessionIsQuarantinedInfo (infoFromPersistedBead b') now = (now <? second)
       /\ (second < now -> exists b2, healExpiredTimersInfo now (infoFromPersistedBead b') (rest b').1 = rest b2
            /\ mget (bd_Metadata b2) "wake_attempts" = "0" /\ mget (bd_Metadata b2) "churn_count" = "0"
            /\ mget (bd_Metadata b2) "quarantined_until" = "" /\ mget (bd_Metadata b2) "sleep_reason" = "")).
Proof.
  intros Hr Hp Ho E0 Hl. destruct (crash_loop_counts wall cfg startup cs b Hr Hp Ho E0 Hl) as (b' & E & S & A & _ & Q & L).
  exists b'. split; [done|]. split; [|split; [done|]].
  - intros Hne. destruct (A Hne) as [A1 W]. split; [done|]. intros now. pose proof (exit_unstamped cfg b' now W) as Hx.
    unfold checkStability. rewrite unpeeked. cbn [orb]. rewrite bool_decide_eq_false_2; [done|]. change (rest b').2 with (infoFromPersistedBead b').
    rewrite Hx. discriminate.
  - intros c now Hlen Hlast Hn. cbv zeta. intros Hu. destruct (L c Hlen Hlast) as [Eq Er]. split; [|split].
    + rewrite view_blockers, Eq, deadline_format by done. unfold blocking, or_now, IsZero. by rewrite (proj2 (Z.eqb_neq now 0)) by lia.
    + unfold sessionIsQuarantinedInfo. read_info. rewrite Eq, (proj2 (String.eqb_neq _ _) (format_nonempty _)).
      by rewrite parse_format by (unfold ns_second in *; lia).
    + intros Hlt. by apply quarantine_lifted with (until := cy_now c + defaultQuarantineDuration).
Qed.
End counting.

(** * At work *)

Definition example_cycle (at' : Z) : Cycle :=
  mkCycle (mkPreWake 1 "token" 1 (at' * ns_second) "" true)
    (mkCommit "core" "live" "prov" "launch" "" true true true true (at' * ns_second) 0 "") (at' * ns_second + 3 * ns_second).

Definition example_cycles : list Cycle := map example_cycle [100; 200; 300; 400; 500].

Lemma heal_settles_witness :
  let b1 := patched (@heal_batch digit_time 5 (Some 6000000000) 0 true false example_bead) example_bead in
  mget (bd_Metadata b1) "state" = StateAsleep
  /\ @heal_batch digit_time 5 (Some 6000000000) 0 true false (patched (@heal_batch digit_time 5 (Some 6000000000) 0 true false b1) b1) = ∅.
Proof.
  assert (bd_Status example_bead <> "closed") as Ho by discriminate.
  assert (isKnownStateInfo (@infoFromPersistedBead digit_time example_bead) = true) as Ht by (vm_compute; reflexivity).
  pose proof (@heal_settles digit_time 5 (Some 6000000000) 0 true example_bead Ho Ht) as Hs. cbv zeta in Hs |- *.
  destruct Hs as (_ & Hs & _). split; [vm_compute; reflexivity|exact Hs].
Defined.

Lemma crash_loop_quarantined_witness :
  exists b', @crash_loop digit_time (Build_UnicodeTables id) 5 None 0 example_cycles example_bead = (b', true)
  /\ mget (bd_Metadata b') "wake_attempts" = "5"
  /\ HasBlocker (@metadata_view digit_time 5 (600 * ns_second) (bd_Metadata b')) BlockerQuarantined = true.
Proof.
  assert (Forall rapid example_cycles) as Hr.
  { unfold example_cycles, example_cycle, rapid, stabilityThreshold, Second, ns_second, year_10000. cbn [map cy_wake cy_now cy_commit pw_Now cs_ConfirmState
      cs_ClearPendingCreateClaim].
    repeat (apply Forall_cons; split; [vm_compute; repeat split; discriminate|]). apply Forall_nil. done. }
  assert (bd_Status example_bead <> "closed") as Ho by discriminate.
  assert (Atoi_value (mget (bd_Metadata example_bead) "wake_attempts") = 0) as Ha by (vm_compute; reflexivity).
  destruct (@crash_loop_quarantined digit_time digit_time_laws (Build_UnicodeTables id) 5 None 0 example_cycles example_bead Hr I Ho Ha (le_n 5))
    as (b' & E & A & _ & L).
  exists b'. split; [exact E|]. split; [exact (proj1 (A ltac:(discriminate)))|].
  assert (ns_second <= cy_now (example_cycle 500) + defaultQuarantineDuration < year_10000) as Hu by (vm_compute; split; [discriminate|reflexivity]).
  destruct (L (example_cycle 500) (600 * ns_second) eq_refl eq_refl eq_refl Hu) as [Hb _]. rewrite Hb. vm_compute. reflexivity.
Defined.

(** A counter past the range of an int is read as the largest one, and the next death makes
    it the smallest: that session is not quarantined. *)
Example overflowing_counter :
  ea_Quarantined (@WakeFailureAccrualPatch digit_time (Atoi_value "9223372036854775808") defaultMaxWakeAttempts 0) = false
  /\ mget (ea_Patch (@WakeFailureAccrualPatch digit_time (Atoi_value "9223372036854775808") defaultMaxWakeAttempts 0)) "wake_attempts"
     = "-9223372036854775808".
Proof. vm_compute. done. Qed.
