(* ===== verification/SessionTimers.v ===== *)
(** The lifecycle timers of a live session (cmd/gc): the trackers of idle time, of session
    age, of deferred stops and of restarts, and the two passages of the reconciler's tick
    that gather facts for a ladder, and defer or stop the session by its decision.  A tick
    always decides, and stops a session only when nothing holds it; a session that keeps
    being held by one bead is stopped all the same, at a bounded number of ticks; and the
    restart tracker counts exactly the starts of its window. *)
From Stdlib Require Import Ascii Sorted.
From S2P Require Import Prelude GoStd BeadQuery SessionMachine SessionInfo SessionLifecycle SessionPatch SessionLifeProps.
From S2P Require Import SessionReap SessionReapProps.

Import beads session sessioninfo lifecycle transition reap.

Module timers.

(** * The deferral tracker *)

Definition defaultAssignedWorkDeferLimit : Z := 3.

Record assignedWorkDeferState : Type := mkDefer { ad_anchorBeadID : string; ad_count : Z }.

Record assignedWorkDeferTracker : Type := mkDeferTracker {
  dt_limits : gmap string Z;
  dt_templateLimits : gmap string Z;
  dt_templateFallbackExemptions : gset string;
  dt_state : gmap string assignedWorkDeferState
}.

Definition newAssignedWorkDeferTracker : assignedWorkDeferTracker := mkDeferTracker ∅ ∅ ∅ ∅.

(** A configured bound: one that is not positive is no bound. *)
Definition configure {A} (name : string) (bound : Z) (v : A) (m : gmap string A) : gmap string A :=
  if bound <=? 0 then delete name m else <[name := v]> m.

Definition defer_setLimit (name : string) (limit : Z) (m : assignedWorkDeferTracker) : assignedWorkDeferTracker :=
  mkDeferTracker (configure name limit limit (dt_limits m)) (dt_templateLimits m) (dt_templateFallbackExemptions m) (dt_state m).

Definition defer_setLimitForTemplate (template : string) (limit : Z) (m : assignedWorkDeferTracker) : assignedWorkDeferTracker :=
  if String.eqb template "" then m
  else mkDeferTracker (dt_limits m) (configure template limit limit (dt_templateLimits m)) (dt_templateFallbackExemptions m) (dt_state m).

Definition defer_exempt (name : string) (m : assignedWorkDeferTracker) : assignedWorkDeferTracker :=
  if String.eqb name "" then m
  else mkDeferTracker (dt_limits m) (dt_templateLimits m) ({[name]} ∪ dt_templateFallbackExemptions m) (dt_state m).

Definition limitFor (m : assignedWorkDeferTracker) (name template : string) : Z :=
  match dt_limits m !! name with
  | Some limit => limit
  | None =>
      if negb (bool_decide (name ∈ dt_templateFallbackExemptions m)) && negb (String.eqb template "")
      then default defaultAssignedWorkDeferLimit (dt_templateLimits m !! template)
      else defaultAssignedWorkDeferLimit
  end.

Definition recordDefer (name template anchor : string) (m : assignedWorkDeferTracker) : assignedWorkDeferTracker * bool :=
  let st := default (mkDefer "" 0) (dt_state m !! name) in
  let st := if String.eqb (ad_anchorBeadID st) anchor then st else mkDefer anchor 0 in
  let st := mkDefer (ad_anchorBeadID st) (ad_count st + 1) in
  (mkDeferTracker (dt_limits m) (dt_templateLimits m) (dt_templateFallbackExemptions m) (<[name := st]> (dt_state m)),
   limitFor m name template <? ad_count st).

Definition defer_reset (name : string) (m : assignedWorkDeferTracker) : assignedWorkDeferTracker :=
  mkDeferTracker (dt_limits m) (dt_templateLimits m) (dt_templateFallbackExemptions m) (delete name (dt_state m)).

(** * The idle tracker *)

Record idleTracker : Type := mkIdleTracker {
  it_timeouts : gmap string Z;
  it_templateTimeouts : gmap string Z;
  it_templateFallbackExemptions : gset string
}.

Definition newIdleTracker : idleTracker := mkIdleTracker ∅ ∅ ∅.

Definition idle_setTimeout (name : string) (timeout : Z) (m : idleTracker) : idleTracker :=
  mkIdleTracker (configure name timeout timeout (it_timeouts m)) (it_templateTimeouts m) (it_templateFallbackExemptions m).

Definition idle_setTimeoutForTemplate (template : string) (timeout : Z) (m : idleTracker) : idleTracker :=
  if String.eqb template "" then m
  else mkIdleTracker (it_timeouts m) (configure template timeout timeout (it_templateTimeouts m)) (it_templateFallbackExemptions m).

Definition idle_exempt (name : string) (m : idleTracker) : idleTracker :=
  if String.eqb name "" then m else mkIdleTracker (it_timeouts m) (it_templateTimeouts m) ({[name]} ∪ it_templateFallbackExemptions m).

(** lastActivity is what the provider answers: none on an error. *)
Definition checkIdle (m : idleTracker) (name template : string) (lastActivity : option Z) (now : Z) : bool :=
  let timeout := match it_timeouts m !! name with
                 | Some t => Some t
                 | None => if negb (bool_decide (name ∈ it_templateFallbackExemptions m)) && negb (String.eqb template "")
                           then it_templateTimeouts m !! template else None
                 end in
  match timeout with
  | None => false
  | Some timeout =>
      if timeout <=? 0 then false
      else match lastActivity with Some at' => if IsZero at' then false else timeout <? now - at' | None => false end
  end.

(** * The age tracker *)

Record maxSessionAgeConfig : Type := mkAge { ma_maxAge : Z; ma_jitter : Z }.

Record maxSessionAgeTracker : Type := mkAgeTracker {
  ma_configs : gmap string maxSessionAgeConfig;
  ma_templateConfigs : gmap string maxSessionAgeConfig;
  ma_offsets : gmap string Z;
  ma_templateFallbackExemptions : gset string
}.

Definition newMaxSessionAgeTracker : maxSessionAgeTracker := mkAgeTracker ∅ ∅ ∅ ∅.

(** draw jitter is a number below jitter, from the tracker's generator. *)
Definition age_setConfig (draw : Z -> Z) (name : string) (maxAge jitter : Z) (m : maxSessionAgeTracker) : maxSessionAgeTracker :=
  if String.eqb name "" then m
  else if maxAge <=? 0 then
    mkAgeTracker (delete name (ma_configs m)) (ma_templateConfigs m) (delete name (ma_offsets m)) (ma_templateFallbackExemptions m)
  else
    let offset := if 0 <? jitter then draw jitter else 0 in
    mkAgeTracker (<[name := mkAge maxAge jitter]> (ma_configs m)) (ma_templateConfigs m) (<[name := offset]> (ma_offsets m))
      (ma_templateFallbackExemptions m).

Definition age_setConfigForTemplate (template : string) (maxAge jitter : Z) (m : maxSessionAgeTracker) : maxSessionAgeTracker :=
  if String.eqb template "" then m
  else mkAgeTracker (ma_configs m) (configure template maxAge (mkAge maxAge jitter) (ma_templateConfigs m)) (ma_offsets m)
         (ma_templateFallbackExemptions m).

Definition age_exempt (name : string) (m : maxSessionAgeTracker) : maxSessionAgeTracker :=
  if String.eqb name "" then m
  else mkAgeTracker (ma_configs m) (ma_templateConfigs m) (ma_offsets m) ({[name]} ∪ ma_templateFallbackExemptions m).

(** hash/fnv, 64 bits, FNV-1a. *)
Definition fnv_offset : Z := 14695981039346656037.
Definition fnv_prime : Z := 1099511628211.
Definition fnv1a (h : Z) (s : string) : Z :=
  fold_left (fun h c => Z.lxor h (byte_of c) * fnv_prime mod 2 ^ 64) (String.list_ascii_of_string s) h.

Section age.
Context `{TimeText}.

Definition deterministicMaxSessionAgeOffset (template name : string) (creationCompleteAt jitter : Z) : Z :=
  if jitter <=? 0 then 0
  else fnv1a (fnv1a (fnv1a (fnv1a (fnv1a fnv_offset template) (String "000" "")) name) (String "000" "")) (format_nano creationCompleteAt) mod jitter.

Definition configFor (m : maxSessionAgeTracker) (name template : string) (creationCompleteAt : Z) : option (maxSessionAgeConfig * Z) :=
  match ma_configs m !! name with
  | Some cfg => Some (cfg, default 0 (ma_offsets m !! name))
  | None =>
      if bool_decide (name ∈ ma_templateFallbackExemptions m) || String.eqb template "" then None
      else match ma_templateConfigs m !! template with
           | None => None
           | Some cfg => Some (cfg, deterministicMaxSessionAgeOffset template name creationCompleteAt (ma_jitter cfg))
           end
  end.

Definition shouldRestart (m : maxSessionAgeTracker) (name template : string) (creationCompleteAt now : Z) : bool :=
  if String.eqb name "" || IsZero creationCompleteAt || IsZero now then false
  else match configFor m name template creationCompleteAt with
       | None => false
       | Some (cfg, offset) => if ma_maxAge cfg <=? 0 then false else wrap64 (ma_maxAge cfg + offset) <=? now - creationCompleteAt
       end.
End age.

(** * The restart tracker *)

Record crashTracker : Type := mkCrashTracker { ct_maxRestarts : Z; ct_restartWindow : Z; ct_starts : gmap string (list Z) }.

(** None when crash-loop detection is off. *)
Definition newCrashTracker (maxRestarts window : Z) : option crashTracker :=
  if maxRestarts <=? 0 then None else Some (mkCrashTracker maxRestarts window ∅).

Definition starts_of (m : crashTracker) (name : string) : list Z := default [] (ct_starts m !! name).

Fixpoint drop_before (cutoff : Z) (times : list Z) : list Z :=
  match times with [] => [] | t :: rest => if t <? cutoff then drop_before cutoff rest else times end.

Definition crash_prune (name : string) (now : Z) (m : crashTracker) : crashTracker :=
  match starts_of m name with
  | [] => m
  | times =>
      match drop_before (now - ct_restartWindow m) times with
      | [] => mkCrashTracker (ct_maxRestarts m) (ct_restartWindow m) (delete name (ct_starts m))
      | kept => mkCrashTracker (ct_maxRestarts m) (ct_restartWindow m) (<[name := kept]> (ct_starts m))
      end
  end.

Definition recordStart (name : string) (at' : Z) (m : crashTracker) : crashTracker :=
  let m := crash_prune name at' m in
  mkCrashTracker (ct_maxRestarts m) (ct_restartWindow m) (<[name := starts_of m name ++ [at']]> (ct_starts m)).

Definition isQuarantined (name : string) (now : Z) (m : crashTracker) : crashTracker * bool :=
  let m := crash_prune name now m in
  (m, ct_maxRestarts m <=? Z.of_nat (length (starts_of m name))).

Definition clearHistory (name : string) (m : crashTracker) : crashTracker :=
  mkCrashTracker (ct_maxRestarts m) (ct_restartWindow m) (delete name (ct_starts m)).
Definition clearAll (m : crashTracker) : crashTracker := mkCrashTracker (ct_maxRestarts m) (ct_restartWindow m) ∅.

(** * The tick *)

Section tick.
Context `{TimeText} `{UnicodeTables}.

Definition metadataTimeInFuture (raw : string) (now : Z) : bool :=
  if String.eqb raw "" then false
  else match parse_time raw with Some t => negb (IsZero t) && (now <? t) | None => false end.

Definition lifecycleTimerBlockerInfo (i : Info) (now : Z) : string :=
  if metadataTimeInFuture (field i "HeldUntil") now then "user_hold"
  else if metadataTimeInFuture (field i "QuarantinedUntil") now then "quarantine"
  else "".

(** ready is whether the runtime reports an interaction in flight. *)
Definition pendingInteractionKeepsAwakeInfo (wall : Z) (i : Info) (ready : bool) (now : Z) : bool :=
  if negb ready then false
  else if negb (String.eqb (TrimSpace (field i "WaitHold")) "") then false
  else
    let view := ProjectLifecycle wall (mkLifecycleInput (LifecycleInputFromInfo i)
      (mkExternal (mkRuntimeFacts true true false true) (mkNamedIdentity "" false false false false) [] false false 0 0 now)) in
    negb (HasBlocker view BlockerHeld) && negb (HasBlocker view BlockerQuarantined).

(** The facts a ladder may ask for: the pending interaction, and the assigned work, an
    error of the stores counting as work. *)
Record Gathered : Type := mkGathered { ga_pending : bool; ga_work : option bool }.

Definition fill (g : Gathered) (a : TimerAction) (f : TimerFacts) : TimerFacts :=
  match a with
  | TimerActionGatherPending =>
      mkTimerFacts (tf_Triggered f) (tf_Blocker f) (if ga_pending g then PendingYes else PendingNo) (tf_AssignedWork f)
  | _ => mkTimerFacts (tf_Triggered f) (tf_Blocker f) (tf_Pending f) (if default true (ga_work g) then AssignedWorkHas else AssignedWorkNone)
  end.

Definition gathers (a : TimerAction) : bool :=
  match a with TimerActionGatherPending | TimerActionGatherAssignedWork => true | _ => false end.

Fixpoint decide_loop (fuel : nat) (decider : TimerFacts -> TimerDecision) (g : Gathered) (f : TimerFacts) : option TimerDecision :=
  match fuel with
  | O => None
  | S fuel =>
      let dec := decider f in
      if gathers (td_Action dec) then decide_loop fuel decider g (fill g (td_Action dec) f) else Some dec
  end.

(** The facts at hand before anything is gathered. *)
Definition timer_facts (triggered : bool) (i : Info) (now : Z) : TimerFacts :=
  mkTimerFacts triggered (if triggered then lifecycleTimerBlockerInfo i now else "") PendingUnknown AssignedWorkUnknown.

(** reconcileTick.applyOptimistic *)
Definition applyOptimistic (p : gmap string string) (s : Front * Info) : Front * Info := write_and_fold p s.

Record TickState : Type := mkTick {
  tk_store : Front * Info;
  tk_alive : bool;
  tk_defers : option assignedWorkDeferTracker;
  tk_killed : list string;      (* the events recorded *)
  tk_cancelDrain : bool;
  tk_skipWake : bool
}.

(** The runtime stopped and the session put to sleep; killed is whether the stop worked. *)
Definition stop_session (now : Z) (killed : bool) (event : string) (dec : TimerDecision) (t : TickState) : TickState :=
  if negb killed then t
  else mkTick (applyOptimistic (SleepPatch now (td_SleepReason dec)) (tk_store t)) false (tk_defers t) (tk_killed t ++ [event])
         (tk_cancelDrain t) (tk_skipWake t).

Definition SessionMaxAgeKilled : string := "session.max_age_killed".
Definition SessionIdleKilled : string := "session.idle_killed".

(** The passage of the tick on the session's age. *)
Definition max_age_pass (ages : option maxSessionAgeTracker) (name template : string) (now : Z) (g : Gathered) (killed : bool) (t : TickState)
  : option TickState :=
  match ages with
  | Some ages =>
      if negb (tk_alive t) then Some t
      else
        let i := (tk_store t).2 in
        let triggered := match parseRFC3339Metadata (field i "CreationCompleteAt") with
                         | Some at' => shouldRestart ages name template at' now
                         | None => false
                         end in
        match decide_loop 3 DecideMaxSessionAge g (timer_facts triggered i now) with
        | None => None
        | Some dec =>
            match td_Action dec with
            | TimerActionStop => Some (stop_session now killed SessionMaxAgeKilled dec t)
            | _ => Some t
            end
        end
  | None => Some t
  end.

(** The streak of deferrals on one bead, and the stop it forces. *)
Definition defer_backstop (name template anchor : string) (dec : TimerDecision) (m : assignedWorkDeferTracker)
  : assignedWorkDeferTracker * TimerDecision :=
  match td_Action dec with
  | TimerActionDefer =>
      if String.eqb (td_TraceReason dec) "assigned_work" then
        let '(m, exhausted) := recordDefer name template anchor m in (m, if exhausted then DecideAssignedWorkExhausted else dec)
      else (defer_reset name m, dec)
  | _ => (defer_reset name m, dec)
  end.

(** The passage of the tick on the session's idleness. *)
Definition idle_pass (idle : option idleTracker) (name template : string) (lastActivity : option Z) (now : Z) (g : Gathered) (killed : bool)
    (t : TickState) : option TickState :=
  match idle with
  | Some idle =>
      if negb (tk_alive t) then Some t
      else
        let i := (tk_store t).2 in
        match decide_loop 3 DecideIdleTimeout g (timer_facts (checkIdle idle name template lastActivity now) i now) with
        | None => None
        | Some dec =>
            let '(defers, dec) :=
              match tk_defers t with
              | Some m => let '(m, dec) := defer_backstop name template (TrimSpace (field i "CurrentlyProcessingBeadID")) dec m in (Some m, dec)
              | None => (None, dec)
              end in
            let t := mkTick (tk_store t) (tk_alive t) defers (tk_killed t) (tk_cancelDrain t) (tk_skipWake t) in
            match td_Action dec with
            | TimerActionDefer => Some (mkTick (tk_store t) (tk_alive t) (tk_defers t) (tk_killed t) (td_CancelDrain dec) (td_SkipWakePass dec))
            | TimerActionStop => Some (stop_session now killed SessionIdleKilled dec t)
            | _ => Some t
            end
        end
  | None => Some t
  end.

End tick.
End timers.

Import beads session sessioninfo lifecycle transition reap timers.

#[local] Opaque infoFromPersistedBead field flag.

(** * A tick's decision *)

Section deciding.
Context `{TimeText}.

(** What holds a session whose timer fired. *)
Inductive Holder : Type := HeldByBlocker (b : string) | HeldByPending | HeldByWork | Unheld.

Definition hold (i : Info) (now : Z) (g : Gathered) : Holder :=
  let b := lifecycleTimerBlockerInfo i now in
  if negb (String.eqb b "") then HeldByBlocker b
  else if ga_pending g then HeldByPending
  else if default true (ga_work g) then HeldByWork
  else Unheld.

Definition idle_decision (triggered : bool) (h : Holder) : TimerDecision :=
  if negb triggered then action_only TimerActionNone
  else match h with
       | HeldByBlocker b => deferDecision b ("deferred_" +:+ b)
       | HeldByPending => mkTimerDecision TimerActionDefer "pending" "deferred_pending" "" true true
       | HeldByWork => deferDecision "assigned_work" "deferred_busy"
       | Unheld => mkTimerDecision TimerActionStop "idle_timeout" "stop" SleepReasonIdleTimeout false false
       end.

Definition age_decision (triggered : bool) (h : Holder) : TimerDecision :=
  if negb triggered then action_only TimerActionNone
  else match h with
       | HeldByBlocker b => deferDecision b ("deferred_" +:+ b)
       | HeldByPending => deferDecision "pending" "deferred_pending"
       | HeldByWork => deferDecision "assigned_work" "deferred_busy"
       | Unheld => mkTimerDecision TimerActionStop "max_session_age" "stop" SleepReasonMaxSessionAge false false
       end.

(** Two facts at most are gathered, so the third turn decides. *)
Lemma idle_decides triggered i now g : decide_loop 3 DecideIdleTimeout g (timer_facts triggered i now) = Some (idle_decision triggered (hold i now g)).
Proof.
  unfold timer_facts, hold. destruct triggered; [|done]. cbv zeta. generalize (lifecycleTimerBlockerInfo i now). intros b.
  destruct (String.eqb_spec b "") as [->|Hne]; [by destruct g as [[] [[]|]]|]. apply String.eqb_neq in Hne.
  assert (DecideIdleTimeout (mkTimerFacts true b PendingUnknown AssignedWorkUnknown) = deferDecision b ("deferred_" +:+ b)) as D
    by (unfold DecideIdleTimeout; cbn [tf_Triggered tf_Blocker negb]; by rewrite Hne).
  cbn [decide_loop]. by rewrite D.
Qed.

Lemma age_decides triggered i now g : decide_loop 3 DecideMaxSessionAge g (timer_facts triggered i now) = Some (age_decision triggered (hold i now g)).
Proof.
  unfold timer_facts, hold. destruct triggered; [|done]. cbv zeta. generalize (lifecycleTimerBlockerInfo i now). intros b.
  destruct (String.eqb_spec b "") as [->|Hne]; [by destruct g as [[] [[]|]]|]. apply String.eqb_neq in Hne.
  assert (DecideMaxSessionAge (mkTimerFacts true b PendingUnknown AssignedWorkUnknown) = deferDecision b ("deferred_" +:+ b)) as D
    by (unfold DecideMaxSessionAge; cbn [tf_Triggered tf_Blocker negb]; by rewrite Hne).
  cbn [decide_loop]. by rewrite D.
Qed.

End deciding.

(** * What a tick does *)

Section ticking.
Context `{TimeLaws} `{UnicodeTables}.

Definition age_triggered (ages : maxSessionAgeTracker) (name template : string) (now : Z) (t : TickState) : bool :=
  match parseRFC3339Metadata (field (tk_store t).2 "CreationCompleteAt") with Some at' => shouldRestart ages name template at' now | None => false end.

(** A session put to sleep in the tick: the runtime is gone, the snapshot says so whether
    or not the store took the write, and the event is recorded. *)
Definition slept (now : Z) (event reason : string) (t t' : TickState) : Prop :=
  tk_alive t' = false /\ tk_killed t' = tk_killed t ++ [event]
  /\ (tk_store t').2 = fold_patch (SleepPatch now reason) (tk_store t).2
  /\ (fr_meta (tk_store t').1 = SleepPatch now reason ∪ fr_meta (tk_store t).1 \/ fr_meta (tk_store t').1 = fr_meta (tk_store t).1).

(** Nothing done to the session. *)
Definition spared (t t' : TickState) : Prop := tk_store t' = tk_store t /\ tk_alive t' = tk_alive t /\ tk_killed t' = tk_killed t.

Lemma stop_slept now event dec t : slept now event (td_SleepReason dec) t (stop_session now true event dec t).
Proof.
  unfold slept, stop_session, applyOptimistic, write_and_fold. cbn [negb tk_alive tk_killed tk_store fst snd]. split_and!; [done..|].
  unfold front_ApplyPatch, empty_patch, write_batch. repeat case_match; cbn [fst fr_meta]; auto.
Qed.

Lemma stop_failed now event dec t : stop_session now false event dec t = t.
Proof. done. Qed.


(** The ticks of a live session with its trackers on. *)
Lemma age_pass_exact ages name template now g killed t :
  tk_alive t = true ->
  max_age_pass (Some ages) name template now g killed t
  = Some (if age_triggered ages name template now t then
            match hold (tk_store t).2 now g with
            | Unheld => stop_session now killed SessionMaxAgeKilled (age_decision true Unheld) t
            | _ => t
            end
          else t).
Proof.
  intros Ha. unfold max_age_pass. rewrite Ha. cbn [negb]. rewrite age_decides. fold (age_triggered ages name template now t).
  unfold age_decision. destruct (age_triggered ages name template now t); [|done]. by destruct (hold _ _ _).
Qed.

(** The tracker and the decision once the streak of deferrals has been looked at. *)
Definition backstopped (name template anchor : string) (dec : TimerDecision) (defers : option assignedWorkDeferTracker)
  : option assignedWorkDeferTracker * TimerDecision :=
  match defers with
  | Some m => let '(m, dec) := defer_backstop name template anchor dec m in (Some m, dec)
  | None => (None, dec)
  end.

Definition with_defers (defers : option assignedWorkDeferTracker) (t : TickState) : TickState :=
  mkTick (tk_store t) (tk_alive t) defers (tk_killed t) (tk_cancelDrain t) (tk_skipWake t).

Definition anchor_of (t : TickState) : string := TrimSpace (field (tk_store t).2 "CurrentlyProcessingBeadID").

Lemma idle_pass_exact idle name template activity now g killed t :
  tk_alive t = true ->
  idle_pass (Some idle) name template activity now g killed t
  = let '(defers, dec) := backstopped name template (anchor_of t)
      (idle_decision (checkIdle idle name template activity now) (hold (tk_store t).2 now g)) (tk_defers t) in
    Some (match td_Action dec with
          | TimerActionDefer =>
              mkTick (tk_store t) (tk_alive t) defers (tk_killed t) (td_CancelDrain dec) (td_SkipWakePass dec)
          | TimerActionStop => stop_session now killed SessionIdleKilled dec (with_defers defers t)
          | _ => with_defers defers t
          end).
Proof.
  intros Ha. unfold idle_pass. rewrite Ha. cbn [negb]. rewrite idle_decides. unfold backstopped, anchor_of, with_defers. rewrite Ha.
  destruct (tk_defers t) as [m|]; [destruct (defer_backstop _ _ _ _ _) as [m' dec]|];
    (match goal with |- context [td_Action ?d] => destruct (td_Action d) end); reflexivity.
Qed.

(** ** The streak of deferrals *)

Definition streak (m : assignedWorkDeferTracker) (name anchor : string) : Z :=
  match dt_state m !! name with Some st => if String.eqb (ad_anchorBeadID st) anchor then ad_count st else 0 | None => 0 end.

Lemma recordDefer_exact m name template anchor :
  let '(m', exhausted) := recordDefer name template anchor m in
  streak m' name anchor = streak m name anchor + 1 /\ limitFor m' name template = limitFor m name template
  /\ exhausted = (limitFor m name template <? streak m name anchor + 1).
Proof.
  unfold recordDefer, streak. cbv zeta. set (st := default (mkDefer "" 0) (dt_state m !! name)).
  assert (Hs : ad_count (if String.eqb (ad_anchorBeadID st) anchor then st else mkDefer anchor 0)
    = match dt_state m !! name with Some st => if String.eqb (ad_anchorBeadID st) anchor then ad_count st else 0 | None => 0 end).
  { subst st. destruct (dt_state m !! name) as [st|].
    - change (default (mkDefer "" 0) (Some st)) with st. by destruct (String.eqb (ad_anchorBeadID st) anchor).
    - change (default (mkDefer "" 0) None) with (mkDefer "" 0). by destruct (String.eqb _ _). }
  assert (Ha : ad_anchorBeadID (if String.eqb (ad_anchorBeadID st) anchor then st else mkDefer anchor 0) = anchor).
  { destruct (String.eqb_spec (ad_anchorBeadID st) anchor) as [E|E]; [exact E|done]. }
  cbn [dt_state]. rewrite lookup_insert_eq. cbn [ad_anchorBeadID ad_count]. rewrite Ha, String.eqb_refl, Hs. done.
Qed.

(** A tick on which the timer fires and only the work holds the session. *)
Record Tick : Type := mkTickInput { ti_activity : option Z; ti_now : Z; ti_gathered : Gathered }.

Definition held_by_work (idle : idleTracker) (name template : string) (i : Info) (x : Tick) : Prop :=
  checkIdle idle name template (ti_activity x) (ti_now x) = true /\ hold i (ti_now x) (ti_gathered x) = HeldByWork.

Definition tick (idle : idleTracker) (name template : string) (x : Tick) (t : TickState) : option TickState :=
  idle_pass (Some idle) name template (ti_activity x) (ti_now x) (ti_gathered x) true t.

Fixpoint ticks (idle : idleTracker) (name template : string) (xs : list Tick) (t : TickState) : option TickState :=
  match xs with
  | [] => Some t
  | x :: xs => match tick idle name template x t with Some t' => ticks idle name template xs t' | None => None end
  end.

Lemma ticks_app idle name template xs ys t :
  ticks idle name template (xs ++ ys) t
  = match ticks idle name template xs t with Some t' => ticks idle name template ys t' | None => None end.
Proof. revert t. induction xs as [|x xs IH]; intros t; cbn [ticks app]; [done|]. by destruct (tick idle name template x t). Qed.

Lemma work_tick idle name template x t m :
  tk_alive t = true -> tk_defers t = Some m -> held_by_work idle name template (tk_store t).2 x ->
  exists m', streak m' name (anchor_of t) = streak m name (anchor_of t) + 1 /\ limitFor m' name template = limitFor m name template
  /\ tick idle name template x t
     = Some (if limitFor m name template <? streak m name (anchor_of t) + 1
             then stop_session (ti_now x) true SessionIdleKilled DecideAssignedWorkExhausted (with_defers (Some m') t)
             else mkTick (tk_store t) true (Some m') (tk_killed t) false false).
Proof.
  intros Ha Hd [Hc Hh]. unfold tick. rewrite idle_pass_exact by done. rewrite Hc, Hh, Hd. unfold idle_decision, backstopped, defer_backstop.
  cbn [negb td_Action td_TraceReason deferDecision]. change (String.eqb "assigned_work" "assigned_work") with true. cbv iota.
  pose proof (recordDefer_exact m name template (anchor_of t)) as Hr. destruct (recordDefer name template (anchor_of t) m) as [m' exhausted].
  destruct Hr as (H1' & H2' & ->). exists m'. split; [done|]. split; [done|]. rewrite Ha.
  by destruct (limitFor m name template <? streak m name (anchor_of t) + 1).
Qed.

Lemma work_ticks idle name template xs : forall t m,
  tk_alive t = true -> tk_defers t = Some m -> Forall (held_by_work idle name template (tk_store t).2) xs ->
  streak m name (anchor_of t) + Z.of_nat (length xs) <= limitFor m name template ->
  exists t' m', ticks idle name template xs t = Some t' /\ spared t t' /\ tk_defers t' = Some m'
  /\ streak m' name (anchor_of t) = streak m name (anchor_of t) + Z.of_nat (length xs) /\ limitFor m' name template = limitFor m name template.
Proof.
  induction xs as [|x xs IH]; intros t m Ha Hd Hx Hl; cbn [ticks length].
  { exists t, m. cbn in Hl. split_and!; [done..|lia|done]. }
  apply Forall_cons in Hx as [Hx Hxs]. cbn [length] in Hl. destruct (work_tick idle name template x t m Ha Hd Hx) as (m1 & Es & El & Et).
  rewrite (proj2 (Z.ltb_ge _ _)) in Et by lia. rewrite Et.
  destruct (IH (mkTick (tk_store t) true (Some m1) (tk_killed t) false false) m1) as (t' & m' & E & (S1 & S2 & S3) & D & Es' & El'); [done..| |].
  { change (anchor_of (mkTick _ _ _ _ _ _)) with (anchor_of t). rewrite Es, El. lia. }
  change (anchor_of (mkTick _ _ _ _ _ _)) with (anchor_of t) in Es'.
  exists t', m'. split_and!; [done|unfold spared; cbn in *; by rewrite Ha|done|rewrite Es', Es; lia|by rewrite El', El].
Qed.

(** (C26) A tick stops a session only when nothing holds it, and always decides.  The gathering
    loops end by their third turn.  A live session is put to sleep by its age only if the
    timer fired and it has no hold or quarantine, no interaction pending and no assigned
    work, an error of the stores counting as work, and the runtime could be stopped; by
    idleness only under the same conditions or, with only work holding it, when its streak
    of deferrals on that bead is past the limit.  Then the snapshot sleeps with that reason
    even if the store refused the write; in every other case the session, its store and its
    events are as they were. *)
Theorem timers_stop_exact ages idle name template activity now g killed t :
  tk_alive t = true ->
  let i := (tk_store t).2 in
  (exists t', max_age_pass (Some ages) name template now g killed t = Some t'
    /\ if age_triggered ages name template now t && killed && match hold i now g with Unheld => true | _ => false end
       then slept now SessionMaxAgeKilled SleepReasonMaxSessionAge t t' else t' = t)
  /\ (exists t', idle_pass (Some idle) name template activity now g killed t = Some t'
    /\ let exhausted := match tk_defers t with
                        | Some m => limitFor m name template <? streak m name (anchor_of t) + 1
                        | None => false
                        end in
       match (if checkIdle idle name template activity now && killed then hold i now g else HeldByPending) with
       | Unheld => slept now SessionIdleKilled SleepReasonIdleTimeout t t'
       | HeldByWork => if exhausted then slept now SessionIdleKilled SleepReasonAssignedWorkExhausted t t' else spared t t'
       | _ => spared t t'
       end).
Proof.
  intros Ha. cbn zeta. split.
  - rewrite age_pass_exact by done. eexists. split; [reflexivity|]. destruct (age_triggered ages name template now t); [|done].
    cbn [andb]. destruct (hold _ _ _); rewrite ?andb_false_r, ?andb_true_r; try done. destruct killed; [apply stop_slept|done].
  - rewrite idle_pass_exact by done. destruct (checkIdle idle name template activity now) eqn:Hc; cbn [andb].
    + destruct (hold (tk_store t).2 now g) as [b| | |] eqn:Hh.
      * destruct (tk_defers t) as [m|]; cbn [backstopped idle_decision negb].
        -- unfold defer_backstop. cbn [td_Action deferDecision td_TraceReason]. destruct (String.eqb_spec b "assigned_work") as [->|Hne].
           { exfalso. unfold hold, lifecycleTimerBlockerInfo in Hh. repeat case_match; simplify_eq/=. }
           eexists. split; [reflexivity|]. by destruct killed.
        -- eexists. split; [reflexivity|]. by destruct killed.
      * destruct (tk_defers t) as [m|]; cbn; (eexists; split; [reflexivity|]; by destruct killed).
      * destruct (tk_defers t) as [m|]; cbn [backstopped idle_decision negb].
        -- unfold defer_backstop. cbn [td_Action deferDecision td_TraceReason]. change (String.eqb "assigned_work" "assigned_work") with true. cbv iota.
           pose proof (recordDefer_exact m name template (anchor_of t)) as Hr. destruct (recordDefer _ _ _ _) as [m' exhausted].
           destruct Hr as (_ & _ & ->). destruct (limitFor m name template <? _); (eexists; split; [reflexivity|]); destruct killed; try done.
           apply (stop_slept now SessionIdleKilled DecideAssignedWorkExhausted (with_defers (Some m') t)).
        -- eexists. split; [reflexivity|]. by destruct killed.
      * destruct (tk_defers t) as [m|]; cbn [backstopped idle_decision negb defer_backstop td_Action]; (eexists; split; [reflexivity|]); destruct killed; try done.
        -- apply (stop_slept now SessionIdleKilled (idle_decision true Unheld) (with_defers (Some (defer_reset name m)) t)).
        -- apply (stop_slept now SessionIdleKilled (idle_decision true Unheld) (with_defers None t)).
    + destruct (tk_defers t) as [m|]; cbn; (eexists; split; [reflexivity|]; done).
Qed.

(** (C32) A session that keeps deferring its idle stop to one bead is stopped at a bounded
    tick.  While its work alone holds it, on ticks whose idle timer fires, and from a streak
    that has just been reset, it is spared for exactly as many ticks as the limit
    configured for it (its own, else its template's unless exempt, else three), and put to
    sleep on the next. *)
Theorem deferral_bounded idle name template xs x t m :
  tk_alive t = true -> tk_defers t = Some m -> dt_state m !! name = None ->
  Forall (held_by_work idle name template (tk_store t).2) (xs ++ [x]) -> Z.of_nat (length xs) = limitFor m name template ->
  exists t1 t2, ticks idle name template xs t = Some t1 /\ spared t t1
  /\ ticks idle name template (xs ++ [x]) t = Some t2 /\ slept (ti_now x) SessionIdleKilled SleepReasonAssignedWorkExhausted t t2.
Proof.
  intros Ha Hd Hn Hx Hl. apply Forall_app in Hx as [Hxs Hx]. apply (proj1 (Forall_singleton _ x)) in Hx.
  assert (streak m name (anchor_of t) = 0) as E0 by (unfold streak; by rewrite Hn).
  destruct (work_ticks idle name template xs t m Ha Hd Hxs) as (t1 & m1 & E1 & S & D1 & Es & El); [lia|].
  destruct S as (S1 & S2 & S3). assert (anchor_of t1 = anchor_of t) as Ea by (unfold anchor_of; by rewrite S1).
  destruct (work_tick idle name template x t1 m1) as (m2 & _ & _ & E2); [by rewrite S2|done|by rewrite S1|].
  rewrite Ea, El, Es, E0, (proj2 (Z.ltb_lt _ _)) in E2 by lia.
  eexists t1, _. split; [done|]. split; [by split|]. split.
  - rewrite ticks_app, E1. cbn [ticks]. by rewrite E2.
  - pose proof (stop_slept (ti_now x) SessionIdleKilled DecideAssignedWorkExhausted (with_defers (Some m2) t1)) as Hs.
    unfold slept in *. cbn [with_defers tk_killed tk_store] in Hs. by rewrite S1, S3 in Hs.
Qed.
End ticking.

(** * The restart tracker *)

Definition since (cutoff : Z) (l : list Z) : list Z := List.filter (fun t => cutoff <=? t) l.

Lemma drop_before_sorted cutoff l : StronglySorted Z.le l -> drop_before cutoff l = since cutoff l.
Proof.
  induction 1 as [|t l Hl IH Ht]; [done|]. cbn. destruct (Z.ltb_spec t cutoff), (Z.leb_spec cutoff t); try lia; [done|].
  f_equal. symmetry. clear IH. induction l as [|u l IH']; [done|]. inversion_clear Hl. inversion_clear Ht. cbn.
  rewrite (proj2 (Z.leb_le _ _)) by lia. f_equal. by apply IH'.
Qed.

Lemma since_since c d l : d <= c -> since c (since d l) = since c l.
Proof.
  intros Hd. unfold since. induction l as [|t l IH]; [done|]. cbn [List.filter]. destruct (Z.leb_spec d t); cbn [List.filter]; rewrite IH; [done|].
  by rewrite (proj2 (Z.leb_gt _ _)) by lia.
Qed.

Lemma since_app c a b : since c (a ++ b) = since c a ++ since c b.
Proof. apply List.filter_app. Qed.

Lemma since_sorted c l : StronglySorted Z.le l -> StronglySorted Z.le (since c l).
Proof.
  unfold since. induction 1 as [|t l Hl IH Ht]; cbn [List.filter]; [constructor|]. destruct (c <=? t); [|done]. constructor; [done|].
  rewrite List.Forall_forall in *. intros u Hu. apply Ht. by apply filter_In in Hu as [? _].
Qed.

Lemma sorted_snoc l t : StronglySorted Z.le l -> Forall (fun u => u <= t) l -> StronglySorted Z.le (l ++ [t]).
Proof.
  induction 1 as [|u l Hl IH Hu]; intros Hf; cbn; [by repeat constructor|]. apply Forall_cons in Hf as [Hut Hf]. constructor; [by apply IH|].
  apply Forall_app. split; [done|]. by repeat constructor.
Qed.

Lemma prune_starts name now m :
  StronglySorted Z.le (starts_of m name) -> starts_of (crash_prune name now m) name = since (now - ct_restartWindow m) (starts_of m name).
Proof.
  intros Hs. unfold crash_prune. destruct (starts_of m name) as [|t l] eqn:E; [by rewrite E|].
  rewrite drop_before_sorted by done. destruct (since _ (t :: l)); unfold starts_of; cbn [ct_starts]; by rewrite ?lookup_delete_eq, ?lookup_insert_eq.
Qed.

Lemma prune_limits name now m :
  ct_restartWindow (crash_prune name now m) = ct_restartWindow m /\ ct_maxRestarts (crash_prune name now m) = ct_maxRestarts m.
Proof. unfold crash_prune. repeat case_match; done. Qed.

Lemma starts_insert a w s name l : starts_of (mkCrashTracker a w (<[name := l]> s)) name = l.
Proof. unfold starts_of. cbn [ct_starts]. by rewrite lookup_insert_eq. Qed.

Definition record_starts (name : string) (ts : list Z) (m : crashTracker) : crashTracker := fold_left (fun m t => recordStart name t m) ts m.

Lemma record_starts_kept name ts m :
  starts_of m name = [] -> StronglySorted Z.le ts ->
  let m' := record_starts name ts m in
  ct_restartWindow m' = ct_restartWindow m /\ ct_maxRestarts m' = ct_maxRestarts m
  /\ StronglySorted Z.le (starts_of m' name) /\ Forall (fun t => t ∈ ts) (starts_of m' name)
  /\ forall now, Forall (fun t => t <= now) ts -> since (now - ct_restartWindow m) (starts_of m' name) = since (now - ct_restartWindow m) ts.
Proof.
  intros H0. cbn zeta. induction ts as [|t ts IH] using rev_ind; intros Hs; unfold record_starts in *; cbn [fold_left].
  { rewrite H0. split_and!; done. }
  assert (StronglySorted Z.le ts /\ Forall (fun u => u <= t) ts) as [Hts Ht].
  { clear -Hs. induction ts as [|u ts IH]; [by split; constructor|]. cbn in Hs. inversion_clear Hs as [|? ? Hs' Hu].
    destruct (IH Hs') as [? ?]. apply Forall_app in Hu as [Hu Hut]. apply (proj1 (Forall_singleton _ t)) in Hut. by split; constructor. }
  destruct (IH Hts) as (W & M & S & I & K). rewrite fold_left_app. cbn [fold_left]. set (m1 := fold_left _ ts m) in *.
  pose proof (prune_starts name t m1 S) as P. destruct (prune_limits name t m1) as [PW PM]. unfold recordStart. cbn [ct_restartWindow ct_maxRestarts].
  rewrite PW, PM, W, M. split; [done|]. split; [done|]. rewrite starts_insert, P, W.
  assert (Hk : Forall (fun u => u ∈ ts) (since (t - ct_restartWindow m) (starts_of m1 name))).
  { rewrite Forall_forall in *. intros u Hu. apply I, list_elem_of_In. by apply list_elem_of_In, filter_In in Hu as [? _]. }
  split; [|split].
  - apply sorted_snoc; [by apply since_sorted|]. rewrite Forall_forall in *. intros u Hu. apply Ht, Hk, Hu.
  - apply Forall_app. split; [|by constructor; [apply elem_of_app; right; left|]]. eapply Forall_impl; [exact Hk|]. intros u Hu. apply elem_of_app. by left.
  - intros now Hnow. apply Forall_app in Hnow as [Hn1 Hn2]. apply (proj1 (Forall_singleton _ t)) in Hn2. cbn beta in Hn2.
    rewrite !since_app. f_equal. rewrite since_since by lia. by apply K.
Qed.

(** The restart tracker is the window it stands for.  Over starts recorded in the order of
    their times, though it forgets what each call finds too old, it reports a session
    quarantined exactly when as many starts as the limit fall within the window. *)
Theorem restart_window_exact maxRestarts window m name ts now :
  newCrashTracker maxRestarts window = Some m -> StronglySorted Z.le ts -> Forall (fun t => t <= now) ts ->
  (isQuarantined name now (record_starts name ts m)).2 = (maxRestarts <=? Z.of_nat (length (since (now - window) ts))).
Proof.
  unfold newCrashTracker. destruct (maxRestarts <=? 0); [done|]. intros [= <-] Hs Hn.
  assert (starts_of (mkCrashTracker maxRestarts window ∅) name = []) as H0 by (unfold starts_of; cbn [ct_starts]; by rewrite lookup_empty).
  destruct (record_starts_kept name ts (mkCrashTracker maxRestarts window ∅) H0 Hs) as (W & M & S & _ & K).
  unfold isQuarantined. cbn [snd]. destruct (prune_limits name now (record_starts name ts (mkCrashTracker maxRestarts window ∅))) as [_ PM].
  rewrite PM, M, prune_starts, W by done. cbn [ct_restartWindow ct_maxRestarts] in *. by rewrite K.
Qed.

(** * At work *)

Definition example_tick_state : TickState :=
  mkTick (mkFront (bd_Metadata example_bead) [false], @infoFromPersistedBead digit_time example_bead) true (Some newAssignedWorkDeferTracker) [] false false.

Definition example_idle : idleTracker := idle_setTimeout "s" 1000 newIdleTracker.

Definition busy_tick (now : Z) : Tick := mkTickInput (Some 1) now (mkGathered false (Some true)).

Lemma timers_stop_exact_witness :
  tk_alive example_tick_state = true
  /\ exists t', @idle_pass digit_time (Some example_idle) "s" "" (Some 1) 9000 (mkGathered false (Some false)) true example_tick_state = Some t'
     /\ @slept digit_time 9000 SessionIdleKilled SleepReasonIdleTimeout example_tick_state t'.
Proof.
  split; [reflexivity|].
  destruct (@timers_stop_exact digit_time newMaxSessionAgeTracker example_idle "s" "" (Some 1) 9000 (mkGathered false (Some false)) true
    example_tick_state eq_refl) as [_ (t' & E & Hs)].
  exists t'. split; [exact E|]. vm_compute in Hs |- *. exact Hs.
Defined.

Lemma deferral_bounded_witness :
  exists t2, @ticks digit_time example_idle "s" "" (map busy_tick [9000; 9100; 9200] ++ [busy_tick 9300]) example_tick_state = Some t2
  /\ tk_alive t2 = false.
Proof.
  assert (Forall (@held_by_work digit_time example_idle "s" "" (tk_store example_tick_state).2) (map busy_tick [9000; 9100; 9200] ++ [busy_tick 9300])) as Hx.
  { repeat (apply Forall_cons; split; [split; vm_compute; reflexivity|]). apply Forall_nil. exact I. }
  destruct (@deferral_bounded digit_time example_idle "s" "" (map busy_tick [9000; 9100; 9200]) (busy_tick 9300) example_tick_state newAssignedWorkDeferTracker
    eq_refl eq_refl eq_refl Hx eq_refl) as (t1 & t2 & _ & _ & E & Hs & _).
  exists t2. split; [exact E|exact Hs].
Defined.
