(* ===== verification/SessionPrime.v ===== *)
(** The priming markers of a session: over any history of its transitions, and of clears
    that may stop between two writes, they are written together and only beside the hash of
    the configuration that was started, unless a clear was torn. *)
From S2P Require Import Prelude GoStd BeadQuery SessionMachine SessionInfo SessionLifecycle SessionPatch SessionLifeProps SessionReap SessionReapProps.
Import beads session sessioninfo lifecycle transition reap.

Section prime.
Context `{TimeLaws} `{UnicodeTables}.
Implicit Type m p : gmap string string.

(** * Patches that leave the markers or clear them *)

Definition clear_marks : list string := [""; ""; ""; ""].

(** Whatever the metadata, the marks stand or fall together. *)
Definition gentle p : Prop := forall m, marks (p ∪ m) = marks m \/ marks (p ∪ m) = clear_marks.

(** The transitions that write nothing but a gentle patch. *)
Inductive gentle_transition : gmap string string -> Prop :=
| gt_explicit_wake wall reason now : gentle_transition (RequestExplicitWakePatch wall reason now)
| gt_wake wall reason now : gentle_transition (RequestWakePatch wall reason now)
| gt_prewake wall input : gentle_transition (PreWakePatch wall input)
| gt_reset_wake wall now : gentle_transition (ContinuationResetWakePatch wall now)
| gt_unblock state reason : gentle_transition (ClearWakeBlockersPatch state reason)
| gt_hold reason : gentle_transition (ClearExpiredHoldPatch reason)
| gt_quarantine_over reason : gentle_transition (ClearExpiredQuarantinePatch reason)
| gt_confirm wall now : gentle_transition (ConfirmStartedPatch wall now)
| gt_drain now reason : gentle_transition (BeginDrainPatch now reason)
| gt_drain_ack now : gentle_transition (DrainAckStopPendingPatch now)
| gt_sleep now reason : gentle_transition (SleepPatch now reason)
| gt_drained fresh : gentle_transition (AcknowledgeDrainPatch fresh)
| gt_drain_done now reason fresh : gentle_transition (CompleteDrainPatch now reason fresh)
| gt_restart wall key now : gentle_transition (RestartRequestPatch wall key now)
| gt_drift wall state key now : gentle_transition (ConfigDriftResetPatch wall state key now)
| gt_archive now reason keep : gentle_transition (ArchivePatch now reason keep)
| gt_close now code : gentle_transition (ClosePatch now code)
| gt_retire now reason identity : gentle_transition (RetireNamedSessionPatch now reason identity)
| gt_quarantine until cycle : gentle_transition (QuarantinePatch until cycle)
| gt_reactivate keep : gentle_transition (ReactivatePatch keep)
| gt_crash attempts limit until : gentle_transition (ea_Patch (WakeFailureAccrualPatch attempts limit until))
| gt_churn cycles limit until : gentle_transition (ea_Patch (ChurnAccrualPatch cycles limit until))
| gt_conversation clear : gentle_transition (ConversationResetPatch clear)
| gt_rate_limit until : gentle_transition (RateLimitQuarantinePatch until)
| gt_terminal now reason : gentle_transition (terminal_error_batch now reason)
| gt_stale_resume : gentle_transition clearStaleResumeKeyMetadata.

Definition mark_keys : list string := ["started_config_hash"; "primed_at"; "priming_attempted_at"; "prompt_hash"].

Lemma gentle_lookup p : map (fun k => p !! k) mark_keys = map (fun _ => None) mark_keys \/ map (fun k => p !! k) mark_keys = map (fun _ => Some "") mark_keys -> gentle p.
Proof.
  intros Hp m. unfold mark_keys in Hp. cbn [map] in Hp.
  destruct Hp as [Hp|Hp]; injection Hp as E1 E2 E3 E4; [left|right]; unfold marks, clear_marks; cbn [map]; unfold mget;
    rewrite !lookup_union, E1, E2, E3, E4; [by rewrite !(left_id_L None _)|]. 
  by rewrite !union_Some_l.
Qed.

Local Ltac gentle_patch :=
  repeat match goal with |- context [if ?c then _ else _] => destruct c end; apply gentle_lookup; first [left; vm_compute; reflexivity|right; vm_compute; reflexivity].

Lemma gentle_literal l :
  forallb (fun kv => negb (one_of kv.1 ["started_config_hash"; "primed_at"; "priming_attempted_at"; "prompt_hash"])) l = true -> gentle (literal l).
Proof.
  intros Hl m. left. induction l as [|[k v] l IH]; [by rewrite literal_nil, map_empty_union|]. cbn [forallb fst] in Hl. apply andb_prop in Hl as [Hk Hl].
  rewrite literal_cons. unfold marks in *. cbn [map] in *. rewrite !mget_over. unfold one_of in Hk. cbn [existsb] in Hk.
  rewrite negb_true_iff, !orb_false_iff in Hk. destruct Hk as (-> & -> & -> & -> & _). by apply IH.
Qed.

Lemma transition_gentle p : gentle_transition p -> gentle p.
Proof.
  destruct 1; try (apply gentle_literal; reflexivity).
  - unfold PreWakePatch. cbv zeta. gentle_patch.
  - unfold ContinuationResetWakePatch, RequestWakePatch. gentle_patch.
  - unfold ClearWakeBlockersPatch. cbv zeta. gentle_patch.
  - unfold ClearExpiredHoldPatch. cbv zeta. gentle_patch.
  - unfold ClearExpiredQuarantinePatch. cbv zeta. gentle_patch.
  - unfold DrainAckStopPendingPatch, BeginDrainPatch. gentle_patch.
  - unfold AcknowledgeDrainPatch, fresh_wake. gentle_patch.
  - unfold CompleteDrainPatch, fresh_wake, SleepPatch. gentle_patch.
  - unfold RestartRequestPatch, add_if. cbv zeta. gentle_patch.
  - unfold ConfigDriftResetPatch, add_if. cbv zeta. gentle_patch.
  - unfold RetireNamedSessionPatch, ArchivePatch, add_if. cbv zeta. gentle_patch.
  - unfold WakeFailureAccrualPatch, exitAccrual. destruct (_ <=? _); by apply gentle_literal.
  - unfold ChurnAccrualPatch, exitAccrual. destruct (_ <=? _); by apply gentle_literal.
  - unfold ConversationResetPatch. cbv zeta. gentle_patch.
  - unfold clearStaleResumeKeyMetadata. gentle_patch.
Qed.

(** * Histories *)

(** A commit of a start, or a new baseline of its hash: a hash is never empty. *)
Definition rebaseline (hash provision launch breakdown : string) : gmap string string :=
  literal [("started_config_hash", hash); ("started_provision_hash", provision); ("started_launch_hash", launch); ("core_hash_breakdown", breakdown)].

Inductive session_step (b : Bead) : Bead -> Prop :=
| step_transition p : gentle_transition p -> session_step b (patched p b)
| step_commit wall input : cs_CoreHash input <> "" -> session_step b (patched (CommitStartedPatch wall input) b)
| step_rebaseline hash provision launch breakdown : hash <> "" -> session_step b (patched (rebaseline hash provision launch breakdown) b)
| step_heal wall clk startup available alive :
    bd_Status b <> "closed" -> session_step b (patched (heal_batch wall clk startup available alive b) b)
| step_drift wall state generated now : session_step b (patched (config_drift_batch wall (infoFromPersistedBead b) state generated now) b)
| step_clear outcomes w ok :
    clearStaleResumeMetadata (mkFront (bd_Metadata b) outcomes) = (w, ok) ->
    ok = true \/ mget (fr_meta w) "started_config_hash" = mget (bd_Metadata b) "started_config_hash" ->
    session_step b (set_Metadata (fr_meta w) b)
| step_close : session_step b (set_Status "closed" b).

(** A clear of what is stale that dropped the hash and stopped at a later write. *)
Definition torn_clear (b b' : Bead) : Prop :=
  exists outcomes w, clearStaleResumeMetadata (mkFront (bd_Metadata b) outcomes) = (w, false) /\ b' = set_Metadata (fr_meta w) b
    /\ mget (bd_Metadata b) "started_config_hash" <> "" /\ mget (fr_meta w) "started_config_hash" = "".

Definition any_step (b b' : Bead) : Prop := session_step b b' \/ torn_clear b b'.

(** ** Clears, write by write *)

Definition set_keys (kvs : list (string * string)) m : gmap string string := fold_left (fun m kv => <[kv.1 := kv.2]> ∅ ∪ m) kvs m.

Lemma set_each_prefix kvs : forall w w' ok, set_each kvs w = (w', ok) ->
  exists written left, kvs = written ++ left /\ fr_meta w' = set_keys written (fr_meta w) /\ (ok = true -> left = []).
Proof.
  induction kvs as [|[k v] kvs IH]; intros w w' ok; cbn [set_each]; [intros [= <- <-]; by exists [], []|].
  unfold front_SetMarker, write_batch. destruct (fr_writes w) as [|[] ws] eqn:E.
  3: { intros [= <- <-]. by exists [], ((k, v) :: kvs). }
  all: intros Hs; apply IH in Hs as (written & left & -> & -> & Hl); exists ((k, v) :: written), left;
    (split; [done|]); (split; [|done]); cbn [set_keys fold_left fst snd fr_meta]; by rewrite ?insert_empty.
Qed.

Lemma set_keys_keep kvs k : forallb (fun kv => negb (String.eqb kv.1 k) || String.eqb kv.2 "") kvs = true ->
  forall m, mget m k = "" -> mget (set_keys kvs m) k = "".
Proof.
  induction kvs as [|[k' v] kvs IH]; intros Hf m Hm; [done|]. cbn [forallb fst snd] in Hf. apply andb_prop in Hf as [Hkv Hf].
  cbn [set_keys fold_left fst snd]. apply IH; [done|]. rewrite mget_over, mget_over_empty. destruct (String.eqb k' k); [|done].
  cbn [negb orb] in Hkv. by apply String.eqb_eq in Hkv.
Qed.

Lemma forallb_prefix {A} (f : A -> bool) l1 l2 : forallb f (l1 ++ l2) = true -> forallb f l1 = true.
Proof. rewrite forallb_app. by intros [? _]%andb_prop. Qed.

Lemma clear_completed m outcomes w : clearStaleResumeMetadata (mkFront m outcomes) = (w, true) -> marks (fr_meta w) = clear_marks.
Proof.
  intros (written & left & E & -> & Hl)%set_each_prefix. rewrite (Hl eq_refl), app_nil_r in E. subst written.
  unfold marks, clear_marks, set_keys. cbn [map app fold_left fst snd primingResetKeys].
  repeat rewrite mget_over, mget_over_empty. reflexivity.
Qed.

Lemma clear_attempted m outcomes w ok :
  clearStaleResumeMetadata (mkFront m outcomes) = (w, ok) -> mget m "priming_attempted_at" = "" -> mget (fr_meta w) "priming_attempted_at" = "".
Proof.
  intros (written & left & E & -> & _)%set_each_prefix Hm. apply set_keys_keep; [|done]. apply (forallb_prefix _ _ left). rewrite <- E. reflexivity.
Qed.

(** Primed means both markers, beside a started configuration; nothing marks an attempt. *)
Definition primed_whole m : Prop :=
  mget m "priming_attempted_at" = "" /\ (mget m "primed_at" = "" <-> mget m "prompt_hash" = "")
  /\ (mget m "primed_at" <> "" -> mget m "started_config_hash" <> "").

Lemma marks_same m m' : marks m' = marks m -> primed_whole m -> primed_whole m'.
Proof. unfold marks. cbn [map]. intros E. injection E as E1 E2 E3 E4. unfold primed_whole. by rewrite E1, E2, E3, E4. Qed.

Lemma marks_clear m : marks m = clear_marks -> primed_whole m.
Proof. unfold marks, clear_marks. cbn [map]. intros E. injection E as E1 E2 E3 E4. unfold primed_whole. by rewrite E1, E2, E3, E4. Qed.

Lemma gentle_whole p m : gentle p -> primed_whole m -> primed_whole (p ∪ m).
Proof. intros Hg Hm. destruct (Hg m) as [E|E]; [by apply (marks_same m)|by apply marks_clear]. Qed.

Lemma commit_whole wall input m : cs_CoreHash input <> "" -> primed_whole m -> primed_whole (CommitStartedPatch wall input ∪ m).
Proof.
  intros Hh (Ha & Hp & Hs). set (primes := negb (IsZero (cs_PrimedAt input)) && negb (String.eqb (cs_PromptHash input) "")).
  assert (mget (CommitStartedPatch wall input ∪ m) "started_config_hash" = cs_CoreHash input
    /\ mget (CommitStartedPatch wall input ∪ m) "priming_attempted_at" = mget m "priming_attempted_at"
    /\ mget (CommitStartedPatch wall input ∪ m) "primed_at" = (if primes then format_time (cs_PrimedAt input) else mget m "primed_at")
    /\ mget (CommitStartedPatch wall input ∪ m) "prompt_hash" = (if primes then cs_PromptHash input else mget m "prompt_hash")) as (E1 & E2 & E3 & E4).
  { unfold CommitStartedPatch. cbv zeta. fold primes.
    split_and!; repeat (rewrite mget_add_if; unfold PrimedAtMetadataKey, PromptHashMetadataKey; cbv beta; rewrite ?mget_over;
      cbn [String.eqb Ascii.eqb Bool.eqb]; rewrite ?if_same); read_patch; done. }
  unfold primed_whole. rewrite E1, E2, E3, E4. split; [done|]. subst primes.
  destruct (negb (IsZero (cs_PrimedAt input)) && negb (String.eqb (cs_PromptHash input) "")) eqn:E; [|done].
  apply andb_prop in E as [_ E%negb_true_iff%String.eqb_neq]. pose proof (format_nonempty (cs_PrimedAt input)). tauto.
Qed.

(** A clear that left the hash as it was left the markers, or found none. *)
Lemma clear_harmless m outcomes w ok :
  clearStaleResumeMetadata (mkFront m outcomes) = (w, ok) -> mget (fr_meta w) "started_config_hash" = mget m "started_config_hash" ->
  primed_whole m -> primed_whole (fr_meta w).
Proof.
  intros (written & left & E & -> & _)%set_each_prefix Hsame Hm. cbn [fr_meta] in *.
  destruct written as [|kv1 [|kv2 rest]]; [done| |].
  - injection E as <- _. apply (marks_same m); [|done]. unfold marks, set_keys. cbn [map fold_left fst snd]. by rewrite !mget_over, !mget_over_empty.
  - assert (mget m "started_config_hash" = "") as Hh.
    { rewrite <- Hsame. injection E as <- <- E. unfold set_keys. cbn [fold_left fst snd]. apply (set_keys_keep rest).
      - apply (forallb_prefix _ _ left). rewrite <- E. reflexivity.
      - rewrite mget_over, String.eqb_refl. done. }
    destruct Hm as (Ha & Hp & Hs). assert (mget m "primed_at" = "") as Hp1.
    { destruct (decide (mget m "primed_at" = "")) as [|Hne]; [done|]. by apply Hs in Hne. }
    apply Hp in Hp1 as Hp2.
    assert (forall k, k = "priming_attempted_at" \/ k = "primed_at" \/ k = "prompt_hash" -> mget m k = "" -> mget (set_keys (kv1 :: kv2 :: rest) m) k = "") as Hk.
    { intros k Hk Hmk. apply set_keys_keep; [|done]. apply (forallb_prefix _ _ left). rewrite <- E. by destruct Hk as [->|[->| ->]]. }
    unfold primed_whole. rewrite !Hk by (done || tauto). done.
Qed.

Lemma step_whole b b' : session_step b b' -> primed_whole (bd_Metadata b) -> primed_whole (bd_Metadata b').
Proof.
  intros [p Hp|wall input Hh|hash pr la br Hh|wall clk startup available alive Ho|wall state generated now|outcomes w ok Hc Hok|] Hb.
  - by apply gentle_whole; [apply transition_gentle|].
  - by apply commit_whole.
  - rewrite metadata_patched. destruct Hb as (Ha & Hp & _). unfold rebaseline, primed_whole. read_patch. done.
  - destruct (heal_marks wall clk startup available alive b Ho) as [E|E]; [by apply (marks_same (bd_Metadata b))|by apply marks_clear].
  - rewrite metadata_patched. set (q := config_drift_batch _ _ _ _ _).
    assert (map (fun k => q !! k) ["priming_attempted_at"; "primed_at"; "prompt_hash"] = [Some ""; Some ""; Some ""]) as E.
    { subst q. unfold config_drift_batch, ConfigDriftResetPatch, add_if. cbv zeta.
      repeat match goal with |- context [if ?c then _ else _] => destruct c end; vm_compute; reflexivity. }
    cbn [map] in E. injection E as E1 E2 E3. unfold primed_whole, mget. rewrite !lookup_union, E1, E2, E3, !union_Some_l. done.
  - destruct Hok as [->|Hsame]; [by apply marks_clear, (clear_completed (bd_Metadata b) outcomes)|]. by apply (clear_harmless (bd_Metadata b) outcomes w ok).
  - done.
Qed.

(** No step, torn or not, marks an attempt. *)
Lemma commit_attempted wall input m : mget (CommitStartedPatch wall input ∪ m) "priming_attempted_at" = mget m "priming_attempted_at".
Proof.
  unfold CommitStartedPatch. cbv zeta.
  repeat (rewrite mget_add_if; unfold PrimedAtMetadataKey, PromptHashMetadataKey; cbv beta; rewrite ?mget_over;
    cbn [String.eqb Ascii.eqb Bool.eqb]; rewrite ?if_same). read_patch. done.
Qed.

Lemma marks_attempted m m' : marks m' = marks m \/ marks m' = clear_marks -> mget m "priming_attempted_at" = "" -> mget m' "priming_attempted_at" = "".
Proof. unfold marks, clear_marks. cbn [map]. intros [E|E]; injection E as E1 E2 E3 E4; congruence. Qed.

Lemma step_attempted b b' : any_step b b' -> mget (bd_Metadata b) "priming_attempted_at" = "" -> mget (bd_Metadata b') "priming_attempted_at" = "".
Proof.
  intros [[p Hp|wall input Hh|hash pr la br Hh|wall clk startup available alive Ho|wall state generated now|outcomes w ok Hc _|]|(outcomes & w & Hc & -> & _)] Hb.
  - rewrite metadata_patched. apply (marks_attempted (bd_Metadata b)); [|done]. by apply transition_gentle.
  - rewrite metadata_patched. by rewrite commit_attempted.
  - rewrite metadata_patched. unfold rebaseline. read_patch. done.
  - by apply (marks_attempted (bd_Metadata b)); [apply heal_marks|].
  - rewrite metadata_patched. set (q := config_drift_batch _ _ _ _ _).
    assert (q !! "priming_attempted_at" = Some "") as E.
    { subst q. unfold config_drift_batch, ConfigDriftResetPatch, add_if. cbv zeta.
      repeat match goal with |- context [if ?c then _ else _] => destruct c end; vm_compute; reflexivity. }
    unfold mget. by rewrite lookup_union, E, union_Some_l.
  - by apply (clear_attempted (bd_Metadata b) outcomes w ok).
  - done.
  - by apply (clear_attempted (bd_Metadata b) outcomes w false).
Qed.

(** (C35) A session counts as primed only beside a configuration that was started.  Over any
    history of a session, its transitions, heals, repairs, new baselines, clears and close in
    any order and number, from a bead with none of the marks: the confirmation is there with
    the prompt's hash or neither is, and not without the hash of a started configuration, as
    long as no clear of stale resume metadata dropped that hash and then stopped at a write
    that failed; and even so no attempt is ever marked.  (The converse is not kept: a repair
    that keeps the conversation keeps that hash and drops the markers.) *)
Theorem priming_lifetime b b' :
  marks (bd_Metadata b) = clear_marks ->
  (rtc session_step b b' ->
     (mget (bd_Metadata b') "primed_at" = "" <-> mget (bd_Metadata b') "prompt_hash" = "")
     /\ (mget (bd_Metadata b') "primed_at" <> "" -> mget (bd_Metadata b') "started_config_hash" <> ""))
  /\ (rtc any_step b b' -> mget (bd_Metadata b') "priming_attempted_at" = "").
Proof.
  intros Hm%marks_clear. split.
  - intros Hr. enough (primed_whole (bd_Metadata b')) as Hw by apply Hw. induction Hr as [|b1 b2 b3 Hs _ IH]; [done|]. apply IH. by apply (step_whole b1).
  - intros Hr. destruct Hm as [Ha _]. induction Hr as [|b1 b2 b3 Hs _ IH]; [done|]. apply IH. by apply (step_attempted b1).
Qed.
End prime.

(** * At work *)

Definition example_commit : CommitStartedPatchInput := mkCommit "core" "live" "prov" "launch" "" true true true true 4000000000 4000000000 "hash".

Lemma priming_lifetime_witness :
  let b' := patched (@CommitStartedPatch digit_time 5 example_commit) example_bead in
  mget (bd_Metadata b') "primed_at" = "4"
  /\ (mget (bd_Metadata b') "primed_at" <> "" -> mget (bd_Metadata b') "started_config_hash" <> "").
Proof.
  split; [vm_compute; reflexivity|].
  refine (proj2 (proj1 (@priming_lifetime digit_time digit_time_laws example_bead _ eq_refl) _)).
  apply rtc_once, step_commit. discriminate.
Defined.

(** A configuration repair that keeps the conversation keeps the hash it was started with
    and drops the markers, so the two lives are not quite the same. *)
Definition resumed_bead : Bead :=
  set_Metadata (literal [("session_key", "key"); ("started_config_hash", "core"); ("primed_at", "4"); ("prompt_hash", "hash")]) example_bead.

Example drift_drops_markers :
  let b' := patched (@config_drift_batch digit_time 5 (@infoFromPersistedBead digit_time resumed_bead) "start-pending" None 6000000000) resumed_bead in
  mget (bd_Metadata b') "session_key" = "key" /\ mget (bd_Metadata b') "started_config_hash" = "core" /\ mget (bd_Metadata b') "primed_at" = "".
Proof. vm_compute. done. Qed.

(** The clear that writes key by key can stop between the hash and the markers. *)
Example stale_clear_torn :
  exists b', torn_clear resumed_bead b' /\ mget (bd_Metadata b') "started_config_hash" = "" /\ mget (bd_Metadata b') "primed_at" = "4".
Proof.
  eexists. split; [|split].
  - exists [true; true; false]. eexists. split; [vm_compute; reflexivity|]. split; [reflexivity|]. split; [vm_compute; discriminate|vm_compute; reflexivity].
  - vm_compute. reflexivity.
  - vm_compute. reflexivity.
Qed.
