(* ===== verification/AwakeSet.v ===== *)
(** Which sessions should be awake (cmd/gc/compute_awake_set.go), and the facts of a session
    the decision reads off its Info (compute_awake_bridge.go).  The function is pure; it
    iterates over two maps, in an order of the runtime's own choosing, so the orders are
    arguments beside the maps. *)
From Stdlib Require Import Ascii.
From S2P Require Import Prelude GoStd BeadQuery SessionMachine SessionInfo SessionLifecycle SessionPatch SessionReap.
Import beads session sessioninfo lifecycle transition reap.

Module awake.

Definition defaultOnDemandIdleTimeout : Z := 5 * Minute.

Record AwakeAgent : Type := mkAgent {
  ag_QualifiedName : string;
  ag_DependsOn : list string;
  ag_Suspended : bool;
  ag_SleepAfterIdle : Z;
  ag_MinActiveSessions : Z
}.

Record AwakeNamedSession : Type := mkNamed {
  ns_Identity : string;
  ns_Template : string;
  ns_Mode : string;
  ns_RuntimeName : string
}.

(** A time that is unknown is the zero time. *)
Record AwakeSessionBead : Type := mkSessionBead {
  sb_ID : string;
  sb_SessionName : string;
  sb_Template : string;
  sb_State : string;
  sb_SleepReason : string;
  sb_ManualSession : bool;
  sb_PendingCreate : bool;
  sb_ExplicitWake : bool;
  sb_DependencyOnly : bool;
  sb_NamedIdentity : string;
  sb_ConfiguredNamedSession : bool;
  sb_Pinned : bool;
  sb_Drained : bool;
  sb_WaitHold : bool;
  sb_HeldUntil : Z;
  sb_QuarantinedUntil : Z;
  sb_IdleSince : Z;
  sb_CreatedAt : Z;
  sb_RestartRequested : bool;
  sb_ContinuationResetPending : bool;
  sb_CurrentlyProcessingBeadID : string
}.

Record AwakeWorkBead : Type := mkWorkBead {
  wk_ID : string;
  wk_Assignee : string;
  wk_Status : string;
  wk_Ready : bool;
  wk_Blocked : bool
}.

Record AwakeInput : Type := mkAwakeInput {
  ai_Agents : list AwakeAgent;
  ai_NamedSessions : list AwakeNamedSession;
  ai_SessionBeads : list AwakeSessionBead;
  ai_WorkBeads : list AwakeWorkBead;
  ai_ScaleCheckCounts : gmap string Z;
  ai_NamedSessionDemand : gmap string bool;
  ai_NamedSessionRoutedDemand : gmap string bool;
  ai_NamedSessionWorkQ : gmap string bool;
  ai_WorkSet : gmap string bool;
  ai_RunningSessions : gmap string bool;
  ai_AttachedSessions : gmap string bool;
  ai_PendingSessions : gmap string bool;
  ai_ReadyWaitSet : gmap string bool;
  ai_ChatIdleTimeout : Z;
  ai_ManualGracePeriod : Z;
  ai_Now : Z
}.

Record AwakeDecision : Type := mkDecision {
  dc_ShouldWake : bool;
  dc_Reason : string;
  dc_HasAssignedWork : bool;
  dc_AssignedWorkBeadID : string;
  dc_RequiresFreshCycle : bool
}.

(** Reading a map of booleans: an absent key is false. *)
Definition on (m : gmap string bool) (k : string) : bool := default false (m !! k).

(** * The agents by name *)

Definition awakeAgentBaseName (name : string) : string := default "" (last (split_on "/" name)).

Record AgentIndex : Type := mkIndex {
  ix_byName : gmap string AwakeAgent;
  ix_byBase : gmap string AwakeAgent;
  ix_duplicates : gset string
}.

Definition index_agent (ix : AgentIndex) (a : AwakeAgent) : AgentIndex :=
  let byName := <[ag_QualifiedName a := a]> (ix_byName ix) in
  let base := awakeAgentBaseName (ag_QualifiedName a) in
  match ix_byBase ix !! base with
  | Some existing =>
      if negb (String.eqb (ag_QualifiedName existing) (ag_QualifiedName a))
      then mkIndex byName (ix_byBase ix) ({[base]} ∪ ix_duplicates ix)
      else if bool_decide (base ∈ ix_duplicates ix) then mkIndex byName (ix_byBase ix) (ix_duplicates ix)
      else mkIndex byName (<[base := a]> (ix_byBase ix)) (ix_duplicates ix)
  | None =>
      if bool_decide (base ∈ ix_duplicates ix) then mkIndex byName (ix_byBase ix) (ix_duplicates ix)
      else mkIndex byName (<[base := a]> (ix_byBase ix)) (ix_duplicates ix)
  end.

Definition index_agents (agents : list AwakeAgent) : AgentIndex := fold_left index_agent agents (mkIndex ∅ ∅ ∅).

Definition lookupAgent (ix : AgentIndex) (name : string) : option AwakeAgent :=
  match ix_byName ix !! name with
  | Some a => Some a
  | None =>
      let base := awakeAgentBaseName name in
      if bool_decide (base ∈ ix_duplicates ix) then None else ix_byBase ix !! base
  end.

Definition suspended (a : option AwakeAgent) : bool := match a with Some a => ag_Suspended a | None => false end.
Definition runnable (a : option AwakeAgent) : bool := match a with Some a => negb (ag_Suspended a) | None => false end.

(** * Matching sessions, work and named sessions *)

Definition findNamedSessionName (beads : list AwakeSessionBead) (identity : string) : string :=
  match List.find (fun b => String.eqb (sb_NamedIdentity b) identity) beads with Some b => sb_SessionName b | None => "" end.

Definition findBeadBySessionName (beads : list AwakeSessionBead) (name : string) : option AwakeSessionBead :=
  List.find (fun b => String.eqb (sb_SessionName b) name) beads.

Definition resolveNamedSessionBeadName (beads : list AwakeSessionBead) (ns : AwakeNamedSession) : string :=
  let sn := findNamedSessionName beads (ns_Identity ns) in
  if negb (String.eqb sn "") then sn
  else if String.eqb (ns_RuntimeName ns) "" then ""
  else match findBeadBySessionName beads (ns_RuntimeName ns) with
       | None => ""
       | Some b =>
           if negb (sb_ConfiguredNamedSession b) then ""
           else if negb (String.eqb (ns_Template ns) "") && negb (String.eqb (sb_Template b) (ns_Template ns)) then ""
           else if negb (String.eqb (sb_NamedIdentity b) "") && negb (String.eqb (sb_NamedIdentity b) (ns_Identity ns)) then ""
           else sb_SessionName b
       end.

Definition workBeadHasAwakeDemand (w : AwakeWorkBead) : bool :=
  if String.eqb (wk_Status w) "in_progress" then negb (wk_Blocked w)
  else if String.eqb (wk_Status w) "open" then wk_Ready w
  else false.

Definition sessionAssigneeMatches (named : list AwakeNamedSession) (b : AwakeSessionBead) (assignee : string) : bool :=
  if String.eqb assignee "" then false
  else if String.eqb assignee (sb_ID b) || String.eqb assignee (sb_SessionName b) then true
  else if negb (String.eqb (sb_NamedIdentity b) "") then String.eqb assignee (sb_NamedIdentity b)
  else if negb (sb_ConfiguredNamedSession b) then false
  else existsb (fun ns =>
         if String.eqb (ns_RuntimeName ns) "" || negb (String.eqb (ns_RuntimeName ns) (sb_SessionName b)) then false
         else if negb (String.eqb (ns_Template ns) "") && negb (String.eqb (ns_Template ns) (sb_Template b)) then false
         else String.eqb assignee (ns_Identity ns)) named.

(** The guards of the two loops over the work beads. *)
Definition assigned (named : list AwakeNamedSession) (b : AwakeSessionBead) (w : AwakeWorkBead) : bool :=
  let assignee := TrimSpace (wk_Assignee w) in
  if String.eqb assignee "" || negb (workBeadHasAwakeDemand w) then false else sessionAssigneeMatches named b assignee.

Definition sessionHasAssignedWork (works : list AwakeWorkBead) (named : list AwakeNamedSession) (b : AwakeSessionBead) : bool :=
  existsb (assigned named b) works.

Definition namedSessionMatches (named : list AwakeNamedSession) (b : AwakeSessionBead) (mode : string) : bool :=
  existsb (fun ns =>
    if negb (String.eqb (ns_Mode ns) mode) then false
    else if negb (String.eqb (sb_NamedIdentity b) "") && String.eqb (ns_Identity ns) (sb_NamedIdentity b) then true
    else String.eqb (sb_NamedIdentity b) "" && sb_ConfiguredNamedSession b && negb (String.eqb (ns_RuntimeName ns) "")
         && String.eqb (ns_RuntimeName ns) (sb_SessionName b)
         && (String.eqb (ns_Template ns) "" || String.eqb (ns_Template ns) (sb_Template b))) named.
Definition isOnDemandSession (named : list AwakeNamedSession) (b : AwakeSessionBead) : bool := namedSessionMatches named b "on_demand".
Definition isAlwaysNamedSession (named : list AwakeNamedSession) (b : AwakeSessionBead) : bool := namedSessionMatches named b "always".
Definition isNamedSessionTemplate (named : list AwakeNamedSession) (template : string) : bool :=
  existsb (fun ns => String.eqb (ns_Template ns) template) named.

(** * The members of a pool *)

Definition unnamed (b : AwakeSessionBead) : bool := String.eqb (sb_NamedIdentity b) "" && negb (sb_ConfiguredNamedSession b).

Definition isCreatingCandidateState (state : string) : bool := String.eqb state StateStartPending || String.eqb state StateCreating.

Definition collectActiveBeads (beads : list AwakeSessionBead) (template : string) : list AwakeSessionBead :=
  List.filter (fun b => String.eqb (sb_Template b) template && String.eqb (sb_State b) "active" && unnamed b
                        && negb (sb_ManualSession b) && negb (sb_Drained b) && negb (sb_DependencyOnly b)) beads.
Definition collectCreatingBeads (beads : list AwakeSessionBead) (template : string) : list AwakeSessionBead :=
  List.filter (fun b => String.eqb (sb_Template b) template && isCreatingCandidateState (sb_State b) && unnamed b
                        && negb (sb_ManualSession b) && negb (sb_Drained b) && negb (sb_DependencyOnly b)) beads.

Definition countAssignedScaleSlots (beads : list AwakeSessionBead) (works : list AwakeWorkBead) (named : list AwakeNamedSession)
    (template : string) : Z :=
  Z.of_nat (length (List.filter (fun b =>
    if negb (String.eqb (sb_Template b) template) || String.eqb (sb_State b) "closed" then false
    else if negb (String.eqb (sb_NamedIdentity b) "") || sb_ConfiguredNamedSession b || sb_ManualSession b then false
    else sessionHasAssignedWork works named b) beads)).

Definition isMinActivePoolBead (b : AwakeSessionBead) (template : string) : bool :=
  String.eqb (sb_Template b) template && unnamed b && negb (sb_ManualSession b) && negb (sb_Drained b)
  && negb (sb_DependencyOnly b) && negb (String.eqb (sb_State b) "closed").

(** A time in the future that is known. *)
Definition until (t now : Z) : bool := negb (IsZero t) && (now <? t).

Definition minActiveHardBlocked (b : AwakeSessionBead) (now : Z) : bool :=
  sb_WaitHold b || until (sb_HeldUntil b) now || until (sb_QuarantinedUntil b) now.

(** The reasons sessions are desired for, by session name. *)
Abbreviation Desired := (gmap string string) (only parsing).
Definition wanted (d : Desired) (name : string) : bool := match d !! name with Some _ => true | None => false end.

Definition covers (d : Desired) (template : string) (now : Z) (b : AwakeSessionBead) : bool :=
  if negb (isMinActivePoolBead b template) then false
  else if minActiveHardBlocked b now then false
  else if String.eqb (sb_State b) "asleep" then wanted d (sb_SessionName b)
  else String.eqb (sb_State b) "active" || String.eqb (sb_State b) "creating".

Definition countMinActiveCovered (beads : list AwakeSessionBead) (d : Desired) (template : string) (now : Z) : Z :=
  Z.of_nat (length (List.filter (covers d template now) beads)).

(** sort.Slice by ID; beads have distinct IDs, for which every algorithm gives one slice. *)
Fixpoint insert_by_id (x : AwakeSessionBead) (l : list AwakeSessionBead) : list AwakeSessionBead :=
  match l with
  | [] => [x]
  | y :: l' => if String.ltb (sb_ID y) (sb_ID x) then y :: insert_by_id x l' else x :: l
  end.
Definition sort_by_id (l : list AwakeSessionBead) : list AwakeSessionBead := fold_right insert_by_id [] l.

Definition city_stopped (template : string) (b : AwakeSessionBead) : bool :=
  isMinActivePoolBead b template && String.eqb (sb_State b) "asleep" && String.eqb (sb_SleepReason b) SleepReasonCityStop.
Definition cityStopPoolBeads (beads : list AwakeSessionBead) (template : string) : list AwakeSessionBead :=
  sort_by_id (List.filter (city_stopped template) beads).

Definition inManualGracePeriod (b : AwakeSessionBead) (gracePeriod now : Z) : bool :=
  sb_ManualSession b && (0 <? gracePeriod) && negb (IsZero (sb_CreatedAt b)) && (now - sb_CreatedAt b <? gracePeriod).

(** * The desired set, pass by pass *)

Definition desire (b : AwakeSessionBead) (reason : string) (d : Desired) : Desired := <[sb_SessionName b := reason]> d.

Definition pending_creates (beads : list AwakeSessionBead) (d : Desired) : Desired :=
  fold_left (fun d b => if sb_PendingCreate b then desire b "pending-create" d else d) beads d.

Definition explicit_wakes (ix : AgentIndex) (beads : list AwakeSessionBead) (d : Desired) : Desired :=
  fold_left (fun d b =>
    if negb (sb_ExplicitWake b) || String.eqb (sb_State b) "closed" || sb_DependencyOnly b then d
    else if runnable (ix_byName ix !! sb_Template b) then desire b "explicit-wake" d else d) beads d.

(** The demand for an on-demand named session, none when there is none. *)
Definition named_demand (input : AwakeInput) (identity : string) : string :=
  if on (ai_NamedSessionDemand input) identity then "named-demand"
  else if on (ai_NamedSessionRoutedDemand input) identity then "routed-demand"
  else if on (ai_NamedSessionWorkQ input) identity then "work-query"
  else "".

Definition named_session (input : AwakeInput) (ix : AgentIndex) (d : Desired) (ns : AwakeNamedSession) : Desired :=
  let beads := ai_SessionBeads input in
  let sn := resolveNamedSessionBeadName beads ns in
  if suspended (lookupAgent ix (ns_Identity ns)) then d
  else if String.eqb (ns_Mode ns) "always" then
    if negb (String.eqb sn "") then
      match findBeadBySessionName beads sn with
      | Some b => if negb (sb_DependencyOnly b) then <[sn := "named-always"]> d else d
      | None => d
      end
    else <[ns_Identity ns := "named-always"]> d
  else if String.eqb (ns_Mode ns) "on_demand" then
    let reason := named_demand input (ns_Identity ns) in
    if String.eqb reason "" then d
    else if suspended (ix_byName ix !! ns_Template ns) then d
    else if negb (String.eqb sn "") then
      match findBeadBySessionName beads sn with
      | Some b =>
          if negb (sb_DependencyOnly b) && negb (sb_Drained b) && negb (String.eqb (sb_State b) "closed") then <[sn := reason]> d else d
      | None => d
      end
    else <[ns_Identity ns := reason]> d
  else d.

Definition named_sessions (input : AwakeInput) (ix : AgentIndex) (d : Desired) : Desired :=
  fold_left (named_session input ix) (ai_NamedSessions input) d.

(** A loop over the candidates of a pool that stops when its slots are filled. *)
Fixpoint fill_slots (count : Z) (busy : AwakeSessionBead -> bool) (reason : string) (bs : list AwakeSessionBead) (filled : Z) (d : Desired)
  : Desired * Z :=
  match bs with
  | [] => (d, filled)
  | b :: bs' =>
      if count <=? filled then (d, filled)
      else if busy b then fill_slots count busy reason bs' filled d
      else fill_slots count busy reason bs' (filled + 1) (desire b reason d)
  end.

Definition scale_template (input : AwakeInput) (ix : AgentIndex) (d : Desired) (entry : string * Z) : Desired :=
  let '(template, count) := entry in
  if count <=? 0 then d
  else if negb (runnable (lookupAgent ix template)) then d
  else
    let beads := ai_SessionBeads input in
    let busy := sessionHasAssignedWork (ai_WorkBeads input) (ai_NamedSessions input) in
    let filled := countAssignedScaleSlots beads (ai_WorkBeads input) (ai_NamedSessions input) template in
    let '(d, filled) := fill_slots count busy "scaled:demand" (collectActiveBeads beads template) filled d in
    (fill_slots count busy "scaled:creating" (collectCreatingBeads beads template) filled d).1.

Definition scale_checks (input : AwakeInput) (ix : AgentIndex) (order : list (string * Z)) (d : Desired) : Desired :=
  fold_left (scale_template input ix) order d.

Definition work_query (input : AwakeInput) (ix : AgentIndex) (d : Desired) (entry : string * bool) : Desired :=
  let '(template, hasWork) := entry in
  if negb hasWork then d
  else if 0 <? default 0 (ai_ScaleCheckCounts input !! template) then d
  else if negb (runnable (lookupAgent ix template)) then d
  else if isNamedSessionTemplate (ai_NamedSessions input) template then d
  else match collectActiveBeads (ai_SessionBeads input) template with
       | b :: _ => desire b "work-query" d
       | [] =>
           match collectCreatingBeads (ai_SessionBeads input) template with
           | b :: _ => desire b "work-query" d
           | [] => d
           end
       end.

Definition work_queries (input : AwakeInput) (ix : AgentIndex) (order : list (string * bool)) (d : Desired) : Desired :=
  fold_left (work_query input ix) order d.

Definition manual_sessions (ix : AgentIndex) (beads : list AwakeSessionBead) (d : Desired) : Desired :=
  fold_left (fun d b =>
    if negb (sb_ManualSession b) || String.eqb (sb_State b) "closed" || sb_Drained b then d
    else match ix_byName ix !! sb_Template b with Some _ => desire b "manual" d | None => d end) beads d.

(** The search for the work bead that anchors a session: the one it recorded, else the first. *)
Fixpoint find_anchor (mine : AwakeWorkBead -> bool) (recorded : string) (works : list AwakeWorkBead) (fallback : string) (matchedAny : bool)
  : option string :=
  match works with
  | [] => if matchedAny then Some fallback else None
  | w :: works' =>
      if negb (mine w) then find_anchor mine recorded works' fallback matchedAny
      else if negb (String.eqb recorded "") && String.eqb (wk_ID w) recorded then Some (wk_ID w)
      else find_anchor mine recorded works' (if String.eqb fallback "" then wk_ID w else fallback) true
  end.

Definition anchor_session (input : AwakeInput) (ix : AgentIndex) (s : Desired * gmap string string) (b : AwakeSessionBead)
  : Desired * gmap string string :=
  if String.eqb (sb_State b) "closed" then s
  else if suspended (lookupAgent ix (sb_Template b)) then s
  else match find_anchor (assigned (ai_NamedSessions input) b) (sb_CurrentlyProcessingBeadID b) (ai_WorkBeads input) "" false with
       | None => s
       | Some anchor => (desire b "assigned-work" s.1, <[sb_SessionName b := anchor]> s.2)
       end.

Definition assigned_work (input : AwakeInput) (ix : AgentIndex) (d : Desired) : Desired * gmap string string :=
  fold_left (anchor_session input ix) (ai_SessionBeads input) (d, ∅).

Fixpoint revive (minimum now : Z) (bs : list AwakeSessionBead) (covered : Z) (d : Desired) : Desired :=
  match bs with
  | [] => d
  | b :: bs' =>
      if minimum <=? covered then d
      else if wanted d (sb_SessionName b) then revive minimum now bs' covered d
      else if minActiveHardBlocked b now then revive minimum now bs' covered d
      else revive minimum now bs' (covered + 1) (desire b "min-active" d)
  end.

Definition min_active_agent (input : AwakeInput) (d : Desired) (a : AwakeAgent) : Desired :=
  if ag_Suspended a || (ag_MinActiveSessions a <=? 0) then d
  else
    let template := ag_QualifiedName a in
    let covered := countMinActiveCovered (ai_SessionBeads input) d template (ai_Now input) in
    if ag_MinActiveSessions a <=? covered then d
    else revive (ag_MinActiveSessions a) (ai_Now input) (cityStopPoolBeads (ai_SessionBeads input) template) covered d.

Definition min_active (input : AwakeInput) (d : Desired) : Desired := fold_left (min_active_agent input) (ai_Agents input) d.

Definition reset_pending (beads : list AwakeSessionBead) (d : Desired) : Desired :=
  fold_left (fun d b =>
    if negb (sb_ContinuationResetPending b) || sb_RestartRequested b || sb_WaitHold b then d
    else if one_of (default "" (d !! sb_SessionName b)) ["pending-create"; "explicit-wake"] then d
    else desire b "reset-pending" d) beads d.

(** * The decision for one session *)

(** Reasons an idle session keeps awake for. *)
Definition idle_exempt_reasons : list string := ["assigned-work"; "min-active"; "reset-pending"; "named-demand"; "routed-demand"; "work-query"].

Definition idle_timeout (input : AwakeInput) (ix : AgentIndex) (b : AwakeSessionBead) : Z :=
  if sb_ManualSession b && (0 <? ai_ChatIdleTimeout input) then ai_ChatIdleTimeout input
  else match lookupAgent ix (sb_Template b) with
       | Some a =>
           if 0 <? ag_SleepAfterIdle a then ag_SleepAfterIdle a
           else if isOnDemandSession (ai_NamedSessions input) b then defaultOnDemandIdleTimeout else 0
       | None => if isOnDemandSession (ai_NamedSessions input) b then defaultOnDemandIdleTimeout else 0
       end.

Definition idle_asleep (input : AwakeInput) (ix : AgentIndex) (d : Desired) (b : AwakeSessionBead) : bool :=
  let name := sb_SessionName b in
  negb (on (ai_AttachedSessions input) name) && negb (on (ai_PendingSessions input) name) && negb (sb_Pinned b)
  && negb (IsZero (sb_IdleSince b)) && negb (isAlwaysNamedSession (ai_NamedSessions input) b)
  && negb (one_of (default "" (d !! name)) idle_exempt_reasons)
  && negb (inManualGracePeriod b (ai_ManualGracePeriod input) (ai_Now input))
  && (0 <? idle_timeout input ix b) && (idle_timeout input ix b <=? ai_Now input - sb_IdleSince b).

(** A wake decision in the making: whether to wake, and the reason. *)
Abbreviation Verdict := (bool * string)%type (only parsing).

Definition demanded (d : Desired) (b : AwakeSessionBead) : Verdict :=
  match d !! sb_SessionName b with
  | Some reason => if negb (sb_WaitHold b) || sb_PendingCreate b || sb_ExplicitWake b then (true, reason) else (false, "")
  | None => (false, "")
  end.

Definition causes (input : AwakeInput) (ix : AgentIndex) (d : Desired) (b : AwakeSessionBead) : Verdict :=
  let name := sb_SessionName b in
  let v := demanded d b in
  let v := if on (ai_AttachedSessions input) name && negb (sb_WaitHold b) then (true, "attached") else v in
  let v := if on (ai_PendingSessions input) name && negb (sb_WaitHold b) then (true, "pending") else v in
  let v := if on (ai_ReadyWaitSet input) (sb_ID b) then (true, "wait-ready") else v in
  let v := if negb v.1 && negb (sb_Drained b) && negb (sb_WaitHold b) && negb (String.eqb (sb_SleepReason b) SleepReasonIdleTimeout)
              && on (ai_RunningSessions input) name && isOnDemandSession (ai_NamedSessions input) b
           then (true, "on-demand:running") else v in
  let blocked := String.eqb (sb_State b) "suspended" || String.eqb (sb_State b) "closed" || sb_Drained b in
  if negb v.1 && sb_Pinned b && negb blocked && negb (sb_DependencyOnly b) && negb (sb_WaitHold b)
     && runnable (lookupAgent ix (sb_Template b))
  then (true, "pin") else v.

Definition verdict (input : AwakeInput) (ix : AgentIndex) (d : Desired) (b : AwakeSessionBead) : Verdict :=
  let v := causes input ix d b in
  let v := if v.1 && idle_asleep input ix d b then (false, "idle-sleep") else v in
  let v := if until (sb_HeldUntil b) (ai_Now input) then (false, "held") else v in
  if until (sb_QuarantinedUntil b) (ai_Now input) then (false, "quarantined") else v.

Definition decide_session (input : AwakeInput) (ix : AgentIndex) (s : Desired * gmap string string) (b : AwakeSessionBead) : AwakeDecision :=
  let '(wake, reason) := verdict input ix s.1 b in
  match s.2 !! sb_SessionName b with
  | Some anchor =>
      mkDecision wake reason true anchor
        (negb (String.eqb (sb_CurrentlyProcessingBeadID b) "") && negb (String.eqb anchor (sb_CurrentlyProcessingBeadID b)))
  | None => mkDecision wake reason false "" false
  end.

(** What every pass left: the reasons and the anchors. *)
Definition desired_set (scale : list (string * Z)) (work : list (string * bool)) (input : AwakeInput) : Desired * gmap string string :=
  let ix := index_agents (ai_Agents input) in
  let beads := ai_SessionBeads input in
  let d := explicit_wakes ix beads (pending_creates beads ∅) in
  let d := scale_checks input ix scale (named_sessions input ix d) in
  let d := manual_sessions ix beads (work_queries input ix work d) in
  let '(d, anchors) := assigned_work input ix d in
  (reset_pending beads (min_active input d), anchors).

(** Sessions that share a name are decided in turn, the last one stays. *)
Definition ComputeAwakeSet (scale : list (string * Z)) (work : list (string * bool)) (input : AwakeInput) : gmap string AwakeDecision :=
  let ix := index_agents (ai_Agents input) in
  let s := desired_set scale work input in
  fold_left (fun r b => <[sb_SessionName b := decide_session input ix s b]> r) (ai_SessionBeads input) ∅.

(** * The facts, read off the session snapshot *)

(** What the configuration of the city gives: the agents and named sessions as the awake set
    takes them, the name of the agent a template identifies, the template of a session, and
    the timeouts of chat sessions. *)
Record CityFacts : Type := mkCityFacts {
  cf_Agents : list AwakeAgent;
  cf_NamedSessions : list AwakeNamedSession;
  cf_findAgent : string -> option string;
  cf_sessionTemplate : Info -> string;
  cf_ChatIdleTimeout : Z;
  cf_GracePeriod : Z
}.

Definition normalizeAgentTemplateIdentity (findAgent : string -> option string) (template : string) : string :=
  let template := TrimSpace template in
  if String.eqb template "" then "" else default template (findAgent template).

Definition isManualSessionInfo (i : Info) : bool :=
  String.eqb (TrimSpace (field i "SessionOrigin")) "manual" || String.eqb (field i "ManualSessionMetadata") "true".

(** The work beads that are open or in progress, with the store's word on readiness. *)
Fixpoint work_beads (bs : list Bead) (ready : list bool) : list AwakeWorkBead :=
  match bs with
  | [] => []
  | b :: bs' =>
      let a := TrimSpace (bd_Assignee b) in
      let rest := work_beads bs' (tl ready) in
      if negb (String.eqb a "") && one_of (bd_Status b) ["open"; "in_progress"] then
        mkWorkBead (bd_ID b) a (bd_Status b) (default false (head ready))
          (String.eqb (bd_Status b) "in_progress" && default false (bd_IsBlocked b)) :: rest
      else rest
  end.

Section bridge.
Context `{TimeText} (cf : CityFacts) (wall now : Z).

Definition session_bead (i : Info) : option AwakeSessionBead :=
  if if_Closed i then None
  else
    let name := TrimSpace (field i "SessionNameMetadata") in
    if String.eqb name "" then None
    else
      let v := view_of wall now (LifecycleInputFromInfo i) in
      Some (mkSessionBead (if_ID i) name (normalizeAgentTemplateIdentity (cf_findAgent cf) (field i "Template")) (lv_CompatState v)
        (field i "SleepReason") (isManualSessionInfo i) (HasWakeCause v WakeCausePendingCreate) (HasWakeCause v WakeCauseExplicit)
        (flag i "DependencyOnly") (lv_NamedIdentity v) (isNamedSessionInfo i) (HasWakeCause v WakeCausePinned)
        (String.eqb (lv_BaseState v) BaseStateDrained) (String.eqb (field i "WaitHold") "true") (lv_HeldUntil v) (lv_QuarantinedUntil v)
        (default 0 (parse_time (field i "DetachedAt"))) (if_CreatedAt i) (String.eqb (TrimSpace (field i "RestartRequested")) "true")
        (String.eqb (TrimSpace (field i "ContinuationResetPending")) "true" && negb (String.eqb (TrimSpace (field i "ResetCommittedAt")) ""))
        (TrimSpace (field i "CurrentlyProcessingBeadID"))).

Definition session_beads (infos : list Info) : list AwakeSessionBead := omap session_bead infos.

(** The named sessions whose bead exists and whose template has work queued. *)
Definition named_work_queries (workSet : gmap string bool) (beads : list AwakeSessionBead) : gmap string bool :=
  fold_left (fun m ns =>
    if negb (String.eqb (ns_Mode ns) "on_demand") || negb (on workSet (ns_Template ns)) then m
    else if String.eqb (resolveNamedSessionBeadName beads ns) "" then m
    else <[ns_Identity ns := true]> m) (cf_NamedSessions cf) ∅.

Definition shouldProbeAttachmentForAwakeInput (poolDesired : gmap string Z) (i : Info) (alive : bool) : bool :=
  if negb alive then false
  else if negb (one_of (field i "MetadataState") [StateActive; StateAwake]) then true
  else if negb (String.eqb (field i "DetachedAt") "") then true
  else
    let template := cf_sessionTemplate cf i in
    let template := if String.eqb template "" then field i "Template" else template in
    negb (negb (String.eqb template "") && (0 <? default 0 (poolDesired !! template))).

(** The runtime of a session as the tick found it; attached and pending are what the
    provider answers. *)
Record WakeTarget : Type := mkTarget { wt_ID : string; wt_alive : bool; wt_attached : bool; wt_pending : bool }.

Definition mark_target (poolDesired : gmap string Z) (infoBy : gmap string Info)
    (s : gmap string bool * gmap string bool * gmap string bool) (t : WakeTarget) : gmap string bool * gmap string bool * gmap string bool :=
  let '(running, attached, pending) := s in
  match infoBy !! wt_ID t with
  | None => s
  | Some i =>
      let name := TrimSpace (field i "SessionNameMetadata") in
      if String.eqb name "" then s
      else
        (if wt_alive t then <[name := true]> running else running,
         if shouldProbeAttachmentForAwakeInput poolDesired i (wt_alive t) && wt_attached t then <[name := true]> attached else attached,
         if wt_pending t then <[name := true]> pending else pending)
  end.

Definition buildAwakeInputFromReconciler (infos : list Info) (poolDesired : gmap string Z) (namedDemand routedDemand workSet readyWaits : gmap string bool)
    (assignedWorkBeads : list Bead) (readyAssignedFlags : list bool) (targets : list WakeTarget) : AwakeInput :=
  let beads := session_beads infos in
  let infoBy := fold_left (fun m i => <[if_ID i := i]> m) infos ∅ in
  let '(running, attached, pending) := fold_left (mark_target poolDesired infoBy) targets (∅, ∅, ∅) in
  mkAwakeInput (cf_Agents cf) (cf_NamedSessions cf) beads (work_beads assignedWorkBeads readyAssignedFlags) poolDesired namedDemand routedDemand
    (named_work_queries workSet beads) workSet running attached pending readyWaits (cf_ChatIdleTimeout cf) (cf_GracePeriod cf) now.

End bridge.

(** * The decisions, for the drain pass *)

Definition WakeConfig : string := "config".
Definition WakeCreate : string := "create".
Definition WakeAttached : string := "attached".
Definition WakeWait : string := "wait".
Definition WakeWork : string := "work".
Definition WakePending : string := "pending".
Definition WakePin : string := "pin".

Record wakeEvaluation : Type := mkEvaluation {
  we_Reasons : list string;
  we_Reason : string;
  we_ConfigSuppressed : bool;
  we_HasAssignedWork : bool
}.

Definition wake_reasons (d : AwakeDecision) : list string :=
  if negb (dc_ShouldWake d) then []
  else if String.eqb (dc_Reason d) "pending-create" then [WakeCreate]
  else if String.eqb (dc_Reason d) "explicit-wake" then [WakeConfig]
  else if String.eqb (dc_Reason d) "attached" then [WakeAttached]
  else if String.eqb (dc_Reason d) "pending" then [WakePending]
  else if String.eqb (dc_Reason d) "pin" then [WakePin]
  else if String.eqb (dc_Reason d) "wait-ready" then [WakeWait]
  else if one_of (dc_Reason d) ["assigned-work"; "named-demand"; "routed-demand"; "work-query"] then [WakeWork]
  else [WakeConfig].

Definition awakeSetToWakeEvals (decisions : gmap string AwakeDecision) (beads : list AwakeSessionBead) : gmap string wakeEvaluation :=
  fold_left (fun m b =>
    match decisions !! sb_SessionName b with
    | None => m
    | Some d =>
        <[sb_ID b := mkEvaluation (wake_reasons d) (dc_Reason d) (String.eqb (dc_Reason d) "idle-sleep") (dc_HasAssignedWork d)]> m
    end) beads ∅.

End awake.
