(* ===== verification/AwakeOrder.v ===== *)
(** The awake set does not depend on the order the runtime iterates its maps in: reasons up
    to how a pool was filled are an equivalence every pass respects. *)
From Stdlib Require Import Ascii.
From S2P Require Import Prelude GoStd BeadQuery SessionMachine SessionInfo SessionLifecycle SessionPatch.
From S2P Require Import SessionReap AwakeSet.
Import beads session sessioninfo lifecycle transition reap awake.

(** * Reasons that differ only in how a pool was filled *)

Definition by_scale (r : string) : Prop := r = "scaled:demand" \/ r = "scaled:creating".

Definition alike (r r' : string) : Prop := r = r' \/ (by_scale r /\ by_scale r').

#[local] Instance alike_equivalence : Equivalence alike.
Proof. split; unfold alike; [intros ?; auto|intros ???; intuition|intros ???; intuition (subst; auto)]. Qed.

Definition same_desires (d d' : Desired) : Prop := forall k, option_Forall2 alike (d !! k) (d' !! k).

#[local] Instance same_desires_equivalence : Equivalence same_desires.
Proof.
  split.
  - intros d k. reflexivity.
  - intros d d' Hs k. by symmetry.
  - intros d d' d'' H1 H2 k. etrans; [apply H1|apply H2].
Qed.

#[local] Instance insert_same (k : string) : Proper (alike ==> same_desires ==> same_desires) (insert k).
Proof.
  intros r r' Hr d d' Hd k'. destruct (decide (k = k')) as [<-|Hk].
  - rewrite !lookup_insert_eq. by constructor.
  - rewrite !lookup_insert_ne by done. apply Hd.
Qed.

#[local] Instance desire_same b : Proper (alike ==> same_desires ==> same_desires) (desire b).
Proof. unfold desire. solve_proper. Qed.

#[local] Instance wanted_same : Proper (same_desires ==> eq ==> eq) wanted.
Proof. intros d d' Hd k ? <-. unfold wanted. by destruct (Hd k). Qed.

Lemma reason_same d d' k l :
  same_desires d d' -> (forall r, by_scale r -> one_of r l = false) ->
  one_of (default "" (d !! k)) l = one_of (default "" (d' !! k)) l.
Proof.
  intros Hd Hl. destruct (Hd k) as [r r' Hr|]; simpl; [|done].
  destruct Hr as [->|[Hr Hr']]; [done|]. by rewrite !Hl.
Qed.

(** Folding steps that respect a relation respects it. *)
Lemma fold_left_same {A B} (R : relation A) (f : A -> B -> A) l a a' :
  (forall x a a', R a a' -> R (f a x) (f a' x)) -> R a a' -> R (fold_left f l a) (fold_left f l a').
Proof. intros Hf. revert a a'. induction l as [|x l IH]; simpl; eauto. Qed.

Lemma fold_left_ext {A B} (f g : A -> B -> A) l a : (forall a x, f a x = g a x) -> fold_left f l a = fold_left g l a.
Proof. intros Hfg. revert a. induction l as [|x l IH]; intros a; simpl; [done|]. by rewrite Hfg. Qed.

(** Steps that commute up to an equivalence may be folded in any order. *)
Lemma fold_left_reorder {A B} (R : relation A) `{!Equivalence R} (f : A -> B -> A) l l' a :
  (forall x a a', R a a' -> R (f a x) (f a' x)) -> (forall x y a, R (f (f a x) y) (f (f a y) x)) ->
  l ≡ₚ l' -> R (fold_left f l a) (fold_left f l' a).
Proof.
  intros Hf Hc Hp. revert a. induction Hp as [|x l l' _ IH|x y l|l l' l'' _ IH1 _ IH2]; intros a; simpl.
  - reflexivity.
  - apply IH.
  - apply fold_left_same; [done|apply Hc].
  - etrans; [apply IH1|apply IH2].
Qed.

(** * What a pass over a pool writes *)

Definition desire_all (reason : string) (bs : list AwakeSessionBead) (d : Desired) : Desired := fold_left (fun d b => desire b reason d) bs d.

Lemma desire_all_union reason bs d : desire_all reason bs d = desire_all reason bs ∅ ∪ d.
Proof.
  revert d. unfold desire_all. induction bs as [|b bs IH]; intros d; simpl; [by rewrite (left_id_L ∅ _)|].
  rewrite IH. rewrite (IH (desire b reason ∅)). unfold desire. rewrite insert_empty.
  rewrite <- (assoc_L _). by rewrite <- insert_union_singleton_l.
Qed.

Lemma lookup_desire_all reason bs k :
  desire_all reason bs ∅ !! k = if bool_decide (k ∈ sb_SessionName <$> bs) then Some reason else None.
Proof.
  assert (forall d, desire_all reason bs d !! k = if bool_decide (k ∈ sb_SessionName <$> bs) then Some reason else d !! k) as Hg; [|apply Hg].
  unfold desire_all. induction bs as [|b bs IH]; intros d; simpl.
  - done.
  - rewrite IH. unfold desire. destruct (decide (k = sb_SessionName b)) as [->|Hk].
    + rewrite lookup_insert_eq. rewrite (bool_decide_eq_true_2 (_ ∈ _ :: _)) by set_solver. by case_bool_decide.
    + rewrite lookup_insert_ne by done.
      destruct (decide (k ∈ sb_SessionName <$> bs)); [rewrite !bool_decide_eq_true_2 by set_solver|rewrite !bool_decide_eq_false_2 by set_solver]; done.
Qed.

(** The slots a loop over candidates fills: the first that are not busy, as many as there are
    slots left. *)
Lemma fill_slots_spec count busy reason bs filled d :
  let free := List.filter (fun b => negb (busy b)) bs in
  let chosen := take (Z.to_nat (count - filled)) free in
  fill_slots count busy reason bs filled d = (desire_all reason chosen d, filled + Z.of_nat (length chosen)).
Proof.
  simpl. revert filled d. induction bs as [|b bs IH]; intros filled d; simpl.
  - rewrite take_nil. simpl. f_equal. lia.
  - destruct (Z.leb_spec count filled) as [Hc|Hc].
    + replace (Z.to_nat (count - filled)) with 0%nat by lia. simpl. f_equal. lia.
    + rewrite !IH. destruct (busy b); simpl; [done|].
      replace (Z.to_nat (count - filled)) with (S (Z.to_nat (count - (filled + 1)))) by lia. simpl.
      f_equal. lia.
Qed.

(** * The sessions a scale check wakes *)

(** The candidates of a template, active ones first, that have no work of their own. *)
Definition free (input : AwakeInput) (bs : list AwakeSessionBead) : list AwakeSessionBead :=
  List.filter (fun b => negb (sessionHasAssignedWork (ai_WorkBeads input) (ai_NamedSessions input) b)) bs.

(** The slots of a scale check that no session at work fills. *)
Definition open_slots (input : AwakeInput) (entry : string * Z) : nat :=
  Z.to_nat (entry.2 - countAssignedScaleSlots (ai_SessionBeads input) (ai_WorkBeads input) (ai_NamedSessions input) entry.1).

Definition scaling (ix : AgentIndex) (entry : string * Z) : bool := (0 <? entry.2) && runnable (lookupAgent ix entry.1).

Definition scale_active (input : AwakeInput) (entry : string * Z) : list AwakeSessionBead :=
  take (open_slots input entry) (free input (collectActiveBeads (ai_SessionBeads input) entry.1)).
Definition scale_creating (input : AwakeInput) (entry : string * Z) : list AwakeSessionBead :=
  take (open_slots input entry - length (scale_active input entry)) (free input (collectCreatingBeads (ai_SessionBeads input) entry.1)).
Definition scale_writes (input : AwakeInput) (ix : AgentIndex) (entry : string * Z) : Desired :=
  if scaling ix entry
  then desire_all "scaled:creating" (scale_creating input entry) ∅ ∪ desire_all "scaled:demand" (scale_active input entry) ∅
  else ∅.

Lemma scale_template_writes input ix d entry : scale_template input ix d entry = scale_writes input ix entry ∪ d.
Proof.
  destruct entry as [template count]. unfold scale_template, scale_writes, scaling. simpl.
  destruct (Z.leb_spec count 0) as [Hc|Hc].
  { rewrite (proj2 (Z.ltb_ge 0 count)) by lia. simpl. by rewrite (left_id_L ∅ _). }
  rewrite (proj2 (Z.ltb_lt 0 count)) by lia. simpl.
  destruct (runnable (lookupAgent ix template)); simpl; [|by rewrite (left_id_L ∅ _)].
  rewrite !fill_slots_spec. simpl.
  rewrite desire_all_union. rewrite (desire_all_union "scaled:demand").
  rewrite (assoc_L _). do 2 f_equal. unfold scale_creating, scale_active, open_slots, free. simpl.
  do 2 f_equal. lia.
Qed.

Lemma scale_writes_scaled input ix entry k r : scale_writes input ix entry !! k = Some r -> by_scale r.
Proof.
  unfold scale_writes. destruct (scaling ix entry); [|by rewrite lookup_empty].
  intros Hk. apply lookup_union_Some_raw in Hk as [Hk|[_ Hk]]; rewrite lookup_desire_all in Hk; case_bool_decide; simplify_eq; unfold by_scale; auto.
Qed.

Lemma union_scaled_comm (w w' d : Desired) :
  (forall k r, w !! k = Some r -> by_scale r) -> (forall k r, w' !! k = Some r -> by_scale r) ->
  same_desires (w ∪ (w' ∪ d)) (w' ∪ (w ∪ d)).
Proof.
  intros Hw Hw' k. rewrite !lookup_union. specialize (Hw k). specialize (Hw' k).
  destruct (w !! k), (w' !! k), (d !! k); simpl; constructor; unfold alike; auto.
Qed.

Lemma scale_same input ix e d d' : same_desires d d' -> same_desires (scale_template input ix d e) (scale_template input ix d' e).
Proof.
  intros Hd. rewrite !scale_template_writes. intros k. rewrite !lookup_union. specialize (Hd k).
  destruct (scale_writes input ix e !! k); [|by rewrite !(left_id_L None _)].
  destruct (d !! k), (d' !! k); constructor; unfold alike; auto.
Qed.

Lemma scale_checks_reorder input ix order order' d :
  order ≡ₚ order' -> same_desires (scale_checks input ix order d) (scale_checks input ix order' d).
Proof.
  apply fold_left_reorder; [exact _|apply scale_same|].
  intros x y a. rewrite !scale_template_writes. apply union_scaled_comm; apply scale_writes_scaled.
Qed.

(** The one session a work query wakes. *)
Definition query_target (input : AwakeInput) (ix : AgentIndex) (entry : string * bool) : option AwakeSessionBead :=
  if negb entry.2 || (0 <? default 0 (ai_ScaleCheckCounts input !! entry.1)) || negb (runnable (lookupAgent ix entry.1))
     || isNamedSessionTemplate (ai_NamedSessions input) entry.1 then None
  else head (collectActiveBeads (ai_SessionBeads input) entry.1 ++ collectCreatingBeads (ai_SessionBeads input) entry.1).

Lemma work_query_target input ix d entry :
  work_query input ix d entry = match query_target input ix entry with Some b => desire b "work-query" d | None => d end.
Proof.
  destruct entry as [template w]. unfold work_query, query_target. simpl. destruct w; simpl; [|done].
  destruct (0 <? _); simpl; [done|]. destruct (runnable _); simpl; [|done]. destruct (isNamedSessionTemplate _ _); simpl; [done|].
  destruct (collectActiveBeads _ _); simpl; [|done]. by destruct (collectCreatingBeads _ _).
Qed.

Lemma work_query_same input ix e d d' : same_desires d d' -> same_desires (work_query input ix d e) (work_query input ix d' e).
Proof. intros Hd. rewrite !work_query_target. destruct (query_target _ _ _); [|done]. by apply desire_same. Qed.

Lemma work_queries_reorder input ix order order' d :
  order ≡ₚ order' -> same_desires (work_queries input ix order d) (work_queries input ix order' d).
Proof.
  apply fold_left_reorder; [exact _|apply work_query_same|].
  intros x y a. rewrite !work_query_target. destruct (query_target _ _ x) as [b|], (query_target _ _ y) as [b'|]; try reflexivity.
  unfold desire. destruct (decide (sb_SessionName b = sb_SessionName b')) as [->|Hn]; [reflexivity|].
  by rewrite insert_insert_ne.
Qed.

(** * The passes respect alike reasons *)

Lemma manual_same ix beads d d' : same_desires d d' -> same_desires (manual_sessions ix beads d) (manual_sessions ix beads d').
Proof.
  apply fold_left_same. intros b a a' Ha. destruct (_ || _ || _); [done|]. destruct (ix_byName ix !! _); [|done]. by apply desire_same.
Qed.

(** The anchor of a session depends on no other. *)
Definition anchor_for (input : AwakeInput) (ix : AgentIndex) (b : AwakeSessionBead) : option string :=
  if String.eqb (sb_State b) "closed" || suspended (lookupAgent ix (sb_Template b)) then None
  else find_anchor (assigned (ai_NamedSessions input) b) (sb_CurrentlyProcessingBeadID b) (ai_WorkBeads input) "" false.

Lemma anchor_session_for input ix s b :
  anchor_session input ix s b
  = match anchor_for input ix b with
    | Some anchor => (desire b "assigned-work" s.1, <[sb_SessionName b := anchor]> s.2)
    | None => s
    end.
Proof. unfold anchor_session, anchor_for. destruct (String.eqb _ _), (suspended _); done. Qed.

Definition same_state (s s' : Desired * gmap string string) : Prop := same_desires s.1 s'.1 /\ s.2 = s'.2.

Lemma assigned_same input ix d d' : same_desires d d' -> same_state (assigned_work input ix d) (assigned_work input ix d').
Proof.
  intros Hd. unfold assigned_work. apply (fold_left_same same_state); [|by split]. intros b s s' [Hs Ha]. rewrite !anchor_session_for.
  destruct (anchor_for input ix b); [|by split]. split; simpl; [by apply desire_same|by rewrite Ha].
Qed.

Lemma covered_same beads d d' t now : same_desires d d' -> countMinActiveCovered beads d t now = countMinActiveCovered beads d' t now.
Proof.
  intros Hd. unfold countMinActiveCovered. do 2 f_equal. apply List.filter_ext. intros b. unfold covers. by rewrite Hd.
Qed.

Lemma revive_same minimum now bs : forall covered d d',
  same_desires d d' -> same_desires (revive minimum now bs covered d) (revive minimum now bs covered d').
Proof.
  induction bs as [|b bs IH]; intros covered d d' Hd; simpl; [done|]. destruct (minimum <=? covered); [done|].
  rewrite (wanted_same _ _ Hd _ _ eq_refl). destruct (wanted _ _); [by apply IH|]. destruct (minActiveHardBlocked b now); apply IH; [done|].
  by apply desire_same.
Qed.

Lemma min_active_same input d d' : same_desires d d' -> same_desires (min_active input d) (min_active input d').
Proof.
  apply fold_left_same. intros a x x' Hx. unfold min_active_agent. destruct (_ || _); [done|].
  rewrite (covered_same _ _ _ _ _ Hx). destruct (_ <=? _); [done|]. by apply revive_same.
Qed.

Lemma reset_pending_same beads d d' : same_desires d d' -> same_desires (reset_pending beads d) (reset_pending beads d').
Proof.
  apply fold_left_same. intros b a a' Ha. destruct (_ || _ || _); [done|].
  rewrite (reason_same _ _ _ _ Ha) by (intros ? [-> | ->]; reflexivity). destruct (one_of _ _); [done|]. by apply desire_same.
Qed.

Lemma desired_set_reorder scale scale' work work' input :
  scale ≡ₚ scale' -> work ≡ₚ work' -> same_state (desired_set scale work input) (desired_set scale' work' input).
Proof.
  intros Hs Hw. unfold desired_set. set (ix := index_agents _). set (beads := ai_SessionBeads input).
  set (d0 := named_sessions input ix _).
  assert (same_desires (work_queries input ix work (scale_checks input ix scale d0)) (work_queries input ix work' (scale_checks input ix scale' d0))) as Hd.
  { etrans; [apply work_queries_reorder, Hw|]. unfold work_queries. apply (fold_left_same same_desires); [apply work_query_same|]. by apply scale_checks_reorder. }
  apply (manual_same ix beads) in Hd. apply (assigned_same input ix) in Hd as [Hd Ha].
  destruct (assigned_work input ix (manual_sessions ix beads (work_queries input ix work _))) as [d a].
  destruct (assigned_work input ix (manual_sessions ix beads (work_queries input ix work' _))) as [d' a']. simpl in *.
  split; simpl; [|done]. by apply reset_pending_same, min_active_same.
Qed.

(** Two decisions that differ at most in how a pool was said to be filled. *)
Record same_decision (x y : AwakeDecision) : Prop := mk_same_decision {
  same_wake : dc_ShouldWake x = dc_ShouldWake y;
  same_reason : alike (dc_Reason x) (dc_Reason y);
  same_work : dc_HasAssignedWork x = dc_HasAssignedWork y;
  same_anchor : dc_AssignedWorkBeadID x = dc_AssignedWorkBeadID y;
  same_cycle : dc_RequiresFreshCycle x = dc_RequiresFreshCycle y
}.

Definition same_verdict (v v' : bool * string) : Prop := v.1 = v'.1 /\ alike v.2 v'.2.

#[local] Instance same_verdict_refl : Reflexive same_verdict.
Proof. intros v. split; reflexivity. Qed.

Lemma verdict_if (c : bool) v v' x : same_verdict v v' -> same_verdict (if c then x else v) (if c then x else v').
Proof. by destruct c. Qed.

Lemma causes_same input ix d d' b : same_desires d d' -> same_verdict (causes input ix d b) (causes input ix d' b).
Proof.
  intros Hd. unfold causes.
  assert (same_verdict (demanded d b) (demanded d' b)) as Hv.
  { unfold demanded. destruct (Hd (sb_SessionName b)); [|done]. by destruct (_ || _ || _). }
  revert Hv. generalize (demanded d b) (demanded d' b). intros v v' Hv.
  apply (verdict_if (on (ai_AttachedSessions input) (sb_SessionName b) && negb (sb_WaitHold b)) _ _ (true, "attached")) in Hv.
  apply (verdict_if (on (ai_PendingSessions input) (sb_SessionName b) && negb (sb_WaitHold b)) _ _ (true, "pending")) in Hv.
  apply (verdict_if (on (ai_ReadyWaitSet input) (sb_ID b)) _ _ (true, "wait-ready")) in Hv.
  revert Hv. match goal with |- same_verdict ?x ?y -> _ => generalize x y end. clear. intros v v' Hv.
  assert (v.1 = v'.1) as He by apply Hv. rewrite He.
  match goal with |- context [if ?c then (true, "on-demand:running") else v] => apply (verdict_if c _ _ (true, "on-demand:running")) in Hv end.
  revert Hv. match goal with |- same_verdict ?x ?y -> _ => generalize x y end. clear. intros v v' Hv.
  assert (v.1 = v'.1) as He by apply Hv. rewrite He. by apply verdict_if.
Qed.

Lemma idle_asleep_same input ix d d' b : same_desires d d' -> idle_asleep input ix d b = idle_asleep input ix d' b.
Proof. intros Hd. unfold idle_asleep. rewrite (reason_same _ _ _ _ Hd) by (intros ? [-> | ->]; reflexivity). done. Qed.

Lemma verdict_same input ix d d' b : same_desires d d' -> same_verdict (verdict input ix d b) (verdict input ix d' b).
Proof.
  intros Hd. unfold verdict. pose proof (causes_same input ix d d' b Hd) as Hv. rewrite (idle_asleep_same _ _ _ _ _ Hd).
  assert ((causes input ix d b).1 = (causes input ix d' b).1) as -> by apply Hv. by repeat apply verdict_if.
Qed.

Lemma decide_session_same input ix s s' b : same_state s s' -> same_decision (decide_session input ix s b) (decide_session input ix s' b).
Proof.
  intros [Hd Ha]. unfold decide_session. rewrite Ha. pose proof (verdict_same input ix _ _ b Hd) as [Hw Hr].
  destruct (verdict input ix s.1 b), (verdict input ix s'.1 b). simpl in *. by destruct (s'.2 !! _); constructor.
Qed.

Lemma awake_set_same input ix s s' bs (r r' : gmap string AwakeDecision) :
  same_state s s' -> (forall k, option_Forall2 same_decision (r !! k) (r' !! k)) ->
  forall k, option_Forall2 same_decision (fold_left (fun r b => <[sb_SessionName b := decide_session input ix s b]> r) bs r !! k)
              (fold_left (fun r b => <[sb_SessionName b := decide_session input ix s' b]> r) bs r' !! k).
Proof.
  intros Hs. revert r r'. induction bs as [|b bs IH]; intros r r' Hr; simpl; [done|]. apply IH. intros k.
  destruct (decide (sb_SessionName b = k)) as [<-|Hk].
  - rewrite !lookup_insert_eq. constructor. by apply decide_session_same.
  - by rewrite !lookup_insert_ne.
Qed.

(** Overlaying maps that never disagree: the order does not show. *)
Lemma overlay_lookup {A} (w : A -> Desired) l d k r :
  (forall e e' r r', e ∈ l -> e' ∈ l -> w e !! k = Some r -> w e' !! k = Some r' -> r = r') ->
  fold_left (fun d e => w e ∪ d) l d !! k = Some r
  <-> (exists e, e ∈ l /\ w e !! k = Some r) \/ ((forall e, e ∈ l -> w e !! k = None) /\ d !! k = Some r).
Proof.
  revert d. induction l as [|e l IH]; intros d Hw; simpl.
  { split; [intros Hd; right; split; [intros e He; inversion He|done]|]. intros [(e & He & _)|[_ ?]]; [inversion He|done]. }
  rewrite IH by (intros e1 e2 r1 r2 H1 H2; apply Hw; by right). rewrite lookup_union.
  setoid_rewrite elem_of_cons. destruct (w e !! k) as [r'|] eqn:He.
  - rewrite union_Some_l. split.
    + intros [(e' & He' & Hr)|[_ [= <-]]]; eauto.
    + intros [(e' & [->|He'] & Hr)|[Hn _]]; [|eauto|by rewrite Hn in He; auto].
      rewrite He in Hr. destruct (decide (Exists (fun e' => is_Some (w e' !! k)) l)) as [Hex|Hno].
      * apply Exists_exists in Hex as (e' & He' & r'' & Hr''). left. exists e'. split; [done|]. rewrite Hr''. f_equal.
        eapply (Hw e' e); eauto; [by right|by left|congruence].
      * right. split; [|done]. intros e' He'. apply eq_None_not_Some. intros Hs. apply Hno, Exists_exists. eauto.
  - rewrite (left_id_L None _). split.
    + intros [(e' & He' & Hr)|[Hn Hr]]; [eauto|]. right. split; [|done]. intros e' [->|He']; auto.
    + intros [(e' & [->|He'] & Hr)|[Hn Hr]]; [congruence|eauto|eauto].
Qed.

Lemma overlay_reorder {A} (w : A -> Desired) l l' d :
  (forall k e e' r r', e ∈ l -> e' ∈ l -> w e !! k = Some r -> w e' !! k = Some r' -> r = r') ->
  l ≡ₚ l' -> fold_left (fun d e => w e ∪ d) l d = fold_left (fun d e => w e ∪ d) l' d.
Proof.
  intros Hw Hp. apply map_eq. intros k. apply option_eq. intros r.
  assert (forall e, e ∈ l <-> e ∈ l') as Hin by (intros e; by rewrite Hp).
  rewrite !overlay_lookup; [by setoid_rewrite Hin| |eauto]. intros e e' r1 r2 He He'. apply Hw; by apply Hin.
Qed.

Lemma work_queries_reorder_eq input ix order order' d :
  order ≡ₚ order' -> work_queries input ix order d = work_queries input ix order' d.
Proof.
  apply (fold_left_reorder eq); [by intros ???; intros ->|]. intros x y a. rewrite !work_query_target.
  destruct (query_target _ _ x) as [b|], (query_target _ _ y) as [b'|]; try reflexivity.
  unfold desire. destruct (decide (sb_SessionName b = sb_SessionName b')) as [->|Hn]; [done|]. by rewrite insert_insert_ne.
Qed.

(** Sessions that share a name are sessions of one template. *)
Definition one_template_per_name (beads : list AwakeSessionBead) : Prop :=
  forall b b', b ∈ beads -> b' ∈ beads -> sb_SessionName b = sb_SessionName b' -> sb_Template b = sb_Template b'.

Lemma in_filter {A} (p : A -> bool) l x : x ∈ List.filter p l <-> x ∈ l /\ p x = true.
Proof. rewrite !list_elem_of_In. apply List.filter_In. Qed.

Lemma in_take {A} n (l : list A) x : x ∈ take n l -> x ∈ l.
Proof. intros Hx. rewrite <- (take_drop n l). apply elem_of_app. by left. Qed.

Lemma free_in input bs b : b ∈ free input bs -> b ∈ bs.
Proof. unfold free. rewrite in_filter. tauto. Qed.

Lemma collectActive_in beads t b : b ∈ collectActiveBeads beads t -> b ∈ beads /\ sb_Template b = t.
Proof. unfold collectActiveBeads. rewrite in_filter, !andb_true_iff, String.eqb_eq. tauto. Qed.
Lemma collectCreating_in beads t b : b ∈ collectCreatingBeads beads t -> b ∈ beads /\ sb_Template b = t.
Proof. unfold collectCreatingBeads. rewrite in_filter, !andb_true_iff, String.eqb_eq. tauto. Qed.

(** A scale check writes the names of sessions of its template. *)
Lemma scale_writes_names input ix e k r :
  scale_writes input ix e !! k = Some r -> exists b, b ∈ ai_SessionBeads input /\ sb_Template b = e.1 /\ sb_SessionName b = k.
Proof.
  unfold scale_writes. destruct (scaling ix e); [|by rewrite lookup_empty].
  intros Hk. apply lookup_union_Some_raw in Hk as [Hk|[_ Hk]]; rewrite lookup_desire_all in Hk; case_bool_decide as Hin; simplify_eq;
    apply list_elem_of_fmap in Hin as (b & -> & Hb); exists b; apply in_take, free_in in Hb;
    [apply collectCreating_in in Hb|apply collectActive_in in Hb]; tauto.
Qed.

Lemma scale_checks_reorder_eq input ix order order' d :
  one_template_per_name (ai_SessionBeads input) ->
  order ≡ₚ map_to_list (ai_ScaleCheckCounts input) -> order' ≡ₚ map_to_list (ai_ScaleCheckCounts input) ->
  scale_checks input ix order d = scale_checks input ix order' d.
Proof.
  intros Hone Ho Ho'. unfold scale_checks.
  transitivity (fold_left (fun d e => scale_writes input ix e ∪ d) order d).
  { apply fold_left_ext. intros a b. apply scale_template_writes. }
  transitivity (fold_left (fun d e => scale_writes input ix e ∪ d) order' d).
  2: { symmetry. apply fold_left_ext. intros a b. apply scale_template_writes. }
  apply overlay_reorder; [|by rewrite Ho, Ho']. intros k e e' r r' He He' Hr Hr'.
  pose proof (scale_writes_names _ _ _ _ _ Hr) as (b & Hb & Ht & Hn). pose proof (scale_writes_names _ _ _ _ _ Hr') as (b' & Hb' & Ht' & Hn').
  assert (e.1 = e'.1) as Hk. { rewrite <- Ht, <- Ht'. apply Hone; congruence. }
  assert (e = e') as <-; [|congruence]. destruct e as [t c], e' as [t' c']. simpl in Hk. subst t'.
  rewrite Ho in He, He'. apply elem_of_map_to_list in He, He'. congruence.
Qed.

(** (C28) The awake set does not depend on the order its maps are iterated in.  In any two
    orders, every session gets the same decision: to wake or not, for its assigned work, its
    anchor and its fresh cycle; only the reason may say demand in one and creating in the
    other, and that only when sessions of different templates share a name. *)
Theorem awake_order_irrelevant input scale scale' work work' :
  scale ≡ₚ map_to_list (ai_ScaleCheckCounts input) -> scale' ≡ₚ map_to_list (ai_ScaleCheckCounts input) ->
  work ≡ₚ map_to_list (ai_WorkSet input) -> work' ≡ₚ map_to_list (ai_WorkSet input) ->
  (forall name, option_Forall2 same_decision (ComputeAwakeSet scale work input !! name) (ComputeAwakeSet scale' work' input !! name))
  /\ (one_template_per_name (ai_SessionBeads input) -> ComputeAwakeSet scale work input = ComputeAwakeSet scale' work' input).
Proof.
  intros Hs Hs' Hw Hw'. split.
  - intros name. unfold ComputeAwakeSet. apply awake_set_same; [|intros k; rewrite lookup_empty; constructor].
    apply desired_set_reorder; etrans; eauto; by symmetry.
  - intros Hone. unfold ComputeAwakeSet, desired_set.
    rewrite (scale_checks_reorder_eq input _ scale scale') by done.
    rewrite (work_queries_reorder_eq input _ work work') by (by rewrite Hw, Hw'). done.
Qed.

