(* ===== verification/AwakeProps.v ===== *)
(** Which sessions are awake, proved of the session that speaks for its name: work that is
    assigned wakes it, demand for a pool wakes the sessions it takes and no more, a pool
    keeps its minimum through a stop of the city, and what the lifecycle records is what
    the awake set does. *)
From Stdlib Require Import Ascii.
From S2P Require Import Prelude GoStd BeadQuery SessionMachine SessionInfo SessionLifecycle SessionPatch SessionLifeProps.
From S2P Require Import SessionReap SessionReapProps AwakeSet AwakeOrder.
Import beads session sessioninfo lifecycle transition reap awake.

(** * One session's decision *)

(** The last element with a property. *)
Definition last_such {A} (P : A -> Prop) (l : list A) (x : A) : Prop :=
  exists before after, l = before ++ x :: after /\ P x /\ Forall (fun y => ~ P y) after.

Lemma last_such_in {A} (P : A -> Prop) l x : last_such P l x -> x ∈ l /\ P x.
Proof. intros (before & after & -> & Hx & _). split; [set_solver|done]. Qed.

Lemma last_such_exists {A} (P : A -> Prop) `{!forall x, Decision (P x)} l x : x ∈ l -> P x -> exists y, last_such P l y.
Proof.
  intros Hx HP. induction l as [|y l IH] using rev_ind; [by apply elem_of_nil in Hx|]. destruct (decide (P y)) as [Hy|Hy].
  - exists y, l, []. split; [done|]. split; [done|constructor].
  - apply elem_of_app in Hx as [Hx|Hx%list_elem_of_singleton]; [|congruence]. destruct (IH Hx) as (z & before & after & -> & Hz & Hf).
    exists z, before, (after ++ [y]). rewrite <- app_assoc. split; [done|]. split; [done|]. apply Forall_app. by rewrite Forall_singleton.
Qed.

(** A fold that records something under the name of some sessions: the last one stays. *)
Section own.
Context {A : Type} (g : AwakeSessionBead -> option A).

Definition written (m : gmap string A) (b : AwakeSessionBead) : gmap string A :=
  match g b with Some a => <[sb_SessionName b := a]> m | None => m end.

Lemma fold_other k l m :
  Forall (fun x => ~ (sb_SessionName x = k /\ is_Some (g x))) l -> fold_left written l m !! k = m !! k.
Proof.
  revert m. induction l as [|x l IH]; intros m Hl; simpl; [done|]. apply Forall_cons in Hl as [Hx Hl]. rewrite IH by done. unfold written.
  destruct (g x) eqn:E; [|done]. apply lookup_insert_ne. intros Hk. apply Hx. eauto.
Qed.

Lemma fold_last k l m b a :
  last_such (fun x => sb_SessionName x = k /\ is_Some (g x)) l b -> g b = Some a -> fold_left written l m !! k = Some a.
Proof.
  intros (before & after & -> & [Hk _] & Hf) Hb. rewrite fold_left_app. simpl. rewrite fold_other by done. unfold written. by rewrite Hb, <- Hk, lookup_insert_eq.
Qed.
End own.

(** Sessions may share a name, a retired duplicate and its winner; the last under a name is
    the one the decision for the name is about. *)
Definition speaks (input : AwakeInput) (b : AwakeSessionBead) : Prop :=
  last_such (fun x => sb_SessionName x = sb_SessionName b) (ai_SessionBeads input) b.

Lemma speaks_in input b : speaks input b -> b ∈ ai_SessionBeads input.
Proof. by intros [? _]%last_such_in. Qed.

Lemma speaks_unique input b : NoDup (sb_SessionName <$> ai_SessionBeads input) -> b ∈ ai_SessionBeads input -> speaks input b.
Proof.
  intros Hnd Hb. apply list_elem_of_split in Hb as (before & after & E). exists before, after. split; [done|]. split; [done|].
  rewrite E, fmap_app, fmap_cons in Hnd. apply NoDup_app in Hnd as (_ & _ & [Hn _]%NoDup_cons). apply Forall_forall. intros x Hx Heq.
  apply Hn. rewrite <- Heq. by apply list_elem_of_fmap_2.
Qed.

Lemma awake_decision scale work input b :
  speaks input b ->
  ComputeAwakeSet scale work input !! sb_SessionName b
  = Some (decide_session input (index_agents (ai_Agents input)) (desired_set scale work input) b).
Proof.
  intros (before & after & E & _ & Hf). unfold ComputeAwakeSet.
  apply (fold_last (fun b => Some (decide_session input (index_agents (ai_Agents input)) (desired_set scale work input) b)) _ _ _ b); [|done].
  exists before, after. split; [done|]. split; [by split|]. eapply Forall_impl; [exact Hf|]. by intros x Hx [? _].
Qed.

Lemma assigned_work_split input ix d :
  assigned_work input ix d
  = (fold_left (fun d b => match anchor_for input ix b with Some _ => desire b "assigned-work" d | None => d end) (ai_SessionBeads input) d,
     fold_left (fun m b => match anchor_for input ix b with Some a => <[sb_SessionName b := a]> m | None => m end) (ai_SessionBeads input) ∅).
Proof.
  unfold assigned_work. generalize (∅ : gmap string string) as m. revert d. induction (ai_SessionBeads input) as [|b bs IH]; intros d m; simpl; [done|].
  rewrite anchor_session_for. destruct (anchor_for input ix b); simpl; apply IH.
Qed.

Lemma assigned_work_lookup input ix d k b a :
  last_such (fun x => sb_SessionName x = k /\ is_Some (anchor_for input ix x)) (ai_SessionBeads input) b -> anchor_for input ix b = Some a ->
  let s := assigned_work input ix d in s.2 !! k = Some a /\ s.1 !! k = Some "assigned-work".
Proof.
  intros Hb Ha. rewrite assigned_work_split. simpl. split; [by apply (fold_last (anchor_for input ix) k _ _ b)|].
  assert (forall l m, fold_left (fun d b => match anchor_for input ix b with Some _ => desire b "assigned-work" d | None => d end) l m
    = fold_left (written (fun b => (fun _ => "assigned-work") <$> anchor_for input ix b)) l m) as ->.
  { induction l as [|x l IH]; intros m; simpl; [done|]. rewrite IH. f_equal. unfold written. by destruct (anchor_for input ix x). }
  apply (fold_last _ k _ _ b); [|by rewrite Ha]. destruct Hb as (before & after & -> & [Hk _] & Hf). exists before, after. split; [done|].
  split; [split; [done|by rewrite Ha]|]. eapply Forall_impl; [exact Hf|]. intros x Hx [? [y Hy]]. apply Hx. split; [done|].
  destruct (anchor_for input ix x); [eauto|done].
Qed.

Lemma assigned_work_none input ix d k :
  Forall (fun x => ~ (sb_SessionName x = k /\ is_Some (anchor_for input ix x))) (ai_SessionBeads input) -> (assigned_work input ix d).2 !! k = None.
Proof. intros Hf. rewrite assigned_work_split. simpl. by rewrite (fold_other (anchor_for input ix)). Qed.

Lemma find_anchor_spec mine recorded works fallback matchedAny :
  Forall (fun w => wk_ID w <> "") works ->
  let ids := wk_ID <$> List.filter mine works in
  find_anchor mine recorded works fallback matchedAny
  = if negb (String.eqb recorded "") && bool_decide (recorded ∈ ids) then Some recorded
    else match ids with
         | [] => if matchedAny then Some fallback else None
         | id :: _ => Some (if String.eqb fallback "" then id else fallback)
         end.
Proof.
  simpl. intros Hids. revert fallback matchedAny. induction works as [|w works IH]; intros fallback matchedAny; simpl.
  { by rewrite andb_false_r. }
  apply Forall_cons in Hids as [Hid Hids]. destruct (mine w); simpl; [|by apply IH].
  destruct (String.eqb_spec recorded "") as [->|Hr]; simpl.
  - rewrite IH by done. simpl. destruct (wk_ID <$> List.filter mine works); [done|].
    destruct (String.eqb_spec fallback "") as [->|Hf]; [by rewrite (proj2 (String.eqb_neq _ _) Hid)|].
    by rewrite (proj2 (String.eqb_neq _ _) Hf).
  - destruct (String.eqb_spec (wk_ID w) recorded) as [<-|Hne]; simpl.
    + by rewrite bool_decide_eq_true_2 by (by left).
    + rewrite IH by done. simpl.
      rewrite (bool_decide_ext (recorded ∈ wk_ID w :: _) (recorded ∈ wk_ID <$> List.filter mine works))
        by (rewrite elem_of_cons; split; [intros [->|?]; done|by right]).
      case_bool_decide; [done|]. destruct (wk_ID <$> List.filter mine works); [done|].
      destruct (String.eqb_spec fallback "") as [->|Hf]; [by rewrite (proj2 (String.eqb_neq _ _) Hid)|].
      by rewrite (proj2 (String.eqb_neq _ _) Hf).
Qed.

(** Later passes keep a session desired, with its reason or for a reset that is pending. *)
Lemma revive_keeps minimum now bs k r : forall covered d, d !! k = Some r -> revive minimum now bs covered d !! k = Some r.
Proof.
  induction bs as [|b bs IH]; intros covered d Hk; simpl; [done|]. destruct (_ <=? _); [done|].
  destruct (wanted d (sb_SessionName b)) eqn:Hw; [by apply IH|]. destruct (minActiveHardBlocked b now); apply IH; [done|].
  unfold desire. rewrite lookup_insert_ne; [done|]. intros <-. unfold wanted in Hw. by rewrite Hk in Hw.
Qed.

Lemma min_active_agent_keeps input a d k r : d !! k = Some r -> min_active_agent input d a !! k = Some r.
Proof. intros Hk. unfold min_active_agent. destruct (_ || _); [done|]. destruct (_ <=? _); [done|]. by apply revive_keeps. Qed.

Lemma min_active_keeps input d k r : d !! k = Some r -> min_active input d !! k = Some r.
Proof.
  unfold min_active. revert d. induction (ai_Agents input) as [|a l IH]; intros d Hk; simpl; [done|]. by apply IH, min_active_agent_keeps.
Qed.

Lemma reset_pending_keeps beads d k r :
  d !! k = Some r -> exists r', reset_pending beads d !! k = Some r' /\ (r' = r \/ r' = "reset-pending").
Proof.
  intros Hk. assert (exists r', d !! k = Some r' /\ (r' = r \/ r' = "reset-pending")) as Hd by eauto. clear Hk. revert d Hd.
  unfold reset_pending. induction beads as [|b l IH]; intros d Hd; simpl; [done|]. apply IH.
  destruct (_ || _ || _); [done|]. match goal with |- context [if ?c then d else _] => destruct c end; [done|]. unfold desire.
  destruct (decide (sb_SessionName b = k)) as [<-|Hne]; [rewrite lookup_insert_eq; eauto|by rewrite lookup_insert_ne].
Qed.

(** The pass that fixes the anchors fixes the reason of a session at work. *)
Lemma desired_set_anchor scale work input k b a :
  let ix := index_agents (ai_Agents input) in
  let s := desired_set scale work input in
  last_such (fun x => sb_SessionName x = k /\ is_Some (anchor_for input ix x)) (ai_SessionBeads input) b -> anchor_for input ix b = Some a ->
  s.2 !! k = Some a /\ exists r, s.1 !! k = Some r /\ (r = "assigned-work" \/ r = "reset-pending").
Proof.
  intros ix s Hb Ha. unfold s, desired_set. fold ix.
  match goal with |- context [assigned_work input ix ?d] => pose proof (assigned_work_lookup input ix d k b a Hb Ha) as [H2 H1]; destruct (assigned_work input ix d) as [d' an] end.
  simpl in *. split; [done|]. by apply reset_pending_keeps, min_active_keeps.
Qed.

Lemma desired_set_unanchored scale work input k :
  Forall (fun x => ~ (sb_SessionName x = k /\ is_Some (anchor_for input (index_agents (ai_Agents input)) x))) (ai_SessionBeads input) ->
  (desired_set scale work input).2 !! k = None.
Proof.
  intros Hf. unfold desired_set.
  match goal with |- context [assigned_work input ?ix ?d] => pose proof (assigned_work_none input ix d k Hf) as H2; destruct (assigned_work input ix d) as [d' an] end. done.
Qed.

(** A hold or a quarantine that has not run out. *)
Definition barred (input : AwakeInput) (b : AwakeSessionBead) : bool :=
  until (sb_HeldUntil b) (ai_Now input) || until (sb_QuarantinedUntil b) (ai_Now input).

(** A session parked on a wait answers to its launch, an explicit wake and the wait's end. *)
Definition parked (input : AwakeInput) (b : AwakeSessionBead) : bool :=
  sb_WaitHold b && negb (sb_PendingCreate b) && negb (sb_ExplicitWake b) && negb (on (ai_ReadyWaitSet input) (sb_ID b)).

Lemma verdict_not_barred input ix d b :
  (verdict input ix d b).1 = (causes input ix d b).1 && negb (idle_asleep input ix d b) && negb (barred input b).
Proof.
  unfold verdict, barred. generalize (until (sb_QuarantinedUntil b) (ai_Now input)) (until (sb_HeldUntil b) (ai_Now input))
    (idle_asleep input ix d b) (causes input ix d b). by intros [] [] [] [[] r].
Qed.

Lemma override_fst (c : bool) (r : string) (v : bool * string) : (if c then (true, r) else v).1 = c || v.1.
Proof. by destruct c. Qed.

Lemma demanded_fst d b : (demanded d b).1 = wanted d (sb_SessionName b) && (negb (sb_WaitHold b) || sb_PendingCreate b || sb_ExplicitWake b).
Proof. unfold demanded, wanted. destruct (d !! sb_SessionName b); [by destruct (_ || _ || _)|done]. Qed.

Lemma causes_parked input ix d b : parked input b = true -> (causes input ix d b).1 = false.
Proof.
  unfold parked, causes. rewrite !andb_true_iff, !negb_true_iff. intros (((Hw & Hp) & He) & Hr).
  rewrite !override_fst, demanded_fst, Hw, Hp, He, Hr. cbn [negb orb]. by rewrite !andb_false_r.
Qed.

Lemma causes_wanted input ix d b : wanted d (sb_SessionName b) = true -> parked input b = false -> (causes input ix d b).1 = true.
Proof.
  intros Hd Hp. unfold causes. rewrite !override_fst, demanded_fst, Hd. unfold parked in Hp. rewrite !orb_true_iff.
  rewrite !andb_false_iff, !negb_false_iff in Hp. destruct Hp as [[[-> | ->]| ->]| ->]; cbn [negb orb andb]; rewrite ?orb_true_r; tauto.
Qed.

Lemma idle_exempt_awake input ix d b : one_of (default "" (d !! sb_SessionName b)) idle_exempt_reasons = true -> idle_asleep input ix d b = false.
Proof. intros He. unfold idle_asleep. rewrite He. simpl. by rewrite !andb_false_r. Qed.

(** A session desired for a reason no idleness overrides is awake but for a bar or a wait. *)
Lemma verdict_exempt input ix d b r :
  d !! sb_SessionName b = Some r -> one_of r idle_exempt_reasons = true ->
  (verdict input ix d b).1 = negb (barred input b) && negb (parked input b).
Proof.
  intros Hd Hr. rewrite verdict_not_barred, idle_exempt_awake by (by rewrite Hd). rewrite andb_true_r, andb_comm. f_equal.
  destruct (parked input b) eqn:Hp; [by apply causes_parked|]. apply causes_wanted; [|done]. unfold wanted. by rewrite Hd.
Qed.

(** The work a session is to do: assigned to it and in progress and not blocked, or open and
    ready, and none while its agent is suspended. *)
Definition work_of (input : AwakeInput) (b : AwakeSessionBead) : list string :=
  if String.eqb (sb_State b) "closed" || suspended (lookupAgent (index_agents (ai_Agents input)) (sb_Template b)) then []
  else wk_ID <$> List.filter (assigned (ai_NamedSessions input) b) (ai_WorkBeads input).

Definition anchor_of (input : AwakeInput) (b : AwakeSessionBead) : string :=
  let recorded := sb_CurrentlyProcessingBeadID b in
  if bool_decide (recorded ∈ work_of input b) then recorded else default "" (head (work_of input b)).

Lemma anchor_for_work input b :
  Forall (fun w => wk_ID w <> "") (ai_WorkBeads input) ->
  anchor_for input (index_agents (ai_Agents input)) b = if bool_decide (work_of input b <> []) then Some (anchor_of input b) else None.
Proof.
  intros Hids. unfold anchor_for, anchor_of, work_of. destruct (String.eqb (sb_State b) "closed"); [done|]. destruct (suspended _); [done|]. cbn [orb].
  rewrite find_anchor_spec by done. cbv zeta. set (mine := wk_ID <$> _). set (recorded := sb_CurrentlyProcessingBeadID b).
  assert (recorded ∈ mine -> recorded <> "") as Hne.
  { intros Hin ->. apply list_elem_of_fmap in Hin as (w & Hw & Hin). apply in_filter in Hin as [Hin _]. rewrite Forall_forall in Hids. by apply (Hids w). }
  case_bool_decide as Hin.
  - rewrite (proj2 (String.eqb_neq _ _) (Hne Hin)). cbn [negb andb]. rewrite bool_decide_eq_true_2; [done|]. intros E. rewrite E in Hin. by apply elem_of_nil in Hin.
  - rewrite andb_false_r. destruct mine; [done|]. by rewrite bool_decide_eq_true_2.
Qed.

Lemma anchor_for_some input b :
  Forall (fun w => wk_ID w <> "") (ai_WorkBeads input) -> is_Some (anchor_for input (index_agents (ai_Agents input)) b) <-> work_of input b <> [].
Proof. intros Hids. rewrite anchor_for_work by done. case_bool_decide; split; try done; eauto. Qed.

(** (C22) Work wakes its session.  The session that speaks for a name is told that it has work
    exactly when some session under the name, of an agent that is not suspended, has a work
    bead assigned that is in progress and not blocked, or open and ready.  The last such
    session gives the anchor: the bead it was processing if that is among them, else the
    first; a fresh cycle is asked for exactly if another bead was recorded; and the session
    is awake, however long it has been idle, unless it is held, quarantined, or parked on a
    wait that is not over. *)
Theorem assigned_work_wakes scale work input b :
  speaks input b -> Forall (fun w => wk_ID w <> "") (ai_WorkBeads input) ->
  let name := sb_SessionName b in
  let recorded := sb_CurrentlyProcessingBeadID b in
  exists dec, ComputeAwakeSet scale work input !! name = Some dec
  /\ (dc_HasAssignedWork dec = true <-> exists w, w ∈ ai_SessionBeads input /\ sb_SessionName w = name /\ work_of input w <> [])
  /\ (forall w, last_such (fun x => sb_SessionName x = name /\ work_of input x <> []) (ai_SessionBeads input) w ->
       dc_AssignedWorkBeadID dec = anchor_of input w
       /\ dc_RequiresFreshCycle dec = negb (String.eqb recorded "") && negb (String.eqb (anchor_of input w) recorded)
       /\ dc_ShouldWake dec = negb (barred input b) && negb (parked input b)).
Proof.
  intros Hb Hids name recorded. unfold name at 1; rewrite awake_decision by done. eexists; split; [done|]. set (ix := index_agents _). set (s := desired_set scale work input).
  assert (forall w, last_such (fun x => sb_SessionName x = name /\ work_of input x <> []) (ai_SessionBeads input) w ->
    s.2 !! name = Some (anchor_of input w) /\ exists r, s.1 !! name = Some r /\ (r = "assigned-work" \/ r = "reset-pending")) as Hlast.
  { intros w (before & after & E & [Hn Hw] & Hf). apply (desired_set_anchor scale work input name w).
    - exists before, after. split; [done|]. rewrite anchor_for_some by done. split; [done|]. eapply Forall_impl; [exact Hf|].
      intros x. by rewrite anchor_for_some.
    - rewrite anchor_for_work by done. by rewrite bool_decide_eq_true_2. }
  unfold decide_session. fold name. split.
  - split.
    + intros Hh. destruct (decide (Exists (fun x => sb_SessionName x = name /\ work_of input x <> []) (ai_SessionBeads input))) as [He|He].
      { apply Exists_exists in He as (w & ? & ? & ?). eauto. }
      exfalso. assert (s.2 !! name = None) as Hnone; [|rewrite Hnone in Hh; by destruct (verdict input ix s.1 b)].
      apply desired_set_unanchored. apply Forall_Exists_neg. intros Hx. apply He. eapply Exists_impl; [exact Hx|].
      cbv beta. intros x. by rewrite anchor_for_some.
    + intros (w & Hin & Hn & Hw). destruct (last_such_exists (fun x => sb_SessionName x = name /\ work_of input x <> []) _ w Hin (conj Hn Hw)) as (w' & Hw').
      destruct (Hlast w' Hw') as [-> _]. by destruct (verdict input ix s.1 b).
  - intros w Hw. destruct (Hlast w Hw) as [-> (r & Hd & Hr)]. pose proof (verdict_exempt input ix s.1 b r Hd) as Hv.
    destruct (verdict input ix s.1 b) as [wake reason]. simpl in *. rewrite Hv by (by destruct Hr as [-> | ->]). done.
Qed.

(** * Demand for a pool *)

(** Where a reason comes from: a fold whose steps never write it had it from the start. *)
Lemma fold_origin {B} (f : Desired -> B -> Desired) l d k r :
  (forall d x, f d x !! k = Some r -> d !! k = Some r) -> fold_left f l d !! k = Some r -> d !! k = Some r.
Proof. intros Hf. revert d. induction l as [|x l IH]; intros d; simpl; [done|]. intros Hk. by eapply Hf, IH. Qed.

(** A fold whose steps only add sessions keeps those there were. *)
Lemma fold_wanted {B} (f : Desired -> B -> Desired) l d k :
  (forall d x, wanted d k = true -> wanted (f d x) k = true) -> wanted d k = true -> wanted (fold_left f l d) k = true.
Proof. intros Hf. revert d. induction l as [|x l IH]; intros d Hd; simpl; [done|]. apply IH, Hf, Hd. Qed.

Lemma desire_wanted b r d k : wanted d k = true -> wanted (desire b r d) k = true.
Proof.
  unfold wanted, desire. destruct (decide (sb_SessionName b = k)) as [<-|Hk]; [by rewrite lookup_insert_eq|by rewrite lookup_insert_ne].
Qed.

Lemma insert_origin (k k' r r' : string) (d : Desired) : r <> r' -> <[k' := r']> d !! k = Some r -> d !! k = Some r.
Proof. intros Hr. destruct (decide (k' = k)) as [<-|Hk]; [rewrite lookup_insert_eq; congruence|by rewrite lookup_insert_ne]. Qed.

Lemma work_queries_wanted input ix order d k : wanted d k = true -> wanted (work_queries input ix order d) k = true.
Proof. apply fold_wanted. intros a e Ha. rewrite work_query_target. destruct (query_target _ _ _); [by apply desire_wanted|done]. Qed.
Lemma scale_checks_wanted input ix order d k : wanted d k = true -> wanted (scale_checks input ix order d) k = true.
Proof. apply fold_wanted. intros a e. rewrite scale_template_writes. unfold wanted. rewrite lookup_union. by destruct (a !! k), (scale_writes _ _ _ !! k). Qed.
Lemma manual_wanted ix beads d k : wanted d k = true -> wanted (manual_sessions ix beads d) k = true.
Proof. apply fold_wanted. intros a b Ha. destruct (_ || _ || _); [done|]. destruct (ix_byName ix !! _); [by apply desire_wanted|done]. Qed.
Lemma assigned_wanted input ix d k : wanted d k = true -> wanted (assigned_work input ix d).1 k = true.
Proof. rewrite assigned_work_split. apply fold_wanted. intros a b Ha. destruct (anchor_for _ _ _); [by apply desire_wanted|done]. Qed.
Lemma min_active_wanted input d k : wanted d k = true -> wanted (min_active input d) k = true.
Proof. unfold wanted. destruct (d !! k) eqn:Hk; [|done]. by rewrite (min_active_keeps _ _ _ _ Hk). Qed.
Lemma reset_wanted beads d k : wanted d k = true -> wanted (reset_pending beads d) k = true.
Proof. unfold wanted. destruct (d !! k) eqn:Hk; [|done]. by destruct (reset_pending_keeps beads _ _ _ Hk) as (r & -> & _). Qed.

(** The desired set just after the scale checks. *)
Definition scaled_set (scale : list (string * Z)) (input : AwakeInput) : Desired :=
  let ix := index_agents (ai_Agents input) in
  scale_checks input ix scale (named_sessions input ix (explicit_wakes ix (ai_SessionBeads input) (pending_creates (ai_SessionBeads input) ∅))).

Lemma scaled_set_wanted scale work input k : wanted (scaled_set scale input) k = true -> wanted (desired_set scale work input).1 k = true.
Proof.
  intros Hk. unfold desired_set. fold (scaled_set scale input). set (ix := index_agents _).
  apply (work_queries_wanted input ix work), (manual_wanted ix (ai_SessionBeads input)), (assigned_wanted input ix) in Hk.
  destruct (assigned_work input ix _) as [d a]. by apply reset_wanted, min_active_wanted.
Qed.

Ltac scaled_neq H := let E := fresh in intros E; destruct H as [-> | ->]; discriminate E.

Lemma revive_origin minimum now bs k r : by_scale r -> forall covered d, revive minimum now bs covered d !! k = Some r -> d !! k = Some r.
Proof.
  intros Hr. induction bs as [|b bs IH]; intros covered d; simpl; [done|]. destruct (_ <=? _); [done|].
  destruct (wanted _ _); [apply IH|]. destruct (minActiveHardBlocked b now); [apply IH|]. intros Hk. apply IH in Hk.
  apply insert_origin in Hk; [done|scaled_neq Hr].
Qed.

(** A reason a scale check gave was given by a scale check. *)
Lemma desired_set_origin scale work input k r : by_scale r -> (desired_set scale work input).1 !! k = Some r -> scaled_set scale input !! k = Some r.
Proof.
  intros Hr. unfold desired_set. fold (scaled_set scale input). set (ix := index_agents _). rewrite assigned_work_split. cbn [fst].
  intros Hk. apply fold_origin in Hk.
  2: { intros d b. destruct (_ || _ || _); [done|]. destruct (one_of _ _); [done|]. apply insert_origin. scaled_neq Hr. }
  apply fold_origin in Hk.
  2: { intros d a. unfold min_active_agent. destruct (_ || _); [done|]. destruct (_ <=? _); [done|]. by apply revive_origin. }
  apply fold_origin in Hk.
  2: { intros d b. destruct (anchor_for _ _ _); [|done]. apply insert_origin. scaled_neq Hr. }
  apply fold_origin in Hk.
  2: { intros d b. destruct (_ || _ || _); [done|]. destruct (ix_byName ix !! _); [|done]. apply insert_origin. scaled_neq Hr. }
  apply fold_origin in Hk; [done|]. intros d e. rewrite work_query_target. destruct (query_target _ _ _); [|done]. apply insert_origin. scaled_neq Hr.
Qed.

Lemma named_demand_unscaled input identity r : named_demand input identity = r -> ~ by_scale r.
Proof. intros <-. unfold named_demand. destruct (on _ _); [by intros []|]. destruct (on _ _); [by intros []|]. destruct (on _ _); by intros []. Qed.

Lemma scaled_set_origin scale input k r :
  by_scale r -> scaled_set scale input !! k = Some r ->
  exists e, e ∈ scale /\ scale_writes input (index_agents (ai_Agents input)) e !! k = Some r.
Proof.
  intros Hr. unfold scaled_set. set (ix := index_agents _).
  assert (named_sessions input ix (explicit_wakes ix (ai_SessionBeads input) (pending_creates (ai_SessionBeads input) ∅)) !! k <> Some r) as Hn.
  { intros Hk. apply fold_origin in Hk.
    2: { intros d ns. unfold named_session. destruct (suspended _); [done|]. destruct (String.eqb (ns_Mode ns) "always").
         - destruct (negb _); [destruct (findBeadBySessionName _ _) as [b|]; [destruct (negb _)|]|]; try done; apply insert_origin; scaled_neq Hr.
         - destruct (String.eqb (ns_Mode ns) "on_demand"); [|done]. destruct (String.eqb (named_demand _ _) ""); [done|].
           destruct (suspended _); [done|].
           destruct (negb _); [destruct (findBeadBySessionName _ _) as [b|]; [destruct (_ && _)|]|]; try done; apply insert_origin;
             intros E; by apply (named_demand_unscaled input (ns_Identity ns) r). }
    apply fold_origin in Hk.
    2: { intros d b. destruct (_ || _ || _); [done|]. destruct (runnable _); [|done]. apply insert_origin. scaled_neq Hr. }
    apply fold_origin in Hk; [by rewrite lookup_empty in Hk|]. intros d b. destruct (sb_PendingCreate b); [|done]. apply insert_origin. scaled_neq Hr. }
  revert Hn. generalize (named_sessions input ix (explicit_wakes ix (ai_SessionBeads input) (pending_creates (ai_SessionBeads input) ∅))).
  unfold scale_checks. induction scale as [|e l IH]; intros d Hd Hk; simpl in Hk; [done|].
  destruct (decide (scale_writes input ix e !! k = Some r)) as [He|He]; [exists e; split; [by left|done]|].
  destruct (IH (scale_template input ix d e)) as (e' & He' & Hw); [|done|exists e'; split; [by right|done]].
  rewrite scale_template_writes. intros Hu. apply lookup_union_Some_raw in Hu as [Hu|[_ Hu]]; done.
Qed.

(** The sessions a template could use: of its pool, running first, without work of their own. *)
Definition candidates (input : AwakeInput) (template : string) : list AwakeSessionBead :=
  free input (collectActiveBeads (ai_SessionBeads input) template ++ collectCreatingBeads (ai_SessionBeads input) template).

(** The ones a scale check takes: the first, as many as slots are open. *)
Definition taken (input : AwakeInput) (entry : string * Z) : list AwakeSessionBead := take (open_slots input entry) (candidates input entry.1).

Lemma taken_split input entry : taken input entry = scale_active input entry ++ scale_creating input entry.
Proof.
  unfold taken, candidates, scale_creating, scale_active, free. rewrite List.filter_app, take_app, length_take. do 2 f_equal. lia.
Qed.

Lemma scale_writes_taken input ix entry k :
  is_Some (scale_writes input ix entry !! k) <-> scaling ix entry = true /\ k ∈ sb_SessionName <$> taken input entry.
Proof.
  unfold scale_writes. rewrite taken_split, fmap_app, elem_of_app.
  destruct (scaling ix entry); [|rewrite lookup_empty; split; [intros []; done|intros []; done]].
  rewrite lookup_union, !lookup_desire_all. split.
  - intros Hs. split; [done|]. do 2 case_bool_decide; auto. by destruct Hs.
  - intros [_ Hk]. do 2 case_bool_decide; simpl; eauto. tauto.
Qed.

Lemma taken_in input entry b : b ∈ taken input entry -> b ∈ ai_SessionBeads input /\ sb_Template b = entry.1.
Proof.
  intros Hb. apply in_take, free_in, elem_of_app in Hb as [Hb|Hb]; [by apply collectActive_in|by apply collectCreating_in].
Qed.

Lemma scaled_set_taken scale input e b :
  e ∈ scale -> scaling (index_agents (ai_Agents input)) e = true -> b ∈ taken input e -> wanted (scaled_set scale input) (sb_SessionName b) = true.
Proof.
  intros He Hs Hb. unfold scaled_set. set (ix := index_agents _) in *. generalize (named_sessions input ix (explicit_wakes ix (ai_SessionBeads input) (pending_creates (ai_SessionBeads input) ∅))).
  intros d. apply list_elem_of_split in He as (l1 & l2 & ->). unfold scale_checks. rewrite fold_left_app. simpl. apply scale_checks_wanted.
  rewrite scale_template_writes. unfold wanted. rewrite lookup_union.
  destruct (proj2 (scale_writes_taken input ix e (sb_SessionName b))) as [r ->]; [split; [done|apply list_elem_of_fmap; eauto]|].
  by destruct (fold_left _ _ _ !! _).
Qed.

Lemma verdict_scaled input ix d b : by_scale (verdict input ix d b).2 -> d !! sb_SessionName b = Some (verdict input ix d b).2.
Proof.
  unfold verdict, causes. set (held := until (sb_HeldUntil b) _). set (quar := until (sb_QuarantinedUntil b) _). set (idle := idle_asleep _ _ _ _).
  assert (forall (c : bool) r v, (by_scale v.2 -> d !! sb_SessionName b = Some v.2) -> ~ by_scale r -> forall w : bool,
    by_scale (if c then (w, r) else v).2 -> d !! sb_SessionName b = Some (if c then (w, r) else v).2) as Hif by (by intros []).
  repeat (apply Hif; [|by intros []]). unfold demanded. destruct (d !! sb_SessionName b); [destruct (_ || _ || _)|]; [done|by intros []|by intros []].
Qed.

(** The sessions of a template that are awake for its demand. *)
Definition woken_for_demand (decisions : gmap string AwakeDecision) (template : string) (b : AwakeSessionBead) : bool :=
  String.eqb (sb_Template b) template
  && match decisions !! sb_SessionName b with Some dec => one_of (dc_Reason dec) ["scaled:demand"; "scaled:creating"] | None => false end.

Lemma one_of_scaled r : one_of r ["scaled:demand"; "scaled:creating"] = true <-> by_scale r.
Proof. unfold one_of, by_scale. simpl. rewrite !orb_true_iff, !String.eqb_eq. intuition discriminate. Qed.

Lemma speaker_exists input b : b ∈ ai_SessionBeads input -> exists b', speaks input b' /\ sb_SessionName b' = sb_SessionName b.
Proof.
  intros Hb. destruct (last_such_exists (fun x => sb_SessionName x = sb_SessionName b) (ai_SessionBeads input) b Hb eq_refl) as (b' & Hb').
  destruct (last_such_in _ _ _ Hb') as [_ Hn]. exists b'. split; [|done]. unfold speaks. by rewrite Hn.
Qed.

Lemma woken_taken scale work input template count b :
  one_template_per_name (ai_SessionBeads input) -> scale ≡ₚ map_to_list (ai_ScaleCheckCounts input) ->
  ai_ScaleCheckCounts input !! template = Some count -> b ∈ ai_SessionBeads input ->
  woken_for_demand (ComputeAwakeSet scale work input) template b = true ->
  sb_SessionName b ∈ sb_SessionName <$> taken input (template, count).
Proof.
  intros Hone Hs Hc Hb. destruct (speaker_exists input b Hb) as (b' & Hb' & Hn). unfold woken_for_demand. rewrite <- Hn, awake_decision by done.
  rewrite andb_true_iff, String.eqb_eq, one_of_scaled. intros [Ht Hr]. set (ix := index_agents _) in Hr. set (s := desired_set scale work input) in Hr.
  assert (dc_Reason (decide_session input ix s b') = (verdict input ix s.1 b').2) as He.
  { unfold decide_session. destruct (verdict input ix s.1 b'). by destruct (s.2 !! _). }
  rewrite He in Hr. pose proof (verdict_scaled _ _ _ _ Hr) as Hd. apply desired_set_origin in Hd; [|done].
  apply scaled_set_origin in Hd as ((t & c) & Hin & Hw); [|done].
  destruct (proj1 (scale_writes_taken input ix (t, c) (sb_SessionName b'))) as [_ Hk]; [eexists; exact Hw|].
  assert (t = template) as ->.
  { apply list_elem_of_fmap in Hk as (x & Hxn & Hx). destruct (taken_in _ _ _ Hx) as [Hxs Hxt]. simpl in Hxt. subst t template.
    apply Hone; [done|done|congruence]. }
  rewrite Hs in Hin. apply elem_of_map_to_list in Hin. assert (c = count) as -> by congruence. done.
Qed.

Lemma wanted_verdict input ix d b :
  wanted d (sb_SessionName b) = true ->
  (verdict input ix d b).1 = negb (barred input b) && negb (parked input b) && negb (idle_asleep input ix d b).
Proof.
  intros Hd. rewrite verdict_not_barred. destruct (parked input b) eqn:Hp; [rewrite causes_parked by done|rewrite causes_wanted by done];
    destruct (barred input b), (idle_asleep input ix d b); done.
Qed.

Lemma size_names (l : list string) : (size (list_to_set l : gset string) <= length l)%nat.
Proof.
  induction l as [|x l IH]; [done|]. simpl. rewrite size_union_alt, size_singleton.
  assert (size ((list_to_set l : gset string) ∖ {[x]}) <= size (list_to_set l : gset string))%nat by (apply subseteq_size; set_solver). lia.
Qed.

Lemma decide_wake input ix s b : dc_ShouldWake (decide_session input ix s b) = (verdict input ix s.1 b).1.
Proof. unfold decide_session. destruct (verdict input ix s.1 b). by destruct (s.2 !! _). Qed.

(** (C25) Demand for a pool wakes the sessions it needs and no more.  Of the sessions of a pool
    whose agent can run, without work of their own and the running ones first, a scale check
    takes as many as it asks for beyond those that are at work.  Each of them that speaks
    for its name is awake exactly unless it is held, quarantined, parked on a wait, or idle
    for longer than its timeout with nothing that exempts it.  Where sessions that share a
    name share their pool, no name is woken for the demand but one that was taken, so that
    no more names are than slots are open. *)
Theorem scale_demand_met scale work input template count :
  scale ≡ₚ map_to_list (ai_ScaleCheckCounts input) ->
  ai_ScaleCheckCounts input !! template = Some count -> 0 < count -> runnable (lookupAgent (index_agents (ai_Agents input)) template) = true ->
  let decisions := ComputeAwakeSet scale work input in
  let idle := idle_asleep input (index_agents (ai_Agents input)) (desired_set scale work input).1 in
  (forall b, b ∈ taken input (template, count) -> speaks input b ->
     exists dec, decisions !! sb_SessionName b = Some dec
       /\ dc_ShouldWake dec = negb (barred input b) && negb (parked input b) && negb (idle b))
  /\ (one_template_per_name (ai_SessionBeads input) ->
      let woken := List.filter (woken_for_demand decisions template) (ai_SessionBeads input) in
      (forall b, b ∈ woken -> sb_SessionName b ∈ sb_SessionName <$> taken input (template, count))
      /\ (size (list_to_set (sb_SessionName <$> woken) : gset string) <= open_slots input (template, count))%nat).
Proof.
  intros Hs Hc Hpos Hrun decisions idle. split.
  - intros b Hb Hsp. unfold decisions. rewrite awake_decision by done. eexists; split; [done|]. rewrite decide_wake. apply wanted_verdict.
    apply scaled_set_wanted, (scaled_set_taken _ _ (template, count)); [|unfold scaling; simpl; by rewrite (proj2 (Z.ltb_lt _ _) Hpos)|done].
    rewrite Hs. by apply elem_of_map_to_list.
  - intros Hone woken.
    assert (forall b, b ∈ woken -> sb_SessionName b ∈ sb_SessionName <$> taken input (template, count)) as Hw.
    { intros b [Hb Hwk]%in_filter. by apply (woken_taken scale work). }
    split; [done|]. trans (size (list_to_set (sb_SessionName <$> taken input (template, count)) : gset string)).
    + apply subseteq_size. intros k. rewrite !elem_of_list_to_set. intros (b & -> & Hb)%list_elem_of_fmap. by apply Hw.
    + etrans; [apply size_names|]. rewrite length_fmap. unfold taken. rewrite length_take. lia.
Qed.

(** * The minimum of a pool *)

Lemma filter_length_mono_in {A} (p q : A -> bool) l :
  (forall x, x ∈ l -> p x = true -> q x = true) -> (length (List.filter p l) <= length (List.filter q l))%nat.
Proof.
  intros Hpq. induction l as [|x l IH]; simpl; [done|].
  assert (length (List.filter p l) <= length (List.filter q l))%nat by (apply IH; intros y Hy; apply Hpq; by right).
  destruct (p x) eqn:Hp; [rewrite (Hpq x ltac:(by left) Hp)|destruct (q x)]; simpl; lia.
Qed.

Lemma filter_length_mono {A} (p q : A -> bool) l :
  (forall x, p x = true -> q x = true) -> (length (List.filter p l) <= length (List.filter q l))%nat.
Proof. intros Hpq. apply filter_length_mono_in. auto. Qed.

Lemma filter_length_strict {A} (p q : A -> bool) l x :
  (forall x, p x = true -> q x = true) -> x ∈ l -> p x = false -> q x = true -> (length (List.filter p l) < length (List.filter q l))%nat.
Proof.
  intros Hpq Hx Hp Hq. apply list_elem_of_split in Hx as (l1 & l2 & ->). rewrite !List.filter_app, !length_app. simpl. rewrite Hp, Hq. simpl.
  pose proof (filter_length_mono p q l1 Hpq). pose proof (filter_length_mono p q l2 Hpq). lia.
Qed.

Lemma covers_mono d d' t now b : (forall k, wanted d k = true -> wanted d' k = true) -> covers d t now b = true -> covers d' t now b = true.
Proof.
  intros Hd. unfold covers. destruct (negb _); [done|]. destruct (minActiveHardBlocked b now); [done|].
  destruct (String.eqb _ "asleep"); [apply Hd|done].
Qed.

Lemma covered_mono beads d d' t now :
  (forall k, wanted d k = true -> wanted d' k = true) -> countMinActiveCovered beads d t now <= countMinActiveCovered beads d' t now.
Proof. intros Hd. unfold countMinActiveCovered. pose proof (filter_length_mono _ _ beads (fun b => covers_mono d d' t now b Hd)). lia. Qed.

Lemma city_stopped_covers d t now b :
  city_stopped t b = true -> minActiveHardBlocked b now = false -> covers d t now b = wanted d (sb_SessionName b).
Proof. unfold city_stopped, covers. rewrite !andb_true_iff. intros ((-> & ->) & _) ->. done. Qed.

Lemma sort_by_id_in l b : b ∈ sort_by_id l <-> b ∈ l.
Proof.
  unfold sort_by_id. induction l as [|x l IH]; simpl; [done|].
  assert (forall s, b ∈ insert_by_id x s <-> b = x \/ b ∈ s) as Hi.
  { clear IH. induction s as [|y s IH]; simpl; [rewrite elem_of_cons; done|]. destruct (String.ltb _ _); rewrite !elem_of_cons; [rewrite IH|]; tauto. }
  rewrite Hi, IH, elem_of_cons. done.
Qed.

Lemma revive_wanted minimum now bs covered d k : wanted d k = true -> wanted (revive minimum now bs covered d) k = true.
Proof. unfold wanted. destruct (d !! k) eqn:Hk; [|done]. by rewrite (revive_keeps _ _ _ _ _ _ _ Hk). Qed.

(** Reviving ends at the minimum, or with nothing left to revive. *)
Lemma revive_enough beads t minimum now bs : forall covered d,
  (forall b, b ∈ bs -> b ∈ beads /\ city_stopped t b = true) -> covered <= countMinActiveCovered beads d t now ->
  let d' := revive minimum now bs covered d in
  minimum <= countMinActiveCovered beads d' t now \/ (forall b, b ∈ bs -> minActiveHardBlocked b now = false -> wanted d' (sb_SessionName b) = true).
Proof.
  induction bs as [|b bs IH]; intros covered d Hbs Hc; cbn [revive]; [right; intros b Hb; inversion Hb|].
  destruct (Z.leb_spec minimum covered) as [Hm|_]; [left; lia|].
  destruct (Hbs b) as [Hb Hcs]; [by left|]. assert (forall x, x ∈ bs -> x ∈ beads /\ city_stopped t x = true) as Hbs' by (intros; apply Hbs; by right).
  destruct (wanted d (sb_SessionName b)) eqn:Hw.
  { destruct (IH covered d Hbs' Hc) as [Hl|Hr]; [by left|right]. intros x Hx Hh. apply elem_of_cons in Hx as [->|Hx]; [by apply revive_wanted|by apply Hr]. }
  destruct (minActiveHardBlocked b now) eqn:Hh.
  { destruct (IH covered d Hbs' Hc) as [Hl|Hr]; [by left|right]. intros x Hx Hx'. apply elem_of_cons in Hx as [->|Hx]; [congruence|by apply Hr]. }
  assert (wanted (desire b "min-active" d) (sb_SessionName b) = true) as Hn by (unfold wanted, desire; by rewrite lookup_insert_eq).
  destruct (IH (covered + 1) (desire b "min-active" d) Hbs') as [Hl|Hr]; [|by left|right].
  - unfold countMinActiveCovered in *.
    pose proof (filter_length_strict (covers d t now) (covers (desire b "min-active" d) t now) beads b
      (fun x => covers_mono _ _ t now x (fun k => desire_wanted _ _ _ k)) Hb) as Hs.
    rewrite !city_stopped_covers in Hs by done. specialize (Hs Hw Hn). lia.
  - intros x Hx Hx'. apply elem_of_cons in Hx as [->|Hx]; [by apply revive_wanted|by apply Hr].
Qed.

Lemma min_active_agent_wanted input a d k : wanted d k = true -> wanted (min_active_agent input d a) k = true.
Proof. unfold wanted. destruct (d !! k) eqn:Hk; [|done]. by rewrite (min_active_agent_keeps _ _ _ _ _ Hk). Qed.

Lemma min_active_enough input a d :
  a ∈ ai_Agents input -> ag_Suspended a = false -> 0 < ag_MinActiveSessions a ->
  let t := ag_QualifiedName a in
  let d' := min_active input d in
  ag_MinActiveSessions a <= countMinActiveCovered (ai_SessionBeads input) d' t (ai_Now input)
  \/ (forall b, b ∈ ai_SessionBeads input -> city_stopped t b = true -> minActiveHardBlocked b (ai_Now input) = false -> wanted d' (sb_SessionName b) = true).
Proof.
  intros Ha Hs Hpos t d'. subst d'. unfold min_active. apply list_elem_of_split in Ha as (l1 & l2 & ->). rewrite fold_left_app. simpl.
  set (d1 := fold_left _ l1 d). set (d2 := min_active_agent input d1 a).
  assert (forall k, wanted d2 k = true -> wanted (fold_left (min_active_agent input) l2 d2) k = true) as Hmono.
  { intros k. apply fold_wanted. intros; by apply min_active_agent_wanted. }
  assert (ag_MinActiveSessions a <= countMinActiveCovered (ai_SessionBeads input) d2 t (ai_Now input)
    \/ (forall b, b ∈ ai_SessionBeads input -> city_stopped t b = true -> minActiveHardBlocked b (ai_Now input) = false -> wanted d2 (sb_SessionName b) = true)) as [Hl|Hr].
  { unfold d2, min_active_agent. rewrite Hs, (proj2 (Z.leb_gt _ _) Hpos). cbn [orb]. fold t.
    destruct (Z.leb_spec (ag_MinActiveSessions a) (countMinActiveCovered (ai_SessionBeads input) d1 t (ai_Now input))) as [Hc|Hc]; [by left|].
    destruct (revive_enough (ai_SessionBeads input) t (ag_MinActiveSessions a) (ai_Now input) (cityStopPoolBeads (ai_SessionBeads input) t)
      (countMinActiveCovered (ai_SessionBeads input) d1 t (ai_Now input)) d1) as [Hl|Hr]; [|lia|by left|right].
    - intros b Hb. apply sort_by_id_in, in_filter in Hb. tauto.
    - intros b Hb Hcs. apply Hr. apply sort_by_id_in, in_filter. tauto. }
  - left. etrans; [exact Hl|]. by apply covered_mono.
  - right. eauto.
Qed.

(** A session detached for longer than the idle timeout that applies to it. *)
Definition idled_out (input : AwakeInput) (b : AwakeSessionBead) : bool :=
  let timeout := idle_timeout input (index_agents (ai_Agents input)) b in
  negb (IsZero (sb_IdleSince b)) && (0 <? timeout) && (timeout <=? ai_Now input - sb_IdleSince b).

Lemma idle_asleep_out input d b : idle_asleep input (index_agents (ai_Agents input)) d b = true -> idled_out input b = true.
Proof. unfold idle_asleep, idled_out. cbv zeta. rewrite !andb_true_iff. tauto. Qed.

(** The reasons a session is desired for that leave it to its idle timeout. *)
Definition claims : list string := ["pending-create"; "explicit-wake"; "named-always"; "scaled:demand"; "scaled:creating"; "manual"].

(** The reasons that do not. *)
Definition duties : list string := ["assigned-work"; "min-active"; "reset-pending"; "named-demand"; "routed-demand"; "work-query"].

Definition known_reason (r : string) : Prop := r ∈ claims \/ r ∈ duties.

Lemma known_insert (d : Desired) k r : known_reason r -> map_Forall (fun _ => known_reason) d -> map_Forall (fun _ => known_reason) (<[k := r]> d).
Proof. intros Hr Hd. by apply map_Forall_insert_2. Qed.

Lemma fold_known {B} (f : Desired -> B -> Desired) l d :
  (forall d x, map_Forall (fun _ => known_reason) d -> map_Forall (fun _ => known_reason) (f d x)) ->
  map_Forall (fun _ => known_reason) d -> map_Forall (fun _ => known_reason) (fold_left f l d).
Proof. intros Hf. revert d. induction l as [|x l IH]; intros d Hd; simpl; [done|]. by apply IH, Hf. Qed.

Ltac known_reason := unfold known_reason, claims, duties; rewrite !elem_of_cons; tauto.

Lemma named_known input ix d ns : map_Forall (fun _ => known_reason) d -> map_Forall (fun _ => known_reason) (named_session input ix d ns).
Proof.
  intros Hd. unfold named_session. cbv zeta. assert (named_demand input (ns_Identity ns) = "" \/ known_reason (named_demand input (ns_Identity ns))) as Hr.
  { unfold named_demand. repeat (destruct (on _ _); [right; known_reason|]). by left. }
  destruct (suspended _); [done|]. destruct (String.eqb (ns_Mode ns) "always").
  - destruct (negb _); [destruct (findBeadBySessionName _ _); [destruct (negb _)|]|]; try done; apply known_insert; try done; known_reason.
  - destruct (String.eqb (ns_Mode ns) "on_demand"); [|done]. destruct (String.eqb_spec (named_demand input (ns_Identity ns)) "") as [|Hne]; [done|].
    destruct Hr as [|Hr]; [done|]. destruct (suspended _); [done|].
    destruct (negb _); [destruct (findBeadBySessionName _ _); [destruct (_ && _)|]|]; try done; by apply known_insert.
Qed.

Lemma scale_known input ix d e : map_Forall (fun _ => known_reason) d -> map_Forall (fun _ => known_reason) (scale_template input ix d e).
Proof.
  intros Hd. rewrite scale_template_writes. intros k r Hk. apply lookup_union_Some_raw in Hk as [Hk|[_ Hk]]; [|by apply (Hd k)].
  assert (by_scale r) as [-> | ->]; [|known_reason|known_reason]. unfold scale_writes in Hk. destruct (scaling ix e); [|by rewrite lookup_empty in Hk].
  apply lookup_union_Some_raw in Hk. rewrite !lookup_desire_all in Hk. unfold by_scale. destruct Hk as [Hk|[_ Hk]]; case_bool_decide; simplify_eq; tauto.
Qed.

Lemma revive_known minimum now bs : forall covered d,
  map_Forall (fun _ => known_reason) d -> map_Forall (fun _ => known_reason) (revive minimum now bs covered d).
Proof.
  induction bs as [|b bs IH]; intros covered d Hd; simpl; [done|]. destruct (_ <=? _); [done|]. destruct (wanted _ _); [by apply IH|].
  destruct (minActiveHardBlocked b now); [by apply IH|]. apply IH, known_insert; [known_reason|done].
Qed.

(** Every reason of the desired set is one or the other. *)
Lemma desired_set_known scale work input k r : (desired_set scale work input).1 !! k = Some r -> known_reason r.
Proof.
  enough (map_Forall (fun _ => known_reason) (desired_set scale work input).1) as Hd by apply Hd.
  unfold desired_set. rewrite assigned_work_split. cbn [fst].
  apply fold_known. { intros d b Hd. destruct (_ || _ || _); [done|]. destruct (one_of _ _); [done|]. apply known_insert; [known_reason|done]. }
  apply fold_known. { intros d a Hd. unfold min_active_agent. destruct (_ || _); [done|]. cbv zeta. destruct (_ <=? _); [done|]. by apply revive_known. }
  apply fold_known. { intros d b Hd. destruct (anchor_for _ _ _); [|done]. apply known_insert; [known_reason|done]. }
  apply fold_known. { intros d b Hd. destruct (_ || _ || _); [done|]. destruct (ix_byName _ !! _); [|done]. apply known_insert; [known_reason|done]. }
  apply fold_known. { intros d e Hd. rewrite work_query_target. destruct (query_target _ _ _); [|done]. apply known_insert; [known_reason|done]. }
  apply fold_known; [intros; by apply scale_known|]. apply fold_known; [intros; by apply named_known|].
  apply fold_known. { intros d b Hd. destruct (_ || _ || _); [done|]. destruct (runnable _); [|done]. apply known_insert; [known_reason|done]. }
  apply fold_known. { intros d b Hd. destruct (sb_PendingCreate b); [|done]. apply known_insert; [known_reason|done]. }
  apply map_Forall_empty.
Qed.

(** A session the tick wakes. *)
Definition wakened (decisions : gmap string AwakeDecision) (b : AwakeSessionBead) : bool :=
  match decisions !! sb_SessionName b with Some dec => dc_ShouldWake dec | None => false end.

(** A member of a pool that can run: it runs, is being created, or was asleep and is woken. *)
Definition live (decisions : gmap string AwakeDecision) (template : string) (now : Z) (b : AwakeSessionBead) : bool :=
  isMinActivePoolBead b template && negb (minActiveHardBlocked b now)
  && (String.eqb (sb_State b) "active" || String.eqb (sb_State b) "creating" || (String.eqb (sb_State b) "asleep" && wakened decisions b)).

(** A sleeping member speaks for its name and, if something other than a duty already asks
    for it, has not idled out. *)
Definition prompt (scale : list (string * Z)) (work : list (string * bool)) (input : AwakeInput) (template : string) : Prop :=
  forall b, b ∈ ai_SessionBeads input -> isMinActivePoolBead b template = true -> sb_State b = "asleep" ->
    speaks input b
    /\ forall r, (desired_set scale work input).1 !! sb_SessionName b = Some r -> r ∈ claims -> idled_out input b = false.

Lemma wanted_awake scale work input b :
  speaks input b -> (forall r, (desired_set scale work input).1 !! sb_SessionName b = Some r -> r ∈ claims -> idled_out input b = false) ->
  minActiveHardBlocked b (ai_Now input) = false ->
  wanted (desired_set scale work input).1 (sb_SessionName b) = true -> wakened (ComputeAwakeSet scale work input) b = true.
Proof.
  intros Hsp Hid Hh Hw. unfold wakened. rewrite awake_decision by done. rewrite decide_wake, wanted_verdict by done.
  unfold minActiveHardBlocked in Hh. rewrite !orb_false_iff in Hh. destruct Hh as [[Hwh Hheld] Hq]. unfold barred, parked. rewrite Hwh, Hheld, Hq. cbn [negb orb andb].
  apply negb_true_iff. unfold wanted in Hw. destruct ((desired_set scale work input).1 !! sb_SessionName b) as [r|] eqn:Hr; [|done].
  destruct (desired_set_known scale work input _ r Hr) as [Hc|Hdu].
  - apply not_true_is_false. intros Hi%idle_asleep_out. by rewrite (Hid r eq_refl Hc) in Hi.
  - apply idle_exempt_awake. rewrite Hr. simpl. unfold duties in Hdu. by repeat (apply elem_of_cons in Hdu as [->|Hdu]; [done|]); apply elem_of_nil in Hdu.
Qed.

(** What the minimum pass leaves stands in the desired set. *)
Lemma desired_set_minimum scale work input a :
  a ∈ ai_Agents input -> ag_Suspended a = false -> 0 < ag_MinActiveSessions a ->
  let t := ag_QualifiedName a in
  let d := (desired_set scale work input).1 in
  ag_MinActiveSessions a <= countMinActiveCovered (ai_SessionBeads input) d t (ai_Now input)
  \/ (forall b, b ∈ ai_SessionBeads input -> city_stopped t b = true -> minActiveHardBlocked b (ai_Now input) = false -> wanted d (sb_SessionName b) = true).
Proof.
  intros Ha Hs Hpos t d. unfold d, desired_set. match goal with |- context [assigned_work input ?ix ?d0] => destruct (assigned_work input ix d0) as [d1 an] end. cbn [fst].
  destruct (min_active_enough input a d1 Ha Hs Hpos) as [Hl|Hr].
  - left. etrans; [exact Hl|]. apply covered_mono. intros k. apply reset_wanted.
  - right. intros b Hb Hc Hh. by apply reset_wanted, Hr.
Qed.

Lemma city_stopped_asleep t b : city_stopped t b = true -> isMinActivePoolBead b t = true /\ sb_State b = "asleep".
Proof. unfold city_stopped. rewrite !andb_true_iff, !String.eqb_eq. tauto. Qed.

(** (C27) A pool keeps its minimum through a stop of the city.  Of an agent that is not
    suspended, whose sleeping sessions speak for their names and have not idled out where
    something else asks for them, either as many sessions as the minimum run, are being
    created or are woken now, or every session of it that the stop put to sleep is woken,
    however long it has been idle, but those that are held, quarantined or parked: none is
    left asleep while the pool is short. *)
Theorem min_active_kept scale work input a :
  a ∈ ai_Agents input -> ag_Suspended a = false -> prompt scale work input (ag_QualifiedName a) ->
  let decisions := ComputeAwakeSet scale work input in
  let t := ag_QualifiedName a in
  ag_MinActiveSessions a <= Z.of_nat (length (List.filter (live decisions t (ai_Now input)) (ai_SessionBeads input)))
  \/ (forall b, b ∈ ai_SessionBeads input -> city_stopped t b = true -> minActiveHardBlocked b (ai_Now input) = false -> wakened decisions b = true).
Proof.
  intros Ha Hs Hp decisions t. destruct (Z_lt_le_dec 0 (ag_MinActiveSessions a)) as [Hpos|Hneg]; [|left; lia].
  destruct (desired_set_minimum scale work input a Ha Hs Hpos) as [Hl|Hr].
  - left. etrans; [exact Hl|]. unfold countMinActiveCovered. apply inj_le. apply filter_length_mono_in. intros b Hb Hc.
    unfold covers in Hc. unfold live. fold t in Hc. destruct (isMinActivePoolBead b t) eqn:Hm; [|done]. destruct (minActiveHardBlocked b (ai_Now input)) eqn:Hh; [done|].
    cbn [negb andb] in *. destruct (String.eqb_spec (sb_State b) "asleep") as [Has|]; [|by rewrite Hc].
    destruct (Hp b Hb Hm Has) as [Hsp Hid]. assert (wakened decisions b = true) as -> by (by apply wanted_awake). by rewrite orb_true_r.
  - right. intros b Hb Hc Hh. destruct (city_stopped_asleep _ _ Hc) as [Hm Has]. destruct (Hp b Hb Hm Has) as [Hsp Hid]. by apply wanted_awake; auto.
Qed.

(** * From what is recorded to what is awake *)

#[local] Opaque infoFromPersistedBead field flag.

Section recorded.
Context `{TimeLaws} `{UnicodeTables} (cf : CityFacts) (wall now : Z).
Hypothesis now_known : 0 < now.

(** The session of a bead is the one that speaks for its name in the awake set. *)
Definition represents (sb : AwakeSessionBead) (b : Bead) (input : AwakeInput) : Prop :=
  session_bead cf wall now (infoFromPersistedBead b) = Some sb /\ speaks input sb /\ ai_Now input = now.

Lemma until_blocking dl : until (default 0 (deadline dl)) now = blocking (or_now wall now) (deadline dl).
Proof.
  unfold deadline, until, blocking, or_now. assert (IsZero now = false) as -> by (apply Z.eqb_neq; lia).
  destruct (parse_time (TrimSpace dl)) as [t|]; [|done]. destruct (IsZero t) eqn:Hz; [done|].
  change (negb (IsZero t) && (now <? t) = (now <? t)). by rewrite Hz.
Qed.

Lemma guarded_Some {A} (c c' : bool) (x y : A) : (if c then None else if c' then None else Some x) = Some y -> x = y.
Proof. destruct c, c'; congruence. Qed.

(** What a session bead carries is what the projection of the metadata says. *)
Lemma session_bead_reads b sb :
  bd_Status b <> "closed" -> session_bead cf wall now (infoFromPersistedBead b) = Some sb ->
  let v := metadata_view wall now (bd_Metadata b) in
  until (sb_HeldUntil sb) now = HasBlocker v BlockerHeld /\ until (sb_QuarantinedUntil sb) now = HasBlocker v BlockerQuarantined
  /\ sb_PendingCreate sb = HasWakeCause v WakeCausePendingCreate
  /\ sb_IdleSince sb = default 0 (parse_time (mget (bd_Metadata b) "detached_at")).
Proof.
  intros Ho Hs. cbv zeta.
  assert (view_of wall now (LifecycleInputFromInfo (infoFromPersistedBead b)) = metadata_view wall now (bd_Metadata b)) as Hv.
  { rewrite input_twin, (proj2 (String.eqb_neq _ _) Ho). by apply closed_only. }
  unfold session_bead in Hs. rewrite Hv in Hs. apply guarded_Some in Hs. subst sb. cbn [sb_HeldUntil sb_QuarantinedUntil sb_PendingCreate sb_IdleSince].
  destruct (view_deadlines wall now (bd_Metadata b)) as [-> ->]. rewrite !view_blockers, !until_blocking.
  split; [done|]. split; [done|]. split; [done|]. read_info. done.
Qed.

Lemma represented_decision b sb input scale work :
  represents sb b input ->
  exists dec d, ComputeAwakeSet scale work input !! sb_SessionName sb = Some dec
  /\ dc_ShouldWake dec = (verdict input (index_agents (ai_Agents input)) d sb).1 /\ d = (desired_set scale work input).1.
Proof.
  intros (_ & Hsp & _). rewrite awake_decision by done. do 2 eexists. split; [done|]. split; [apply decide_wake|done].
Qed.

Lemma blocked_asleep b sb input scale work :
  bd_Status b <> "closed" -> represents sb b input ->
  let v := metadata_view wall now (bd_Metadata b) in
  HasBlocker v BlockerHeld || HasBlocker v BlockerQuarantined = true ->
  exists dec, ComputeAwakeSet scale work input !! sb_SessionName sb = Some dec /\ dc_ShouldWake dec = false.
Proof.
  intros Ho Hr v Hb. destruct (represented_decision b sb input scale work Hr) as (dec & d & Hd & Hw & _). exists dec. split; [done|].
  destruct Hr as (Hs & _ & Hn). destruct (session_bead_reads b sb Ho Hs) as (Hh & Hq & _).
  rewrite Hw, verdict_not_barred. unfold barred. rewrite Hn, Hh, Hq. fold v. rewrite Hb. cbn [negb]. by rewrite andb_false_r.
Qed.

Lemma pending_wanted scale work input b :
  b ∈ ai_SessionBeads input -> sb_PendingCreate b = true -> wanted (desired_set scale work input).1 (sb_SessionName b) = true.
Proof.
  intros Hb Hp. apply scaled_set_wanted. unfold scaled_set. apply scale_checks_wanted.
  assert (wanted (pending_creates (ai_SessionBeads input) ∅) (sb_SessionName b) = true) as Hw.
  { unfold pending_creates. apply list_elem_of_split in Hb as (l1 & l2 & ->). rewrite fold_left_app. simpl. rewrite Hp. apply fold_wanted.
    - intros d x Hd. destruct (sb_PendingCreate x); [by apply desire_wanted|done].
    - unfold wanted, desire. by rewrite lookup_insert_eq. }
  unfold named_sessions. apply fold_wanted.
  - intros d ns Hd. unfold named_session.
    assert (forall k r, wanted (<[k := r]> d) (sb_SessionName b) = true) as Hi.
    { intros k r. unfold wanted in *. destruct (decide (k = sb_SessionName b)) as [->|Hk]; [by rewrite lookup_insert_eq|by rewrite lookup_insert_ne]. }
    repeat match goal with
    | |- wanted (if ?c then _ else _) _ = true => destruct c
    | |- wanted (match ?c with Some _ => _ | None => _ end) _ = true => destruct c
    | |- wanted (let _ := _ in _) _ = true => cbv zeta
    end; auto.
  - unfold explicit_wakes. apply fold_wanted; [|done]. intros d x Hd. destruct (_ || _ || _); [done|]. destruct (runnable _); [by apply desire_wanted|done].
Qed.

Lemma claimed_awake b sb input scale work :
  bd_Status b <> "closed" -> represents sb b input ->
  let v := metadata_view wall now (bd_Metadata b) in
  lv_Blockers v = [] -> HasWakeCause v WakeCausePendingCreate = true -> idled_out input sb = false ->
  exists dec, ComputeAwakeSet scale work input !! sb_SessionName sb = Some dec /\ dc_ShouldWake dec = true.
Proof.
  intros Ho Hr v Hb Hc Hd. destruct (represented_decision b sb input scale work Hr) as (dec & d & Hl & Hw & ->). exists dec. split; [done|].
  destruct Hr as (Hs & Hsp & Hn). destruct (session_bead_reads b sb Ho Hs) as (Hh & Hq & Hp & _). fold v in Hh, Hq, Hp. rewrite Hc in Hp.
  unfold HasBlocker in Hh, Hq. rewrite Hb in Hh, Hq. change (until (sb_HeldUntil sb) now = false) in Hh. change (until (sb_QuarantinedUntil sb) now = false) in Hq.
  rewrite Hw, wanted_verdict by (apply pending_wanted; [by apply speaks_in|done]). unfold barred, parked. rewrite Hn, Hh, Hq, Hp. cbn [negb orb andb].
  rewrite andb_false_r. cbn [negb andb]. apply negb_true_iff, not_true_is_false. intros Hi%idle_asleep_out. congruence.
Qed.

Lemma attached_not_out b sb input :
  bd_Status b <> "closed" -> represents sb b input -> mget (bd_Metadata b) "detached_at" = "" -> idled_out input sb = false.
Proof.
  intros Ho (Hs & _ & _) Hd. destruct (session_bead_reads b sb Ho Hs) as (_ & _ & _ & Hi). rewrite Hd, parse_empty in Hi. cbn [default] in Hi.
  unfold idled_out. by rewrite Hi.
Qed.

(** (C23) The awake set does what the lifecycle records, of a session that speaks for its
    name.  One whose projection is held or quarantined is not awake, whatever asks for it;
    one that was just asked to wake is awake, whatever else, unless it was detached before
    and has idled out since; and one that died five times in a row right after its start is
    woken by nothing until the second its quarantine ends. *)
Theorem lifecycle_governs_awake scale work input b sb :
  bd_Status b <> "closed" ->
  (let v := metadata_view wall now (bd_Metadata b) in
   represents sb b input -> HasBlocker v BlockerHeld || HasBlocker v BlockerQuarantined = true ->
   exists dec, ComputeAwakeSet scale work input !! sb_SessionName sb = Some dec /\ dc_ShouldWake dec = false)
  /\ (forall reason t, represents sb (patched (RequestWakePatch wall reason t) b) input ->
      mget (bd_Metadata b) "detached_at" = "" \/ idled_out input sb = false ->
      exists dec, ComputeAwakeSet scale work input !! sb_SessionName sb = Some dec /\ dc_ShouldWake dec = true)
  /\ (forall cfg startup cs c, Forall rapid cs -> not_subprocess cfg -> Atoi_value (mget (bd_Metadata b) "wake_attempts") = 0 ->
      length cs = 5%nat -> last cs = Some c -> ns_second <= cy_now c + defaultQuarantineDuration < year_10000 ->
      now < ns_second * ((cy_now c + defaultQuarantineDuration) / ns_second) -> represents sb (crash_loop wall cfg startup cs b).1 input ->
      exists dec, ComputeAwakeSet scale work input !! sb_SessionName sb = Some dec /\ dc_ShouldWake dec = false).
Proof.
  intros Ho. split; [by apply blocked_asleep|]. split.
  - intros reason t Hr Hd. destruct (RequestWake_lands wall now (bd_Metadata b) reason t) as (_ & Hb & Hc & _).
    apply (claimed_awake (patched (RequestWakePatch wall reason t) b)); [done|done|exact Hb|exact Hc|].
    destruct Hd as [Hd|Hd]; [|done]. apply (attached_not_out (patched (RequestWakePatch wall reason t) b)); [done|done|].
    rewrite metadata_patched. unfold RequestWakePatch. read_patch. done.
  - intros cfg startup cs c Hrap Hp E0 Hlen Hlast Hu Hlt Hr.
    destruct (crash_loop_counts wall cfg startup cs b Hrap Hp Ho E0 ltac:(lia)) as (b' & E & S & _ & _ & _ & L). rewrite E in Hr. cbn [fst] in Hr.
    apply (blocked_asleep b'); [by rewrite S|done|]. destruct (L c Hlen Hlast) as [Eq _].
    rewrite (view_blockers wall now _ BlockerQuarantined), Eq, deadline_format by done. unfold blocking, or_now.
    assert (IsZero now = false) as -> by (apply Z.eqb_neq; lia). rewrite (proj2 (Z.ltb_lt _ _) Hlt). apply orb_true_r.
Qed.
End recorded.

(** * Instances *)

Definition pool_session (id state : string) : AwakeSessionBead :=
  mkSessionBead id ("s-" +:+ id) "app/worker" state (if String.eqb state "asleep" then SleepReasonCityStop else "") false false false false "" false false
    false false 0 0 0 0 false false (if String.eqb id "2" then "w-9" else "").

(** A city with two agents: one pool with two running sessions, one of them at work, one being
    created and two that a stop put to sleep. *)
Definition example_city : AwakeInput :=
  mkAwakeInput [mkAgent "app/worker" [] false 0 4; mkAgent "app/judge" [] true 0 0] []
    [pool_session "1" "active"; pool_session "2" "active"; pool_session "3" "creating"; pool_session "4" "asleep"; pool_session "5" "asleep"]
    [mkWorkBead "w-1" "s-2" "open" false false; mkWorkBead "w-2" "s-2" "in_progress" false false]
    {["app/worker" := 2; "app/judge" := 1]} ∅ ∅ ∅ {["app/judge" := true]} ∅ ∅ ∅ ∅ 0 0 100.

Definition example_scale : list (string * Z) := map_to_list (ai_ScaleCheckCounts example_city).
Definition example_work : list (string * bool) := map_to_list (ai_WorkSet example_city).

Example example_decisions :
  (fun b => dc_Reason <$> (ComputeAwakeSet example_scale example_work example_city !! sb_SessionName b)) <$> ai_SessionBeads example_city
  = [Some "scaled:demand"; Some "assigned-work"; Some ""; Some "min-active"; Some ""].
Proof. vm_compute. reflexivity. Qed.

Lemma example_names : NoDup (sb_SessionName <$> ai_SessionBeads example_city).
Proof. apply (bool_decide_unpack _). vm_compute. exact I. Defined.

Lemma awake_order_irrelevant_witness :
  ComputeAwakeSet example_scale example_work example_city = ComputeAwakeSet (rev example_scale) example_work example_city.
Proof.
  assert (rev example_scale ≡ₚ map_to_list (ai_ScaleCheckCounts example_city)) as Hs by (symmetry; apply Permutation_rev).
  refine (proj2 (awake_order_irrelevant example_city example_scale (rev example_scale) example_work example_work (reflexivity _) Hs (reflexivity _) (reflexivity _)) _).
  intros b b' Hb Hb' _. unfold example_city in Hb, Hb'. cbn [ai_SessionBeads] in Hb, Hb'.
  assert (forall x, x ∈ ai_SessionBeads example_city -> sb_Template x = "app/worker") as Ht.
  { apply (proj1 (Forall_forall _ _)). repeat constructor. }
  rewrite (Ht b Hb). symmetry. exact (Ht b' Hb').
Defined.

Lemma assigned_work_wakes_witness :
  exists dec, ComputeAwakeSet example_scale example_work example_city !! "s-2" = Some dec
  /\ dc_AssignedWorkBeadID dec = "w-2" /\ dc_RequiresFreshCycle dec = true /\ dc_ShouldWake dec = true.
Proof.
  assert (pool_session "2" "active" ∈ ai_SessionBeads example_city) as Hb by (right; left).
  pose proof (speaks_unique example_city _ example_names Hb) as Hsp.
  assert (Forall (fun w => wk_ID w <> "") (ai_WorkBeads example_city)) as Hw by (repeat constructor; discriminate).
  destruct (assigned_work_wakes example_scale example_work example_city (pool_session "2" "active") Hsp Hw) as (dec & Hd & _ & Hx).
  exists dec. split; [exact Hd|]. destruct (Hx (pool_session "2" "active")) as (Ha & Hf & Hs).
  - destruct Hsp as (before & after & E & _ & Hafter). exists before, after. split; [exact E|]. split; [split; [reflexivity|vm_compute; discriminate]|].
    eapply Forall_impl; [exact Hafter|]. intros x Hn [Hy _]. exact (Hn Hy).
  - rewrite Ha, Hf, Hs. vm_compute. repeat split; reflexivity.
Defined.

Lemma example_pools : one_template_per_name (ai_SessionBeads example_city).
Proof.
  assert (forall x, x ∈ ai_SessionBeads example_city -> sb_Template x = "app/worker") as Ht by (apply (proj1 (Forall_forall _ _)); repeat constructor).
  intros b b' Hb Hb' _. rewrite (Ht b Hb). symmetry. exact (Ht b' Hb').
Defined.

Lemma scale_demand_met_witness :
  (exists dec, ComputeAwakeSet example_scale example_work example_city !! "s-1" = Some dec /\ dc_ShouldWake dec = true)
  /\ (size (list_to_set (sb_SessionName <$> List.filter (woken_for_demand (ComputeAwakeSet example_scale example_work example_city) "app/worker")
        (ai_SessionBeads example_city)) : gset string) <= 1)%nat.
Proof.
  assert (ai_ScaleCheckCounts example_city !! "app/worker" = Some 2) as Hc by (vm_compute; reflexivity).
  assert (runnable (lookupAgent (index_agents (ai_Agents example_city)) "app/worker") = true) as Hr by (vm_compute; reflexivity).
  destruct (scale_demand_met example_scale example_work example_city "app/worker" 2 (reflexivity _) Hc ltac:(lia) Hr) as (Hw & Hl).
  split; [|exact (proj2 (Hl example_pools))].
  destruct (Hw (pool_session "1" "active")) as (dec & Hd & Hs).
  - assert (taken example_city ("app/worker", 2) = [pool_session "1" "active"]) as -> by (vm_compute; reflexivity). left.
  - apply (speaks_unique example_city _ example_names). left.
  - exists dec. split; [exact Hd|]. rewrite Hs. vm_compute. reflexivity.
Defined.

Lemma example_prompt : prompt example_scale example_work example_city "app/worker".
Proof.
  intros b Hb _ Hst. split; [exact (speaks_unique example_city _ example_names Hb)|]. intros r _ _.
  assert (forall x, x ∈ ai_SessionBeads example_city -> sb_IdleSince x = 0) as Hi by (apply (proj1 (Forall_forall _ _)); repeat constructor).
  unfold idled_out. rewrite (Hi b Hb). reflexivity.
Defined.

Lemma min_active_kept_witness :
  4 <= Z.of_nat (length (List.filter (live (ComputeAwakeSet example_scale example_work example_city) "app/worker" 100) (ai_SessionBeads example_city))).
Proof.
  assert (mkAgent "app/worker" [] false 0 4 ∈ ai_Agents example_city) as Ha by left.
  destruct (min_active_kept example_scale example_work example_city (mkAgent "app/worker" [] false 0 4) Ha eq_refl example_prompt) as [Hl|Hr]; [exact Hl|].
  exfalso. assert (pool_session "5" "asleep" ∈ ai_SessionBeads example_city) as Hb by (do 4 right; left).
  assert (wakened (ComputeAwakeSet example_scale example_work example_city) (pool_session "5" "asleep") = true) as Hk
    by (apply (Hr _ Hb); vm_compute; reflexivity).
  vm_compute in Hk. discriminate Hk.
Defined.

(** A pool of minimum one whose sessions a stop of the city put to sleep.  A create claim on
    the first counts it as covered, and asks for it without exempting it from the idle
    timeout, so the claim is never launched and the pool stays cold; without the claim it is
    woken, idle as it is. *)
Definition stopped_pool (claimed : bool) : AwakeInput :=
  let session id claim :=
    mkSessionBead id ("s-" +:+ id) "app/worker" "asleep" SleepReasonCityStop false claim false false "" false false false false 0 0 10 0 false false "" in
  mkAwakeInput [mkAgent "app/worker" [] false 30 1] [] [session "1" claimed; session "2" false] [] ∅ ∅ ∅ ∅ ∅ ∅ ∅ ∅ ∅ 0 0 100.

Theorem idle_claim_leaves_pool_cold :
  (fun name => dc_ShouldWake <$> (ComputeAwakeSet [] [] (stopped_pool true) !! name)) <$> ["s-1"; "s-2"] = [Some false; Some false]
  /\ (fun name => dc_ShouldWake <$> (ComputeAwakeSet [] [] (stopped_pool false) !! name)) <$> ["s-1"; "s-2"] = [Some true; Some false].
Proof. split; vm_compute; reflexivity. Qed.

(** Sessions of two templates that share a name: how the pool was filled depends on the order. *)
Definition shared_name : AwakeInput :=
  mkAwakeInput [mkAgent "a" [] false 0 0; mkAgent "b" [] false 0 0] []
    [mkSessionBead "1" "s" "a" "active" "" false false false false "" false false false false 0 0 0 0 false false "";
     mkSessionBead "2" "s" "b" "creating" "" false false false false "" false false false false 0 0 0 0 false false ""]
    [] {["a" := 1; "b" := 1]} ∅ ∅ ∅ ∅ ∅ ∅ ∅ ∅ 0 0 100.

Example reason_by_order :
  dc_Reason <$> (ComputeAwakeSet [("a", 1); ("b", 1)] [] shared_name !! "s") = Some "scaled:creating"
  /\ dc_Reason <$> (ComputeAwakeSet [("b", 1); ("a", 1)] [] shared_name !! "s") = Some "scaled:demand".
Proof. vm_compute. split; reflexivity. Qed.

(** A session kept always, under a name of its own, of an agent that is suspended. *)
Definition suspended_template (mode : string) : AwakeInput :=
  mkAwakeInput [mkAgent "app/judge" [] true 0 0] [mkNamed "app/mayor" "app/judge" mode "s-mayor"]
    [mkSessionBead "1" "s-mayor" "app/judge" "asleep" "" false false false false "app/mayor" true false false false 0 0 0 0 false false ""]
    [] ∅ {["app/mayor" := true]} ∅ ∅ ∅ ∅ ∅ ∅ ∅ 0 0 100.

Example always_despite_suspension :
  dc_ShouldWake <$> (ComputeAwakeSet [] [] (suspended_template "always") !! "s-mayor") = Some true
  /\ dc_ShouldWake <$> (ComputeAwakeSet [] [] (suspended_template "on_demand") !! "s-mayor") = Some false.
Proof. vm_compute. split; reflexivity. Qed.

Definition named_bead : Bead := set_Metadata {["session_name" := "s-1"; "template" := "app/worker"]} example_bead.
Definition asked_bead : Bead := patched (@RequestWakePatch digit_time 5 "operator" 6) named_bead.
Definition example_facts : CityFacts := mkCityFacts (ai_Agents example_city) [] Some (fun _ => "") 0 0.
Definition asked_session : AwakeSessionBead :=
  default (pool_session "1" "active") (@session_bead digit_time example_facts 5 7 (@infoFromPersistedBead digit_time asked_bead)).
Definition asked_input : AwakeInput := mkAwakeInput (ai_Agents example_city) [] [asked_session] [] ∅ ∅ ∅ ∅ ∅ ∅ ∅ ∅ ∅ 0 0 7.

Lemma lifecycle_governs_awake_witness :
  exists dec, ComputeAwakeSet [] [] asked_input !! sb_SessionName asked_session = Some dec /\ dc_ShouldWake dec = true.
Proof.
  assert (0 < 7) as Hn by lia. assert (bd_Status named_bead <> "closed") as Ho by discriminate.
  assert (@session_bead digit_time example_facts 5 7 (@infoFromPersistedBead digit_time asked_bead) = Some asked_session) as Hs by (vm_compute; reflexivity).
  assert (speaks asked_input asked_session) as Hsp by (apply (speaks_unique asked_input asked_session); [apply NoDup_singleton|left]).
  destruct (@lifecycle_governs_awake digit_time digit_time_laws (Build_UnicodeTables id) example_facts 5 7 Hn [] [] asked_input named_bead asked_session Ho)
    as (_ & Hask & _).
  apply (Hask "operator" 6); [exact (conj Hs (conj Hsp eq_refl))|left; vm_compute; reflexivity].
Defined.
